(* ===== verification/_CoqProject ===== *)
-Q . S2P
Prelude.v
GoStrings.v
GoStd.v
GoJson.v
GoJsonSpec.v
GoPath.v
GoURL.v
GoNet.v
VfsBase.v
VfsMemory.v
VfsMemorySpec.v
VfsReadonly.v
VfsRealFS.v
VfsRouter.v
VfsHooks.v
VfsIntercept.v
VfsServer.v
Api.v
ApiConfig.v
SandboxVfs.v
PolicyGlob.v
PolicyRules.v
PolicyEngine.v
PolicySpec.v
PolicyLeak.v
PolicyHttp.v
Proxy.v
ProxySpec.v
Db.v
Lifecycle.v
LifecycleSpec.v
State.v
Subnets.v
SubnetsSpec.v
StateSpec.v
Reconcile.v
ReconcileSpec.v
Wire.v
WireSpec.v
Exec.v
GuestAgent.v
ExecSpec.v
SandboxExec.v
Relay.v
RelaySpec.v
Rpc.v
RpcSpec.v
RpcMachine.v
RpcInput.v
RpcExamples.v
Fused.v
FusedCodec.v
FusedSpec.v
FusedFiles.v
Sdk.v
SdkSpec.v
SdkRpc.v
SdkExamples.v
Boot.v
BootConfig.v
BootSpec.v
GuestInit.v
GuestInitSpec.v
GuestFiles.v
GuestExamples.v
Firewall.v
FirewallSpec.v
DnsForwarder.v
SandboxHost.v
SandboxLife.v
SandboxRun.v
SandboxSpec.v
SandboxNew.v
SandboxLifeSpec.v
SandboxExamples.v
SandboxDarwin.v
SandboxDarwinSpec.v
SandboxDarwinExamples.v
