(* ===== verification/Prelude.v ===== *)
(** * Matchlock: a verification library

    Matchlock runs untrusted programs in a micro virtual machine. The host shares
    directories with the guest through a virtual file system (VFS), decides which hosts
    the guest may reach and what may be sent to them (the policy engine, in an
    intercepting proxy behind a firewall), keeps records of the VMs it started (state database,
    lifecycle records, subnets), describes them to the hypervisor and boots them (kernel
    arguments, drives, an init in the guest), runs commands in them (a wire protocol over vsock,
    an agent in the guest, a relay for other processes of the host), and serves clients over
    JSON-RPC, of which the Go SDK is one. This library models that core of the Go sources and proves what
    makes it correct. This file is its root: the notations, the error and state monads, the
    machine integers and the lemmas the other files share.

    ** How the code is modelled

    - A Go function becomes a function with the name it has in the source (a method
      [T.m] becomes [T_m]). A function that cannot fail or touch shared state is pure.
      A pair [(value, error)] is [result]. A function that reads or writes shared state
      is in [M W], a state monad over a world [W] whose [None] is a run-time panic.
    - Shared, aliased or mutable objects live in the world: the heap of in-memory files
      (paths and handles alias the objects), the hook engine's queue and flags, the
      cache of secret files, the tables of the database.
    - What is not in the sources is a parameter: the operating system ([OsFS],
      [host_env], [host_ops], [net_ops]: records with a field per function called), the
      CBOR codec, callbacks, the resolver, the clock. Theorems quantify over them.
      The parts of the Go library the code computes with are defined, not assumed
      (GoStrings, GoStd, GoPath, GoURL, GoNet, and encoding/json in GoJson). A type that
      crosses a socket as JSON is an instance of [Codec], and GoJsonSpec's [CodecLaws] is what
      clients are proved against: decoding what was encoded gives the value back.
    - Iteration over a Go map is iteration over a list that is the order of that
      [range]; a theorem that holds for every such list holds for every order.
    - A sequence of steps stands for interleaving: a mutex makes an operation one step, for
      those who share it; the database makes a statement or a transaction one step, and any
      statement may fail ([sg_faults] in Db). Sleeps, timeouts and deadlocks are not modelled.

    ** The parts

    File system: VfsBase (provider.go, guestflags*.go: interfaces as records),
    VfsMemory (memory.go), VfsReadonly (readonly.go), VfsRealFS (realfs.go), VfsRouter
    (router.go), VfsHooks (hooks.go), VfsIntercept (interceptor.go), VfsServer
    (server.go), all of pkg/vfs. A request of a guest goes through the server's
    [VFSServer_dispatch], the interceptor, the router, and the provider of the mount.
    SandboxVfs (pkg/sandbox/sandbox_common.go, vfs_hooks.go) builds that stack from a
    configuration, whose types and validation are in Api (pkg/api). Fused is the other end in
    the guest (internal/guestruntime/fused): the FUSE daemon that turns the kernel's requests
    into those of the server. Both declare the protocol;
    FusedCodec encodes and decodes by each declaration. go-fuse's tree of inodes is an interface,
    the class [FsTree] of FusedSpec, with an instance: an inode that go-fuse knows by its number
    and mode is used again for a new one.

    Network policy: PolicyGlob (host patterns), PolicyRules (network_hooks.go,
    network_callback.go), PolicyEngine (engine.go), all of pkg/policy. Proxy (pkg/net:
    http.go, connpool.go, the passthrough of proxy.go) reads a guest's requests, puts them
    to [IsHostAllowed] and [OnRequest], forwards them over its pool of connections, and
    puts the responses to [OnResponse]. Firewall (pkg/net/nftables.go) builds the tables that
    send a guest's packets to the proxy, as lists of nftables expressions; the kernel's side of
    them is the class [Nftables] of FirewallSpec, with an evaluator as its instance.
    DnsForwarder (pkg/net/dns_forwarder.go) is the step relation [dns_step].

    Sandboxes: SandboxHost (pkg/sandbox/rootfs.go, overlay_snapshot.go) and SandboxLife
    (sandbox_linux.go: [New], [Start], [Stop], [Close]; kernel.go) put the parts together, and
    SandboxDarwin (sandbox_darwin.go) does in its order, with what both systems share. What a
    sandbox asks of its host is a [call], answered by a function of all calls before it; what it
    holds is read off the trace of the calls ([holds]): a release that the host answers with an
    error leaves the resource held, and [stuck]. The registry, the subnets, the lifecycle
    records, the allow list and the assembly of the VFS are the operations of their components.

    Machines: Boot (pkg/vm/backend.go, the kernel arguments and drives of pkg/vm/linux and
    pkg/vm/darwin, overlay_limits.go), BootConfig ([parseBootConfig] of cmd/guest-init) and
    GuestInit (the rest of cmd/guest-init: [runInit] as a program of system calls, whose answers
    are the kernel's). A back end writes a command line, which the guest's init reads; its
    devices are the back end's drives in order.

    Records of VMs: Db (pkg/storedb, the schemas), Lifecycle (record.go,
    state_machine.go), State (state.go), Subnets (subnet.go), Reconcile (reconcile*.go,
    manager.go; of pkg/vm/linux/tap.go what it calls). [VMManager_Remove] reconciles a
    VM, which releases its subnet, disks, TAP device and firewall tables step by step
    and records each in its lifecycle record, and then removes its registration.

    Commands: Wire (pkg/vsock/wire.go, exec_relay.go and the agent: frames, short reads,
    senders with and without a lock as the step relation [wire_step]), Exec (the host's side
    in pkg/vsock and pkg/vm/linux/backend.go), GuestAgent (internal/guestruntime/agent),
    SandboxExec (environment and quoting in pkg/sandbox/sandbox_common.go) and Relay
    (exec_relay.go, the policy operations of sandbox_linux.go, port_forward.go). A connection
    is the list of segments its reads deliver; a loop that reads messages is a fold over them
    ([loop_messages]); a goroutine is what it sends, does to the command, or returns.

    Clients: Rpc (pkg/rpc/handler.go, and pkg/api/config.go, cpu.go and add_host.go in
    ApiConfig). A handler of a method is a program of actions ([prog], a free monad) on the
    handler's fields, the machine, the channels of input and the output; the loop that
    reads requests, the goroutines and what machines do meanwhile are the step relation
    [rpc_step], whose runs RpcSpec, RpcMachine and RpcInput are about. Configurations as
    JSON, the texts of errors, and the quoting of an image's command are parameters. Sdk is
    the client in Go (pkg/sdk: protocol.go, exec.go, files.go, log.go, allow_list.go,
    port_forward.go): its callers and the goroutine that reads responses are the step relation
    [client_step], and SdkRpc puts the two ends of the lines together.

    ** What the theorems show

    - Confinement (SandboxVfs): a guest's requests depend on and change only the shared
      directories; a sandbox of read-only mounts cannot change the host. Both are about
      the whole stack, for every sequence of requests, and follow from relational
      theorems of the layers (VfsRealFS, VfsReadonly, VfsRouter, VfsIntercept, VfsServer).
    - The in-memory file system (VfsMemory, VfsMemorySpec): every reachable store is
      well formed, path operations never panic, handles refine POSIX files, written data
      is read back, listings are exact.
    - Router, hooks, interceptor, server: longest-prefix resolution of element paths, rules decide exactly
      what they say, a blocked operation reaches nothing, handles are never reused, the
      connection answers in order.
    - Configuration (Api): what parses and validates is safe to mount; secrets round-trip.
    - Policy (PolicySpec, PolicyLeak, PolicyHttp): host patterns decide a reference
      relation, private addresses are refused, the path gate judges the canonical path element by
      element when its prefixes are directories,
      secret values do not influence what goes to other hosts, placeholders that leak
      are caught, mutations and event streams are exact, responses stay well framed.
    - Proxy (ProxySpec): a small logic for the events a computation can cause shows that
      nothing goes upstream but what the engine passed, on a connection to the host it was
      passed for, reused connections included, and that the guest gets what the engine passed,
      streamed bodies included; a refusal is one error answer and no more (of a TLS connection,
      none), reported if the channel of events has room.
    - Records (LifecycleSpec, SubnetsSpec, StateSpec, ReconcileSpec): histories are
      append-only under any interleaving and any failures, each phase follows by the state machine
      the one its writer had read, and the one before it when updates do not overlap;
      writes retry and are all or nothing, subnets are never shared, a VM whose process
      runs is not removed or cleaned unless forced, a reconciliation ends in the phase its result says.
    - Commands (WireSpec, ExecSpec, SandboxExec, RelaySpec): frames sent under a lock stay
      whole in every interleaving, and without it can be forged; output whose frames
      arrive whole reaches the caller exactly, in every mode and through the relay; input reaches the command exactly, and
      when a lost connection ends it; files of the guest are read exactly; an update through
      the relay is the engine's; commands never see the values of secrets.
    - Requests of clients (RpcSpec, RpcMachine, RpcInput; RpcExamples has concrete runs): in
      every interleaving each request that is handled is answered once, what is done to a machine is done to
      the current one while it lives, input reaches its command exactly; and what keeps a
      cancel from being read.
    - The firewall (FirewallSpec): what the table does with a guest's packets at the hooks, and that none of its
      UDP but DNS to a configured server is forwarded, whatever other tables accept. The DNS
      forwarder (in DnsForwarder): clients get answers of configured servers to their own
      queries; connections and queues are bounded, and gone once it is closed.
    - Sandboxes (SandboxRun, SandboxSpec, SandboxNew, SandboxLifeSpec, SandboxDarwinSpec;
      SandboxExamples and SandboxDarwinExamples have runs):
      whatever the host answers, a sandbox that cannot be made and one that is closed give back
      what they took but for named remains and what the host refuses to take, the lease of the subnet included, and a guest starts
      behind its firewall or network stack. [wp] is "returns, and", [lets] composes what cleanups give back.
    - Booting (BootSpec, GuestInitSpec, GuestFiles; GuestExamples boots a machine): the guest's
      init reads exactly the configuration the host wrote, mounts the drives that were meant, in
      every run starts the agent only after everything succeeded in order, and ends; its tables
      of names, swap headers and device-mapper requests are what readers of those formats see.
    - The FUSE daemon (FusedSpec, FusedFiles): the paths it keeps are those of the tree
      after every rename, unless go-fuse takes a known inode for a new one; an open file keeps
      what was written to it, unless it is itself written, whatever becomes of its path; its
      declaration of the protocol and the server's agree over the connection.
    - The Go client (SdkSpec, SdkRpc; SdkExamples): a call gets its own answer, a command and
      its input arrive as they were given and its result as the machine gave it; and how the
      client can block for ever.
    - Some theorems exhibit what the code gets wrong on a concrete input (a guest request
      that panics the server, a network handed to two VMs, gates and lists that can be
      bypassed); they are stated as facts about the model, next to the code they concern.

    ** Fuel and bounds

    Structural recursion is used wherever the code's loops are over a list or a string.
    [transform_lines], [match_pattern], [ipv6_groups] and the number routines take fuel
    at least the length of their input; each iteration consumes a byte or a digit, and the
    theorems about them hold for that fuel, not "if it returns". [sort_by] is a stable
    insertion sort. The write retry has the source's eight attempts; [first_free] visits
    the source's 155 octets. The proxy's request loops recurse over the list of engines their
    requests meet, so a theorem for every list covers every number of requests; the copying
    of a body takes as fuel the bytes it holds plus one. [read_full] takes the segments of the
    connection plus two (a round but the last exhausts one), [for_messages] the bytes of the connection plus one (a frame has
    at least five), the JSON parser twice the length of its input. The wait of the guest's init for the
    workspace has [wait_fuel] rounds, two more than the steps in its time limit; that they are
    never used up on a clock that goes on is [init_ends]. Integers that come from a guest are kept at 64 or 32 bits
    ([int64], [uint32], …).

    ** Not modelled

    Sockets, TLS, the HTTP codec, the driving of Firecracker and of Apple's framework, the image
    store, the user-space network stack of darwin, the copy of a snapshot (one call here), the SDK's
    builder and hooks, and the command line: I/O and calls of libraries and tools.
    Of modelled parts: JSON and time texts in the database (a column is what it decodes to;
    strings are valid UTF-8), VM log files, the migrations, the goroutines of Serve, hook
    deadlines, the time a close may take, process isolation in the agent. JSON numbers other than
    integers are not read; no modelled message has one. The other darwin variants are modelled
    where they differ by a value (error numbers, flags, process tests). *)

From Stdlib Require Export Ascii.
From stdpp Require Export prelude fin_maps gmap strings list.
From Stdlib Require Export ZArith Lia.

Declare Scope matchlock_scope.
Delimit Scope matchlock_scope with matchlock.
#[global] Open Scope Z_scope.
#[global] Open Scope list_scope.
#[global] Open Scope matchlock_scope.

(** ** Results: a Go pair [(value, error)] whose value is meaningless when the
    error is set. *)

Inductive result (E A : Type) : Type :=
| Ok (a : A)
| Err (e : E).
Arguments Ok {E A} a.
Arguments Err {E A} e.

Definition result_err {E A} (r : result E A) : option E :=
  match r with Ok _ => None | Err e => Some e end.

Definition is_Ok {E A} (r : result E A) : bool :=
  match r with Ok _ => true | Err _ => false end.

#[export] Instance result_ret E : MRet (result E) := λ A a, Ok a.
#[export] Instance result_bind E : MBind (result E) := λ A B f r,
  match r with Ok a => f a | Err e => Err e end.

Lemma result_bind_Ok {E A B} (r : result E A) (f : A → result E B) b :
  r ≫= f = Ok b ↔ ∃ a, r = Ok a ∧ f a = Ok b.
Proof. destruct r; cbn; naive_solver. Qed.

(** ** State and panics

    A Go statement that reads and writes the world [W] and may panic. [None] is
    a run-time panic: the goroutine (and, without a [recover], the process)
    dies, so nothing after it happens. *)

Definition M (W A : Type) : Type := W → option (A * W).

#[export] Instance M_ret W : MRet (M W) := λ A a w, Some (a, w).
#[export] Instance M_bind W : MBind (M W) := λ A B f m w,
  match m w with Some (a, w') => f a w' | None => None end.

Definition panic {W A} : M W A := λ _, None.
Definition getw {W} : M W W := λ w, Some (w, w).
Definition putw {W} (w : W) : M W unit := λ _, Some (tt, w).
Definition modw {W} (f : W → W) : M W unit := λ w, Some (tt, f w).
Definition liftp {W A} (r : option A) : M W A := λ w,
  match r with Some a => Some (a, w) | None => None end.

Lemma M_bind_Some {W A B} (m : M W A) (f : A → M W B) w b w' :
  (m ≫= f) w = Some (b, w') ↔ ∃ a w1, m w = Some (a, w1) ∧ f a w1 = Some (b, w').
Proof.
  unfold mbind, M_bind. destruct (m w) as [[a w1]|]; naive_solver.
Qed.

(** One step of a computation whose first statement is known. *)
Lemma M_bind_step {W A B} (m : M W A) (f : A → M W B) w a w1 :
  m w = Some (a, w1) → (m ≫= f) w = f a w1.
Proof. intros H. unfold mbind, M_bind. by rewrite H. Qed.

Lemma M_ret_Some {W A} (a b : A) (w w' : W) :
  (mret a : M W A) w = Some (b, w') ↔ b = a ∧ w' = w.
Proof. unfold mret, M_ret. naive_solver. Qed.

(** Two computations are the same when they agree in every world; binding respects
    that, so handlers can be rewritten statement by statement. *)
Definition meq {W A} : relation (M W A) := λ m1 m2, ∀ w, m1 w = m2 w.
Infix "≡ₘ" := meq (at level 70, no associativity) : matchlock_scope.

#[export] Instance meq_equivalence W A : Equivalence (@meq W A).
Proof. split; unfold meq; [done|by intros m1 m2 H w|]. intros m1 m2 m3 H1 H2 w. congruence. Qed.

#[export] Instance mbind_meq_proper {W A B} :
  Proper (pointwise_relation A (@meq W B) ==> @meq W A ==> @meq W B) (mbind (M := M W)).
Proof.
  intros f g Hfg m n Hmn w. unfold mbind, M_bind. rewrite Hmn.
  destruct (n w) as [[a w']|]; [apply Hfg|done].
Qed.

Lemma meq_bind {W A B} (m1 m2 : M W A) (f1 f2 : A → M W B) :
  m1 ≡ₘ m2 → (∀ a, f1 a ≡ₘ f2 a) → (m1 ≫= f1) ≡ₘ (m2 ≫= f2).
Proof. intros Hm Hf. by apply mbind_meq_proper. Qed.

(** ** Machine integers: Go's [int] and [int64] are 64-bit two's complement,
    [uint32] and [uint64] wrap modulo a power of two. *)

Definition int64 (z : Z) : Z := (z + 2 ^ 63) mod 2 ^ 64 - 2 ^ 63.
Definition int32 (z : Z) : Z := (z + 2 ^ 31) mod 2 ^ 32 - 2 ^ 31.
Definition uint32 (z : Z) : Z := z mod 2 ^ 32.
Definition uint64 (z : Z) : Z := z mod 2 ^ 64.

Definition is_int64 (z : Z) : Prop := - 2 ^ 63 <= z < 2 ^ 63.

Lemma int64_id z : is_int64 z → int64 z = z.
Proof. unfold is_int64, int64. intros. rewrite Z.mod_small; lia. Qed.

Lemma int64_range z : is_int64 (int64 z).
Proof.
  unfold is_int64, int64. pose proof (Z.mod_pos_bound (z + 2 ^ 63) (2 ^ 64)). lia.
Qed.

Lemma uint32_id z : 0 <= z < 2 ^ 32 → uint32 z = z.
Proof. intros. by apply Z.mod_small. Qed.

Lemma uint64_id z : 0 <= z < 2 ^ 64 → uint64 z = z.
Proof. intros. by apply Z.mod_small. Qed.

Lemma int32_id z : - 2 ^ 31 <= z < 2 ^ 31 → int32 z = z.
Proof. unfold int32. intros. rewrite Z.mod_small; lia. Qed.

(** ** Bytes *)

Abbreviation byte := Ascii.ascii (only parsing).
Abbreviation bytes := (list Ascii.ascii) (only parsing).

Definition zero_byte : Ascii.ascii := Ascii.zero.

Definition blen {A} (l : list A) : Z := Z.of_nat (length l).

Lemma blen_nonneg {A} (l : list A) : 0 <= blen l.
Proof. unfold blen. lia. Qed.

Lemma blen_app {A} (l k : list A) : blen (l ++ k) = blen l + blen k.
Proof. unfold blen. rewrite length_app. lia. Qed.

(** ** Filters that keep everything or nothing *)

Lemma list_filter_all {A} (P : A → Prop) `{!∀ x, Decision (P x)} (l : list A) :
  (∀ x, x ∈ l → P x) → filter P l = l.
Proof.
  induction l as [|x l IH]; intros Hl; [done|]. rewrite filter_cons_True by (apply Hl; left).
  by rewrite IH by (intros y Hy; apply Hl; by right).
Qed.

Lemma list_filter_none {A} (P : A → Prop) `{!∀ x, Decision (P x)} (l : list A) :
  (∀ x, x ∈ l → ¬ P x) → filter P l = [].
Proof.
  induction l as [|x l IH]; intros Hl; [done|]. rewrite filter_cons_False by (apply Hl; left).
  by rewrite IH by (intros y Hy; apply Hl; by right).
Qed.

Create HintDb matchlock.
#[export] Hint Resolve blen_nonneg int64_range : matchlock.
#[export] Hint Rewrite @blen_app @length_app @length_take @length_drop
  @length_replicate : matchlock.

(** ** Tactics shared by the components *)

(** Case analysis on the boolean tests and matches a handler makes, in the order
    the code makes them. *)
Ltac go_cases :=
  repeat first [ case_match | progress simplify_eq/= ].

(** Invert a run of the world monad into the runs of its statements. *)
Ltac inv_run :=
  repeat match goal with
  | H : (_ ≫= _) _ = Some (_, _) |- _ =>
      let a := fresh "a" in let w := fresh "w" in
      let H1 := fresh "Hrun" in let H2 := fresh "Hrun" in
      apply M_bind_Some in H as (a & w & H1 & H2); simpl in H2
  | H : (mret _) _ = Some (_, _) |- _ =>
      apply M_ret_Some in H as [? ?]; subst
  end.
