(* ===== verification/GoStrings.v ===== *)
(** * Go's [strings] and [utf8] packages, as far as the source uses them

    A Go [string] is an immutable byte sequence, here Rocq's [string] (a list of
    8-bit characters). Each function below follows the documented behaviour of
    the Go function of the same name; [strings.Index] returns [None] for Go's -1.

    Case mapping is exact wherever the source uses it: the results are compared
    with ASCII literals (or are HTTP methods), so only ASCII letters and the
    four non-ASCII code points whose case mapping is ASCII are folded. *)

From S2P Require Import Prelude.

(** ** Bytes and characters *)

Definition code (c : Ascii.ascii) : Z := Z.of_N (Ascii.N_of_ascii c).
Definition chr (z : Z) : Ascii.ascii := Ascii.ascii_of_N (Z.to_N z).

Definition slen (s : string) : nat := String.length s.

Fixpoint string_rev_app (s acc : string) : string :=
  match s with
  | EmptyString => acc
  | String c s' => string_rev_app s' (String c acc)
  end.
Definition string_rev (s : string) : string := string_rev_app s "".

Fixpoint string_drop (n : nat) (s : string) : string :=
  match n, s with
  | O, _ => s
  | S n', String _ s' => string_drop n' s'
  | S _, EmptyString => EmptyString
  end.

Fixpoint string_take (n : nat) (s : string) : string :=
  match n, s with
  | O, _ => EmptyString
  | S n', String c s' => String c (string_take n' s')
  | S _, EmptyString => EmptyString
  end.

(** ** Prefixes, suffixes, substrings *)

Fixpoint HasPrefix (s prefix : string) : bool :=
  match prefix, s with
  | EmptyString, _ => true
  | String p prefix', String c s' => bool_decide (c = p) && HasPrefix s' prefix'
  | String _ _, EmptyString => false
  end.

Definition HasSuffix (s suffix : string) : bool :=
  (slen suffix <=? slen s)%nat
    && bool_decide (string_drop (slen s - slen suffix) s = suffix).

Definition TrimPrefix (s prefix : string) : string :=
  if HasPrefix s prefix then string_drop (slen prefix) s else s.

Fixpoint Index (s sub : string) : option nat :=
  if HasPrefix s sub then Some O
  else match s with
       | EmptyString => None
       | String _ s' => S <$> Index s' sub
       end.

Definition Contains (s sub : string) : bool :=
  match Index s sub with Some _ => true | None => false end.

Fixpoint contains_byte (c : Ascii.ascii) (s : string) : bool :=
  match s with
  | EmptyString => false
  | String d s' => bool_decide (d = c) || contains_byte c s'
  end.

(** [strings.LastIndex] of a one-byte separator. *)
Fixpoint LastIndexByte (s : string) (c : Ascii.ascii) : option nat :=
  match s with
  | EmptyString => None
  | String d s' =>
      match LastIndexByte s' c with
      | Some i => Some (S i)
      | None => if decide (d = c) then Some O else None
      end
  end.

(** ** Splitting and joining on a one-byte separator *)

Fixpoint Split (s : string) (sep : Ascii.ascii) : list string :=
  match s with
  | EmptyString => [""]
  | String c s' =>
      if decide (c = sep) then "" :: Split s' sep
      else match Split s' sep with
           | [] => [String c ""]
           | x :: xs => String c x :: xs
           end
  end.

(** [strings.Cut]: [None] when the separator is absent. *)
Fixpoint Cut (s : string) (sep : Ascii.ascii) : option (string * string) :=
  match s with
  | EmptyString => None
  | String c s' =>
      if decide (c = sep) then Some ("", s')
      else match Cut s' sep with
           | Some (before, after) => Some (String c before, after)
           | None => None
           end
  end.

(** [strings.SplitN] for [n >= 1]. *)
Fixpoint SplitN (n : nat) (s : string) (sep : Ascii.ascii) : list string :=
  match n with
  | O => []
  | S O => [s]
  | S n' => match Cut s sep with
            | Some (before, after) => before :: SplitN n' after sep
            | None => [s]
            end
  end.

Fixpoint Join (l : list string) (sep : string) : string :=
  match l with
  | [] => ""
  | [x] => x
  | x :: l' => x +:+ (sep +:+ Join l' sep)
  end.

(** ** UTF-8 decoding: [utf8.DecodeRuneInString] as (rune, width); an invalid
    sequence is (U+FFFD, 1), the empty string (U+FFFD, 0). *)

Definition RuneError : Z := 0xFFFD.
Definition is_cont (c : Ascii.ascii) : bool := (0x80 <=? code c) && (code c <=? 0xBF).
Definition cont_bits (c : Ascii.ascii) : Z := Z.land (code c) 0x3F.

Definition DecodeRune (s : string) : Z * nat :=
  match s with
  | EmptyString => (RuneError, O)
  | String c0 s1 =>
    let b0 := code c0 in
    if b0 <? 0x80 then (b0, 1%nat)
    else if (0xC2 <=? b0) && (b0 <=? 0xDF) then
      match s1 with
      | String c1 _ =>
          if is_cont c1 then (Z.lor (Z.shiftl (Z.land b0 0x1F) 6) (cont_bits c1), 2%nat)
          else (RuneError, 1%nat)
      | _ => (RuneError, 1%nat)
      end
    else if (0xE0 <=? b0) && (b0 <=? 0xEF) then
      match s1 with
      | String c1 (String c2 _) =>
          let lo := if b0 =? 0xE0 then 0xA0 else 0x80 in
          let hi := if b0 =? 0xED then 0x9F else 0xBF in
          if (lo <=? code c1) && (code c1 <=? hi) && is_cont c2 then
            (Z.lor (Z.shiftl (Z.land b0 0xF) 12)
               (Z.lor (Z.shiftl (cont_bits c1) 6) (cont_bits c2)), 3%nat)
          else (RuneError, 1%nat)
      | _ => (RuneError, 1%nat)
      end
    else if (0xF0 <=? b0) && (b0 <=? 0xF4) then
      match s1 with
      | String c1 (String c2 (String c3 _)) =>
          let lo := if b0 =? 0xF0 then 0x90 else 0x80 in
          let hi := if b0 =? 0xF4 then 0x8F else 0xBF in
          if (lo <=? code c1) && (code c1 <=? hi) && is_cont c2 && is_cont c3 then
            (Z.lor (Z.shiftl (Z.land b0 0x7) 18)
               (Z.lor (Z.shiftl (cont_bits c1) 12)
                  (Z.lor (Z.shiftl (cont_bits c2) 6) (cont_bits c3))), 4%nat)
          else (RuneError, 1%nat)
      | _ => (RuneError, 1%nat)
      end
    else (RuneError, 1%nat)
  end.

(** ** Replacement: [strings.ReplaceAll] (and [bytes.ReplaceAll]). An empty [old]
    matches before every rune and at the end. *)

Fixpoint replace_nonempty (skip : nat) (s old new : string) : string :=
  match s with
  | EmptyString => ""
  | String c s' =>
      match skip with
      | S k => replace_nonempty k s' old new
      | O => if HasPrefix s old
             then new +:+ replace_nonempty (Nat.pred (slen old)) s' old new
             else String c (replace_nonempty O s' old new)
      end
  end.

Fixpoint replace_empty (pending : nat) (s new : string) : string :=
  match s with
  | EmptyString => new
  | String c s' =>
      match pending with
      | S k => String c (replace_empty k s' new)
      | O => new +:+ String c (replace_empty (Nat.pred (snd (DecodeRune s))) s' new)
      end
  end.

Definition ReplaceAll (s old new : string) : string :=
  if decide (old = "") then replace_empty O s new
  else replace_nonempty O s old new.

(** ** White space: [unicode.IsSpace] runes in their UTF-8 encoding *)

Definition ascii_space (c : Ascii.ascii) : bool :=
  ((9 <=? code c) && (code c <=? 13)) || (code c =? 32).

Definition white2 (a b : Ascii.ascii) : bool :=
  (code a =? 0xC2) && ((code b =? 0x85) || (code b =? 0xA0)).

Definition white3 (a b c : Ascii.ascii) : bool :=
  let x := code a in let y := code b in let z := code c in
  ((x =? 0xE1) && (y =? 0x9A) && (z =? 0x80))
  || ((x =? 0xE2) && (y =? 0x80)
        && (((0x80 <=? z) && (z <=? 0x8A)) || (z =? 0xA8) || (z =? 0xA9) || (z =? 0xAF)))
  || ((x =? 0xE2) && (y =? 0x81) && (z =? 0x9F))
  || ((x =? 0xE3) && (y =? 0x80) && (z =? 0x80)).

(** Width of the white-space rune at the front of [s] (0 when there is none);
    [w3] reads three bytes in the order they are met. *)
Definition space_width (w2 : Ascii.ascii → Ascii.ascii → bool)
    (w3 : Ascii.ascii → Ascii.ascii → Ascii.ascii → bool) (s : string) : nat :=
  match s with
  | EmptyString => 0
  | String a s1 =>
      if ascii_space a then 1
      else match s1 with
           | EmptyString => 0
           | String b s2 =>
               if w2 a b then 2
               else match s2 with
                    | EmptyString => 0
                    | String c _ => if w3 a b c then 3 else 0
                    end
           end
  end%nat.

Fixpoint trim_front (w2 : Ascii.ascii → Ascii.ascii → bool)
    (w3 : Ascii.ascii → Ascii.ascii → Ascii.ascii → bool)
    (skip : nat) (s : string) : string :=
  match s with
  | EmptyString => ""
  | String _ s' =>
      match skip with
      | S k => trim_front w2 w3 k s'
      | O => match space_width w2 w3 s with
             | O => s
             | S k => trim_front w2 w3 k s'
             end
      end
  end.

Definition TrimSpace (s : string) : string :=
  let s1 := trim_front white2 white3 O s in
  string_rev (trim_front (λ b a, white2 a b) (λ c b a, white3 a b c) O (string_rev s1)).

(** [strings.Fields]: the pieces between white space, empty ones dropped. *)
Fixpoint space_pieces (skip : nat) (s : string) : list string :=
  match s with
  | EmptyString => [""]
  | String c s' =>
      match skip with
      | S k => space_pieces k s'
      | O => match space_width white2 white3 s with
             | O => match space_pieces O s' with x :: l => String c x :: l | [] => [] end
             | S k => "" :: space_pieces k s'
             end
      end
  end.

Definition Fields (s : string) : list string := filter (λ x, x ≠ "") (space_pieces O s).

(** [strings.TrimRight(s, "/")] and the like: a one-byte cut set. *)
Fixpoint drop_while_byte (c : Ascii.ascii) (s : string) : string :=
  match s with
  | EmptyString => ""
  | String d s' => if decide (d = c) then drop_while_byte c s' else s
  end.
Definition TrimRightByte (s : string) (c : Ascii.ascii) : string :=
  string_rev (drop_while_byte c (string_rev s)).

(** ** Case *)

Definition lower_byte (c : Ascii.ascii) : Ascii.ascii :=
  if (0x41 <=? code c) && (code c <=? 0x5A) then chr (code c + 32) else c.
Definition upper_byte (c : Ascii.ascii) : Ascii.ascii :=
  if (0x61 <=? code c) && (code c <=? 0x7A) then chr (code c - 32) else c.

(** U+0130 lowers to [i], U+212A to [k]. *)
Fixpoint ToLower (s : string) : string :=
  match s with
  | EmptyString => ""
  | String a s1 =>
      match s1 with
      | String b s2 =>
          if (code a =? 0xC4) && (code b =? 0xB0) then String "i"%char (ToLower s2)
          else match s2 with
               | String c s3 =>
                   if (code a =? 0xE2) && (code b =? 0x84) && (code c =? 0xAA)
                   then String "k"%char (ToLower s3)
                   else String (lower_byte a) (ToLower s1)
               | EmptyString => String (lower_byte a) (ToLower s1)
               end
      | EmptyString => String (lower_byte a) ""
      end
  end.

(** U+0131 uppers to [I], U+017F to [S]. *)
Fixpoint ToUpper (s : string) : string :=
  match s with
  | EmptyString => ""
  | String a s1 =>
      match s1 with
      | String b s2 =>
          if (code a =? 0xC4) && (code b =? 0xB1) then String "I"%char (ToUpper s2)
          else if (code a =? 0xC5) && (code b =? 0xBF) then String "S"%char (ToUpper s2)
          else String (upper_byte a) (ToUpper s1)
      | EmptyString => String (upper_byte a) ""
      end
  end.

(** Simple case folding towards ASCII: U+212A folds with [k], U+017F with [s]. *)
Fixpoint fold_case (s : string) : string :=
  match s with
  | EmptyString => ""
  | String a s1 =>
      match s1 with
      | String b s2 =>
          if (code a =? 0xC5) && (code b =? 0xBF) then String "s"%char (fold_case s2)
          else match s2 with
               | String c s3 =>
                   if (code a =? 0xE2) && (code b =? 0x84) && (code c =? 0xAA)
                   then String "k"%char (fold_case s3)
                   else String (lower_byte a) (fold_case s1)
               | EmptyString => String (lower_byte a) (fold_case s1)
               end
      | EmptyString => String (lower_byte a) ""
      end
  end.
Definition EqualFold (s t : string) : bool := bool_decide (fold_case s = fold_case t).

(** ** [encoding/binary] *)

(** [binary.BigEndian.PutUint32] and [Uint32]. *)
Definition be32 (v : Z) : bytes := (λ i, chr (Z.land (Z.shiftr v (8 * i)) 0xFF)) <$> [3; 2; 1; 0].

Definition u32 (b : bytes) : Z := fold_left (λ acc c, acc * 256 + code c) b 0.

(** ** Facts *)

Lemma code_chr z : 0 <= z < 256 → code (chr z) = z.
Proof. intros Hz. unfold code, chr. rewrite N_ascii_embedding by lia. lia. Qed.

Lemma code_range c : 0 <= code c < 256.
Proof.
  unfold code. pose proof (Ascii.N_ascii_bounded c). lia.
Qed.

Lemma chr_code c : chr (code c) = c.
Proof. unfold chr, code. by rewrite N2Z.id, Ascii.ascii_N_embedding. Qed.

Lemma u32_be32 v : 0 <= v < 2 ^ 32 → u32 (be32 v) = v.
Proof.
  intros Hv. unfold u32, be32. cbn [fmap list_fmap fold_left].
  assert (Hb : ∀ i, code (chr (Z.land (Z.shiftr v (8 * i)) 255)) = Z.land (Z.shiftr v (8 * i)) 255).
  { intros i. apply code_chr. change 255 with (Z.ones 8). rewrite Z.land_ones by lia.
    by apply Z.mod_pos_bound. }
  rewrite !Hb. change 255 with (Z.ones 8). rewrite !Z.land_ones, !Z.shiftr_div_pow2 by lia.
  change (8 * 3) with 24. change (8 * 2) with 16. change (8 * 1) with 8. change (8 * 0) with 0.
  Z.to_euclidean_division_equations. lia.
Qed.

Lemma sapp_nil_l s : "" +:+ s = s.
Proof. reflexivity. Qed.
Lemma sapp_cons c s t : String c s +:+ t = String c (s +:+ t).
Proof. reflexivity. Qed.
Lemma sapp_nil_r s : s +:+ "" = s.
Proof. induction s as [|c s IH]; [done|]. by rewrite sapp_cons, IH. Qed.
Lemma sapp_assoc s t u : (s +:+ t) +:+ u = s +:+ (t +:+ u).
Proof. induction s as [|c s IH]; [done|]. by rewrite !sapp_cons, IH. Qed.
Lemma slen_cons c s : slen (String c s) = S (slen s).
Proof. reflexivity. Qed.
Lemma slen_app s t : slen (s +:+ t) = (slen s + slen t)%nat.
Proof. induction s as [|c s IH]; [done|]. rewrite sapp_cons, !slen_cons. lia. Qed.
Lemma slen_zero s : slen s = O → s = "".
Proof. by destruct s. Qed.

#[export] Hint Rewrite sapp_nil_l sapp_cons sapp_nil_r sapp_assoc slen_cons slen_app
  : gostr.

Lemma sapp_inj_l s t u : s +:+ t = s +:+ u → t = u.
Proof. induction s as [|c s IH]; [done|]. rewrite !sapp_cons. naive_solver. Qed.

Lemma sapp_eq_nil s t : s +:+ t = "" ↔ s = "" ∧ t = "".
Proof. destruct s; naive_solver. Qed.

Lemma sapp_inj_len s1 t1 s2 t2 :
  s1 +:+ t1 = s2 +:+ t2 → slen s1 = slen s2 → s1 = s2 ∧ t1 = t2.
Proof.
  revert s2. induction s1 as [|c s1 IH]; intros [|d s2]; try done.
  rewrite !sapp_cons, !slen_cons. intros [= -> Heq] [= Hl]. naive_solver.
Qed.

Lemma sapp_inj_len_r s1 t1 s2 t2 :
  s1 +:+ t1 = s2 +:+ t2 → slen t1 = slen t2 → s1 = s2 ∧ t1 = t2.
Proof.
  intros H Hl. apply sapp_inj_len; [done|].
  apply (f_equal slen) in H. rewrite !slen_app in H. lia.
Qed.

(** Two ways to cut one string: one cut extends the other. *)
Lemma sapp_split_le a b c d :
  a +:+ b = c +:+ d → (slen a <= slen c)%nat → ∃ e, c = a +:+ e ∧ b = e +:+ d.
Proof.
  revert c. induction a as [|x a IH]; intros c H Hl; [by exists c|].
  destruct c as [|y c]; rewrite ?slen_cons in Hl; [simpl in Hl; lia|].
  rewrite !sapp_cons in H. simplify_eq.
  destruct (IH c) as (e & -> & ->); [done|lia|]. exists e. by rewrite sapp_cons.
Qed.

Lemma string_drop_app s t : string_drop (slen s) (s +:+ t) = t.
Proof. induction s as [|c s IH]; [by destruct t|]. by rewrite sapp_cons. Qed.

Lemma string_drop_app_S s c t : string_drop (S (slen s)) (s +:+ String c t) = t.
Proof. induction s as [|d s IH]; [by destruct t|]. by rewrite sapp_cons. Qed.

Lemma string_take_app s t : string_take (slen s) (s +:+ t) = s.
Proof.
  induction s as [|c s IH]; [by destruct t|]. rewrite sapp_cons, slen_cons. cbn.
  by f_equal.
Qed.

Lemma string_take_drop n s : string_take n s +:+ string_drop n s = s.
Proof.
  revert s. induction n as [|n IH]; intros [|c s]; try done.
  cbn [string_take string_drop]. by rewrite sapp_cons, IH.
Qed.

Lemma slen_take n s : slen (string_take n s) = Nat.min n (slen s).
Proof.
  revert s. induction n as [|n IH]; intros [|c s]; try done.
  cbn [string_take]. rewrite !slen_cons, IH. lia.
Qed.

Lemma HasPrefix_spec s p : HasPrefix s p = true ↔ ∃ r, s = p +:+ r.
Proof.
  revert s. induction p as [|c p IH]; intros s.
  { split; [by exists s | by destruct s]. }
  destruct s as [|d s]; cbn [HasPrefix].
  { split; [done|]. intros (r & Hr). by rewrite sapp_cons in Hr. }
  rewrite andb_true_iff, bool_decide_eq_true, IH. split.
  - intros [-> (r & ->)]. exists r. by rewrite sapp_cons.
  - intros (r & Hr). rewrite sapp_cons in Hr. naive_solver.
Qed.

Lemma HasPrefix_app p r : HasPrefix (p +:+ r) p = true.
Proof. apply HasPrefix_spec. eauto. Qed.

Lemma HasPrefix_refl p : HasPrefix p p = true.
Proof. apply HasPrefix_spec. exists "". by rewrite sapp_nil_r. Qed.

Lemma HasPrefix_false s p : HasPrefix s p = false ↔ ∀ r, s ≠ p +:+ r.
Proof.
  rewrite <- not_true_iff_false, HasPrefix_spec. naive_solver.
Qed.

Lemma TrimPrefix_app p r : TrimPrefix (p +:+ r) p = r.
Proof. unfold TrimPrefix. by rewrite HasPrefix_app, string_drop_app. Qed.

Lemma HasSuffix_spec s p : HasSuffix s p = true ↔ ∃ r, s = r +:+ p.
Proof.
  unfold HasSuffix. rewrite andb_true_iff, bool_decide_eq_true, Nat.leb_le. split.
  - intros [Hle Hd]. exists (string_take (slen s - slen p) s).
    pose proof (string_take_drop (slen s - slen p) s) as Ht. by rewrite Hd in Ht.
  - intros (r & ->). rewrite slen_app. split; [lia|].
    replace (slen r + slen p - slen p)%nat with (slen r) by lia.
    apply string_drop_app.
Qed.

Lemma HasSuffix_nil s : HasSuffix s "" = true.
Proof. apply HasSuffix_spec. exists s. by rewrite sapp_nil_r. Qed.

Lemma Index_Some s sub i :
  Index s sub = Some i →
  ∃ a b, s = a +:+ (sub +:+ b) ∧ slen a = i ∧
    ∀ a' b', s = a' +:+ (sub +:+ b') → (i <= slen a')%nat.
Proof.
  revert i. induction s as [|c s IH]; intros i; cbn [Index].
  - destruct (HasPrefix "" sub) eqn:Hp; [|done]. intros [= <-].
    apply HasPrefix_spec in Hp as (r & Hr). exists "", r.
    by split_and!; [| |lia].
  - destruct (HasPrefix (String c s) sub) eqn:Hp.
    + intros [= <-]. apply HasPrefix_spec in Hp as (r & Hr). exists "", r.
      by split_and!; [| |lia].
    + intros (j & Hj & ->)%fmap_Some.
      destruct (IH _ Hj) as (a & b & -> & <- & Hmin).
      exists (String c a), b. split_and!; [done..|].
      intros [|d a'] b' Heq.
      { exfalso. apply HasPrefix_false with (r := b') in Hp. by apply Hp. }
      rewrite !sapp_cons in Heq. simplify_eq. apply Hmin in H. rewrite slen_cons. lia.
Qed.

Lemma Index_None s sub : Index s sub = None ↔ ∀ a b, s ≠ a +:+ (sub +:+ b).
Proof.
  induction s as [|c s IH]; cbn [Index].
  - destruct (HasPrefix "" sub) eqn:Hp.
    + apply HasPrefix_spec in Hp as (r & Hr). split; [done|].
      intros H. by destruct (H "" r).
    + rewrite HasPrefix_false in Hp. split; [|done]. intros _ a b Hab.
      symmetry in Hab. apply sapp_eq_nil in Hab as [-> Hab]. by apply (Hp b).
  - destruct (HasPrefix (String c s) sub) eqn:Hp.
    + apply HasPrefix_spec in Hp as (r & Hr). split; [done|].
      intros H. by destruct (H "" r).
    + rewrite HasPrefix_false in Hp. rewrite fmap_None, IH. split.
      * intros H [|d a] b Hab; [by apply (Hp b)|].
        rewrite sapp_cons in Hab. simplify_eq. by apply (H a b).
      * intros H a b ->. by apply (H (String c a) b).
Qed.

Lemma Contains_spec s sub : Contains s sub = true ↔ ∃ a b, s = a +:+ (sub +:+ b).
Proof.
  unfold Contains. destruct (Index s sub) eqn:Hi.
  - apply Index_Some in Hi as (a & b & -> & _). naive_solver.
  - rewrite Index_None in Hi. split; [done|]. intros (a & b & H). by apply Hi in H.
Qed.

Lemma contains_byte_app c s t :
  contains_byte c (s +:+ t) = contains_byte c s || contains_byte c t.
Proof.
  induction s as [|d s IH]; [done|]. rewrite sapp_cons. cbn [contains_byte].
  by rewrite IH, orb_assoc.
Qed.

Lemma replace_absent s old new :
  Contains s old = false → replace_nonempty O s old new = s.
Proof.
  unfold Contains. induction s as [|c s IH]; [done|]. cbn [Index replace_nonempty].
  destruct (HasPrefix (String c s) old); [done|].
  destruct (Index s old) eqn:Hi; [done|]. intros _. f_equal. by apply IH.
Qed.

Lemma ReplaceAll_absent s old new :
  Contains s old = false → ReplaceAll s old new = s.
Proof.
  intros H. unfold ReplaceAll. case_decide as Ho; [|by apply replace_absent].
  subst. exfalso. apply not_true_iff_false in H. apply H, Contains_spec.
  exists "", s. done.
Qed.

(** *** Split and Join *)

Lemma Split_nonempty s c : Split s c ≠ [].
Proof. destruct s as [|d s]; cbn; [done|]. repeat case_match; done. Qed.

Lemma Join_cons x y l sep : Join (x :: y :: l) sep = x +:+ (sep +:+ Join (y :: l) sep).
Proof. reflexivity. Qed.

Lemma Join_cons_ne x l sep : l ≠ [] → Join (x :: l) sep = x +:+ (sep +:+ Join l sep).
Proof. by destruct l. Qed.

Lemma Join_Split s c : Join (Split s c) (String c "") = s.
Proof.
  induction s as [|d s IH]; [done|]. cbn [Split].
  pose proof (Split_nonempty s c) as Hne. case_decide as Hd.
  - subst. rewrite Join_cons_ne, IH by done. done.
  - destruct (Split s c) as [|x xs]; [done|]. destruct xs as [|y xs].
    + cbn in IH. cbn. by rewrite IH.
    + rewrite Join_cons in IH |- *. rewrite sapp_cons, IH. done.
Qed.

Lemma Split_no_sep s c : Forall (λ x, contains_byte c x = false) (Split s c).
Proof.
  induction s as [|d s IH]; cbn [Split]; [by repeat constructor|].
  case_decide as Hd; [by constructor|].
  destruct (Split s c) as [|x xs].
  - repeat constructor. cbn. by rewrite bool_decide_eq_false_2.
  - inversion_clear IH. constructor; [|done]. cbn.
    by rewrite bool_decide_eq_false_2.
Qed.

Lemma Split_single x c : contains_byte c x = false → Split x c = [x].
Proof.
  induction x as [|d x IH]; [done|]. cbn [Split contains_byte].
  intros [Hd Hx]%orb_false_iff. apply bool_decide_eq_false in Hd.
  by rewrite decide_False, IH.
Qed.

Lemma Split_app_sep x s c :
  contains_byte c x = false → Split (x +:+ String c s) c = x :: Split s c.
Proof.
  induction x as [|d x IH]; cbn [contains_byte].
  - intros _. rewrite sapp_nil_l. cbn [Split]. by rewrite decide_True.
  - intros [Hd Hx]%orb_false_iff. apply bool_decide_eq_false in Hd.
    rewrite sapp_cons. cbn [Split]. rewrite decide_False, IH by done. done.
Qed.

Lemma Split_Join l c :
  l ≠ [] → Forall (λ x, contains_byte c x = false) l →
  Split (Join l (String c "")) c = l.
Proof.
  induction l as [|x l IH]; [done|]. intros _ Hl. inversion_clear Hl as [|? ? Hx Hl'].
  destruct l as [|y l]; [by apply Split_single|].
  rewrite Join_cons. change (String c "" +:+ Join (y :: l) (String c ""))
    with (String c (Join (y :: l) (String c ""))).
  rewrite Split_app_sep by done. f_equal. by apply IH.
Qed.

(** A property of single bytes that holds by evaluation on all 256 of them. *)
Lemma all_bytes (P : Ascii.ascii → bool) :
  forallb (λ z, P (chr z)) (seqZ 0 256) = true → ∀ c, P c = true.
Proof.
  intros Hall c. rewrite forallb_forall in Hall. rewrite <- (chr_code c). apply Hall.
  apply list_elem_of_In, elem_of_seqZ. pose proof (code_range c). lia.
Qed.

(** ** White space: trimming is done once and for all *)

Section trim.
Context (w2 : Ascii.ascii → Ascii.ascii → bool) (w3 : Ascii.ascii → Ascii.ascii → Ascii.ascii → bool).

Lemma trim_front_width skip s : space_width w2 w3 (trim_front w2 w3 skip s) = O.
Proof.
  revert skip. induction s as [|c s IH]; intros [|k]; cbn [trim_front]; [done..| |apply IH].
  destruct (space_width w2 w3 (String c s)) eqn:E; [done|apply IH].
Qed.

Lemma trim_front_id s : space_width w2 w3 s = O → trim_front w2 w3 O s = s.
Proof. destruct s; [done|]. intros H. cbn [trim_front]. by rewrite H. Qed.

Lemma space_width_prefix s t : space_width w2 w3 (s +:+ t) = O → space_width w2 w3 s = O.
Proof.
  destruct s as [|a [|b [|c s]]]; [done|..]; rewrite ?sapp_cons, ?sapp_nil_l;
    cbn [space_width]; destruct (ascii_space a); try done; by destruct (w2 a b).
Qed.

Lemma trim_front_suffix skip s : ∃ p, s = p +:+ trim_front w2 w3 skip s.
Proof.
  revert skip. induction s as [|c s IH]; intros [|k]; cbn [trim_front]; [by exists ""..| |].
  - destruct (space_width _ _ _) as [|n]; [by exists ""|]. destruct (IH n) as [p Hp].
    exists (String c p). by rewrite sapp_cons, <- Hp.
  - destruct (IH k) as [p Hp]. exists (String c p). by rewrite sapp_cons, <- Hp.
Qed.
End trim.

Lemma string_rev_app_spec s acc : string_rev_app s acc = string_rev s +:+ acc.
Proof.
  unfold string_rev. revert acc. induction s as [|c s IH]; intros acc; [done|]. cbn [string_rev_app].
  rewrite IH, (IH (String c "")), sapp_assoc. done.
Qed.

Lemma string_rev_cons c s : string_rev (String c s) = string_rev s +:+ String c "".
Proof. unfold string_rev at 1. cbn [string_rev_app]. apply string_rev_app_spec. Qed.

Lemma string_rev_sapp s t : string_rev (s +:+ t) = string_rev t +:+ string_rev s.
Proof.
  induction s as [|c s IH]; [by rewrite sapp_nil_l, sapp_nil_r|].
  by rewrite sapp_cons, !string_rev_cons, IH, sapp_assoc.
Qed.

Lemma string_rev_involutive s : string_rev (string_rev s) = s.
Proof. induction s as [|c s IH]; [done|]. by rewrite string_rev_cons, string_rev_sapp, IH. Qed.

Lemma TrimSpace_idem s : TrimSpace (TrimSpace s) = TrimSpace s.
Proof.
  unfold TrimSpace. set (f := trim_front white2 white3 O).
  set (g := trim_front (λ b a, white2 a b) (λ c b a, white3 a b c) O).
  destruct (trim_front_suffix (λ b a, white2 a b) (λ c b a, white3 a b c) O (string_rev (f s))) as [p Hp].
  fold g in Hp. assert (Hf : f (string_rev (g (string_rev (f s)))) = string_rev (g (string_rev (f s)))).
  { apply trim_front_id, (space_width_prefix _ _ _ (string_rev p)).
    rewrite <- string_rev_sapp, <- Hp, string_rev_involutive. apply trim_front_width. }
  rewrite Hf, string_rev_involutive. f_equal. apply trim_front_id, trim_front_width.
Qed.

Section trim_ascii.
Context (w2 : Ascii.ascii → Ascii.ascii → bool) (w3 : Ascii.ascii → Ascii.ascii → Ascii.ascii → bool).
Hypothesis w2_high : ∀ a b, w2 a b = true → 128 <= code a ∧ 128 <= code b.
Hypothesis w3_high : ∀ a b c, w3 a b c = true → 128 <= code a ∧ 128 <= code b ∧ 128 <= code c.

(** Only white space is cut off: an ASCII byte that is none stays. *)
Lemma space_width_take c s :
  code c < 128 → ascii_space c = false → contains_byte c (string_take (space_width w2 w3 s) s) = false.
Proof.
  intros Hc Hs. destruct s as [|a [|b [|d s]]]; [done|..]; cbn [space_width];
    destruct (ascii_space a) eqn:Ea; cbn [string_take contains_byte];
    rewrite ?orb_false_r; try (apply bool_decide_eq_false; congruence); try done.
  - destruct (w2 a b) eqn:E2; [|done]. apply w2_high in E2. cbn [string_take contains_byte].
    rewrite orb_false_r, orb_false_iff, !bool_decide_eq_false. split; intros ->; lia.
  - destruct (w2 a b) eqn:E2.
    { apply w2_high in E2. cbn [string_take contains_byte].
      rewrite orb_false_r, orb_false_iff, !bool_decide_eq_false. split; intros ->; lia. }
    destruct (w3 a b d) eqn:E3; [|done]. apply w3_high in E3. cbn [string_take contains_byte].
    rewrite orb_false_r, !orb_false_iff, !bool_decide_eq_false. split_and!; intros ->; lia.
Qed.

Lemma trim_front_keeps c skip s :
  code c < 128 → ascii_space c = false → contains_byte c (string_take skip s) = false →
  contains_byte c (trim_front w2 w3 skip s) = contains_byte c s.
Proof.
  intros Hc Hs. revert skip. induction s as [|a s IH]; intros [|k] Hk; cbn [trim_front]; [done..| |].
  - pose proof (space_width_take c (String a s) Hc Hs) as Hw.
    destruct (space_width w2 w3 (String a s)) as [|n]; [done|].
    cbn [string_take contains_byte] in Hw. apply orb_false_iff in Hw as [Ha Hw].
    rewrite IH by done. cbn [contains_byte]. by rewrite Ha.
  - cbn [string_take contains_byte] in Hk. apply orb_false_iff in Hk as [Ha Hk].
    rewrite IH by done. cbn [contains_byte]. by rewrite Ha.
Qed.

(** A string whose first byte is ASCII and not white space has nothing to trim. *)
Lemma space_width_ascii a s : code a < 128 → ascii_space a = false → space_width w2 w3 (String a s) = O.
Proof.
  intros Ha Hs. cbn. rewrite Hs. destruct s as [|b s]; [done|].
  destruct (w2 a b) eqn:E2; [apply w2_high in E2; lia|]. destruct s as [|d s]; [done|].
  destruct (w3 a b d) eqn:E3; [apply w3_high in E3; lia|done].
Qed.
End trim_ascii.

Lemma white2_high a b : white2 a b = true → 128 <= code a ∧ 128 <= code b.
Proof. unfold white2. rewrite !andb_true_iff, orb_true_iff, !Z.eqb_eq. lia. Qed.

Lemma white3_high a b c : white3 a b c = true → 128 <= code a ∧ 128 <= code b ∧ 128 <= code c.
Proof.
  unfold white3. rewrite !orb_true_iff, !andb_true_iff, !orb_true_iff, !andb_true_iff, !Z.eqb_eq, !Z.leb_le. lia.
Qed.

Lemma contains_byte_rev c s : contains_byte c (string_rev s) = contains_byte c s.
Proof.
  induction s as [|d s IH]; [done|]. rewrite string_rev_cons, contains_byte_app, IH. cbn.
  by rewrite orb_false_r, orb_comm.
Qed.

Lemma TrimSpace_keeps c s :
  code c < 128 → ascii_space c = false → contains_byte c (TrimSpace s) = contains_byte c s.
Proof.
  intros Hc Hs. unfold TrimSpace. rewrite contains_byte_rev, trim_front_keeps; [|..|done]; [|clear..|done|done].
  - rewrite contains_byte_rev. apply trim_front_keeps; eauto using white2_high, white3_high.
  - intros a b H%white2_high. tauto.
  - intros a b d H%white3_high. tauto.
Qed.

Definition plain_byte (c : Ascii.ascii) : bool := (code c <? 128) && negb (ascii_space c).

Fixpoint all_plain (s : string) : bool :=
  match s with EmptyString => true | String c s' => plain_byte c && all_plain s' end.

Lemma all_plain_app s t : all_plain (s +:+ t) = all_plain s && all_plain t.
Proof. induction s as [|c s IH]; [done|]. rewrite sapp_cons. cbn [all_plain]. by rewrite IH, andb_assoc. Qed.

Lemma all_plain_rev s : all_plain (string_rev s) = all_plain s.
Proof.
  induction s as [|c s IH]; [done|]. rewrite string_rev_cons, all_plain_app, IH. cbn.
  by rewrite andb_true_r, andb_comm.
Qed.

Lemma TrimSpace_plain s : all_plain s = true → TrimSpace s = s.
Proof.
  intros Hs. unfold TrimSpace.
  assert (Hw : ∀ (w2 : Ascii.ascii → Ascii.ascii → bool) w3 t, (∀ a b, w2 a b = true → 128 <= code a ∧ 128 <= code b) →
                 (∀ a b c, w3 a b c = true → 128 <= code a ∧ 128 <= code b ∧ 128 <= code c) →
                 all_plain t = true → trim_front w2 w3 O t = t).
  { intros w2 w3 t H2 H3 Ht. apply trim_front_id. destruct t as [|a t]; [done|].
    cbn in Ht. unfold plain_byte in Ht. rewrite !andb_true_iff, negb_true_iff, Z.ltb_lt in Ht.
    apply space_width_ascii; tauto. }
  rewrite (Hw white2 white3) by eauto using white2_high, white3_high. rewrite Hw.
  - apply string_rev_involutive.
  - intros a b H%white2_high. tauto.
  - intros a b d H%white3_high. tauto.
  - by rewrite all_plain_rev.
Qed.

Lemma string_length_ind (P : string → Prop) :
  (∀ s, (∀ t, (slen t < slen s)%nat → P t) → P s) → ∀ s, P s.
Proof. intros H. apply (well_founded_induction (well_founded_ltof _ slen)), H. Qed.

(** ** Cutting *)

Lemma Cut_app x s c : contains_byte c x = false → Cut (x +:+ String c s) c = Some (x, s).
Proof.
  induction x as [|d x IH]; cbn [contains_byte].
  - intros _. rewrite sapp_nil_l. cbn. by rewrite decide_True.
  - intros [Hd Hx]%orb_false_iff. apply bool_decide_eq_false in Hd.
    rewrite sapp_cons. cbn [Cut]. rewrite decide_False, IH by done. done.
Qed.

Lemma Cut_Some s c x y : Cut s c = Some (x, y) → s = x +:+ String c y ∧ contains_byte c x = false.
Proof.
  revert x y. induction s as [|d s IH]; intros x y; cbn [Cut]; [done|].
  case_decide as Hd; [intros [= <- <-]; by subst|].
  destruct (Cut s c) as [[u v]|]; [|done]. intros [= <- <-].
  destruct (IH u v) as [-> Hu]; [done|]. split; [done|]. cbn. by rewrite bool_decide_eq_false_2, Hu.
Qed.

Lemma LastIndexByte_app a b c :
  contains_byte c b = false → LastIndexByte (a +:+ String c b) c = Some (slen a).
Proof.
  intros Hb. assert (Hnone : LastIndexByte b c = None).
  { induction b as [|d b IH]; [done|]. cbn [contains_byte] in Hb.
    apply orb_false_iff in Hb as [Hd%bool_decide_eq_false Hb]. cbn. by rewrite IH, decide_False. }
  induction a as [|d a IH].
  - rewrite sapp_nil_l. cbn. by rewrite Hnone, decide_True.
  - rewrite sapp_cons. cbn [LastIndexByte]. by rewrite IH.
Qed.

(** ** Fields *)

Lemma space_pieces_plain s t :
  all_plain s = true →
  space_pieces O (s +:+ t) = match space_pieces O t with x :: l => (s +:+ x) :: l | [] => [] end.
Proof.
  induction s as [|a s IH]; cbn [all_plain].
  - intros _. rewrite sapp_nil_l. by destruct (space_pieces O t).
  - intros [Ha Hs]%andb_true_iff. unfold plain_byte in Ha. apply andb_true_iff in Ha as [Ha1%Z.ltb_lt Ha2%negb_true_iff].
    rewrite sapp_cons. cbn [space_pieces].
    rewrite (space_width_ascii white2 white3 white2_high white3_high) by done. rewrite IH by done.
    by destruct (space_pieces O t).
Qed.

Lemma space_width_space w s t :
  (∀ a b, w a b = true → 128 <= code b) → (∀ w3 : Ascii.ascii → Ascii.ascii → Ascii.ascii → bool,
  (∀ a b c, w3 a b c = true → 128 <= code b ∧ 128 <= code c) → ∀ a,
  space_width w w3 (String a s +:+ String " " t) = space_width w w3 (String a s)
  ∧ (space_width w w3 (String a s) <= slen (String a s))%nat).
Proof.
  intros Hw w3 Hw3 a. rewrite sapp_cons. cbn [space_width]. rewrite !slen_cons. destruct (ascii_space a); [split; [done|lia]|].
  destruct s as [|b s].
  - rewrite sapp_nil_l. assert (w a " "%char = false) as ->.
    { destruct (w a " "%char) eqn:H; [|done]. apply Hw in H. done. }
    split; [|lia]. destruct t as [|c t]; [done|]. destruct (w3 a " "%char c) eqn:H; [|done]. by apply Hw3 in H as [? _].
  - rewrite sapp_cons, slen_cons. destruct (w a b); [split; [done|lia]|]. destruct s as [|c s].
    + rewrite sapp_nil_l. split; [|lia]. destruct (w3 a b " "%char) eqn:H; [|done]. by apply Hw3 in H as [_ ?].
    + rewrite sapp_cons, slen_cons. destruct (w3 a b c); split; try done; lia.
Qed.

Lemma space_pieces_nonempty k s : space_pieces k s ≠ [].
Proof.
  revert k. induction s as [|c s IH]; intros [|k]; cbn [space_pieces]; [done..| |apply IH].
  destruct (space_width _ _ _); [|done]. by destruct (space_pieces 0 s) eqn:E; [apply IH in E|].
Qed.

(** A space separates, whatever is before it. *)
Lemma space_pieces_space k s t :
  (k <= slen s)%nat → space_pieces k (s +:+ String " " t) = space_pieces k s ++ space_pieces 0 t.
Proof.
  revert k. induction s as [|c s IH]; intros k Hk.
  - assert (k = 0%nat) as -> by (cbn in Hk; lia). rewrite sapp_nil_l. done.
  - rewrite slen_cons in Hk. destruct k as [|k]; [|rewrite sapp_cons; cbn [space_pieces]; apply IH; lia].
    destruct (space_width_space white2 s t (λ a b H, proj2 (white2_high a b H)) white3
      (λ a b c H, proj2 (white3_high a b c H)) c) as [Hsw Hle].
    rewrite sapp_cons in *. cbn [space_pieces]. rewrite Hsw. rewrite slen_cons in Hle.
    destruct (space_width white2 white3 (String c s)) as [|k]; rewrite IH by lia; [|done].
    by destruct (space_pieces 0 s) eqn:E; [apply space_pieces_nonempty in E|].
Qed.

Lemma Fields_space s t : Fields (s +:+ String " " t) = Fields s ++ Fields t.
Proof. unfold Fields. rewrite space_pieces_space by lia. apply filter_app. Qed.

Lemma Fields_word w : all_plain w = true → w ≠ "" → Fields w = [w].
Proof.
  intros Hp Hne. unfold Fields. rewrite <- (sapp_nil_r w) at 1. rewrite space_pieces_plain by done. cbn [space_pieces].
  rewrite sapp_nil_r. by rewrite filter_cons_True.
Qed.
