(* ===== verification/GoStd.v ===== *)
(** * Parts of the Go library: sorting, numbers, base64 and hexadecimal

    [sort.Strings] and [sort.Slice], [strconv], [encoding/base64] (the standard
    alphabet, with and without padding) and [encoding/hex], as far as the sources
    use them, with the facts the components need. *)

From Stdlib Require Import Sorting.Sorted.
From S2P Require Import Prelude GoStrings.

(** ** Sorting: [sort.Slice] and [sort.Strings] *)

Section sorting.
Context {A : Type} (le : A → A → bool).

Fixpoint insert_sorted (x : A) (l : list A) : list A :=
  match l with
  | [] => [x]
  | y :: l' => if le x y then x :: l else y :: insert_sorted x l'
  end.

Definition sort_by (l : list A) : list A := foldr insert_sorted [] l.

Lemma insert_sorted_perm x l : insert_sorted x l ≡ₚ x :: l.
Proof.
  induction l as [|y l IH]; [done|]. cbn. destruct (le x y); [done|].
  rewrite IH. apply Permutation_swap.
Qed.

Lemma sort_by_perm l : sort_by l ≡ₚ l.
Proof. induction l as [|x l IH]; [done|]. cbn. by rewrite insert_sorted_perm, IH. Qed.

Hypothesis le_total : ∀ x y, le x y = false → le y x = true.
Hypothesis le_trans : ∀ x y z, le x y = true → le y z = true → le x z = true.

Lemma insert_sorted_sorted x l :
  StronglySorted (λ a b, le a b = true) l → StronglySorted (λ a b, le a b = true) (insert_sorted x l).
Proof.
  induction 1 as [|y l Hl IH Hy]; cbn; [by repeat constructor|].
  destruct (le x y) eqn:E.
  - constructor; [by constructor|]. constructor; [done|].
    eapply Forall_impl; [exact Hy|]. eauto.
  - constructor; [done|]. rewrite insert_sorted_perm. constructor; eauto.
Qed.

Lemma sort_by_sorted l : StronglySorted (λ a b, le a b = true) (sort_by l).
Proof. induction l as [|x l IH]; [constructor|]. by apply insert_sorted_sorted. Qed.
End sorting.

(** Byte-wise lexicographic order, as [sort.Strings] compares. *)
Fixpoint string_leb (s t : string) : bool :=
  match s, t with
  | EmptyString, _ => true
  | String _ _, EmptyString => false
  | String a s', String b t' =>
      (code a <? code b) || ((code a =? code b) && string_leb s' t')
  end.

Definition sort_Strings (l : list string) : list string := sort_by string_leb l.

(** ** Numbers: [strconv] *)

Definition is_digit (c : Ascii.ascii) : bool := (48 <=? code c) && (code c <=? 57).

(** The value of a digit string, [None] when it is empty or has another character. *)
Fixpoint digits_value (acc : Z) (s : string) : option Z :=
  match s with
  | EmptyString => Some acc
  | String c s' => if is_digit c then digits_value (acc * 10 + (code c - 48)) s' else None
  end.

Definition parse_digits (s : string) : option Z :=
  if decide (s = "") then None else digits_value 0 s.

(** [strconv.ParseUint(s, 10, bits)] *)
Definition ParseUint (s : string) (bits : Z) : option Z :=
  match parse_digits s with
  | Some v => if v <? 2 ^ bits then Some v else None
  | None => None
  end.

(** [strconv.Atoi] *)
Definition Atoi (s : string) : option Z :=
  let '(neg, body) :=
    match s with
    | String c s' =>
        if decide (c = "-"%char) then (true, s')
        else if decide (c = "+"%char) then (false, s') else (false, s)
    | EmptyString => (false, s)
    end in
  match parse_digits body with
  | Some v =>
      let v := if neg : bool then - v else v in
      if (- 2 ^ 63 <=? v) && (v <? 2 ^ 63) then Some v else None
  | None => None
  end.

(** [strconv.Itoa] of a number that is not negative. *)
Fixpoint decimal_digits (fuel : nat) (n : Z) (acc : string) : string :=
  let acc := String (chr (48 + n mod 10)) acc in
  match fuel with
  | O => acc
  | S fuel' => if n <? 10 then acc else decimal_digits fuel' (n / 10) acc
  end.
(** A number has fewer decimal digits than bits. *)
Definition Itoa (n : Z) : string := decimal_digits (S (Z.to_nat (Z.log2 n))) n "".

(** ** Hexadecimal: [hex.EncodeToString] *)

Definition hex_digit (n : Z) : Ascii.ascii := chr (if n <? 10 then 48 + n else 87 + n).
Fixpoint hex_EncodeToString (s : string) : string :=
  match s with
  | EmptyString => ""
  | String c s' =>
      String (hex_digit (code c / 16)) (String (hex_digit (code c mod 16)) (hex_EncodeToString s'))
  end.

(** ** Base64 *)

Definition b64_char (n : Z) : Ascii.ascii :=
  chr (if n <? 26 then 65 + n else if n <? 52 then 71 + n else if n <? 62 then n - 4
       else if n =? 62 then 43 else 47).

Definition b64_val (c : Ascii.ascii) : option Z :=
  let x := code c in
  if (65 <=? x) && (x <=? 90) then Some (x - 65)
  else if (97 <=? x) && (x <=? 122) then Some (x - 71)
  else if (48 <=? x) && (x <=? 57) then Some (x + 4)
  else if x =? 43 then Some 62
  else if x =? 47 then Some 63
  else None.

Definition b64_pad : Ascii.ascii := "="%char.

Definition b64_c0 (x : Z) : Ascii.ascii := b64_char (x / 4).
Definition b64_c1 (x y : Z) : Ascii.ascii := b64_char (x mod 4 * 16 + y / 16).
Definition b64_c2 (y z : Z) : Ascii.ascii := b64_char (y mod 16 * 4 + z / 64).
Definition b64_c3 (z : Z) : Ascii.ascii := b64_char (z mod 64).

(** [base64.StdEncoding.EncodeToString] *)
Fixpoint b64_encode (s : string) : string :=
  match s with
  | EmptyString => ""
  | String a EmptyString =>
      let x := code a in
      String (b64_c0 x) (String (b64_c1 x 0) (String b64_pad (String b64_pad "")))
  | String a (String b EmptyString) =>
      let x := code a in let y := code b in
      String (b64_c0 x) (String (b64_c1 x y) (String (b64_c2 y 0) (String b64_pad "")))
  | String a (String b (String c s')) =>
      let x := code a in let y := code b in let z := code c in
      String (b64_c0 x) (String (b64_c1 x y) (String (b64_c2 y z) (String (b64_c3 z) (b64_encode s'))))
  end.

(** The decoder skips carriage returns and newlines wherever they are. *)
Fixpoint strip_newlines (s : string) : string :=
  match s with
  | EmptyString => ""
  | String c s' =>
      if (code c =? 10) || (code c =? 13) then strip_newlines s' else String c (strip_newlines s')
  end.

Definition b64_b0 (a b : Z) : Ascii.ascii := chr (a * 4 + b / 16).
Definition b64_b1 (b c : Z) : Ascii.ascii := chr (b mod 16 * 16 + c / 4).
Definition b64_b2 (c d : Z) : Ascii.ascii := chr (c mod 4 * 64 + d).

(** Groups of four characters; [padded] is the difference between [StdEncoding] and
    [RawStdEncoding] in how the last group ends. *)
Fixpoint b64_groups (padded : bool) (s : string) : option string :=
  match s with
  | EmptyString => Some ""
  | String c0 s1 =>
      a ← b64_val c0;
      match s1 with
      | EmptyString => None
      | String c1 s2 =>
          b ← b64_val c1;
          match s2 with
          | EmptyString => if padded then None else Some (String (b64_b0 a b) "")
          | String c2 s3 =>
              match b64_val c2 with
              | None =>
                  if padded && bool_decide (c2 = b64_pad) && bool_decide (s3 = String b64_pad "")
                  then Some (String (b64_b0 a b) "") else None
              | Some c =>
                  match s3 with
                  | EmptyString =>
                      if padded then None else Some (String (b64_b0 a b) (String (b64_b1 b c) ""))
                  | String c3 s4 =>
                      match b64_val c3 with
                      | None =>
                          if padded && bool_decide (c3 = b64_pad) && bool_decide (s4 = "")
                          then Some (String (b64_b0 a b) (String (b64_b1 b c) "")) else None
                      | Some d =>
                          r ← b64_groups padded s4;
                          Some (String (b64_b0 a b) (String (b64_b1 b c) (String (b64_b2 c d) r)))
                      end
                  end
              end
          end
      end
  end.

(** [base64.StdEncoding.DecodeString], [base64.RawStdEncoding.DecodeString] *)
Definition b64_decode_std (s : string) : option string := b64_groups true (strip_newlines s).
Definition b64_decode_raw (s : string) : option string := b64_groups false (strip_newlines s).

(** *** Round trip *)

Definition b64_alphabet (n : Z) : bool :=
  bool_decide (b64_val (b64_char n) = Some n) && negb (code (b64_char n) =? 10)
  && negb (code (b64_char n) =? 13) && negb (ascii_space (b64_char n)) && (code (b64_char n) <? 128).

Lemma b64_alphabet_ok n : 0 <= n < 64 → b64_alphabet n = true.
Proof.
  intros Hn. assert (Hall : forallb b64_alphabet (seqZ 0 64) = true) by (vm_compute; reflexivity).
  rewrite forallb_forall in Hall. apply Hall. apply list_elem_of_In, elem_of_seqZ. lia.
Qed.

Lemma b64_val_char n : 0 <= n < 64 → b64_val (b64_char n) = Some n.
Proof.
  intros H%b64_alphabet_ok. unfold b64_alphabet in H. rewrite !andb_true_iff in H.
  destruct H as ((((H & _) & _) & _) & _). by apply bool_decide_eq_true in H.
Qed.

Lemma strip_newlines_char n s :
  0 <= n < 64 → strip_newlines (String (b64_char n) s) = String (b64_char n) (strip_newlines s).
Proof.
  intros H%b64_alphabet_ok. unfold b64_alphabet in H. rewrite !andb_true_iff, !negb_true_iff in H.
  destruct H as ((((_ & H10) & H13) & _) & _). cbn [strip_newlines]. by rewrite H10, H13.
Qed.

(** The three bytes of a group come back from its four characters. *)
Lemma b64_group x y z :
  0 <= x < 256 → 0 <= y < 256 → 0 <= z < 256 →
  (x / 4) * 4 + (x mod 4 * 16 + y / 16) / 16 = x ∧
  (x mod 4 * 16 + y / 16) mod 16 * 16 + (y mod 16 * 4 + z / 64) / 4 = y ∧
  (y mod 16 * 4 + z / 64) mod 4 * 64 + z mod 64 = z.
Proof. intros. repeat split; Z.to_euclidean_division_equations; lia. Qed.

Lemma b64_ranges x y :
  0 <= x < 256 → 0 <= y < 256 →
  0 <= x / 4 < 64 ∧ 0 <= x mod 4 * 16 + y / 16 < 64 ∧ 0 <= x mod 16 * 4 + y / 64 < 64 ∧ 0 <= x mod 64 < 64.
Proof. intros. repeat split; Z.to_euclidean_division_equations; lia. Qed.

Lemma b64_roundtrip s : b64_decode_std (b64_encode s) = Some s.
Proof.
  unfold b64_decode_std. revert s. fix IH 1. intros [|a [|b [|c s]]]; [done|..];
    pose proof (code_range a) as Ha.
  - pose proof (b64_ranges (code a) 0 Ha ltac:(lia)) as (R0 & R1 & _).
    pose proof (b64_group (code a) 0 0 Ha ltac:(lia) ltac:(lia)) as (G0 & _).
    cbn [b64_encode]. unfold b64_c0, b64_c1. rewrite !strip_newlines_char by done. cbn.
    rewrite !b64_val_char by done. cbn. unfold b64_b0. by rewrite G0, chr_code.
  - pose proof (code_range b) as Hb.
    pose proof (b64_ranges (code a) (code b) Ha Hb) as (R0 & R1 & _).
    pose proof (b64_ranges (code b) 0 Hb ltac:(lia)) as (_ & _ & R2 & _).
    pose proof (b64_group (code a) (code b) 0 Ha Hb ltac:(lia)) as (G0 & G1 & _).
    cbn [b64_encode]. unfold b64_c0, b64_c1, b64_c2. rewrite !strip_newlines_char by done. cbn.
    rewrite !b64_val_char by done. cbn. unfold b64_b0, b64_b1. by rewrite G0, G1, !chr_code.
  - pose proof (code_range b) as Hb. pose proof (code_range c) as Hc.
    pose proof (b64_ranges (code a) (code b) Ha Hb) as (R0 & R1 & _).
    pose proof (b64_ranges (code b) (code c) Hb Hc) as (_ & _ & R2 & _).
    pose proof (b64_ranges (code c) (code c) Hc Hc) as (_ & _ & _ & R3).
    pose proof (b64_group (code a) (code b) (code c) Ha Hb Hc) as (G0 & G1 & G2).
    cbn [b64_encode]. unfold b64_c0, b64_c1, b64_c2, b64_c3. rewrite !strip_newlines_char by done.
    cbn [b64_groups]. rewrite !b64_val_char by done. cbn [mbind option_bind].
    rewrite IH. cbn. unfold b64_b0, b64_b1, b64_b2. by rewrite G0, G1, G2, !chr_code.
Qed.

Lemma b64_char_plain n : 0 <= n < 64 → plain_byte (b64_char n) = true.
Proof.
  intros H%b64_alphabet_ok. unfold b64_alphabet in H. rewrite !andb_true_iff in H.
  unfold plain_byte. rewrite andb_true_iff. tauto.
Qed.

Lemma b64_encode_plain s : all_plain (b64_encode s) = true.
Proof.
  revert s. fix IH 1. intros [|a [|b [|c s]]]; [done|..]; pose proof (code_range a) as Ha.
  - pose proof (b64_ranges (code a) 0 Ha ltac:(lia)) as (R0 & R1 & _).
    cbn [b64_encode all_plain]. unfold b64_c0, b64_c1. by rewrite !b64_char_plain.
  - pose proof (code_range b) as Hb.
    pose proof (b64_ranges (code a) (code b) Ha Hb) as (R0 & R1 & _).
    pose proof (b64_ranges (code b) 0 Hb ltac:(lia)) as (_ & _ & R2 & _).
    cbn [b64_encode all_plain]. unfold b64_c0, b64_c1, b64_c2. by rewrite !b64_char_plain.
  - pose proof (code_range b) as Hb. pose proof (code_range c) as Hc.
    pose proof (b64_ranges (code a) (code b) Ha Hb) as (R0 & R1 & _).
    pose proof (b64_ranges (code b) (code c) Hb Hc) as (_ & _ & R2 & _).
    pose proof (b64_ranges (code c) (code c) Hc Hc) as (_ & _ & _ & R3).
    cbn [b64_encode all_plain]. unfold b64_c0, b64_c1, b64_c2, b64_c3.
    rewrite !b64_char_plain, IH by done. done.
Qed.

Lemma b64_encode_nonempty s : s ≠ "" → b64_encode s ≠ "".
Proof. by destruct s as [|a [|b [|c s]]]. Qed.

(** A byte outside the alphabet makes decoding fail. *)
Lemma b64_groups_alphabet padded c s d :
  b64_val c = None → c ≠ b64_pad → b64_groups padded s = Some d → contains_byte c s = false.
Proof.
  intros Hc Hp. assert (Hne : ∀ x v, b64_val x = Some v → bool_decide (x = c) = false)
    by (intros; apply bool_decide_eq_false; congruence).
  assert (Hpad : bool_decide (b64_pad = c) = false) by (by apply bool_decide_eq_false).
  revert s d. fix IH 1. intros [|c0 [|c1 [|c2 [|c3 s]]]] d; cbn [b64_groups contains_byte]; [done|..];
    destruct (b64_val c0) as [a|] eqn:E0; cbn [mbind option_bind]; try done; rewrite (Hne c0 a E0);
    try (destruct (b64_val c1) as [b|] eqn:E1; cbn [mbind option_bind]; try done; rewrite (Hne c1 b E1));
    cbn [orb]; try done.
  - destruct (b64_val c2) as [v|] eqn:E2; [by rewrite (Hne c2 v E2)|].
    rewrite (bool_decide_eq_false_2 ("" = _)), andb_false_r by done. done.
  - destruct (b64_val c2) as [v|] eqn:E2.
    + rewrite (Hne c2 v E2). cbn [orb]. destruct (b64_val c3) as [u|] eqn:E3.
      * rewrite (Hne c3 u E3). cbn [orb]. destruct (b64_groups padded s) as [r|] eqn:Er; [|done].
        intros _. by apply (IH s r).
      * destruct (padded && _ && _) eqn:Eb; [|done]. rewrite !andb_true_iff, !bool_decide_eq_true in Eb.
        destruct Eb as ((_ & ->) & ->). by rewrite Hpad.
    + destruct (padded && _ && _) eqn:Eb; [|done]. rewrite !andb_true_iff, !bool_decide_eq_true in Eb.
      destruct Eb as ((_ & ->) & [= -> ->]). by rewrite Hpad.
Qed.

Lemma strip_newlines_keeps c s :
  code c ≠ 10 → code c ≠ 13 → contains_byte c (strip_newlines s) = contains_byte c s.
Proof.
  intros H10 H13. induction s as [|d s IH]; [done|]. cbn [strip_newlines].
  destruct ((code d =? 10) || (code d =? 13)) eqn:E.
  - rewrite IH. cbn [contains_byte]. rewrite bool_decide_eq_false_2; [done|]. intros ->.
    rewrite orb_true_iff, !Z.eqb_eq in E. lia.
  - cbn [contains_byte]. by rewrite IH.
Qed.
