(* ===== verification/GoJson.v ===== *)
(** * Go's [encoding/json], as far as the source uses it

    The text of a value and the reading of a text, on strings of bytes: what is escaped, what
    becomes of bytes that are not UTF-8, numbers, white space, the limit on nesting; and the
    filling of a struct from an object. A class states what a message type promises to its
    users: what is marshalled is unmarshalled. *)

From S2P Require Import Prelude GoStrings GoStd.

(** Values. A number is kept as its literal. *)
Inductive json :=
| JNull
| JBool (b : bool)
| JNum (lit : string)
| JStr (s : string)
| JArr (l : list json)
| JObj (l : list (string * json)).

Definition dquote : Ascii.ascii := chr 34.
Definition backslash : Ascii.ascii := chr 92.

(** ** Runes *)

(** [utf8.EncodeRune]; a surrogate or a number that is no rune is U+FFFD. *)
Definition EncodeRune (r : Z) : string :=
  let three r := String (chr (0xE0 + r / 4096)) (String (chr (0x80 + r / 64 mod 64)) (String (chr (0x80 + r mod 64)) "")) in
  if (0 <=? r) && (r <? 0x80) then String (chr r) ""
  else if (0x80 <=? r) && (r <? 0x800) then String (chr (0xC0 + r / 64)) (String (chr (0x80 + r mod 64)) "")
  else if (r <? 0) || (0x10FFFF <? r) || ((0xD800 <=? r) && (r <? 0xE000)) then three RuneError
  else if r <? 0x10000 then three r
  else String (chr (0xF0 + r / 262144)) (String (chr (0x80 + r / 4096 mod 64))
         (String (chr (0x80 + r / 64 mod 64)) (String (chr (0x80 + r mod 64)) ""))).

Definition invalid_rune (rn : Z * nat) : bool := (rn.1 =? RuneError) && (rn.2 =? 1)%nat.

(** [utf8.ValidString]; every rune has at least a byte. *)
Fixpoint valid_utf8 (fuel : nat) (s : string) : bool :=
  match s, fuel with
  | EmptyString, _ => true
  | _, O => false
  | _, S fuel' => let rn := DecodeRune s in negb (invalid_rune rn) && valid_utf8 fuel' (string_drop rn.2 s)
  end.
Definition ValidString (s : string) : bool := valid_utf8 (slen s) s.

(** ** Printing *)

(** The bytes below 0x80 that [Marshal] copies. *)
Definition htmlSafe (c : Ascii.ascii) : bool :=
  (32 <=? code c) && (code c <? 128)
  && forallb (λ x, negb (code c =? x)) [34; 38; 60; 62; 92].

Definition escape_ascii (c : Ascii.ascii) : string :=
  let esc e := String backslash (String (chr e) "") in
  if htmlSafe c then String c ""
  else if (code c =? 92) || (code c =? 34) then esc (code c)
  else if code c =? 8 then esc 98
  else if code c =? 12 then esc 102
  else if code c =? 10 then esc 110
  else if code c =? 13 then esc 114
  else if code c =? 9 then esc 116
  else String backslash ("u00" +:+ String (hex_digit (code c / 16)) (String (hex_digit (code c mod 16)) "")).

(** [appendString]: U+2028 and U+2029 are escaped too, and what is not UTF-8 is lost. *)
Fixpoint quote_body (fuel : nat) (s : string) : string :=
  match fuel, s with
  | S fuel', String c s' =>
      if code c <? 128 then escape_ascii c +:+ quote_body fuel' s'
      else
        let rn := DecodeRune s in
        if invalid_rune rn then String backslash "ufffd" +:+ quote_body fuel' s'
        else (if (rn.1 =? 0x2028) || (rn.1 =? 0x2029)
              then String backslash ("u202" +:+ String (hex_digit (rn.1 mod 16)) "")
              else string_take rn.2 s) +:+ quote_body fuel' (string_drop rn.2 s)
  | _, _ => ""
  end.

Definition quote (s : string) : string := String dquote (quote_body (slen s) s +:+ String dquote "").

Definition FormatInt (n : Z) : string := if n <? 0 then "-" +:+ Itoa (- n) else Itoa n.

Fixpoint json_print (j : json) : string :=
  match j with
  | JNull => "null"
  | JBool b => if b then "true" else "false"
  | JNum lit => lit
  | JStr s => quote s
  | JArr l => "[" +:+ (Join (json_print <$> l) "," +:+ "]")
  | JObj l => "{" +:+ (Join ((λ kv, quote kv.1 +:+ (":" +:+ json_print kv.2)) <$> l) "," +:+ "}")
  end.

(** ** Parsing *)

Definition json_space (c : Ascii.ascii) : bool :=
  (code c =? 32) || (code c =? 9) || (code c =? 13) || (code c =? 10).

Fixpoint skip_space (s : string) : string :=
  match s with
  | String c s' => if json_space c then skip_space s' else s
  | EmptyString => ""
  end.

Definition hex_val (c : Ascii.ascii) : option Z :=
  let x := code c in
  if (48 <=? x) && (x <=? 57) then Some (x - 48)
  else if (97 <=? x) && (x <=? 102) then Some (x - 87)
  else if (65 <=? x) && (x <=? 70) then Some (x - 55)
  else None.

(** Four hexadecimal digits. *)
Definition getu4 (s : string) : option (Z * string) :=
  match s with
  | String a (String b (String c (String d s'))) =>
      x ← hex_val a; y ← hex_val b; z ← hex_val c; u ← hex_val d;
      Some (x * 4096 + y * 256 + z * 16 + u, s')
  | _ => None
  end.

Definition unescape (c : Ascii.ascii) : option Ascii.ascii :=
  let x := code c in
  if (x =? 34) || (x =? 92) || (x =? 47) then Some c
  else if x =? 98 then Some (chr 8)
  else if x =? 102 then Some (chr 12)
  else if x =? 110 then Some (chr 10)
  else if x =? 114 then Some (chr 13)
  else if x =? 116 then Some (chr 9)
  else None.

(** The rune of an escape that starts with [r], given what follows it: a pair of surrogates is
    one rune, a surrogate alone is U+FFFD. *)
Definition escaped_rune (r : Z) (rest : string) : Z * string :=
  if (0xD800 <=? r) && (r <? 0xE000) then
    match rest with
    | String b (String u rest') =>
        match (if (code b =? 92) && (code u =? 117) then getu4 rest' else None) with
        | Some (r1, rest'') =>
            if (r <? 0xDC00) && (0xDC00 <=? r1) && (r1 <? 0xE000)
            then ((r - 0xD800) * 1024 + (r1 - 0xDC00) + 0x10000, rest'')
            else (RuneError, rest)
        | None => (RuneError, rest)
        end
    | _ => (RuneError, rest)
    end
  else (r, rest).

(** A string after its opening quote: its value and what follows the closing one. *)
Fixpoint parse_string (fuel : nat) (s : string) : option (string * string) :=
  match fuel, s with
  | S fuel', String c s' =>
      if code c =? 34 then Some ("", s')
      else if code c =? 92 then
        match s' with
        | String e s'' =>
            if code e =? 117 then
              '(r, rest) ← getu4 s'';
              let '(r, rest) := escaped_rune r rest in
              '(v, rest) ← parse_string fuel' rest;
              Some (EncodeRune r +:+ v, rest)
            else
              b ← unescape e;
              '(v, rest) ← parse_string fuel' s'';
              Some (String b v, rest)
        | EmptyString => None
        end
      else if code c <? 32 then None
      else if code c <? 128 then '(v, rest) ← parse_string fuel' s'; Some (String c v, rest)
      else
        let rn := DecodeRune s in
        if invalid_rune rn then '(v, rest) ← parse_string fuel' s'; Some (EncodeRune RuneError +:+ v, rest)
        else '(v, rest) ← parse_string fuel' (string_drop rn.2 s); Some (string_take rn.2 s +:+ v, rest)
  | _, _ => None
  end.

Fixpoint take_digits (s : string) : string * string :=
  match s with
  | String c s' => if is_digit c then let '(d, r) := take_digits s' in (String c d, r) else ("", s)
  | EmptyString => ("", "")
  end.

(** A number: sign, digits without a leading zero, fraction, exponent. *)
Definition parse_int_part (s : string) : option (string * string) :=
  match s with
  | String c s' =>
      if code c =? 48 then Some (String c "", s')
      else match take_digits s with ("", _) => None | r => Some r end
  | EmptyString => None
  end.

Definition parse_fraction (s : string) : option (string * string) :=
  match s with
  | String c s' =>
      if code c =? 46 then match take_digits s' with ("", _) => None | (d, r) => Some (String c d, r) end
      else Some ("", s)
  | EmptyString => Some ("", "")
  end.

Definition parse_exponent (s : string) : option (string * string) :=
  match s with
  | String c s' =>
      if (code c =? 101) || (code c =? 69) then
        let '(sign, s'') :=
          match s' with
          | String g t => if (code g =? 43) || (code g =? 45) then (String g "", t) else ("", s')
          | EmptyString => ("", "")
          end in
        match take_digits s'' with ("", _) => None | (d, r) => Some (String c (sign +:+ d), r) end
      else Some ("", s)
  | EmptyString => Some ("", "")
  end.

Definition parse_number (s : string) : option (string * string) :=
  let '(sign, s) := match s with
                    | String c s' => if code c =? 45 then (String c "", s') else ("", s)
                    | EmptyString => ("", "")
                    end in
  '(i, s) ← parse_int_part s;
  '(f, s) ← parse_fraction s;
  '(e, s) ← parse_exponent s;
  Some (sign +:+ (i +:+ (f +:+ e)), s).

Definition maxNestingDepth : Z := 10000.

(** A value, the elements of an array after its bracket or a comma, the members of an object.
    Two calls consume at least a byte. *)
Fixpoint parse_value (fuel : nat) (depth : Z) (s : string) : option (json * string) :=
  match fuel with
  | O => None
  | S fuel' =>
      match skip_space s with
      | EmptyString => None
      | String c s' as s0 =>
          if code c =? 34 then '(v, r) ← parse_string (S (slen s')) s'; Some (JStr v, r)
          else if code c =? 91 then
            if maxNestingDepth <? depth + 1 then None
            else match skip_space s' with
                 | String d r => if code d =? 93 then Some (JArr [], r)
                                 else '(l, r) ← parse_elems fuel' (depth + 1) s'; Some (JArr l, r)
                 | EmptyString => None
                 end
          else if code c =? 123 then
            if maxNestingDepth <? depth + 1 then None
            else match skip_space s' with
                 | String d r => if code d =? 125 then Some (JObj [], r)
                                 else '(l, r) ← parse_members fuel' (depth + 1) s'; Some (JObj l, r)
                 | EmptyString => None
                 end
          else if HasPrefix s0 "null" then Some (JNull, string_drop 4 s0)
          else if HasPrefix s0 "true" then Some (JBool true, string_drop 4 s0)
          else if HasPrefix s0 "false" then Some (JBool false, string_drop 5 s0)
          else '(lit, r) ← parse_number s0; Some (JNum lit, r)
      end
  end
with parse_elems (fuel : nat) (depth : Z) (s : string) : option (list json * string) :=
  match fuel with
  | O => None
  | S fuel' =>
      '(v, r) ← parse_value fuel' depth s;
      match skip_space r with
      | String c r' =>
          if code c =? 44 then '(l, r) ← parse_elems fuel' depth r'; Some (v :: l, r)
          else if code c =? 93 then Some ([v], r') else None
      | EmptyString => None
      end
  end
with parse_members (fuel : nat) (depth : Z) (s : string) : option (list (string * json) * string) :=
  match fuel with
  | O => None
  | S fuel' =>
      match skip_space s with
      | String q s' =>
          if negb (code q =? 34) then None
          else
            '(k, r) ← parse_string (S (slen s')) s';
            match skip_space r with
            | String c r' =>
                if negb (code c =? 58) then None
                else
                  '(v, r) ← parse_value fuel' depth r';
                  match skip_space r with
                  | String d r' =>
                      if code d =? 44 then '(l, r) ← parse_members fuel' depth r'; Some ((k, v) :: l, r)
                      else if code d =? 125 then Some ([(k, v)], r') else None
                  | EmptyString => None
                  end
            | EmptyString => None
            end
      | EmptyString => None
      end
  end.

(** A whole text: nothing but white space follows the value. *)
Definition json_parse (s : string) : option json :=
  '(v, r) ← parse_value (2 * S (slen s)) 0 s;
  if decide (skip_space r = "") then Some v else None.

(** ** Structs

    A member fills the field whose name is its key, in any case; later members overwrite
    earlier ones, unknown keys are skipped, [null] changes nothing in a number, a string or a
    boolean and empties a slice or a map. A value of the wrong type is an error in the end,
    whatever else was filled. *)

Definition key_is (name key : string) : bool := bool_decide (key = name) || EqualFold key name.

Fixpoint field {A} (name : string) (dec : A → json → option A) (a : A) (obj : list (string * json)) : option A :=
  match obj with
  | [] => Some a
  | (k, v) :: obj' =>
      if key_is name k then a' ← dec a v; field name dec a' obj' else field name dec a obj'
  end.

(** An object, or [null], which leaves the zero struct. *)
Definition of_struct {T} (dec : list (string * json) → option T) (j : json) : option T :=
  match j with JObj l => dec l | JNull => dec [] | _ => None end.

Definition dec_string (a : string) (j : json) : option string :=
  match j with JStr s => Some s | JNull => Some a | _ => None end.
Definition dec_bool (a : bool) (j : json) : option bool :=
  match j with JBool b => Some b | JNull => Some a | _ => None end.
Definition dec_int (a : Z) (j : json) : option Z :=
  match j with JNum lit => Atoi lit | JNull => Some a | _ => None end.
(** An unsigned field of [bits] bits. *)
Definition dec_uint (bits : Z) (a : Z) (j : json) : option Z :=
  match j with JNum lit => ParseUint lit bits | JNull => Some a | _ => None end.
(** A [[]byte] travels in base64. *)
Definition dec_bytes (_ : bytes) (j : json) : option bytes :=
  match j with
  | JStr s => String.list_ascii_of_string <$> b64_decode_std s
  | JNull => Some []
  | _ => None
  end.
Definition dec_list {A} (dec : json → option A) (_ : list A) (j : json) : option (list A) :=
  match j with JArr l => mapM dec l | JNull => Some [] | _ => None end.
Definition dec_strings : list string → json → option (list string) := dec_list (dec_string "").
(** A map takes the members in over what it holds. *)
Definition dec_map {A} (dec : json → option A) (m : gmap string A) (j : json) : option (gmap string A) :=
  match j with
  | JObj l => foldl (λ acc kv, m ← acc; a ← dec kv.2; Some (<[kv.1 := a]> m)) (Some m) l
  | JNull => Some ∅
  | _ => None
  end.

Definition enc_bytes (b : bytes) : json := JStr (b64_encode (String.string_of_list_ascii b)).
Definition enc_strings (l : list string) : json := JArr (JStr <$> l).
(** The members of a map are printed in the order of their keys. *)
Definition enc_map {A} (enc : A → json) (m : gmap string A) : json :=
  JObj ((λ kv, (kv.1, enc kv.2)) <$> sort_by (λ a b, string_leb a.1 b.1) (map_to_list m)).

(** A member, and one that is omitted when it is empty. *)
Definition member (name : string) (j : json) : list (string * json) := [(name, j)].
Definition omitempty (empty : bool) (name : string) (j : json) : list (string * json) :=
  if empty then [] else [(name, j)].
Definition is_empty {A} (l : list A) : bool := match l with [] => true | _ => false end.

(** What a type of messages offers, and promises. *)
Class Codec (T : Type) := { to_json : T → json; of_json : json → option T }.

Definition Marshal {T} `{!Codec T} (x : T) : bytes := String.list_ascii_of_string (json_print (to_json x)).
Definition Unmarshal {T} `{!Codec T} (data : bytes) : option T :=
  json_parse (String.string_of_list_ascii data) ≫= of_json.
