(* ===== verification/GoJsonSpec.v ===== *)
(** * What is marshalled is unmarshalled

    The text of a value whose strings are UTF-8 parses back to it; what the struct types of
    the wire protocols promise follows through a class. *)

From S2P Require Import Prelude GoStrings GoStd GoJson.

(** ** Runes *)

Lemma land_ones_mod x k : 0 <= k → Z.land x (Z.ones k) = x mod 2 ^ k.
Proof. intros. by apply Z.land_ones. Qed.

Lemma lor_shiftl_add a b k : 0 <= k → 0 <= b < 2 ^ k → Z.lor (Z.shiftl a k) b = a * 2 ^ k + b.
Proof.
  intros Hk Hb. rewrite Z.shiftl_mul_pow2 by done. rewrite <- Z.add_lor_land.
  assert (Z.land (a * 2 ^ k) b = 0) as ->; [|lia].
  apply Z.bits_inj'. intros i Hi. rewrite Z.land_spec, Z.bits_0.
  destruct (Z.lt_ge_cases i k).
  - by rewrite Z.mul_pow2_bits_low.
  - assert (b = b mod 2 ^ k) as -> by (by rewrite Z.mod_small). by rewrite Z.mod_pow2_bits_high, andb_false_r by lia.
Qed.

Lemma cont_bits_mod c : cont_bits c = code c mod 64.
Proof. unfold cont_bits. change 63 with (Z.ones 6). by rewrite land_ones_mod. Qed.

Lemma is_cont_range c : is_cont c = true ↔ 128 <= code c < 192.
Proof. unfold is_cont. rewrite andb_true_iff, !Z.leb_le. lia. Qed.

Lemma chr_eq z c : z = code c → chr z = c.
Proof. intros ->. apply chr_code. Qed.

(** Decides the comparisons of a conditional chain by linear arithmetic. *)
Ltac decide_bounds :=
  repeat match goal with
  | |- context [?a <=? ?b] =>
      first [rewrite (proj2 (Z.leb_le a b)) by lia | rewrite (proj2 (Z.leb_gt a b)) by lia]
  | |- context [?a <? ?b] =>
      first [rewrite (proj2 (Z.ltb_lt a b)) by lia | rewrite (proj2 (Z.ltb_ge a b)) by lia]
  end; cbn [andb orb negb].

Lemma EncodeRune_1 c : code c < 128 → EncodeRune (code c) = String c "".
Proof. intros H. pose proof (code_range c). unfold EncodeRune. decide_bounds. by rewrite chr_code. Qed.

Lemma EncodeRune_2 c0 c1 :
  194 <= code c0 < 224 → 128 <= code c1 < 192 →
  EncodeRune ((code c0 - 192) * 64 + (code c1 - 128)) = String c0 (String c1 "").
Proof.
  intros H0 H1. unfold EncodeRune. decide_bounds. f_equal; [|f_equal]; apply chr_eq;
    Z.to_euclidean_division_equations; lia.
Qed.

Lemma EncodeRune_3 c0 c1 c2 r :
  r = (code c0 - 224) * 4096 + (code c1 - 128) * 64 + (code c2 - 128) →
  224 <= code c0 < 240 → 128 <= code c1 < 192 → 128 <= code c2 < 192 →
  2048 <= r → r < 55296 ∨ 57344 <= r →
  EncodeRune r = String c0 (String c1 (String c2 "")).
Proof.
  intros Hr H0 H1 H2 Hlo Hs. unfold EncodeRune. decide_bounds.
  assert ((55296 <=? r) && (r <? 57344) = false) as ->.
  { apply andb_false_iff. rewrite Z.leb_gt, Z.ltb_ge. lia. }
  cbn [orb]. f_equal; [|f_equal; [|f_equal]]; apply chr_eq; Z.to_euclidean_division_equations; lia.
Qed.

Lemma EncodeRune_4 c0 c1 c2 c3 r :
  r = (code c0 - 240) * 262144 + (code c1 - 128) * 4096 + (code c2 - 128) * 64 + (code c3 - 128) →
  240 <= code c0 < 245 → 128 <= code c1 < 192 → 128 <= code c2 < 192 → 128 <= code c3 < 192 →
  65536 <= r < 1114112 →
  EncodeRune r = String c0 (String c1 (String c2 (String c3 ""))).
Proof.
  intros Hr H0 H1 H2 H3 Hb. unfold EncodeRune. decide_bounds.
  f_equal; [|f_equal; [|f_equal; [|f_equal]]]; apply chr_eq; Z.to_euclidean_division_equations; lia.
Qed.

Lemma rune_bits_2 c0 c1 :
  192 <= code c0 < 224 → 128 <= code c1 < 192 →
  Z.lor (Z.shiftl (Z.land (code c0) 31) 6) (cont_bits c1) = (code c0 - 192) * 64 + (code c1 - 128).
Proof.
  intros H0 H1. rewrite cont_bits_mod. change 31 with (Z.ones 5). rewrite land_ones_mod by lia.
  rewrite lor_shiftl_add by (try lia; apply Z.mod_pos_bound; lia). Z.to_euclidean_division_equations. lia.
Qed.

Lemma rune_bits_3 c0 c1 c2 :
  224 <= code c0 < 240 → 128 <= code c1 < 192 → 128 <= code c2 < 192 →
  Z.lor (Z.shiftl (Z.land (code c0) 15) 12) (Z.lor (Z.shiftl (cont_bits c1) 6) (cont_bits c2))
  = (code c0 - 224) * 4096 + (code c1 - 128) * 64 + (code c2 - 128).
Proof.
  intros H0 H1 H2. rewrite !cont_bits_mod. change 15 with (Z.ones 4). rewrite land_ones_mod by lia.
  pose proof (Z.mod_pos_bound (code c1) 64). pose proof (Z.mod_pos_bound (code c2) 64).
  rewrite !lor_shiftl_add by (rewrite ?lor_shiftl_add by lia; lia). Z.to_euclidean_division_equations. lia.
Qed.

Lemma rune_bits_4 c0 c1 c2 c3 :
  240 <= code c0 < 248 → 128 <= code c1 < 192 → 128 <= code c2 < 192 → 128 <= code c3 < 192 →
  Z.lor (Z.shiftl (Z.land (code c0) 7) 18)
    (Z.lor (Z.shiftl (cont_bits c1) 12) (Z.lor (Z.shiftl (cont_bits c2) 6) (cont_bits c3)))
  = (code c0 - 240) * 262144 + (code c1 - 128) * 4096 + (code c2 - 128) * 64 + (code c3 - 128).
Proof.
  intros H0 H1 H2 H3. rewrite !cont_bits_mod. change 7 with (Z.ones 3). rewrite land_ones_mod by lia.
  pose proof (Z.mod_pos_bound (code c1) 64). pose proof (Z.mod_pos_bound (code c2) 64).
  pose proof (Z.mod_pos_bound (code c3) 64).
  rewrite (lor_shiftl_add (code c2 mod 64)) by lia. rewrite (lor_shiftl_add (code c1 mod 64)) by lia.
  rewrite lor_shiftl_add by lia. Z.to_euclidean_division_equations. lia.
Qed.

(** The well-formed encodings. *)
Inductive rune_bytes : Z → string → Prop :=
| Rune1 c : code c < 128 → rune_bytes (code c) (String c "")
| Rune2 c0 c1 : 194 <= code c0 < 224 → 128 <= code c1 < 192 →
    rune_bytes ((code c0 - 192) * 64 + (code c1 - 128)) (String c0 (String c1 ""))
| Rune3 c0 c1 c2 r : 224 <= code c0 < 240 → 128 <= code c1 < 192 → 128 <= code c2 < 192 →
    (code c0 = 224 → 160 <= code c1) → (code c0 = 237 → code c1 < 160) →
    r = (code c0 - 224) * 4096 + (code c1 - 128) * 64 + (code c2 - 128) →
    rune_bytes r (String c0 (String c1 (String c2 "")))
| Rune4 c0 c1 c2 c3 r : 240 <= code c0 < 245 → 128 <= code c1 < 192 → 128 <= code c2 < 192 → 128 <= code c3 < 192 →
    (code c0 = 240 → 144 <= code c1) → (code c0 = 244 → code c1 < 144) →
    r = (code c0 - 240) * 262144 + (code c1 - 128) * 4096 + (code c2 - 128) * 64 + (code c3 - 128) →
    rune_bytes r (String c0 (String c1 (String c2 (String c3 "")))).

Lemma rune_bytes_encode r b : rune_bytes r b → EncodeRune r = b.
Proof.
  intros Hr. destruct Hr; [by apply EncodeRune_1|by apply EncodeRune_2|apply EncodeRune_3; (done || lia)|apply EncodeRune_4; (done || lia)].
Qed.

Lemma rune_bytes_decode r b t : rune_bytes r b → DecodeRune (b +:+ t) = (r, slen b).
Proof.
  intros Hr. destruct Hr as [c H|c0 c1 H0 H1|c0 c1 c2 r H0 H1 H2 Ha Hb ->|c0 c1 c2 c3 r H0 H1 H2 H3 Ha Hb ->];
    rewrite ?sapp_cons; cbn [DecodeRune slen String.length].
  - by decide_bounds.
  - decide_bounds. rewrite (proj2 (is_cont_range c1)) by done. by rewrite rune_bits_2 by lia.
  - decide_bounds. rewrite (proj2 (is_cont_range c2)) by done.
    assert (((if code c0 =? 224 then 160 else 128) <=? code c1) && (code c1 <=? (if code c0 =? 237 then 159 else 191)) = true) as ->.
    { apply andb_true_iff. destruct (Z.eqb_spec (code c0) 224), (Z.eqb_spec (code c0) 237); rewrite !Z.leb_le; lia. }
    by rewrite rune_bits_3 by lia.
  - decide_bounds. rewrite (proj2 (is_cont_range c2)), (proj2 (is_cont_range c3)) by done.
    assert (((if code c0 =? 240 then 144 else 128) <=? code c1) && (code c1 <=? (if code c0 =? 244 then 143 else 191)) = true) as ->.
    { apply andb_true_iff. destruct (Z.eqb_spec (code c0) 240), (Z.eqb_spec (code c0) 244); rewrite !Z.leb_le; lia. }
    by rewrite rune_bits_4 by lia.
Qed.

(** A rune that [DecodeRune] does not reject is a well-formed encoding at the front. *)
Lemma DecodeRune_valid s :
  s ≠ "" → invalid_rune (DecodeRune s) = false →
  ∃ b t, s = b +:+ t ∧ rune_bytes (DecodeRune s).1 b ∧ (DecodeRune s).2 = slen b.
Proof.
  intros Hs Hv. destruct s as [|c0 s]; [done|].
  assert (Hbad : invalid_rune (RuneError, 1%nat) ≠ false) by done.
  assert (Hgo : ∀ r b t, String c0 s = b +:+ t → rune_bytes r b →
    ∃ b t, String c0 s = b +:+ t ∧ rune_bytes (DecodeRune (String c0 s)).1 b ∧ (DecodeRune (String c0 s)).2 = slen b).
  { intros r b t Hst Hb. exists b, t. split; [done|]. rewrite Hst, (rune_bytes_decode r b t Hb). by split. }
  pose proof (code_range c0). cbn [DecodeRune] in Hv.
  destruct (Z.ltb_spec (code c0) 128); [apply (Hgo (code c0) (String c0 "") s); [done|by constructor]|].
  destruct ((194 <=? code c0) && (code c0 <=? 223)) eqn:E2.
  { rewrite andb_true_iff, !Z.leb_le in E2. destruct s as [|c1 s]; [done|].
    destruct (is_cont c1) eqn:E1; [|done]. apply is_cont_range in E1.
    eapply (Hgo _ (String c0 (String c1 "")) s); [done|]. constructor; lia. }
  destruct ((224 <=? code c0) && (code c0 <=? 239)) eqn:E3.
  { rewrite andb_true_iff, !Z.leb_le in E3. destruct s as [|c1 [|c2 s]]; [done..|].
    destruct (((if code c0 =? 224 then 160 else 128) <=? code c1) && (code c1 <=? (if code c0 =? 237 then 159 else 191))) eqn:E1; [|done].
    destruct (is_cont c2) eqn:Ec2; [|done]. apply is_cont_range in Ec2. rewrite andb_true_iff, !Z.leb_le in E1.
    destruct (Z.eqb_spec (code c0) 224), (Z.eqb_spec (code c0) 237);
      (eapply (Hgo _ (String c0 (String c1 (String c2 ""))) s); [done|eapply Rune3; [lia..|reflexivity]]). }
  destruct ((240 <=? code c0) && (code c0 <=? 244)) eqn:E4; [|done].
  rewrite andb_true_iff, !Z.leb_le in E4. destruct s as [|c1 [|c2 [|c3 s]]]; [done..|].
  destruct (((if code c0 =? 240 then 144 else 128) <=? code c1) && (code c1 <=? (if code c0 =? 244 then 143 else 191))) eqn:E1; [|done].
  destruct (is_cont c2) eqn:Ec2; [|done]. destruct (is_cont c3) eqn:Ec3; [|done].
  apply is_cont_range in Ec2, Ec3. rewrite andb_true_iff, !Z.leb_le in E1.
  destruct (Z.eqb_spec (code c0) 240), (Z.eqb_spec (code c0) 244);
    (eapply (Hgo _ (String c0 (String c1 (String c2 (String c3 "")))) s); [done|eapply Rune4; [lia..|reflexivity]]).
Qed.

Lemma rune_bytes_wide c s r b t : String c s = b +:+ t → rune_bytes r b → 128 <= code c → 128 <= r.
Proof.
  intros Hst Hr Hc. destruct Hr; rewrite ?sapp_cons in Hst; injection Hst as ->; lia.
Qed.

(** ** Strings *)

Lemma parse_escape c fuel tail :
  code c < 128 →
  parse_string (S fuel) (escape_ascii c +:+ tail) =
  ('(v, rest) ← parse_string fuel tail; Some (String c v, rest)).
Proof.
  intros Hc. destruct c as [[] [] [] [] [] [] [] []]; first [vm_compute in Hc; discriminate Hc | reflexivity].
Qed.

Lemma escape_ascii_nonempty c : escape_ascii c ≠ "".
Proof. unfold escape_ascii. by repeat case_match. Qed.

Lemma slen_nonempty s : s ≠ "" → (0 < slen s)%nat.
Proof. destruct s; [done|]. rewrite slen_cons. lia. Qed.

(** A non-ASCII rune that is copied is read back. *)
Lemma parse_rune r b fuel tail :
  rune_bytes r b → invalid_rune (r, slen b) = false → 128 <= r →
  parse_string (S fuel) (b +:+ tail) = ('(v, rest) ← parse_string fuel tail; Some (b +:+ v, rest)).
Proof.
  intros Hr Hv Hw. pose proof (rune_bytes_decode r b tail Hr) as Hd.
  pose proof (string_drop_app b tail) as Hdrop. pose proof (string_take_app b tail) as Htake.
  assert (∃ c b', b = String c b' ∧ 128 <= code c) as (c & b' & -> & Hc).
  { destruct Hr; eexists _, _; (split; [reflexivity|lia]). }
  rewrite sapp_cons in Hd, Hdrop, Htake |- *. cbn [parse_string]. cbn [slen String.length] in *. rewrite Hd. cbn [snd].
  change (String.length b') with (slen b') in *. rewrite Hdrop, Htake, Hv.
  rewrite !(proj2 (Z.eqb_neq (code c) _)) by lia. by decide_bounds.
Qed.

Lemma parse_line_separator r b fuel tail :
  rune_bytes r b → (r =? 0x2028) || (r =? 0x2029) = true →
  parse_string (S fuel) (String backslash ("u202" +:+ String (hex_digit (r mod 16)) "") +:+ tail)
  = ('(v, rest) ← parse_string fuel tail; Some (b +:+ v, rest)).
Proof.
  intros Hr Hs. apply rune_bytes_encode in Hr as <-. apply orb_true_iff in Hs. rewrite !Z.eqb_eq in Hs.
  by destruct Hs as [-> | ->].
Qed.

Lemma parse_quote n s fuel rest :
  (slen s <= n)%nat → valid_utf8 n s = true → (slen (quote_body n s) < fuel)%nat →
  parse_string fuel (quote_body n s +:+ String dquote rest) = Some (s, rest).
Proof.
  revert s fuel. induction n as [|n IH]; intros s fuel Hn Hv Hf.
  { destruct s; [|cbn in Hn; lia]. by destruct fuel; [lia|]. }
  destruct s as [|c s']; [by destruct fuel; [lia|]|]. destruct fuel as [|fuel]; [lia|].
  cbn [quote_body] in *. cbn [valid_utf8] in Hv. rewrite slen_cons in Hn.
  apply andb_true_iff in Hv as [Hnb Hv]. apply negb_true_iff in Hnb.
  destruct (DecodeRune_valid (String c s') ltac:(done) Hnb) as (b & t & Hst & Hr & Hl).
  rewrite Hl, Hst, string_drop_app in Hv.
  assert (Hlt : (slen t <= n)%nat).
  { apply (f_equal slen) in Hst. rewrite slen_cons, slen_app in Hst. destruct Hr; cbn in Hst; lia. }
  destruct (Z.ltb_spec (code c) 128) as [Hc|Hc].
  - pose proof (slen_nonempty _ (escape_ascii_nonempty c)). rewrite slen_app in Hf.
    assert (t = s') as ->.
    { destruct Hr; rewrite ?sapp_cons in Hst; injection Hst; intros; subst; (done || lia). }
    rewrite sapp_assoc, parse_escape, IH by (done || lia). done.
  - rewrite Hnb, Hl, Hst, string_drop_app, string_take_app in *.
    pose proof (rune_bytes_wide _ _ _ _ _ (eq_sym (eq_sym Hst)) Hr Hc) as Hw.
    rewrite slen_app in Hf. rewrite sapp_assoc.
    destruct ((((DecodeRune (b +:+ t)).1) =? 8232) || ((DecodeRune (b +:+ t)).1 =? 8233)) eqn:E.
    + rewrite (parse_line_separator _ b), IH by (done || (rewrite slen_cons in Hf; lia)). done.
    + assert (Hb : (0 < slen b)%nat) by (destruct Hr; cbn; lia).
      rewrite (parse_rune (DecodeRune (b +:+ t)).1), IH; [done|done|done|lia|done| |done].
      destruct (DecodeRune (b +:+ t)); cbn in *. by subst.
Qed.

(** The strings that survive are the UTF-8 ones. *)
Lemma parse_quoted s rest :
  ValidString s = true →
  parse_string (S (slen (quote_body (slen s) s +:+ String dquote rest))) (quote_body (slen s) s +:+ String dquote rest)
  = Some (s, rest).
Proof. intros Hv. apply parse_quote; [done|done|]. rewrite slen_app. lia. Qed.

(** ** Numbers *)

Fixpoint all_digits (s : string) : bool :=
  match s with EmptyString => true | String c s' => is_digit c && all_digits s' end.

(** What follows a number and is not part of it. *)
Definition num_stop (s : string) : bool :=
  match s with
  | EmptyString => true
  | String c _ => negb (is_digit c || (code c =? 46) || (code c =? 101) || (code c =? 69))
  end.

Lemma take_digits_app d rest : all_digits d = true → num_stop rest = true → take_digits (d +:+ rest) = (d, rest).
Proof.
  intros Hd Hr. induction d as [|c d IH]; cbn [all_digits] in Hd.
  - rewrite sapp_nil_l. destruct rest as [|c rest]; [done|]. cbn [take_digits]. cbn in Hr.
    by destruct (is_digit c).
  - apply andb_true_iff in Hd as [Hc Hd]. rewrite sapp_cons. cbn [take_digits]. by rewrite Hc, IH.
Qed.

Lemma is_digit_48 n : 0 <= n < 10 → is_digit (chr (48 + n)) = true ∧ code (chr (48 + n)) = 48 + n.
Proof.
  intros Hn. assert (code (chr (48 + n)) = 48 + n) as Hc by (apply code_chr; lia). split; [|done].
  unfold is_digit. rewrite Hc. apply andb_true_iff. rewrite !Z.leb_le. lia.
Qed.

Lemma all_digits_app a b : all_digits (a +:+ b) = all_digits a && all_digits b.
Proof. induction a as [|c a IH]; [done|]. rewrite sapp_cons. cbn. by rewrite IH, andb_assoc. Qed.

Lemma decimal_digits_spec fuel n acc :
  0 <= n < 10 ^ Z.of_nat (S fuel) →
  ∃ c d, decimal_digits fuel n acc = String c d +:+ acc ∧ all_digits (String c d) = true
    ∧ (∀ t, digits_value 0 (String c d +:+ t) = digits_value n t)
    ∧ (code c = 48 → d = "" ∧ n = 0).
Proof.
  revert n acc. induction fuel as [|fuel IH]; intros n acc Hn; cbn [decimal_digits].
  - assert (n < 10) by (change (10 ^ Z.of_nat 1) with 10 in Hn; lia). rewrite Z.mod_small by lia.
    destruct (is_digit_48 n ltac:(lia)) as [Hd Hc]. exists (chr (48 + n)), "". cbn [all_digits digits_value String.append andb]. rewrite Hd, Hc.
    split_and!; [done..| |intros; split; [done|lia]]. intros t. rewrite sapp_cons, sapp_nil_l. cbn [digits_value]. rewrite Hd, Hc. f_equal. lia.
  - pose proof (Z.mod_pos_bound n 10 ltac:(lia)) as Hm.
    destruct (is_digit_48 (n mod 10) ltac:(lia)) as [Hd Hc]. destruct (Z.ltb_spec n 10) as [Hlt|Hge].
    + rewrite Z.mod_small in * by lia. exists (chr (48 + n)), "". cbn [all_digits digits_value String.append andb]. rewrite Hd, Hc.
      split_and!; [done..| |intros; split; [done|lia]]. intros t. rewrite sapp_cons, sapp_nil_l. cbn [digits_value]. rewrite Hd, Hc. f_equal. lia.
    + destruct (IH (n / 10) (String (chr (48 + n mod 10)) acc)) as (c & d & -> & Ha & Hv & Hz).
      { rewrite (Nat2Z.inj_succ (S fuel)), Z.pow_succ_r in Hn by lia.
        split; [apply Z.div_pos; lia|apply Z.div_lt_upper_bound; lia]. }
      exists c, (d +:+ String (chr (48 + n mod 10)) ""). split_and!.
      * by rewrite !sapp_cons, sapp_assoc, sapp_cons, sapp_nil_l.
      * change (all_digits (String c d +:+ String (chr (48 + n mod 10)) "") = true).
        rewrite all_digits_app, Ha. cbn [all_digits andb]. by rewrite Hd.
      * intros t. change (String c (d +:+ ?x)) with (String c d +:+ x). rewrite sapp_assoc, Hv.
        rewrite sapp_cons, sapp_nil_l. cbn [digits_value]. rewrite Hd, Hc. f_equal.
        pose proof (Z.div_mod n 10). lia.
      * intros [_ H0]%Hz. Z.to_euclidean_division_equations. lia.
Qed.

Lemma Itoa_spec n :
  0 <= n →
  ∃ c d, Itoa n = String c d ∧ all_digits (String c d) = true ∧ digits_value 0 (String c d) = Some n
    ∧ (code c = 48 → d = "" ∧ n = 0).
Proof.
  intros Hn. unfold Itoa. set (k := Z.to_nat (Z.log2 n)).
  destruct (decimal_digits_spec (S k) n "") as (c & d & Hd & Ha & Hv & Hz).
  { split; [done|]. destruct (Z.eq_dec n 0) as [->|Hne]; [apply Z.pow_pos_nonneg; lia|].
    apply (Z.lt_le_trans _ (2 ^ Z.succ (Z.log2 n))); [by apply Z.log2_spec; lia|].
    pose proof (Z.log2_nonneg n). apply (Z.le_trans _ (2 ^ Z.of_nat (S (S k)))); [apply Z.pow_le_mono_r; lia|].
    apply Z.pow_le_mono_l. lia. }
  exists c, d. rewrite Hd, sapp_nil_r. split_and!; [done..| |done]. specialize (Hv ""). by rewrite sapp_nil_r in Hv.
Qed.

Lemma parse_digits_Itoa n : 0 <= n → parse_digits (Itoa n) = Some n.
Proof. intros Hn. destruct (Itoa_spec n Hn) as (c & d & -> & _ & Hv & _). done. Qed.

Lemma num_stop_digit c rest : num_stop (String c rest) = true → is_digit c = false ∧ code c ≠ 46 ∧ code c ≠ 101 ∧ code c ≠ 69.
Proof. cbn. rewrite negb_true_iff, !orb_false_iff, !Z.eqb_neq. tauto. Qed.

(** After the digits of an integer there is neither fraction nor exponent. *)
Lemma parse_no_fraction rest : num_stop rest = true → parse_fraction rest = Some ("", rest).
Proof.
  destruct rest as [|c rest]; [done|]. intros (_ & H & _ & _)%num_stop_digit. cbn [parse_fraction].
  by rewrite (proj2 (Z.eqb_neq _ _)).
Qed.

Lemma parse_no_exponent rest : num_stop rest = true → parse_exponent rest = Some ("", rest).
Proof.
  destruct rest as [|c rest]; [done|]. intros (_ & _ & H & H')%num_stop_digit. cbn [parse_exponent].
  by rewrite !(proj2 (Z.eqb_neq _ _)).
Qed.

Lemma parse_int_part_Itoa n rest :
  0 <= n → num_stop rest = true → parse_int_part (Itoa n +:+ rest) = Some (Itoa n, rest).
Proof.
  intros Hn Hr. destruct (Itoa_spec n Hn) as (c & d & -> & Ha & _ & Hz). rewrite sapp_cons.
  cbn [parse_int_part]. destruct (Z.eqb_spec (code c) 48) as [H0|H0].
  - by destruct (Hz H0) as [-> _].
  - by rewrite <- sapp_cons, take_digits_app.
Qed.

Lemma parse_number_FormatInt n rest :
  num_stop rest = true → parse_number (FormatInt n +:+ rest) = Some (FormatInt n, rest).
Proof.
  intros Hr. unfold FormatInt, parse_number. destruct (Z.ltb_spec n 0) as [Hn|Hn].
  - rewrite sapp_assoc. change ("-" +:+ (?x +:+ rest)) with (String "-"%char (x +:+ rest)). cbv beta iota.
    change (code "-"%char =? 45) with true. cbv beta iota.
    rewrite parse_int_part_Itoa by (done || lia). cbn [mbind option_bind].
    rewrite parse_no_fraction by done. cbn [mbind option_bind]. rewrite parse_no_exponent by done. cbn [mbind option_bind].
    by rewrite !sapp_nil_r.
  - pose proof (parse_int_part_Itoa n rest Hn Hr) as Hp. destruct (Itoa_spec n Hn) as (c & d & Hi & Ha & _ & _).
    rewrite Hi, sapp_cons in *. assert (code c =? 45 = false) as ->.
    { apply Z.eqb_neq. cbn in Ha. unfold is_digit in Ha. rewrite !andb_true_iff, !Z.leb_le in Ha. lia. }
    rewrite Hp. cbn [mbind option_bind]. rewrite parse_no_fraction by done. cbn [mbind option_bind].
    rewrite parse_no_exponent by done. cbn [mbind option_bind]. by rewrite !sapp_nil_l, !sapp_nil_r.
Qed.

(** [strconv.ParseInt] reads [FormatInt] back. *)
Lemma Atoi_FormatInt n : is_int64 n → Atoi (FormatInt n) = Some n.
Proof.
  intros Hn. unfold is_int64 in Hn. unfold FormatInt, Atoi. destruct (Z.ltb_spec n 0) as [Hneg|Hpos].
  - change ("-" +:+ Itoa (- n)) with (String "-"%char (Itoa (- n))). cbv beta iota.
    rewrite decide_True by done. rewrite parse_digits_Itoa by lia.
    rewrite Z.opp_involutive. by decide_bounds.
  - pose proof (parse_digits_Itoa n Hpos) as Hp. destruct (Itoa_spec n Hpos) as (c & d & Hi & Ha & _ & _).
    rewrite Hi in *. cbn in Ha. apply andb_true_iff in Ha as [Ha _]. unfold is_digit in Ha.
    rewrite andb_true_iff, !Z.leb_le in Ha.
    rewrite !decide_False by (intros ->; vm_compute in Ha; destruct Ha; congruence). rewrite Hp. by decide_bounds.
Qed.

(** ** Values *)

Section json_ind.
Context (P : json → Prop) (Hnull : P JNull) (Hbool : ∀ b, P (JBool b)) (Hnum : ∀ lit, P (JNum lit))
  (Hstr : ∀ s, P (JStr s)) (Harr : ∀ l, Forall P l → P (JArr l))
  (Hobj : ∀ l, Forall (λ kv, P kv.2) l → P (JObj l)).

Fixpoint json_nested_ind (j : json) : P j :=
  match j with
  | JNull => Hnull
  | JBool b => Hbool b
  | JNum lit => Hnum lit
  | JStr s => Hstr s
  | JArr l => Harr l ((fix go l := match l return Forall P l with
                                   | [] => Forall_nil_2 _
                                   | x :: l' => Forall_cons_2 _ x l' (json_nested_ind x) (go l')
                                   end) l)
  | JObj l => Hobj l ((fix go l := match l return Forall (λ kv, P kv.2) l with
                                   | [] => Forall_nil_2 _
                                   | x :: l' => Forall_cons_2 _ x l' (json_nested_ind x.2) (go l')
                                   end) l)
  end.
End json_ind.

(** The values the encoder makes of UTF-8 data: numbers are integers. *)
Fixpoint json_ok (j : json) : bool :=
  match j with
  | JNull | JBool _ => true
  | JNum lit => match Atoi lit with Some n => bool_decide (lit = FormatInt n) | None => false end
  | JStr s => ValidString s
  | JArr l => forallb json_ok l
  | JObj l => forallb (λ kv, ValidString kv.1 && json_ok kv.2) l
  end.

Fixpoint json_depth (j : json) : Z :=
  match j with
  | JArr l => 1 + foldr (λ x n, Z.max (json_depth x) n) 0 l
  | JObj l => 1 + foldr (λ kv n, Z.max (json_depth kv.2) n) 0 l
  | _ => 0
  end.

(** No text of a value starts with white space or a closing bracket. *)
Definition value_head (c : Ascii.ascii) : Prop := json_space c = false ∧ code c ≠ 93 ∧ code c ≠ 125.

Lemma FormatInt_head n : ∃ c d, FormatInt n = String c d ∧ value_head c ∧ (code c = 45 ∨ 48 <= code c <= 57).
Proof.
  unfold FormatInt. destruct (Z.ltb_spec n 0) as [Hn|Hn].
  - eexists _, _. split; [done|]. split; [done|]. by left.
  - destruct (Itoa_spec n Hn) as (c & d & -> & Ha & _). exists c, d. split; [done|]. cbn in Ha.
    apply andb_true_iff in Ha as [Ha _]. unfold is_digit in Ha. rewrite andb_true_iff, !Z.leb_le in Ha.
    split; [|by right]. unfold value_head, json_space. rewrite !(proj2 (Z.eqb_neq (code c) _)) by lia. split; [done|lia].
Qed.

Lemma json_print_head j : json_ok j = true → ∃ c d, json_print j = String c d ∧ value_head c.
Proof.
  destruct j as [|[]|lit|s|l|l]; cbn [json_ok json_print]; intros Hok; try by eexists _, _.
  destruct (Atoi lit) as [n|]; [|done]. apply bool_decide_eq_true in Hok as ->.
  destruct (FormatInt_head n) as (c & d & -> & Hc & _). by exists c, d.
Qed.

Lemma skip_space_head c s : json_space c = false → skip_space (String c s) = String c s.
Proof. intros H. cbn. by rewrite H. Qed.

Definition value_parses (j : json) : Prop := json_ok j = true → ∀ fuel depth rest,
  (2 * slen (json_print j) <= fuel)%nat → depth + json_depth j <= maxNestingDepth → num_stop rest = true →
  parse_value fuel depth (json_print j +:+ rest) = Some (j, rest).

Lemma elems_parse l :
  Forall value_parses l → forallb json_ok l = true → l ≠ [] → ∀ fuel depth rest,
  (2 * slen (Join (json_print <$> l) ",") + 1 <= fuel)%nat →
  depth + foldr (λ x n, Z.max (json_depth x) n) 0 l <= maxNestingDepth →
  parse_elems fuel depth (Join (json_print <$> l) "," +:+ ("]" +:+ rest)) = Some (l, rest).
Proof.
  intros Hl. induction Hl as [|x l Hx Hl IH]; intros Hok Hne fuel depth rest Hf Hd; [done|].
  cbn [forallb] in Hok. apply andb_true_iff in Hok as [Hokx Hok]. cbn [foldr] in Hd.
  destruct fuel as [|fuel]; [lia|]. cbn [parse_elems]. rewrite fmap_cons in *.
  destruct l as [|y l].
  - cbn [Join fmap list_fmap] in *. rewrite Hx by (done || lia). done.
  - rewrite fmap_cons, Join_cons, <- fmap_cons in *. set (tl := Join (json_print <$> y :: l) ",") in *.
    rewrite slen_app in Hf. rewrite !sapp_assoc. rewrite Hx by (done || lia). cbn [mbind option_bind].
    change ("," +:+ tl +:+ ("]" +:+ rest)) with (String ","%char (tl +:+ ("]" +:+ rest))).
    rewrite skip_space_head by done. change (code ","%char =? 44) with true. cbv iota.
    rewrite IH; [done|done|done| |lia]. change (slen ("," +:+ tl)) with (S (slen tl)) in Hf. lia.
Qed.

Lemma quote_app s t : quote s +:+ t = String dquote (quote_body (slen s) s +:+ String dquote t).
Proof. unfold quote. by rewrite sapp_cons, sapp_assoc, sapp_cons, sapp_nil_l. Qed.

Definition print_member (kv : string * json) : string := quote kv.1 +:+ (":" +:+ json_print kv.2).

(** One member, and what follows it. *)
Lemma member_parses k v fuel depth tail :
  value_parses v → ValidString k = true → json_ok v = true →
  (2 * slen (print_member (k, v)) <= fuel)%nat → depth + json_depth v <= maxNestingDepth → num_stop tail = true →
  parse_members (S fuel) depth (print_member (k, v) +:+ tail) =
  match skip_space tail with
  | String d r' =>
      if code d =? 44 then '(l, r) ← parse_members fuel depth r'; Some ((k, v) :: l, r)
      else if code d =? 125 then Some ([(k, v)], r') else None
  | EmptyString => None
  end.
Proof.
  intros Hv Hk Hok Hf Hd Ht. unfold print_member in *. cbn [fst snd] in *. rewrite slen_app, slen_app in Hf.
  rewrite !sapp_assoc, quote_app. cbn [parse_members]. rewrite skip_space_head by done.
  change (negb (code dquote =? 34)) with false. cbv iota. rewrite parse_quoted by done. cbn [mbind option_bind].
  change (":" +:+ (json_print v +:+ tail)) with (String ":"%char (json_print v +:+ tail)).
  rewrite skip_space_head by done. change (negb (code ":"%char =? 58)) with false. cbv iota.
  rewrite Hv by (done || lia). done.
Qed.

Lemma members_parse l :
  Forall (λ kv, value_parses kv.2) l → forallb (λ kv, ValidString kv.1 && json_ok kv.2) l = true → l ≠ [] →
  ∀ fuel depth rest,
  (2 * slen (Join (print_member <$> l) ",") + 1 <= fuel)%nat →
  depth + foldr (λ kv n, Z.max (json_depth kv.2) n) 0 l <= maxNestingDepth →
  parse_members fuel depth (Join (print_member <$> l) "," +:+ ("}" +:+ rest)) = Some (l, rest).
Proof.
  intros Hl. induction Hl as [|[k v] l Hx Hl IH]; intros Hok Hne fuel depth rest Hf Hd; [done|].
  cbn [forallb fst snd] in Hok. rewrite !andb_true_iff in Hok. destruct Hok as [[Hk Hv] Hok]. cbn [foldr snd] in Hd, Hx.
  destruct fuel as [|fuel]; [lia|]. rewrite fmap_cons in *. destruct l as [|y l].
  - cbn [Join fmap list_fmap] in *. rewrite member_parses by (done || lia). done.
  - rewrite fmap_cons, Join_cons, <- fmap_cons in *. set (tl := Join (print_member <$> y :: l) ",") in *.
    rewrite slen_app in Hf. rewrite !sapp_assoc. rewrite member_parses by (done || lia).
    change ("," +:+ (tl +:+ ("}" +:+ rest))) with (String ","%char (tl +:+ ("}" +:+ rest))).
    rewrite skip_space_head by done. change (code ","%char =? 44) with true. cbv iota.
    rewrite IH; [done|done|done| |lia]. change (slen ("," +:+ tl)) with (S (slen tl)) in Hf. lia.
Qed.

Lemma Join_head l c d x : Join (String c d :: l) x = String c (match l with [] => d | _ => d +:+ (x +:+ Join l x) end).
Proof. by destruct l. Qed.

Lemma parse_value_num n fuel depth rest :
  num_stop rest = true → parse_value (S fuel) depth (FormatInt n +:+ rest) = Some (JNum (FormatInt n), rest).
Proof.
  intros Hr. pose proof (parse_number_FormatInt n rest Hr) as Hp. destruct (FormatInt_head n) as (c & d & Hn & (Hs & _) & Hc).
  rewrite Hn, sapp_cons in *. cbn [parse_value]. rewrite skip_space_head by done.
  rewrite !(proj2 (Z.eqb_neq (code c) _)) by lia.
  assert (Hpre : ∀ x y, code x ≠ code c → HasPrefix (String c (d +:+ rest)) (String x y) = false).
  { intros x y Hx. cbn [HasPrefix]. rewrite bool_decide_eq_false_2; [done|]. by intros ->. }
  rewrite !Hpre by (vm_compute (code "n"%char); vm_compute (code "t"%char); vm_compute (code "f"%char); lia).
  by rewrite Hp.
Qed.

Lemma value_parses_all j : value_parses j.
Proof.
  induction j as [|b|lit|s|l IH|l IH] using json_nested_ind; intros Hok fuel depth rest Hf Hd Hr;
    (destruct fuel as [|fuel]; [destruct (json_print_head _ Hok) as (c & d & Hp & _); rewrite Hp, slen_cons in Hf; lia|]).
  - by destruct rest.
  - by destruct b, rest.
  - cbn in Hok. destruct (Atoi lit) as [n|]; [|done]. apply bool_decide_eq_true in Hok as ->. by apply parse_value_num.
  - cbn [json_print]. rewrite quote_app. cbn [parse_value]. rewrite skip_space_head by done.
    change (code dquote =? 34) with true. cbv iota. by rewrite parse_quoted.
  - cbn [json_print json_depth json_ok] in *. rewrite !slen_app in Hf. rewrite !sapp_assoc.
    change ("[" +:+ ?x) with (String "["%char x). cbn [parse_value]. rewrite skip_space_head by done.
    change (code "["%char =? 34) with false. change (code "["%char =? 91) with true. cbv iota.
    assert (Hmax : 0 <= foldr (λ x n, Z.max (json_depth x) n) 0 l) by (clear; induction l; cbn; lia).
    rewrite (proj2 (Z.ltb_ge _ _)) by lia. destruct l as [|x l]; [done|].
    pose proof (elems_parse (x :: l) IH Hok ltac:(done) fuel (depth + 1) rest) as He.
    rewrite He by (change (slen "[") with 1%nat in Hf; lia).
    rewrite fmap_cons. cbn [forallb] in Hok. apply andb_true_iff in Hok as [Hx _].
    destruct (json_print_head x Hx) as (c & d & -> & Hc & H93 & _). rewrite Join_head, sapp_cons, skip_space_head by done.
    by rewrite (proj2 (Z.eqb_neq _ _)).
  - cbn [json_print json_depth json_ok] in *. fold print_member in *. rewrite !slen_app in Hf. rewrite !sapp_assoc.
    change ("{" +:+ ?x) with (String "{"%char x). cbn [parse_value]. rewrite skip_space_head by done.
    change (code "{"%char =? 34) with false. change (code "{"%char =? 91) with false.
    change (code "{"%char =? 123) with true. cbv iota.
    assert (Hmax : 0 <= foldr (λ kv n, Z.max (json_depth kv.2) n) 0 l) by (clear; induction l; cbn; lia).
    rewrite (proj2 (Z.ltb_ge _ _)) by lia. destruct l as [|x l]; [done|].
    pose proof (members_parse (x :: l) IH Hok ltac:(done) fuel (depth + 1) rest) as He.
    rewrite He by (change (slen "{") with 1%nat in Hf; lia).
    rewrite fmap_cons. unfold print_member, quote. rewrite sapp_cons, Join_head, sapp_cons, skip_space_head by done. done.
Qed.

Theorem json_parse_print j : json_ok j = true → json_depth j <= maxNestingDepth → json_parse (json_print j) = Some j.
Proof.
  intros Hok Hd. unfold json_parse. rewrite <- (sapp_nil_r (json_print j)) at 2.
  by rewrite value_parses_all by (done || lia).
Qed.

(** ** Message types *)

(** The values of a type that survive: what is UTF-8 stays, numbers fit their fields. *)
Class CodecLaws (T : Type) `{!Codec T} := {
  codec_valid : T → Prop;
  codec_ok x : codec_valid x → json_ok (to_json x) = true ∧ json_depth (to_json x) <= maxNestingDepth;
  codec_roundtrip x : codec_valid x → of_json (to_json x) = Some x }.

Lemma Unmarshal_Marshal {T} `{CodecLaws T} (x : T) : codec_valid x → Unmarshal (Marshal x) = Some x.
Proof.
  intros Hx. unfold Unmarshal, Marshal. rewrite String.string_of_list_ascii_of_string.
  destruct (codec_ok x Hx) as [Hok Hd]. rewrite json_parse_print by done. by apply codec_roundtrip.
Qed.

Lemma field_hit {A} name dec (a : A) k v obj :
  key_is name k = true → field name dec a ((k, v) :: obj) = (a' ← dec a v; field name dec a' obj).
Proof. intros H. cbn. by rewrite H. Qed.

Lemma field_miss {A} name dec (a : A) k v obj :
  key_is name k = false → field name dec a ((k, v) :: obj) = field name dec a obj.
Proof. intros H. cbn. by rewrite H. Qed.

Lemma field_omitempty {A} name dec (a a' : A) empty k v obj :
  key_is name k = true → (empty = true → a' = a) → (empty = false → dec a v = Some a') →
  field name dec a (omitempty empty k v ++ obj) = field name dec a' obj.
Proof.
  intros Hk He Hd. destruct empty; cbn [omitempty app]; [by rewrite He|]. rewrite field_hit by done. by rewrite Hd.
Qed.

Lemma field_omitempty_miss {A} name dec (a : A) empty k v obj :
  key_is name k = false → field name dec a (omitempty empty k v ++ obj) = field name dec a obj.
Proof. intros Hk. destruct empty; [done|]. cbn [omitempty app]. by apply field_miss. Qed.

Lemma dec_int_FormatInt a n : is_int64 n → dec_int a (JNum (FormatInt n)) = Some n.
Proof. intros Hn. cbn. by apply Atoi_FormatInt. Qed.

Lemma dec_uint_FormatInt bits a n : 0 <= n < 2 ^ bits → dec_uint bits a (JNum (FormatInt n)) = Some n.
Proof.
  intros Hn. cbn. unfold ParseUint, FormatInt. rewrite (proj2 (Z.ltb_ge n 0)) by lia.
  rewrite parse_digits_Itoa by lia. by rewrite (proj2 (Z.ltb_lt _ _)) by lia.
Qed.

Lemma dec_bytes_enc a b : dec_bytes a (enc_bytes b) = Some b.
Proof. cbn. rewrite b64_roundtrip. cbn. by rewrite String.list_ascii_of_string_of_list_ascii. Qed.

Lemma dec_strings_enc a l : dec_strings a (enc_strings l) = Some l.
Proof. unfold dec_strings, dec_list, enc_strings. induction l as [|s l IH]; [done|]. cbn in *. by rewrite IH. Qed.

(** Members with distinct keys fill an empty map with themselves. *)
Lemma dec_map_members {A} (dec : json → option A) enc (l : list (string * A)) (m : gmap string A) :
  (∀ kv, kv ∈ l → dec (enc kv.2) = Some kv.2) → NoDup l.*1 → (∀ k, k ∈ l.*1 → m !! k = None) →
  foldl (λ acc kv, m ← acc; a ← dec kv.2; Some (<[kv.1 := a]> m)) (Some m) ((λ kv, (kv.1, enc kv.2)) <$> l)
  = Some (list_to_map l ∪ m).
Proof.
  revert m. induction l as [|[k v] l IH]; intros m Hdec Hnd Hm.
  { cbn. by rewrite (left_id_L ∅ (∪)). }
  rewrite fmap_cons. cbn [foldl fst snd mbind option_bind].
  pose proof (Hdec (k, v) ltac:(by left)) as Hv. cbn [snd] in Hv. rewrite Hv. cbn [mbind option_bind].
  cbn [fmap list_fmap fst] in Hnd. apply NoDup_cons in Hnd as [Hk Hnd]. rewrite IH.
  - f_equal. cbn [list_to_map foldr uncurry]. rewrite <- insert_union_r; [by rewrite insert_union_l|].
    by apply not_elem_of_list_to_map_1.
  - intros kv Hkv. apply Hdec. by right.
  - done.
  - intros k' Hk'. rewrite lookup_insert_ne by (intros ->; done). apply Hm. by right.
Qed.

Lemma dec_map_enc {A} (dec : json → option A) enc (m : gmap string A) :
  (∀ k v, m !! k = Some v → dec (enc v) = Some v) → dec_map dec ∅ (enc_map enc m) = Some m.
Proof.
  intros Hdec. unfold dec_map, enc_map.
  set (le := λ a b : string * A, string_leb a.1 b.1). pose proof (sort_by_perm le (map_to_list m)) as Hp.
  rewrite dec_map_members.
  - rewrite (right_id_L ∅ (∪)). f_equal. rewrite <- (list_to_map_to_list m) at 2. apply list_to_map_proper; [|done].
    rewrite Hp. apply NoDup_fst_map_to_list.
  - intros [k v] Hkv. rewrite Hp in Hkv. apply elem_of_map_to_list in Hkv. by eapply Hdec.
  - rewrite Hp. apply NoDup_fst_map_to_list.
  - intros k _. apply lookup_empty.
Qed.

Lemma field_omitempty_end {A} name dec (a a' : A) empty k v :
  key_is name k = true → (empty = true → a' = a) → (empty = false → dec a v = Some a') →
  field name dec a (omitempty empty k v) = Some a'.
Proof. intros. rewrite <- (app_nil_r (omitempty _ _ _)). by rewrite (field_omitempty _ _ _ a'). Qed.

Lemma field_omitempty_miss_end {A} name dec (a : A) empty k v :
  key_is name k = false → field name dec a (omitempty empty k v) = Some a.
Proof. intros. rewrite <- (app_nil_r (omitempty _ _ _)). by rewrite field_omitempty_miss. Qed.

Lemma is_empty_true {A} (l : list A) : is_empty l = true → l = [].
Proof. by destruct l. Qed.

(** Skips members with other keys; reads the member of a field. *)
Ltac skip_members :=
  repeat first
    [ rewrite field_omitempty_miss by reflexivity | rewrite field_omitempty_miss_end by reflexivity
    | rewrite field_miss by reflexivity ].

Ltac field_side :=
  first [ reflexivity
        | let H := fresh in intros H; first [exact (bool_decide_eq_true_1 _ H) | exact (is_empty_true _ H)]
        | intros _; first [reflexivity | apply dec_bytes_enc | apply dec_strings_enc | by apply dec_map_enc] ].

Lemma option_bind_step {A B} (m : option A) (f : A → option B) x y : m = Some x → f x = y → m ≫= f = y.
Proof. by intros -> . Qed.

(** One field of an object: [x] is what it holds. *)
Ltac solve_field x :=
  skip_members;
  first [ rewrite (field_omitempty _ _ _ x); [|field_side..]
        | rewrite (field_omitempty_end _ _ _ x); [|field_side..]
        | rewrite field_hit by reflexivity;
          first [rewrite dec_bytes_enc | rewrite dec_strings_enc | rewrite dec_int_FormatInt by (done || lia)
                | rewrite dec_uint_FormatInt by (done || lia) | cbn [dec_string dec_bool] ];
          cbn [mbind option_bind] ];
  skip_members; reflexivity.

Ltac read_field x := apply (option_bind_step _ _ x); [solve_field x|]; cbv beta.

(** *** Values that print well: a bound on the depth goes with the validity *)

Definition small (d : Z) (j : json) : Prop := json_ok j = true ∧ json_depth j <= d.

Lemma small_str d s : 0 <= d → ValidString s = true → small d (JStr s).
Proof. intros. split; [done|]. cbn. lia. Qed.

Lemma small_int d n : 0 <= d → is_int64 n → small d (JNum (FormatInt n)).
Proof. intros Hd Hn. split; [|cbn; lia]. cbn. rewrite Atoi_FormatInt by done. by apply bool_decide_eq_true. Qed.

Lemma small_bool d b : 0 <= d → small d (JBool b).
Proof. intros. split; [done|]. cbn. lia. Qed.

Lemma small_arr d l : 0 <= d → Forall (small d) l → small (d + 1) (JArr l).
Proof.
  intros Hd Hl. unfold small. cbn [json_ok json_depth].
  induction Hl as [|x l [Hx Hxd] _ [IH1 IH2]]; cbn [forallb foldr]; [lia|]. rewrite Hx, IH1. lia.
Qed.

Definition member_small (d : Z) (kv : string * json) : Prop := ValidString kv.1 = true ∧ small d kv.2.

Lemma small_obj d l : 0 <= d → Forall (member_small d) l → small (d + 1) (JObj l).
Proof.
  intros Hd Hl. unfold small. cbn [json_ok json_depth].
  induction Hl as [|x l [Hk [Hx Hxd]] _ [IH1 IH2]]; cbn [forallb foldr]; [lia|]. rewrite Hk, Hx, IH1. cbn [andb]. lia.
Qed.

Lemma small_omitempty d empty name j l :
  ValidString name = true → (empty = false → small d j) → Forall (member_small d) l →
  Forall (member_small d) (omitempty empty name j ++ l).
Proof. intros Hn Hj Hl. destruct empty; [done|]. constructor; [split; [done|by apply Hj]|done]. Qed.

Lemma small_omitempty_end d empty name j :
  ValidString name = true → (empty = false → small d j) → Forall (member_small d) (omitempty empty name j).
Proof. intros. rewrite <- (app_nil_r (omitempty _ _ _)). by apply small_omitempty. Qed.

Lemma small_member d name j l :
  ValidString name = true → small d j → Forall (member_small d) l → Forall (member_small d) (member name j ++ l).
Proof. intros. by constructor. Qed.

Lemma small_member_end d name j :
  ValidString name = true → small d j → Forall (member_small d) (member name j).
Proof. intros. apply Forall_cons. split; [done|constructor]. Qed.

(** ASCII is UTF-8. *)
Fixpoint all_ascii (s : string) : bool :=
  match s with EmptyString => true | String c s' => (code c <? 128) && all_ascii s' end.

Lemma all_ascii_valid s : all_ascii s = true → ValidString s = true.
Proof.
  unfold ValidString. induction s as [|c s IH]; [done|]. cbn [all_ascii slen String.length valid_utf8].
  intros [Hc Hs]%andb_true_iff. unfold DecodeRune. rewrite Hc. cbn [fst snd].
  assert (invalid_rune (code c, 1%nat) = false) as ->.
  { unfold invalid_rune. cbn [fst snd]. apply Z.ltb_lt in Hc. by rewrite (proj2 (Z.eqb_neq _ RuneError)) by (unfold RuneError; lia). }
  cbn [negb andb]. destruct s; by apply IH.
Qed.

Lemma b64_char_ascii n : 0 <= n < 64 → code (b64_char n) <? 128 = true.
Proof.
  intros H%b64_alphabet_ok. unfold b64_alphabet in H. rewrite !andb_true_iff in H. by destruct H as (_ & H).
Qed.

Lemma b64_encode_ascii s : all_ascii (b64_encode s) = true.
Proof.
  induction s as [s IH] using (induction_ltof1 _ slen). unfold ltof in IH.
  assert (Hm : ∀ x, 0 <= code x < 256) by apply code_range.
  destruct s as [|a [|b [|c s]]]; [done|..]; cbn [b64_encode all_ascii];
    unfold b64_c0, b64_c1, b64_c2, b64_c3; rewrite ?b64_char_ascii; try done;
    try (pose proof (Hm a); try pose proof (Hm b); try pose proof (Hm c); Z.to_euclidean_division_equations; lia).
  apply IH. rewrite !slen_cons. lia.
Qed.

Lemma small_bytes d b : 0 <= d → small d (enc_bytes b).
Proof. intros. apply small_str; [done|]. apply all_ascii_valid, b64_encode_ascii. Qed.

Lemma small_strings d l : 0 <= d → Forall (λ s, ValidString s = true) l → small (d + 1) (enc_strings l).
Proof. intros Hd Hl. apply small_arr; [done|]. apply Forall_fmap. eapply Forall_impl; [exact Hl|]. intros s. by apply small_str. Qed.

Lemma small_map {A} d enc (m : gmap string A) :
  0 <= d → (∀ k v, m !! k = Some v → ValidString k = true ∧ small d (enc v)) → small (d + 1) (enc_map enc m).
Proof.
  intros Hd Hm. apply small_obj; [done|]. apply Forall_fmap, Forall_forall. intros [k v] Hkv. rewrite sort_by_perm in Hkv.
  apply elem_of_map_to_list in Hkv. by apply Hm.
Qed.
