(* ===== verification/GoPath.v ===== *)
(** * Go's [path] and [path/filepath] packages (Unix), as far as the source uses them

    On the hosts the program supports [path] and [path/filepath] agree, so one
    definition serves both. [Clean] works on the list of path elements; the
    facts relate it to [abs_path], the canonical absolute path of a list of
    ordinary elements, and give the containment lemmas the file-system
    components use. *)

From S2P Require Import Prelude GoStrings.

Definition slash : Ascii.ascii := "/"%char.

Definition IsAbs (p : string) : bool := HasPrefix p "/".

(** ** Clean *)

Definition clean_step (rooted : bool) (stack : list string) (e : string) : list string :=
  if decide (e = "" ∨ e = ".") then stack
  else if decide (e = "..") then
    match stack with
    | [] => if rooted then [] else [".."]
    | x :: stack' => if decide (x = "..") then ".." :: stack else stack'
    end
  else e :: stack.

Definition clean_elems (rooted : bool) (es : list string) : list string :=
  rev (fold_left (clean_step rooted) es []).

Definition Clean (p : string) : string :=
  if decide (p = "") then "."
  else
    let out := clean_elems (IsAbs p) (Split p slash) in
    if IsAbs p then String slash (Join out "/")
    else match out with [] => "." | _ => Join out "/" end.

(** ** Join, Base, Dir *)

Definition PathJoin (es : list string) : string :=
  match filter (λ e, e ≠ "") es with
  | [] => ""
  | es' => Clean (Join es' "/")
  end.

Definition Base (p : string) : string :=
  if decide (p = "") then "."
  else
    let p' := TrimRightByte p slash in
    match rev (Split p' slash) with
    | [] => "/"
    | e :: _ => if decide (e = "") then "/" else e
    end.

Definition Dir (p : string) : string :=
  match LastIndexByte p slash with
  | Some i => Clean (string_take (S i) p)
  | None => Clean ""
  end.

(** ** Match: shell patterns; [None] is [ErrBadPattern] *)

(** [scanChunk]: position of the first ['*'] outside a character class. *)
Fixpoint scan_chunk (inrange : bool) (p : string) : string * string :=
  match p with
  | EmptyString => ("", "")
  | String c p' =>
      if decide (c = "\"%char) then
        match p' with
        | String d p'' => let '(a, b) := scan_chunk inrange p'' in (String c (String d a), b)
        | EmptyString => (String c "", "")
        end
      else if decide (c = "*"%char) then
        if inrange then let '(a, b) := scan_chunk inrange p' in (String c a, b)
        else ("", p)
      else
        let inrange' := if decide (c = "["%char) then true
                        else if decide (c = "]"%char) then false else inrange in
        let '(a, b) := scan_chunk inrange' p' in (String c a, b)
  end.

Definition scanChunk (p : string) : bool * string * string :=
  let p' := drop_while_byte "*"%char p in
  let '(chunk, rest) := scan_chunk false p' in
  (bool_decide (p' ≠ p), chunk, rest).

(** [getEsc]: a possibly escaped character of a class and what follows it. *)
Definition getEsc (chunk : string) : option (Z * string) :=
  match chunk with
  | EmptyString => None
  | String c chunk' =>
      if decide (c = "-"%char ∨ c = "]"%char) then None
      else
        let body := if decide (c = "\"%char) then chunk' else chunk in
        if decide (body = "") then None
        else
          let '(r, n) := DecodeRune body in
          let nchunk := string_drop n body in
          if ((r =? RuneError) && (n =? 1)%nat) || bool_decide (nchunk = "") then None
          else Some (r, nchunk)
  end.

(** The ranges of a class up to its closing bracket: did one contain [r]? *)
Fixpoint class_ranges (fuel : nat) (first : bool) (r : Z) (acc : bool) (chunk : string)
    : option (bool * string) :=
  match fuel with
  | O => None
  | S fuel' =>
      match chunk with
      | String c chunk' =>
          if bool_decide (c = "]"%char) && negb first then Some (acc, chunk')
          else
            match getEsc chunk with
            | None => None
            | Some (lo, rest) =>
                match rest with
                | String d rest' =>
                    if decide (d = "-"%char) then
                      match getEsc rest' with
                      | None => None
                      | Some (hi, rest'') =>
                          class_ranges fuel' false r (acc || ((lo <=? r) && (r <=? hi))) rest''
                      end
                    else class_ranges fuel' false r (acc || ((lo <=? r) && (r <=? lo))) rest
                | EmptyString => None
                end
            end
      | EmptyString => None
      end
  end.

(** [matchChunk]: [Some (Some rest)] on a match, [Some None] when the chunk is well
    formed but does not match, [None] on a bad pattern. Each round consumes at
    least one byte of [chunk], so [slen chunk] rounds suffice. *)
Fixpoint match_chunk (fuel : nat) (failed : bool) (chunk s : string) : option (option string) :=
  match fuel, chunk with
  | _, EmptyString => Some (if failed then None else Some s)
  | O, _ => None
  | S fuel', String c chunk' =>
      let failed := failed || bool_decide (s = "") in
      if decide (c = "["%char) then
        let '(r, n) := if failed then (0, O) else DecodeRune s in
        let s' := string_drop n s in
        let '(negated, body) :=
          match chunk' with
          | String "^"%char body => (true, body)
          | _ => (false, chunk')
          end in
        match class_ranges (S (slen body)) true r false body with
        | None => None
        | Some (matched, rest) =>
            match_chunk fuel' (failed || eqb matched negated) rest s'
        end
      else if decide (c = "?"%char) then
        if failed then match_chunk fuel' true chunk' s
        else match_chunk fuel' (HasPrefix s "/") chunk' (string_drop (snd (DecodeRune s)) s)
      else
        let lit := if decide (c = "\"%char) then chunk' else chunk in
        match lit with
        | EmptyString => None
        | String d rest =>
            if failed then match_chunk fuel' true rest s
            else match s with
                 | String x s' => match_chunk fuel' (negb (bool_decide (d = x))) rest s'
                 | EmptyString => match_chunk fuel' true rest s
                 end
        end
  end.
Definition matchChunk (chunk s : string) : option (option string) :=
  match_chunk (slen chunk) false chunk s.

(** After a ['*']: try the chunk after skipping 1, 2, ... bytes that are not slashes. *)
Fixpoint match_star (last : bool) (chunk name : string) : option (option string) :=
  match name with
  | EmptyString => Some None
  | String c name' =>
      if decide (c = slash) then Some None
      else match matchChunk chunk name' with
           | None => None
           | Some (Some t) =>
               if last && bool_decide (t ≠ "") then match_star last chunk name' else Some (Some t)
           | Some None => match_star last chunk name'
           end
  end.

(** The rest of a failed pattern must still be well formed. *)
Fixpoint check_rest (fuel : nat) (p : string) : bool :=
  match fuel, p with
  | _, EmptyString => true
  | O, _ => true
  | S fuel', _ =>
      let '(_, chunk, rest) := scanChunk p in
      match matchChunk chunk "" with None => false | Some _ => check_rest fuel' rest end
  end.

Fixpoint match_pattern (fuel : nat) (p name : string) : option bool :=
  match fuel, p with
  | _, EmptyString => Some (bool_decide (name = ""))
  | O, _ => None
  | S fuel', _ =>
      let '(star, chunk, rest) := scanChunk p in
      if star && bool_decide (chunk = "") then Some (negb (contains_byte slash name))
      else
        match matchChunk chunk name with
        | None => None
        | Some r =>
            match (match r with
                   | Some t => if bool_decide (t = "") || bool_decide (rest ≠ "") then Some t else None
                   | None => None
                   end) with
            | Some t => match_pattern fuel' rest t
            | None =>
                match (if star then match_star (bool_decide (rest = "")) chunk name else Some None) with
                | None => None
                | Some (Some t) => match_pattern fuel' rest t
                | Some None => if check_rest (slen rest) rest then Some false else None
                end
            end
        end
  end.

(** Each round of the pattern consumes a byte of it: [slen p] rounds suffice. *)
Definition Match (p name : string) : option bool := match_pattern (slen p) p name.

Example Match_glob : Match "/workspace/*" "/workspace/a.txt" = Some true.
Proof. reflexivity. Qed.
Example Match_glob_no_slash : Match "/workspace/*" "/workspace/d/a.txt" = Some false.
Proof. reflexivity. Qed.
Example Match_class : Match "/a[^b-d]?x*z" "/aéexyz" = Some true.
Proof. vm_compute. reflexivity. Qed.
Example Match_bad : Match "[" "a" = None.
Proof. reflexivity. Qed.

(** ** Canonical absolute paths *)

(** An ordinary path element: not empty, not a dot entry, no slash. *)
Definition normal (e : string) : Prop :=
  e ≠ "" ∧ e ≠ "." ∧ e ≠ ".." ∧ contains_byte slash e = false.

Definition abs_path (l : list string) : string := String slash (Join l "/").

(** [p] is canonical: it is [abs_path] of ordinary elements. *)
Definition clean_abs (p : string) : Prop := ∃ l, Forall normal l ∧ p = abs_path l.

Lemma normal_no_slash l :
  Forall normal l → Forall (λ x, contains_byte slash x = false) l.
Proof. intros H. eapply Forall_impl; [exact H|]. by intros e (?&?&?&?). Qed.

Lemma Split_app s t c : Split (s +:+ String c t) c = Split s c ++ Split t c.
Proof.
  induction s as [|d s IH].
  - rewrite sapp_nil_l. cbn [Split]. by rewrite decide_True.
  - rewrite sapp_cons. cbn [Split]. rewrite IH. case_decide; [done|].
    pose proof (Split_nonempty s c). by destruct (Split s c).
Qed.

Lemma Join_normal_nonempty l : Forall normal l → l ≠ [] → Join l "/" ≠ "".
Proof.
  intros Hl Hne. destruct l as [|x l]; [done|]. inversion_clear Hl as [|? ? (Hx&_) _].
  destruct l as [|y l]; [done|]. rewrite Join_cons. intros [? _]%sapp_eq_nil. done.
Qed.

Lemma Split_abs_path l :
  l ≠ [] → Forall (λ x, contains_byte slash x = false) l →
  Split (abs_path l) slash = "" :: l.
Proof.
  intros Hne Hl. unfold abs_path. cbn [Split]. rewrite decide_True by done.
  f_equal. by apply Split_Join.
Qed.

Lemma clean_step_normal rooted st e : normal e → clean_step rooted st e = e :: st.
Proof.
  intros (?&?&?&?). unfold clean_step.
  rewrite decide_False by tauto. by rewrite decide_False.
Qed.

Lemma fold_clean_normal rooted l st :
  Forall normal l → fold_left (clean_step rooted) l st = rev l ++ st.
Proof.
  revert st. induction l as [|e l IH]; intros st Hl; [done|].
  inversion_clear Hl. cbn [fold_left]. rewrite clean_step_normal, IH by done.
  cbn. by rewrite <- app_assoc.
Qed.

(** With a rooted path the stack only ever holds ordinary elements. *)
Lemma clean_step_rooted st e :
  contains_byte slash e = false → Forall normal st → Forall normal (clean_step true st e).
Proof.
  intros He Hst. unfold clean_step. case_decide as H1; [done|].
  case_decide as H2.
  - destruct st as [|x st]; [done|]. inversion_clear Hst as [|? ? Hx Hst'].
    case_decide; [|done]. destruct Hx as (_&_&?&_). done.
  - constructor; [|done]. unfold normal. tauto.
Qed.

Lemma clean_elems_rooted es :
  Forall (λ x, contains_byte slash x = false) es → Forall normal (clean_elems true es).
Proof.
  intros Hes. unfold clean_elems. apply Forall_rev.
  assert (Hst : Forall normal (@nil string)) by constructor.
  revert Hst. generalize (@nil string). induction Hes as [|e es He Hes IH];
    intros st Hst; [done|]. cbn [fold_left]. apply IH. by apply clean_step_rooted.
Qed.

Lemma IsAbs_slash s : IsAbs (String slash s) = true.
Proof. apply (HasPrefix_app "/" s). Qed.

Lemma IsAbs_abs_path l : IsAbs (abs_path l) = true.
Proof. apply IsAbs_slash. Qed.

Lemma Clean_rooted p : IsAbs p = true → clean_abs (Clean p).
Proof.
  intros Hp. unfold Clean. case_decide as H0; [by subst|]. rewrite Hp.
  exists (clean_elems true (Split p slash)). split; [|done].
  apply clean_elems_rooted, Split_no_sep.
Qed.

Lemma Clean_abs_path l : Forall normal l → Clean (abs_path l) = abs_path l.
Proof.
  intros Hl. unfold Clean. rewrite decide_False by done. rewrite IsAbs_abs_path.
  unfold abs_path at 2. do 2 f_equal. destruct l as [|x l]; [done|].
  rewrite Split_abs_path; [|done|by apply normal_no_slash].
  unfold clean_elems.
  change (fold_left (clean_step true) ("" :: x :: l) [])
    with (fold_left (clean_step true) (x :: l) []).
  rewrite fold_clean_normal by done. by rewrite app_nil_r, rev_involutive.
Qed.

Lemma Clean_clean_abs p : clean_abs p → Clean p = p.
Proof. intros (l & Hl & ->). by apply Clean_abs_path. Qed.

Lemma clean_abs_rooted p : clean_abs p → IsAbs p = true.
Proof. intros (l & _ & ->). apply IsAbs_abs_path. Qed.

Lemma abs_path_inj l k :
  Forall normal l → Forall normal k → abs_path l = abs_path k → l = k.
Proof.
  intros Hl Hk Heq. destruct l as [|x l], k as [|y k]; [done| | |].
  - unfold abs_path in Heq. injection Heq as Heq. exfalso.
    by apply (Join_normal_nonempty (y :: k)).
  - unfold abs_path in Heq. injection Heq as Heq. exfalso.
    by apply (Join_normal_nonempty (x :: l)).
  - apply (f_equal (λ s, Split s slash)) in Heq.
    rewrite !Split_abs_path in Heq by auto using normal_no_slash. by simplify_eq.
Qed.

Lemma abs_path_app l k :
  l ≠ [] → k ≠ [] → abs_path (l ++ k) = abs_path l +:+ abs_path k.
Proof.
  intros Hl Hk. unfold abs_path. rewrite sapp_cons. f_equal.
  induction l as [|x l IH]; [done|]. destruct l as [|y l].
  - cbn [app]. by rewrite Join_cons_ne by done.
  - change ((x :: y :: l) ++ k) with (x :: y :: (l ++ k)).
    rewrite !Join_cons, !sapp_assoc. f_equal. f_equal. by apply IH.
Qed.

(** Paths below a directory, in terms of elements. *)
Lemma HasPrefix_dir l k :
  Forall normal l → Forall normal k → l ≠ [] →
  HasPrefix (abs_path k) (abs_path l +:+ "/") = true ↔ ∃ r, r ≠ [] ∧ k = l ++ r.
Proof.
  intros Hl Hk Hne. rewrite HasPrefix_spec. split.
  - intros (r & Hr). destruct k as [|y k].
    { exfalso. apply (f_equal slen) in Hr. destruct l; [done|].
      unfold abs_path in Hr. cbn [Join] in Hr.
      rewrite !slen_app, !slen_cons in Hr. cbn in Hr. lia. }
    rewrite sapp_assoc in Hr. change ("/" +:+ r) with (String slash r) in Hr.
    apply (f_equal (λ s, Split s slash)) in Hr.
    rewrite Split_app, !Split_abs_path in Hr by auto using normal_no_slash.
    injection Hr as Hr. exists (Split r slash). split; [apply Split_nonempty|done].
  - intros (r & Hr & ->). rewrite abs_path_app by done.
    exists (Join r "/"). by rewrite sapp_assoc.
Qed.

(** A relative path stays relative. *)
Lemma clean_step_nonempty rooted st e :
  contains_byte slash e = false →
  Forall (λ x, x ≠ "" ∧ contains_byte slash x = false) st →
  Forall (λ x, x ≠ "" ∧ contains_byte slash x = false) (clean_step rooted st e).
Proof.
  intros He Hst. unfold clean_step. case_decide as H1; [done|].
  case_decide as H2; [|constructor; [naive_solver|done]].
  destruct st as [|x st]; [destruct rooted; [done|]|]; [by repeat constructor|].
  inversion_clear Hst. case_decide; [destruct rooted|]; repeat constructor; try done; naive_solver.
Qed.

Lemma IsAbs_Clean p : IsAbs (Clean p) = IsAbs p.
Proof.
  destruct (IsAbs p) eqn:Hp; [apply clean_abs_rooted; by apply Clean_rooted|].
  unfold Clean. case_decide; [done|]. rewrite Hp.
  assert (Hall : Forall (λ x, x ≠ "" ∧ contains_byte slash x = false)
                   (clean_elems false (Split p slash))).
  { unfold clean_elems. apply Forall_rev. pose proof (Split_no_sep p slash) as Hs.
    assert (Hst : Forall (λ x, x ≠ "" ∧ contains_byte slash x = false) (@nil string)) by constructor.
    revert Hst. generalize (@nil string). induction Hs as [|e es He _ IH]; intros st Hst; [done|].
    cbn [fold_left]. apply IH. by apply clean_step_nonempty. }
  destruct (clean_elems false (Split p slash)) as [|x out]; [done|].
  inversion_clear Hall as [|? ? [Hne Hns] _]. destruct x as [|c x]; [done|].
  cbn [contains_byte] in Hns. apply orb_false_iff in Hns as [Hc%bool_decide_eq_false _].
  assert (∃ t, Join (String c x :: out) "/" = String c t) as [t ->].
  { destruct out; [by exists x|]. rewrite Join_cons. by eexists. }
  unfold IsAbs. cbn [HasPrefix]. by rewrite bool_decide_eq_false_2.
Qed.

Lemma Clean_abs_eq p : IsAbs p = true → Clean p = abs_path (clean_elems true (Split p slash)).
Proof.
  intros Hp. unfold Clean. rewrite decide_False by (by intros ->). by rewrite Hp.
Qed.

(** [filepath.Join(root, rel)] for an absolute root in any form. *)
Lemma PathJoin_rooted root k :
  IsAbs root = true → Forall normal k →
  PathJoin [root; abs_path k] = abs_path (clean_elems true (Split root slash) ++ k).
Proof.
  intros Hroot Hk. assert (root ≠ "") by (by intros ->).
  unfold PathJoin. rewrite !filter_cons_True, filter_nil by done.
  rewrite Join_cons. change (Join [abs_path k] "/") with (abs_path k).
  assert (IsAbs (root +:+ ("/" +:+ abs_path k)) = true) as Habs.
  { unfold IsAbs in *. apply HasPrefix_spec in Hroot as [r ->]. by rewrite sapp_assoc, HasPrefix_app. }
  unfold Clean. rewrite decide_False, Habs by (by intros [? _]%sapp_eq_nil).
  change ("/" +:+ abs_path k) with (String slash (abs_path k)).
  rewrite Split_app. unfold clean_elems.
  assert (fold_left (clean_step true) (Split (abs_path k) slash)
            (fold_left (clean_step true) (Split root slash) [])
          = rev k ++ fold_left (clean_step true) (Split root slash) []) as Hk'.
  { destruct k as [|x k]; [done|]. rewrite Split_abs_path by auto using normal_no_slash.
    change (fold_left (clean_step true) ("" :: x :: k)) with (fold_left (clean_step true) (x :: k)).
    by apply fold_clean_normal. }
  rewrite fold_left_app, Hk', rev_app_distr, rev_involutive. done.
Qed.

Lemma clean_elems_abs_path l : Forall normal l → clean_elems true (Split (abs_path l) slash) = l.
Proof.
  intros Hl. unfold clean_elems. destruct l as [|x l]; [done|].
  rewrite Split_abs_path by auto using normal_no_slash.
  change (fold_left (clean_step true) ("" :: x :: l)) with (fold_left (clean_step true) (x :: l)).
  rewrite fold_clean_normal by done. by rewrite app_nil_r, rev_involutive.
Qed.

(** [filepath.Join(root, rel)] for canonical paths is concatenation of elements. *)
Lemma PathJoin_abs l k :
  Forall normal l → Forall normal k → PathJoin [abs_path l; abs_path k] = abs_path (l ++ k).
Proof.
  intros Hl Hk. rewrite PathJoin_rooted by auto using IsAbs_abs_path.
  by rewrite clean_elems_abs_path.
Qed.

(** Joining one ordinary element. *)
Lemma PathJoin_child l name :
  Forall normal l → normal name → PathJoin [abs_path l; name] = abs_path (l ++ [name]).
Proof.
  intros Hl Hn. assert (name ≠ "") by apply Hn.
  unfold PathJoin. rewrite !filter_cons_True, filter_nil by done.
  rewrite Join_cons. change (Join [name] "/") with name.
  assert (IsAbs (abs_path l +:+ ("/" +:+ name)) = true) as Habs.
  { unfold abs_path. rewrite sapp_cons. apply IsAbs_slash. }
  rewrite Clean_abs_eq by done. change ("/" +:+ name) with (String slash name).
  rewrite Split_app. unfold clean_elems. rewrite fold_left_app.
  assert (Split name slash = [name]) as -> by (apply Split_single, Hn).
  cbn [fold_left]. rewrite clean_step_normal by done. cbn [rev].
  change (rev (fold_left (clean_step true) (Split (abs_path l) slash) [])) with (clean_elems true (Split (abs_path l) slash)).
  by rewrite clean_elems_abs_path.
Qed.

(** Joining to an absolute directory gives a canonical path. *)
Lemma PathJoin_clean root p :
  IsAbs root = true → Clean (PathJoin [root; p]) = PathJoin [root; p].
Proof.
  intros Hr. unfold PathJoin. destruct (filter _ _) as [|x es] eqn:E.
  { exfalso. assert (root ∈ filter (λ e, e ≠ "") [root; p]) as Hin.
    { apply list_elem_of_filter. split; [by intros ->|constructor]. }
    rewrite E in Hin. by apply not_elem_of_nil in Hin. }
  apply Clean_clean_abs, Clean_rooted.
  assert (x = root) as ->.
  { rewrite filter_cons_True in E by (by intros ->). by simplify_eq. }
  unfold IsAbs in *. apply HasPrefix_spec in Hr as [t ->].
  destruct es; [apply HasPrefix_app|]. rewrite Join_cons, sapp_assoc. apply HasPrefix_app.
Qed.

(** [p] is a canonical path at or below the canonical directory [root]: its
    elements are those of [root] followed by ordinary ones (never [..]). *)
Definition under (root p : string) : Prop :=
  ∃ l k, Forall normal (l ++ k) ∧ root = abs_path l ∧ p = abs_path (l ++ k).

#[export] Hint Resolve Split_no_sep Split_nonempty Clean_rooted Clean_clean_abs
  clean_abs_rooted normal_no_slash : matchlock.
