(* ===== verification/GoURL.v ===== *)
(** * [net/url]: escaping, query strings and [URL.String]

    The policy engine looks for placeholders in [URL.String()] and rewrites queries
    through [URL.Query] and [Values.Encode]; these are their definitions. A [Values]
    map is a [gmap] from keys to the list of their values. *)

From S2P Require Import Prelude GoStrings GoStd.

Inductive encoding :=
| encodePath | encodeHost | encodeUserPassword | encodeQueryComponent | encodeFragment.

Definition in_set (c : Ascii.ascii) (set : string) : bool := contains_byte c set.

Definition is_alnum (c : Ascii.ascii) : bool :=
  let x := code c in
  ((97 <=? x) && (x <=? 122)) || ((65 <=? x) && (x <=? 90)) || ((48 <=? x) && (x <=? 57)).

Definition host_extra : string := String (chr 34) "!$&'()*+,;=:[]<>".

Definition shouldEscape (c : Ascii.ascii) (mode : encoding) : bool :=
  if is_alnum c then false
  else if match mode with encodeHost => in_set c host_extra | _ => false end then false
  else if in_set c "-_.~" then false
  else
    let reserved :=
      if in_set c "$&+,/:;=?@" then
        match mode with
        | encodePath => Some (in_set c "?")
        | encodeUserPassword => Some (in_set c "@/?:")
        | encodeQueryComponent => Some true
        | encodeFragment => Some false
        | encodeHost => None
        end
      else None in
    match reserved with
    | Some b => b
    | None => match mode with encodeFragment => negb (in_set c "!()*") | _ => true end
    end.

Definition upper_hex (n : Z) : Ascii.ascii := chr (if n <? 10 then 48 + n else 55 + n).

Fixpoint escape (s : string) (mode : encoding) : string :=
  match s with
  | EmptyString => ""
  | String c s' =>
      if shouldEscape c mode then
        match mode with
        | encodeQueryComponent =>
            if code c =? 32 then String "+"%char (escape s' mode)
            else String "%"%char (String (upper_hex (code c / 16))
                   (String (upper_hex (code c mod 16)) (escape s' mode)))
        | _ => String "%"%char (String (upper_hex (code c / 16))
                 (String (upper_hex (code c mod 16)) (escape s' mode)))
        end
      else String c (escape s' mode)
  end.

Definition unhex (c : Ascii.ascii) : option Z :=
  let x := code c in
  if (48 <=? x) && (x <=? 57) then Some (x - 48)
  else if (97 <=? x) && (x <=? 102) then Some (x - 87)
  else if (65 <=? x) && (x <=? 70) then Some (x - 55)
  else None.

(** [unescape] for the modes path, query and fragment; [plus] says whether a plus
    sign is a space (only in queries). *)
Fixpoint unescape (plus : bool) (s : string) : option string :=
  match s with
  | EmptyString => Some ""
  | String c s' =>
      if decide (c = "%"%char) then
        match s' with
        | String h (String l s'') =>
            match unhex h, unhex l with
            | Some x, Some y => String (chr (x * 16 + y)) <$> unescape plus s''
            | _, _ => None
            end
        | _ => None
        end
      else String (if plus && bool_decide (c = "+"%char) then " "%char else c) <$> unescape plus s'
  end.

Definition QueryEscape (s : string) : string := escape s encodeQueryComponent.
Definition QueryUnescape (s : string) : option string := unescape true s.

(** ** Query strings *)

Abbreviation Values := (gmap string (list string)) (only parsing).

Definition values_add (m : Values) (kv : string * string) : Values :=
  <[kv.1 := default [] (m !! kv.1) ++ [kv.2]]> m.

(** One setting of a query; one with a semicolon, an empty one or one that does not
    unescape is left out ([URL.Query] drops the error). *)
Definition query_setting (s : string) : option (string * string) :=
  if contains_byte ";"%char s then None
  else if decide (s = "") then None
  else
    let '(key, value) := default (s, "") (Cut s "="%char) in
    k ← QueryUnescape key; v ← QueryUnescape value; Some (k, v).

Definition ParseQuery (query : string) : Values :=
  if decide (query = "") then ∅
  else foldl values_add ∅ (omap query_setting (Split query "&"%char)).

Definition Values_Set (m : Values) (key value : string) : Values := <[key := [value]]> m.
Definition Values_Del (m : Values) (key : string) : Values := delete key m.

(** [Values.Encode]: keys in sorted order, every value of a key. *)
Definition encode_pairs (m : Values) : list (string * string) :=
  k ← sort_Strings ((map_to_list m).*1);
  v ← default [] (m !! k); [(k, v)].

Definition Values_Encode (m : Values) : string :=
  Join ((λ kv, QueryEscape kv.1 +:+ ("=" +:+ QueryEscape kv.2)) <$> encode_pairs m) "&".

(** ** URLs *)

Record URL := {
  url_Scheme : string; url_Opaque : string; url_User : option (string * option string);
  url_Host : string; url_Path : string; url_RawPath : string; url_OmitHost : bool;
  url_ForceQuery : bool; url_RawQuery : string; url_Fragment : string; url_RawFragment : string }.

Definition with_RawQuery (q : string) (u : URL) : URL := {|
  url_Scheme := url_Scheme u; url_Opaque := url_Opaque u; url_User := url_User u;
  url_Host := url_Host u; url_Path := url_Path u; url_RawPath := url_RawPath u;
  url_OmitHost := url_OmitHost u; url_ForceQuery := url_ForceQuery u; url_RawQuery := q;
  url_Fragment := url_Fragment u; url_RawFragment := url_RawFragment u |}.

(** [u.Path = p; u.RawPath = empty] *)
Definition with_Path (p : string) (u : URL) : URL := {|
  url_Scheme := url_Scheme u; url_Opaque := url_Opaque u; url_User := url_User u;
  url_Host := url_Host u; url_Path := p; url_RawPath := "";
  url_OmitHost := url_OmitHost u; url_ForceQuery := url_ForceQuery u; url_RawQuery := url_RawQuery u;
  url_Fragment := url_Fragment u; url_RawFragment := url_RawFragment u |}.

Definition URL_Query (u : URL) : Values := ParseQuery (url_RawQuery u).

Definition valid_raw (mode : encoding) (c : Ascii.ascii) : bool :=
  in_set c "!$&'()*+,;=:@[]%" || negb (shouldEscape c mode).

Fixpoint validEncoded (s : string) (mode : encoding) : bool :=
  match s with
  | EmptyString => true
  | String c s' => valid_raw mode c && validEncoded s' mode
  end.

Definition EscapedPath (u : URL) : string :=
  if negb (bool_decide (url_RawPath u = "")) && validEncoded (url_RawPath u) encodePath
       && bool_decide (unescape false (url_RawPath u) = Some (url_Path u))
  then url_RawPath u
  else if decide (url_Path u = "*") then "*"
  else escape (url_Path u) encodePath.

Definition EscapedFragment (u : URL) : string :=
  if negb (bool_decide (url_RawFragment u = "")) && validEncoded (url_RawFragment u) encodeFragment
       && bool_decide (unescape false (url_RawFragment u) = Some (url_Fragment u))
  then url_RawFragment u
  else escape (url_Fragment u) encodeFragment.

Definition Userinfo_String (ui : string * option string) : string :=
  escape ui.1 encodeUserPassword
  +:+ match ui.2 with Some pw => ":" +:+ escape pw encodeUserPassword | None => "" end.

(** Everything of [URL.String] before the query. *)
Definition url_front (u : URL) : string :=
  let scheme := if decide (url_Scheme u = "") then "" else url_Scheme u +:+ ":" in
  if decide (url_Opaque u = "") then
    let authority :=
      if negb (bool_decide (url_Scheme u = "")) || negb (bool_decide (url_Host u = ""))
           || bool_decide (is_Some (url_User u)) then
        if url_OmitHost u && bool_decide (url_Host u = "") && bool_decide (url_User u = None) then ""
        else
          (if negb (bool_decide (url_Host u = "")) || negb (bool_decide (url_Path u = ""))
                || bool_decide (is_Some (url_User u)) then "//" else "")
          +:+ (match url_User u with Some ui => Userinfo_String ui +:+ "@" | None => "" end
          +:+ escape (url_Host u) encodeHost)
      else "" in
    let path := EscapedPath u in
    let sep := match path with
               | String c _ => if decide (c = "/"%char) then ""
                               else if decide (url_Host u = "") then "" else "/"
               | EmptyString => "" end in
    let buf := scheme +:+ (authority +:+ sep) in
    let dot := if decide (buf = "") then
                 match Split path "/"%char with
                 | segment :: _ => if contains_byte ":"%char segment then "./" else ""
                 | [] => ""
                 end
               else "" in
    buf +:+ (dot +:+ path)
  else scheme +:+ url_Opaque u.

Definition url_query_part (u : URL) : string :=
  if url_ForceQuery u || negb (bool_decide (url_RawQuery u = "")) then "?" +:+ url_RawQuery u else "".

Definition url_fragment_part (u : URL) : string :=
  if decide (url_Fragment u = "") then "" else "#" +:+ EscapedFragment u.

Definition URL_String (u : URL) : string :=
  url_front u +:+ (url_query_part u +:+ url_fragment_part u).

(** ** Facts: queries survive encoding *)

Definition query_sep (c : Ascii.ascii) : bool := in_set c "&;=".

(** What [escape] does to a byte of a query component, and why it can be undone. *)
Definition query_byte_ok (c : Ascii.ascii) : bool :=
  if shouldEscape c encodeQueryComponent then
    (code c =? 32)
    || (bool_decide (unhex (upper_hex (code c / 16)) = Some (code c / 16))
        && bool_decide (unhex (upper_hex (code c mod 16)) = Some (code c mod 16))
        && negb (query_sep (upper_hex (code c / 16))) && negb (query_sep (upper_hex (code c mod 16))))
  else negb (in_set c "%+&;=").

Lemma query_bytes_ok c : query_byte_ok c = true.
Proof. apply all_bytes. vm_compute. reflexivity. Qed.

Lemma chr_hex c : chr (code c / 16 * 16 + code c mod 16) = c.
Proof. replace (code c / 16 * 16 + code c mod 16) with (code c) by (pose proof (Z_div_mod_eq_full (code c) 16); lia). apply chr_code. Qed.

Lemma QueryUnescape_Escape s : QueryUnescape (QueryEscape s) = Some s.
Proof.
  unfold QueryUnescape, QueryEscape. induction s as [|c s IH]; [done|]. cbn [escape].
  pose proof (query_bytes_ok c) as Hc. unfold query_byte_ok in Hc.
  destruct (shouldEscape c encodeQueryComponent) eqn:E.
  - destruct (code c =? 32) eqn:Es.
    + apply Z.eqb_eq in Es. cbn. rewrite IH. cbn. do 2 f_equal. rewrite <- (chr_code c), Es. done.
    + cbn [orb] in Hc. rewrite !andb_true_iff, !bool_decide_eq_true in Hc.
      destruct Hc as (((H1 & H2) & _) & _). cbn [unescape]. rewrite decide_True by done.
      rewrite H1, H2, IH. cbn. by rewrite chr_hex.
  - unfold in_set in Hc. cbn in Hc. rewrite !negb_true_iff, !orb_false_iff, !bool_decide_eq_false in Hc.
    destruct Hc as (H1 & H2 & _). cbn [unescape]. rewrite decide_False by done. rewrite IH. cbn.
    by rewrite bool_decide_eq_false_2 by done.
Qed.

Lemma QueryEscape_clean s c : query_sep c = true → contains_byte c (QueryEscape s) = false.
Proof.
  intros Hsep. unfold QueryEscape. induction s as [|d s IH]; [done|]. cbn [escape].
  pose proof (query_bytes_ok d) as Hd. unfold query_byte_ok in Hd.
  assert (Hp : c ≠ "%"%char ∧ c ≠ "+"%char) by (split; intros ->; done).
  destruct Hp as [Hp1 Hp2].
  destruct (shouldEscape d encodeQueryComponent) eqn:E.
  - destruct (code d =? 32) eqn:Es; cbn [contains_byte]; rewrite IH, ?bool_decide_eq_false_2 by done; [done|].
    cbn [orb] in Hd. rewrite !andb_true_iff, !negb_true_iff in Hd. destruct Hd as ((_ & H1) & H2).
    rewrite !bool_decide_eq_false_2 by congruence. done.
  - cbn [contains_byte]. rewrite IH, bool_decide_eq_false_2; [done|]. intros ->.
    unfold query_sep, in_set in *. cbn in *. apply negb_true_iff in Hd. rewrite !orb_false_r in *.
    rewrite !orb_true_iff in Hsep. rewrite !orb_false_iff in Hd. destruct Hd as (_ & _ & ? & ? & ?).
    destruct Hsep as [?|[?|?]]; congruence.
Qed.

Definition setting_text (kv : string * string) : string :=
  QueryEscape kv.1 +:+ ("=" +:+ QueryEscape kv.2).

Lemma query_setting_text kv : query_setting (setting_text kv) = Some kv.
Proof.
  destruct kv as [k v]. unfold query_setting, setting_text. cbn [fst snd].
  assert (Hs : contains_byte ";" (QueryEscape k +:+ ("=" +:+ QueryEscape v)) = false)
    by (rewrite !contains_byte_app, !QueryEscape_clean by done; done).
  rewrite Hs, decide_False by (intros [_ [[=] _]%sapp_eq_nil]%sapp_eq_nil).
  change ("=" +:+ QueryEscape v) with (String "=" (QueryEscape v)).
  rewrite Cut_app by (by apply QueryEscape_clean). cbn [default from_option id].
  by rewrite !QueryUnescape_Escape.
Qed.

Lemma setting_text_clean kv : contains_byte "&" (setting_text kv) = false.
Proof. unfold setting_text. by rewrite !contains_byte_app, !QueryEscape_clean. Qed.

(** Encoding and parsing a list of settings gives back their fold. *)
Lemma ParseQuery_settings l :
  ParseQuery (Join (setting_text <$> l) "&") = foldl values_add ∅ l.
Proof.
  unfold ParseQuery. destruct l as [|kv l]; [done|]. rewrite decide_False.
  - change "&" with (String "&"%char ""). rewrite Split_Join; [|done|].
    + f_equal. generalize (kv :: l). intros l'. induction l' as [|x l' IH]; [done|]. cbn.
      rewrite query_setting_text. by f_equal.
    + apply Forall_fmap, Forall_true. apply setting_text_clean.
  - intros H. apply (f_equal slen) in H. assert (Hpos : (0 < slen (setting_text kv))%nat).
    { unfold setting_text. rewrite !slen_app. change (slen "=") with 1%nat. lia. }
    change (slen "") with 0%nat in H.
    destruct l as [|x l]; cbn [fmap list_fmap Join] in H; rewrite ?slen_app in H; lia.
Qed.

Lemma foldl_values_add_key l m k :
  foldl values_add m l !! k =
  match omap (λ kv, if decide (kv.1 = k) then Some kv.2 else None) l with
  | [] => m !! k
  | vs => Some (default [] (m !! k) ++ vs)
  end.
Proof.
  revert m. induction l as [|[k' v] l IH]; intros m; [done|]. cbn [foldl omap list_omap fst].
  rewrite IH. unfold values_add. cbn [fst snd]. destruct (decide (k' = k)) as [->|Hk].
  - rewrite lookup_insert_eq. cbn. destruct (omap _ l) as [|x vs]; [done|].
    by rewrite <- app_assoc.
  - by rewrite lookup_insert_ne.
Qed.

Definition values_of (k : string) (kv : string * string) : option string :=
  if decide (kv.1 = k) then Some kv.2 else None.

Lemma values_of_key k k' vs :
  omap (values_of k) (v ← vs; [(k', v)]) = if decide (k' = k) then vs else [].
Proof.
  induction vs as [|v vs IH]; [by case_decide|]. cbn. unfold values_of at 1. cbn.
  case_decide; [by f_equal|done].
Qed.

Lemma encode_pairs_values (m : Values) k :
  omap (values_of k) (encode_pairs m) = default [] (m !! k).
Proof.
  unfold encode_pairs, sort_Strings. set (ks := (map_to_list m).*1).
  assert (Hnd : NoDup (sort_by string_leb ks)).
  { rewrite sort_by_perm. apply NoDup_fst_map_to_list. }
  assert (Hk : k ∉ sort_by string_leb ks → m !! k = None).
  { rewrite sort_by_perm. intros Hn. apply eq_None_not_Some. intros [vs Hvs]. apply Hn.
    apply list_elem_of_fmap. exists (k, vs). split; [done|]. by apply elem_of_map_to_list. }
  revert Hnd Hk. generalize (sort_by string_leb ks). clear ks. intros ks Hnd.
  induction Hnd as [|k' ks Hk' Hnd IH]; intros Hk.
  - rewrite Hk; [done|]. apply not_elem_of_nil.
  - cbn [mbind list_bind]. rewrite omap_app, values_of_key. destruct (decide (k' = k)) as [->|Hne].
    + assert (Hrest : omap (values_of k) (k0 ← ks; v ← default [] (m !! k0); [(k0, v)]) = []).
      { clear -Hk'. induction ks as [|x ks IH]; [done|]. apply not_elem_of_cons in Hk' as [? ?].
        cbn [mbind list_bind]. rewrite omap_app, values_of_key, decide_False, IH by done. done. }
      trans (default [] (m !! k) ++ []); [by f_equal|apply app_nil_r].
    + cbn. apply IH. intros Hn. apply Hk. rewrite not_elem_of_cons. done.
Qed.

(** A query map comes back from its encoding, but for keys without a value. *)
Lemma ParseQuery_Encode (m : Values) k :
  ParseQuery (Values_Encode m) !! k = match m !! k with Some [] => None | r => r end.
Proof.
  unfold Values_Encode. fold setting_text. change (λ kv, _) with setting_text.
  rewrite ParseQuery_settings, foldl_values_add_key.
  change (λ kv : string * string, if decide (kv.1 = k) then Some kv.2 else None) with (values_of k).
  rewrite encode_pairs_values, lookup_empty. destruct (m !! k) as [[|v vs]|]; done.
Qed.
