(* ===== verification/GoNet.v ===== *)
(** * Addresses and HTTP statuses: [net.ParseIP], [net.ParseCIDR], [IPNet.Contains],
    [net.JoinHostPort], [http.StatusText]

    An address is its list of 4 or 16 bytes. *)

From S2P Require Import Prelude GoStrings GoStd.

Abbreviation IP := (list Z) (only parsing).

(** One field of a dotted address: decimal, at most 255, no leading zero. *)
Definition ipv4_field (s : string) : option Z :=
  match s with
  | String c (String _ _) => if code c =? 48 then None else
      v ← parse_digits s; if v <=? 255 then Some v else None
  | _ => v ← parse_digits s; if v <=? 255 then Some v else None
  end.

Definition parseIPv4 (s : string) : option IP :=
  match Split s "."%char with
  | [a; b; c; d] =>
      x ← ipv4_field a; y ← ipv4_field b; z ← ipv4_field c; t ← ipv4_field d; Some [x; y; z; t]
  | _ => None
  end.

Definition hex_val (c : Ascii.ascii) : option Z :=
  let x := code c in
  if (48 <=? x) && (x <=? 57) then Some (x - 48)
  else if (97 <=? x) && (x <=? 102) then Some (x - 87)
  else if (65 <=? x) && (x <=? 70) then Some (x - 55)
  else None.

(** The hexadecimal digits at the front: how many, their value, the rest. *)
Fixpoint span_hex (n : nat) (acc : Z) (s : string) : nat * Z * string :=
  match s with
  | String c s' =>
      match hex_val c with
      | Some v => span_hex (S n) (acc * 16 + v) s'
      | None => (n, acc, s)
      end
  | EmptyString => (n, acc, s)
  end.

(** The loop of the IPv6 parser: at most eight groups; [acc] are the bytes so far and
    [ell] the position of the ellipsis. *)
Fixpoint ipv6_groups (fuel : nat) (acc : IP) (ell : option nat) (s : string)
    : option (IP * option nat * string) :=
  match fuel with
  | O => Some (acc, ell, s)
  | S fuel' =>
      let '(n, v, r) := span_hex O 0 s in
      if (n =? 0)%nat || (4 <? n)%nat then None
      else if HasPrefix r "." then
        if (bool_decide (ell = None) && negb (length acc =? 12)%nat) || (12 <? length acc)%nat then None
        else v4 ← parseIPv4 s; Some (acc ++ v4, ell, "")
      else
        let acc := acc ++ [v / 256; v mod 256] in
        match r with
        | EmptyString => Some (acc, ell, "")
        | String c r' =>
            if decide (c = ":"%char) then
              match r' with
              | EmptyString => None
              | String d r'' =>
                  if decide (d = ":"%char) then
                    match ell with
                    | Some _ => None
                    | None => if decide (r'' = "") then Some (acc, Some (length acc), "")
                              else ipv6_groups fuel' acc (Some (length acc)) r''
                    end
                  else ipv6_groups fuel' acc ell r'
              end
            else None
        end
  end.

Definition expand_ellipsis (r : IP * option nat * string) : option IP :=
  let '(acc, ell, s) := r in
  if negb (bool_decide (s = "")) then None
  else if (length acc <? 16)%nat then
    match ell with
    | Some e => Some (take e acc ++ replicate (16 - length acc) 0 ++ drop e acc)
    | None => None
    end
  else match ell with Some _ => None | None => Some acc end.

Definition parseIPv6 (s : string) : option IP :=
  if HasPrefix s "::" then
    let s := string_drop 2 s in
    if decide (s = "") then Some (replicate 16 0)
    else ipv6_groups 8 [] (Some O) s ≫= expand_ellipsis
  else ipv6_groups 8 [] None s ≫= expand_ellipsis.

(** [netip.ParseAddr] without zones: the first dot or colon decides the family. *)
Fixpoint address_family (s : string) : option bool :=
  match s with
  | EmptyString => None
  | String c s' =>
      if decide (c = "."%char) then Some false
      else if decide (c = ":"%char) then Some true
      else if decide (c = "%"%char) then None
      else address_family s'
  end.

Definition ParseAddr (s : string) : option IP :=
  match address_family s with
  | Some false => parseIPv4 s
  | Some true => if contains_byte "%"%char s then None else parseIPv6 s
  | None => None
  end.

Definition v4_prefix : IP := replicate 10 0 ++ [255; 255].
Definition To16 (ip : IP) : IP := if (length ip =? 4)%nat then v4_prefix ++ ip else ip.
Definition To4 (ip : IP) : option IP :=
  if (length ip =? 4)%nat then Some ip
  else if (length ip =? 16)%nat && bool_decide (take 12 ip = v4_prefix) then Some (drop 12 ip)
  else None.

(** [net.ParseIP] *)
Definition ParseIP (s : string) : option IP := To16 <$> ParseAddr s.

(** [net.CIDRMask] for [len] bytes *)
Definition CIDRMask (ones : Z) (len : nat) : list Z :=
  (λ i, 256 - 2 ^ (8 - Z.min 8 (Z.max 0 (ones - 8 * Z.of_nat i)))) <$> seq 0 len.

Record IPNet := { net_IP : IP; net_Mask : list Z }.

(** [net.ParseCIDR], the network only *)
Definition ParseCIDR (s : string) : option IPNet :=
  '(addr, mask) ← Cut s "/"%char;
  ip ← ParseAddr addr;
  n ← parse_digits mask;
  if n <=? 8 * blen ip then
    let m := CIDRMask n (length ip) in
    Some {| net_IP := zip_with Z.land ip m; net_Mask := m |}
  else None.

Definition IPNet_Contains (n : IPNet) (ip : IP) : bool :=
  let nn := default (net_IP n) (To4 (net_IP n)) in
  let ip := default ip (To4 ip) in
  (length ip =? length nn)%nat
  && bool_decide (zip_with Z.land nn (net_Mask n) = zip_with Z.land ip (net_Mask n)).

(** The decimal form of an IPv4 address. *)
Definition dotted (a b c d : Z) : string :=
  Itoa a +:+ String "."%char (Itoa b +:+ String "."%char (Itoa c +:+ String "."%char (Itoa d))).

(** [netip.Addr.String] of an IPv6 address: groups in hexadecimal, the first of the longest runs
    of at least two zero groups as an ellipsis. *)
Definition group_hex (g : Z) : string :=
  let d k := String (hex_digit (g / 16 ^ k mod 16)) "" in
  if g <? 16 then d 0
  else if g <? 256 then d 1 +:+ d 0
  else if g <? 4096 then d 2 +:+ (d 1 +:+ d 0)
  else d 3 +:+ (d 2 +:+ (d 1 +:+ d 0)).

Fixpoint v6_groups (ip : IP) : list Z :=
  match ip with a :: b :: ip' => (a * 256 + b) :: v6_groups ip' | _ => [] end.

Fixpoint zero_run (groups : list Z) : nat :=
  match groups with 0 :: groups' => S (zero_run groups') | _ => O end.

(** Start and length of the run, scanning from group [i]; [best] is the best so far. *)
Fixpoint longest_zeros (i : nat) (groups : list Z) (best : nat * nat) : nat * nat :=
  match groups with
  | [] => best
  | _ :: groups' =>
      let l := zero_run groups in
      longest_zeros (S i) groups' (if (2 <=? l)%nat && (best.2 <? l)%nat then (i, l) else best)
  end.

Definition join_groups (groups : list Z) : string := Join (group_hex <$> groups) ":".

Definition IPv6_String (ip : IP) : string :=
  let groups := v6_groups ip in
  match longest_zeros 0 groups (O, O) with
  | (_, O) => join_groups groups
  | (start, l) => join_groups (take start groups) +:+ ("::" +:+ join_groups (drop (start + l) groups))
  end.

(** [net.IP.String] of a parsed address *)
Definition IP_String (ip : IP) : string :=
  match To4 ip with
  | Some [a; b; c; d] => dotted a b c d
  | _ => IPv6_String ip
  end.

(** ** Facts *)

Example IP_String_runs :
  (IP_String <$> ParseIP "2001:0DB8:0:0:1:0:0:0", IP_String <$> ParseIP "::", IP_String <$> ParseIP "1:0:2:0:3:0:4:0",
   IP_String <$> ParseIP "::ffff:10.0.0.1", IP_String <$> ParseIP "fe80::1:ff")
  = (Some "2001:db8:0:0:1::", Some "::", Some "1:0:2:0:3:0:4:0", Some "10.0.0.1", Some "fe80::1:ff").
Proof. vm_compute. reflexivity. Qed.

Example ParseIP_v6 : ParseIP "fe80::1:ff" = Some [254; 128; 0; 0; 0; 0; 0; 0; 0; 0; 0; 0; 0; 1; 0; 255].
Proof. vm_compute. reflexivity. Qed.
Example ParseIP_mapped : ParseIP "::ffff:10.0.0.1" = ParseIP "10.0.0.1".
Proof. vm_compute. reflexivity. Qed.
Example ParseIP_loopback6 : ParseIP "::1" = Some (replicate 15 0 ++ [1]).
Proof. vm_compute. reflexivity. Qed.
Example ParseIP_bad : (ParseIP "1.2.3", ParseIP "01.2.3.4", ParseIP "1::2::3", ParseIP "::1%lo") = (None, None, None, None).
Proof. vm_compute. reflexivity. Qed.

Definition octet_ok (n : Z) : bool :=
  bool_decide (ipv4_field (Itoa n) = Some n) && negb (contains_byte "."%char (Itoa n))
  && negb (contains_byte ":"%char (Itoa n)) && negb (contains_byte "%"%char (Itoa n)).

Lemma octets_ok n : 0 <= n < 256 →
  ipv4_field (Itoa n) = Some n ∧ contains_byte "."%char (Itoa n) = false ∧
  contains_byte ":"%char (Itoa n) = false ∧ contains_byte "%"%char (Itoa n) = false.
Proof.
  intros Hn. assert (Hall : forallb octet_ok (seqZ 0 256) = true) by (vm_compute; reflexivity).
  rewrite forallb_forall in Hall. specialize (Hall n).
  rewrite <- list_elem_of_In, elem_of_seqZ in Hall. specialize (Hall ltac:(lia)).
  unfold octet_ok in Hall. rewrite !andb_true_iff, !negb_true_iff, bool_decide_eq_true in Hall. tauto.
Qed.

Lemma address_family_app x s :
  contains_byte "."%char x = false → contains_byte ":"%char x = false → contains_byte "%"%char x = false →
  address_family (x +:+ s) = address_family s.
Proof.
  induction x as [|c x IH]; [done|]. cbn [contains_byte]. rewrite !orb_false_iff, !bool_decide_eq_false.
  intros [? ?] [? ?] [? ?]. rewrite sapp_cons. cbn [address_family].
  rewrite !decide_False by done. auto.
Qed.

Lemma ParseIP_dotted a b c d :
  0 <= a < 256 → 0 <= b < 256 → 0 <= c < 256 → 0 <= d < 256 →
  ParseIP (dotted a b c d) = Some (v4_prefix ++ [a; b; c; d]).
Proof.
  intros (Pa & Da & Ca & Ea)%octets_ok (Pb & Db & _ & _)%octets_ok (Pc & Dc & _ & _)%octets_ok
    (Pd & Dd & _ & _)%octets_ok.
  unfold ParseIP, ParseAddr, dotted. rewrite address_family_app by done. cbn [address_family].
  rewrite (decide_True (P := "."%char = "."%char)) by done.
  unfold parseIPv4. rewrite !Split_app_sep, Split_single by done. by rewrite Pa, Pb, Pc, Pd.
Qed.

(** [net.SplitHostPort]: [None] for each of its errors. *)
Definition SplitHostPort (hostport : string) : option (string * string) :=
  match LastIndexByte hostport ":"%char with
  | None => None
  | Some i =>
      let port := string_drop (S i) hostport in
      if HasPrefix hostport "[" then
        match Cut hostport "]"%char with
        | None => None
        | Some (before, after) =>
            if negb (Nat.eqb (S (slen before)) i) then None
            else if contains_byte "["%char (string_drop 1 hostport) || contains_byte "]"%char after then None
            else Some (string_drop 1 before, port)
        end
      else
        let host := string_take i hostport in
        if contains_byte ":"%char host then None
        else if contains_byte "["%char hostport || contains_byte "]"%char hostport then None
        else Some (host, port)
  end.

Example SplitHostPort_v4 : SplitHostPort "8.8.8.8:5353" = Some ("8.8.8.8", "5353"). Proof. reflexivity. Qed.
Example SplitHostPort_v6 : SplitHostPort "[::1]:53" = Some ("::1", "53"). Proof. reflexivity. Qed.
Example SplitHostPort_none : SplitHostPort "8.8.8.8" = None ∧ SplitHostPort "::1" = None ∧ SplitHostPort "[::1]" = None. Proof. done. Qed.

(** [net.JoinHostPort]: a host with a colon is taken for an IPv6 address. *)
Definition JoinHostPort (host port : string) : string :=
  if contains_byte ":" host then "[" +:+ (host +:+ ("]:" +:+ port)) else host +:+ (":" +:+ port).

(** ** HTTP statuses: [http.StatusText], empty for a code it does not know *)

Definition status_texts : list (Z * string) := [
  (100, "Continue"); (101, "Switching Protocols"); (102, "Processing"); (103, "Early Hints"); (200, "OK");
   (201, "Created"); (202, "Accepted"); (203, "Non-Authoritative Information"); (204, "No Content");
   (205, "Reset Content"); (206, "Partial Content"); (207, "Multi-Status"); (208, "Already Reported");
   (226, "IM Used"); (300, "Multiple Choices"); (301, "Moved Permanently"); (302, "Found"); (303, "See Other");
   (304, "Not Modified"); (305, "Use Proxy"); (307, "Temporary Redirect"); (308, "Permanent Redirect");
   (400, "Bad Request"); (401, "Unauthorized"); (402, "Payment Required"); (403, "Forbidden");
   (404, "Not Found"); (405, "Method Not Allowed"); (406, "Not Acceptable");
   (407, "Proxy Authentication Required"); (408, "Request Timeout"); (409, "Conflict"); (410, "Gone");
   (411, "Length Required"); (412, "Precondition Failed"); (413, "Request Entity Too Large");
   (414, "Request URI Too Long"); (415, "Unsupported Media Type"); (416, "Requested Range Not Satisfiable");
   (417, "Expectation Failed"); (418, "I'm a teapot"); (421, "Misdirected Request");
   (422, "Unprocessable Entity"); (423, "Locked"); (424, "Failed Dependency"); (425, "Too Early");
   (426, "Upgrade Required"); (428, "Precondition Required"); (429, "Too Many Requests");
   (431, "Request Header Fields Too Large"); (451, "Unavailable For Legal Reasons");
   (500, "Internal Server Error"); (501, "Not Implemented"); (502, "Bad Gateway");
   (503, "Service Unavailable"); (504, "Gateway Timeout"); (505, "HTTP Version Not Supported");
   (506, "Variant Also Negotiates"); (507, "Insufficient Storage"); (508, "Loop Detected");
   (510, "Not Extended"); (511, "Network Authentication Required")].

Definition http_StatusText (code : Z) : string :=
  match find (λ x, x.1 =? code) status_texts with Some (_, t) => t | None => "" end.
