(* ===== verification/VfsBase.v ===== *)
(** * The VFS interface: [pkg/vfs/provider.go], [pkg/vfs/guestflags.go]

    Errors, open flags and error numbers of a host ABI, file metadata, and the
    two interfaces every file-system component implements: [Provider] and
    [Handle], as records of operations over a world [W]. [Iface] is a Go
    interface value holding a provider: the operations, the pointer identity used
    by [oldP != newP], and the two dynamic-type facts the server asserts. *)

From S2P Require Import Prelude GoStrings GoPath.

(** ** Host ABI: the constants of [os] and [syscall] that differ by host *)

Inductive errno : Type :=
| EPERM | ENOENT | EIO | EBADF | EACCES | EEXIST | EXDEV | ENOTDIR | EROFS
| ENOSYS | ENOTEMPTY
| EOTHER (n : Z).

#[export] Instance errno_eq_dec : EqDecision errno.
Proof. solve_decision. Defined.

Class HostABI := {
  O_WRONLY : Z; O_RDWR : Z; O_APPEND : Z; O_CREATE : Z; O_EXCL : Z; O_TRUNC : Z;
  errno_num : errno → Z;
}.

Definition errno_common (e : errno) : Z :=
  match e with
  | EPERM => 1 | ENOENT => 2 | EIO => 5 | EBADF => 9 | EACCES => 13 | EEXIST => 17
  | EXDEV => 18 | ENOTDIR => 20 | EROFS => 30 | ENOSYS => 38 | ENOTEMPTY => 39
  | EOTHER n => n
  end.

(** GOOS=linux. *)
Definition linux_abi : HostABI := {|
  O_WRONLY := 0x1; O_RDWR := 0x2; O_APPEND := 0x400;
  O_CREATE := 0x40; O_EXCL := 0x80; O_TRUNC := 0x200;
  errno_num := errno_common |}.

(** GOOS=darwin: other bits for the creation flags, other numbers for ENOSYS and
    ENOTEMPTY. *)
Definition darwin_abi : HostABI := {|
  O_WRONLY := 0x1; O_RDWR := 0x2; O_APPEND := 0x8;
  O_CREATE := 0x200; O_EXCL := 0x800; O_TRUNC := 0x400;
  errno_num := λ e, match e with ENOSYS => 78 | ENOTEMPTY => 66 | _ => errno_common e end |}.

(** [flags & mask != 0] *)
Definition has_flag (flags mask : Z) : bool := negb (Z.land flags mask =? 0).

(** ** Guest open flags: [guestflags.go] *)

Definition linuxOAccMode : Z := 0x3.
Definition linuxOCreat : Z := 0x40.
Definition linuxOExcl : Z := 0x80.
Definition linuxOTrunc : Z := 0x200.
Definition linuxOAppend : Z := 0x400.

Definition hostOpenFlags `{HostABI} (guestFlags : Z) : Z :=
  let flags := Z.land guestFlags linuxOAccMode in
  let flags := if has_flag guestFlags linuxOCreat then Z.lor flags O_CREATE else flags in
  let flags := if has_flag guestFlags linuxOExcl then Z.lor flags O_EXCL else flags in
  let flags := if has_flag guestFlags linuxOTrunc then Z.lor flags O_TRUNC else flags in
  flags.

(** ** Errors

    [Errno e] is a bare [syscall.Errno]; [PathError e] is an error of package
    [os] wrapping one (the dynamic type differs, which the server's type
    assertion sees). *)

Inductive err : Type :=
| Errno (e : errno)
| PathError (e : errno)
| EOF
| OtherError (msg : string).

#[export] Instance err_eq_dec : EqDecision err.
Proof. solve_decision. Defined.

(** The errno an error is or wraps ([errors.Is] and [os.Is...] unwrap). *)
Definition underlying (e : err) : option errno :=
  match e with Errno n | PathError n => Some n | _ => None end.

Definition IsNotExist (e : err) : bool := bool_decide (underlying e = Some ENOENT).
Definition IsPermission (e : err) : bool :=
  bool_decide (underlying e = Some EACCES ∨ underlying e = Some EPERM).
Definition IsExist (e : err) : bool :=
  bool_decide (underlying e = Some EEXIST ∨ underlying e = Some ENOTEMPTY).

(** ** File metadata: [provider.go] *)

(** os.FileMode: permission bits and, at bit 31, the directory bit. *)
Definition ModeDir : Z := 2 ^ 31.
Definition ModeType : Z := 0x8F280000.

Record Stat_t := { st_Dev : Z; st_Ino : Z; st_Uid : Z; st_Gid : Z }.

(** [sys any] is a [*syscall.Stat_t] or nil in this program. Times are
    nanoseconds since the Unix epoch. *)
Record FileInfo := {
  fi_name : string; fi_size : Z; fi_mode : Z; fi_modTime : Z; fi_isDir : bool;
  fi_sys : option Stat_t; fi_uid : Z; fi_gid : Z }.

Definition NewFileInfoWithSys (name : string) (size mode modTime : Z) (isDir : bool)
    (sys : option Stat_t) : FileInfo :=
  {| fi_name := name; fi_size := size; fi_mode := mode; fi_modTime := modTime;
     fi_isDir := isDir; fi_sys := sys; fi_uid := 0; fi_gid := 0 |}.

Definition NewFileInfo (name : string) (size mode modTime : Z) (isDir : bool) : FileInfo :=
  NewFileInfoWithSys name size mode modTime isDir None.

Definition FileInfo_WithOwner (fi : FileInfo) (uid gid : Z) : FileInfo :=
  {| fi_name := fi_name fi; fi_size := fi_size fi; fi_mode := fi_mode fi;
     fi_modTime := fi_modTime fi; fi_isDir := fi_isDir fi; fi_sys := fi_sys fi;
     fi_uid := uid; fi_gid := gid |}.

Record DirEntry := { de_name : string; de_isDir : bool; de_mode : Z; de_info : FileInfo }.

Definition NewDirEntry (name : string) (isDir : bool) (mode : Z) (info : FileInfo) : DirEntry :=
  {| de_name := name; de_isDir := isDir; de_mode := mode; de_info := info |}.

Definition DirEntry_Type (de : DirEntry) : Z := Z.land (de_mode de) ModeType.

(** ** The interfaces

    [Read]/[ReadAt] take the length of the caller's buffer and return the bytes
    stored in it (so [n] is their number) together with the error. A zero
    [time.Time] is [None]. *)

Record Handle (W : Type) := mkHandle {
  h_Read : Z → M W (bytes * option err);
  h_ReadAt : Z → Z → M W (bytes * option err);
  h_Write : bytes → M W (Z * option err);
  h_WriteAt : bytes → Z → M W (Z * option err);
  h_Seek : Z → Z → M W (Z * option err);
  h_Close : M W (option err);
  h_Stat : M W (result err FileInfo);
  h_Sync : M W (option err);
  h_Truncate : Z → M W (option err) }.
Arguments mkHandle {W}.
Arguments h_Read {W}. Arguments h_ReadAt {W}. Arguments h_Write {W}.
Arguments h_WriteAt {W}. Arguments h_Seek {W}. Arguments h_Close {W}.
Arguments h_Stat {W}. Arguments h_Sync {W}. Arguments h_Truncate {W}.

Record Provider (W : Type) := mkProvider {
  Readonly : bool;
  Stat : string → M W (result err FileInfo);
  ReadDir : string → M W (result err (list DirEntry));
  Open : string → Z → Z → M W (result err (Handle W));
  Create : string → Z → M W (result err (Handle W));
  Mkdir : string → Z → M W (option err);
  Chmod : string → Z → M W (option err);
  Chtimes : string → option Z → option Z → M W (option err);
  Remove : string → M W (option err);
  RemoveAll : string → M W (option err);
  Rename : string → string → M W (option err);
  Symlink : string → string → M W (option err);
  Readlink : string → M W (result err string);
  Fsync : string → M W (option err) }.
Arguments mkProvider {W}.
Arguments Readonly {W}. Arguments Stat {W}. Arguments ReadDir {W}. Arguments Open {W}.
Arguments Create {W}. Arguments Mkdir {W}. Arguments Chmod {W}. Arguments Chtimes {W}.
Arguments Remove {W}. Arguments RemoveAll {W}. Arguments Rename {W}.
Arguments Symlink {W}. Arguments Readlink {W}. Arguments Fsync {W}.

Record Iface (W : Type) := mkIface {
  iface_ops : Provider W;
  iface_id : N;
  (** [provider.(interface { withCaller(uid, gid int) Provider })] *)
  iface_withCaller : option (Z → Z → Provider W);
  (** [provider.( *MemoryProvider)], for its [MkdirAll] *)
  iface_MkdirAll : option (string → Z → M W (option err)) }.
Arguments mkIface {W}. Arguments iface_ops {W}. Arguments iface_id {W}.
Arguments iface_withCaller {W}. Arguments iface_MkdirAll {W}.

(** ** A component's state inside a larger world *)

Class Has (S W : Type) := {
  get_st : W → S;
  put_st : S → W → W;
  get_put_st : ∀ s w, get_st (put_st s w) = s;
  put_get_st : ∀ w, put_st (get_st w) w = w;
  put_put_st : ∀ s s' w, put_st s (put_st s' w) = put_st s w }.

#[export] Instance Has_refl S : Has S S.
Proof. refine {| get_st := λ s, s; put_st := λ s _, s |}; done. Defined.

#[export] Instance Has_fst A B : Has A (A * B).
Proof.
  refine {| get_st := fst; put_st := λ s w, (s, snd w) |}; by intros; try destruct w.
Defined.

#[export] Instance Has_snd A B : Has B (A * B).
Proof.
  refine {| get_st := snd; put_st := λ s w, (fst w, s) |}; by intros; try destruct w.
Defined.

Definition lift {S W A} `{Has S W} (m : M S A) : M W A := λ w,
  match m (get_st w) with
  | Some (a, s') => Some (a, put_st s' w)
  | None => None
  end.

Lemma lift_Some {S W A} `{Has S W} (m : M S A) w a w' :
  lift m w = Some (a, w') ↔ ∃ s', m (get_st w) = Some (a, s') ∧ w' = put_st s' w.
Proof. unfold lift. destruct (m (get_st w)) as [[b s]|]; naive_solver. Qed.

(** ** Computations and providers that respect a relation between worlds

    [respects R m]: every run of [m] that returns relates the worlds before and
    after by [R]. The lemmas below are the congruences the components use to
    lift a fact about single operations to whole request handlers. *)

Section respects.
Context {W : Type} (R : W → W → Prop) `{!PreOrder R}.

Definition respects {A} (m : M W A) : Prop := ∀ w a w', m w = Some (a, w') → R w w'.

Lemma respects_ret {A} (a : A) : respects (mret a).
Proof. intros w b w' [_ ->]%M_ret_Some. reflexivity. Qed.

Lemma respects_bind {A B} (m : M W A) (f : A → M W B) :
  respects m → (∀ a, respects (f a)) → respects (m ≫= f).
Proof.
  intros Hm Hf w b w' (a & w1 & H1 & H2)%M_bind_Some.
  transitivity w1; [by eapply Hm|by eapply Hf].
Qed.

(** As [respects_bind], with what is known of the first result. *)
Lemma respects_bind_post {A B} (P : A → Prop) (m : M W A) (f : A → M W B) :
  respects m → (∀ w a w', m w = Some (a, w') → P a) →
  (∀ a, P a → respects (f a)) → respects (m ≫= f).
Proof.
  intros Hm HP Hf w b w' (a & w1 & H1 & H2)%M_bind_Some.
  transitivity w1; [by eapply Hm|eapply Hf; eauto].
Qed.

Lemma respects_panic {A} : respects (panic : M W A).
Proof. by intros w a w'. Qed.

Record handle_respects (h : Handle W) : Prop := {
  hr_Read n : respects (h_Read h n);
  hr_ReadAt n off : respects (h_ReadAt h n off);
  hr_Write d : respects (h_Write h d);
  hr_WriteAt d off : respects (h_WriteAt h d off);
  hr_Seek off wh : respects (h_Seek h off wh);
  hr_Close : respects (h_Close h);
  hr_Stat : respects (h_Stat h);
  hr_Sync : respects (h_Sync h);
  hr_Truncate n : respects (h_Truncate h n) }.

(** The part of a handle a read-only client may use. *)
Record handle_read_respects (h : Handle W) : Prop := {
  hrr_Read n : respects (h_Read h n);
  hrr_ReadAt n off : respects (h_ReadAt h n off);
  hrr_Seek off wh : respects (h_Seek h off wh);
  hrr_Close : respects (h_Close h);
  hrr_Stat : respects (h_Stat h) }.

Record provider_respects (p : Provider W) : Prop := {
  pr_Stat f : respects (Stat p f);
  pr_ReadDir f : respects (ReadDir p f);
  pr_Open f fl m : respects (Open p f fl m);
  pr_Open_handle f fl m w h w' : Open p f fl m w = Some (Ok h, w') → handle_respects h;
  pr_Create f m : respects (Create p f m);
  pr_Create_handle f m w h w' : Create p f m w = Some (Ok h, w') → handle_respects h;
  pr_Mkdir f m : respects (Mkdir p f m);
  pr_Chmod f m : respects (Chmod p f m);
  pr_Chtimes f a m : respects (Chtimes p f a m);
  pr_Remove f : respects (Remove p f);
  pr_RemoveAll f : respects (RemoveAll p f);
  pr_Rename f g : respects (Rename p f g);
  pr_Symlink f g : respects (Symlink p f g);
  pr_Readlink f : respects (Readlink p f);
  pr_Fsync f : respects (Fsync p f) }.

Record iface_respects (i : Iface W) : Prop := {
  ir_ops : provider_respects (iface_ops i);
  ir_withCaller f uid gid :
    iface_withCaller i = Some f → provider_respects (f uid gid);
  ir_MkdirAll f p m : iface_MkdirAll i = Some f → respects (f p m) }.
End respects.

(** ** Providers that agree *)

(** The providers behave alike on the path arguments [P] allows. *)
Record provider_agree {W} (P : string → Prop) (p1 p2 : Provider W) : Prop := {
  pa_Readonly : Readonly p1 = Readonly p2;
  pa_Stat f : P f → Stat p1 f ≡ₘ Stat p2 f;
  pa_ReadDir f : P f → ReadDir p1 f ≡ₘ ReadDir p2 f;
  pa_Open f fl m : P f → Open p1 f fl m ≡ₘ Open p2 f fl m;
  pa_Create f m : P f → Create p1 f m ≡ₘ Create p2 f m;
  pa_Mkdir f m : P f → Mkdir p1 f m ≡ₘ Mkdir p2 f m;
  pa_Chmod f m : P f → Chmod p1 f m ≡ₘ Chmod p2 f m;
  pa_Chtimes f a m : P f → Chtimes p1 f a m ≡ₘ Chtimes p2 f a m;
  pa_Remove f : P f → Remove p1 f ≡ₘ Remove p2 f;
  pa_RemoveAll f : P f → RemoveAll p1 f ≡ₘ RemoveAll p2 f;
  pa_Rename f g : P f → P g → Rename p1 f g ≡ₘ Rename p2 f g;
  pa_Symlink t f : P f → Symlink p1 t f ≡ₘ Symlink p2 t f;
  pa_Readlink f : P f → Readlink p1 f ≡ₘ Readlink p2 f;
  pa_Fsync f : P f → Fsync p1 f ≡ₘ Fsync p2 f }.

#[export] Hint Resolve respects_ret respects_panic : respects.
#[export] Hint Resolve hr_Read hr_ReadAt hr_Write hr_WriteAt hr_Seek hr_Close hr_Stat
  hr_Sync hr_Truncate hrr_Read hrr_ReadAt hrr_Seek hrr_Close hrr_Stat
  pr_Stat pr_ReadDir pr_Open pr_Create pr_Mkdir pr_Chmod pr_Chtimes pr_Remove
  pr_RemoveAll pr_Rename pr_Symlink pr_Readlink pr_Fsync : respects.

(** Step through a computation that respects [R]. *)
Ltac solve_respects :=
  repeat first
    [ progress intros
    | apply respects_ret; [apply _]
    | apply respects_panic
    | apply respects_bind; [apply _| |]
    | case_match
    | solve [eauto with respects] ].
