(* ===== verification/VfsMemory.v ===== *)
(** * The in-memory file system: [pkg/vfs/memory.go]

    The Go objects live in a store: [memFile] objects on a heap (so that a handle
    keeps its file alive after [Remove] or [Rename]), the mutable offset of each
    open [memHandle], and the maps of each [MemoryProvider]. The operations are
    those of the source, one definition each, over that store. Each is atomic: the
    source holds the provider's and the file's mutex around them.

    Slicing and [make] panic as Go's do. *)

From S2P Require Import Prelude GoStrings GoPath VfsBase.

(** ** State *)

Record memFile := { mf_data : bytes; mf_mode : Z; mf_modTime : Z }.

(** [MemoryProvider]'s two maps; a file is named by its heap address. *)
Record memfs := { mp_files : gmap string N; mp_dirs : gmap string Z }.

Record memstore := {
  ms_now : Z;               (* time.Now() *)
  ms_heap : gmap N memFile; (* *memFile objects *)
  ms_offs : gmap N Z;       (* memHandle.offset, by handle address *)
  ms_next : N;              (* next free address *)
  ms_fs : gmap N memfs }.   (* *MemoryProvider objects *)

Definition set_heap (h : gmap N memFile) (s : memstore) : memstore :=
  {| ms_now := ms_now s; ms_heap := h; ms_offs := ms_offs s; ms_next := ms_next s;
     ms_fs := ms_fs s |}.
Definition set_offs (o : gmap N Z) (s : memstore) : memstore :=
  {| ms_now := ms_now s; ms_heap := ms_heap s; ms_offs := o; ms_next := ms_next s;
     ms_fs := ms_fs s |}.
Definition set_next (n : N) (s : memstore) : memstore :=
  {| ms_now := ms_now s; ms_heap := ms_heap s; ms_offs := ms_offs s; ms_next := n;
     ms_fs := ms_fs s |}.
Definition set_fs (f : gmap N memfs) (s : memstore) : memstore :=
  {| ms_now := ms_now s; ms_heap := ms_heap s; ms_offs := ms_offs s; ms_next := ms_next s;
     ms_fs := f |}.

Definition with_files (f : gmap string N) (m : memfs) : memfs :=
  {| mp_files := f; mp_dirs := mp_dirs m |}.
Definition with_dirs (d : gmap string Z) (m : memfs) : memfs :=
  {| mp_files := mp_files m; mp_dirs := d |}.

Definition with_data (now : Z) (d : bytes) (f : memFile) : memFile :=
  {| mf_data := d; mf_mode := mf_mode f; mf_modTime := now |}.

(** Octal 0755. *)
Definition mode0755 : Z := 0x1ED.

(** ** Go's slices: [make([]byte, n)] panics beyond the address space, [b[i:]]
    and [b[:i]] panic out of range. *)

Definition maxAlloc : Z := 2 ^ 48.

Definition make_bytes (n : Z) : option bytes :=
  if (0 <=? n) && (n <=? maxAlloc) then Some (replicate (Z.to_nat n) zero_byte) else None.

Definition slice_from (b : bytes) (i : Z) : option bytes :=
  if (0 <=? i) && (i <=? blen b) then Some (drop (Z.to_nat i) b) else None.

(** [b[:i]] of a slice whose capacity is its length. *)
Definition slice_to (b : bytes) (i : Z) : option bytes :=
  if (0 <=? i) && (i <=? blen b) then Some (take (Z.to_nat i) b) else None.

(** [copy(dst[off:], p)]: the bytes of [dst] after the copy, and the count. *)
Definition copy_at (dst : bytes) (off : Z) (p : bytes) : bytes * Z :=
  let o := Z.to_nat off in
  let n := Nat.min (length p) (length dst - o) in
  (take o dst ++ take n p ++ drop (o + n) dst, Z.of_nat n).

(** ** MemoryProvider *)

Definition MemoryProvider_normPath (path : string) : string :=
  let path := Clean path in
  if negb (HasPrefix path "/") then "/" +:+ path else path.

(** The maps behind a provider's pointer; using a nil pointer panics. *)
Definition get_fs (p : N) : M memstore memfs := λ s,
  match ms_fs s !! p with Some m => Some (m, s) | None => None end.
Definition put_fs (p : N) (m : memfs) : M memstore unit :=
  modw (λ s, set_fs (<[p := m]> (ms_fs s)) s).
Definition get_file (a : N) : M memstore memFile := λ s,
  match ms_heap s !! a with Some f => Some (f, s) | None => None end.
Definition put_file (a : N) (f : memFile) : M memstore unit :=
  modw (λ s, set_heap (<[a := f]> (ms_heap s)) s).
Definition time_Now : M memstore Z := λ s, Some (ms_now s, s).
Definition alloc : M memstore N := λ s, Some (ms_next s, set_next (N.succ (ms_next s)) s).

Definition new_file (f : memFile) : M memstore N :=
  a ← alloc; _ ← put_file a f; mret a.

Definition NewMemoryProvider : M memstore N :=
  a ← alloc;
  _ ← put_fs a {| mp_files := ∅; mp_dirs := {[ "/" := mode0755 ]} |};
  mret a.

Definition MemoryProvider_Readonly : bool := false.

Definition MemoryProvider_Stat (p : N) (path : string) : M memstore (result err FileInfo) :=
  let path := MemoryProvider_normPath path in
  m ← get_fs p;
  match mp_dirs m !! path with
  | Some mode =>
      let mode := if mode =? 0 then mode0755 else mode in
      now ← time_Now;
      mret (Ok (NewFileInfo (Base path) 0 (Z.lor ModeDir mode) now true))
  | None =>
      match mp_files m !! path with
      | None => mret (Err (Errno ENOENT))
      | Some a =>
          f ← get_file a;
          mret (Ok (NewFileInfo (Base path) (blen (mf_data f)) (mf_mode f) (mf_modTime f) false))
      end
  end.

(** The two loops of [ReadDir], over the maps in the order they are ranged. *)
Fixpoint readdir_files (prefix : string) (now : Z) (heap : gmap N memFile)
    (fs : list (string * N)) (seen : gset string) : option (list DirEntry * gset string) :=
  match fs with
  | [] => Some ([], seen)
  | (filePath, a) :: fs' =>
      if negb (HasPrefix filePath prefix) then readdir_files prefix now heap fs' seen
      else
        let rel := TrimPrefix filePath prefix in
        match SplitN 2 rel slash with
        | [] => None
        | name :: more =>
            if decide (name ∈ seen) then readdir_files prefix now heap fs' seen
            else
              match
                (match more with
                 | _ :: _ =>
                     Some (NewDirEntry name true (Z.lor ModeDir mode0755)
                             (NewFileInfo name 0 (Z.lor ModeDir mode0755) now true))
                 | [] =>
                     f ← heap !! a;
                     Some (NewDirEntry name false (mf_mode f)
                             (NewFileInfo name (blen (mf_data f)) (mf_mode f) (mf_modTime f) false))
                 end)
              with
              | None => None
              | Some e =>
                  match readdir_files prefix now heap fs' ({[ name ]} ∪ seen) with
                  | Some (es, seen') => Some (e :: es, seen')
                  | None => None
                  end
              end
        end
  end.

Fixpoint readdir_dirs (path prefix : string) (now : Z) (ds : list string)
    (seen : gset string) : list DirEntry :=
  match ds with
  | [] => []
  | dirPath :: ds' =>
      if negb (HasPrefix dirPath prefix) || bool_decide (dirPath = path)
      then readdir_dirs path prefix now ds' seen
      else
        let rel := TrimPrefix dirPath prefix in
        let name := default "" (head (SplitN 2 rel slash)) in
        if decide (name ∈ seen) then readdir_dirs path prefix now ds' seen
        else NewDirEntry name true (Z.lor ModeDir mode0755)
               (NewFileInfo name 0 (Z.lor ModeDir mode0755) now true)
             :: readdir_dirs path prefix now ds' ({[ name ]} ∪ seen)
  end.

(** Go ranges over a map in an unspecified order; the model takes the order of
    [map_to_list], and the facts about [readdir_files] and [readdir_dirs] hold for
    every order. *)
Definition MemoryProvider_ReadDir (p : N) (path : string)
    : M memstore (result err (list DirEntry)) :=
  let path := MemoryProvider_normPath path in
  m ← get_fs p;
  match mp_dirs m !! path with
  | None => mret (Err (Errno ENOTDIR))
  | Some _ =>
      let prefix := if decide (path ≠ "/") then path +:+ "/" else path in
      s ← getw;
      '(es, seen) ← liftp (readdir_files prefix (ms_now s) (ms_heap s) (map_to_list (mp_files m)) ∅);
      mret (Ok (es ++ readdir_dirs path prefix (ms_now s) (map_to_list (mp_dirs m)).*1 seen))
  end.

Definition MemoryProvider_Mkdir (p : N) (path : string) (mode : Z) : M memstore (option err) :=
  let path := MemoryProvider_normPath path in
  m ← get_fs p;
  let parent := Dir path in
  match mp_dirs m !! parent with
  | None => mret (Some (Errno ENOENT))
  | Some _ =>
      match mp_dirs m !! path with
      | Some _ => mret (Some (Errno EEXIST))
      | None => _ ← put_fs p (with_dirs (<[path := mode]> (mp_dirs m)) m); mret None
      end
  end.

Definition MemoryProvider_Chmod (p : N) (path : string) (mode : Z) : M memstore (option err) :=
  let path := MemoryProvider_normPath path in
  m ← get_fs p;
  match mp_dirs m !! path with
  | Some _ => _ ← put_fs p (with_dirs (<[path := mode]> (mp_dirs m)) m); mret None
  | None =>
      match mp_files m !! path with
      | None => mret (Some (Errno ENOENT))
      | Some a =>
          f ← get_file a;
          _ ← put_file a {| mf_data := mf_data f; mf_mode := mode; mf_modTime := mf_modTime f |};
          mret None
      end
  end.

Definition MemoryProvider_Chtimes (p : N) (path : string) (atime mtime : option Z)
    : M memstore (option err) :=
  let path := MemoryProvider_normPath path in
  m ← get_fs p;
  match mp_files m !! path with
  | Some a =>
      match mtime with
      | Some t =>
          f ← get_file a;
          _ ← put_file a {| mf_data := mf_data f; mf_mode := mf_mode f; mf_modTime := t |};
          mret None
      | None => mret None
      end
  | None =>
      match mp_dirs m !! path with
      | Some _ => mret None
      | None => mret (Some (Errno ENOENT))
      end
  end.

Definition MemoryProvider_Remove (p : N) (path : string) : M memstore (option err) :=
  let path := MemoryProvider_normPath path in
  m ← get_fs p;
  match mp_dirs m !! path with
  | Some _ =>
      if existsb (λ k, HasPrefix k (path +:+ "/")) (map_to_list (mp_files m)).*1
      then mret (Some (Errno ENOTEMPTY))
      else _ ← put_fs p (with_dirs (delete path (mp_dirs m)) m); mret None
  | None =>
      match mp_files m !! path with
      | None => mret (Some (Errno ENOENT))
      | Some _ => _ ← put_fs p (with_files (delete path (mp_files m)) m); mret None
      end
  end.

(** The loop condition of [RemoveAll]: [path] itself or a key below it. *)
Definition removeall_hits (path k : string) : bool :=
  let prefix := if decide (path ≠ "/") then path +:+ "/" else path in
  bool_decide (k = path) || HasPrefix k prefix.

Definition MemoryProvider_RemoveAll (p : N) (path : string) : M memstore (option err) :=
  let path := MemoryProvider_normPath path in
  m ← get_fs p;
  _ ← put_fs p
        {| mp_files := filter (λ kv, removeall_hits path (fst kv) = false) (mp_files m);
           mp_dirs := filter (λ kv, removeall_hits path (fst kv) = false) (mp_dirs m) |};
  mret None.

Definition MemoryProvider_Rename (p : N) (oldPath newPath : string) : M memstore (option err) :=
  let oldPath := MemoryProvider_normPath oldPath in
  let newPath := MemoryProvider_normPath newPath in
  m ← get_fs p;
  match mp_files m !! oldPath with
  | None =>
      match mp_dirs m !! oldPath with
      | None => mret (Some (Errno ENOENT))
      | Some mode =>
          _ ← put_fs p (with_dirs (<[newPath := mode]> (delete oldPath (mp_dirs m))) m);
          mret None
      end
  | Some a =>
      _ ← put_fs p (with_files (<[newPath := a]> (delete oldPath (mp_files m))) m);
      mret None
  end.

Definition MemoryProvider_Symlink (target link : string) : M memstore (option err) :=
  mret (Some (Errno ENOSYS)).
Definition MemoryProvider_Readlink (path : string) : M memstore (result err string) :=
  mret (Err (Errno ENOSYS)).
Definition MemoryProvider_Fsync (path : string) : M memstore (option err) := mret None.

Definition MemoryProvider_WriteFile (p : N) (path : string) (data : bytes) (mode : Z)
    : M memstore (option err) :=
  let path := MemoryProvider_normPath path in
  m ← get_fs p;
  match mp_dirs m !! Dir path with
  | None => mret (Some (Errno ENOENT))
  | Some _ =>
      now ← time_Now;
      a ← new_file {| mf_data := data; mf_mode := mode; mf_modTime := now |};
      _ ← put_fs p (with_files (<[path := a]> (mp_files m)) m);
      mret None
  end.

Definition MemoryProvider_ReadFile (p : N) (path : string) : M memstore (result err bytes) :=
  let path := MemoryProvider_normPath path in
  m ← get_fs p;
  match mp_files m !! path with
  | None => mret (Err (Errno ENOENT))
  | Some a => f ← get_file a; mret (Ok (mf_data f))
  end.

(** The prefixes of the path, shortest first, each inserted when absent. *)
Fixpoint mkdir_parts (mode : Z) (current : string) (parts : list string) (dirs : gmap string Z)
    : gmap string Z :=
  match parts with
  | [] => dirs
  | part :: parts' =>
      if decide (part = "") then mkdir_parts mode current parts' dirs
      else
        let current := current +:+ ("/" +:+ part) in
        let dirs := match dirs !! current with Some _ => dirs | None => <[current := mode]> dirs end in
        mkdir_parts mode current parts' dirs
  end.

Definition MemoryProvider_MkdirAll (p : N) (path : string) (mode : Z) : M memstore (option err) :=
  let path := MemoryProvider_normPath path in
  m ← get_fs p;
  _ ← put_fs p (with_dirs (mkdir_parts mode "" (Split (TrimPrefix path "/") slash) (mp_dirs m)) m);
  mret None.

(** ** memHandle *)

Definition get_off (h : N) : M memstore Z := λ s,
  match ms_offs s !! h with Some o => Some (o, s) | None => None end.
Definition put_off (h : N) (o : Z) : M memstore unit :=
  modw (λ s, set_offs (<[h := o]> (ms_offs s)) s).

(** A [*memHandle]: its file, the open flags (stored, never read again) and the
    address of its offset. *)
Record memHandle := { mh_file : N; mh_flags : Z; mh_addr : N }.

Definition memHandle_ReadAt (h : memHandle) (n off : Z) : M memstore (bytes * option err) :=
  f ← get_file (mh_file h);
  if blen (mf_data f) <=? off then mret ([], Some EOF)
  else
    rest ← liftp (slice_from (mf_data f) off);
    let got := take (Z.to_nat n) rest in
    if blen got <? n then mret (got, Some EOF) else mret (got, None).

Definition memHandle_Read (h : memHandle) (n : Z) : M memstore (bytes * option err) :=
  off ← get_off (mh_addr h);
  r ← memHandle_ReadAt h n off;
  _ ← put_off (mh_addr h) (int64 (off + blen (fst r)));
  mret r.

Definition memHandle_WriteAt (h : memHandle) (p : bytes) (off : Z) : M memstore (Z * option err) :=
  f ← get_file (mh_file h);
  let fin := int64 (off + blen p) in
  data ← (if blen (mf_data f) <? fin then
            newData ← liftp (make_bytes fin);
            mret (fst (copy_at newData 0 (mf_data f)))
          else mret (mf_data f));
  _ ← liftp (slice_from data off);
  let '(data', n) := copy_at data off p in
  now ← time_Now;
  _ ← put_file (mh_file h) (with_data now data' f);
  mret (n, None).

Definition memHandle_Write (h : memHandle) (p : bytes) : M memstore (Z * option err) :=
  off ← get_off (mh_addr h);
  r ← memHandle_WriteAt h p off;
  _ ← put_off (mh_addr h) (int64 (off + fst r));
  mret r.

(** [whence]: 0 from the start, 1 from the offset, 2 from the end. *)
Definition memHandle_Seek (h : memHandle) (offset whence : Z) : M memstore (Z * option err) :=
  f ← get_file (mh_file h);
  off ← get_off (mh_addr h);
  let size := blen (mf_data f) in
  let off := if whence =? 0 then offset
             else if whence =? 1 then int64 (off + offset)
             else if whence =? 2 then int64 (size + offset)
             else off in
  let off := if off <? 0 then 0 else off in
  _ ← put_off (mh_addr h) off;
  mret (off, None).

Definition memHandle_Stat (h : memHandle) : M memstore (result err FileInfo) :=
  f ← get_file (mh_file h);
  mret (Ok (NewFileInfo "" (blen (mf_data f)) (mf_mode f) (mf_modTime f) false)).

Definition memHandle_Sync (h : memHandle) : M memstore (option err) := mret None.

Definition memHandle_Truncate (h : memHandle) (size : Z) : M memstore (option err) :=
  f ← get_file (mh_file h);
  data ← (if size <? blen (mf_data f) then liftp (slice_to (mf_data f) size)
          else if blen (mf_data f) <? size then
            newData ← liftp (make_bytes size);
            mret (fst (copy_at newData 0 (mf_data f)))
          else mret (mf_data f));
  now ← time_Now;
  _ ← put_file (mh_file h) (with_data now data f);
  mret None.

Definition memHandle_Close (h : memHandle) : M memstore (option err) := mret None.

(** ** Opening files *)

Section open.
Context `{HostABI}.

Definition MemoryProvider_Open (p : N) (path : string) (flags mode : Z)
    : M memstore (result err memHandle) :=
  let path := MemoryProvider_normPath path in
  created ←
    (if has_flag flags O_CREATE then
       m ← get_fs p;
       match mp_files m !! path with
       | Some _ =>
           if has_flag flags O_EXCL then mret (Err (Errno EEXIST)) else mret (Ok tt)
       | None =>
           match mp_dirs m !! Dir path with
           | None => mret (Err (Errno ENOENT))
           | Some _ =>
               now ← time_Now;
               a ← new_file {| mf_data := []; mf_mode := mode; mf_modTime := now |};
               _ ← put_fs p (with_files (<[path := a]> (mp_files m)) m);
               mret (Ok tt)
           end
       end
     else mret (Ok tt));
  match created with
  | Err e => mret (Err e)
  | Ok _ =>
      m ← get_fs p;
      match mp_files m !! path with
      | None => mret (Err (Errno ENOENT))
      | Some a =>
          _ ← (if has_flag flags O_TRUNC && has_flag flags (Z.lor O_WRONLY O_RDWR) then
                 f ← get_file a;
                 now ← time_Now;
                 put_file a (with_data now [] f)
               else mret tt);
          h ← alloc;
          _ ← put_off h 0;
          mret (Ok {| mh_file := a; mh_flags := flags; mh_addr := h |})
      end
  end.

Definition MemoryProvider_Create (p : N) (path : string) (mode : Z)
    : M memstore (result err memHandle) :=
  MemoryProvider_Open p path (Z.lor (Z.lor O_CREATE O_RDWR) O_TRUNC) mode.
End open.

(** ** As interface values over any world that holds the store *)

Section iface.
Context `{HostABI} {W : Type} `{!Has memstore W}.

Definition mem_handle (h : memHandle) : Handle W := {|
  h_Read n := lift (memHandle_Read h n);
  h_ReadAt n off := lift (memHandle_ReadAt h n off);
  h_Write d := lift (memHandle_Write h d);
  h_WriteAt d off := lift (memHandle_WriteAt h d off);
  h_Seek off wh := lift (memHandle_Seek h off wh);
  h_Close := lift (memHandle_Close h);
  h_Stat := lift (memHandle_Stat h);
  h_Sync := lift (memHandle_Sync h);
  h_Truncate n := lift (memHandle_Truncate h n) |}.

Definition mem_opened (r : result err memHandle) : result err (Handle W) :=
  match r with Ok h => Ok (mem_handle h) | Err e => Err e end.

Definition mem_provider (p : N) : Provider W := {|
  Readonly := MemoryProvider_Readonly;
  Stat f := lift (MemoryProvider_Stat p f);
  ReadDir f := lift (MemoryProvider_ReadDir p f);
  Open f fl m := r ← lift (MemoryProvider_Open p f fl m); mret (mem_opened r);
  Create f m := r ← lift (MemoryProvider_Create p f m); mret (mem_opened r);
  Mkdir f m := lift (MemoryProvider_Mkdir p f m);
  Chmod f m := lift (MemoryProvider_Chmod p f m);
  Chtimes f a m := lift (MemoryProvider_Chtimes p f a m);
  Remove f := lift (MemoryProvider_Remove p f);
  RemoveAll f := lift (MemoryProvider_RemoveAll p f);
  Rename f g := lift (MemoryProvider_Rename p f g);
  Symlink f g := lift (MemoryProvider_Symlink f g);
  Readlink f := lift (MemoryProvider_Readlink f);
  Fsync f := lift (MemoryProvider_Fsync f) |}.

Definition mem_iface (p : N) : Iface W := {|
  iface_ops := mem_provider p;
  iface_id := p;
  iface_withCaller := None;
  iface_MkdirAll := Some (λ f m, lift (MemoryProvider_MkdirAll p f m)) |}.
End iface.

(** ** The byte-level specification of a file

    A file is its size and a byte for every offset, zero beyond the end. *)

Definition byte_at (d : bytes) (i : nat) : Ascii.ascii := nth i d zero_byte.

(** [d'] is [d] with [p] copied over the bytes at [off], the file grown to hold
    them. *)
Definition splice_spec (d : bytes) (off : nat) (p d' : bytes) : Prop :=
  length d' = Nat.max (length d) (off + length p) ∧
  ∀ i, byte_at d' i =
    if decide (off <= i < off + length p)%nat then byte_at p (i - off) else byte_at d i.

(** [d'] is [d] after [pwrite(p, off)]: a write of no bytes has no effect, wherever
    it is. *)
Definition pwrite_spec (d : bytes) (off : nat) (p d' : bytes) : Prop :=
  if decide (p = []) then d' = d else splice_spec d off p d'.

(** [d'] is [d] after [ftruncate(n)]. *)
Definition ftruncate_spec (d : bytes) (n : nat) (d' : bytes) : Prop :=
  length d' = n ∧ ∀ i, byte_at d' i = if decide (i < n)%nat then byte_at d i else zero_byte.

(** ** Slices *)

Lemma byte_at_ge d i : (length d <= i)%nat → byte_at d i = zero_byte.
Proof. apply nth_overflow. Qed.

Lemma byte_at_app d e i :
  byte_at (d ++ e) i = if decide (i < length d)%nat then byte_at d i else byte_at e (i - length d).
Proof.
  unfold byte_at. case_decide; [by apply app_nth1|apply app_nth2; lia].
Qed.

Lemma byte_at_take d n i :
  byte_at (take n d) i = if decide (i < n)%nat then byte_at d i else zero_byte.
Proof.
  unfold byte_at. rewrite nth_firstn. destruct (i <? n)%nat eqn:E.
  - apply Nat.ltb_lt in E. by rewrite decide_True.
  - apply Nat.ltb_ge in E. rewrite decide_False by lia. done.
Qed.

Lemma byte_at_drop d n i : byte_at (drop n d) i = byte_at d (n + i).
Proof. unfold byte_at. apply nth_skipn. Qed.

Lemma byte_at_replicate n i : byte_at (replicate n zero_byte) i = zero_byte.
Proof.
  unfold byte_at. revert i. induction n as [|n IH]; intros [|i]; cbn; auto.
Qed.

Lemma byte_at_ext d e :
  length d = length e → (∀ i, byte_at d i = byte_at e i) → d = e.
Proof. intros Hl H. apply (nth_ext d e zero_byte zero_byte Hl). intros. apply H. Qed.

#[export] Hint Rewrite byte_at_app byte_at_take byte_at_drop byte_at_replicate : bytes.

Lemma copy_at_spec d off p :
  (off + length p <= length d)%nat →
  let r := copy_at d (Z.of_nat off) p in
  snd r = blen p ∧ splice_spec d off p (fst r).
Proof.
  intros Hle. unfold copy_at, splice_spec. rewrite Nat2Z.id.
  replace (Nat.min (length p) (length d - off)) with (length p) by lia.
  cbn [fst snd]. rewrite (firstn_all p). split; [done|]. split.
  - rewrite !length_app, length_take, length_drop. lia.
  - intros i. rewrite !byte_at_app, byte_at_drop, byte_at_take, length_take.
    repeat case_decide; try lia; f_equal; try lia.
Qed.

(** Growing a file with zeros is [copy(newData, data)] into a fresh slice. *)
Lemma copy_grow d n :
  (length d <= n)%nat →
  fst (copy_at (replicate n zero_byte) 0 d) = d ++ replicate (n - length d) zero_byte.
Proof.
  intros Hle. unfold copy_at. cbn [fst]. change (Z.to_nat 0) with O.
  rewrite length_replicate, Nat.sub_0_r, Nat.min_l by done.
  by rewrite (firstn_all d), drop_replicate.
Qed.

Lemma byte_at_grow d n i : byte_at (d ++ replicate n zero_byte) i = byte_at d i.
Proof.
  rewrite byte_at_app, byte_at_replicate. case_decide; [done|].
  symmetry. apply byte_at_ge. lia.
Qed.

Lemma pwrite_grow d n off p d' :
  n = (off + length p - length d)%nat →
  splice_spec (d ++ replicate n zero_byte) off p d' → splice_spec d off p d'.
Proof.
  intros -> [Hl Hb]. split.
  - rewrite Hl, length_app, length_replicate. lia.
  - intros i. by rewrite Hb, byte_at_grow.
Qed.

Lemma make_bytes_Some n :
  0 <= n <= maxAlloc → make_bytes n = Some (replicate (Z.to_nat n) zero_byte).
Proof.
  intros [H1 H2]. unfold make_bytes.
  by rewrite (proj2 (Z.leb_le 0 n) H1), (proj2 (Z.leb_le n _) H2).
Qed.

Lemma make_bytes_None n : make_bytes n = None ↔ n < 0 ∨ maxAlloc < n.
Proof.
  unfold make_bytes. destruct (0 <=? n) eqn:E1, (n <=? maxAlloc) eqn:E2; cbn;
    rewrite ?Z.leb_le, ?Z.leb_gt in *; split; intros; try done; lia.
Qed.

Lemma slice_from_Some d i :
  0 <= i <= blen d → slice_from d i = Some (drop (Z.to_nat i) d).
Proof.
  intros [H1 H2]. unfold slice_from.
  by rewrite (proj2 (Z.leb_le 0 i) H1), (proj2 (Z.leb_le i _) H2).
Qed.

Lemma slice_from_None d i : slice_from d i = None ↔ i < 0 ∨ blen d < i.
Proof.
  unfold slice_from. destruct (0 <=? i) eqn:E1, (i <=? blen d) eqn:E2; cbn;
    rewrite ?Z.leb_le, ?Z.leb_gt in *; split; intros; try done; lia.
Qed.

(** ** Reading and writing through a handle *)

Ltac unfold_m := unfold mbind, M_bind, mret, M_ret, liftp, modw, getw.

Lemma get_file_run a s :
  get_file a s = match ms_heap s !! a with Some f => Some (f, s) | None => None end.
Proof. reflexivity. Qed.

Section handle.
Context (h : memHandle) (s : memstore) (f : memFile).
Hypothesis Hf : ms_heap s !! mh_file h = Some f.

Lemma memHandle_ReadAt_run n off :
  0 <= off →
  memHandle_ReadAt h n off s =
    let got := take (Z.to_nat n) (drop (Z.to_nat off) (mf_data f)) in
    Some ((got, if (blen (mf_data f) <=? off) || (blen got <? n) then Some EOF else None), s).
Proof using Hf.
  intros Hoff. unfold memHandle_ReadAt. unfold_m. rewrite get_file_run, Hf.
  destruct (blen (mf_data f) <=? off) eqn:E.
  - apply Z.leb_le in E. rewrite drop_ge, take_nil; [done|unfold blen in E; lia].
  - apply Z.leb_gt in E. rewrite slice_from_Some by lia. cbn [orb].
    by destruct (_ <? n).
Qed.

Lemma memHandle_WriteAt_run p off :
  0 <= off → off + blen p <= maxAlloc →
  ∃ d', splice_spec (mf_data f) (Z.to_nat off) p d' ∧
    memHandle_WriteAt h p off s =
      Some ((blen p, None),
            set_heap (<[mh_file h := with_data (ms_now s) d' f]> (ms_heap s)) s).
Proof using Hf.
  intros Hoff Hmax. pose proof (blen_nonneg p) as Hp. set (o := Z.to_nat off).
  assert (Hoz : off = Z.of_nat o) by lia.
  unfold memHandle_WriteAt. unfold_m. rewrite get_file_run, Hf.
  unfold maxAlloc in Hmax. rewrite int64_id by (unfold is_int64; lia).
  destruct (blen (mf_data f) <? off + blen p) eqn:E.
  - apply Z.ltb_lt in E. rewrite make_bytes_Some by (unfold maxAlloc; lia).
    replace (Z.to_nat (off + blen p)) with (o + length p)%nat by (unfold blen in *; lia).
    rewrite copy_grow by (unfold blen in *; lia).
    rewrite slice_from_Some
      by (unfold blen in *; rewrite length_app, length_replicate; lia).
    pose proof (copy_at_spec
      (mf_data f ++ replicate (o + length p - length (mf_data f)) zero_byte) o p) as Hc.
    cbv zeta in Hc. rewrite <- Hoz in Hc.
    destruct (copy_at _ off p) as [d' n]. cbn [fst snd] in Hc. destruct Hc as [-> Hc];
      [rewrite length_app, length_replicate; lia|].
    exists d'. split; [by eapply pwrite_grow|done].
  - apply Z.ltb_ge in E. rewrite slice_from_Some by (unfold blen in *; lia).
    pose proof (copy_at_spec (mf_data f) o p) as Hc. cbv zeta in Hc.
    rewrite <- Hoz in Hc. destruct (copy_at _ off p) as [d' n]. cbn [fst snd] in Hc.
    destruct Hc as [-> Hc]; [unfold blen in *; lia|]. by exists d'.
Qed.

Lemma memHandle_Truncate_run n :
  0 <= n <= maxAlloc →
  ∃ d', ftruncate_spec (mf_data f) (Z.to_nat n) d' ∧
    memHandle_Truncate h n s =
      Some (None, set_heap (<[mh_file h := with_data (ms_now s) d' f]> (ms_heap s)) s).
Proof using Hf.
  intros Hn. unfold memHandle_Truncate. unfold_m. rewrite get_file_run, Hf.
  destruct (n <? blen (mf_data f)) eqn:E.
  - apply Z.ltb_lt in E. unfold slice_to.
    rewrite (proj2 (Z.leb_le 0 n)), (proj2 (Z.leb_le n _)) by lia. cbn [andb].
    eexists. split; [|done]. split.
    + rewrite length_take. unfold blen in E. lia.
    + intros i. apply byte_at_take.
  - apply Z.ltb_ge in E. destruct (blen (mf_data f) <? n) eqn:E2.
    + apply Z.ltb_lt in E2. rewrite make_bytes_Some, copy_grow by (unfold blen in *; lia).
      eexists. split; [|done]. split.
      * rewrite length_app, length_replicate. unfold blen in *. lia.
      * intros i. rewrite byte_at_grow. case_decide; [done|].
        apply byte_at_ge. unfold blen in *. lia.
    + apply Z.ltb_ge in E2. eexists. split; [|done]. split; [unfold blen in *; lia|].
      intros i. case_decide; [done|]. apply byte_at_ge. unfold blen in *. lia.
Qed.

Lemma memHandle_ReadAt_panics n off : memHandle_ReadAt h n off s = None ↔ off < 0.
Proof using Hf.
  split.
  - intros H. destruct (Z_lt_le_dec off 0); [done|].
    by rewrite memHandle_ReadAt_run in H.
  - intros Hoff. unfold memHandle_ReadAt. unfold_m. rewrite get_file_run, Hf.
    pose proof (blen_nonneg (mf_data f)).
    rewrite (proj2 (Z.leb_gt _ off)) by lia.
    by rewrite (proj2 (slice_from_None _ _)) by lia.
Qed.

Lemma memHandle_WriteAt_panics p off :
  is_int64 off → blen p <= maxAlloc → blen (mf_data f) <= maxAlloc →
  memHandle_WriteAt h p off s = None ↔ off < 0 ∨ maxAlloc < off + blen p.
Proof using Hf.
  intros H64 Hp Hd. pose proof (blen_nonneg p). split.
  - intros H'. destruct (Z_lt_le_dec off 0); [by left|].
    destruct (Z_lt_le_dec maxAlloc (off + blen p)); [by right|].
    destruct (memHandle_WriteAt_run p off) as (d' & _ & Hr); [done..|]. congruence.
  - intros Hbad. unfold memHandle_WriteAt. unfold_m. rewrite get_file_run, Hf.
    unfold is_int64, maxAlloc in *. pose proof (blen_nonneg (mf_data f)).
    destruct (Z_lt_le_dec (off + blen p) (2 ^ 63)) as [Hs|Hs].
    + rewrite int64_id by (unfold is_int64; lia).
      destruct (blen (mf_data f) <? off + blen p) eqn:E.
      * destruct (make_bytes (off + blen p)) as [b|] eqn:Hm; [|done].
        assert (off < 0).
        { destruct Hbad as [?|Hbad]; [done|].
          assert (make_bytes (off + blen p) = None); [|congruence].
          apply make_bytes_None. unfold maxAlloc. lia. }
        by rewrite (proj2 (slice_from_None _ _)) by lia.
      * apply Z.ltb_ge in E. by rewrite (proj2 (slice_from_None _ _)) by lia.
    + assert (int64 (off + blen p) = off + blen p - 2 ^ 64) as ->.
      { unfold int64. replace (off + blen p + 2 ^ 63)
          with (off + blen p - 2 ^ 63 + 1 * 2 ^ 64) by lia.
        rewrite Z.mod_add, Z.mod_small by lia. lia. }
      rewrite (proj2 (Z.ltb_ge (blen (mf_data f)) _)) by lia.
      by rewrite (proj2 (slice_from_None _ _)) by lia.
Qed.

Lemma memHandle_Truncate_panics n :
  blen (mf_data f) <= maxAlloc →
  memHandle_Truncate h n s = None ↔ n < 0 ∨ maxAlloc < n.
Proof using Hf.
  intros Hd. split.
  - intros H'. destruct (Z_lt_le_dec n 0); [by left|].
    destruct (Z_lt_le_dec maxAlloc n); [by right|].
    destruct (memHandle_Truncate_run n) as (d' & _ & Hr); [done..|]. congruence.
  - intros Hbad. unfold memHandle_Truncate. unfold_m. rewrite get_file_run, Hf.
    pose proof (blen_nonneg (mf_data f)). destruct (n <? blen (mf_data f)) eqn:E.
    + apply Z.ltb_lt in E. unfold slice_to.
      by rewrite (proj2 (Z.leb_gt 0 n)) by lia.
    + apply Z.ltb_ge in E. rewrite (proj2 (Z.ltb_lt _ n)) by lia.
      by rewrite (proj2 (make_bytes_None n)) by lia.
Qed.
End handle.

(** ** Well-formed stores, and the operations as a step relation *)

(** Addresses in use are below the allocator; every path names a file on the heap,
    and no two paths (of one provider or of two) name the same file. *)
Record store_wf (s : memstore) : Prop := {
  wf_heap a : is_Some (ms_heap s !! a) → (a < ms_next s)%N;
  wf_offs a : is_Some (ms_offs s !! a) → (a < ms_next s)%N;
  wf_fs p : is_Some (ms_fs s !! p) → (p < ms_next s)%N;
  wf_files p m k a : ms_fs s !! p = Some m → mp_files m !! k = Some a → is_Some (ms_heap s !! a);
  wf_alias p1 m1 k1 p2 m2 k2 a :
    ms_fs s !! p1 = Some m1 → mp_files m1 !! k1 = Some a →
    ms_fs s !! p2 = Some m2 → mp_files m2 !! k2 = Some a → p1 = p2 ∧ k1 = k2 }.

(** The pointers of a handle are valid. *)
Definition handle_wf (s : memstore) (h : memHandle) : Prop :=
  is_Some (ms_heap s !! mh_file h) ∧ is_Some (ms_offs s !! mh_addr h).

Definition empty_store : memstore :=
  {| ms_now := 0; ms_heap := ∅; ms_offs := ∅; ms_next := 0%N; ms_fs := ∅ |}.

Section steps.
Context `{HostABI}.

Inductive mem_op : ∀ A, M memstore A → Prop :=
| op_new : mem_op _ NewMemoryProvider
| op_stat p f : mem_op _ (MemoryProvider_Stat p f)
| op_readdir p f : mem_op _ (MemoryProvider_ReadDir p f)
| op_open p f fl m : mem_op _ (MemoryProvider_Open p f fl m)
| op_create p f m : mem_op _ (MemoryProvider_Create p f m)
| op_mkdir p f m : mem_op _ (MemoryProvider_Mkdir p f m)
| op_mkdirall p f m : mem_op _ (MemoryProvider_MkdirAll p f m)
| op_chmod p f m : mem_op _ (MemoryProvider_Chmod p f m)
| op_chtimes p f a m : mem_op _ (MemoryProvider_Chtimes p f a m)
| op_remove p f : mem_op _ (MemoryProvider_Remove p f)
| op_removeall p f : mem_op _ (MemoryProvider_RemoveAll p f)
| op_rename p f g : mem_op _ (MemoryProvider_Rename p f g)
| op_writefile p f d m : mem_op _ (MemoryProvider_WriteFile p f d m)
| op_readfile p f : mem_op _ (MemoryProvider_ReadFile p f)
| op_read h n : mem_op _ (memHandle_Read h n)
| op_readat h n off : mem_op _ (memHandle_ReadAt h n off)
| op_write h d : mem_op _ (memHandle_Write h d)
| op_writeat h d off : mem_op _ (memHandle_WriteAt h d off)
| op_seek h off wh : mem_op _ (memHandle_Seek h off wh)
| op_hstat h : mem_op _ (memHandle_Stat h)
| op_truncate h n : mem_op _ (memHandle_Truncate h n).

Inductive mem_step (s : memstore) : memstore → Prop :=
| step_tick t : mem_step s
    {| ms_now := t; ms_heap := ms_heap s; ms_offs := ms_offs s; ms_next := ms_next s;
       ms_fs := ms_fs s |}
| step_op A (m : M memstore A) a s' : mem_op A m → m s = Some (a, s') → mem_step s s'.

(** The stores a program starting with no file system reaches. *)
Definition mem_reachable (s : memstore) : Prop := rtc mem_step empty_store s.
End steps.

(** *** The elementary changes of the store *)

Lemma wf_put_file s a f :
  store_wf s → is_Some (ms_heap s !! a) → store_wf (set_heap (<[a := f]> (ms_heap s)) s).
Proof.
  intros [Hh Ho Hp Hf Ha] Hs. split; cbn; intros; eauto.
  - rewrite lookup_insert_is_Some in *. naive_solver.
  - rewrite lookup_insert_is_Some. destruct (decide (a = a0)); naive_solver.
Qed.

Lemma wf_put_off s h o :
  store_wf s → (h < ms_next s)%N → store_wf (set_offs (<[h := o]> (ms_offs s)) s).
Proof.
  intros [Hh Ho Hp Hf Ha] Hs. split; cbn; intros; eauto.
  rewrite lookup_insert_is_Some in *. naive_solver.
Qed.

Lemma wf_next s n : store_wf s → (ms_next s <= n)%N → store_wf (set_next n s).
Proof.
  intros [Hh Ho Hp Hf Ha] Hn. split; cbn; intros; eauto.
  - apply Hh in H. lia.
  - apply Ho in H. lia.
  - apply Hp in H. lia.
Qed.

(** The files of one provider change to [m'], whose files come from [m], each
    at most once. *)
Lemma wf_put_fs s p m m' :
  store_wf s → ms_fs s !! p = Some m →
  (∀ k a, mp_files m' !! k = Some a → ∃ k0, mp_files m !! k0 = Some a) →
  (∀ k1 k2 a, mp_files m' !! k1 = Some a → mp_files m' !! k2 = Some a → k1 = k2) →
  store_wf (set_fs (<[p := m']> (ms_fs s)) s).
Proof.
  intros [Hh Ho Hp Hf Ha] Hm Hsub Hinj. split; cbn; intros; eauto.
  - rewrite lookup_insert_is_Some in *. naive_solver.
  - rewrite lookup_insert_Some in *. naive_solver.
  - rewrite !lookup_insert_Some in *.
    destruct H as [[<- <-]|[? ?]], H1 as [[<- <-]|[? ?]]; eauto.
    + apply Hsub in H0 as [k0 ?].
      destruct (Ha p m k0 p2 m2 k2 a) as [-> _]; naive_solver.
    + apply Hsub in H2 as [k0 ?].
      destruct (Ha p m k0 p1 m1 k1 a) as [-> _]; naive_solver.
Qed.

(** A fresh file under a path of provider [p]. *)
Lemma wf_new_file s p m k f :
  store_wf s → ms_fs s !! p = Some m →
  store_wf (set_fs (<[p := with_files (<[k := ms_next s]> (mp_files m)) m]> (ms_fs s))
              (set_heap (<[ms_next s := f]> (ms_heap s)) (set_next (N.succ (ms_next s)) s))).
Proof.
  intros [Hh Ho Hp Hf Ha] Hm.
  assert (Hfresh : ∀ q mq k', ms_fs s !! q = Some mq → mp_files mq !! k' = Some (ms_next s) → False).
  { intros q mq k' H1 H2. specialize (Hh _ (Hf _ _ _ _ H1 H2)). lia. }
  split; cbn; intros.
  - rewrite lookup_insert_is_Some in *. destruct H as [->|[_ H]]; [lia|apply Hh in H; lia].
  - apply Ho in H. lia.
  - rewrite lookup_insert_is_Some in *. destruct H as [<-|[_ H]].
    + assert (is_Some (ms_fs s !! p)) as H by eauto. apply Hp in H. lia.
    + apply Hp in H. lia.
  - rewrite lookup_insert_is_Some. destruct (decide (ms_next s = a)); [by left|right].
    split; [done|]. rewrite lookup_insert_Some in H. destruct H as [[<- <-]|[? ?]]; [|eauto].
    cbn in H0. rewrite lookup_insert_Some in H0. naive_solver.
  - rewrite !lookup_insert_Some in *.
    destruct H as [[<- <-]|[? ?]], H1 as [[<- <-]|[? ?]]; cbn in *;
      rewrite ?lookup_insert_Some in *;
      repeat match goal with H : _ ∨ _ |- _ => destruct H as [[<- <-]|[? ?]] end; eauto;
      try (exfalso; by eauto); naive_solver.
Qed.

Lemma store_wf_empty : store_wf empty_store.
Proof. split; cbn; intros; rewrite ?lookup_empty in *; try done; by destruct H. Qed.

#[export] Hint Resolve wf_put_file wf_put_off wf_next store_wf_empty : matchlock.

(** Unfold a run of the store monad into the branches the code takes. *)
Ltac mem_run H :=
  unfold NewMemoryProvider, MemoryProvider_Stat, MemoryProvider_ReadDir,
    MemoryProvider_Create, MemoryProvider_Open, MemoryProvider_Mkdir,
    MemoryProvider_MkdirAll, MemoryProvider_Chmod, MemoryProvider_Chtimes,
    MemoryProvider_Remove, MemoryProvider_RemoveAll, MemoryProvider_Rename,
    MemoryProvider_WriteFile, MemoryProvider_ReadFile,
    memHandle_Read, memHandle_ReadAt, memHandle_Write, memHandle_WriteAt,
    memHandle_Seek, memHandle_Stat, memHandle_Truncate,
    get_fs, put_fs, get_file, put_file, get_off, put_off, new_file, alloc, time_Now in H;
  unfold mbind, M_bind, mret, M_ret, liftp, modw, getw in H;
  simplify_eq/=; repeat (case_match; simplify_eq/=).

Lemma wf_put_fs_sub s p m m' :
  store_wf s → ms_fs s !! p = Some m →
  (∀ k a, mp_files m' !! k = Some a → mp_files m !! k = Some a) →
  store_wf (set_fs (<[p := m']> (ms_fs s)) s).
Proof.
  intros Hwf Hm Hsub. eapply wf_put_fs; eauto.
  intros k1 k2 a H1 H2. by apply (wf_alias s Hwf p m k1 p m k2 a); auto.
Qed.

Lemma wf_put_fs_dirs s p m d :
  store_wf s → ms_fs s !! p = Some m → store_wf (set_fs (<[p := with_dirs d m]> (ms_fs s)) s).
Proof. intros. by eapply wf_put_fs_sub. Qed.

Lemma wf_rename s p m old new a :
  store_wf s → ms_fs s !! p = Some m → mp_files m !! old = Some a →
  store_wf (set_fs (<[p := with_files (<[new := a]> (delete old (mp_files m))) m]> (ms_fs s)) s).
Proof.
  intros Hwf Hm Ha. eapply wf_put_fs; [done..| |]; cbn.
  - intros k b. rewrite lookup_insert_Some, lookup_delete_Some. naive_solver.
  - intros k1 k2 b. rewrite !lookup_insert_Some, !lookup_delete_Some.
    assert (∀ k, mp_files m !! k = Some a → k = old) as Hold.
    { intros k Hk. by apply (wf_alias s Hwf p m k p m old a). }
    intros [[<- <-]|[? [? H1]]] [[<- Hb]|[? [? H2]]]; subst;
      try done; try (by apply Hold in H1); try (by apply Hold in H2).
    by apply (wf_alias s Hwf p m k1 p m k2 b).
Qed.

Lemma wf_new_provider s m :
  store_wf s → mp_files m = ∅ →
  store_wf (set_fs (<[ms_next s := m]> (ms_fs s)) (set_next (N.succ (ms_next s)) s)).
Proof.
  intros [Hh Ho Hp Hf Ha] Hm. split; cbn; intros.
  - apply Hh in H. lia.
  - apply Ho in H. lia.
  - rewrite lookup_insert_is_Some in H. destruct H as [<-|[_ H]]; [lia|apply Hp in H; lia].
  - rewrite lookup_insert_Some in H. destruct H as [[<- <-]|[_ H]]; [|eauto].
    by rewrite Hm in H0.
  - rewrite !lookup_insert_Some in *.
    destruct H as [[<- <-]|[? ?]], H1 as [[<- <-]|[? ?]];
      try (by rewrite Hm in H0); try (by rewrite Hm in H2); eauto.
Qed.

Lemma wf_new_handle s o :
  store_wf s →
  store_wf (set_offs (<[ms_next s := o]> (ms_offs s)) (set_next (N.succ (ms_next s)) s)).
Proof.
  intros Hwf. apply (wf_put_off (set_next (N.succ (ms_next s)) s) (ms_next s) o); cbn; [|lia].
  apply wf_next; [done|lia].
Qed.

#[export] Hint Resolve wf_put_fs_dirs wf_rename wf_new_file wf_new_handle : matchlock.

(** Peel the changes of the store off the goal, last first. *)
Ltac wf_peel :=
  repeat match goal with
  | |- store_wf (set_offs (<[ms_next ?S := ?o]> _) (set_next _ ?X)) =>
      apply (wf_new_handle X o)
  | |- store_wf (set_fs (<[?p := with_files (<[?k := _]> (mp_files ?m)) _]> _)
                   (set_heap (<[_ := ?f]> _) (set_next _ ?X))) =>
      apply (wf_new_file X p m k f)
  | |- store_wf (set_fs (<[?p := with_files (<[?new := ?a]> (delete ?old _)) ?m]> _) ?X) =>
      apply (wf_rename X p m old new a)
  | |- store_wf (set_fs (<[?p := with_dirs ?d ?m]> _) ?X) => apply (wf_put_fs_dirs X p m d)
  | |- store_wf (set_fs (<[?p := ?m']> _) (set_next _ ?X)) => apply (wf_new_provider X m')
  | |- store_wf (set_fs (<[?p := ?m']> _) ?X) => eapply (wf_put_fs_sub X p _ m')
  | |- store_wf (set_heap (<[?a := ?f]> _) ?X) => apply (wf_put_file X a f)
  | |- store_wf (set_offs (<[?h := ?o]> _) ?X) => apply (wf_put_off X h o)
  end.

Section invariant.
Context `{HostABI}.

Lemma Open_wf p f fl m s r s' :
  store_wf s → MemoryProvider_Open p f fl m s = Some (r, s') →
  store_wf s' ∧ ∀ h, r = Ok h → handle_wf s' h.
Proof.
  intros Hwf Hr. unfold MemoryProvider_Open in Hr.
  apply M_bind_Some in Hr as (c & s1 & H1 & H2).
  assert (Hwf1 : store_wf s1).
  { mem_run H1; wf_peel; eauto. }
  clear Hwf H1 s. mem_run H2; (split; [wf_peel; eauto|]); try done;
    intros ? [= <-]; split; cbn; rewrite ?lookup_insert_is_Some;
    match goal with Hw : store_wf ?s |- _ => pose proof (wf_files s Hw) end;
    eauto.
Qed.

Lemma mem_op_wf A (m : M memstore A) a s s' :
  mem_op A m → store_wf s → m s = Some (a, s') → store_wf s'.
Proof.
  intros Hop Hwf Hr. destruct Hop;
    try (by eapply Open_wf in Hr as [? _]);
    mem_run Hr; wf_peel; cbn; eauto;
    try match goal with
    | Ho : ms_offs ?s !! ?h = Some _, Hw : store_wf ?s |- (?h < ms_next ?s)%N =>
        apply (wf_offs s Hw); by rewrite Ho
    end.
  - intros k b. rewrite lookup_delete_Some. naive_solver.
  - intros k b. rewrite map_lookup_filter_Some. naive_solver.
Qed.

Lemma mem_step_wf s s' : mem_step s s' → store_wf s → store_wf s'.
Proof.
  intros [t|A m a s1 Hop Hr] Hwf; [by destruct Hwf|by eapply mem_op_wf].
Qed.

Lemma reachable_wf s : mem_reachable s → store_wf s.
Proof.
  intros Hr. unfold mem_reachable in Hr.
  remember empty_store as s0 eqn:E. assert (store_wf s0) as Hwf by (subst; auto with matchlock).
  clear E. induction Hr; eauto using mem_step_wf.
Qed.

(** C38: whatever sequence of operations a program makes on its in-memory file
    systems, files and handles (with the clock advancing arbitrarily in between),
    every path names a live file object, no two paths of any provider ever alias
    one file, and no address is handed out twice. *)
Theorem mem_reachable_wf s : mem_reachable s → store_wf s.
Proof. apply reachable_wf. Qed.
End invariant.

Lemma mem_reachable_wf_witness :
  store_wf (snd (default (0%N, empty_store) (NewMemoryProvider empty_store))).
Proof.
  apply (@mem_reachable_wf linux_abi). eapply rtc_once, step_op; [apply op_new|reflexivity].
Defined.
