(* ===== verification/VfsMemorySpec.v ===== *)
(** * What the in-memory file system promises

    Theorems about the operations of [VfsMemory]: directory listings are exact,
    no operation on a path ever panics, data survives renaming and unlinking while
    a handle is open, and the offsets that do panic are exactly known. *)

From S2P Require Import Prelude GoStrings GoPath VfsBase VfsMemory.

(** ** Directory listings *)

(** The entry of a directory (with its slash) that the key [k] below it makes. *)
Definition child_name (prefix k : string) : string :=
  default "" (head (SplitN 2 (TrimPrefix k prefix) slash)).

Lemma SplitN_2 s c :
  SplitN 2 s c = match Cut s c with Some (b, a) => [b; a] | None => [s] end.
Proof. cbn. by destruct (Cut s c) as [[]|]. Qed.

Definition entry_names (es : list DirEntry) : list string := de_name <$> es.

Lemma readdir_files_total prefix now heap fs seen :
  Forall (λ ka, is_Some (heap !! ka.2)) fs →
  is_Some (readdir_files prefix now heap fs seen).
Proof.
  intros Hall. revert seen. induction Hall as [|[k a] fs [f Hf] _ IH]; intros seen; [by eauto|].
  cbn [readdir_files]. case_match; [by apply IH|]. rewrite SplitN_2.
  cbn in Hf. rewrite Hf. destruct (Cut _ _) as [[b c]|]; (case_decide; [by apply IH|]); cbn;
    match goal with |- context [readdir_files _ _ _ _ ?sn] => destruct (IH sn) as [[es sn'] ->] end;
    eauto.
Qed.

(** One more name in front: the bookkeeping of both loops. *)
Lemma names_cons (nm : string) (es : list DirEntry) (seen seen' : gset string) e (P : string → Prop) :
  de_name e = nm → nm ∉ seen →
  NoDup (entry_names es) →
  (∀ n, n ∈ entry_names es → n ∉ {[nm]} ∪ seen) →
  (∀ n, n ∈ seen' ↔ n ∈ {[nm]} ∪ seen ∨ n ∈ entry_names es) →
  (∀ n, n ∈ seen' ↔ n ∈ {[nm]} ∪ seen ∨ P n) →
  NoDup (entry_names (e :: es)) ∧
  (∀ n, n ∈ entry_names (e :: es) → n ∉ seen) ∧
  (∀ n, n ∈ seen' ↔ n ∈ seen ∨ n ∈ entry_names (e :: es)) ∧
  (∀ n, n ∈ seen' ↔ n ∈ seen ∨ n = nm ∨ P n).
Proof.
  intros <- Hs H1 H2 H3 H4. change (entry_names (e :: es)) with (de_name e :: entry_names es).
  setoid_rewrite elem_of_union in H2. setoid_rewrite elem_of_union in H3.
  setoid_rewrite elem_of_union in H4. setoid_rewrite elem_of_singleton in H2.
  setoid_rewrite elem_of_singleton in H3. setoid_rewrite elem_of_singleton in H4.
  setoid_rewrite elem_of_cons. split_and!.
  - constructor; [|done]. intros Hin. apply (H2 _ Hin). by left.
  - intros n [->|Hin]; [done|]. specialize (H2 n Hin). tauto.
  - intros n. rewrite H3. tauto.
  - intros n. rewrite H4. tauto.
Qed.

Lemma readdir_files_names prefix now heap fs seen es seen' :
  readdir_files prefix now heap fs seen = Some (es, seen') →
  NoDup (entry_names es) ∧
  (∀ n, n ∈ entry_names es → n ∉ seen) ∧
  (∀ n, n ∈ seen' ↔ n ∈ seen ∨ n ∈ entry_names es) ∧
  (∀ n, n ∈ seen' ↔ n ∈ seen ∨
     ∃ ka, ka ∈ fs ∧ HasPrefix ka.1 prefix = true ∧ child_name prefix ka.1 = n).
Proof.
  revert seen es seen'. induction fs as [|[k a] fs IH]; intros seen es seen' H.
  { cbn in H. simplify_eq. split; [constructor|]. set_solver. }
  cbn [readdir_files] in H.
  destruct (HasPrefix k prefix) eqn:Hk; cbn [negb] in H.
  2:{ destruct (IH _ _ _ H) as (H1 & H2 & H3 & H4). split_and!; try done.
      intros n. rewrite H4. setoid_rewrite elem_of_cons. split; [naive_solver|].
      intros [?|(ka & [->|?] & ? & ?)]; [naive_solver|cbn in *; congruence|naive_solver]. }
  rewrite SplitN_2 in H.
  assert (Hname : child_name prefix k =
    match Cut (TrimPrefix k prefix) slash with Some (b, _) => b | None => TrimPrefix k prefix end).
  { unfold child_name. rewrite SplitN_2. by destruct (Cut _ _) as [[]|]. }
  assert (Hcons : ∀ n, (∃ ka, ka ∈ (k, a) :: fs ∧ HasPrefix ka.1 prefix = true ∧ child_name prefix ka.1 = n)
    ↔ n = child_name prefix k ∨ (∃ ka, ka ∈ fs ∧ HasPrefix ka.1 prefix = true ∧ child_name prefix ka.1 = n)).
  { intros n. setoid_rewrite elem_of_cons. split.
    - intros (ka & [->|?] & ? & ?); [by left|right; eauto].
    - intros [->|(ka & ? & ? & ?)]; eauto. }
  setoid_rewrite Hcons. clear Hcons.
  destruct (Cut _ _) as [[b c]|]; rewrite <- Hname in H; case_decide as Hseen;
    first [ destruct (IH _ _ _ H) as (H1 & H2 & H3 & H4); split_and!; [done..|];
            intros n; rewrite H4; naive_solver | idtac ].
  - destruct (readdir_files _ _ _ _ _) as [[es1 sn1]|] eqn:Hrec; [|done].
    destruct (IH _ _ _ Hrec) as (H1 & H2 & H3 & H4). simplify_eq.
    by eapply (names_cons _ _ _ _ _
      (λ n, ∃ ka, ka ∈ fs ∧ HasPrefix ka.1 prefix = true ∧ child_name prefix ka.1 = n)).
  - destruct (heap !! a) as [f|]; [|done]. cbn in H.
    destruct (readdir_files _ _ _ _ _) as [[es1 sn1]|] eqn:Hrec; [|done].
    destruct (IH _ _ _ Hrec) as (H1 & H2 & H3 & H4). simplify_eq.
    by eapply (names_cons _ _ _ _ _
      (λ n, ∃ ka, ka ∈ fs ∧ HasPrefix ka.1 prefix = true ∧ child_name prefix ka.1 = n)).
Qed.

Lemma readdir_dirs_names path prefix now ds seen :
  let ns := entry_names (readdir_dirs path prefix now ds seen) in
  NoDup ns ∧ (∀ n, n ∈ ns → n ∉ seen) ∧
  (∀ n, n ∈ seen ∨ n ∈ ns ↔ n ∈ seen ∨
     ∃ k, k ∈ ds ∧ HasPrefix k prefix = true ∧ k ≠ path ∧ child_name prefix k = n).
Proof.
  revert seen. induction ds as [|k ds IH]; intros seen; cbn [readdir_dirs].
  { split; [constructor|]. cbn. set_solver. }
  assert (Hcons : ∀ n,
    (∃ k0, k0 ∈ k :: ds ∧ HasPrefix k0 prefix = true ∧ k0 ≠ path ∧ child_name prefix k0 = n)
    ↔ (HasPrefix k prefix = true ∧ k ≠ path ∧ n = child_name prefix k)
      ∨ (∃ k0, k0 ∈ ds ∧ HasPrefix k0 prefix = true ∧ k0 ≠ path ∧ child_name prefix k0 = n)).
  { intros n. setoid_rewrite elem_of_cons. split.
    - intros (k0 & [->|?] & ? & ? & ?); [by left|right; eauto].
    - intros [(?&?&->)|(k0 & ? & ? & ? & ?)]; eauto 6. }
  cbv zeta. setoid_rewrite Hcons. clear Hcons. fold (child_name prefix k).
  destruct (negb (HasPrefix k prefix) || bool_decide (k = path)) eqn:E.
  - destruct (IH seen) as (H1 & H2 & H3). split_and!; [done..|].
    intros n. rewrite H3. apply orb_true_iff in E as [E%negb_true_iff|E%bool_decide_eq_true];
      naive_solver congruence.
  - apply orb_false_iff in E as [E1%negb_false_iff E2%bool_decide_eq_false].
    case_decide as Hs.
    + destruct (IH seen) as (H1 & H2 & H3). split_and!; [done..|].
      intros n. rewrite H3. naive_solver.
    + destruct (IH ({[child_name prefix k]} ∪ seen)) as (H1 & H2 & H3). cbn.
      split_and!; [constructor; [intros Hin; apply H2 in Hin; set_solver|done]| |].
      * intros n [->|Hin]%elem_of_cons; [done|]. apply H2 in Hin. set_solver.
      * intros n. specialize (H3 n). rewrite elem_of_union, elem_of_singleton in H3.
        rewrite elem_of_cons. fold (entry_names (readdir_dirs path prefix now ds ({[child_name prefix k]} ∪ seen))).
        clear -H3 E1 E2. tauto.
Qed.

Definition dir_prefix (path : string) : string :=
  if decide (path ≠ "/") then path +:+ "/" else path.

(** The key [k] is the child [name] of the directory [path] (normalised), or lies
    below that child. *)
Definition below (path name k : string) : Prop :=
  ∃ rest, k = dir_prefix path +:+ (name +:+ rest) ∧ contains_byte slash name = false ∧
    (rest = "" ∨ ∃ r, rest = String slash r).

Definition child_of (m : memfs) (path name : string) : Prop :=
  (∃ k, is_Some (mp_files m !! k) ∧ below path name k)
  ∨ (∃ k, is_Some (mp_dirs m !! k) ∧ k ≠ path ∧ below path name k).

Lemma Cut_unique s c n rest :
  contains_byte c n = false → s = n +:+ rest → (rest = "" ∨ ∃ r, rest = String c r) →
  Cut s c = match rest with "" => None | String _ r => Some (n, r) end.
Proof.
  intros Hn -> Hr. induction n as [|d n IH].
  - rewrite sapp_nil_l. destruct Hr as [->|[r ->]]; [done|]. cbn. by rewrite decide_True.
  - cbn [contains_byte] in Hn. apply orb_false_iff in Hn as [Hd%bool_decide_eq_false Hn].
    rewrite sapp_cons. cbn [Cut]. rewrite decide_False, IH by done.
    by destruct Hr as [->|[r ->]].
Qed.

Lemma Cut_shape s c :
  match Cut s c with
  | Some (b, a) => s = b +:+ String c a ∧ contains_byte c b = false
  | None => contains_byte c s = false
  end.
Proof.
  induction s as [|d s IH]; [done|]. cbn [Cut contains_byte].
  case_decide as Hd; [by subst|].
  destruct (Cut s c) as [[b a]|]; cbn [contains_byte]; rewrite bool_decide_eq_false_2 by done.
  - destruct IH as [-> ?]. by rewrite sapp_cons.
  - done.
Qed.

Lemma below_child_name path n k :
  below path n k ↔ HasPrefix k (dir_prefix path) = true ∧ child_name (dir_prefix path) k = n.
Proof.
  unfold below, child_name. rewrite SplitN_2. split.
  - intros (rest & -> & Hn & Hr). rewrite HasPrefix_app, TrimPrefix_app.
    split; [done|]. rewrite (Cut_unique _ slash n rest) by done.
    destruct Hr as [->|[r ->]]; cbn; [apply sapp_nil_r|done].
  - intros [(r & ->)%HasPrefix_spec <-]. rewrite TrimPrefix_app.
    pose proof (Cut_shape r slash) as Hc. destruct (Cut r slash) as [[b a]|]; cbn.
    + destruct Hc as [-> ?]. exists (String slash a). eauto.
    + exists "". rewrite sapp_nil_r. eauto.
Qed.

Lemma files_live s p m :
  store_wf s → ms_fs s !! p = Some m →
  Forall (λ ka, is_Some (ms_heap s !! ka.2)) (map_to_list (mp_files m)).
Proof.
  intros Hwf Hm. apply Forall_forall. intros [k a] Hin.
  apply elem_of_map_to_list in Hin. by eapply (wf_files s Hwf).
Qed.

(** Listing a directory of a well-formed store succeeds without changing
    anything and returns each child exactly once: no name twice, and precisely the
    names under which a file or directory key lies below the path. The order in
    which Go ranges over its maps plays no part in the statement. *)
Theorem mem_ReadDir_exact s p m path :
  store_wf s → ms_fs s !! p = Some m →
  is_Some (mp_dirs m !! MemoryProvider_normPath path) →
  ∃ es, MemoryProvider_ReadDir p path s = Some (Ok es, s) ∧
    NoDup (entry_names es) ∧
    ∀ n, n ∈ entry_names es ↔ child_of m (MemoryProvider_normPath path) n.
Proof.
  intros Hwf Hm [mode Hd]. unfold MemoryProvider_ReadDir, get_fs.
  unfold mbind, M_bind, mret, M_ret, getw, liftp. rewrite Hm, Hd.
  set (q := MemoryProvider_normPath path). fold (dir_prefix q).
  destruct (readdir_files_total (dir_prefix q) (ms_now s) (ms_heap s) _ ∅ (files_live s p m Hwf Hm))
    as [[es seen] Hfs]. rewrite Hfs.
  eexists. split; [done|].
  destruct (readdir_files_names _ _ _ _ _ _ _ Hfs) as (H1 & H2 & H3 & H4).
  destruct (readdir_dirs_names q (dir_prefix q) (ms_now s) (map_to_list (mp_dirs m)).*1 seen)
    as (H5 & H6 & H7).
  unfold entry_names in *. rewrite fmap_app. split.
  - apply NoDup_app. split_and!; [done| |done].
    intros n Hn Hn'. apply H6 in Hn'. apply Hn', H3. by right.
  - intros n. rewrite elem_of_app.
    assert (n ∈ de_name <$> es ↔ n ∈ seen) as -> by (rewrite H3; set_solver).
    rewrite H7, H4. unfold child_of. setoid_rewrite below_child_name. f_equiv.
    + split.
      * intros [?|([k a] & Hin & ? & ?)]; [set_solver|].
        apply elem_of_map_to_list in Hin. exists k. cbn in *. eauto.
      * intros (k & [a Ha] & ? & ?). right. exists (k, a).
        split; [by apply elem_of_map_to_list|done].
    + split.
      * intros (k & Hin & ? & ? & ?). apply list_elem_of_fmap in Hin as ([k' a] & -> & Hin).
        apply elem_of_map_to_list in Hin. exists k'. cbn in *. eauto.
      * intros (k & [a Ha] & ? & ? & ?). exists k. split; [|done].
        apply list_elem_of_fmap. exists (k, a). split; [done|by apply elem_of_map_to_list].
Qed.

(** ** No operation on a path panics *)

Section paths.
Context `{HostABI}.

(** The operations a client makes on provider [p] by path. *)
Inductive path_op (p : N) : ∀ A, M memstore A → Prop :=
| po_stat f : path_op p _ (MemoryProvider_Stat p f)
| po_readdir f : path_op p _ (MemoryProvider_ReadDir p f)
| po_open f fl m : path_op p _ (MemoryProvider_Open p f fl m)
| po_create f m : path_op p _ (MemoryProvider_Create p f m)
| po_mkdir f m : path_op p _ (MemoryProvider_Mkdir p f m)
| po_mkdirall f m : path_op p _ (MemoryProvider_MkdirAll p f m)
| po_chmod f m : path_op p _ (MemoryProvider_Chmod p f m)
| po_chtimes f a m : path_op p _ (MemoryProvider_Chtimes p f a m)
| po_remove f : path_op p _ (MemoryProvider_Remove p f)
| po_removeall f : path_op p _ (MemoryProvider_RemoveAll p f)
| po_rename f g : path_op p _ (MemoryProvider_Rename p f g)
| po_writefile f d m : path_op p _ (MemoryProvider_WriteFile p f d m)
| po_readfile f : path_op p _ (MemoryProvider_ReadFile p f).

Lemma Open_total p f fl m s :
  store_wf s → is_Some (ms_fs s !! p) → is_Some (MemoryProvider_Open p f fl m s).
Proof.
  intros Hwf [fs Hfs]. unfold MemoryProvider_Open.
  match goal with |- is_Some ((?x ≫= _) _) => set (create := x) end.
  assert (∃ c s1 fs1, create s = Some (c, s1)
            ∧ store_wf s1 ∧ ms_fs s1 !! p = Some fs1) as (c & s1 & fs1 & Hc & Hwf1 & Hp).
  { unfold create. destruct (has_flag fl O_CREATE); [|do 3 eexists; split_and!; [reflexivity|done..]].
    unfold mbind, M_bind, get_fs. rewrite Hfs.
    destruct (mp_files fs !! _) eqn:E1.
    { destruct (has_flag fl O_EXCL); do 3 eexists; split_and!; try reflexivity; done. }
    destruct (mp_dirs fs !! _) eqn:E2; (do 3 eexists; split_and!; [reflexivity|..]); try done.
    - cbv beta. wf_peel; done.
    - apply lookup_insert_eq. }
  unfold mbind at 1, M_bind at 1. rewrite Hc.
  destruct c as [[]|]; [|by eauto].
  unfold mbind, M_bind, get_fs. rewrite Hp.
  destruct (mp_files fs1 !! _) as [a|] eqn:Ea; [|by eexists].
  destruct (wf_files s1 Hwf1 _ _ _ _ Hp Ea) as [fl1 Hfl1].
  unfold get_file, mret, M_ret.
  destruct (_ && _); [rewrite Hfl1|]; by eexists.
Qed.

(** On a well-formed store, an operation that names files by path never panics,
    whatever the path, flags, mode and times the guest sends: it returns a value or
    an error (in Go, the host process survives it). *)
Theorem mem_path_op_total p A (m : M memstore A) s :
  path_op p A m → store_wf s → is_Some (ms_fs s !! p) → is_Some (m s).
Proof.
  intros Hop Hwf Hp. pose proof Hp as [fs Hfs]. pose proof (wf_files s Hwf p fs) as Hlive.
  destruct Hop; try (by apply Open_total);
    unfold MemoryProvider_Stat, MemoryProvider_ReadDir, MemoryProvider_Mkdir,
      MemoryProvider_MkdirAll, MemoryProvider_Chmod, MemoryProvider_Chtimes,
      MemoryProvider_Remove, MemoryProvider_RemoveAll, MemoryProvider_Rename,
      MemoryProvider_WriteFile, MemoryProvider_ReadFile,
      get_fs, put_fs, get_file, put_file, new_file, alloc, time_Now;
    unfold mbind, M_bind, mret, M_ret, liftp, modw, getw; rewrite Hfs;
    repeat case_match; simplify_eq; try (by eexists);
    match goal with
    | Hk : mp_files fs !! ?k = Some ?a, Hn : ms_heap s !! ?a = None |- _ =>
        destruct (Hlive k a Hfs Hk); congruence
    | Hr : readdir_files ?a ?b ?c _ ?e = None |- _ =>
        destruct (readdir_files_total a b c _ e (files_live s p fs Hwf Hfs)); congruence
    end.
Qed.
End paths.

(** One provider, empty but for its root. *)
Definition fresh_store : memstore := snd (default (0%N, empty_store) (NewMemoryProvider empty_store)).

Lemma fresh_store_reachable `{HostABI} : mem_reachable fresh_store.
Proof. eapply rtc_once, step_op; [apply op_new|reflexivity]. Qed.

Lemma fresh_store_wf `{HostABI} : store_wf fresh_store.
Proof. apply reachable_wf, fresh_store_reachable. Qed.

Lemma mem_path_op_total_witness :
  is_Some (MemoryProvider_Rename 0 "/../a" "//b/" fresh_store) ∧
  MemoryProvider_Rename 0 "/../a" "//b/" fresh_store = Some (Some (Errno ENOENT), fresh_store).
Proof.
  split; [|reflexivity].
  apply (@mem_path_op_total linux_abi 0%N _ (MemoryProvider_Rename 0 "/../a" "//b/"));
    [constructor|apply (@fresh_store_wf linux_abi)|by eexists].
Defined.

Lemma mem_ReadDir_exact_witness :
  ∃ s m, ms_fs s !! 0%N = Some m ∧
  ∃ es, MemoryProvider_ReadDir 0 "/d/.." s = Some (Ok es, s) ∧
    NoDup (entry_names es) ∧ ∀ n, n ∈ entry_names es ↔ child_of m "/" n.
Proof.
  exists fresh_store, {| mp_files := ∅; mp_dirs := {[ "/" := mode0755 ]} |}.
  split; [reflexivity|].
  apply mem_ReadDir_exact;
    [apply (@fresh_store_wf linux_abi)|reflexivity|vm_compute; by eexists].
Defined.

(** ** Data written through a handle *)

Section data.
Context `{HostABI} (a : N).

(** The operations that do not write the file object [a]: everything on other
    files, every read, and every operation on a path (unlinking, renaming or
    overwriting the path of [a] included) except an opening that truncates [a]. *)
Inductive quiet_op : ∀ A, M memstore A → Prop :=
| q_new : quiet_op _ NewMemoryProvider
| q_stat p f : quiet_op _ (MemoryProvider_Stat p f)
| q_readdir p f : quiet_op _ (MemoryProvider_ReadDir p f)
| q_open p f fl m : has_flag fl O_TRUNC = false → quiet_op _ (MemoryProvider_Open p f fl m)
| q_mkdir p f m : quiet_op _ (MemoryProvider_Mkdir p f m)
| q_mkdirall p f m : quiet_op _ (MemoryProvider_MkdirAll p f m)
| q_chmod p f m : quiet_op _ (MemoryProvider_Chmod p f m)
| q_chtimes p f t m : quiet_op _ (MemoryProvider_Chtimes p f t m)
| q_remove p f : quiet_op _ (MemoryProvider_Remove p f)
| q_removeall p f : quiet_op _ (MemoryProvider_RemoveAll p f)
| q_rename p f g : quiet_op _ (MemoryProvider_Rename p f g)
| q_writefile p f d m : quiet_op _ (MemoryProvider_WriteFile p f d m)
| q_readfile p f : quiet_op _ (MemoryProvider_ReadFile p f)
| q_read h n : quiet_op _ (memHandle_Read h n)
| q_readat h n off : quiet_op _ (memHandle_ReadAt h n off)
| q_write h d : mh_file h ≠ a → quiet_op _ (memHandle_Write h d)
| q_writeat h d off : mh_file h ≠ a → quiet_op _ (memHandle_WriteAt h d off)
| q_seek h off wh : quiet_op _ (memHandle_Seek h off wh)
| q_hstat h : quiet_op _ (memHandle_Stat h)
| q_truncate h n : mh_file h ≠ a → quiet_op _ (memHandle_Truncate h n).

(** The path names the file object [a]. *)
Definition names (s : memstore) (p : N) (path : string) : Prop :=
  ∃ m, ms_fs s !! p = Some m ∧ mp_files m !! MemoryProvider_normPath path = Some a.

Inductive quiet_step (s : memstore) : memstore → Prop :=
| qs_op A (m : M memstore A) r s' : quiet_op A m → m s = Some (r, s') → quiet_step s s'
(* an opening of another file, which may create or truncate it *)
| qs_open p f fl m r s' : ¬ names s p f → MemoryProvider_Open p f fl m s = Some (r, s') → quiet_step s s'.

Lemma quiet_mem_op A (m : M memstore A) : quiet_op A m → mem_op A m.
Proof. by destruct 1; constructor. Qed.

Definition data_at (s : memstore) : option bytes := mf_data <$> ms_heap s !! a.

Lemma quiet_step_data s s' :
  store_wf s → is_Some (data_at s) → quiet_step s s' → data_at s' = data_at s.
Proof.
  intros Hwf Hd Hstep.
  assert (Ha : (a < ms_next s)%N).
  { apply (wf_heap s Hwf). unfold data_at in Hd. by destruct (ms_heap s !! a), Hd. }
  destruct Hstep as [A m r s1 Hop Hr|p f fl m r s1 Hpath Hr].
  2: { unfold data_at, names in *. mem_run Hr; try done; simplify_map_eq; simplify_eq/=;
    try (rewrite (lookup_insert_ne _ (ms_next _)) by lia; done);
    repeat match goal with
    | |- context [<[?b := _]> _ !! a] =>
        destruct (decide (b = a)) as [Hb|]; [exfalso; subst; first [lia|naive_solver]|rewrite lookup_insert_ne by done]
    end; done. }
  unfold data_at in *. destruct Hop;
    try unfold MemoryProvider_Open in Hr;
    try match goal with H : has_flag _ O_TRUNC = false |- _ => rewrite H in Hr end;
    mem_run Hr; try done;
    match goal with
    | |- context [<[?b := _]> _ !! a] =>
        destruct (decide (b = a)) as [Hb|]; [|by rewrite lookup_insert_ne]
    end; first [congruence | exfalso; lia |
      rewrite Hb in *; rewrite lookup_insert_eq;
      by match goal with H : ms_heap _ !! a = Some _ |- _ => rewrite H end].
Qed.

Lemma quiet_steps_data s s' :
  store_wf s → is_Some (data_at s) → rtc quiet_step s s' →
  store_wf s' ∧ data_at s' = data_at s.
Proof.
  intros Hwf Hd Hr. induction Hr as [|s s1 s2 Hstep _ IH]; [done|].
  pose proof (quiet_step_data _ _ Hwf Hd Hstep) as Heq.
  destruct IH as [? ->]; [..|done].
  - destruct Hstep as [A m r s1 Hop Hr|p f fl m r s1 _ Hr]; (eapply mem_op_wf; [|done|exact Hr]); [by apply quiet_mem_op|constructor].
  - by rewrite Heq.
Qed.
End data.

Lemma pwrite_read d off p d' :
  splice_spec d off p d' → take (length p) (drop off d') = p.
Proof.
  intros [Hl Hb]. apply byte_at_ext.
  - rewrite length_take, length_drop. lia.
  - intros i. rewrite byte_at_take, byte_at_drop, Hb.
    case_decide; [|by rewrite byte_at_ge by lia].
    rewrite decide_True by lia. f_equal. lia.
Qed.

(** What is written is the data of the file then. *)
Lemma memHandle_WriteAt_data `{HostABI} h p off s r s1 :
  store_wf s → is_Some (data_at (mh_file h) s) → 0 <= off → off + blen p <= maxAlloc →
  memHandle_WriteAt h p off s = Some (r, s1) →
  r = (blen p, None) ∧ store_wf s1 ∧
  ∃ d d', splice_spec d (Z.to_nat off) p d' ∧ data_at (mh_file h) s1 = Some d'.
Proof.
  intros Hwf [f0 Hf0] Hoff Hmax Hw. unfold data_at in Hf0. destruct (ms_heap s !! mh_file h) as [f|] eqn:Hf; [|done].
  destruct (memHandle_WriteAt_run h s f Hf p off Hoff Hmax) as (d' & Hd' & Hrun).
  rewrite Hw in Hrun. simplify_eq. split_and!; [done|apply wf_put_file; [done|by eexists]|].
  exists (mf_data f), d'. split; [done|]. unfold data_at. cbn. by rewrite lookup_insert_eq.
Qed.

(** What was written there is what a handle reads. *)
Lemma memHandle_ReadAt_written `{HostABI} h p off d d' s :
  0 <= off → p ≠ [] → splice_spec d (Z.to_nat off) p d' → data_at (mh_file h) s = Some d' →
  memHandle_ReadAt h (blen p) off s = Some ((p, None), s).
Proof.
  intros Hoff Hp Hd' Heq. unfold data_at in Heq. destruct (ms_heap s !! mh_file h) as [f|] eqn:Hf; [|done].
  cbn in Heq. simplify_eq. rewrite (memHandle_ReadAt_run h s f Hf _ off Hoff). cbv zeta.
  unfold blen in *. rewrite Nat2Z.id, (pwrite_read _ _ _ _ Hd'). rewrite Z.ltb_irrefl, orb_false_r.
  rewrite (proj2 (Z.leb_gt _ _)); [done|]. destruct Hd' as [-> _]. destruct p; [done|]. cbn in *. lia.
Qed.

(** What is written through one handle is read back through any handle of the
    same file, whatever happens to its path in between: the file may be renamed,
    overwritten by another, unlinked, or its whole tree removed, and other files
    written. *)
Theorem mem_write_read_roundtrip `{HostABI} h h' p off s r s1 s2 :
  mem_reachable s → handle_wf s h →
  0 <= off → off + blen p <= maxAlloc → p ≠ [] →
  memHandle_WriteAt h p off s = Some (r, s1) →
  rtc (quiet_step (mh_file h)) s1 s2 → mh_file h' = mh_file h →
  r = (blen p, None) ∧ memHandle_ReadAt h' (blen p) off s2 = Some ((p, None), s2).
Proof.
  intros Hreach [[f Hf] _] Hoff Hmax Hp Hw Hq Hfile.
  destruct (memHandle_WriteAt_data h p off s r s1) as (-> & Hwf & d & d' & Hd' & Hdata); try done.
  { by apply reachable_wf. } { unfold data_at. rewrite Hf. by eexists. }
  split; [done|]. destruct (quiet_steps_data (mh_file h) s1 s2) as [_ Heq]; [done|by rewrite Hdata|done|].
  rewrite Hdata, <- Hfile in Heq. by eapply memHandle_ReadAt_written.
Qed.

(** A run: the value of a computation and the state it leaves (a run that panics
    leaves the initial state and the default value). *)
Definition run_to {W A} (d : A) (m : M W A) (w : W) : A * W := default (d, w) (m w).

Definition no_handle : memHandle := {| mh_file := 0; mh_flags := 0; mh_addr := 0 |}.

Definition ok_or {E A} (d : A) (r : result E A) : A := match r with Ok a => a | Err _ => d end.

(** [/f] created and written through one handle, unlinked, read through it. *)
Definition demo_create := @MemoryProvider_Create linux_abi 0 "/f" 0x1A4.
Definition demo_store : memstore := snd (run_to (Err EOF) demo_create fresh_store).
Definition demo_handle : memHandle :=
  match fst (run_to (Err EOF) demo_create fresh_store) with
  | Ok h => h
  | Err _ => {| mh_file := 0; mh_flags := 0; mh_addr := 0 |}
  end.
Definition demo_written : memstore :=
  snd (run_to (0, None) (memHandle_WriteAt demo_handle ["a"; "b"]%char 3) demo_store).
Definition demo_unlinked : memstore :=
  snd (run_to None (MemoryProvider_Remove 0 "/f") demo_written).

Lemma mem_write_read_roundtrip_witness :
  memHandle_ReadAt demo_handle (blen ["a"; "b"]%char) 3 demo_unlinked
  = Some ((["a"; "b"]%char, None), demo_unlinked).
Proof.
  eapply (@mem_write_read_roundtrip linux_abi demo_handle demo_handle ["a"; "b"]%char 3
            demo_store (2, None) demo_written demo_unlinked).
  - unfold mem_reachable. etrans; [apply fresh_store_reachable|].
    apply rtc_once, (step_op _ (result err memHandle) demo_create (Ok demo_handle)).
    + apply (@op_create linux_abi).
    + vm_compute. reflexivity.
  - split; vm_compute; by eexists.
  - done.
  - done.
  - done.
  - vm_compute. reflexivity.
  - apply rtc_once, (qs_op _ _ (option err) (MemoryProvider_Remove 0 "/f") None).
    + apply (@q_remove linux_abi).
    + vm_compute. reflexivity.
  - done.
Defined.

(** ** The handle operations refine the byte-level specification *)

(** A write of no bytes beyond the end grows the file up to the offset, where POSIX
    has no effect. *)
Lemma empty_write_grows h s f off :
  ms_heap s !! mh_file h = Some f → blen (mf_data f) < off <= maxAlloc →
  ∃ d', memHandle_WriteAt h [] off s =
      Some ((0, None), set_heap (<[mh_file h := with_data (ms_now s) d' f]> (ms_heap s)) s) ∧
    blen d' = off ∧ ¬ pwrite_spec (mf_data f) (Z.to_nat off) [] d'.
Proof.
  intros Hf Hoff. pose proof (blen_nonneg (mf_data f)).
  destruct (memHandle_WriteAt_run h s f Hf [] off) as (d' & [Hl _] & Hrun); [lia|unfold blen in *; cbn [length]; lia|].
  assert (blen d' = off) by (unfold blen in *; cbn in Hl; lia).
  exists d'. split_and!; [done..|]. unfold pwrite_spec. rewrite decide_True by done.
  intros ->. lia.
Qed.

(** C36: for every offset and length an [int64] can hold, a handle operation on a
    file either does what POSIX says to its bytes or panics, and it panics exactly
    when the offset is negative or the file would outgrow the address space: a
    [WriteAt] of at least one byte is [pwrite], [ReadAt] is [pread] (short at the
    end, with [io.EOF]), [Truncate] is [ftruncate] (growing with zeros). None changes
    any other file. *)
Theorem mem_handle_refines_posix h s f :
  ms_heap s !! mh_file h = Some f → blen (mf_data f) <= maxAlloc →
  (∀ p off, is_int64 off → blen p <= maxAlloc → p ≠ [] →
     if decide (0 <= off ∧ off + blen p <= maxAlloc) then
       ∃ d', pwrite_spec (mf_data f) (Z.to_nat off) p d' ∧
         memHandle_WriteAt h p off s =
           Some ((blen p, None), set_heap (<[mh_file h := with_data (ms_now s) d' f]> (ms_heap s)) s)
     else memHandle_WriteAt h p off s = None) ∧
  (∀ n off,
     if decide (0 <= off) then
       let got := take (Z.to_nat n) (drop (Z.to_nat off) (mf_data f)) in
       memHandle_ReadAt h n off s =
         Some ((got, if (blen (mf_data f) <=? off) || (blen got <? n) then Some EOF else None), s)
     else memHandle_ReadAt h n off s = None) ∧
  (∀ n,
     if decide (0 <= n <= maxAlloc) then
       ∃ d', ftruncate_spec (mf_data f) (Z.to_nat n) d' ∧
         memHandle_Truncate h n s =
           Some (None, set_heap (<[mh_file h := with_data (ms_now s) d' f]> (ms_heap s)) s)
     else memHandle_Truncate h n s = None).
Proof.
  intros Hf Hsz. split_and!.
  - intros p off Hoff Hp Hne. case_decide as Hd.
    + destruct (memHandle_WriteAt_run h s f Hf p off) as (d' & Hd' & Hrun); [tauto..|].
      exists d'. split; [|done]. unfold pwrite_spec. by rewrite decide_False.
    + apply (memHandle_WriteAt_panics h s f Hf p off Hoff Hp Hsz). lia.
  - intros n off. case_decide; [by apply memHandle_ReadAt_run|].
    apply (memHandle_ReadAt_panics h s f Hf). lia.
  - intros n. case_decide; [apply memHandle_Truncate_run; tauto|].
    apply (memHandle_Truncate_panics h s f Hf n Hsz). lia.
Qed.

Lemma mem_handle_refines_posix_witness :
  let s := set_heap {[ 7%N := {| mf_data := ["x"]%char; mf_mode := 0; mf_modTime := 0 |} ]} empty_store in
  let h := {| mh_file := 7; mh_flags := 0; mh_addr := 0 |} in
  memHandle_WriteAt h ["y"]%char (-1) s = None.
Proof.
  intros s h.
  destruct (mem_handle_refines_posix h s {| mf_data := ["x"]%char; mf_mode := 0; mf_modTime := 0 |})
    as [Hw _]; [reflexivity|done|].
  apply (Hw ["y"]%char (-1)); done.
Defined.

(** ** Directories and their contents

    [Remove] of a directory looks for files below it only, and [Rename] of a
    directory moves its own key only. *)

(** A directory whose only children are directories is removed without
    ENOTEMPTY, and renaming a directory leaves its files under the old name: after
    either, keys remain whose parent is no longer a directory. *)
Theorem mem_orphans :
  let s := snd (run_to None (MemoryProvider_MkdirAll 0 "/d/e" mode0755) fresh_store) in
  let s' := snd (run_to None (MemoryProvider_WriteFile 0 "/d/e/f" ["x"]%char 0x1A4) s) in
  (∃ s1 m1, MemoryProvider_Remove 0 "/d" s = Some (None, s1) ∧ ms_fs s1 !! 0%N = Some m1 ∧
     mp_dirs m1 !! "/d" = None ∧ is_Some (mp_dirs m1 !! "/d/e")) ∧
  (∃ s2 m2, MemoryProvider_Rename 0 "/d/e" "/g" s' = Some (None, s2) ∧ ms_fs s2 !! 0%N = Some m2 ∧
     is_Some (mp_dirs m2 !! "/g") ∧ mp_dirs m2 !! "/d/e" = None ∧
     is_Some (mp_files m2 !! "/d/e/f") ∧ mp_files m2 !! "/g/f" = None).
Proof.
  split; (do 2 eexists; split; [by vm_compute|]; split; [by vm_compute|];
    split_and!; vm_compute; by eauto).
Qed.
