(* ===== verification/VfsReadonly.v ===== *)
(** * The read-only wrapper: [pkg/vfs/readonly.go]

    [ReadonlyProvider] and [readonlyHandle] over any provider. The main fact is
    stated once for every relation [R] between worlds that the inner provider's
    read operations respect (for example "no file changed"): the wrapper respects
    [R] in every operation, and so does every handle it ever returns. *)

From S2P Require Import Prelude GoStrings GoPath VfsBase VfsMemory.

Section readonly.
Context `{HostABI} {W : Type}.

Definition write_flags : Z := Z.lor (Z.lor (Z.lor (Z.lor O_WRONLY O_RDWR) O_CREATE) O_TRUNC) O_APPEND.

Definition EROFS_err {A} : M W (result err A) := mret (Err (Errno EROFS)).
Definition EROFS_opt : M W (option err) := mret (Some (Errno EROFS)).

(** [&readonlyHandle{inner: h}] *)
Definition readonlyHandle (inner : Handle W) : Handle W := {|
  h_Read := h_Read inner;
  h_ReadAt := h_ReadAt inner;
  h_Seek := h_Seek inner;
  h_Stat := h_Stat inner;
  h_Close := h_Close inner;
  h_Sync := mret None;
  h_Write _ := mret (0, Some (Errno EROFS));
  h_WriteAt _ _ := mret (0, Some (Errno EROFS));
  h_Truncate _ := EROFS_opt |}.

Definition ReadonlyProvider_Open (inner : Provider W) (path : string) (flags mode : Z)
    : M W (result err (Handle W)) :=
  if has_flag flags write_flags then EROFS_err
  else
    r ← Open inner path flags mode;
    match r with
    | Err e => mret (Err e)
    | Ok h => mret (Ok (readonlyHandle h))
    end.

Definition NewReadonlyProvider (inner : Provider W) : Provider W := {|
  Readonly := true;
  Stat := Stat inner;
  ReadDir := ReadDir inner;
  Open := ReadonlyProvider_Open inner;
  Create _ _ := EROFS_err;
  Chmod _ _ := EROFS_opt;
  Chtimes _ _ _ := EROFS_opt;
  Mkdir _ _ := EROFS_opt;
  Remove _ := EROFS_opt;
  RemoveAll _ := EROFS_opt;
  Rename _ _ := EROFS_opt;
  Symlink _ _ := EROFS_opt;
  Readlink := Readlink inner;
  Fsync := Fsync inner |}.

Definition readonly_iface (i : Iface W) (id : N) : Iface W := {|
  iface_ops := NewReadonlyProvider (iface_ops i);
  iface_id := id;
  iface_withCaller := None;
  iface_MkdirAll := None |}.

Context (R : W → W → Prop) `{!PreOrder R}.

(** What a provider promises to a client that only reads. *)
Record provider_read_respects (p : Provider W) : Prop := {
  prr_Stat f : respects R (Stat p f);
  prr_ReadDir f : respects R (ReadDir p f);
  prr_Open f fl m : has_flag fl write_flags = false → respects R (Open p f fl m);
  prr_Open_handle f fl m w h w' :
    has_flag fl write_flags = false →
    Open p f fl m w = Some (Ok h, w') → handle_read_respects R h;
  prr_Readlink f : respects R (Readlink p f);
  prr_Fsync f : respects R (Fsync p f) }.

Lemma readonlyHandle_respects h :
  handle_read_respects R h → handle_respects R (readonlyHandle h).
Proof.
  intros [? ? ? ? ?]. split; cbn; eauto; intros; apply respects_ret; apply _.
Qed.

Lemma readonly_respects p :
  provider_read_respects p → provider_respects R (NewReadonlyProvider p).
Proof.
  intros Hp. split; cbn; intros; try (by apply respects_ret; apply _);
    try (by destruct Hp; eauto).
  - unfold ReadonlyProvider_Open. case_match eqn:Hfl; [by apply respects_ret; apply _|].
    apply respects_bind; [apply _|by apply Hp|].
    intros []; by apply respects_ret; apply _.
  - unfold ReadonlyProvider_Open in *. case_match eqn:Hfl; [done|].
    match goal with Hr : _ = Some (Ok _, _) |- _ =>
      apply M_bind_Some in Hr as ([h0|e] & w1 & H1 & H2); [|done] end.
    apply M_ret_Some in H2 as [[= ->] ->].
    by eapply readonlyHandle_respects, prr_Open_handle.
Qed.
End readonly.

Arguments provider_read_respects {_ W} R p.

Lemma readonly_agree `{HostABI} {W} P (p1 p2 : Provider W) :
  provider_agree P p1 p2 → provider_agree P (NewReadonlyProvider p1) (NewReadonlyProvider p2).
Proof.
  intros Hp. split; cbn; intros; try done; try (by apply Hp).
  unfold ReadonlyProvider_Open. case_match; [done|].
  apply meq_bind; [by apply Hp|done].
Qed.

(** A read-only mount cannot be written through, by any call, with any flags:
    if the wrapped provider's reads (and the reads of handles it opens without a
    write flag) respect a relation [R] between worlds, such as "the files are the
    same", then every operation of the wrapper and of every handle it returns
    respects [R]; and each mutating operation answers EROFS without a call to the
    wrapped provider. *)
Theorem readonly_protects `{HostABI} {W} (R : W → W → Prop) `{!PreOrder R} (p : Provider W) :
  provider_read_respects R p →
  provider_respects R (NewReadonlyProvider p) ∧
  (∀ f fl m w, has_flag fl write_flags = true →
     Open (NewReadonlyProvider p) f fl m w = Some (Err (Errno EROFS), w)) ∧
  (∀ f g m a t w,
     Create (NewReadonlyProvider p) f m w = Some (Err (Errno EROFS), w) ∧
     Forall (λ run : M W (option err), run w = Some (Some (Errno EROFS), w))
       [Chmod (NewReadonlyProvider p) f m; Chtimes (NewReadonlyProvider p) f a t;
        Mkdir (NewReadonlyProvider p) f m; Remove (NewReadonlyProvider p) f;
        RemoveAll (NewReadonlyProvider p) f; Rename (NewReadonlyProvider p) f g;
        Symlink (NewReadonlyProvider p) f g]).
Proof.
  intros Hp. split_and!.
  - by apply readonly_respects.
  - intros f fl m w Hfl. cbn. unfold ReadonlyProvider_Open. by rewrite Hfl.
  - intros. split; [done|]. by repeat constructor.
Qed.

(** ** An instance: a read-only view of the in-memory file system *)

Section memory.
Context `{HostABI} {W : Type} `{!Has memstore W}.

(** No file, directory or file content changed (handle offsets may). *)
Definition same_files (w w' : W) : Prop :=
  ms_heap (get_st w') = ms_heap (get_st w) ∧ ms_fs (get_st w') = ms_fs (get_st w).

#[export] Instance same_files_preorder : PreOrder same_files.
Proof.
  split; [done|]. intros w1 w2 w3 [H1 H2] [H3 H4]. split; congruence.
Qed.

Lemma lift_same_files {A} (m : M memstore A) :
  (∀ s a s', m s = Some (a, s') → ms_heap s' = ms_heap s ∧ ms_fs s' = ms_fs s) →
  respects same_files (lift m).
Proof.
  intros Hm w a w' (s' & Hr & ->)%lift_Some. unfold same_files. rewrite get_put_st. eauto.
Qed.

Lemma has_flag_lor fl m1 m2 : has_flag fl (Z.lor m1 m2) = has_flag fl m1 || has_flag fl m2.
Proof.
  unfold has_flag. rewrite Z.land_lor_distr_r, <- negb_andb. f_equal.
  apply eq_true_iff_eq. rewrite andb_true_iff, !Z.eqb_eq. apply Z.lor_eq_0_iff.
Qed.

Lemma no_write_flags fl :
  has_flag fl write_flags = false → has_flag fl O_CREATE = false ∧ has_flag fl O_TRUNC = false.
Proof. unfold write_flags. rewrite !has_flag_lor, !orb_false_iff. tauto. Qed.

Lemma mem_handle_read_respects h : handle_read_respects same_files (mem_handle h).
Proof.
  split; intros; apply lift_same_files; intros s r s' Hr;
    try (cbn in Hr; by apply M_ret_Some in Hr as [_ ->]);
    mem_run Hr; done.
Qed.

Lemma mem_read_respects p : provider_read_respects same_files (mem_provider p).
Proof.
  assert (Hopen : ∀ f fl m, has_flag fl write_flags = false →
    respects same_files (lift (MemoryProvider_Open p f fl m))).
  { intros f fl m [Hc Ht]%no_write_flags. apply lift_same_files. intros s r s' Hr.
    unfold MemoryProvider_Open in Hr. rewrite Hc, Ht in Hr. mem_run Hr; done. }
  split; intros; cbn;
    try (apply lift_same_files; intros s r s' Hr;
         try unfold MemoryProvider_Readlink, MemoryProvider_Fsync in Hr; mem_run Hr; done).
  - apply respects_bind; [apply _|by apply Hopen|]. intros; apply respects_ret; apply _.
  - cbn in *. match goal with Hr : _ = Some (Ok _, _) |- _ =>
      apply M_bind_Some in Hr as ([h0|e] & w1 & H1 & H2) end;
      apply M_ret_Some in H2 as [[= ->] ->]. apply mem_handle_read_respects.
Qed.
End memory.

(** A write through a read-only view of a fresh file system: refused, nothing moves. *)
Lemma readonly_protects_witness :
  let W := memstore in
  let p := @NewReadonlyProvider linux_abi W (@mem_provider linux_abi W _ 0) in
  provider_respects (@same_files W _) p ∧
  @Open W p "/f" 0x41 0x1A4 empty_store = Some (Err (Errno EROFS), empty_store).
Proof.
  destruct (@readonly_protects linux_abi memstore same_files _ _ (@mem_read_respects linux_abi _ _ 0%N))
    as (H1 & H2 & H3).
  split; [exact H1|]. apply H2. reflexivity.
Defined.
