(* ===== verification/VfsRealFS.v ===== *)
(** * The host-directory provider: [pkg/vfs/realfs.go]

    Package [os] on the host is an interface, [OsFS]: one operation per function
    the source calls. [RealFSProvider] confines a guest to the directory [root]:
    the containment theorem says that nothing the host holds outside [root] can
    influence, or be influenced by, any operation. *)

From S2P Require Import Prelude GoStrings GoPath VfsBase.

(** ** The operations of package [os] that the source calls *)

(** fs.FileInfo as [os] returns it. *)
Record OsInfo := {
  oi_Name : string; oi_Size : Z; oi_Mode : Z; oi_ModTime : Z; oi_IsDir : bool;
  oi_Sys : option Stat_t }.

(** os.DirEntry: [Info] is a further call, which may fail. *)
Record OsDirEntry (W : Type) := {
  od_Name : string; od_IsDir : bool; od_Info : M W (result err OsInfo) }.
Arguments od_Name {W}. Arguments od_IsDir {W}. Arguments od_Info {W}.

(** *os.File *)
Record OsFile (W : Type) := {
  of_Read : Z → M W (bytes * option err);
  of_ReadAt : Z → Z → M W (bytes * option err);
  of_Write : bytes → M W (Z * option err);
  of_WriteAt : bytes → Z → M W (Z * option err);
  of_Seek : Z → Z → M W (Z * option err);
  of_Close : M W (option err);
  of_Stat : M W (result err OsInfo);
  of_Sync : M W (option err);
  of_Truncate : Z → M W (option err) }.
Arguments of_Read {W}. Arguments of_ReadAt {W}. Arguments of_Write {W}.
Arguments of_WriteAt {W}. Arguments of_Seek {W}. Arguments of_Close {W}.
Arguments of_Stat {W}. Arguments of_Sync {W}. Arguments of_Truncate {W}.

Record OsFS (W : Type) := {
  os_Stat : string → M W (result err OsInfo);
  os_ReadDir : string → M W (result err (list (OsDirEntry W)));
  os_OpenFile : string → Z → Z → M W (result err (OsFile W));
  os_Mkdir : string → Z → M W (option err);
  os_Chmod : string → Z → M W (option err);
  os_Chtimes : string → option Z → option Z → M W (option err);
  os_Remove : string → M W (option err);
  os_RemoveAll : string → M W (option err);
  os_Rename : string → string → M W (option err);
  os_Symlink : string → string → M W (option err);
  os_Readlink : string → M W (result err string) }.
Arguments os_Stat {W}. Arguments os_ReadDir {W}. Arguments os_OpenFile {W}.
Arguments os_Mkdir {W}. Arguments os_Chmod {W}. Arguments os_Chtimes {W}.
Arguments os_Remove {W}. Arguments os_RemoveAll {W}. Arguments os_Rename {W}.
Arguments os_Symlink {W}. Arguments os_Readlink {W}.

(** ** RealFSProvider *)

Record RealFSProvider := {
  rfs_root : string; rfs_ownerUID : option Z; rfs_ownerGID : option Z }.

Definition NewRealFSProvider (root : string) : RealFSProvider :=
  {| rfs_root := root; rfs_ownerUID := None; rfs_ownerGID := None |}.

Definition RealFSProvider_WithOwner (p : RealFSProvider) (uid gid : Z) : RealFSProvider :=
  {| rfs_root := rfs_root p; rfs_ownerUID := Some uid; rfs_ownerGID := Some gid |}.

Definition applyOwnerPtrs (fi : FileInfo) (uid gid : option Z) : FileInfo :=
  match uid, gid with
  | None, None => fi
  | _, _ => FileInfo_WithOwner fi (default (fi_uid fi) uid) (default (fi_gid fi) gid)
  end.

Definition RealFSProvider_applyOwner (p : RealFSProvider) (fi : FileInfo) : FileInfo :=
  applyOwnerPtrs fi (rfs_ownerUID p) (rfs_ownerGID p).

Definition RealFSProvider_realPath (p : RealFSProvider) (path : string) : string :=
  PathJoin [rfs_root p; Clean path].

Definition info_from_os (name : string) (isDir : bool) (info : OsInfo) : FileInfo :=
  NewFileInfoWithSys name (oi_Size info) (oi_Mode info) (oi_ModTime info) isDir (oi_Sys info).

Section realfs.
Context `{HostABI} {W : Type} (os : OsFS W).

Definition RealFSProvider_Stat (p : RealFSProvider) (path : string) : M W (result err FileInfo) :=
  r ← os_Stat os (RealFSProvider_realPath p path);
  match r with
  | Err e => mret (Err e)
  | Ok info =>
      mret (Ok (RealFSProvider_applyOwner p (info_from_os (oi_Name info) (oi_IsDir info) info)))
  end.

(** The loop of [ReadDir]: an entry whose [Info] fails is skipped. *)
Fixpoint realfs_entries (p : RealFSProvider) (es : list (OsDirEntry W)) : M W (list DirEntry) :=
  match es with
  | [] => mret []
  | e :: es' =>
      r ← od_Info e;
      match r with
      | Err _ => realfs_entries p es'
      | Ok info =>
          rest ← realfs_entries p es';
          mret (NewDirEntry (od_Name e) (od_IsDir e) (oi_Mode info)
                  (RealFSProvider_applyOwner p (info_from_os (od_Name e) (od_IsDir e) info)) :: rest)
      end
  end.

Definition RealFSProvider_ReadDir (p : RealFSProvider) (path : string)
    : M W (result err (list DirEntry)) :=
  r ← os_ReadDir os (RealFSProvider_realPath p path);
  match r with
  | Err e => mret (Err e)
  | Ok entries => es ← realfs_entries p entries; mret (Ok es)
  end.

Definition realHandle_Stat (f : OsFile W) (uid gid : option Z) : M W (result err FileInfo) :=
  r ← of_Stat f;
  match r with
  | Err e => mret (Err e)
  | Ok info => mret (Ok (applyOwnerPtrs (info_from_os (oi_Name info) (oi_IsDir info) info) uid gid))
  end.

(** [&realHandle{file, ownerUID, ownerGID}] *)
Definition realHandle (f : OsFile W) (uid gid : option Z) : Handle W := {|
  h_Read := of_Read f;
  h_ReadAt := of_ReadAt f;
  h_Write := of_Write f;
  h_WriteAt := of_WriteAt f;
  h_Seek := of_Seek f;
  h_Close := of_Close f;
  h_Sync := of_Sync f;
  h_Truncate := of_Truncate f;
  h_Stat := realHandle_Stat f uid gid |}.

Definition RealFSProvider_Open (p : RealFSProvider) (path : string) (flags mode : Z)
    : M W (result err (Handle W)) :=
  r ← os_OpenFile os (RealFSProvider_realPath p path) flags mode;
  match r with
  | Err e => mret (Err e)
  | Ok f => mret (Ok (realHandle f (rfs_ownerUID p) (rfs_ownerGID p)))
  end.

Definition RealFSProvider_Create (p : RealFSProvider) (path : string) (mode : Z)
    : M W (result err (Handle W)) :=
  RealFSProvider_Open p path (Z.lor (Z.lor O_CREATE O_RDWR) O_TRUNC) mode.

(** [os.Open] is [OpenFile] with O_RDONLY; the deferred [Close] runs last. *)
Definition RealFSProvider_Fsync (p : RealFSProvider) (path : string) : M W (option err) :=
  r ← os_OpenFile os (RealFSProvider_realPath p path) 0 0;
  match r with
  | Err e => mret (Some e)
  | Ok f => e ← of_Sync f; _ ← of_Close f; mret e
  end.

Definition realfs_provider (p : RealFSProvider) : Provider W := {|
  Readonly := false;
  Stat := RealFSProvider_Stat p;
  ReadDir := RealFSProvider_ReadDir p;
  Open := RealFSProvider_Open p;
  Create := RealFSProvider_Create p;
  Mkdir f m := os_Mkdir os (RealFSProvider_realPath p f) m;
  Chmod f m := os_Chmod os (RealFSProvider_realPath p f) m;
  Chtimes f a m := os_Chtimes os (RealFSProvider_realPath p f) a m;
  Remove f := os_Remove os (RealFSProvider_realPath p f);
  RemoveAll f := os_RemoveAll os (RealFSProvider_realPath p f);
  Rename f g := os_Rename os (RealFSProvider_realPath p f) (RealFSProvider_realPath p g);
  Symlink target link := os_Symlink os target (RealFSProvider_realPath p link);
  Readlink f := os_Readlink os (RealFSProvider_realPath p f);
  Fsync := RealFSProvider_Fsync p |}.

Definition realfs_iface (p : RealFSProvider) (id : N) : Iface W := {|
  iface_ops := realfs_provider p;
  iface_id := id;
  iface_withCaller := None;
  iface_MkdirAll := None |}.
End realfs.

(** ** Containment *)

(** Two hosts that cannot be told apart by naming paths at or below [root]. *)
Record os_agree {W} (root : string) (o1 o2 : OsFS W) : Prop := {
  oa_Stat p : under root p → os_Stat o1 p ≡ₘ os_Stat o2 p;
  oa_ReadDir p : under root p → os_ReadDir o1 p ≡ₘ os_ReadDir o2 p;
  oa_OpenFile p fl m : under root p → os_OpenFile o1 p fl m ≡ₘ os_OpenFile o2 p fl m;
  oa_Mkdir p m : under root p → os_Mkdir o1 p m ≡ₘ os_Mkdir o2 p m;
  oa_Chmod p m : under root p → os_Chmod o1 p m ≡ₘ os_Chmod o2 p m;
  oa_Chtimes p a m : under root p → os_Chtimes o1 p a m ≡ₘ os_Chtimes o2 p a m;
  oa_Remove p : under root p → os_Remove o1 p ≡ₘ os_Remove o2 p;
  oa_RemoveAll p : under root p → os_RemoveAll o1 p ≡ₘ os_RemoveAll o2 p;
  oa_Rename p q : under root p → under root q → os_Rename o1 p q ≡ₘ os_Rename o2 p q;
  oa_Symlink t p : under root p → os_Symlink o1 t p ≡ₘ os_Symlink o2 t p;
  oa_Readlink p : under root p → os_Readlink o1 p ≡ₘ os_Readlink o2 p }.

Lemma realPath_under p path :
  IsAbs (rfs_root p) = true → IsAbs path = true →
  under (Clean (rfs_root p)) (RealFSProvider_realPath p path).
Proof.
  intros Hroot Hpath. unfold RealFSProvider_realPath.
  destruct (Clean_rooted _ Hpath) as (k & Hk & ->).
  rewrite PathJoin_rooted by done. eexists _, k. split_and!; [|by apply Clean_abs_eq|done].
  apply Forall_app. split; [|done]. apply clean_elems_rooted, Split_no_sep.
Qed.

Lemma realfs_agree `{HostABI} {W} (o1 o2 : OsFS W) p :
  IsAbs (rfs_root p) = true → os_agree (Clean (rfs_root p)) o1 o2 →
  provider_agree (λ f, IsAbs f = true) (realfs_provider o1 p) (realfs_provider o2 p).
Proof.
  intros Hroot Ho. split; intros; try done; cbn;
    unfold RealFSProvider_Stat, RealFSProvider_ReadDir, RealFSProvider_Create,
      RealFSProvider_Open, RealFSProvider_Fsync;
    try (by destruct Ho; eauto using realPath_under);
    apply meq_bind; intros; try reflexivity; destruct Ho; eauto using realPath_under.
Qed.

(** A host on which no file exists (every call answers ENOENT); used by examples. *)
Definition empty_os (W : Type) : OsFS W := {|
  os_Stat := λ _, mret (Err (PathError ENOENT));
  os_ReadDir := λ _, mret (Err (PathError ENOENT));
  os_OpenFile := λ _ _ _, mret (Err (PathError ENOENT));
  os_Mkdir := λ _ _, mret (Some (PathError ENOENT));
  os_Chmod := λ _ _, mret (Some (PathError ENOENT));
  os_Chtimes := λ _ _ _, mret (Some (PathError ENOENT));
  os_Remove := λ _, mret (Some (PathError ENOENT));
  os_RemoveAll := λ _, mret (Some (PathError ENOENT));
  os_Rename := λ _ _, mret (Some (PathError ENOENT));
  os_Symlink := λ _ _, mret (Some (PathError ENOENT));
  os_Readlink := λ _, mret (Err (PathError ENOENT)) |}.
