(* ===== verification/VfsRouter.v ===== *)
(** * The mount router: [pkg/vfs/router.go]

    A router is its list of mounts, longest path first; the mounted providers are
    interface values. Its operations find the mount of a path, strip the mount
    path and delegate; [Stat] and [ReadDir] also synthesise the directories that
    lead to nested mounts. *)

From Stdlib Require Import Sorting.Sorted.
From S2P Require Import Prelude GoStrings GoStd GoPath VfsBase VfsRealFS.

(** ** State and resolution *)

Record mount (W : Type) := { mnt_path : string; mnt_provider : Iface W }.
Arguments Build_mount {W}. Arguments mnt_path {W}. Arguments mnt_provider {W}.

(** [r.mounts] *)
Definition MountRouter (W : Type) : Type := list (mount W).

(** Longer paths first. [sort.Slice] leaves the order of equal lengths open; the
    model's is stable, and [resolve_spec] shows that the order plays no part. *)
Definition longer_first {W} (m n : mount W) : bool := (slen (mnt_path n) <=? slen (mnt_path m))%nat.

Section router.
Context {W : Type}.

(** The mounts map as the association list of one iteration over it. *)
Definition NewMountRouter (mounts : list (string * Iface W)) : MountRouter W :=
  sort_by longer_first
    (map (λ pv, {| mnt_path := Clean (fst pv); mnt_provider := snd pv |}) mounts).

Definition MountRouter_AddMount (r : MountRouter W) (path : string) (p : Iface W) : MountRouter W :=
  sort_by longer_first (r ++ [{| mnt_path := Clean path; mnt_provider := p |}]).

Fixpoint remove_mount (path : string) (r : MountRouter W) : MountRouter W :=
  match r with
  | [] => []
  | m :: r' => if decide (mnt_path m = path) then r' else m :: remove_mount path r'
  end.

Definition MountRouter_RemoveMount (r : MountRouter W) (path : string) : MountRouter W :=
  remove_mount (Clean path) r.

(** The test of the loop of [resolve] (and the path below the mount). *)
Definition mount_covers (mpath path : string) : bool :=
  bool_decide (path = mpath) || HasPrefix path (mpath +:+ "/").

Definition mount_rel (mpath path : string) : string :=
  let rel := TrimPrefix path mpath in if decide (rel = "") then "/" else rel.

Fixpoint resolve_in (r : MountRouter W) (path : string) : result err (Iface W * string) :=
  match r with
  | [] => Err (Errno ENOENT)
  | m :: r' =>
      if mount_covers (mnt_path m) path
      then Ok (mnt_provider m, mount_rel (mnt_path m) path)
      else resolve_in r' path
  end.

Definition MountRouter_resolve (r : MountRouter W) (path : string) : result err (Iface W * string) :=
  resolve_in r (Clean path).
End router.

(** ** Synthesised directories *)

Definition relativeDescendantPath (path parent : string) : option string :=
  let path := Clean path in
  let parent := Clean parent in
  if decide (path = parent) then None
  else if decide (parent = "/") then
    let rel := TrimPrefix path "/" in
    if decide (rel = "") then None else Some rel
  else
    let prefix := parent +:+ "/" in
    if negb (HasPrefix path prefix) then None
    else
      let rel := TrimPrefix path prefix in
      if decide (rel = "") then None else Some rel.

(** [errors.Is(err, syscall.ENOENT) || errors.Is(err, syscall.ENOTDIR)] *)
Definition isMissingPathError (e : err) : bool :=
  bool_decide (underlying e = Some ENOENT ∨ underlying e = Some ENOTDIR).

(** [time.Now()] of the world. *)
Class Clock (W : Type) := clock_now : W → Z.

Section synthetic.
Context {W : Type} `{!Clock W}.

Definition syntheticDirInfo (name : string) : M W FileInfo := λ w,
  Some (NewFileInfo name 0 (Z.lor ModeDir 0x1ED) (clock_now w) true, w).

Definition syntheticDirEntry (name : string) : M W DirEntry :=
  info ← syntheticDirInfo name;
  mret (NewDirEntry name true (fi_mode info) info).

Definition MountRouter_hasDescendantMount (r : MountRouter W) (path : string) : bool :=
  existsb (λ m, match relativeDescendantPath (mnt_path m) path with Some _ => true | None => false end) r.

(** One round of the loop of [descendantMountEntries]. *)
Definition descendant_entry (path : string) (m : mount W) (entries : gmap string DirEntry)
    : M W (gmap string DirEntry) :=
  match relativeDescendantPath (mnt_path m) path with
  | None => mret entries
  | Some rel =>
      let '(name, hasNested) :=
        match Index rel "/" with
        | Some idx => (string_take idx rel, true)
        | None => (rel, false)
        end in
      if decide (name = "") then mret entries
      else if (hasNested : bool) then
        e ← syntheticDirEntry name; mret (<[name := e]> entries)
      else
        if from_option de_isDir false (entries !! name) then mret entries
        else
          r ← Stat (iface_ops (mnt_provider m)) "/";
          match r with
          | Err _ => e ← syntheticDirEntry name; mret (<[name := e]> entries)
          | Ok info =>
              mret (<[name := NewDirEntry name (fi_isDir info) (fi_mode info)
                        (NewFileInfo name (fi_size info) (fi_mode info) (fi_modTime info)
                           (fi_isDir info))]> entries)
          end
  end.

Fixpoint descendant_entries (path : string) (r : MountRouter W) (entries : gmap string DirEntry)
    : M W (gmap string DirEntry) :=
  match r with
  | [] => mret entries
  | m :: r' => entries ← descendant_entry path m entries; descendant_entries path r' entries
  end.

Definition MountRouter_descendantMountEntries (r : MountRouter W) (path : string)
    : M W (gmap string DirEntry) :=
  descendant_entries path r ∅.

Definition MountRouter_Stat (r : MountRouter W) (path : string) : M W (result err FileInfo) :=
  let path := Clean path in
  match MountRouter_resolve r path with
  | Err e =>
      if MountRouter_hasDescendantMount r path
      then info ← syntheticDirInfo (Base path); mret (Ok info)
      else mret (Err e)
  | Ok (p, rel) =>
      res ← Stat (iface_ops p) rel;
      match res with
      | Ok info => mret (Ok info)
      | Err e =>
          if negb (isMissingPathError e) || negb (MountRouter_hasDescendantMount r path)
          then mret (Err e)
          else info ← syntheticDirInfo (Base path); mret (Ok info)
      end
  end.

(** [byName] and [baseNames] after the first loop of [ReadDir]. *)
Fixpoint base_names (es : list DirEntry) (seen : gset string) : list string :=
  match es with
  | [] => []
  | e :: es' =>
      if decide (de_name e ∈ seen) then base_names es' seen
      else de_name e :: base_names es' ({[ de_name e ]} ∪ seen)
  end.

Definition by_name (es : list DirEntry) : gmap string DirEntry :=
  fold_left (λ m e, <[de_name e := e]> m) es ∅.

(** The merge of the provider's entries with the mount entries: the latter win. *)
Definition merge_entries (entries : list DirEntry) (mountEntries : gmap string DirEntry)
    : list DirEntry :=
  let byName := mountEntries ∪ by_name entries in
  let baseNames := base_names entries ∅ in
  let mountOnly := filter (λ n, n ∉ baseNames) (map_to_list mountEntries).*1 in
  omap (λ n, byName !! n) (baseNames ++ sort_Strings mountOnly).

Definition MountRouter_ReadDir (r : MountRouter W) (path : string)
    : M W (result err (list DirEntry)) :=
  let path := Clean path in
  res ← match MountRouter_resolve r path with
        | Err e => mret (Err e)
        | Ok (p, rel) => ReadDir (iface_ops p) rel
        end;
  let resolved := is_Ok (MountRouter_resolve r path) in
  match res with
  | Err e =>
      if resolved && negb (isMissingPathError e) then mret (Err e)
      else
        mountEntries ← MountRouter_descendantMountEntries r path;
        if decide (mountEntries = ∅) then mret (Err e)
        else mret (Ok (merge_entries [] mountEntries))
  | Ok entries =>
      mountEntries ← MountRouter_descendantMountEntries r path;
      mret (Ok (merge_entries entries mountEntries))
  end.

(** The operations that only delegate. *)
Definition with_mount {A} (r : MountRouter W) (path : string)
    (k : Provider W → string → M W (result err A)) : M W (result err A) :=
  match MountRouter_resolve r path with
  | Err e => mret (Err e)
  | Ok (p, rel) => k (iface_ops p) rel
  end.

Definition with_mount_opt (r : MountRouter W) (path : string)
    (k : Provider W → string → M W (option err)) : M W (option err) :=
  match MountRouter_resolve r path with
  | Err e => mret (Some e)
  | Ok (p, rel) => k (iface_ops p) rel
  end.

Definition MountRouter_Open (r : MountRouter W) (path : string) (flags mode : Z) :=
  with_mount r path (λ p rel, Open p rel flags mode).
Definition MountRouter_Create (r : MountRouter W) (path : string) (mode : Z) :=
  with_mount r path (λ p rel, Create p rel mode).
Definition MountRouter_Mkdir (r : MountRouter W) (path : string) (mode : Z) :=
  with_mount_opt r path (λ p rel, Mkdir p rel mode).
Definition MountRouter_Chmod (r : MountRouter W) (path : string) (mode : Z) :=
  with_mount_opt r path (λ p rel, Chmod p rel mode).
Definition MountRouter_Chtimes (r : MountRouter W) (path : string) (atime mtime : option Z) :=
  with_mount_opt r path (λ p rel, Chtimes p rel atime mtime).
Definition MountRouter_Remove (r : MountRouter W) (path : string) :=
  with_mount_opt r path (λ p rel, Remove p rel).
Definition MountRouter_RemoveAll (r : MountRouter W) (path : string) :=
  with_mount_opt r path (λ p rel, RemoveAll p rel).
Definition MountRouter_Symlink (r : MountRouter W) (target link : string) :=
  with_mount_opt r link (λ p rel, Symlink p target rel).
Definition MountRouter_Readlink (r : MountRouter W) (path : string) :=
  with_mount r path (λ p rel, Readlink p rel).
Definition MountRouter_Fsync (r : MountRouter W) (path : string) :=
  with_mount_opt r path (λ p rel, Fsync p rel).

Definition MountRouter_Rename (r : MountRouter W) (oldPath newPath : string) : M W (option err) :=
  match MountRouter_resolve r oldPath with
  | Err e => mret (Some e)
  | Ok (oldP, oldRel) =>
      match MountRouter_resolve r newPath with
      | Err e => mret (Some e)
      | Ok (newP, newRel) =>
          if (iface_id oldP =? iface_id newP)%N then Rename (iface_ops oldP) oldRel newRel
          else mret (Some (Errno EXDEV))
      end
  end.

Definition router_provider (r : MountRouter W) : Provider W := {|
  Readonly := false;
  Stat := MountRouter_Stat r;
  ReadDir := MountRouter_ReadDir r;
  Open := MountRouter_Open r;
  Create := MountRouter_Create r;
  Mkdir := MountRouter_Mkdir r;
  Chmod := MountRouter_Chmod r;
  Chtimes := MountRouter_Chtimes r;
  Remove := MountRouter_Remove r;
  RemoveAll := MountRouter_RemoveAll r;
  Rename := MountRouter_Rename r;
  Symlink := MountRouter_Symlink r;
  Readlink := MountRouter_Readlink r;
  Fsync := MountRouter_Fsync r |}.

Definition router_iface (r : MountRouter W) (id : N) : Iface W := {|
  iface_ops := router_provider r;
  iface_id := id;
  iface_withCaller := None;
  iface_MkdirAll := None |}.
End synthetic.

(** ** Resolution finds the longest mount *)

Section resolve.
Context {W : Type}.
Implicit Types (m : mount W) (r : MountRouter W).

Lemma longer_first_total m n : longer_first m n = false → longer_first n m = true.
Proof. unfold longer_first. rewrite Nat.leb_gt, Nat.leb_le. lia. Qed.

Lemma longer_first_trans m n o :
  longer_first m n = true → longer_first n o = true → longer_first m o = true.
Proof. unfold longer_first. rewrite !Nat.leb_le. lia. Qed.

Lemma mount_covers_app mp path : mount_covers mp path = true → ∃ e, path = mp +:+ e.
Proof.
  unfold mount_covers. rewrite orb_true_iff, bool_decide_eq_true, HasPrefix_spec.
  intros [->|[e ->]]; [exists ""; by rewrite sapp_nil_r|].
  exists ("/" +:+ e). by rewrite sapp_assoc.
Qed.

Lemma covers_same_length mp mp' path :
  mount_covers mp path = true → mount_covers mp' path = true → slen mp = slen mp' → mp = mp'.
Proof.
  intros [e He]%mount_covers_app [e' He']%mount_covers_app Hl.
  rewrite He in He'. by destruct (sapp_inj_len _ _ _ _ He' Hl).
Qed.

Definition longest_cover r path m : Prop :=
  m ∈ r ∧ mount_covers (mnt_path m) path = true ∧
  ∀ m', m' ∈ r → mount_covers (mnt_path m') path = true →
    (slen (mnt_path m') <= slen (mnt_path m))%nat.

Lemma longest_cover_unique r path m m' :
  NoDup (mnt_path <$> r) → longest_cover r path m → longest_cover r path m' → m = m'.
Proof.
  intros Hnd (Hin & Hc & Hl) (Hin' & Hc' & Hl').
  assert (mnt_path m = mnt_path m') as Heq.
  { eapply covers_same_length; [done..|]. apply Nat.le_antisymm; eauto. }
  apply list_elem_of_split in Hin as (r1 & r2 & ->).
  rewrite fmap_app, fmap_cons, NoDup_app, NoDup_cons in Hnd.
  destruct Hnd as (_ & Hd & Hn & _).
  apply elem_of_app in Hin' as [Hin'|[->|Hin']%elem_of_cons]; [|done|].
  - exfalso. apply (Hd (mnt_path m')); [by apply list_elem_of_fmap_2|]. rewrite <- Heq. constructor.
  - exfalso. apply Hn. rewrite Heq. by apply list_elem_of_fmap_2.
Qed.

Lemma resolve_in_cases r path :
  StronglySorted (λ a b, longer_first a b = true) r →
  match resolve_in r path with
  | Ok (p, rel) => ∃ m, longest_cover r path m ∧ p = mnt_provider m ∧
                     rel = mount_rel (mnt_path m) path
  | Err e => e = Errno ENOENT ∧ ∀ m, m ∈ r → mount_covers (mnt_path m) path = false
  end.
Proof.
  induction 1 as [|m r Hr IH Hm]; cbn; [split; [done|]; by intros ? ?%not_elem_of_nil|].
  destruct (mount_covers (mnt_path m) path) eqn:Hc.
  - exists m. split_and!; [|done..]. split_and!; [constructor|done|].
    intros m' [->|Hin]%elem_of_cons _; [done|].
    rewrite Forall_forall in Hm. specialize (Hm m' Hin). by apply Nat.leb_le in Hm.
  - destruct (resolve_in r path) as [[p rel]|e].
    + destruct IH as (m0 & (Hin & Hc0 & Hl) & -> & ->). exists m0. split_and!; [|done..].
      split_and!; [by constructor|done|].
      intros m' [->|Hin']%elem_of_cons Hc'; [congruence|by apply Hl].
    + destruct IH as [-> IH]. split; [done|].
      intros m' [->|Hin']%elem_of_cons; [done|by apply IH].
Qed.

Lemma NewMountRouter_sorted (mounts : list (string * Iface W)) :
  StronglySorted (λ a b, longer_first a b = true) (NewMountRouter mounts).
Proof. apply sort_by_sorted; eauto using longer_first_total, longer_first_trans. Qed.

Lemma NewMountRouter_elem (mounts : list (string * Iface W)) m :
  m ∈ NewMountRouter mounts ↔ (∃ mp, mnt_path m = Clean mp ∧ (mp, mnt_provider m) ∈ mounts).
Proof.
  unfold NewMountRouter. rewrite sort_by_perm.
  split.
  - intros ([mp p] & -> & Hin)%list_elem_of_fmap. by exists mp.
  - intros (mp & Hmp & Hin). apply list_elem_of_fmap. exists (mp, mnt_provider m).
    split; [|done]. destruct m; cbn in *. by subst.
Qed.

(** The elements of a covering mount are a prefix of the elements of the path; a
    mount at the root covers the root only. *)
Lemma mount_covers_elements l k :
  Forall normal l → Forall normal k →
  mount_covers (abs_path l) (abs_path k) = true ↔ ∃ s, k = l ++ s ∧ (l = [] → s = []).
Proof.
  intros Hl Hk. unfold mount_covers. rewrite orb_true_iff, bool_decide_eq_true.
  assert (abs_path k = abs_path l ↔ k = l) as ->.
  { split; [by apply abs_path_inj|by intros ->]. }
  destruct l as [|x l].
  - assert (HasPrefix (abs_path k) (abs_path [] +:+ "/") = false) as ->.
    { apply HasPrefix_false. intros r Hr. destruct k as [|y k]; [done|].
      inversion_clear Hk as [|? ? (Hy & _ & _ & Hs) _]. destruct y as [|c y]; [done|].
      destruct k; unfold abs_path in Hr; cbn in Hr; injection Hr as -> _; by cbn in Hs. }
    naive_solver.
  - rewrite HasPrefix_dir by done. split.
    + intros [->|(r & ? & ->)]; [exists []; by rewrite app_nil_r|by exists r].
    + intros (s & -> & _). destruct s as [|y s]; [left; by rewrite app_nil_r|].
      right. by exists (y :: s).
Qed.

Lemma mount_rel_elements l s :
  (l = [] → s = []) → mount_rel (abs_path l) (abs_path (l ++ s)) = abs_path s.
Proof.
  intros Hls. unfold mount_rel. destruct s as [|x s].
  - rewrite app_nil_r. assert (TrimPrefix (abs_path l) (abs_path l) = "") as ->; [|done].
    by rewrite <- (sapp_nil_r (abs_path l)) at 1; rewrite TrimPrefix_app.
  - destruct l as [|y l]; [by specialize (Hls eq_refl)|].
    by rewrite abs_path_app, TrimPrefix_app by done.
Qed.

Lemma prefix_slen l e :
  Forall normal e → (slen (abs_path (l ++ e)) <= slen (abs_path l))%nat → e = [].
Proof.
  intros He Hs. destruct e as [|x e]; [done|exfalso].
  destruct l as [|y l].
  - pose proof (Join_normal_nonempty (x :: e) He) as Hj. unfold abs_path in Hs. cbn in Hs.
    destruct (Join (x :: e) "/") as [|c j] eqn:E; [by apply Hj|].
    change (match e with [] => x | _ :: _ => _ end) with (Join (x :: e) "/") in Hs.
    rewrite E in Hs. cbn in Hs. lia.
  - rewrite abs_path_app, slen_app in Hs by done. unfold abs_path in Hs at 2. cbn in Hs. lia.
Qed.
End resolve.

Section longest_prefix.
Context {W : Type}.
Implicit Types (mounts : list (string * Iface W)).

(** A configured mount [(mp, p)] the router's test lets through for the path [k]:
    its elements [l] are the first ones of [k], with [s] left below it, and a mount
    at the root (no [l]) has nothing below it. *)
Definition reaches mounts (k : list string) (p : Iface W) (l s : list string) : Prop :=
  ∃ mp, (mp, p) ∈ mounts ∧ Clean mp = abs_path l ∧ Forall normal l ∧
    k = l ++ s ∧ (l = [] → s = []).

Context mounts (Habs : Forall (λ mv, IsAbs mv.1 = true) mounts).
Context (Hdistinct : NoDup (Clean <$> mounts.*1)).

Lemma router_paths_nodup : NoDup (mnt_path <$> NewMountRouter mounts).
Proof using Hdistinct.
  unfold NewMountRouter.
  rewrite (fmap_Permutation mnt_path _ _ (sort_by_perm longer_first _)).
  change (map ?f ?l) with (f <$> l). rewrite <- list_fmap_compose.
  by rewrite <- list_fmap_compose in Hdistinct.
Qed.

Lemma reaches_longest k m :
  Forall normal k →
  longest_cover (NewMountRouter mounts) (abs_path k) m ↔
  m ∈ NewMountRouter mounts ∧
  ∃ l s, mnt_path m = abs_path l ∧ reaches mounts k (mnt_provider m) l s ∧
    ∀ p' l' s', reaches mounts k p' l' s' → (length l' <= length l)%nat.
Proof using Habs Hdistinct.
  intros Hk. split.
  - intros (Hin & Hc & Hl). split; [done|].
    apply NewMountRouter_elem in Hin as Hin'. destruct Hin' as (mp & Hmp & Hmnt).
    rewrite Forall_forall in Habs. destruct (Clean_rooted mp) as (l & Hln & Hcl); [by apply (Habs _ Hmnt)|].
    rewrite Hmp, Hcl in Hc. apply mount_covers_elements in Hc as (s & -> & Hls); [|done..].
    exists l, s. split_and!; [congruence|by exists mp|].
    intros p' l' s' (mp' & Hmnt' & Hcl' & Hln' & Hk' & Hls').
    destruct (decide (length l' <= length l)%nat) as [|Hlt]; [done|exfalso].
    set (m' := {| mnt_path := abs_path l'; mnt_provider := p' |}).
    assert (slen (mnt_path m') <= slen (mnt_path m))%nat as Hle.
    { apply Hl; [apply NewMountRouter_elem; by exists mp'|].
      apply mount_covers_elements; [done..|]. by exists s'. }
    cbn in Hle. rewrite Hmp, Hcl in Hle.
    apply app_eq_inv in Hk' as [(e & -> & ->)|(e & -> & ->)].
    + rewrite length_app in Hlt. lia.
    + apply Forall_app in Hln' as [_ He]. apply prefix_slen in Hle as ->; [|done].
      rewrite app_nil_r in Hlt. lia.
  - intros (Hin & l & s & Hmp & (mp & Hmnt & Hcl & Hln & -> & Hls) & Hmax).
    split_and!; [done|rewrite Hmp; apply mount_covers_elements; eauto|].
    intros m' Hin' Hc'. apply NewMountRouter_elem in Hin' as (mp' & Hmp' & Hmnt').
    rewrite Forall_forall in Habs. destruct (Clean_rooted mp') as (l' & Hln' & Hcl'); [by apply (Habs _ Hmnt')|].
    rewrite Hmp', Hcl' in Hc'. apply mount_covers_elements in Hc' as (s' & Hk' & Hls'); [|done..].
    assert (length l' <= length l)%nat as Hle by (eapply Hmax; by exists mp').
    rewrite Hmp, Hmp', Hcl'. symmetry in Hk'.
    apply app_eq_inv in Hk' as [(e & -> & ->)|(e & -> & ->)].
    + rewrite length_app in Hle. destruct e; [by rewrite app_nil_r|cbn in Hle; lia].
    + destruct e; [by rewrite app_nil_r|].
      destruct l' as [|y l']; [by specialize (Hls' eq_refl)|].
      rewrite (abs_path_app (y :: l')) by done. rewrite slen_app. lia.
Qed.

Lemma resolve_Ok k path p rel :
  Forall normal k → Clean path = abs_path k →
  MountRouter_resolve (NewMountRouter mounts) path = Ok (p, rel) ↔
  ∃ l s, reaches mounts k p l s ∧ rel = abs_path s ∧
    ∀ p' l' s', reaches mounts k p' l' s' → (length l' <= length l)%nat.
Proof using Habs Hdistinct.
  intros Hk Hpath. unfold MountRouter_resolve. rewrite Hpath.
  pose proof (resolve_in_cases _ (abs_path k) (NewMountRouter_sorted mounts)) as Hres.
  split.
  - intros Heq. rewrite Heq in Hres. destruct Hres as (m & Hm & -> & ->).
    apply reaches_longest in Hm as (_ & l & s & Hmp & Hs & Hmax); [|done].
    exists l, s. split_and!; [done| |done]. destruct Hs as (_ & _ & _ & _ & -> & Hls).
    rewrite Hmp. by apply mount_rel_elements.
  - intros (l & s & Hs & -> & Hmax). pose proof Hs as (mp & Hmnt & Hcl & Hln & Hks & Hls).
    set (m := {| mnt_path := abs_path l; mnt_provider := p |}).
    assert (longest_cover (NewMountRouter mounts) (abs_path k) m) as Hm.
    { apply reaches_longest; [done|]. split; [apply NewMountRouter_elem; by exists mp|].
      by exists l, s. }
    destruct (resolve_in _ _) as [[p' rel']|e].
    + destruct Hres as (m' & Hm' & -> & ->).
      rewrite <- (longest_cover_unique _ _ m m' router_paths_nodup Hm Hm').
      cbn. by rewrite Hks, mount_rel_elements.
    + destruct Hres as (_ & Hnone). destruct Hm as (Hin & Hc & _).
      rewrite (Hnone m Hin) in Hc. done.
Qed.
End longest_prefix.

Lemma reaches_perm {W} (ms ms' : list (string * Iface W)) k p l s :
  ms ≡ₚ ms' → reaches ms k p l s → reaches ms' k p l s.
Proof. intros Hp (mp & Hin & ?). exists mp. by rewrite <- Hp. Qed.

(** What a router is to do: the mount [(mp, p)] serves the path [k] when its
    elements [l] are the first ones of [k]; [s] is what is left below it. *)
Definition serves {W} (mounts : list (string * Iface W)) (k : list string) (p : Iface W)
    (l s : list string) : Prop :=
  ∃ mp, (mp, p) ∈ mounts ∧ Clean mp = abs_path l ∧ Forall normal l ∧ k = l ++ s.

(** The router's test is that relation away from a mount at the root. *)
Definition rootless {W} (mounts : list (string * Iface W)) (k : list string) : Prop :=
  Forall (λ mv, Clean mv.1 ≠ "/") mounts ∨ k = [].

Lemma serves_reaches {W} (mounts : list (string * Iface W)) k p l s :
  rootless mounts k → serves mounts k p l s ↔ reaches mounts k p l s.
Proof.
  intros Hr. split; intros (mp & Hin & Hc & Hl & Hk); [|exists mp; tauto].
  exists mp. split_and!; [done..|]. intros Hnil. subst l. destruct Hr as [Hr|Hr].
  - rewrite Forall_forall in Hr. by destruct (Hr _ Hin).
  - by destruct s; subst k.
Qed.

(** A mount at the root never serves the paths below it: the test wants the mount
    path and a slash before them. *)
Lemma root_mount_serves_root_only {W} (p : Iface W) x l :
  Forall normal (x :: l) →
  MountRouter_resolve (NewMountRouter [("/", p)]) (abs_path (x :: l)) = Err (Errno ENOENT) ∧
  serves [("/", p)] (x :: l) p [] (x :: l).
Proof.
  intros Hn. split; [|exists "/"; split_and!; [constructor|done|constructor|done]].
  unfold MountRouter_resolve. rewrite Clean_abs_path by done.
  change (NewMountRouter [("/", p)]) with [{| mnt_path := abs_path []; mnt_provider := p |}].
  cbn [resolve_in mnt_path].
  destruct (mount_covers (abs_path []) (abs_path (x :: l))) eqn:Hc; [|done].
  apply mount_covers_elements in Hc as (s & Heq & Hs); [|constructor|done].
  rewrite (Hs eq_refl) in Heq. done.
Qed.

(** C35: of absolute mounts with pairwise different canonical paths, none of them
    the root (or for the path / itself), an absolute path is served by the mount
    whose elements are the longest prefix of its own, and the provider receives
    the remaining elements as an absolute canonical path. A path no mount serves
    is ENOENT, and neither the order of the mounts map nor the spelling of a mount
    path plays a part. *)
Theorem router_longest_prefix {W} (mounts : list (string * Iface W)) path k :
  Forall (λ mv, IsAbs mv.1 = true) mounts → NoDup (Clean <$> mounts.*1) →
  Forall normal k → Clean path = abs_path k →
  (rootless mounts k → ∀ p rel, MountRouter_resolve (NewMountRouter mounts) path = Ok (p, rel) ↔
     ∃ l s, serves mounts k p l s ∧ rel = abs_path s ∧
       ∀ p' l' s', serves mounts k p' l' s' → (length l' <= length l)%nat) ∧
  (∀ e, MountRouter_resolve (NewMountRouter mounts) path = Err e → e = Errno ENOENT) ∧
  (∀ mounts', mounts' ≡ₚ mounts →
     MountRouter_resolve (NewMountRouter mounts') path = MountRouter_resolve (NewMountRouter mounts) path).
Proof.
  intros Habs Hnd Hk Hpath.
  assert (Herr : ∀ (ms : list (string * Iface W)) e, MountRouter_resolve (NewMountRouter ms) path = Err e → e = Errno ENOENT).
  { intros ms e He. unfold MountRouter_resolve in He.
    pose proof (resolve_in_cases _ (Clean path) (NewMountRouter_sorted ms)) as Hres.
    rewrite He in Hres. tauto. }
  split_and!; [|by apply Herr|].
  { intros Hr p rel. rewrite (resolve_Ok mounts Habs Hnd k path p rel Hk Hpath).
    by setoid_rewrite (λ p l s, serves_reaches mounts k p l s Hr). }
  intros ms' Hp.
  assert (Habs' : Forall (λ mv, IsAbs mv.1 = true) ms') by by rewrite Hp.
  assert (Hnd' : NoDup (Clean <$> ms'.*1)) by by rewrite Hp.
  assert (Hiff : ∀ p rel, MountRouter_resolve (NewMountRouter ms') path = Ok (p, rel) ↔
                    MountRouter_resolve (NewMountRouter mounts) path = Ok (p, rel)).
  { intros p rel. rewrite (resolve_Ok ms' Habs' Hnd' k path p rel Hk Hpath), (resolve_Ok mounts Habs Hnd k path p rel Hk Hpath).
    split; intros (l & s & Hs & -> & Hmax); exists l, s;
      (split_and!; [by eapply reaches_perm|done|]); intros p' l' s' Hs'; eapply Hmax, reaches_perm; done. }
  destruct (MountRouter_resolve (NewMountRouter ms') path) as [[p rel]|e] eqn:E1.
  - symmetry. by apply Hiff.
  - destruct (MountRouter_resolve (NewMountRouter mounts) path) as [[p rel]|e'] eqn:E2.
    + by pose proof (proj2 (Hiff p rel) eq_refl).
    + apply Herr in E1 as ->. by apply Herr in E2 as ->.
Qed.

(** [/a] and [/a/b] are mounted; [/a/./b/c] goes to the second as [/c]. *)
Lemma router_longest_prefix_witness :
  let p1 := realfs_iface (H := linux_abi) (empty_os unit) (NewRealFSProvider "/srv") in
  MountRouter_resolve (NewMountRouter [("/a", p1 1%N); ("/a/x/../b/", p1 2%N)]) "/a/./b/c"
  = Ok (p1 2%N, "/c").
Proof.
  intros p1.
  apply (proj1 (router_longest_prefix [("/a", p1 1%N); ("/a/x/../b/", p1 2%N)] "/a/./b/c" ["a"; "b"; "c"]
    ltac:(by repeat constructor) ltac:(vm_compute; repeat constructor; set_solver)
    ltac:(by repeat constructor) ltac:(reflexivity)) ltac:(left; repeat constructor; by vm_compute) (p1 2%N) "/c").
  exists ["a"; "b"], ["c"]. split_and!; [|reflexivity|].
  - exists "/a/x/../b/". split_and!; [set_solver|reflexivity|by repeat constructor|reflexivity].
  - intros p' l' s' (mp & Hin & Hcl & Hn & Hk).
    rewrite !elem_of_cons, elem_of_nil in Hin.
    destruct Hin as [[= -> ->]|[[= -> ->]|[]]].
    + assert (l' = ["a"]) as ->; [|cbn; lia].
      apply abs_path_inj; [done|by repeat constructor|]. by rewrite <- Hcl.
    + assert (l' = ["a"; "b"]) as ->; [|cbn; lia].
      apply abs_path_inj; [done|by repeat constructor|]. by rewrite <- Hcl.
Defined.

(** ** The router as a provider: agreement and preservation *)

Section delegation.
Context {W : Type} `{!Clock W}.
Implicit Types (r : MountRouter W).

(** What a provider receives below its mount is always an absolute path,
    whatever the client's path and the mount path look like. *)
Lemma mount_rel_abs mp path : mount_covers mp path = true → IsAbs (mount_rel mp path) = true.
Proof.
  unfold mount_covers, mount_rel. case_decide as Hrel; [done|].
  intros [->%bool_decide_eq_true|[e ->]%HasPrefix_spec]%orb_true_iff.
  - exfalso. apply Hrel. rewrite <- (sapp_nil_r mp) at 1. apply TrimPrefix_app.
  - rewrite sapp_assoc, TrimPrefix_app. apply IsAbs_slash.
Qed.

Lemma resolve_mount r path p rel :
  MountRouter_resolve r path = Ok (p, rel) → IsAbs rel = true ∧ ∃ m, m ∈ r ∧ p = mnt_provider m.
Proof.
  unfold MountRouter_resolve. generalize (Clean path). intros q.
  induction r as [|m r IH]; cbn; [done|]. destruct (mount_covers (mnt_path m) q) eqn:Hc.
  - intros [= <- <-]. split; [by apply mount_rel_abs|]. exists m. split; [constructor|done].
  - intros Hr. destruct (IH Hr) as [? (m' & ? & ?)]. split; [done|]. exists m'. split; [by constructor|done].
Qed.

(** Mount for mount: the same path, the same identity, providers that agree. *)
Definition mount_agree (m1 m2 : mount W) : Prop :=
  mnt_path m1 = mnt_path m2 ∧ iface_id (mnt_provider m1) = iface_id (mnt_provider m2) ∧
  provider_agree (λ f, IsAbs f = true) (iface_ops (mnt_provider m1)) (iface_ops (mnt_provider m2)).

Lemma resolve_agree r1 r2 path :
  Forall2 mount_agree r1 r2 →
  match MountRouter_resolve r1 path, MountRouter_resolve r2 path with
  | Ok (p1, rel1), Ok (p2, rel2) =>
      rel1 = rel2 ∧ IsAbs rel2 = true ∧ iface_id p1 = iface_id p2 ∧
      provider_agree (λ f, IsAbs f = true) (iface_ops p1) (iface_ops p2)
  | Err e1, Err e2 => e1 = e2
  | _, _ => False
  end.
Proof.
  intros H2. unfold MountRouter_resolve. generalize (Clean path). intros q.
  induction H2 as [|m1 m2 r1 r2 (Hp & Hid & Hag) _ IH]; cbn; [done|].
  rewrite <- Hp. destruct (mount_covers (mnt_path m1) q) eqn:Hc; [|done].
  split_and!; auto using mount_rel_abs.
Qed.

Lemma descendant_entries_agree r1 r2 path es :
  Forall2 mount_agree r1 r2 → descendant_entries path r1 es ≡ₘ descendant_entries path r2 es.
Proof.
  intros H2. revert es. induction H2 as [|m1 m2 r1 r2 (Hp & Hid & Hag) _ IH]; intros es; [done|].
  cbn. apply meq_bind; [|done]. unfold descendant_entry. rewrite Hp.
  repeat case_match; try done; (apply meq_bind; [by apply Hag|done]).
Qed.

Lemma hasDescendantMount_agree r1 r2 path :
  Forall2 mount_agree r1 r2 →
  MountRouter_hasDescendantMount r1 path = MountRouter_hasDescendantMount r2 path.
Proof.
  unfold MountRouter_hasDescendantMount.
  induction 1 as [|m1 m2 r1 r2 (Hp & _) _ IH]; [done|]. cbn. by rewrite Hp, IH.
Qed.

Lemma router_agree r1 r2 :
  Forall2 mount_agree r1 r2 →
  provider_agree (λ _, True) (router_provider r1) (router_provider r2).
Proof.
  intros H2. split; intros; cbn; try done;
    unfold MountRouter_Stat, MountRouter_ReadDir, MountRouter_Open, MountRouter_Create,
      MountRouter_Mkdir, MountRouter_Chmod, MountRouter_Chtimes, MountRouter_Remove,
      MountRouter_RemoveAll, MountRouter_Symlink, MountRouter_Readlink, MountRouter_Fsync,
      with_mount, with_mount_opt.
  1: pose proof (resolve_agree r1 r2 (Clean f) H2) as Hr.
  2: pose proof (resolve_agree r1 r2 (Clean f) H2) as Hr.
  10: { unfold MountRouter_Rename. pose proof (resolve_agree r1 r2 f H2) as Hr.
       pose proof (resolve_agree r1 r2 g H2) as Hr'.
       destruct (MountRouter_resolve r1 f) as [[]|], (MountRouter_resolve r2 f) as [[]|]; try done;
         [|by subst].
       destruct (MountRouter_resolve r1 g) as [[]|], (MountRouter_resolve r2 g) as [[]|]; try done;
         [|by subst].
       destruct Hr as (-> & ? & Hid & Hag), Hr' as (-> & ? & Hid' & _).
       rewrite Hid, Hid'. case_match; [by apply Hag|done]. }
  3-12: pose proof (resolve_agree r1 r2 f H2) as Hr.
  all: destruct (MountRouter_resolve r1 _) as [[p1 rel1]|e1],
         (MountRouter_resolve r2 _) as [[p2 rel2]|e2]; try done;
       try (destruct Hr as (-> & Habs & _ & Hag)); try subst;
       try (by apply Hag); try done.
  - apply meq_bind; [by apply Hag|]. intros []; [done|].
    by rewrite (hasDescendantMount_agree r1 r2).
  - by rewrite (hasDescendantMount_agree r1 r2).
  - apply meq_bind; [by apply Hag|]. intros []; cbn;
      [|case_match; [done|]]; (apply meq_bind; [by apply descendant_entries_agree|done]).
  - apply meq_bind; [done|]. intros []; cbn;
      (apply meq_bind; [by apply descendant_entries_agree|done]).
Qed.
End delegation.

Section preservation.
Context {W : Type} `{!Clock W} (R : W → W → Prop) `{!PreOrder R}.

Lemma syntheticDirInfo_respects name : respects R (syntheticDirInfo name).
Proof. intros w a w' [= _ <-]. reflexivity. Qed.

#[local] Hint Resolve syntheticDirInfo_respects : respects.

Context (r : MountRouter W).
Hypothesis Hall : Forall (λ m, provider_respects R (iface_ops (mnt_provider m))) r.

Lemma resolve_respects path p rel :
  MountRouter_resolve r path = Ok (p, rel) → provider_respects R (iface_ops p).
Proof using Hall.
  intros (_ & m & Hin & ->)%resolve_mount. rewrite Forall_forall in Hall. by apply Hall.
Qed.

Lemma descendant_entries_respects path : respects R (MountRouter_descendantMountEntries r path).
Proof using Hall PreOrder0.
  unfold MountRouter_descendantMountEntries. generalize (∅ : gmap string DirEntry).
  revert Hall. generalize r. clear r. intros r.
  induction 1 as [|m r' Hm _ IH]; intros es; cbn; [by apply respects_ret|].
  apply respects_bind; [apply _| |done].
  unfold descendant_entry, syntheticDirEntry. solve_respects.
Qed.

Lemma with_mount_respects {A} path (k : Provider W → string → M W (result err A)) :
  (∀ p rel, provider_respects R p → respects R (k p rel)) → respects R (with_mount r path k).
Proof using Hall PreOrder0.
  intros Hk. unfold with_mount. pose proof (resolve_respects path) as Hres.
  destruct (MountRouter_resolve r path) as [[p rel]|]; [eauto|by apply respects_ret].
Qed.

Lemma with_mount_opt_respects path (k : Provider W → string → M W (option err)) :
  (∀ p rel, provider_respects R p → respects R (k p rel)) → respects R (with_mount_opt r path k).
Proof using Hall PreOrder0.
  intros Hk. unfold with_mount_opt. pose proof (resolve_respects path) as Hres.
  destruct (MountRouter_resolve r path) as [[p rel]|]; [eauto|by apply respects_ret].
Qed.

Lemma with_mount_handle path k w h w' :
  (∀ p rel, provider_respects R p → k p rel w = Some (Ok h, w') → handle_respects R h) →
  with_mount r path k w = Some (Ok h, w') → handle_respects R h.
Proof using Hall.
  intros Hk. unfold with_mount. pose proof (resolve_respects path) as Hres.
  destruct (MountRouter_resolve r path) as [[p rel]|]; [eauto|done].
Qed.

(** A router over providers that all respect [R] respects it. *)
Lemma router_respects : provider_respects R (router_provider r).
Proof using Hall PreOrder0.
  split; cbn; intros;
    try (apply with_mount_respects; by intros ? ? []);
    try (apply with_mount_opt_respects; by intros ? ? []).
  - unfold MountRouter_Stat. pose proof (resolve_respects (Clean f)) as Hres.
    destruct (MountRouter_resolve r _) as [[p rel]|]; solve_respects; eauto.
  - unfold MountRouter_ReadDir. pose proof (resolve_respects (Clean f)) as Hres.
    pose proof (descendant_entries_respects (Clean f)).
    destruct (MountRouter_resolve r _) as [[p rel]|]; solve_respects; eauto.
  - eapply with_mount_handle; [|done]. cbn. intros p rel Hp. by apply pr_Open_handle.
  - eapply with_mount_handle; [|done]. cbn. intros p rel Hp. by apply pr_Create_handle.
  - unfold MountRouter_Rename. pose proof (resolve_respects f) as Hres.
    destruct (MountRouter_resolve r f) as [[p rel]|]; solve_respects.
Qed.
End preservation.

(** ** Listings show the nested mounts *)

Section listings.
Context {W : Type} `{!Clock W}.

Definition mount_entry_name (rel : string) : string :=
  match Index rel "/" with Some idx => string_take idx rel | None => rel end.

Definition keyed (es : gmap string DirEntry) : Prop := ∀ n e, es !! n = Some e → de_name e = n.

Lemma keyed_insert n e es : keyed es → de_name e = n → keyed (<[n := e]> es).
Proof. intros Hk He n' e'. rewrite lookup_insert_Some. naive_solver. Qed.

(** One mount adds its name (when it has one) and nothing else. *)
Lemma descendant_entry_spec path (m : mount W) es w es' w' :
  descendant_entry path m es w = Some (es', w') → keyed es →
  keyed es' ∧
  dom es' = dom es ∪
    match relativeDescendantPath (mnt_path m) path with
    | Some rel => if decide (mount_entry_name rel = "") then ∅ else {[ mount_entry_name rel ]}
    | None => ∅
    end.
Proof.
  unfold descendant_entry, mount_entry_name, syntheticDirEntry, syntheticDirInfo.
  unfold mbind, M_bind, mret, M_ret. intros Hr Hk.
  destruct (relativeDescendantPath _ _) as [rel|]; [|simplify_eq; split; [done|set_solver]].
  destruct (Index rel "/") as [i|]; case_decide; simplify_eq; try (split; [done|set_solver]).
  - split; [by apply keyed_insert|]. rewrite dom_insert_L. set_solver.
  - destruct (es !! rel) as [e|] eqn:He; cbn [from_option] in Hr;
      repeat case_match; simplify_eq;
      try (split; [by apply keyed_insert|]; rewrite dom_insert_L; set_solver).
    split; [done|]. apply elem_of_dom_2 in He. set_solver.
Qed.

Lemma descendant_entries_spec path (r : MountRouter W) es w es' w' :
  descendant_entries path r es w = Some (es', w') → keyed es →
  keyed es' ∧ dom es ⊆ dom es' ∧
  ∀ m rel, m ∈ r → relativeDescendantPath (mnt_path m) path = Some rel →
    mount_entry_name rel ≠ "" → mount_entry_name rel ∈ dom es'.
Proof.
  revert es w. induction r as [|m r IH]; cbn; intros es w Hr Hk.
  { apply M_ret_Some in Hr as [-> ->]. split_and!; [done..|]. by intros ? ? ?%not_elem_of_nil. }
  apply M_bind_Some in Hr as (es1 & w1 & H1 & H2).
  destruct (descendant_entry_spec _ _ _ _ _ _ H1 Hk) as [Hk1 Hd1].
  destruct (IH _ _ H2 Hk1) as (Hk2 & Hd2 & Hall). split_and!; [done|set_solver|].
  intros m' rel [->|Hin]%elem_of_cons Hrel Hne; [|eauto].
  apply Hd2. rewrite Hd1, Hrel, decide_False by done. set_solver.
Qed.

Lemma base_names_spec es seen :
  NoDup (base_names es seen) ∧
  ∀ n, n ∈ base_names es seen ↔ n ∉ seen ∧ n ∈ de_name <$> es.
Proof.
  revert seen. induction es as [|e es IH]; intros seen; cbn; [split; [constructor|set_solver]|].
  case_decide as Hs.
  - destruct (IH seen) as [Hnd Hin]. split; [done|]. intros n. rewrite Hin, elem_of_cons. naive_solver.
  - destruct (IH ({[de_name e]} ∪ seen)) as [Hnd Hin]. split.
    + constructor; [rewrite Hin; set_solver|done].
    + intros n. rewrite !elem_of_cons, Hin. destruct (decide (n = de_name e)); set_solver.
Qed.

Lemma by_name_spec es n :
  match by_name es !! n with
  | Some e => de_name e = n ∧ e ∈ es
  | None => n ∉ de_name <$> es
  end.
Proof.
  induction es as [|e es IH] using rev_ind; [unfold by_name; cbn; rewrite lookup_empty; set_solver|].
  assert (by_name (es ++ [e]) = <[de_name e := e]> (by_name es)) as ->.
  { unfold by_name. by rewrite fold_left_app. }
  rewrite fmap_app. destruct (decide (de_name e = n)) as [<-|Hne].
  - rewrite lookup_insert_eq. split; [done|]. apply elem_of_app. right. constructor.
  - rewrite lookup_insert_ne by done. destruct (by_name es !! n).
    + destruct IH. split; [done|]. apply elem_of_app. by left.
    + rewrite elem_of_app. cbn. rewrite list_elem_of_singleton. naive_solver.
Qed.

Lemma merge_entries_names es mes :
  keyed mes →
  NoDup (de_name <$> merge_entries es mes) ∧
  ∀ n, n ∈ de_name <$> merge_entries es mes ↔ n ∈ de_name <$> es ∨ n ∈ dom mes.
Proof.
  intros Hk. unfold merge_entries.
  set (names := base_names es ∅ ++ _).
  destruct (base_names_spec es ∅) as [Hnd Hbase].
  assert (Hnames : NoDup names ∧ ∀ n, n ∈ names ↔ n ∈ de_name <$> es ∨ n ∈ dom mes).
  { set (only := filter _ _) in names.
    assert (Hp : names ≡ₚ base_names es ∅ ++ only) by (unfold names, sort_Strings; by rewrite sort_by_perm).
    split.
    - rewrite Hp. apply NoDup_app. split_and!; [done| |apply NoDup_filter, NoDup_fst_map_to_list].
      intros n Hn Hn'. apply list_elem_of_filter in Hn' as [? _]. done.
    - intros n. unfold only in Hp. rewrite Hp, elem_of_app, list_elem_of_filter, !Hbase, elem_of_dom.
      assert (n ∈ (map_to_list mes).*1 ↔ is_Some (mes !! n)) as ->.
      { rewrite list_elem_of_fmap.
        split; [intros ([k e] & -> & Hl); apply elem_of_map_to_list in Hl; by exists e|].
        intros [e He]. exists (n, e). split; [done|]. by apply elem_of_map_to_list. }
      destruct (decide (n ∈ de_name <$> es)); set_solver. }
  destruct Hnames as [HndN HinN].
  assert (Hlook : ∀ n, n ∈ names → ∃ e, (mes ∪ by_name es) !! n = Some e ∧ de_name e = n).
  { intros n Hn. destruct (mes !! n) as [e|] eqn:He.
    - exists e. split; [by apply lookup_union_Some_l|by apply Hk].
    - pose proof (by_name_spec es n) as Hb. rewrite lookup_union_r by done.
      destruct (by_name es !! n) as [e|]; [exists e; tauto|].
      exfalso. apply HinN in Hn as [?|Hd]; [done|]. apply elem_of_dom in Hd as [? ?]. congruence. }
  assert (de_name <$> omap (λ n, (mes ∪ by_name es) !! n) names = names) as ->; [|done].
  clear HndN HinN Hnd Hbase. induction names as [|n ns IH]; [done|]. cbn.
  destruct (Hlook n) as (e & -> & He); [constructor|]. cbn. rewrite He. f_equal.
  apply IH. intros n' ?. apply Hlook. by constructor.
Qed.

Lemma Index_no_slash x r :
  contains_byte slash x = false →
  Index x "/" = None ∧ Index (x +:+ String slash r) "/" = Some (slen x).
Proof.
  induction x as [|c x IH]; intros Hx.
  { split; [done|]. rewrite sapp_nil_l. cbn [Index].
    by rewrite (HasPrefix_app "/" r : HasPrefix (String slash r) "/" = true). }
  cbn [contains_byte] in Hx. apply orb_false_iff in Hx as [Hc%bool_decide_eq_false Hx].
  destruct (IH Hx) as [H1 H2]. rewrite sapp_cons. cbn [Index HasPrefix].
  rewrite bool_decide_eq_false_2 by done. cbn [andb]. by rewrite H1, H2.
Qed.

(** In elements: a mount below the directory, and the name it is listed under. *)
Lemma relativeDescendantPath_elements k x s :
  Forall normal (k ++ x :: s) →
  ∃ rel, relativeDescendantPath (abs_path (k ++ x :: s)) (abs_path k) = Some rel ∧
    mount_entry_name rel = x.
Proof.
  intros Hn. pose proof Hn as [Hk Hxs]%Forall_app. inversion_clear Hxs as [|? ? Hx Hs].
  exists (Join (x :: s) "/"). assert (Join (x :: s) "/" ≠ "") as Hne.
  { apply Join_normal_nonempty; [by constructor|done]. }
  split.
  - unfold relativeDescendantPath. rewrite !Clean_abs_path by done.
    rewrite decide_False.
    2:{ intros Heq%abs_path_inj; [|done..]. apply (f_equal length) in Heq.
        rewrite length_app in Heq. cbn in Heq. lia. }
    destruct k as [|y k].
    + rewrite decide_True by done. cbn [app]. change (abs_path (x :: s)) with ("/" +:+ Join (x :: s) "/").
      by rewrite TrimPrefix_app, decide_False.
    + rewrite decide_False.
      2:{ change "/" with (abs_path []). by intros ?%abs_path_inj; [|done|constructor]. }
      rewrite abs_path_app by done.
      assert (abs_path (y :: k) +:+ abs_path (x :: s) = (abs_path (y :: k) +:+ "/") +:+ Join (x :: s) "/")
        as -> by by rewrite sapp_assoc.
      by rewrite HasPrefix_app, TrimPrefix_app, decide_False.
  - destruct Hx as (_ & _ & _ & Hsl). unfold mount_entry_name. destruct s as [|y s].
    + cbn [Join]. by rewrite (proj1 (Index_no_slash x "" Hsl)).
    + rewrite Join_cons. change ("/" +:+ ?t) with (String slash t).
      rewrite (proj2 (Index_no_slash x _ Hsl)). apply string_take_app.
Qed.
End listings.

(** A directory listing of the router has no name twice, contains every entry
    the serving provider lists, and contains the next path element of every mount
    strictly below the directory, also where the directories in between exist in no
    provider. *)
Theorem router_listing_complete {W} `{!Clock W} (r : MountRouter W) path k w es w' :
  Forall normal k → Clean path = abs_path k →
  MountRouter_ReadDir r path w = Some (Ok es, w') →
  NoDup (de_name <$> es) ∧
  (∀ m x s, m ∈ r → mnt_path m = abs_path (k ++ x :: s) → Forall normal (x :: s) →
     x ∈ de_name <$> es) ∧
  (∀ p rel entries w1, MountRouter_resolve r path = Ok (p, rel) →
     ReadDir (iface_ops p) rel w = Some (Ok entries, w1) →
     ∀ e, e ∈ entries → de_name e ∈ de_name <$> es).
Proof.
  intros Hk Hpath Hr. unfold MountRouter_ReadDir in Hr.
  assert (MountRouter_resolve r (Clean path) = MountRouter_resolve r path) as Hres.
  { unfold MountRouter_resolve. by rewrite Hpath, Clean_abs_path. }
  rewrite Hres in Hr. apply M_bind_Some in Hr as (res & w1 & H1 & H2).
  assert (∃ base mes w2, es = merge_entries base mes ∧
      MountRouter_descendantMountEntries r (Clean path) w1 = Some (mes, w2) ∧
      (∀ entries, res = Ok entries → base = entries)) as (base & mes & w2 & -> & Hmes & Hbase).
  { destruct res as [entries|e].
    - apply M_bind_Some in H2 as (mes & w2 & Hmes & [[= ->] ->]%M_ret_Some).
      exists entries, mes, w2. split_and!; [done..|]. by intros ? [= ->].
    - destruct (_ && _); [by apply M_ret_Some in H2 as [? ?]|].
      apply M_bind_Some in H2 as (mes & w2 & Hmes & H2).
      case_decide; apply M_ret_Some in H2 as [[= ->] ->].
      exists [], mes, w2. split_and!; [done..|]. by intros ? [=]. }
  destruct (descendant_entries_spec _ _ _ _ _ _ Hmes) as (Hkey & _ & Hdesc); [by intros ? ?|].
  destruct (merge_entries_names base mes Hkey) as [Hnd Hin]. split_and!; [done| |].
  - intros m x s Hm Hmp Hxs. apply Hin. right.
    destruct (relativeDescendantPath_elements k x s) as (rel & Hrel & <-); [by apply Forall_app|].
    inversion_clear Hxs as [|? ? Hx _]. destruct Hx as [Hne _].
    apply (Hdesc m rel Hm); [|done]. by rewrite Hmp, Hpath.
  - intros p rel entries w3 Hp Hrd e He. apply Hin. left. rewrite Hp in H1.
    rewrite H1 in Hrd. simplify_eq. rewrite (Hbase _ eq_refl). by apply list_elem_of_fmap_2.
Qed.

Lemma router_listing_complete_witness :
  let p := realfs_iface (H := linux_abi) (empty_os Z) (NewRealFSProvider "/srv") 1 in
  let r := NewMountRouter [("/w/.host/example", p)] in
  ∃ es, MountRouter_ReadDir (Clock0 := λ w, w) r "/w" 7 = Some (Ok es, 7) ∧
    NoDup (de_name <$> es) ∧ ".host" ∈ de_name <$> es.
Proof.
  intros p r. eexists. split; [vm_compute; reflexivity|].
  match goal with |- NoDup (_ <$> ?es) ∧ _ =>
    destruct (router_listing_complete (Clock0 := λ w, w) r "/w" ["w"] 7 es 7) as (H1 & H2 & _)
  end; [by repeat constructor|reflexivity|vm_compute; reflexivity|].
  split; [exact H1|].
  apply (H2 {| mnt_path := "/w/.host/example"; mnt_provider := p |} ".host" ["example"]);
    [constructor|reflexivity|by repeat constructor].
Defined.
