(* ===== verification/VfsHooks.v ===== *)
(** * The hook engine: [pkg/vfs/hooks.go]

    Hooks are callbacks over the world [W]; the engine's own mutable state (the
    task queue, the closed and side-effect flags, the task counter) lives in the
    world too. A queued task names its hook by its index in the engine's fixed
    list. Rules compile to hooks as in the source. *)

From S2P Require Import Prelude GoStrings GoPath VfsBase.

(** ** Data *)

Definition HookOpStat := "stat".
Definition HookOpReadDir := "readdir".
Definition HookOpOpen := "open".
Definition HookOpCreate := "create".
Definition HookOpMkdir := "mkdir".
Definition HookOpChmod := "chmod".
Definition HookOpChtimes := "chtimes".
Definition HookOpRemove := "remove".
Definition HookOpRemoveAll := "remove_all".
Definition HookOpRename := "rename".
Definition HookOpSymlink := "symlink".
Definition HookOpReadlink := "readlink".
Definition HookOpRead := "read".
Definition HookOpWrite := "write".
Definition HookOpClose := "close".
Definition HookOpSync := "sync".
Definition HookOpTruncate := "truncate".

Definition HookPhaseBefore := "before".
Definition HookPhaseAfter := "after".

Definition HookActionAllow := "allow".
Definition HookActionBlock := "block".
Definition HookActionMutateWrite := "mutate_write".

Record HookRequest := {
  hreq_Op : string; hreq_Path : string; hreq_NewPath : string;
  hreq_Flags : Z; hreq_Mode : Z; hreq_UID : Z; hreq_GID : Z;
  hreq_Offset : Z; hreq_Data : bytes }.

Record HookFileMeta := {
  meta_Size : Z; meta_Mode : Z; meta_UID : Z; meta_GID : Z; meta_HasOwnership : bool }.

Record HookResult := {
  hres_Err : option err; hres_Bytes : Z; hres_Meta : option HookFileMeta }.

Record MutateWriteRequest := {
  mw_Path : string; mw_Offset : Z; mw_Size : Z; mw_Mode : Z; mw_UID : Z; mw_GID : Z }.

(** The two implementations of [HookMatcher]; [None] is a nil function. *)
Inductive HookMatcher :=
| OpPathMatcher (Ops : list string) (PathPattern : string)
| HookMatcherFunc (f : option (HookRequest → bool)).

Record HookRule (W : Type) := {
  rule_Name : string; rule_Phase : string; rule_Ops : list string;
  rule_PathPattern : string; rule_Action : string;
  rule_ActionFunc : option (HookRequest → M W string);
  rule_MutateWriteFunc : option (MutateWriteRequest → M W (result err bytes));
  rule_MutateWrite : bytes }.
Arguments rule_Name {W}. Arguments rule_Phase {W}. Arguments rule_Ops {W}.
Arguments rule_PathPattern {W}. Arguments rule_Action {W}. Arguments rule_ActionFunc {W}.
Arguments rule_MutateWriteFunc {W}. Arguments rule_MutateWrite {W}.

(** A [Before] callback may change the request it is given. *)
Definition BeforeHook (W : Type) : Type := HookRequest → M W (option err * HookRequest).
Definition AfterHook (W : Type) : Type := HookRequest → HookResult → M W unit.

Record Hook (W : Type) := {
  hook_Name : string; hook_Phase : string; hook_Matcher : option HookMatcher;
  hook_Before : option (BeforeHook W); hook_After : option (AfterHook W);
  hook_Async : bool; hook_SideEffect : bool }.
Arguments Build_Hook {W}.
Arguments hook_Name {W}. Arguments hook_Phase {W}. Arguments hook_Matcher {W}.
Arguments hook_Before {W}. Arguments hook_After {W}. Arguments hook_Async {W}.
Arguments hook_SideEffect {W}.

(** ** Matching *)

Definition matchesOpPath (req : HookRequest) (ops : list string) (pathPattern : string) : bool :=
  if negb (bool_decide (ops = [])) && negb (existsb (λ op, bool_decide (op = hreq_Op req)) ops)
  then false
  else if decide (pathPattern = "") then true
  else match Match pathPattern (hreq_Path req) with
       | None => false
       | Some matched => matched
       end.

Definition HookMatcher_Match (m : HookMatcher) (req : HookRequest) : bool :=
  match m with
  | OpPathMatcher ops pat => matchesOpPath req ops pat
  | HookMatcherFunc None => true
  | HookMatcherFunc (Some f) => f req
  end.

Definition hookMatches {W} (hook : Hook W) (req : HookRequest) : bool :=
  match hook_Matcher hook with
  | None => true
  | Some m => HookMatcher_Match m req
  end.

Definition normalizeHookPhase (phase : string) : string :=
  if decide (ToLower phase = HookPhaseAfter) then HookPhaseAfter else HookPhaseBefore.

Definition normalizeHookAction (action : string) : string :=
  if decide (ToLower action = HookActionBlock) then HookActionBlock
  else if decide (ToLower action = HookActionMutateWrite) then HookActionMutateWrite
  else HookActionAllow.

(** ** Compilation *)

Definition with_Data (d : bytes) (req : HookRequest) : HookRequest := {|
  hreq_Op := hreq_Op req; hreq_Path := hreq_Path req; hreq_NewPath := hreq_NewPath req;
  hreq_Flags := hreq_Flags req; hreq_Mode := hreq_Mode req; hreq_UID := hreq_UID req;
  hreq_GID := hreq_GID req; hreq_Offset := hreq_Offset req; hreq_Data := d |}.

Section compile.
Context {W : Type}.

Definition normalizeHooks (hooks : list (Hook W)) : list (Hook W) :=
  omap (λ hook,
    match hook_Before hook, hook_After hook with
    | None, None => None
    | _, _ =>
        Some {| hook_Name := hook_Name hook;
                hook_Phase := normalizeHookPhase (hook_Phase hook);
                hook_Matcher := Some (default (HookMatcherFunc (Some (λ _, true))) (hook_Matcher hook));
                hook_Before := hook_Before hook; hook_After := hook_After hook;
                hook_Async := hook_Async hook; hook_SideEffect := hook_SideEffect hook |}
    end) hooks.

(** The callback of a rule with an [ActionFunc]. *)
Definition action_before (actionFunc : HookRequest → M W string) : BeforeHook W := λ req,
  action ← actionFunc req;
  mret (if decide (normalizeHookAction action = HookActionBlock)
        then Some (Errno EPERM) else None, req).

Definition block_before : BeforeHook W := λ req, mret (Some (Errno EPERM), req).

Definition mutate_before (mutateFn : option (MutateWriteRequest → M W (result err bytes)))
    (data : bytes) : BeforeHook W := λ req,
  if negb (bool_decide (hreq_Op req = HookOpWrite)) then mret (None, req)
  else
    match mutateFn with
    | Some fn =>
        r ← fn {| mw_Path := hreq_Path req; mw_Offset := hreq_Offset req;
                  mw_Size := blen (hreq_Data req); mw_Mode := hreq_Mode req;
                  mw_UID := hreq_UID req; mw_GID := hreq_GID req |};
        match r with
        | Err e => mret (Some e, req)
        | Ok mutated => mret (None, with_Data mutated req)
        end
    | None =>
        if 0 <? blen data then mret (None, with_Data data req) else mret (None, req)
    end.

(** The hook a rule compiles to, around its callback. *)
Definition rule_hook (rule : HookRule W) (before : BeforeHook W) : Hook W := {|
  hook_Name := rule_Name rule;
  hook_Phase := normalizeHookPhase (rule_Phase rule);
  hook_Matcher := Some (OpPathMatcher (rule_Ops rule) (rule_PathPattern rule));
  hook_Before := Some before; hook_After := None;
  hook_Async := false; hook_SideEffect := false |}.

(** The hook of one rule, [None] when the rule is skipped. *)
Definition compile_rule (rule : HookRule W) : option (Hook W) :=
  match rule_ActionFunc rule with
  | Some f => Some (rule_hook rule (action_before f))
  | None =>
      let action := normalizeHookAction (rule_Action rule) in
      if decide (action = HookActionBlock) then Some (rule_hook rule block_before)
      else if decide (action = HookActionMutateWrite)
      then Some (rule_hook rule (mutate_before (rule_MutateWriteFunc rule) (rule_MutateWrite rule)))
      else None
  end.

Definition compileHooksFromRules (rules : list (HookRule W)) : list (Hook W) :=
  normalizeHooks (omap compile_rule rules).
End compile.

(** ** The engine *)

(** The hooks and the event function are set up once; the rest is state. *)
Record HookEngine (W : Type) := {
  he_hooks : list (Hook W);
  he_eventFn : option (HookRequest → HookResult → M W unit) }.
Arguments Build_HookEngine {W}. Arguments he_hooks {W}. Arguments he_eventFn {W}.

Record hookTask := { task_hook : nat; task_req : HookRequest; task_result : HookResult }.

Record engine_state := {
  es_sideEffectActive : bool;
  es_queue : list hookTask;    (* the buffered channel *)
  es_chanClosed : bool;        (* close(h.queue) was called *)
  es_closed : bool;
  es_tasks : Z }.              (* tasksWg *)

Definition queueCap : Z := 128.

Definition set_sideEffect (b : bool) (s : engine_state) : engine_state :=
  {| es_sideEffectActive := b; es_queue := es_queue s; es_chanClosed := es_chanClosed s;
     es_closed := es_closed s; es_tasks := es_tasks s |}.
Definition set_queue (q : list hookTask) (t : Z) (s : engine_state) : engine_state :=
  {| es_sideEffectActive := es_sideEffectActive s; es_queue := q; es_chanClosed := es_chanClosed s;
     es_closed := es_closed s; es_tasks := t |}.
Definition set_closed (s : engine_state) : engine_state :=
  {| es_sideEffectActive := es_sideEffectActive s; es_queue := es_queue s;
     es_chanClosed := es_chanClosed s; es_closed := true; es_tasks := es_tasks s |}.
Definition set_chanClosed (s : engine_state) : engine_state :=
  {| es_sideEffectActive := es_sideEffectActive s; es_queue := es_queue s; es_chanClosed := true;
     es_closed := es_closed s; es_tasks := es_tasks s |}.

Definition newEngineState : engine_state :=
  {| es_sideEffectActive := false; es_queue := []; es_chanClosed := false; es_closed := false;
     es_tasks := 0 |}.

Section engine.
Context {W : Type} `{!Has engine_state W}.

Definition NewHookEngine (rules : list (HookRule W)) : HookEngine W :=
  {| he_hooks := compileHooksFromRules rules; he_eventFn := None |}.

Definition NewHookEngineWithCallbacks (hooks : list (Hook W)) : HookEngine W :=
  {| he_hooks := normalizeHooks hooks; he_eventFn := None |}.

Definition HookEngine_SetEventFunc (h : HookEngine W)
    (fn : option (HookRequest → HookResult → M W unit)) : HookEngine W :=
  {| he_hooks := he_hooks h; he_eventFn := fn |}.

(** [filepath.Clean] of a path that is present. *)
Definition clean_if_set (p : string) : string := if decide (p = "") then "" else Clean p.

Definition clean_request (req : HookRequest) : HookRequest := {|
  hreq_Op := hreq_Op req; hreq_Path := clean_if_set (hreq_Path req);
  hreq_NewPath := clean_if_set (hreq_NewPath req);
  hreq_Flags := hreq_Flags req; hreq_Mode := hreq_Mode req; hreq_UID := hreq_UID req;
  hreq_GID := hreq_GID req; hreq_Offset := hreq_Offset req; hreq_Data := hreq_Data req |}.

Fixpoint before_loop (hooks : list (Hook W)) (req : HookRequest) : M W (option err * HookRequest) :=
  match hooks with
  | [] => mret (None, req)
  | hook :: hooks' =>
      match hook_Before hook with
      | Some before =>
          if bool_decide (hook_Phase hook = HookPhaseBefore) && hookMatches hook req then
            r ← before req;
            match r with
            | (Some e, req') => mret (Some e, req')
            | (None, req') => before_loop hooks' req'
            end
          else before_loop hooks' req
      | None => before_loop hooks' req
      end
  end.

Definition HookEngine_Before (h : HookEngine W) (req : HookRequest)
    : M W (option err * HookRequest) :=
  before_loop (he_hooks h) (clean_request req).

Definition get_engine : M W engine_state := λ w, Some (get_st w, w).
Definition mod_engine (f : engine_state → engine_state) : M W unit :=
  modw (λ w, put_st (f (get_st w)) w).

(** The non-blocking send: [tasksWg.Add(1)], then the task is queued or, when the
    buffer is full, dropped with [tasksWg.Done()]. Sending on a closed channel
    panics. *)
Definition enqueue (task : hookTask) : M W unit :=
  s ← get_engine;
  if es_chanClosed s then panic
  else if blen (es_queue s) <? queueCap
  then mod_engine (λ s, set_queue (es_queue s ++ [task]) (es_tasks s + 1) s)
  else mret tt.

Fixpoint after_loop (i : nat) (hooks : list (Hook W)) (req : HookRequest) (res : HookResult)
    : M W unit :=
  match hooks with
  | [] => mret tt
  | hook :: hooks' =>
      _ ← (match hook_After hook with
           | Some after =>
               if bool_decide (hook_Phase hook = HookPhaseAfter) && hookMatches hook req then
                 s ← get_engine;
                 if hook_SideEffect hook && es_sideEffectActive s then mret tt
                 else if hook_Async hook
                 then enqueue {| task_hook := i; task_req := req; task_result := res |}
                 else after req res
               else mret tt
           | None => mret tt
           end);
      after_loop (S i) hooks' req res
  end.

Definition HookEngine_emitEvent (h : HookEngine W) (req : HookRequest) (res : HookResult) : M W unit :=
  match he_eventFn h with None => mret tt | Some fn => fn req res end.

Definition HookEngine_After (h : HookEngine W) (req : HookRequest) (res : HookResult) : M W unit :=
  s ← get_engine;
  if es_closed s then mret tt
  else _ ← after_loop 0 (he_hooks h) req res; HookEngine_emitEvent h req res.

(** [runTask]: a side-effect task runs only if it can raise the flag, and lowers
    it when it returns. *)
Definition HookEngine_runTask (h : HookEngine W) (task : hookTask) : M W unit :=
  match he_hooks h !! task_hook task with
  | None => panic
  | Some hook =>
      match hook_After hook with
      | None => panic
      | Some after =>
          if hook_SideEffect hook then
            s ← get_engine;
            if es_sideEffectActive s then mret tt
            else
              _ ← mod_engine (set_sideEffect true);
              _ ← after (task_req task) (task_result task);
              mod_engine (set_sideEffect false)
          else after (task_req task) (task_result task)
      end
  end.

(** One round of the worker's loop [for task := range h.queue]: receive, run,
    [tasksWg.Done()]. *)
Definition HookEngine_run_one (h : HookEngine W) : M W unit :=
  s ← get_engine;
  match es_queue s with
  | [] => mret tt
  | task :: q =>
      _ ← mod_engine (λ s, set_queue q (es_tasks s) s);
      _ ← HookEngine_runTask h task;
      mod_engine (λ s, set_queue (es_queue s) (es_tasks s - 1) s)
  end.

Fixpoint run_n (h : HookEngine W) (n : nat) : M W unit :=
  match n with O => mret tt | S n' => _ ← HookEngine_run_one h; run_n h n' end.

(** [Close]: no further [After] is accepted, the worker empties the queue (its
    length bounds the rounds: see [close_drains]), the channel is closed. *)
Definition HookEngine_Close (h : HookEngine W) : M W unit :=
  s ← get_engine;
  if es_closed s then mret tt
  else
    _ ← mod_engine set_closed;
    s ← get_engine;
    _ ← run_n h (length (es_queue s));
    mod_engine set_chanClosed.
End engine.

(** ** What declarative rules decide

    Rules as a configuration file can state them: no Go callback. *)

Section rules.
Context {W : Type} `{!Has engine_state W}.
Implicit Types (rule : HookRule W) (rules : list (HookRule W)).

Definition declarative rule : Prop :=
  rule_ActionFunc rule = None ∧ rule_MutateWriteFunc rule = None.

(** The rule is in force for a request: before phase, operation and path match. *)
Definition applies (req : HookRequest) rule : bool :=
  bool_decide (normalizeHookPhase (rule_Phase rule) = HookPhaseBefore)
    && matchesOpPath req (rule_Ops rule) (rule_PathPattern rule).

Definition rule_blocks (req : HookRequest) rule : bool :=
  applies req rule && bool_decide (normalizeHookAction (rule_Action rule) = HookActionBlock).

Definition rule_replaces (req : HookRequest) rule : bool :=
  applies req rule && bool_decide (normalizeHookAction (rule_Action rule) = HookActionMutateWrite)
    && bool_decide (hreq_Op req = HookOpWrite) && (0 <? blen (rule_MutateWrite rule)).

(** The bytes a write ends up with: the last applicable replacement. *)
Definition replaced_data (req : HookRequest) rules : bytes :=
  fold_left (λ d rule, if rule_replaces req rule then rule_MutateWrite rule else d)
    rules (hreq_Data req).

Lemma matchesOpPath_data d req ops pat :
  matchesOpPath (with_Data d req) ops pat = matchesOpPath req ops pat.
Proof. reflexivity. Qed.

Lemma phases_differ ph : normalizeHookPhase ph ≠ HookPhaseBefore ↔ normalizeHookPhase ph = HookPhaseAfter.
Proof. unfold normalizeHookPhase. by case_decide. Qed.

Lemma normalizeHookPhase_idem ph : normalizeHookPhase (normalizeHookPhase ph) = normalizeHookPhase ph.
Proof.
  unfold normalizeHookPhase at 2 3. case_decide; reflexivity.
Qed.

Lemma before_rule_hook rule b hooks d req w :
  before_loop (normalizeHooks (rule_hook rule b :: hooks)) (with_Data d req) w =
    if applies req rule then
      match b (with_Data d req) w with
      | Some ((Some e, req'), w') => Some ((Some e, req'), w')
      | Some ((None, req'), w') => before_loop (normalizeHooks hooks) req' w'
      | None => None
      end
    else before_loop (normalizeHooks hooks) (with_Data d req) w.
Proof.
  assert (normalizeHooks (rule_hook rule b :: hooks) = rule_hook rule b :: normalizeHooks hooks) as ->.
  { unfold rule_hook. cbn. by rewrite normalizeHookPhase_idem. }
  cbn [before_loop rule_hook hook_Before hook_Phase]. unfold applies, hookMatches.
  cbn [rule_hook hook_Matcher HookMatcher_Match]. rewrite matchesOpPath_data.
  destruct (_ && _); [|done]. unfold mbind, M_bind.
  by destruct (b (with_Data d req) w) as [[[[e|] req'] w']|].
Qed.

(** One rule in front of others, on a request whose data is [d] so far. *)
Lemma before_rule rule rules req d w :
  declarative rule →
  before_loop (compileHooksFromRules (rule :: rules)) (with_Data d req) w =
    if rule_blocks req rule then Some ((Some (Errno EPERM), with_Data d req), w)
    else before_loop (compileHooksFromRules rules)
           (with_Data (if rule_replaces req rule then rule_MutateWrite rule else d) req) w.
Proof.
  intros [Haf Hmf]. unfold compileHooksFromRules. cbn [omap list_omap].
  unfold compile_rule at 1. rewrite Haf. unfold rule_blocks, rule_replaces.
  destruct (decide (normalizeHookAction _ = HookActionBlock)) as [Hb|Hb].
  { rewrite before_rule_hook, (bool_decide_eq_true_2 _ Hb), Hb.
    destruct (applies req rule); done. }
  rewrite (bool_decide_eq_false_2 _ Hb), andb_false_r.
  destruct (decide (normalizeHookAction _ = HookActionMutateWrite)) as [Hm|Hm].
  2:{ by rewrite (bool_decide_eq_false_2 _ Hm), !andb_false_r. }
  rewrite before_rule_hook, (bool_decide_eq_true_2 _ Hm).
  destruct (applies req rule); [|done]. cbn [andb].
  unfold mutate_before. rewrite Hmf. cbn [hreq_Op with_Data].
  case_bool_decide; cbn [negb andb]; [|done].
  by destruct (0 <? blen (rule_MutateWrite rule)).
Qed.

Lemma before_rules rules req d w :
  Forall declarative rules →
  ∃ d', before_loop (compileHooksFromRules rules) (with_Data d req) w =
      Some ((if existsb (rule_blocks req) rules then Some (Errno EPERM) else None, with_Data d' req), w)
    ∧ (existsb (rule_blocks req) rules = false →
       d' = fold_left (λ d rule, if rule_replaces req rule then rule_MutateWrite rule else d) rules d).
Proof.
  intros Hall. revert d. induction Hall as [|rule rules Hr _ IH]; intros d; [by exists d|].
  rewrite before_rule by done. cbn [existsb fold_left].
  destruct (rule_blocks req rule); cbn [orb]; [by exists d|]. apply IH.
Qed.
End rules.

Lemma compiled_no_after {W} (rules : list (HookRule W)) :
  Forall (λ hk, hook_After hk = None) (compileHooksFromRules rules).
Proof.
  unfold compileHooksFromRules. induction rules as [|rule rules IH]; [constructor|].
  cbn [omap list_omap]. destruct (compile_rule rule) as [hk|] eqn:E; [|exact IH].
  assert (∃ b, hk = rule_hook rule b) as [b ->].
  { unfold compile_rule in E. repeat case_match; simplify_eq; eauto. }
  cbn. constructor; [done|exact IH].
Qed.

Lemma with_Data_id req : with_Data (hreq_Data req) req = req.
Proof. by destruct req. Qed.

(** Refusal in terms of the operation and the path alone. *)
Definition op_request (op path : string) : HookRequest := {|
  hreq_Op := op; hreq_Path := path; hreq_NewPath := ""; hreq_Flags := 0; hreq_Mode := 0;
  hreq_UID := 0; hreq_GID := 0; hreq_Offset := 0; hreq_Data := [] |}.

Definition path_blocked {W} (rules : list (HookRule W)) (op path : string) : bool :=
  existsb (rule_blocks (op_request op (clean_if_set path))) rules.

Lemma path_blocked_request {W} (rules : list (HookRule W)) req :
  existsb (rule_blocks (clean_request req)) rules = path_blocked rules (hreq_Op req) (hreq_Path req).
Proof. reflexivity. Qed.

Lemma Before_rules {W} `{!Has engine_state W} (h : HookEngine W) rules req w :
  he_hooks h = compileHooksFromRules rules → Forall declarative rules →
  ∃ data,
    HookEngine_Before h req w =
      Some ((if path_blocked rules (hreq_Op req) (hreq_Path req) then Some (Errno EPERM) else None,
             with_Data data (clean_request req)), w) ∧
    (path_blocked rules (hreq_Op req) (hreq_Path req) = false →
     data = replaced_data (clean_request req) rules).
Proof.
  intros Hh Hall. destruct (before_rules rules (clean_request req) (hreq_Data req) w Hall) as (d & H1 & H2).
  exists d. split; [|done]. unfold HookEngine_Before. rewrite Hh.
  by rewrite <- (with_Data_id (clean_request req)) at 1.
Qed.

(** What a list of declarative rules decides about a request. The request is
    refused with EPERM exactly when some before-phase block rule matches the
    operation and the cleaned path (whatever the order of the rules, and whatever
    other rules replace); otherwise it goes ahead on the cleaned paths, unchanged but
    for the data of a write, which is that of the last matching replacement. The
    decision itself changes nothing in the world. *)
Theorem rules_decide {W} `{!Has engine_state W} (rules : list (HookRule W)) req w :
  Forall declarative rules →
  ∃ data,
    HookEngine_Before (NewHookEngine rules) req w =
      Some ((if path_blocked rules (hreq_Op req) (hreq_Path req) then Some (Errno EPERM) else None,
             with_Data data (clean_request req)), w) ∧
    (path_blocked rules (hreq_Op req) (hreq_Path req) = false →
     data = replaced_data (clean_request req) rules).
Proof. intros Hall. by apply Before_rules. Qed.

Definition demo_rule (W : Type) (action pattern : string) (ops : list string) : HookRule W := {|
  rule_Name := ""; rule_Phase := ""; rule_Ops := ops; rule_PathPattern := pattern;
  rule_Action := action; rule_ActionFunc := None; rule_MutateWriteFunc := None;
  rule_MutateWrite := [] |}.

Definition demo_request (op path : string) : HookRequest := {|
  hreq_Op := op; hreq_Path := path; hreq_NewPath := ""; hreq_Flags := 0; hreq_Mode := 0;
  hreq_UID := 0; hreq_GID := 0; hreq_Offset := 0; hreq_Data := [] |}.

Lemma rules_decide_witness :
  ∃ data, HookEngine_Before
      (NewHookEngine [demo_rule engine_state "allow" "" []; demo_rule _ "BLOCK" "/w/*" ["create"; "write"]])
      (demo_request "write" "/w/d/../f") newEngineState =
    Some ((Some (Errno EPERM), with_Data data (clean_request (demo_request "write" "/w/d/../f"))),
          newEngineState).
Proof.
  destruct (rules_decide [demo_rule engine_state "allow" "" []; demo_rule _ "BLOCK" "/w/*" ["create"; "write"]]
    (demo_request "write" "/w/d/../f") newEngineState) as (data & H & _); [by repeat constructor|].
  exists data. rewrite H. vm_compute. reflexivity.
Defined.

(** ** Asynchronous and side-effect hooks *)

Section async.
Context {W : Type} `{!Has engine_state W}.
Implicit Types (h : HookEngine W) (hook : Hook W).

(** The after-callbacks of an engine. *)
Definition callback_of h (after : AfterHook W) : Prop :=
  ∃ hook, hook ∈ he_hooks h ∧ hook_After hook = Some after.

Definition side_effect_flag (w : W) : bool := es_sideEffectActive (get_st w).

Definition drop_side_effects h : HookEngine W := {|
  he_hooks := (λ hook,
    if hook_SideEffect hook then
      {| hook_Name := hook_Name hook; hook_Phase := hook_Phase hook;
         hook_Matcher := hook_Matcher hook; hook_Before := hook_Before hook; hook_After := None;
         hook_Async := hook_Async hook; hook_SideEffect := true |}
    else hook) <$> he_hooks h;
  he_eventFn := he_eventFn h |}.

Lemma enqueue_flag task w w' :
  enqueue task w = Some (tt, w') → side_effect_flag w' = side_effect_flag w.
Proof.
  unfold enqueue, get_engine, mod_engine, modw, mbind, M_bind, mret, M_ret, side_effect_flag.
  destruct (es_chanClosed (get_st w)); [done|].
  destruct (_ <? _); intros; simplify_eq; [by rewrite get_put_st|done].
Qed.

Lemma after_loop_suppressed h i req res w hooks :
  (∀ after r rs v v', callback_of h after → after r rs v = Some (tt, v') →
     side_effect_flag v' = side_effect_flag v) →
  hooks ⊆ he_hooks h → side_effect_flag w = true →
  after_loop i hooks req res w =
  after_loop i ((λ hook,
    if hook_SideEffect hook then
      {| hook_Name := hook_Name hook; hook_Phase := hook_Phase hook;
         hook_Matcher := hook_Matcher hook; hook_Before := hook_Before hook; hook_After := None;
         hook_Async := hook_Async hook; hook_SideEffect := true |}
    else hook) <$> hooks) req res w.
Proof.
  intros Hcb. revert i w. induction hooks as [|hook hooks IH]; intros i w Hsub Hw; [done|].
  assert (hooks ⊆ he_hooks h) as Hsub' by set_solver.
  rewrite fmap_cons. cbn [after_loop].
  destruct (hook_SideEffect hook) eqn:Hse; cbn [hook_After].
  - destruct (hook_After hook) as [after|]; [|by apply IH].
    destruct (_ && _); [|by apply IH].
    unfold mbind, M_bind, get_engine. unfold side_effect_flag in Hw. rewrite Hw. cbn [andb].
    by apply IH.
  - unfold mbind, M_bind. destruct (hook_After hook) as [after|] eqn:Ha; [|by apply IH].
    destruct (_ && _); [|by apply IH]. unfold get_engine. rewrite ?Hse. cbn [andb].
    destruct (hook_Async hook).
    + destruct (enqueue _ w) as [[[] w1]|] eqn:He; [|done]. apply IH; [done|].
      by rewrite (enqueue_flag _ _ _ He).
    + destruct (after req res w) as [[[] w1]|] eqn:He; [|done]. apply IH; [done|].
      rewrite (Hcb after req res w w1); [done| |done].
      exists hook. split; [|done]. apply Hsub. constructor.
Qed.

(** A hook's own file operations do not feed back into side-effect hooks. While
    the side-effect flag is up, [After] behaves as if the engine had no side-effect
    hook at all, and a queued side-effect task is skipped; running a side-effect
    task raises the flag for exactly the duration of its callback. *)
Theorem side_effects_suppressed h :
  (∀ after r rs v v', callback_of h after → after r rs v = Some (tt, v') →
     side_effect_flag v' = side_effect_flag v) →
  (∀ req res w, side_effect_flag w = true →
     HookEngine_After h req res w = HookEngine_After (drop_side_effects h) req res w) ∧
  (∀ task hook w, he_hooks h !! task_hook task = Some hook → is_Some (hook_After hook) →
     hook_SideEffect hook = true →
     if side_effect_flag w then HookEngine_runTask h task w = Some (tt, w)
     else ∃ after, hook_After hook = Some after ∧
            HookEngine_runTask h task w =
              match after (task_req task) (task_result task)
                      (put_st (set_sideEffect true (get_st w)) w) with
              | Some (_, w') => Some (tt, put_st (set_sideEffect false (get_st w')) w')
              | None => None
              end).
Proof.
  intros Hcb. split.
  - intros req res w Hw. unfold HookEngine_After, mbind, M_bind, get_engine.
    destruct (es_closed _); [done|]. cbn [he_hooks drop_side_effects].
    by rewrite (after_loop_suppressed h 0 req res w (he_hooks h) Hcb).
  - intros task hook w Hh [after Ha] Hse. unfold HookEngine_runTask. rewrite Hh, Ha, Hse.
    unfold mbind, M_bind, get_engine, side_effect_flag.
    destruct (es_sideEffectActive (get_st w)); [done|]. exists after. split; [done|].
    unfold mod_engine, modw. by destruct (after _ _ _) as [[[] w']|].
Qed.

(** What every callback keeps: tasks are accounted for, the buffer stays bounded,
    and a closed engine accepts nothing. *)
Record accounted (w w' : W) : Prop := {
  acc_tasks : es_tasks (get_st w') - blen (es_queue (get_st w')) =
              es_tasks (get_st w) - blen (es_queue (get_st w));
  acc_cap : blen (es_queue (get_st w)) <= queueCap → blen (es_queue (get_st w')) <= queueCap;
  acc_closed : es_closed (get_st w') = es_closed (get_st w);
  acc_frozen : es_closed (get_st w) = true → es_queue (get_st w') = es_queue (get_st w) }.

#[export] Instance accounted_preorder : PreOrder accounted.
Proof.
  split; [intros w; by split|]. intros w1 w2 w3 [H1 H2 H3 H4] [H5 H6 H7 H8].
  split; [lia|eauto|congruence|]. intros Hc. rewrite H8, H4; congruence.
Qed.

Lemma enqueue_accounted task w w' :
  es_closed (get_st w) = false → enqueue task w = Some (tt, w') → accounted w w'.
Proof.
  unfold enqueue, get_engine, mod_engine, modw, mbind, M_bind, mret, M_ret. intros Hc Hr.
  destruct (es_chanClosed (get_st w)); [done|].
  destruct (_ <? _) eqn:Hq; simplify_eq; [|reflexivity].
  split; rewrite get_put_st; cbn; rewrite ?blen_app, ?Hc; try done.
  - unfold blen at 2. cbn. lia.
  - apply Z.ltb_lt in Hq. unfold blen at 3. cbn. lia.
Qed.

Definition callbacks_accounted h : Prop :=
  (∀ after r rs v v', callback_of h after → after r rs v = Some (tt, v') → accounted v v') ∧
  (∀ fn r rs v v', he_eventFn h = Some fn → fn r rs v = Some (tt, v') → accounted v v').

Lemma after_loop_accounted h i hooks req res w w' :
  callbacks_accounted h → hooks ⊆ he_hooks h → es_closed (get_st w) = false →
  after_loop i hooks req res w = Some (tt, w') → accounted w w'.
Proof.
  intros [Hcb _]. revert i w. induction hooks as [|hook hooks IH]; intros i w Hsub Hc Hr.
  { by apply M_ret_Some in Hr as [_ ->]. }
  assert (hooks ⊆ he_hooks h) as Hsub' by set_solver.
  cbn [after_loop] in Hr. apply M_bind_Some in Hr as ([] & w1 & H1 & H2).
  assert (accounted w w1) as Hw1.
  { destruct (hook_After hook) as [after|] eqn:Ha; [|by apply M_ret_Some in H1 as [_ ->]].
    destruct (_ && _); [|by apply M_ret_Some in H1 as [_ ->]].
    apply M_bind_Some in H1 as (st & w0 & [= <- <-] & H1).
    destruct (_ && _); [by apply M_ret_Some in H1 as [_ ->]|].
    destruct (hook_Async hook); [by eapply enqueue_accounted|].
    eapply Hcb; [|done]. exists hook. split; [|done]. apply Hsub. constructor. }
  transitivity w1; [done|]. eapply IH; [done| |done]. by rewrite (acc_closed _ _ Hw1).
Qed.

Lemma After_accounted h req res w w' :
  callbacks_accounted h → HookEngine_After h req res w = Some (tt, w') → accounted w w'.
Proof.
  intros Hcb Hr. unfold HookEngine_After in Hr.
  apply M_bind_Some in Hr as (st & w0 & [= <- <-] & Hr).
  destruct (es_closed (get_st w)) eqn:Hc; [by apply M_ret_Some in Hr as [_ ->]|].
  apply M_bind_Some in Hr as ([] & w1 & H1 & H2).
  transitivity w1; [by eapply after_loop_accounted|].
  unfold HookEngine_emitEvent in H2. destruct Hcb as [_ Hev].
  destruct (he_eventFn h) eqn:He; [by eapply Hev|by apply M_ret_Some in H2 as [_ ->]].
Qed.

(** ** Close *)

(** Every callback returns, and queued tasks name after-hooks. *)
Definition callbacks_return h : Prop :=
  ∀ after r rs v, callback_of h after → is_Some (after r rs v).

Definition tasks_valid h (w : W) : Prop :=
  Forall (λ t, ∃ hook, he_hooks h !! task_hook t = Some hook ∧ is_Some (hook_After hook))
    (es_queue (get_st w)).

(** [f] changes the side-effect flag only: the accounting does not see it. *)
Lemma accounted_flag b w : accounted w (put_st (set_sideEffect b (get_st w)) w).
Proof. by split; rewrite get_put_st. Qed.

Lemma runTask_returns h task hook w :
  callbacks_accounted h → callbacks_return h →
  he_hooks h !! task_hook task = Some hook → is_Some (hook_After hook) →
  ∃ w', HookEngine_runTask h task w = Some (tt, w') ∧ accounted w w'.
Proof.
  intros [Hacc _] Hret Hh [after Ha]. unfold HookEngine_runTask. rewrite Hh, Ha.
  assert (callback_of h after) as Hcb by (exists hook; split; [by eapply list_elem_of_lookup_2|done]).
  unfold mbind, M_bind, get_engine, mod_engine, modw.
  destruct (hook_SideEffect hook).
  - destruct (es_sideEffectActive (get_st w)); [by exists w|].
    destruct (Hret after (task_req task) (task_result task)
                (put_st (set_sideEffect true (get_st w)) w) Hcb) as [[[] w1] Hr].
    rewrite Hr. eexists. split; [done|].
    etrans; [apply (accounted_flag true)|]. etrans; [by eapply Hacc|]. apply accounted_flag.
  - destruct (Hret after (task_req task) (task_result task) w Hcb) as [[[] w1] Hr].
    rewrite Hr. exists w1. split; [done|]. by eapply Hacc.
Qed.

(** A closed engine's worker takes exactly one task per round. *)
Lemma run_n_drains h n w :
  callbacks_accounted h → callbacks_return h → tasks_valid h w →
  es_closed (get_st w) = true → length (es_queue (get_st w)) = n →
  ∃ w', run_n h n w = Some (tt, w') ∧ es_queue (get_st w') = [] ∧ es_closed (get_st w') = true ∧
    es_tasks (get_st w') = es_tasks (get_st w) - Z.of_nat n.
Proof.
  intros Hacc Hret. revert w. induction n as [|n IH]; intros w Hval Hc Hlen.
  { exists w. split_and!; [done|by apply nil_length_inv|done|lia]. }
  cbn [run_n]. unfold HookEngine_run_one, tasks_valid in *.
  destruct (es_queue (get_st w)) as [|task q] eqn:Hq; [done|].
  inversion_clear Hval as [|? ? (hook & Hh & Ha) Hval'].
  unfold mbind, M_bind at 1 2 3, get_engine. rewrite Hq.
  unfold mod_engine, modw, M_bind at 1.
  set (w1 := put_st (set_queue q (es_tasks (get_st w)) (get_st w)) w).
  destruct (runTask_returns h task hook w1 Hacc Hret Hh Ha) as (w2 & Hr & [Ht _ Hcl Hfr]).
  unfold M_bind. rewrite Hr.
  assert (Hw1 : get_st w1 = set_queue q (es_tasks (get_st w)) (get_st w)) by apply get_put_st.
  rewrite Hw1 in Ht, Hcl, Hfr. cbn in Ht, Hcl, Hfr. specialize (Hfr Hc).
  set (w3 := put_st _ w2).
  assert (Hw3 : get_st w3 = set_queue (es_queue (get_st w2)) (es_tasks (get_st w2) - 1) (get_st w2))
    by apply get_put_st.
  destruct (IH w3) as (w' & Hrun & Hq' & Hc' & Ht'); rewrite ?Hw3; cbn; try congruence.
  { rewrite Hfr. cbn in Hlen. lia. }
  exists w'. split_and!; [done..|]. rewrite Ht', Hw3. cbn. rewrite Hfr in Ht. lia.
Qed.

(** Closing the engine is orderly. If the callbacks return and account for the
    tasks they add, [Close] returns; every queued task has been taken, the counter
    that [Wait] waits for is zero, and from then on [After] does nothing (so no task
    can be sent on the closed channel). *)
Theorem hook_close_drains h w :
  callbacks_accounted h → callbacks_return h → tasks_valid h w →
  es_closed (get_st w) = false → es_tasks (get_st w) = blen (es_queue (get_st w)) →
  ∃ w', HookEngine_Close h w = Some (tt, w') ∧
    es_queue (get_st w') = [] ∧ es_tasks (get_st w') = 0 ∧
    ∀ req res, HookEngine_After h req res w' = Some (tt, w').
Proof.
  intros Hacc Hret Hval Hc Ht. unfold HookEngine_Close, mbind, M_bind, get_engine, mod_engine, modw.
  rewrite Hc. set (w1 := put_st (set_closed (get_st w)) w).
  assert (Hw1 : get_st w1 = set_closed (get_st w)) by apply get_put_st.
  destruct (run_n_drains h (length (es_queue (get_st w1))) w1) as (w2 & Hr & Hq & Hc2 & Ht2);
    [done|done|unfold tasks_valid; by rewrite Hw1|by rewrite Hw1|done|].
  rewrite Hr. eexists. split; [done|]. rewrite get_put_st. cbn. split_and!; [done| |].
  - rewrite Ht2, Hw1. cbn. rewrite Ht. unfold blen. lia.
  - intros req res. unfold HookEngine_After, mbind, M_bind, get_engine. rewrite get_put_st.
    cbn. by rewrite Hc2.
Qed.
End async.

(** An engine with one asynchronous and one side-effect hook, both recording
    nothing, and two tasks queued. *)
Definition quiet_hook (async side : bool) : Hook engine_state := {|
  hook_Name := ""; hook_Phase := HookPhaseAfter; hook_Matcher := None; hook_Before := None;
  hook_After := Some (λ _ _, mret tt); hook_Async := async; hook_SideEffect := side |}.

Definition demo_engine : HookEngine engine_state :=
  NewHookEngineWithCallbacks [quiet_hook true false; quiet_hook true true].

Definition demo_result : HookResult := {| hres_Err := None; hres_Bytes := 0; hres_Meta := None |}.

Definition demo_engine_state : engine_state :=
  match HookEngine_After demo_engine (demo_request "write" "/f") demo_result newEngineState with
  | Some (_, s) => s
  | None => newEngineState
  end.

Lemma demo_callback after r rs v : callback_of demo_engine after → after r rs v = Some (tt, v).
Proof.
  intros (hook & Hin & Ha). unfold demo_engine in Hin. cbn in Hin.
  rewrite !elem_of_cons, elem_of_nil in Hin. destruct Hin as [->|[->|[]]]; cbn in Ha; by simplify_eq.
Qed.

Lemma hook_close_drains_witness :
  blen (es_queue demo_engine_state) = 2 ∧
  ∃ w', HookEngine_Close demo_engine demo_engine_state = Some (tt, w') ∧
    es_queue w' = [] ∧ es_tasks w' = 0 ∧
    ∀ req res, HookEngine_After demo_engine req res w' = Some (tt, w').
Proof.
  split; [reflexivity|].
  refine (hook_close_drains demo_engine demo_engine_state _ _ _ _ _).
  - split; [|done]. intros after r rs v v' Hcb Hr. rewrite (demo_callback _ _ _ _ Hcb) in Hr.
    simplify_eq. reflexivity.
  - intros after r rs v Hcb. rewrite (demo_callback _ _ _ _ Hcb). by eexists.
  - repeat constructor; eexists; split; try reflexivity; by eexists.
  - reflexivity.
  - reflexivity.
Defined.

Lemma side_effects_suppressed_witness :
  HookEngine_After demo_engine (demo_request "write" "/f") demo_result (set_sideEffect true newEngineState)
  = HookEngine_After (drop_side_effects demo_engine) (demo_request "write" "/f") demo_result
      (set_sideEffect true newEngineState).
Proof.
  apply (side_effects_suppressed demo_engine).
  - intros after r rs v v' Hcb Hr. rewrite (demo_callback _ _ _ _ Hcb) in Hr. by simplify_eq.
  - reflexivity.
Defined.

(** [After] checks the closed flag once, at its start. If [Close] runs to its end
    between that check and the send, the send is on a closed channel and panics. *)
Theorem hook_close_race :
  let req := demo_request "write" "/f" in
  es_closed newEngineState = false ∧
  ∃ s, HookEngine_Close demo_engine newEngineState = Some (tt, s) ∧
    after_loop 0 (he_hooks demo_engine) req demo_result s = None.
Proof. split; [done|]. eexists. split; vm_compute; reflexivity. Qed.
