(* ===== verification/VfsIntercept.v ===== *)
(** * The intercepting provider: [pkg/vfs/interceptor.go]

    Every operation builds a hook request, runs the before-hooks (which may refuse
    it, or rewrite its paths and data), performs the operation of the inner provider
    on what the hooks left, and runs the after-hooks. *)

From S2P Require Import Prelude GoStrings GoPath VfsBase VfsMemory VfsMemorySpec VfsHooks.

Section intercept.
Context `{HostABI} {W : Type} `{!Has engine_state W}.

Record interceptProvider := {
  ip_inner : Provider W; ip_hooks : HookEngine W; ip_defaultUID : Z; ip_defaultGID : Z }.

Definition interceptProvider_withCaller (p : interceptProvider) (uid gid : Z) : interceptProvider :=
  {| ip_inner := ip_inner p; ip_hooks := ip_hooks p; ip_defaultUID := uid; ip_defaultGID := gid |}.

Definition mkHookRequest (op path newPath : string) (flags mode uid gid offset : Z) (data : bytes)
    : HookRequest := {|
  hreq_Op := op; hreq_Path := path; hreq_NewPath := newPath; hreq_Flags := flags;
  hreq_Mode := mode; hreq_UID := uid; hreq_GID := gid; hreq_Offset := offset; hreq_Data := data |}.

(** [baseRequest] with the fields the caller sets afterwards. *)
Definition interceptProvider_baseRequest (p : interceptProvider) (op path newPath : string)
    (flags mode : Z) : HookRequest :=
  mkHookRequest op path newPath flags mode (ip_defaultUID p) (ip_defaultGID p) 0 [].

Definition result_of (e : option err) (n : Z) (meta : option HookFileMeta) : HookResult :=
  {| hres_Err := e; hres_Bytes := n; hres_Meta := meta |}.

(** The frame every method shares: [Before]; on an error return [fail] of it; the
    operation; [After] with its error and byte count; the operation's result. *)
Definition hooked {A} (hooks : HookEngine W) (req : HookRequest) (fail : err → A)
    (run : HookRequest → M W A) (outcome : A → HookResult) : M W A :=
  '(e, req) ← HookEngine_Before hooks req;
  match e with
  | Some e => mret (fail e)
  | None =>
      r ← run req;
      _ ← HookEngine_After hooks req (outcome r);
      mret r
  end.

Definition of_result {A} (r : result err A) : HookResult := result_of (result_err r) 0 None.
Definition of_error (e : option err) : HookResult := result_of e 0 None.

(** ** Handles *)

Definition ownerFromFileInfo (info : FileInfo) : option (Z * Z) :=
  match fi_sys info with
  | Some st => Some (st_Uid st, st_Gid st)
  | None => None
  end.

Definition fileMetaFromInfo (info : FileInfo) : HookFileMeta :=
  match ownerFromFileInfo info with
  | Some (uid, gid) =>
      {| meta_Size := fi_size info; meta_Mode := fi_mode info; meta_UID := uid; meta_GID := gid;
         meta_HasOwnership := true |}
  | None =>
      {| meta_Size := fi_size info; meta_Mode := fi_mode info; meta_UID := 0; meta_GID := 0;
         meta_HasOwnership := false |}
  end.

Record interceptHandle := {
  ih_inner : Handle W; ih_hooks : HookEngine W; ih_path : string; ih_uid : Z; ih_gid : Z }.

Definition handle_request (h : interceptHandle) (op : string) (offset : Z) (data : bytes) : HookRequest :=
  mkHookRequest op (ih_path h) "" 0 0 (ih_uid h) (ih_gid h) offset data.

Definition interceptHandle_populateWriteMetadata (h : interceptHandle) (req : HookRequest)
    : M W HookRequest :=
  r ← h_Stat (ih_inner h);
  match r with
  | Err _ => mret req
  | Ok info =>
      let '(uid, gid) := default (hreq_UID req, hreq_GID req) (ownerFromFileInfo info) in
      mret {| hreq_Op := hreq_Op req; hreq_Path := hreq_Path req; hreq_NewPath := hreq_NewPath req;
              hreq_Flags := hreq_Flags req; hreq_Mode := fi_mode info; hreq_UID := uid;
              hreq_GID := gid; hreq_Offset := hreq_Offset req; hreq_Data := hreq_Data req |}
  end.

Definition read_outcome (r : bytes * option err) : HookResult := result_of (snd r) (blen (fst r)) None.

Definition interceptHandle_Read (h : interceptHandle) (n : Z) : M W (bytes * option err) :=
  hooked (ih_hooks h) (handle_request h HookOpRead 0 []) (λ e, ([], Some e))
    (λ _, h_Read (ih_inner h) n) read_outcome.

Definition interceptHandle_ReadAt (h : interceptHandle) (n off : Z) : M W (bytes * option err) :=
  hooked (ih_hooks h) (handle_request h HookOpRead off []) (λ e, ([], Some e))
    (λ _, h_ReadAt (ih_inner h) n off) read_outcome.

(** The shared body of [Write] and [WriteAt]: the guest is told the length of its
    own data when the (possibly replaced) data was written in full. *)
Definition intercept_write (h : interceptHandle) (p : bytes) (off : Z)
    (write : bytes → M W (Z * option err)) : M W (Z * option err) :=
  req ← interceptHandle_populateWriteMetadata h (handle_request h HookOpWrite off p);
  '(e, req) ← HookEngine_Before (ih_hooks h) req;
  match e with
  | Some e => mret (0, Some e)
  | None =>
      '(n, e) ← write (hreq_Data req);
      let n := if bool_decide (e = None) && (n =? blen (hreq_Data req)) then blen p else n in
      st ← h_Stat (ih_inner h);
      let meta := match st with Ok info => Some (fileMetaFromInfo info) | Err _ => None end in
      _ ← HookEngine_After (ih_hooks h) req (result_of e n meta);
      mret (n, e)
  end.

Definition interceptHandle_Write (h : interceptHandle) (p : bytes) : M W (Z * option err) :=
  intercept_write h p 0 (h_Write (ih_inner h)).

Definition interceptHandle_WriteAt (h : interceptHandle) (p : bytes) (off : Z) : M W (Z * option err) :=
  intercept_write h p off (λ d, h_WriteAt (ih_inner h) d off).

Definition interceptHandle_Close (h : interceptHandle) : M W (option err) :=
  hooked (ih_hooks h) (handle_request h HookOpClose 0 []) Some
    (λ _, h_Close (ih_inner h)) of_error.

Definition interceptHandle_Sync (h : interceptHandle) : M W (option err) :=
  hooked (ih_hooks h) (handle_request h HookOpSync 0 []) Some
    (λ _, h_Sync (ih_inner h)) of_error.

Definition interceptHandle_Truncate (h : interceptHandle) (size : Z) : M W (option err) :=
  hooked (ih_hooks h) (handle_request h HookOpTruncate size []) Some
    (λ _, h_Truncate (ih_inner h) size) of_error.

Definition intercept_handle (h : interceptHandle) : Handle W := {|
  h_Read := interceptHandle_Read h;
  h_ReadAt := interceptHandle_ReadAt h;
  h_Write := interceptHandle_Write h;
  h_WriteAt := interceptHandle_WriteAt h;
  h_Seek := h_Seek (ih_inner h);
  h_Close := interceptHandle_Close h;
  h_Stat := h_Stat (ih_inner h);
  h_Sync := interceptHandle_Sync h;
  h_Truncate := interceptHandle_Truncate h |}.

(** ** The provider *)

(** [Open] and [Create]: the operation under the request's (rewritten) path, flags
    and mode, and the handle that remembers the path and the caller. *)
Definition intercept_open (p : interceptProvider) (req : HookRequest)
    (open : HookRequest → M W (result err (Handle W))) : M W (result err (Handle W)) :=
  '(e, req) ← HookEngine_Before (ip_hooks p) req;
  match e with
  | Some e => mret (Err e)
  | None =>
      r ← open req;
      _ ← HookEngine_After (ip_hooks p) req (of_result r);
      match r with
      | Err e => mret (Err e)
      | Ok h =>
          mret (Ok (intercept_handle
            {| ih_inner := h; ih_hooks := ip_hooks p; ih_path := hreq_Path req;
               ih_uid := hreq_UID req; ih_gid := hreq_GID req |}))
      end
  end.

Definition interceptProvider_Open (p : interceptProvider) (path : string) (flags mode : Z) :=
  let op := if has_flag flags O_CREATE then HookOpCreate else HookOpOpen in
  intercept_open p (interceptProvider_baseRequest p op path "" flags mode)
    (λ req, Open (ip_inner p) (hreq_Path req) (hreq_Flags req) (hreq_Mode req)).

Definition interceptProvider_Create (p : interceptProvider) (path : string) (mode : Z) :=
  intercept_open p (interceptProvider_baseRequest p HookOpCreate path "" 0 mode)
    (λ req, Create (ip_inner p) (hreq_Path req) (hreq_Mode req)).

Definition interceptProvider_Stat (p : interceptProvider) (path : string) :=
  hooked (ip_hooks p) (interceptProvider_baseRequest p HookOpStat path "" 0 0) Err
    (λ req, Stat (ip_inner p) (hreq_Path req)) of_result.

Definition interceptProvider_ReadDir (p : interceptProvider) (path : string) :=
  hooked (ip_hooks p) (interceptProvider_baseRequest p HookOpReadDir path "" 0 0) Err
    (λ req, ReadDir (ip_inner p) (hreq_Path req)) of_result.

Definition interceptProvider_Mkdir (p : interceptProvider) (path : string) (mode : Z) :=
  hooked (ip_hooks p) (interceptProvider_baseRequest p HookOpMkdir path "" 0 mode) Some
    (λ req, Mkdir (ip_inner p) (hreq_Path req) (hreq_Mode req)) of_error.

Definition interceptProvider_Chmod (p : interceptProvider) (path : string) (mode : Z) :=
  hooked (ip_hooks p) (interceptProvider_baseRequest p HookOpChmod path "" 0 mode) Some
    (λ req, Chmod (ip_inner p) (hreq_Path req) (hreq_Mode req)) of_error.

Definition interceptProvider_Chtimes (p : interceptProvider) (path : string) (atime mtime : option Z) :=
  hooked (ip_hooks p) (interceptProvider_baseRequest p HookOpChtimes path "" 0 0) Some
    (λ req, Chtimes (ip_inner p) (hreq_Path req) atime mtime) of_error.

Definition interceptProvider_Remove (p : interceptProvider) (path : string) :=
  hooked (ip_hooks p) (interceptProvider_baseRequest p HookOpRemove path "" 0 0) Some
    (λ req, Remove (ip_inner p) (hreq_Path req)) of_error.

Definition interceptProvider_RemoveAll (p : interceptProvider) (path : string) :=
  hooked (ip_hooks p) (interceptProvider_baseRequest p HookOpRemoveAll path "" 0 0) Some
    (λ req, RemoveAll (ip_inner p) (hreq_Path req)) of_error.

Definition interceptProvider_Rename (p : interceptProvider) (oldPath newPath : string) :=
  hooked (ip_hooks p) (interceptProvider_baseRequest p HookOpRename oldPath newPath 0 0) Some
    (λ req, Rename (ip_inner p) (hreq_Path req) (hreq_NewPath req)) of_error.

Definition interceptProvider_Symlink (p : interceptProvider) (target link : string) :=
  hooked (ip_hooks p) (interceptProvider_baseRequest p HookOpSymlink link target 0 0) Some
    (λ req, Symlink (ip_inner p) target (hreq_Path req)) of_error.

Definition interceptProvider_Readlink (p : interceptProvider) (path : string) :=
  hooked (ip_hooks p) (interceptProvider_baseRequest p HookOpReadlink path "" 0 0) Err
    (λ req, Readlink (ip_inner p) (hreq_Path req)) of_result.

Definition interceptProvider_Fsync (p : interceptProvider) (path : string) :=
  hooked (ip_hooks p) (interceptProvider_baseRequest p HookOpSync path "" 0 0) Some
    (λ req, Fsync (ip_inner p) (hreq_Path req)) of_error.

Definition intercept_provider (p : interceptProvider) : Provider W := {|
  Readonly := Readonly (ip_inner p);
  Stat := interceptProvider_Stat p;
  ReadDir := interceptProvider_ReadDir p;
  Open := interceptProvider_Open p;
  Create := interceptProvider_Create p;
  Mkdir := interceptProvider_Mkdir p;
  Chmod := interceptProvider_Chmod p;
  Chtimes := interceptProvider_Chtimes p;
  Remove := interceptProvider_Remove p;
  RemoveAll := interceptProvider_RemoveAll p;
  Rename := interceptProvider_Rename p;
  Symlink := interceptProvider_Symlink p;
  Readlink := interceptProvider_Readlink p;
  Fsync := interceptProvider_Fsync p |}.

(** [NewInterceptProvider(inner, hooks)]: the inner provider itself when there is no
    engine; [euid], [egid] are the process's. *)
Definition NewInterceptProvider (inner : Iface W) (hooks : option (HookEngine W))
    (euid egid : Z) (id : N) : Iface W :=
  match hooks with
  | None => inner
  | Some h =>
      let p := {| ip_inner := iface_ops inner; ip_hooks := h; ip_defaultUID := euid;
                  ip_defaultGID := egid |} in
      {| iface_ops := intercept_provider p;
         iface_id := id;
         iface_withCaller := Some (λ uid gid, intercept_provider (interceptProvider_withCaller p uid gid));
         iface_MkdirAll := None |}
  end.
End intercept.
Arguments interceptProvider : clear implicits.
Arguments interceptHandle : clear implicits.

(** ** Lifting facts about the inner provider *)

Section lifting.
Context `{HostABI} {W : Type} `{!Has engine_state W} (R : W → W → Prop) `{!PreOrder R}.

Definition engine_respects (h : HookEngine W) : Prop :=
  (∀ req, respects R (HookEngine_Before h req)) ∧
  (∀ req res, respects R (HookEngine_After h req res)).

Lemma hooked_respects {A} h req fail (run : HookRequest → M W A) out :
  engine_respects h → (∀ req, respects R (run req)) → respects R (hooked h req fail run out).
Proof.
  intros [Hb Ha] Hrun. unfold hooked. apply respects_bind; [apply _|apply Hb|].
  intros [[e|] req']; [by apply respects_ret|].
  apply respects_bind; [apply _|apply Hrun|]. intros r.
  apply respects_bind; [apply _|apply Ha|]. intros _. by apply respects_ret.
Qed.

Lemma intercept_handle_respects h :
  engine_respects (ih_hooks h) → handle_respects R (ih_inner h) →
  handle_respects R (intercept_handle h).
Proof.
  intros Hh Hi. pose proof Hh as [Hb Ha].
  assert (Hw : ∀ p off wr, (∀ d, respects R (wr d)) → respects R (intercept_write h p off wr)).
  { intros p off wr Hwr. unfold intercept_write, interceptHandle_populateWriteMetadata.
    apply respects_bind; [apply _| |].
    { apply respects_bind; [apply _|apply Hi|]. intros []; [|by apply respects_ret].
      destruct (default _ _). by apply respects_ret. }
    intros req. apply respects_bind; [apply _|apply Hb|]. intros [[e|] req']; [by apply respects_ret|].
    apply respects_bind; [apply _|apply Hwr|]. intros [n e].
    apply respects_bind; [apply _|apply Hi|]. intros st.
    apply respects_bind; [apply _|apply Ha|]. intros _. by apply respects_ret. }
  split; cbn; intros;
    first [ apply hooked_respects; [done|]; intros; by apply Hi
          | apply Hw; intros; by apply Hi | by apply Hi ].
Qed.

Lemma intercept_open_respects p req op :
  engine_respects (ip_hooks p) → (∀ req, respects R (op req)) → respects R (intercept_open p req op).
Proof.
  intros [Hb Ha] Hop. unfold intercept_open. apply respects_bind; [apply _|apply Hb|].
  intros [[e|] req']; [by apply respects_ret|].
  apply respects_bind; [apply _|apply Hop|]. intros r.
  apply respects_bind; [apply _|apply Ha|]. intros _. destruct r; by apply respects_ret.
Qed.

Lemma intercept_open_handle p req op w h w' :
  engine_respects (ip_hooks p) →
  (∀ req w h w', op req w = Some (Ok h, w') → handle_respects R h) →
  intercept_open p req op w = Some (Ok h, w') → handle_respects R h.
Proof.
  intros Hh Hop Hr. unfold intercept_open in Hr.
  apply M_bind_Some in Hr as ([[e|] req'] & w1 & _ & Hr); [by apply M_ret_Some in Hr as [? _]|].
  apply M_bind_Some in Hr as ([h0|e] & w2 & Ho & Hr);
    apply M_bind_Some in Hr as (u & w3 & _ & [[= ->] _]%M_ret_Some).
  apply intercept_handle_respects; [done|]. by eapply Hop.
Qed.

Lemma intercept_respects (p : interceptProvider W) :
  engine_respects (ip_hooks p) → provider_respects R (ip_inner p) →
  provider_respects R (intercept_provider p).
Proof.
  intros Hh Hp. split; cbn; intros;
    try (apply hooked_respects; [done|]; intros; by apply Hp);
    try (apply intercept_open_respects; [done|]; intros; by apply Hp);
    (eapply intercept_open_handle; [done| |done]); cbn; intros;
    eauto using pr_Open_handle, pr_Create_handle.
Qed.
End lifting.

Section agreement.
Context `{HostABI} {W : Type} `{!Has engine_state W}.

Lemma hooked_agree {A} h req fail (run1 run2 : HookRequest → M W A) out :
  (∀ req, run1 req ≡ₘ run2 req) → hooked h req fail run1 out ≡ₘ hooked h req fail run2 out.
Proof.
  intros Hrun. unfold hooked. apply meq_bind; [done|]. intros [[e|] req']; [done|].
  apply meq_bind; [apply Hrun|done].
Qed.

Lemma intercept_open_agree p1 p2 req op1 op2 :
  ip_hooks p1 = ip_hooks p2 → (∀ req, op1 req ≡ₘ op2 req) →
  intercept_open p1 req op1 ≡ₘ intercept_open p2 req op2.
Proof.
  intros Hh Hop. unfold intercept_open. rewrite Hh. apply meq_bind; [done|].
  intros [[e|] req']; [done|]. apply meq_bind; [apply Hop|done].
Qed.

(** Interception of providers that agree everywhere agrees everywhere. *)
Lemma intercept_agree (p1 p2 : interceptProvider W) :
  ip_hooks p1 = ip_hooks p2 → ip_defaultUID p1 = ip_defaultUID p2 →
  ip_defaultGID p1 = ip_defaultGID p2 →
  provider_agree (λ _, True) (ip_inner p1) (ip_inner p2) →
  provider_agree (λ _, True) (intercept_provider p1) (intercept_provider p2).
Proof.
  intros Hh Hu Hg Hp. split; cbn; intros; try (by apply Hp);
    unfold interceptProvider_Stat, interceptProvider_ReadDir, interceptProvider_Mkdir,
      interceptProvider_Chmod, interceptProvider_Chtimes, interceptProvider_Remove,
      interceptProvider_RemoveAll, interceptProvider_Rename, interceptProvider_Symlink,
      interceptProvider_Readlink, interceptProvider_Fsync, interceptProvider_Open,
      interceptProvider_Create, interceptProvider_baseRequest; rewrite Hu, Hg, ?Hh;
    first [ apply hooked_agree | apply intercept_open_agree; [by rewrite ?Hh|] ];
    intros; by apply Hp.
Qed.
End agreement.

(** ** Rules at work *)

Section rules_at_work.
Context `{HostABI} {W : Type} `{!Has engine_state W}.
Context (rules : list (HookRule W)) (Hdecl : Forall declarative rules).

Lemma hooked_blocked {A} h req fail (run : HookRequest → M W A) out w :
  he_hooks h = compileHooksFromRules rules →
  path_blocked rules (hreq_Op req) (hreq_Path req) = true →
  hooked h req fail run out w = Some (fail (Errno EPERM), w).
Proof using Hdecl.
  intros Hh Hbl. destruct (Before_rules h rules req w Hh Hdecl) as (d & Hb & _).
  unfold hooked, mbind, M_bind. by rewrite Hb, Hbl.
Qed.

Lemma intercept_open_blocked p req op w :
  he_hooks (ip_hooks p) = compileHooksFromRules rules →
  path_blocked rules (hreq_Op req) (hreq_Path req) = true →
  intercept_open p req op w = Some (Err (Errno EPERM), w).
Proof using Hdecl.
  intros Hh Hbl. destruct (Before_rules _ rules req w Hh Hdecl) as (d & Hb & _).
  unfold intercept_open, mbind, M_bind. by rewrite Hb, Hbl.
Qed.

(** Compiled rules have before-callbacks only, so [After] is the event. *)
Lemma After_rules (h : HookEngine W) req res w :
  he_hooks h = compileHooksFromRules rules → es_closed (get_st w) = false →
  HookEngine_After h req res w = HookEngine_emitEvent h req res w.
Proof using Type.
  intros Hh Hc. unfold HookEngine_After, mbind, M_bind, get_engine. rewrite Hc, Hh.
  assert (Hloop : ∀ i hooks, Forall (λ hk, hook_After hk = None) hooks →
            after_loop i hooks req res w = Some (tt, w)).
  { intros i hooks Hall. revert i. induction Hall as [|hk hooks Hhk _ IH]; intros i; [done|].
    cbn [after_loop]. rewrite Hhk. unfold mbind, M_bind. apply IH. }
  rewrite Hloop; [done|]. apply compiled_no_after.
Qed.

Lemma rules_engine_respects (R : W → W → Prop) `{!PreOrder R} (h : HookEngine W) :
  he_hooks h = compileHooksFromRules rules →
  (∀ req res, respects R (HookEngine_emitEvent h req res)) → engine_respects R h.
Proof using Hdecl.
  intros Hh Hev. split.
  - intros req w a w' Hr. destruct (Before_rules h rules req w Hh Hdecl) as (d & Hb & _).
    rewrite Hb in Hr. by simplify_eq.
  - intros req res w a w' Hr. destruct (es_closed (get_st w)) eqn:Hc.
    + unfold HookEngine_After, mbind, M_bind, get_engine in Hr. rewrite Hc in Hr.
      by apply M_ret_Some in Hr as [_ ->].
    + rewrite After_rules in Hr by done. by eapply Hev.
Qed.
End rules_at_work.

(** C34: a blocked operation does not happen. When some before-phase block rule
    matches an operation and its cleaned path, every method of the intercepting
    provider answers EPERM and leaves the whole world as it was: the inner provider is
    not called, no event is emitted. [Open] counts as [create] when its flags create. *)
Theorem intercept_blocks `{HostABI} {W} `{!Has engine_state W} (rules : list (HookRule W))
    (p : interceptProvider W) path w :
  Forall declarative rules → he_hooks (ip_hooks p) = compileHooksFromRules rules →
  let P := intercept_provider p in
  let denied op := path_blocked rules op path = true in
  (denied HookOpStat → Stat P path w = Some (Err (Errno EPERM), w)) ∧
  (denied HookOpReadDir → ReadDir P path w = Some (Err (Errno EPERM), w)) ∧
  (∀ flags mode, denied (if has_flag flags O_CREATE then HookOpCreate else HookOpOpen) →
     Open P path flags mode w = Some (Err (Errno EPERM), w)) ∧
  (∀ mode, denied HookOpCreate → Create P path mode w = Some (Err (Errno EPERM), w)) ∧
  (∀ mode, denied HookOpMkdir → Mkdir P path mode w = Some (Some (Errno EPERM), w)) ∧
  (∀ mode, denied HookOpChmod → Chmod P path mode w = Some (Some (Errno EPERM), w)) ∧
  (∀ a m, denied HookOpChtimes → Chtimes P path a m w = Some (Some (Errno EPERM), w)) ∧
  (denied HookOpRemove → Remove P path w = Some (Some (Errno EPERM), w)) ∧
  (denied HookOpRemoveAll → RemoveAll P path w = Some (Some (Errno EPERM), w)) ∧
  (∀ new, denied HookOpRename → Rename P path new w = Some (Some (Errno EPERM), w)) ∧
  (∀ target, denied HookOpSymlink → Symlink P target path w = Some (Some (Errno EPERM), w)) ∧
  (denied HookOpReadlink → Readlink P path w = Some (Err (Errno EPERM), w)) ∧
  (denied HookOpSync → Fsync P path w = Some (Some (Errno EPERM), w)).
Proof.
  intros Hdecl Hh P denied. unfold denied.
  split_and!; intros; cbn;
    first [ by apply (hooked_blocked rules) | by apply (intercept_open_blocked rules) ].
Qed.

Lemma populate_keeps {W} (h : interceptHandle W) req w st w1 :
  h_Stat (ih_inner h) w = Some (st, w1) →
  ∃ req', interceptHandle_populateWriteMetadata h req w = Some (req', w1) ∧
    hreq_Op req' = hreq_Op req ∧ hreq_Path req' = hreq_Path req ∧ hreq_Data req' = hreq_Data req.
Proof.
  intros Hst. unfold interceptHandle_populateWriteMetadata, mbind, M_bind. rewrite Hst.
  destruct st as [info|e]; [destruct (default _ _)|]; by eexists.
Qed.

(** A replaced write is invisible to the guest. When no rule blocks a write
    through a handle and the inner file takes the data in full, the inner file receives
    the bytes of the last matching [mutate_write] rule (the guest's own when there is
    none), while the guest is told that all of its own bytes were written. *)
Theorem intercept_write_replaced `{HostABI} {W} `{!Has engine_state W} (rules : list (HookRule W))
    (h : interceptHandle W) (p d : bytes) off w w1 w2 w3 st st' :
  Forall declarative rules → he_hooks (ih_hooks h) = compileHooksFromRules rules →
  he_eventFn (ih_hooks h) = None →
  path_blocked rules HookOpWrite (ih_path h) = false →
  d = replaced_data (with_Data p (op_request HookOpWrite (clean_if_set (ih_path h)))) rules →
  h_Stat (ih_inner h) w = Some (st, w1) →
  h_WriteAt (ih_inner h) d off w1 = Some ((blen d, None), w2) →
  h_Stat (ih_inner h) w2 = Some (st', w3) → es_closed (get_st w3) = false →
  h_WriteAt (intercept_handle h) p off w = Some ((blen p, None), w3).
Proof.
  intros Hdecl Hh Hev Hbl Hd Hst Hwr Hst' Hc. cbn.
  unfold interceptHandle_WriteAt, intercept_write, mbind, M_bind.
  destruct (populate_keeps h (handle_request h HookOpWrite off p) w st w1 Hst)
    as (req & Hreq & Hop & Hpath & Hdata). cbn in Hop, Hpath, Hdata. rewrite Hreq.
  destruct (Before_rules (ih_hooks h) rules req w1 Hh Hdecl) as (d' & Hb & Hd').
  rewrite Hop, Hpath, Hbl in Hb, Hd'. rewrite Hb.
  assert (d' = d) as ->.
  { rewrite Hd', Hd by done. unfold replaced_data, clean_request. cbn. rewrite Hdata.
    unfold rule_replaces, applies, matchesOpPath. cbn. by rewrite Hop, Hpath. }
  cbn [with_Data hreq_Data]. rewrite Hwr, bool_decide_eq_true_2, Z.eqb_refl by done. cbn [andb].
  rewrite Hst'. rewrite (After_rules rules) by done. unfold HookEngine_emitEvent. by rewrite Hev.
Qed.

(** ** Examples: the in-memory file system behind rules *)

Definition demo_world : Type := memstore * engine_state.

Definition demo_intercept (rules : list (HookRule demo_world)) : interceptProvider demo_world := {|
  ip_inner := @mem_provider linux_abi demo_world _ 0; ip_hooks := NewHookEngine rules;
  ip_defaultUID := 0; ip_defaultGID := 0 |}.

Lemma intercept_blocks_witness :
  Remove (@intercept_provider linux_abi _ _ (demo_intercept [demo_rule _ "block" "/w/*" ["remove"]]))
    "/w/x/../f" (fresh_store, newEngineState) = Some (Some (Errno EPERM), (fresh_store, newEngineState)).
Proof.
  pose proof (@intercept_blocks linux_abi _ _ [demo_rule demo_world "block" "/w/*" ["remove"]]
    (demo_intercept [demo_rule _ "block" "/w/*" ["remove"]]) "/w/x/../f" (fresh_store, newEngineState)
    ltac:(by repeat constructor) eq_refl) as (_ & _ & _ & _ & _ & _ & _ & Hrm & _).
  apply Hrm. vm_compute. reflexivity.
Defined.

Definition demo_replace : HookRule demo_world := {|
  rule_Name := ""; rule_Phase := ""; rule_Ops := ["write"]; rule_PathPattern := "";
  rule_Action := "mutate_write"; rule_ActionFunc := None; rule_MutateWriteFunc := None;
  rule_MutateWrite := ["z"; "z"]%char |}.

Definition demo_written_world : demo_world :=
  (snd (run_to (0, None) (memHandle_WriteAt demo_handle ["z"; "z"]%char 0) demo_store), newEngineState).

(** The guest writes three bytes, two others reach the file, three are reported. *)
Lemma intercept_write_replaced_witness :
  let h := {| ih_inner := @mem_handle demo_world _ demo_handle; ih_hooks := NewHookEngine [demo_replace];
              ih_path := "/f"; ih_uid := 0; ih_gid := 0 |} in
  h_WriteAt (intercept_handle h) ["a"; "b"; "c"]%char 0 (demo_store, newEngineState)
  = Some ((3, None), demo_written_world).
Proof.
  intros h.
  eapply (@intercept_write_replaced linux_abi _ _ [demo_replace] h ["a"; "b"; "c"]%char ["z"; "z"]%char 0
    (demo_store, newEngineState) (demo_store, newEngineState) demo_written_world demo_written_world
    (Ok (NewFileInfo "" 0 0x1A4 0 false)) (Ok (NewFileInfo "" 2 0x1A4 0 false))).
  - by repeat constructor.
  - reflexivity.
  - reflexivity.
  - vm_compute. reflexivity.
  - vm_compute. reflexivity.
  - vm_compute. reflexivity.
  - vm_compute. reflexivity.
  - vm_compute. reflexivity.
  - vm_compute. reflexivity.
Defined.
