(* ===== verification/VfsServer.v ===== *)
(** * The VFS server: [pkg/vfs/server.go]

    The requests a guest sends, the dispatcher that turns each into calls of a
    provider, the table of open handles, error numbers, inode numbers, and the framing
    of a connection. The server's own state (handle table and counter) is passed
    explicitly; the provider's effects are in the world [W]. The codec is a
    parameter; that of the declarations here is in FusedCodec. *)

From S2P Require Import Prelude GoStrings GoPath VfsBase.

(** ** Wire data *)

Inductive OpCode :=
| OpLookup | OpGetattr | OpSetattr | OpRead | OpWrite | OpCreate | OpMkdir | OpUnlink | OpRmdir
| OpRename | OpOpen | OpRelease | OpReaddir | OpFsync | OpMkdirAll | OpTruncate | OpSymlink
| OpReadlink | OpLink | OpFsyncPath | OpChtimes
| OpUnknown (code : Z).  (* any other byte *)

Record VFSRequest := {
  rq_Op : OpCode; rq_Path : string; rq_NewPath : string;
  rq_Handle : Z;              (* uint64 *)
  rq_Offset : Z;              (* int64 *)
  rq_Size : Z;                (* uint32 *)
  rq_Data : bytes;
  rq_Flags : Z; rq_Mode : Z; rq_UID : Z; rq_GID : Z;  (* uint32 *)
  rq_AtimeNS : option Z; rq_MtimeNS : option Z }.

Record VFSStat := {
  vs_Size : Z; vs_Mode : Z; vs_ModTime : Z; vs_IsDir : bool; vs_Ino : Z; vs_UID : Z; vs_GID : Z }.

Record VFSDirEntry := {
  vd_Name : string; vd_IsDir : bool; vd_Mode : Z; vd_Size : Z; vd_Ino : Z }.

Record VFSResponse := {
  rs_Err : Z; rs_Stat : option VFSStat; rs_Data : bytes; rs_Written : Z; rs_Handle : Z;
  rs_Entries : list VFSDirEntry }.

Definition resp_ok : VFSResponse :=
  {| rs_Err := 0; rs_Stat := None; rs_Data := []; rs_Written := 0; rs_Handle := 0; rs_Entries := [] |}.
Definition resp_err (e : Z) : VFSResponse :=
  {| rs_Err := e; rs_Stat := None; rs_Data := []; rs_Written := 0; rs_Handle := 0; rs_Entries := [] |}.
Definition resp_stat (fh : Z) (st : VFSStat) : VFSResponse :=
  {| rs_Err := 0; rs_Stat := Some st; rs_Data := []; rs_Written := 0; rs_Handle := fh; rs_Entries := [] |}.
Definition resp_handle (fh : Z) : VFSResponse :=
  {| rs_Err := 0; rs_Stat := None; rs_Data := []; rs_Written := 0; rs_Handle := fh; rs_Entries := [] |}.
Definition resp_data (d : bytes) : VFSResponse :=
  {| rs_Err := 0; rs_Stat := None; rs_Data := d; rs_Written := 0; rs_Handle := 0; rs_Entries := [] |}.
Definition resp_written (n : Z) : VFSResponse :=
  {| rs_Err := 0; rs_Stat := None; rs_Data := []; rs_Written := n; rs_Handle := 0; rs_Entries := [] |}.
Definition resp_entries (es : list VFSDirEntry) : VFSResponse :=
  {| rs_Err := 0; rs_Stat := None; rs_Data := []; rs_Written := 0; rs_Handle := 0; rs_Entries := es |}.

(** ** Inode numbers: 64-bit FNV-1a *)

Definition fnv_offset : Z := 14695981039346656037.
Definition fnv_prime : Z := 1099511628211.

Definition fnv1a (h : Z) (bs : list Z) : Z :=
  fold_left (λ h b, uint64 (Z.lxor h b * fnv_prime)) bs h.

Definition string_codes (s : string) : list Z := code <$> String.list_ascii_of_string s.

(** [binary.BigEndian.PutUint64] *)
Definition be64 (v : Z) : list Z :=
  (λ i, Z.land (Z.shiftr v (8 * i)) 0xFF) <$> [7; 6; 5; 4; 3; 2; 1; 0].

(** 0 and 1 are reserved. *)
Definition avoid_reserved (ino : Z) : Z :=
  if (ino =? 0) || (ino =? 1) then ino + 2 else ino.

Definition namespacedInode (dev ino : Z) : Z :=
  avoid_reserved (fnv1a fnv_offset (be64 (uint64 dev) ++ be64 (uint64 ino))).

Definition syntheticInode (path : string) (isDir : bool) : Z :=
  let clean := Clean path in
  if decide (clean = "/") then 1
  else avoid_reserved (fnv1a (fnv1a fnv_offset (string_codes clean))
                         [code (if isDir then "d" else "f")%char]).

Definition inodeFromSys (sys : option Stat_t) : Z :=
  match sys with
  | None => 0
  | Some st => if st_Ino st =? 0 then 0 else namespacedInode (st_Dev st) (st_Ino st)
  end.

Definition inodeFromFileInfo (path : string) (info : FileInfo) (isDir : bool) : Z :=
  let ino := inodeFromSys (fi_sys info) in
  if negb (ino =? 0) then ino else syntheticInode path isDir.

(** [time.Time.Unix()] of nanoseconds since the epoch. *)
Definition unix_seconds (ns : Z) : Z := ns / 1000000000.

Definition statFromInfo (path : string) (info : FileInfo) : VFSStat := {|
  vs_Size := fi_size info; vs_Mode := uint32 (fi_mode info); vs_ModTime := unix_seconds (fi_modTime info);
  vs_IsDir := fi_isDir info; vs_Ino := inodeFromFileInfo path info (fi_isDir info);
  vs_UID := fi_uid info; vs_GID := fi_gid info |}.

(** [DirEntry.Info] of this package never fails. *)
Definition direntsFromEntries (parentPath : string) (entries : list DirEntry) : list VFSDirEntry :=
  map (λ e,
    let childPath := PathJoin [parentPath; de_name e] in
    {| vd_Name := de_name e; vd_IsDir := de_isDir e; vd_Mode := uint32 (DirEntry_Type e);
       vd_Size := fi_size (de_info e); vd_Ino := inodeFromFileInfo childPath (de_info e) (de_isDir e) |})
    entries.

Section server.
Context `{HostABI} {W : Type}.

Definition errnoFromError (e : err) : Z :=
  match e with
  | Errno n => int32 (- errno_num n)
  | _ =>
      if IsNotExist e then int32 (- errno_num ENOENT)
      else if IsPermission e then int32 (- errno_num EACCES)
      else if IsExist e then int32 (- errno_num EEXIST)
      else int32 (- errno_num EIO)
  end.

(** ** State and dispatch *)

(** [handles] (a sync.Map) and [nextFH]. *)
Record VFSServer := { sv_handles : gmap Z (Handle W); sv_nextFH : Z }.

Definition NewVFSServer : VFSServer := {| sv_handles := ∅; sv_nextFH := 0 |}.

(** [atomic.AddUint64(&s.nextFH, 1)] and [handles.Store]. *)
Definition store_handle (sv : VFSServer) (h : Handle W) : Z * VFSServer :=
  let fh := uint64 (sv_nextFH sv + 1) in
  (fh, {| sv_handles := <[fh := h]> (sv_handles sv); sv_nextFH := fh |}).

Definition delete_handle (sv : VFSServer) (fh : Z) : VFSServer :=
  {| sv_handles := delete fh (sv_handles sv); sv_nextFH := sv_nextFH sv |}.

(** The provider a request is served by: a caller-aware provider is specialised to
    the request's user. [OpMkdirAll] asks for the dynamic type after that. *)
Definition request_provider (i : Iface W) (req : VFSRequest) : Provider W :=
  match iface_withCaller i with
  | Some f => f (rq_UID req) (rq_GID req)
  | None => iface_ops i
  end.

Definition request_MkdirAll (i : Iface W) : option (string → Z → M W (option err)) :=
  match iface_withCaller i with Some _ => None | None => iface_MkdirAll i end.

Definition reply (sv : VFSServer) (r : VFSResponse) : M W (VFSResponse * VFSServer) := mret (r, sv).
Definition reply_err (sv : VFSServer) (e : err) := reply sv (resp_err (errnoFromError e)).
Definition reply_errno (sv : VFSServer) (n : errno) := reply sv (resp_err (int32 (- errno_num n))).

(** An operation that returns an error or nothing. *)
Definition reply_unit (sv : VFSServer) (m : M W (option err)) : M W (VFSResponse * VFSServer) :=
  r ← m;
  match r with
  | Some e => reply_err sv e
  | None => reply sv resp_ok
  end.

Definition reply_stat (sv : VFSServer) (p : Provider W) (path : string) : M W (VFSResponse * VFSServer) :=
  r ← Stat p path;
  match r with
  | Err e => reply_err sv e
  | Ok info => reply sv (resp_stat 0 (statFromInfo path info))
  end.

Definition VFSServer_dispatch (i : Iface W) (sv : VFSServer) (req : VFSRequest)
    : M W (VFSResponse * VFSServer) :=
  let p := request_provider i req in
  let path := rq_Path req in
  match rq_Op req with
  | OpLookup | OpGetattr => reply_stat sv p path
  | OpSetattr =>
      r ← Chmod p path (rq_Mode req);
      match r with
      | Some e => reply_err sv e
      | None => reply_stat sv p path
      end
  | OpOpen =>
      r ← Open p path (hostOpenFlags (rq_Flags req)) (rq_Mode req);
      match r with
      | Err e => reply_err sv e
      | Ok h => let '(fh, sv') := store_handle sv h in reply sv' (resp_handle fh)
      end
  | OpCreate =>
      r ← (if negb (rq_Flags req =? 0)
           then Open p path (Z.lor (hostOpenFlags (rq_Flags req)) O_CREATE) (rq_Mode req)
           else Create p path (rq_Mode req));
      match r with
      | Err e => reply_err sv e
      | Ok h =>
          st ← h_Stat h;
          match st with
          | Err e => _ ← h_Close h; reply_err sv e
          | Ok info =>
              let '(fh, sv') := store_handle sv h in
              reply sv' (resp_stat fh (statFromInfo path info))
          end
      end
  | OpRead =>
      match sv_handles sv !! rq_Handle req with
      | None => reply_errno sv EBADF
      | Some h =>
          '(data, e) ← h_ReadAt h (rq_Size req) (rq_Offset req);
          match e with
          | Some e => if decide (e = EOF) then reply sv (resp_data data) else reply_err sv e
          | None => reply sv (resp_data data)
          end
      end
  | OpWrite =>
      match sv_handles sv !! rq_Handle req with
      | None => reply_errno sv EBADF
      | Some h =>
          '(n, e) ← h_WriteAt h (rq_Data req) (rq_Offset req);
          match e with
          | Some e => reply_err sv e
          | None => reply sv (resp_written (uint32 n))
          end
      end
  | OpTruncate =>
      if negb (rq_Handle req =? 0) then
        match sv_handles sv !! rq_Handle req with
        | None => reply_errno sv EBADF
        | Some h => reply_unit sv (h_Truncate h (rq_Offset req))
        end
      else
        r ← Open p path O_WRONLY 0;
        match r with
        | Err e => reply_err sv e
        | Ok h =>
            e ← h_Truncate h (rq_Offset req);
            _ ← h_Close h;
            match e with
            | Some e => reply_err sv e
            | None => reply sv resp_ok
            end
        end
  | OpRelease =>
      match sv_handles sv !! rq_Handle req with
      | Some h => _ ← h_Close h; reply (delete_handle sv (rq_Handle req)) resp_ok
      | None => reply sv resp_ok
      end
  | OpReaddir =>
      r ← ReadDir p path;
      match r with
      | Err e => reply_err sv e
      | Ok es => reply sv (resp_entries (direntsFromEntries path es))
      end
  | OpMkdir =>
      r ← Mkdir p path (rq_Mode req);
      match r with
      | Some e => reply_err sv e
      | None =>
          st ← Stat p path;
          match st with
          | Err _ => reply sv resp_ok
          | Ok info => reply sv (resp_stat 0 (statFromInfo path info))
          end
      end
  | OpMkdirAll =>
      match request_MkdirAll i with
      | Some mkdirAll => reply_unit sv (mkdirAll path (rq_Mode req))
      | None => reply_errno sv ENOSYS
      end
  | OpUnlink | OpRmdir => reply_unit sv (Remove p path)
  | OpRename => reply_unit sv (Rename p path (rq_NewPath req))
  | OpFsync =>
      match sv_handles sv !! rq_Handle req with
      | Some h => _ ← h_Sync h; reply sv resp_ok
      | None => reply sv resp_ok
      end
  | OpChtimes => reply_unit sv (Chtimes p path (rq_AtimeNS req) (rq_MtimeNS req))
  | OpFsyncPath => reply_unit sv (Fsync p path)
  | OpSymlink | OpReadlink | OpLink | OpUnknown _ => reply_errno sv ENOSYS
  end.

(** Requests one after the other: the responses in order. *)
Fixpoint dispatch_all (i : Iface W) (sv : VFSServer) (reqs : list VFSRequest)
    : M W (list VFSResponse * VFSServer) :=
  match reqs with
  | [] => mret ([], sv)
  | req :: reqs' =>
      '(r, sv) ← VFSServer_dispatch i sv req;
      '(rs, sv) ← dispatch_all i sv reqs';
      mret (r :: rs, sv)
  end.
End server.
Arguments VFSServer : clear implicits.

(** ** Open flags *)

(** The guest's Linux open flags are translated faithfully for either host: the
    access mode and the create, exclusive and truncate bits are those of the guest,
    append is dropped (the guest kernel sends absolute offsets), and no other bit of
    the guest's word reaches the host. *)
Theorem hostOpenFlags_faithful (abi : HostABI) g :
  abi = linux_abi ∨ abi = darwin_abi →
  let f := @hostOpenFlags abi g in
  Z.land f linuxOAccMode = Z.land g linuxOAccMode ∧
  has_flag f (@O_CREATE abi) = has_flag g linuxOCreat ∧
  has_flag f (@O_EXCL abi) = has_flag g linuxOExcl ∧
  has_flag f (@O_TRUNC abi) = has_flag g linuxOTrunc ∧
  has_flag f (@O_APPEND abi) = false ∧
  0 <= f < 2 ^ 12.
Proof.
  intros [-> | ->] f; unfold f, hostOpenFlags;
    assert (Hacc : Z.land g linuxOAccMode ∈ [0; 1; 2; 3])
      by (assert (0 <= Z.land g 3 < 4) by (change 3 with (Z.ones 2); rewrite Z.land_ones by lia; by apply Z.mod_pos_bound);
          unfold linuxOAccMode; rewrite !elem_of_cons; lia);
    rewrite !elem_of_cons, elem_of_nil in Hacc;
    destruct (has_flag g linuxOCreat), (has_flag g linuxOExcl), (has_flag g linuxOTrunc);
    destruct Hacc as [->|[->|[->|[->|[]]]]]; vm_compute; intuition discriminate.
Qed.

Lemma hostOpenFlags_faithful_witness :
  @hostOpenFlags darwin_abi 0x641 = 0x601 ∧
  has_flag (@hostOpenFlags darwin_abi 0x641) (@O_EXCL darwin_abi) = false.
Proof.
  split; [reflexivity|].
  destruct (hostOpenFlags_faithful darwin_abi 0x641) as (_ & _ & -> & _); [by right|reflexivity].
Defined.

(** ** Error numbers *)

(** The errno a Linux guest reads out of a response ([syscall.Errno(-resp.Err)]). *)
Definition guest_errno (resp : VFSResponse) : Z := - rs_Err resp.

Definition errno_wf (e : errno) : Prop := match e with EOTHER n => 0 < n < 2 ^ 31 | _ => True end.

(** A refused request is reported as such. Whatever error a provider returns, the
    response carries a negative number (never the 0 of success, never a positive
    one); on a Linux host a [syscall.Errno] arrives in the guest as itself, and
    wrapped "not found", "permission" and "exists" errors as ENOENT, EACCES, EEXIST. *)
Theorem errnoFromError_sound (abi : HostABI) e :
  abi = linux_abi ∨ abi = darwin_abi →
  (∀ n, underlying e = Some n → errno_wf n) →
  @errnoFromError abi e < 0 ∧
  (abi = linux_abi → ∀ n, e = Errno n → guest_errno (resp_err (@errnoFromError abi e)) = errno_common n) ∧
  (∀ n, e = PathError n → @errnoFromError abi e =
     match n with
     | ENOENT => - 2 | EACCES | EPERM => - 13 | EEXIST | ENOTEMPTY => - 17 | _ => - 5
     end).
Proof.
  intros Habi Hwf. split_and!.
  - destruct e as [n|n| |msg]; unfold errnoFromError, IsNotExist, IsPermission, IsExist;
      [specialize (Hwf n eq_refl); rewrite int32_id|..];
      destruct Habi as [-> | ->]; try (destruct n; cbn in *; lia);
      repeat case_bool_decide; vm_compute; done.
  - intros -> n ->. specialize (Hwf n eq_refl). unfold guest_errno, errnoFromError. cbn [rs_Err resp_err].
    rewrite int32_id; destruct n; cbn in *; lia.
  - intros n ->. unfold errnoFromError, IsNotExist, IsPermission, IsExist.
    destruct Habi as [-> | ->]; destruct n; vm_compute; done.
Qed.

Lemma errnoFromError_sound_witness :
  @errnoFromError linux_abi (PathError ENOTEMPTY) = - 17.
Proof.
  destruct (errnoFromError_sound linux_abi (PathError ENOTEMPTY)) as (_ & _ & H);
    [by left|by intros n [= <-]|]. exact (H ENOTEMPTY eq_refl).
Defined.

(** On a Darwin host the number is Darwin's: a Linux guest reads ENOTEMPTY (66 there)
    as its own error 66 (EREMOTE), and ENOSYS (78) as its error 78 (EREMCHG). *)
Theorem darwin_errno_untranslated :
  guest_errno (resp_err (@errnoFromError darwin_abi (Errno ENOTEMPTY))) = 66 ∧
  guest_errno (resp_err (@errnoFromError linux_abi (Errno ENOTEMPTY))) = 39 ∧
  guest_errno (resp_err (@errnoFromError darwin_abi (Errno ENOSYS))) = 78.
Proof. vm_compute. done. Qed.

(** ** Inode numbers *)

Lemma fnv1a_range h bs : 0 <= h < 2 ^ 64 → 0 <= fnv1a h bs < 2 ^ 64.
Proof.
  revert h. induction bs as [|b bs IH]; intros h Hh; [done|]. cbn. apply IH.
  unfold uint64. apply Z.mod_pos_bound. lia.
Qed.

Lemma avoid_reserved_range ino : 0 <= ino < 2 ^ 64 → 2 <= avoid_reserved ino < 2 ^ 64.
Proof.
  intros Hi. unfold avoid_reserved.
  destruct (ino =? 0) eqn:E0; cbn; [lia|]. destruct (ino =? 1) eqn:E1; lia.
Qed.

(** Inode numbers are usable 64-bit numbers: never 0 (which FUSE reads as
    "missing"), and 1 (the FUSE root) only for the path "/" of a file without host
    metadata. *)
Theorem inode_not_reserved path info isDir :
  let ino := inodeFromFileInfo path info isDir in
  1 <= ino < 2 ^ 64 ∧ (ino = 1 → Clean path = "/" ∧ inodeFromSys (fi_sys info) = 0).
Proof.
  assert (Hns : ∀ d i, 2 <= namespacedInode d i < 2 ^ 64).
  { intros. apply avoid_reserved_range, fnv1a_range. done. }
  assert (Hsys : inodeFromSys (fi_sys info) = 0 ∨ 2 <= inodeFromSys (fi_sys info) < 2 ^ 64).
  { unfold inodeFromSys. destruct (fi_sys info); [|by left]. case_match; [by left|right; apply Hns]. }
  unfold inodeFromFileInfo, syntheticInode. cbv zeta.
  destruct (inodeFromSys (fi_sys info) =? 0) eqn:E; cbn [negb].
  - apply Z.eqb_eq in E. rewrite E. case_decide as Hr; [by split|].
    assert (∀ h bs, 0 <= h < 2 ^ 64 → 2 <= avoid_reserved (fnv1a h bs) < 2 ^ 64) as Ha
      by (intros; by apply avoid_reserved_range, fnv1a_range).
    destruct (Ha (fnv1a fnv_offset (string_codes (Clean path)))
                [code (if isDir then "d" else "f")%char]) as [H1 H2]; [by apply fnv1a_range|].
    split; [lia|]. intros H3. rewrite H3 in H1. lia.
  - apply Z.eqb_neq in E. split; [lia|]. intros H1. lia.
Qed.

(** ** Whatever the providers respect, the server respects *)

Section server_respects.
Context `{HostABI} {W : Type} (R : W → W → Prop) `{!PreOrder R}.

Definition handles_respect (sv : VFSServer W) : Prop :=
  ∀ fh h, sv_handles sv !! fh = Some h → handle_respects R h.

Definition serves_ok (m : M W (VFSResponse * VFSServer W)) : Prop :=
  ∀ w r sv' w', m w = Some ((r, sv'), w') → R w w' ∧ handles_respect sv'.

Lemma serves_reply sv r : handles_respect sv → serves_ok (reply sv r).
Proof. intros Hsv w r' sv' w' [[= -> ->] ->]%M_ret_Some. split; [reflexivity|done]. Qed.

Lemma serves_bind {A} (m : M W A) (f : A → M W (VFSResponse * VFSServer W)) :
  respects R m → (∀ a, serves_ok (f a)) → serves_ok (m ≫= f).
Proof.
  intros Hm Hf w r sv' w' (a & w1 & H1 & H2)%M_bind_Some.
  apply Hf in H2 as [H2 ?]. split; [|done]. transitivity w1; [by eapply Hm|done].
Qed.

Lemma serves_bind_handle (m : M W (result err (Handle W))) f :
  respects R m → (∀ w h w', m w = Some (Ok h, w') → handle_respects R h) →
  (∀ h, handle_respects R h → serves_ok (f (Ok h))) → (∀ e, serves_ok (f (Err e))) →
  serves_ok (m ≫= f).
Proof.
  intros Hm Hh Hf He w r sv' w' ([h|e] & w1 & H1 & H2)%M_bind_Some.
  - apply Hf in H2 as [H2 ?]; [|by eapply Hh]. split; [|done]. transitivity w1; [by eapply Hm|done].
  - apply He in H2 as [H2 ?]. split; [|done]. transitivity w1; [by eapply Hm|done].
Qed.

Lemma store_handle_respects sv h :
  handles_respect sv → handle_respects R h → handles_respect (snd (store_handle sv h)).
Proof. intros Hsv Hh fh h'. cbn. rewrite lookup_insert_Some. naive_solver. Qed.

Lemma delete_handle_respects sv fh : handles_respect sv → handles_respect (delete_handle sv fh).
Proof. intros Hsv fh' h'. cbn. rewrite lookup_delete_Some. naive_solver. Qed.

#[local] Hint Resolve serves_reply store_handle_respects delete_handle_respects : core.

Lemma serves_unit sv m : handles_respect sv → respects R m → serves_ok (reply_unit sv m).
Proof. intros Hsv Hm. apply serves_bind; [done|]. intros []; by apply serves_reply. Qed.

Lemma serves_stat sv p path :
  handles_respect sv → provider_respects R p → serves_ok (reply_stat sv p path).
Proof. intros Hsv Hp. apply serves_bind; [apply Hp|]. intros []; by apply serves_reply. Qed.

Lemma dispatch_respects i sv req :
  iface_respects R i → handles_respect sv → serves_ok (VFSServer_dispatch i sv req).
Proof.
  intros Hi Hsv.
  assert (Hp : provider_respects R (request_provider i req)).
  { unfold request_provider. destruct (iface_withCaller i) eqn:E; [by eapply Hi|apply Hi]. }
  assert (Hmk : ∀ f a m, request_MkdirAll i = Some f → respects R (f a m)).
  { unfold request_MkdirAll. intros f a m. destruct (iface_withCaller i); [done|by apply Hi]. }
  unfold VFSServer_dispatch. set (p := request_provider i req) in *.
  destruct (rq_Op req); auto using serves_stat; try (by apply serves_reply);
    try (apply serves_unit; [done|]; by apply Hp).
  - apply serves_bind; [apply Hp|]. intros []; [by apply serves_reply|by apply serves_stat].
  - destruct (sv_handles sv !! _) as [h|] eqn:Hh; [|by apply serves_reply].
    apply serves_bind; [by apply (Hsv _ _ Hh)|]. intros [d [e|]]; [case_decide|]; by apply serves_reply.
  - destruct (sv_handles sv !! _) as [h|] eqn:Hh; [|by apply serves_reply].
    apply serves_bind; [by apply (Hsv _ _ Hh)|]. intros [n [e|]]; by apply serves_reply.
  - apply serves_bind_handle.
    + case_match; apply Hp.
    + intros w h w' Hr. destruct (negb _); [by eapply pr_Open_handle|by eapply pr_Create_handle].
    + intros h Hh. apply serves_bind; [apply Hh|]. intros [info|e].
      * apply (serves_reply (snd (store_handle sv h))). auto.
      * apply serves_bind; [apply Hh|]. intros _. by apply serves_reply.
    + intros e. by apply serves_reply.
  - apply serves_bind; [apply Hp|]. intros []; [by apply serves_reply|].
    apply serves_bind; [apply Hp|]. intros []; by apply serves_reply.
  - apply serves_bind_handle; [apply Hp|intros; by eapply pr_Open_handle|..].
    + intros h Hh. apply (serves_reply (snd (store_handle sv h))). auto.
    + intros e. by apply serves_reply.
  - destruct (sv_handles sv !! _) as [h|] eqn:Hh; [|by apply serves_reply].
    apply serves_bind; [by apply (Hsv _ _ Hh)|]. intros _. apply serves_reply. auto.
  - apply serves_bind; [apply Hp|]. intros []; by apply serves_reply.
  - destruct (sv_handles sv !! _) as [h|] eqn:Hh; [|by apply serves_reply].
    apply serves_bind; [by apply (Hsv _ _ Hh)|]. intros _. by apply serves_reply.
  - destruct (request_MkdirAll i) as [f|]; [|by apply serves_reply].
    apply serves_unit; auto.
  - case_match.
    + destruct (sv_handles sv !! _) as [h|] eqn:Hh; [|by apply serves_reply].
      apply serves_unit; [done|]. by apply (Hsv _ _ Hh).
    + apply serves_bind_handle; [apply Hp|intros; by eapply pr_Open_handle|..].
      * intros h Hh. apply serves_bind; [apply Hh|]. intros e.
        apply serves_bind; [apply Hh|]. intros _. destruct e; by apply serves_reply.
      * intros e. by apply serves_reply.
Qed.

Lemma dispatch_all_respects i reqs sv w rs sv' w' :
  iface_respects R i → handles_respect sv →
  dispatch_all i sv reqs w = Some ((rs, sv'), w') → R w w' ∧ handles_respect sv'.
Proof.
  intros Hi. revert sv w rs. induction reqs as [|req reqs IH]; intros sv w rs Hsv Hr.
  { apply M_ret_Some in Hr as [[= -> ->] ->]. split; [reflexivity|done]. }
  cbn in Hr. apply M_bind_Some in Hr as ([r sv1] & w1 & H1 & Hr).
  apply M_bind_Some in Hr as ([rs1 sv2] & w2 & H2 & [[= -> ->] ->]%M_ret_Some).
  apply dispatch_respects in H1 as [HR1 Hsv1]; [|done..].
  destruct (IH _ _ _ Hsv1 H2) as [HR2 ?]. split; [|done]. by transitivity w1.
Qed.
End server_respects.

(** ** Handles *)

Section handles.
Context `{HostABI} {W : Type} (i : Iface W).

(** What one request does to the handle table: nothing, a release, or one new handle,
    which is the one the response carries. *)
Inductive table_step (sv : VFSServer W) (req : VFSRequest) (resp : VFSResponse) : VFSServer W → Prop :=
| ts_same : rs_Handle resp = 0 → table_step sv req resp sv
| ts_release h : rq_Op req = OpRelease → rs_Handle resp = 0 →
    sv_handles sv !! rq_Handle req = Some h →
    table_step sv req resp (delete_handle sv (rq_Handle req))
| ts_open h : rs_Handle resp = fst (store_handle sv h) →
    table_step sv req resp (snd (store_handle sv h)).

Lemma dispatch_table sv req w resp sv' w' :
  VFSServer_dispatch i sv req w = Some ((resp, sv'), w') → table_step sv req resp sv'.
Proof.
  unfold VFSServer_dispatch, reply_unit, reply_stat, reply_err, reply_errno, reply.
  intros Hr. destruct (rq_Op req) eqn:Hop;
    repeat match goal with
    | Hr : (_ ≫= _) _ = Some _ |- _ =>
        let a := fresh "a" in
        apply M_bind_Some in Hr as (a & ? & _ & Hr)
    | Hr : context [match ?x with _ => _ end] |- _ => destruct x eqn:?
    | Hr : mret _ _ = Some _ |- _ => apply M_ret_Some in Hr as [[= -> ->] ->]
    end; try (by apply ts_same); try (by eapply ts_release);
    match goal with
    | Hs : store_handle sv ?h = (?z, ?v) |- _ =>
        replace v with (snd (store_handle sv h)) by (by rewrite Hs); apply ts_open; by rewrite Hs
    end.
Qed.

(** Handles in use were issued: they lie between 1 and the counter. *)
Definition table_wf (sv : VFSServer W) : Prop :=
  0 <= sv_nextFH sv ∧ ∀ fh, is_Some (sv_handles sv !! fh) → 1 <= fh <= sv_nextFH sv.

Lemma table_step_wf sv req resp sv' :
  sv_nextFH sv < 2 ^ 64 - 1 → table_wf sv → table_step sv req resp sv' →
  table_wf sv' ∧ sv_nextFH sv <= sv_nextFH sv' <= sv_nextFH sv + 1 ∧
  (rs_Handle resp = 0 ∨ sv_nextFH sv < rs_Handle resp <= sv_nextFH sv') ∧
  (∀ fh, fh <= sv_nextFH sv → sv_handles sv !! fh = None → sv_handles sv' !! fh = None).
Proof.
  intros Hmax [Hpos Hdom] Hstep.
  assert (Hfh : uint64 (sv_nextFH sv + 1) = sv_nextFH sv + 1) by (apply uint64_id; lia).
  destruct Hstep as [Hresp|h Hop Hresp Hh|h Hresp]; cbn in *; rewrite ?Hfh in *.
  - split_and!; try done; lia.
  - split_and!; try lia.
    + split; [done|]. intros fh Hfh'. apply Hdom. cbn in Hfh'.
      apply lookup_delete_is_Some in Hfh'. tauto.
    + intros fh Hle Hn. apply lookup_delete_None. by right.
  - split_and!; try lia.
    + split; cbn; [lia|]. intros fh [<-|[_ Hs]]%lookup_insert_is_Some; [lia|].
      specialize (Hdom fh Hs). lia.
    + intros fh Hle Hn. rewrite lookup_insert_ne by lia. done.
Qed.

(** A run of requests: the counter grows by at most one each; handles in the
    responses are fresh and increasing; a handle no longer open stays closed. *)
Lemma dispatch_all_table reqs sv w rs sv' w' :
  table_wf sv → sv_nextFH sv + blen reqs < 2 ^ 64 →
  dispatch_all i sv reqs w = Some ((rs, sv'), w') →
  table_wf sv' ∧ sv_nextFH sv <= sv_nextFH sv' <= sv_nextFH sv + blen reqs ∧
  NoDup (filter (λ fh, fh ≠ 0) (rs_Handle <$> rs)) ∧
  (∀ fh, fh ∈ rs_Handle <$> rs → fh = 0 ∨ sv_nextFH sv < fh <= sv_nextFH sv') ∧
  (∀ fh, fh <= sv_nextFH sv → sv_handles sv !! fh = None → sv_handles sv' !! fh = None).
Proof.
  revert sv w rs. induction reqs as [|req reqs IH]; intros sv w rs Hwf Hmax Hr.
  { apply M_ret_Some in Hr as [[= -> ->] ->]. cbn.
    split_and!; [done|lia|unfold blen; cbn; lia|constructor|by intros ? ?%not_elem_of_nil|done]. }
  assert (Hlen : blen (req :: reqs) = 1 + blen reqs) by (unfold blen; cbn; lia).
  pose proof (blen_nonneg reqs).
  cbn in Hr. apply M_bind_Some in Hr as ([r sv1] & w1 & H1 & Hr).
  apply M_bind_Some in Hr as ([rs1 sv2] & w2 & H2 & [[= -> ->] ->]%M_ret_Some).
  apply dispatch_table in H1. apply table_step_wf in H1 as (Hwf1 & Hn1 & Hfh & Hst); [|lia|done].
  destruct (IH _ _ _ Hwf1 ltac:(lia) H2) as (Hwf2 & Hn2 & Hnd & Hin & Hst2).
  split_and!; [done|lia|lia| | |].
  - rewrite fmap_cons, filter_cons. case_decide; [|done]. constructor; [|done].
    intros [_ Hr]%list_elem_of_filter. destruct (Hin _ Hr); lia.
  - intros fh [->|Hr]%elem_of_cons; [lia|]. destruct (Hin _ Hr); lia.
  - intros fh Hle Hnone. apply Hst2; [lia|]. by apply Hst.
Qed.

Lemma dispatch_all_app reqs1 reqs2 sv w rs sv' w' :
  dispatch_all i sv (reqs1 ++ reqs2) w = Some ((rs, sv'), w') →
  ∃ rs1 sv1 w1 rs2, dispatch_all i sv reqs1 w = Some ((rs1, sv1), w1) ∧
    dispatch_all i sv1 reqs2 w1 = Some ((rs2, sv'), w') ∧ rs = rs1 ++ rs2 ∧ length rs1 = length reqs1.
Proof.
  revert sv w rs. induction reqs1 as [|req reqs IH]; intros sv w rs Hr.
  { exists [], sv, w, rs. done. }
  cbn in Hr. apply M_bind_Some in Hr as ([r sv1] & w1 & H1 & Hr).
  apply M_bind_Some in Hr as ([rs0 sv2] & w2 & H2 & [[= -> ->] ->]%M_ret_Some).
  destruct (IH _ _ _ H2) as (rs1 & sv3 & w3 & rs2 & H3 & H4 & -> & Hl).
  exists (r :: rs1), sv3, w3, rs2. split_and!; [|done..|by cbn; rewrite Hl].
  cbn. unfold mbind, M_bind. by rewrite H1, H3.
Qed.
End handles.

(** File handles are never confused. In any run of fewer than 2^64 requests from
    the start, no two opens return the same handle and none returns 0; and once a
    handle has been released, nothing a guest sends afterwards brings it back: reads,
    writes and truncations through it are EBADF. *)
Theorem server_handles_fresh `{HostABI} {W} (i : Iface W) reqs1 rel reqs2 w w' rs1 r rs2 sv :
  blen (reqs1 ++ rel :: reqs2) < 2 ^ 64 → length rs1 = length reqs1 →
  dispatch_all i NewVFSServer (reqs1 ++ rel :: reqs2) w = Some ((rs1 ++ r :: rs2, sv), w') →
  rq_Op rel = OpRelease → rq_Handle rel ∈ rs_Handle <$> rs1 → rq_Handle rel ≠ 0 →
  NoDup (filter (λ fh, fh ≠ 0) (rs_Handle <$> rs1 ++ r :: rs2)) ∧
  ∀ req, rq_Handle req = rq_Handle rel →
    rq_Op req = OpRead ∨ rq_Op req = OpWrite ∨ rq_Op req = OpTruncate →
    ∀ v, VFSServer_dispatch i sv req v = Some ((resp_err (int32 (- errno_num EBADF)), sv), v).
Proof.
  intros Hlen Hl Hr Hrel Hiss Hnz.
  assert (Hwf0 : table_wf (W := W) NewVFSServer).
  { split; [done|]. cbn. intros fh. rewrite lookup_empty. by intros [? ?]. }
  split; [by apply dispatch_all_table in Hr as (_ & _ & Hnd & _); [|done|exact Hlen]|].
  apply dispatch_all_app in Hr as (rs1' & sv1 & w1 & rs' & H1 & H2 & Heq & Hl1).
  apply app_inj_1 in Heq as [<- <-]; [|congruence].
  rewrite blen_app in Hlen.
  assert (blen (rel :: reqs2) = 1 + blen reqs2) as Hc by (unfold blen; cbn; lia).
  pose proof (blen_nonneg reqs1). pose proof (blen_nonneg reqs2).
  destruct (dispatch_all_table i reqs1 NewVFSServer w rs1 sv1 w1 Hwf0) as (Hwf1 & Hn1 & _ & Hin1 & _);
    [cbn [sv_nextFH NewVFSServer]; lia|done|].
  cbn in H2. apply M_bind_Some in H2 as ([r2 sv2] & w2 & Hd & H2).
  apply M_bind_Some in H2 as ([rs3 sv3] & w3 & H4 & [[= -> -> ->] ->]%M_ret_Some).
  cbn in Hn1. destruct (Hin1 _ Hiss) as [?|Hfh]; [done|].
  assert (Hgone : sv_handles sv2 !! rq_Handle rel = None ∧ sv_nextFH sv2 = sv_nextFH sv1).
  { unfold VFSServer_dispatch in Hd. rewrite Hrel in Hd.
    destruct (sv_handles sv1 !! rq_Handle rel) as [h|] eqn:Hh.
    - apply M_bind_Some in Hd as (e & w4 & _ & [[= -> ->] ->]%M_ret_Some). cbn.
      split; [apply lookup_delete_eq|done].
    - by apply M_ret_Some in Hd as [[= -> ->] ->]. }
  apply dispatch_table in Hd. apply table_step_wf in Hd as (Hwf2 & Hn2 & _); [|lia|done].
  destruct Hgone as [Hgone Hn2'].
  destruct (dispatch_all_table i reqs2 sv2 w2 rs3 sv3 w3 Hwf2) as (_ & _ & _ & _ & Hst); [lia|done|].
  assert (Hnone : sv_handles sv3 !! rq_Handle rel = None) by (apply Hst; [lia|done]).
  intros req Hreq Hop v. unfold VFSServer_dispatch. rewrite Hreq.
  destruct Hop as [->|[->| ->]]; rewrite ?Hnone; [done..|].
  rewrite (proj2 (Z.eqb_neq _ _) Hnz). cbn [negb]. done.
Qed.

(** ** A connection *)

Section connection.
Context `{HostABI} {W : Type}.
(** [cbor.Unmarshal] and [cbor.Marshal]: [None] is an error. *)
Context (Unmarshal : bytes → option VFSRequest) (Marshal : VFSResponse → option bytes).

(** [HandleConnection] on the bytes the guest sends until it closes: the bytes sent
    back. A short read, a request that does not decode or a response that does not
    encode ends the connection. Every round reads at least the four length bytes. *)
Fixpoint connection_loop (fuel : nat) (i : Iface W) (sv : VFSServer W) (input : bytes)
    : M W (bytes * VFSServer W) :=
  match fuel with
  | O => mret ([], sv)
  | S fuel' =>
      if blen input <? 4 then mret ([], sv)
      else
        let msgLen := u32 (take 4 input) in
        let rest := drop 4 input in
        if blen rest <? msgLen then mret ([], sv)
        else
          match Unmarshal (take (Z.to_nat msgLen) rest) with
          | None => mret ([], sv)
          | Some req =>
              '(resp, sv) ← VFSServer_dispatch i sv req;
              match Marshal resp with
              | None => mret ([], sv)
              | Some respBuf =>
                  '(out, sv) ← connection_loop fuel' i sv (drop (Z.to_nat msgLen) rest);
                  mret (be32 (uint32 (blen respBuf)) ++ respBuf ++ out, sv)
              end
          end
  end.

Definition VFSServer_HandleConnection (i : Iface W) (sv : VFSServer W) (input : bytes) :=
  connection_loop (S (length input)) i sv input.

Definition frame (b : bytes) : bytes := be32 (blen b) ++ b.

Lemma connection_loop_frames fuel i sv w (msgs : list bytes) reqs rs bufs sv' w' :
  (length msgs < fuel)%nat →
  Forall2 (λ m req, Unmarshal m = Some req ∧ blen m < 2 ^ 32) msgs reqs →
  dispatch_all i sv reqs w = Some ((rs, sv'), w') →
  Forall2 (λ r buf, Marshal r = Some buf ∧ blen buf < 2 ^ 32) rs bufs →
  connection_loop fuel i sv (concat (frame <$> msgs)) w = Some ((concat (frame <$> bufs), sv'), w').
Proof.
  intros Hfuel Hreqs. revert fuel sv w rs bufs Hfuel.
  induction Hreqs as [|m req msgs reqs [Hm Hlen] _ IH]; intros fuel sv w rs bufs Hfuel Hr Hbufs.
  { apply M_ret_Some in Hr as [[= -> ->] ->]. inversion Hbufs; subst. by destruct fuel. }
  destruct fuel as [|fuel]; [cbn in Hfuel; lia|].
  cbn in Hr. apply M_bind_Some in Hr as ([r sv1] & w1 & H1 & Hr).
  apply M_bind_Some in Hr as ([rs1 sv2] & w2 & H2 & [[= -> ->] ->]%M_ret_Some).
  inversion Hbufs as [|? buf ? bufs1 [Hbuf Hblen] Hbufs1]; subst.
  rewrite !fmap_cons. cbn [concat connection_loop].
  change (frame m) with (be32 (blen m) ++ m). change (frame buf) with (be32 (blen buf) ++ buf).
  set (tail := concat (frame <$> msgs)). pose proof (blen_nonneg m). pose proof (blen_nonneg buf).
  assert (length (be32 (blen m)) = 4%nat) as H4 by done.
  rewrite <- !app_assoc.
  assert (blen (be32 (blen m) ++ m ++ tail) <? 4 = false) as ->.
  { apply Z.ltb_ge. unfold blen at 1. rewrite length_app, H4. lia. }
  rewrite take_app_length', drop_app_length' by done. rewrite u32_be32 by lia.
  assert (blen (m ++ tail) <? blen m = false) as ->.
  { apply Z.ltb_ge. rewrite blen_app. pose proof (blen_nonneg tail). lia. }
  assert (Z.to_nat (blen m) = length m) as -> by (unfold blen; lia).
  rewrite take_app_length, drop_app_length, Hm.
  unfold mbind, M_bind. rewrite H1, Hbuf.
  specialize (IH fuel sv1 w1 rs1 bufs1 ltac:(cbn in Hfuel; lia) H2 Hbufs1).
  unfold tail. rewrite IH, uint32_id by lia. done.
Qed.
End connection.

(** A connection answers every request, in order. If the guest sends framed
    requests that decode, and the dispatcher's responses encode, the bytes sent back
    are exactly the framed responses of dispatching the requests one after the other. *)
Theorem connection_in_order `{HostABI} {W} Unmarshal Marshal (i : Iface W) sv w msgs reqs rs bufs sv' w' :
  Forall2 (λ m req, Unmarshal m = Some req ∧ blen m < 2 ^ 32) msgs reqs →
  dispatch_all i sv reqs w = Some ((rs, sv'), w') →
  Forall2 (λ r buf, Marshal r = Some buf ∧ blen buf < 2 ^ 32) rs bufs →
  VFSServer_HandleConnection Unmarshal Marshal i sv (concat (frame <$> msgs)) w
  = Some ((concat (frame <$> bufs), sv'), w').
Proof.
  intros Hreqs Hr Hbufs. eapply connection_loop_frames; [|done..].
  assert (∀ l : list bytes, (length l <= length (concat (frame <$> l)))%nat) as Hl.
  { induction l as [|m l IH]; [done|]. cbn. rewrite !length_app. cbn. lia. }
  specialize (Hl msgs). lia.
Qed.

(** ** Providers that agree are served alike *)

Section server_agree.
Context `{HostABI} {W : Type}.

Record iface_agree (i1 i2 : Iface W) : Prop := {
  ia_ops : provider_agree (λ _, True) (iface_ops i1) (iface_ops i2);
  ia_withCaller :
    match iface_withCaller i1, iface_withCaller i2 with
    | Some f, Some g => ∀ uid gid, provider_agree (λ _, True) (f uid gid) (g uid gid)
    | None, None => True
    | _, _ => False
    end;
  ia_MkdirAll :
    match iface_MkdirAll i1, iface_MkdirAll i2 with
    | Some f, Some g => ∀ p m, f p m ≡ₘ g p m
    | None, None => True
    | _, _ => False
    end }.

Lemma dispatch_agree i1 i2 sv req :
  iface_agree i1 i2 → VFSServer_dispatch i1 sv req ≡ₘ VFSServer_dispatch i2 sv req.
Proof.
  intros [Hops Hwc Hmk].
  assert (Hp : provider_agree (λ _, True) (request_provider i1 req) (request_provider i2 req)).
  { unfold request_provider. by destruct (iface_withCaller i1), (iface_withCaller i2). }
  unfold VFSServer_dispatch, reply_stat, reply_unit.
  set (p1 := request_provider i1 req) in *. set (p2 := request_provider i2 req) in *.
  destruct (rq_Op req); try reflexivity;
    try (apply meq_bind; [by apply Hp|]; intros []; try reflexivity;
         try (apply meq_bind; [by apply Hp|]; reflexivity));
    try (by apply meq_bind; [apply Hp|]).
  - apply meq_bind; [destruct (negb _); by apply Hp|]. reflexivity.
  - unfold request_MkdirAll. destruct (iface_withCaller i1), (iface_withCaller i2); try done.
    destruct (iface_MkdirAll i1), (iface_MkdirAll i2); try done. apply meq_bind; [apply Hmk|reflexivity].
  - destruct (negb _); [reflexivity|]. apply meq_bind; [by apply Hp|]. reflexivity.
Qed.

Lemma dispatch_all_agree i1 i2 sv reqs :
  iface_agree i1 i2 → dispatch_all i1 sv reqs ≡ₘ dispatch_all i2 sv reqs.
Proof.
  intros Hi. revert sv. induction reqs as [|req reqs IH]; intros sv; [reflexivity|]. cbn.
  apply meq_bind; [by apply dispatch_agree|]. intros [r sv']. apply meq_bind; [apply IH|]. reflexivity.
Qed.
End server_agree.
