(* ===== verification/Api.v ===== *)
(** * The configuration API: [pkg/api]

    The configuration types, their validation, and the parsers of the command-line
    forms: volume mounts, environment variables, port forwards and secrets. Errors are
    the package's sentinel errors; the text an error is wrapped with is dropped, except
    where the error is the text only. What the parsers ask the host (does a path exist,
    an environment variable, a file's content) is an argument. *)

From S2P Require Import Prelude GoStrings GoStd GoPath.

Inductive api_error :=
| ErrInvalidConfig | ErrInvalidVolumeFormat | ErrResolvePath | ErrHostPathNotExist
| ErrUnknownMountOption | ErrInvalidMountOwner | ErrGuestPathNotAbs | ErrGuestPathOutside
| ErrEnvNameEmpty | ErrEnvNameInvalid | ErrEnvVarNotSet | ErrReadEnvFile | ErrEnvFileLine
| ErrPortForwardSpecFormat | ErrPortForwardPort
| ErrAddHostSpecFormat | ErrAddHostHost | ErrAddHostIP
| ErrText (msg : string).

#[export] Instance api_error_eq_dec : EqDecision api_error.
Proof. solve_decision. Defined.

(** ** Types *)

Record Secret := {
  secret_Value : string; secret_Placeholder : string; secret_Hosts : list string;
  secret_ValueFile : string }.

Record NetworkBodyTransform := { bt_Find : string; bt_Replace : string }.

Record NetworkHookRule := {
  nr_Name : string; nr_Phase : string; nr_Hosts : list string; nr_Methods : list string;
  nr_Path : string; nr_Action : string; nr_CallbackID : string; nr_TimeoutMS : Z;
  nr_SetHeaders : list (string * string); nr_DeleteHeaders : list string;
  nr_SetQuery : list (string * string); nr_DeleteQuery : list string; nr_RewritePath : string;
  nr_SetResponseHeaders : list (string * string); nr_DeleteResponseHeaders : list string;
  nr_BodyReplacements : list NetworkBodyTransform }.

Record NetworkInterceptionConfig := {
  ni_Rules : list NetworkHookRule; ni_CallbackSocket : string }.

Record HostIPMapping := { him_Host : string; him_IP : string }.

(** Maps as association lists in the order of one iteration over them. *)
Record NetworkConfig := {
  nc_AllowedHosts : list string; nc_AddHosts : list HostIPMapping; nc_BlockPrivateIPs : bool;
  nc_NoNetwork : bool; nc_Intercept : bool; nc_Interception : option NetworkInterceptionConfig;
  nc_Secrets : list (string * Secret); nc_PathAllow : list (string * list string);
  nc_PolicyScript : string; nc_DNSServers : list string; nc_Hostname : string; nc_MTU : Z }.

Inductive MountConfig := {
  mc_Type : string; mc_HostPath : string; mc_Readonly : bool;
  mc_Upper : option MountConfig; mc_Lower : option MountConfig;
  mc_OwnerUID : option Z; mc_OwnerGID : option Z }.

Record VFSHookRule := {
  vr_Name : string; vr_Phase : string; vr_Ops : list string; vr_Path : string;
  vr_Action : string; vr_TimeoutMS : Z }.

Record VFSInterceptionConfig := { vi_EmitEvents : bool; vi_Rules : list VFSHookRule }.

Record DirectMount := { dm_HostPath : string; dm_Readonly : bool }.

Record VFSConfig := {
  vfs_Workspace : string; vfs_DirectMounts : list (string * DirectMount);
  vfs_Mounts : list (string * MountConfig); vfs_Interception : option VFSInterceptionConfig }.

Definition MountTypeMemory := "memory".
Definition MountTypeHostFS := "host_fs".
Definition MountTypeOverlay := "overlay".
Definition MountOptionReadonlyShort := "ro".
Definition MountOptionReadonly := "readonly".

(** ** Guest paths *)

(** The character class of [validGuestMountPath]. *)
Definition guest_path_char (c : Ascii.ascii) : bool :=
  let x := code c in
  ((97 <=? x) && (x <=? 122)) || ((65 <=? x) && (x <=? 90)) || is_digit c
  || (x =? 47) || (x =? 95) || (x =? 46) || (x =? 45).

Fixpoint all_chars (f : Ascii.ascii → bool) (s : string) : bool :=
  match s with EmptyString => true | String c s' => f c && all_chars f s' end.

Definition ValidateGuestMount (path : string) : option api_error :=
  match path with
  | String c rest =>
      if bool_decide (c = slash) && negb (bool_decide (rest = "")) && all_chars guest_path_char rest
      then None else Some (ErrText "invalid guest mount path")
  | EmptyString => Some (ErrText "invalid guest mount path")
  end.

Definition isWithinWorkspace (path workspace : string) : bool :=
  let path := Clean path in
  let workspace := Clean workspace in
  if decide (workspace = "/") then IsAbs path
  else bool_decide (path = workspace) || HasPrefix path (workspace +:+ "/").

Definition ValidateGuestPathWithinWorkspace (guestPath workspace : string) : option api_error :=
  let cleanGuestPath := Clean guestPath in
  let cleanWorkspace := Clean workspace in
  if negb (IsAbs cleanGuestPath) then Some ErrGuestPathNotAbs
  else if negb (isWithinWorkspace cleanGuestPath cleanWorkspace) then Some ErrGuestPathOutside
  else None.

Fixpoint ValidateVFSMountsWithinWorkspace (mounts : list (string * MountConfig)) (workspace : string)
    : option api_error :=
  match mounts with
  | [] => None
  | (guestPath, _) :: mounts' =>
      match ValidateGuestPathWithinWorkspace guestPath workspace with
      | Some e => Some e
      | None => ValidateVFSMountsWithinWorkspace mounts' workspace
      end
  end.

Definition has_owner (m : MountConfig) : bool :=
  match mc_OwnerUID m, mc_OwnerGID m with None, None => false | _, _ => true end.

Fixpoint ValidateVFSMountOwnership (mounts : list (string * MountConfig)) : option api_error :=
  match mounts with
  | [] => None
  | (_, mount) :: mounts' =>
      if has_owner mount && negb (bool_decide (mc_Type mount = MountTypeHostFS))
      then Some ErrInvalidConfig
      else ValidateVFSMountOwnership mounts'
  end.

(** [Config.ValidateVFS] on the VFS part; every failure is ErrInvalidConfig. *)
Definition ValidateVFS (vfs : option VFSConfig) : option api_error :=
  match vfs with
  | None => None
  | Some v =>
      let hasWorkspace := negb (bool_decide (TrimSpace (vfs_Workspace v) = "")) in
      let hasMounts := negb (bool_decide (vfs_Mounts v = [])) in
      let hasInterception := match vfs_Interception v with Some _ => true | None => false end in
      if hasWorkspace && negb hasMounts then Some ErrInvalidConfig
      else if hasMounts && negb hasWorkspace then Some ErrInvalidConfig
      else if hasInterception && negb hasMounts then Some ErrInvalidConfig
      else if negb hasMounts then None
      else
        match ValidateGuestMount (vfs_Workspace v),
              ValidateVFSMountsWithinWorkspace (vfs_Mounts v) (vfs_Workspace v),
              ValidateVFSMountOwnership (vfs_Mounts v) with
        | None, None, None => None
        | _, _, _ => Some ErrInvalidConfig
        end
  end.

(** ** Volume mounts *)

Record VolumeMountSpec := {
  vm_HostPath : string; vm_GuestPath : string; vm_Type : string; vm_Readonly : bool;
  vm_OwnerUID : option Z; vm_OwnerGID : option Z }.

Definition parseMountOwnerID (value : string) : result api_error Z :=
  if decide (value = "") then Err ErrInvalidMountOwner
  else match ParseUint value 32 with
       | Some v => Ok v
       | None => Err ErrInvalidMountOwner
       end.

(** The options gathered so far. *)
Record mount_options := {
  mo_Type : string; mo_Readonly : bool; mo_UID : option Z; mo_GID : option Z }.

(** One round of the loop over the options. *)
Definition mount_option (o : mount_options) (rawOption : string) : result api_error mount_options :=
  let option := TrimSpace rawOption in
  let '(key, value, hasValue) :=
    match Cut option "="%char with
    | Some (k, v) => (k, v, true)
    | None => (option, "", false)
    end in
  let key := ToLower (TrimSpace key) in
  let value := TrimSpace value in
  let unknown := Err ErrUnknownMountOption in
  if bool_decide (key = MountOptionReadonlyShort) || bool_decide (key = MountOptionReadonly) then
    if hasValue : bool then unknown
    else Ok {| mo_Type := MountTypeHostFS; mo_Readonly := true; mo_UID := mo_UID o; mo_GID := mo_GID o |}
  else if decide (key = MountTypeOverlay) then
    if hasValue then unknown
    else Ok {| mo_Type := MountTypeOverlay; mo_Readonly := mo_Readonly o; mo_UID := mo_UID o;
               mo_GID := mo_GID o |}
  else if decide (key = MountTypeHostFS) then
    if hasValue then unknown
    else Ok {| mo_Type := MountTypeHostFS; mo_Readonly := mo_Readonly o; mo_UID := mo_UID o;
               mo_GID := mo_GID o |}
  else if decide (key = "uid") then
    if negb hasValue then unknown
    else uid ← parseMountOwnerID value;
         Ok {| mo_Type := mo_Type o; mo_Readonly := mo_Readonly o; mo_UID := Some uid; mo_GID := mo_GID o |}
  else if decide (key = "gid") then
    if negb hasValue then unknown
    else gid ← parseMountOwnerID value;
         Ok {| mo_Type := mo_Type o; mo_Readonly := mo_Readonly o; mo_UID := mo_UID o; mo_GID := Some gid |}
  else if decide (key = "owner") then
    if negb hasValue then unknown
    else
      match Cut value ":"%char with
      | None => Err ErrInvalidMountOwner
      | Some (uidValue, gidValue) =>
          uid ← parseMountOwnerID uidValue;
          gid ← parseMountOwnerID gidValue;
          Ok {| mo_Type := mo_Type o; mo_Readonly := mo_Readonly o; mo_UID := Some uid; mo_GID := Some gid |}
      end
  else unknown.

Fixpoint mount_option_loop (o : mount_options) (opts : list string) : result api_error mount_options :=
  match opts with
  | [] => Ok o
  | raw :: opts' => o' ← mount_option o raw; mount_option_loop o' opts'
  end.

Section host.
(** [filepath.Abs] (which may fail to find the working directory) and [os.Stat] on the
    host path. *)
Context (host_Abs : string → option string) (host_exists : string → bool).

Definition ParseVolumeMountSpec (vol workspace : string) : result api_error VolumeMountSpec :=
  match SplitN 3 vol ":"%char with
  | hostPath :: guestPath :: more =>
      hostPath ← (if IsAbs hostPath then Ok hostPath
                  else match host_Abs hostPath with Some p => Ok p | None => Err ErrResolvePath end);
      if negb (host_exists hostPath) then Err ErrHostPathNotExist
      else
        o ← mount_option_loop
              {| mo_Type := MountTypeOverlay; mo_Readonly := false; mo_UID := None; mo_GID := None |}
              (match more with opts :: _ => Split opts ","%char | [] => [] end);
        let owned := match mo_UID o, mo_GID o with None, None => false | _, _ => true end in
        if owned && negb (bool_decide (mo_Type o = MountTypeHostFS)) then Err ErrInvalidMountOwner
        else
          let cleanWorkspace := Clean workspace in
          let guestPath := if negb (IsAbs guestPath) then PathJoin [cleanWorkspace; guestPath]
                           else Clean guestPath in
          match ValidateGuestPathWithinWorkspace guestPath cleanWorkspace with
          | Some e => Err e
          | None =>
              Ok {| vm_HostPath := hostPath; vm_GuestPath := guestPath; vm_Type := mo_Type o;
                    vm_Readonly := mo_Readonly o; vm_OwnerUID := mo_UID o; vm_OwnerGID := mo_GID o |}
          end
  | _ => Err ErrInvalidVolumeFormat
  end.
End host.

(** ** Port forwards *)

Record PortForward := { pf_LocalPort : Z; pf_RemotePort : Z }.

Definition parsePort (value : string) : result api_error Z :=
  let value := TrimSpace value in
  if decide (value = "") then Err ErrPortForwardSpecFormat
  else match Atoi value with
       | None => Err ErrPortForwardPort
       | Some p => if (p <? 1) || (65535 <? p) then Err ErrPortForwardPort else Ok p
       end.

Definition ParsePortForward (spec : string) : result api_error PortForward :=
  let spec := TrimSpace spec in
  if decide (spec = "") then Err ErrPortForwardSpecFormat
  else
    match Split spec ":"%char with
    | [remote] =>
        remotePort ← parsePort remote;
        Ok {| pf_LocalPort := remotePort; pf_RemotePort := remotePort |}
    | [local; remote] =>
        localPort ← parsePort local;
        remotePort ← parsePort remote;
        Ok {| pf_LocalPort := localPort; pf_RemotePort := remotePort |}
    | _ => Err ErrPortForwardSpecFormat
    end.

Fixpoint ParsePortForwards (specs : list string) : result api_error (list PortForward) :=
  match specs with
  | [] => Ok []
  | spec :: specs' => pf ← ParsePortForward spec; rest ← ParsePortForwards specs'; Ok (pf :: rest)
  end.

(** ** Environment *)

Definition nul : Ascii.ascii := Ascii.zero.

Definition validateEnvName (name : string) : option api_error :=
  if decide (name = "") then Some ErrEnvNameEmpty
  else if contains_byte "="%char name then Some ErrEnvNameInvalid
  else if contains_byte nul name then Some ErrEnvNameInvalid
  else None.

Section env.
Context (LookupEnv : string → option string) (ReadFile : string → option string).

Definition ParseEnvVar (spec : string) : result api_error (string * string) :=
  match Cut spec "="%char with
  | None =>
      let name := TrimSpace spec in
      match validateEnvName name with
      | Some e => Err e
      | None => match LookupEnv name with Some v => Ok (name, v) | None => Err ErrEnvVarNotSet end
      end
  | Some (before, after) =>
      let name := TrimSpace before in
      match validateEnvName name with Some e => Err e | None => Ok (name, after) end
  end.

(** [bufio.ScanLines]: the parts between newlines, a last empty one dropped, a final
    carriage return stripped. *)
Definition newline : Ascii.ascii := chr 10.

Definition raw_lines (content : string) : list string :=
  let parts := Split content newline in
  match last parts with
  | Some "" => take (pred (length parts)) parts
  | _ => parts
  end.

Definition drop_cr (line : string) : string :=
  if HasSuffix line (String (chr 13) "") then string_take (pred (slen line)) line else line.

(** The scanner's buffer holds at most 1 MiB of one line. *)
Definition maxLine : Z := 1048576.

Fixpoint env_lines (lines : list string) (acc : gmap string string)
    : result api_error (gmap string string) :=
  match lines with
  | [] => Ok acc
  | raw :: lines' =>
      if maxLine <=? Z.of_nat (slen raw) then Err ErrReadEnvFile
      else
        let line := TrimSpace (drop_cr raw) in
        if bool_decide (line = "") || HasPrefix line "#" then env_lines lines' acc
        else match ParseEnvVar line with
             | Err _ => Err ErrEnvFileLine
             | Ok (name, value) => env_lines lines' (<[name := value]> acc)
             end
  end.

Definition ParseEnvFile (path : string) : result api_error (gmap string string) :=
  match ReadFile path with
  | None => Err ErrReadEnvFile
  | Some content => env_lines (raw_lines content) ∅
  end.

Fixpoint merge_env_files (files : list string) (acc : gmap string string)
    : result api_error (gmap string string) :=
  match files with
  | [] => Ok acc
  | path :: files' => fileEnv ← ParseEnvFile path; merge_env_files files' (fileEnv ∪ acc)
  end.

Fixpoint merge_env_specs (specs : list string) (acc : gmap string string)
    : result api_error (gmap string string) :=
  match specs with
  | [] => Ok acc
  | spec :: specs' => '(name, value) ← ParseEnvVar spec; merge_env_specs specs' (<[name := value]> acc)
  end.

(** The nil map of the empty case reads as the empty map. *)
Definition ParseEnvs (envSpecs envFiles : list string) : result api_error (gmap string string) :=
  env ← merge_env_files envFiles ∅; merge_env_specs envSpecs env.
End env.

(** ** Secrets *)

Definition GeneratedSecretPlaceholderPrefix := "SANDBOX_SECRET_".

Fixpoint secret_hosts (raw : list string) : result api_error (list string) :=
  match raw with
  | [] => Ok []
  | h :: raw' =>
      let host := TrimSpace h in
      if decide (host = "") then Err (ErrText "secret host cannot be empty")
      else rest ← secret_hosts raw'; Ok (host :: rest)
  end.

Definition parseSecretHosts (hostsStr : string) : result api_error (list string) :=
  if decide (hostsStr = "") then Err (ErrText "no hosts specified after @")
  else secret_hosts (Split hostsStr ","%char).

Definition ParseSecret (Getenv : string → string) (s : string) : result api_error (string * Secret) :=
  match LastIndexByte s "@"%char with
  | None => Err (ErrText "missing @hosts")
  | Some atIdx =>
      hosts ← parseSecretHosts (string_drop (S atIdx) s);
      let nameValue := string_take atIdx s in
      '(name, value) ←
        match Cut nameValue "="%char with
        | None =>
            let value := Getenv nameValue in
            if decide (value = "") then Err (ErrText "environment variable is not set")
            else Ok (nameValue, value)
        | Some (n, v) => Ok (n, v)
        end;
      if decide (name = "") then Err (ErrText "secret name cannot be empty")
      else Ok (name, {| secret_Value := value; secret_Placeholder := ""; secret_Hosts := hosts;
                        secret_ValueFile := "" |})
  end.

Definition ParseSecretPlaceholder (s : string) : result api_error (string * string) :=
  match Cut s "="%char with
  | None => Err (ErrText "missing =")
  | Some (n, p) =>
      let name := TrimSpace n in
      if decide (name = "") then Err (ErrText "secret name cannot be empty")
      else
        let placeholder := TrimSpace p in
        if decide (placeholder = "") then Err (ErrText "secret placeholder cannot be empty")
        else Ok (name, placeholder)
  end.

Definition secretPlaceholdersOverlap (left right : string) : bool :=
  Contains left right || Contains right left.

(** Some pair of the list overlaps (the double loop; which pair is reported depends on
    the sorting, whether one is does not). *)
Fixpoint some_overlap (ps : list string) : bool :=
  match ps with
  | [] => false
  | p :: ps' => existsb (secretPlaceholdersOverlap p) ps' || some_overlap ps'
  end.

Definition ValidateSecretPlaceholders (secrets : list (string * Secret)) : option api_error :=
  let placeholders := filter (λ p, p ≠ "") (secret_Placeholder ∘ snd <$> secrets) in
  let generated := filter (λ s, secret_Placeholder s.2 = "") secrets in
  if some_overlap placeholders then Some (ErrText "secret placeholders overlap")
  else if bool_decide (generated = []) then None
  else if existsb (λ p, Contains GeneratedSecretPlaceholderPrefix p) placeholders
  then Some (ErrText "secret placeholders overlap")
  else None.

(** ** Network and top-level configuration *)

Definition DefaultDNSServers : list string := ["8.8.8.8"; "8.8.4.4"].
Definition DefaultNetworkMTU : Z := 1500.

Definition GetDNSServers (n : option NetworkConfig) : list string :=
  match n with
  | Some n => if bool_decide (nc_DNSServers n = []) then DefaultDNSServers else nc_DNSServers n
  | None => DefaultDNSServers
  end.

Definition GetMTU (n : option NetworkConfig) : Z :=
  match n with
  | Some n => if 0 <? nc_MTU n then nc_MTU n else DefaultNetworkMTU
  | None => DefaultNetworkMTU
  end.

(** [NetworkConfig.Validate]; every failure is ErrInvalidConfig. *)
Definition NetworkConfig_Validate (n : option NetworkConfig) : option api_error :=
  match n with
  | None => None
  | Some n =>
      match ValidateSecretPlaceholders (nc_Secrets n) with
      | Some _ => Some ErrInvalidConfig
      | None =>
          if negb (nc_NoNetwork n) then None
          else if negb (bool_decide (nc_AllowedHosts n = [])) then Some ErrInvalidConfig
          else if negb (bool_decide (nc_Secrets n = [])) then Some ErrInvalidConfig
          else if nc_Intercept n then Some ErrInvalidConfig
          else if (match nc_Interception n with Some _ => true | None => false end)
          then Some ErrInvalidConfig
          else if negb (bool_decide (nc_PathAllow n = [])) then Some ErrInvalidConfig
          else None
      end
  end.

Record ImageConfig := {
  ic_User : string; ic_WorkingDir : string; ic_Entrypoint : list string; ic_Cmd : list string;
  ic_Env : gmap string string }.

(** nil and the empty slice are not told apart. *)
Definition ComposeCommand (ic : option ImageConfig) (userArgs : list string) : list string :=
  match ic with
  | None => userArgs
  | Some ic =>
      if bool_decide (userArgs = []) then ic_Entrypoint ic ++ ic_Cmd ic
      else ic_Entrypoint ic ++ userArgs
  end.

(** ** What the parsers and validators guarantee *)

Lemma isWithinWorkspace_under path ws :
  IsAbs path = true → IsAbs ws = true →
  isWithinWorkspace path ws = true ↔ under (Clean ws) (Clean path).
Proof.
  intros Hp Hw. unfold isWithinWorkspace, under.
  destruct (Clean_rooted path Hp) as (k & Hk & ->), (Clean_rooted ws Hw) as (l & Hl & ->).
  assert (abs_path l = "/" ↔ l = []) as Hroot.
  { change "/" with (abs_path []). split; [by intros ->%abs_path_inj|by intros ->]. }
  destruct (decide (abs_path l = "/")) as [->%Hroot|Hne].
  - rewrite IsAbs_abs_path. split; [|done]. intros _. by exists [], k.
  - rewrite orb_true_iff, bool_decide_eq_true, HasPrefix_dir by (try done; naive_solver). split.
    + intros [->%abs_path_inj|(r & _ & ->)]; [exists l, []; by rewrite app_nil_r|done..|].
      exists l, r. split_and!; done.
    + intros (l' & r & Hn & Hl' & Hk'). apply Forall_app in Hn as [Hnl Hnr].
      apply abs_path_inj in Hl' as <-; [|done..].
      apply abs_path_inj in Hk' as ->; [|done|by apply Forall_app].
      destruct r as [|x r]; [left; by rewrite app_nil_r|right; by exists (x :: r)].
Qed.

Lemma Clean_idem_abs p : IsAbs p = true → Clean (Clean p) = Clean p.
Proof. intros Hp. by apply Clean_clean_abs, Clean_rooted. Qed.

Lemma ValidateGuestPathWithinWorkspace_under guest ws :
  IsAbs ws = true → ValidateGuestPathWithinWorkspace guest ws = None →
  under (Clean ws) (Clean guest).
Proof.
  intros Hws. unfold ValidateGuestPathWithinWorkspace. rewrite IsAbs_Clean.
  destruct (IsAbs guest) eqn:Hg; cbn [negb]; [|done].
  destruct (isWithinWorkspace (Clean guest) (Clean ws)) eqn:Hin; cbn [negb]; [|done]. intros _.
  apply isWithinWorkspace_under in Hin; [|by rewrite IsAbs_Clean..].
  by rewrite !Clean_idem_abs in Hin.
Qed.

Lemma digits_value_range acc s v : 0 <= acc → digits_value acc s = Some v → 0 <= v.
Proof.
  revert acc. induction s as [|c s IH]; intros acc Hacc; cbn; [by intros [= <-]|].
  destruct (is_digit c) eqn:Hc; [|done]. apply IH. unfold is_digit in Hc.
  apply andb_true_iff in Hc as [Hc _]. apply Z.leb_le in Hc. lia.
Qed.

Lemma parseMountOwnerID_range s id : parseMountOwnerID s = Ok id → 0 <= id < 2 ^ 32.
Proof.
  unfold parseMountOwnerID, ParseUint, parse_digits. case_decide; [done|].
  destruct (digits_value 0 s) as [v|] eqn:Hv; [|done].
  apply digits_value_range in Hv; [|done]. destruct (v <? 2 ^ 32) eqn:E; [|done].
  intros [= <-]. apply Z.ltb_lt in E. lia.
Qed.

Definition owner_ids_ok (o : mount_options) : Prop :=
  ∀ id, mo_UID o = Some id ∨ mo_GID o = Some id → 0 <= id < 2 ^ 32.

Lemma mount_option_ids o raw o' : owner_ids_ok o → mount_option o raw = Ok o' → owner_ids_ok o'.
Proof.
  intros Ho. unfold mount_option. destruct (match Cut _ _ with Some _ => _ | None => _ end) as [[key value] hv].
  intros Hr. repeat (case_match; simplify_eq); try done;
    repeat match goal with
    | H : (_ ≫= _) = Ok _ |- _ => apply result_bind_Ok in H as (? & ? & ?); simplify_eq
    end; intros id [Hid|Hid]; cbn in Hid; simplify_eq; eauto using parseMountOwnerID_range;
    apply Ho; auto.
Qed.

Lemma mount_option_loop_ids o opts o' :
  owner_ids_ok o → mount_option_loop o opts = Ok o' → owner_ids_ok o'.
Proof.
  revert o. induction opts as [|raw opts IH]; intros o Ho; cbn; [by intros [= <-]|].
  intros (o1 & H1 & H2)%result_bind_Ok. eapply IH, H2. by eapply mount_option_ids.
Qed.

(** A volume specification that parses is a safe mount. The guest path is the
    workspace or lies below it, whatever [..] or absolute path the specification
    contains; the host path is absolute and exists; an ownership override is present
    only on a host_fs mount, and its numbers are 32-bit. *)
Theorem ParseVolumeMountSpec_safe host_Abs host_exists vol ws spec :
  IsAbs ws = true → (∀ p q, host_Abs p = Some q → IsAbs q = true) →
  ParseVolumeMountSpec host_Abs host_exists vol ws = Ok spec →
  under (Clean ws) (vm_GuestPath spec) ∧
  IsAbs (vm_HostPath spec) = true ∧ host_exists (vm_HostPath spec) = true ∧
  (is_Some (vm_OwnerUID spec) ∨ is_Some (vm_OwnerGID spec) → vm_Type spec = MountTypeHostFS) ∧
  (∀ id, vm_OwnerUID spec = Some id ∨ vm_OwnerGID spec = Some id → 0 <= id < 2 ^ 32).
Proof.
  intros Hws Habs. unfold ParseVolumeMountSpec.
  destruct (SplitN 3 vol _) as [|hp [|gp more]]; [done..|].
  intros (h & Hh & Hr)%result_bind_Ok. destruct (host_exists h) eqn:Hex; cbn [negb] in Hr; [|done].
  apply result_bind_Ok in Hr as (o & Ho & Hr).
  apply mount_option_loop_ids in Ho; [|by intros id [[=]|[=]]].
  destruct (_ && negb _) eqn:Hown; [done|].
  destruct (ValidateGuestPathWithinWorkspace _ _) eqn:Hv; simplify_eq. cbn. split_and!.
  - apply ValidateGuestPathWithinWorkspace_under in Hv; [|by rewrite IsAbs_Clean].
    rewrite Clean_idem_abs in Hv by done. destruct (IsAbs gp) eqn:Hgp; cbn [negb] in *.
    + by rewrite Clean_idem_abs in Hv.
    + by rewrite PathJoin_clean in Hv by (by rewrite IsAbs_Clean).
  - destruct (IsAbs hp) eqn:E; [by simplify_eq|]. destruct (host_Abs hp) eqn:E2; simplify_eq. by eapply Habs.
  - done.
  - intros Hs. apply andb_false_iff in Hown as [Hn|Hn].
    + destruct (mo_UID o), (mo_GID o); try done. by destruct Hs as [[? ?]|[? ?]].
    + by apply negb_false_iff, bool_decide_eq_true in Hn.
  - exact Ho.
Qed.


Lemma ParseVolumeMountSpec_safe_witness :
  let spec := {| vm_HostPath := "/srv"; vm_GuestPath := "/workspace/b"; vm_Type := MountTypeHostFS;
                 vm_Readonly := false; vm_OwnerUID := Some 1000; vm_OwnerGID := Some 7 |} in
  ParseVolumeMountSpec (λ _, None) (λ _, true) "/srv:a/../b:host_fs, owner=1000:7" "/workspace/" = Ok spec ∧
  under (Clean "/workspace/") (vm_GuestPath spec).
Proof.
  intros spec.
  assert (Hp : ParseVolumeMountSpec (λ _, None) (λ _, true) "/srv:a/../b:host_fs, owner=1000:7" "/workspace/"
    = Ok spec) by (vm_compute; reflexivity).
  split; [exact Hp|].
  destruct (ParseVolumeMountSpec_safe (λ _, None) (λ _, true) "/srv:a/../b:host_fs, owner=1000:7"
    "/workspace/" spec) as [H _]; [reflexivity|done|exact Hp|exact H].
Defined.

(** ** Validation of the VFS section *)

Lemma ValidateVFSMountsWithinWorkspace_all mounts ws :
  ValidateVFSMountsWithinWorkspace mounts ws = None →
  Forall (λ gm, ValidateGuestPathWithinWorkspace gm.1 ws = None) mounts.
Proof.
  induction mounts as [|[g m] mounts IH]; cbn; [constructor|].
  destruct (ValidateGuestPathWithinWorkspace g ws) eqn:E; [done|]. constructor; auto.
Qed.

Lemma ValidateGuestMount_abs p : ValidateGuestMount p = None → IsAbs p = true.
Proof.
  unfold ValidateGuestMount. destruct p as [|c p]; [done|].
  case_bool_decide as Hc; cbn [andb]; [|done]. subst. intros _. apply IsAbs_slash.
Qed.

(** A VFS configuration that validates mounts only absolute paths at or below an
    absolute workspace, and ownership overrides only on host_fs mounts. *)
Theorem ValidateVFS_sound v :
  ValidateVFS (Some v) = None → vfs_Mounts v ≠ [] →
  IsAbs (vfs_Workspace v) = true ∧
  Forall (λ gm, IsAbs gm.1 = true ∧ under (Clean (vfs_Workspace v)) (Clean gm.1) ∧
                (has_owner gm.2 = true → mc_Type gm.2 = MountTypeHostFS)) (vfs_Mounts v).
Proof.
  intros Hv Hne. unfold ValidateVFS in Hv.
  rewrite (bool_decide_eq_false_2 (vfs_Mounts v = [])) in Hv by done. cbn [negb andb] in Hv.
  rewrite !andb_false_r in Hv.
  destruct (negb (negb (bool_decide (TrimSpace (vfs_Workspace v) = "")))); [done|].
  destruct (ValidateGuestMount (vfs_Workspace v)) eqn:H1; [done|].
  destruct (ValidateVFSMountsWithinWorkspace _ _) eqn:H2; [done|].
  destruct (ValidateVFSMountOwnership _) eqn:H3; [done|].
  apply ValidateGuestMount_abs in H1. split; [done|].
  apply ValidateVFSMountsWithinWorkspace_all in H2. clear Hne Hv.
  induction H2 as [|[g m] mounts Hg _ IH]; [constructor|]. cbn in H3.
  destruct (has_owner m && _) eqn:Ho; [done|]. constructor; [|by apply IH]. cbn [fst snd] in *. split_and!.
  - unfold ValidateGuestPathWithinWorkspace in Hg. rewrite IsAbs_Clean in Hg. by destruct (IsAbs g).
  - by apply ValidateGuestPathWithinWorkspace_under.
  - intros Hm. rewrite Hm in Ho. cbn in Ho. by apply negb_false_iff, bool_decide_eq_true in Ho.
Qed.

Definition demo_mount (ty host : string) : MountConfig := {|
  mc_Type := ty; mc_HostPath := host; mc_Readonly := false; mc_Upper := None; mc_Lower := None;
  mc_OwnerUID := None; mc_OwnerGID := None |}.

Lemma ValidateVFS_sound_witness :
  let v := {| vfs_Workspace := "/workspace"; vfs_DirectMounts := [];
              vfs_Mounts := [("/workspace", demo_mount MountTypeMemory "");
                             ("/workspace/x/../src", demo_mount MountTypeHostFS "/srv")];
              vfs_Interception := None |} in
  ValidateVFS (Some v) = None ∧ IsAbs (vfs_Workspace v) = true.
Proof.
  intros v. assert (Hv : ValidateVFS (Some v) = None) by (vm_compute; reflexivity).
  split; [exact Hv|]. destruct (ValidateVFS_sound v Hv) as [H _]; [done|exact H].
Defined.

(** ** Secrets on the command line *)

Lemma secret_hosts_trimmed hosts :
  Forall (λ h, TrimSpace h ≠ "") hosts → secret_hosts hosts = Ok (TrimSpace <$> hosts).
Proof.
  induction 1 as [|h hosts Hh _ IH]; [done|]. cbn. by rewrite decide_False, IH.
Qed.

Lemma contains_byte_Join c d l :
  d ≠ c → Forall (λ x, contains_byte c x = false) l → contains_byte c (Join l (String d "")) = false.
Proof.
  intros Hd Hl. induction Hl as [|x l Hx _ IH]; [done|]. destruct l as [|y l]; [done|].
  rewrite Join_cons, !contains_byte_app, Hx, IH. cbn. by rewrite bool_decide_eq_false_2.
Qed.

(** An inline secret is parsed back as written. Whatever characters its value has
    (further [=] and [@] included), [NAME=VALUE@h1,h2] yields that name, that value and
    the trimmed hosts, provided the name is a non-empty one without [=] and the hosts
    are non-blank without [@] or [,]. *)
Theorem ParseSecret_roundtrip Getenv name value hosts :
  name ≠ "" → contains_byte "="%char name = false → hosts ≠ [] →
  Forall (λ h, TrimSpace h ≠ "" ∧ contains_byte "@"%char h = false ∧ contains_byte ","%char h = false) hosts →
  ParseSecret Getenv (name +:+ ("=" +:+ (value +:+ ("@" +:+ Join hosts ",")))) =
    Ok (name, {| secret_Value := value; secret_Placeholder := ""; secret_Hosts := TrimSpace <$> hosts;
                 secret_ValueFile := "" |}).
Proof.
  intros Hn Heq Hne Hh. unfold ParseSecret.
  assert (Hat : contains_byte "@"%char (Join hosts ",") = false).
  { apply contains_byte_Join; [done|]. eapply Forall_impl; [exact Hh|]. naive_solver. }
  assert (Hcm : Forall (λ x, contains_byte ","%char x = false) hosts).
  { eapply Forall_impl; [exact Hh|]. naive_solver. }
  assert (Htr : Forall (λ h, TrimSpace h ≠ "") hosts).
  { eapply Forall_impl; [exact Hh|]. naive_solver. }
  set (nv := name +:+ String "=" value).
  assert (name +:+ ("=" +:+ (value +:+ ("@" +:+ Join hosts ","))) = nv +:+ String "@" (Join hosts ",")) as ->.
  { unfold nv. by rewrite sapp_assoc. }
  rewrite (LastIndexByte_app nv _ _ Hat).
  assert (Hdrop : string_drop (S (slen nv)) (nv +:+ String "@" (Join hosts ",")) = Join hosts ",").
  { change (String "@" ?t) with (String "@" "" +:+ t). rewrite <- sapp_assoc.
    replace (S (slen nv)) with (slen (nv +:+ "@")) by (rewrite slen_app; cbn; lia).
    apply string_drop_app. }
  rewrite Hdrop, string_take_app. unfold parseSecretHosts.
  assert (Join hosts "," ≠ "") as Hjne.
  { destruct hosts as [|h [|h' hs]]; [done| |].
    - inversion_clear Hh as [|? ? (Ht & _) _]. cbn. by intros ->.
    - rewrite Join_cons. by intros [_ [? _]%sapp_eq_nil]%sapp_eq_nil. }
  rewrite (decide_False (P := Join hosts "," = "")) by done. change ("," : string) with (String ","%char "").
  rewrite Split_Join by done. rewrite secret_hosts_trimmed by done. cbn [mbind result_bind].
  unfold nv. rewrite (Cut_app name value _ Heq). cbn [mbind result_bind].
  by rewrite (decide_False (P := name = "")).
Qed.

Lemma ParseSecret_roundtrip_witness :
  ParseSecret (λ _, "") ("KEY" +:+ ("=" +:+ ("a=b@c" +:+ ("@" +:+ Join ["api.x.com"; " y.com"] ",")))) =
    Ok ("KEY", {| secret_Value := "a=b@c"; secret_Placeholder := ""; secret_Hosts := ["api.x.com"; "y.com"];
                  secret_ValueFile := "" |}).
Proof.
  apply (ParseSecret_roundtrip (λ _, "") "KEY" "a=b@c" ["api.x.com"; " y.com"]);
    [done|reflexivity|done|by repeat constructor].
Defined.

(** The validator accepts placeholders of which neither contains the other but which can
    still share characters, and then the order of substitution shows. *)
Theorem placeholders_partial_overlap :
  let ph p := {| secret_Value := ""; secret_Placeholder := p; secret_Hosts := []; secret_ValueFile := "" |} in
  ValidateSecretPlaceholders [("A", ph "ab"); ("B", ph "bc")] = None ∧
  ReplaceAll (ReplaceAll "abc" "ab" "1") "bc" "2" = "1c" ∧
  ReplaceAll (ReplaceAll "abc" "bc" "2") "ab" "1" = "a2".
Proof. vm_compute. done. Qed.
