(* ===== verification/ApiConfig.v ===== *)
(** * The top-level configuration: [pkg/api] config.go, cpu.go, add_host.go

    The configuration of a sandbox and the merge of a request into the defaults, CPU counts as
    IEEE numbers, and the host aliases of the command line. *)

From Stdlib Require Import Floats.SpecFloat.
From S2P Require Import Prelude GoStrings GoStd GoPath GoNet Api.

(** ** CPU counts

    A [float64] is its sign, mantissa and exponent, or a special value. *)

Definition IsValidCPUCount (cpus : spec_float) : bool :=
  match cpus with S754_finite false _ _ => true | _ => false end.

(** [math.Ceil] of a positive number [m * 2 ^ e]. *)
Definition ceil_pos (m : positive) (e : Z) : Z :=
  if 0 <=? e then Z.pos m * 2 ^ e else (Z.pos m + 2 ^ (- e) - 1) / 2 ^ (- e).

(** [float64(math.MaxInt)] is 2^63; the conversion of that number to [int] wraps. *)
Definition VCPUCount (cpus : spec_float) : Z * bool :=
  match cpus with
  | S754_finite false m e =>
      let vcpus := ceil_pos m e in
      if 2 ^ 63 <? vcpus then (0, false) else (int64 vcpus, true)
  | _ => (0, false)
  end.

(** ** The configuration *)

Record Resources := {
  rs_CPUs : spec_float; rs_MemoryMB : Z; rs_DiskSizeMB : Z; rs_SwapSizeMB : Z; rs_EncryptSwap : bool;
  rs_ZramPct : Z; rs_TimeoutSeconds : Z; rs_Timeout : Z }.

Record KernelConfig := { kc_Ref : string }.

Record DiskMount := { disk_HostPath : string; disk_GuestMount : string; disk_ReadOnly : bool }.
Record VirtioFSMount := { vio_HostPath : string; vio_GuestMount : string; vio_ReadOnly : bool }.

Record Config := {
  cfg_ID : string; cfg_Image : string; cfg_Privileged : bool; cfg_Kernel : option KernelConfig;
  cfg_LaunchEntrypoint : bool; cfg_Resources : option Resources; cfg_Network : option NetworkConfig;
  cfg_VFS : option VFSConfig; cfg_Env : option (gmap string string); cfg_ExtraDisks : list DiskMount;
  cfg_VirtioFS : list VirtioFSMount; cfg_VirtioFSMask : list string; cfg_ImageCfg : option ImageConfig }.

(** [GetID], given the random part of a new one: the configuration keeps it. *)
Definition GetID (uuid8 : string) (c : Config) : string * Config :=
  if decide (cfg_ID c = "") then
    let id := "vm-" +:+ uuid8 in
    (id, {| cfg_ID := id; cfg_Image := cfg_Image c; cfg_Privileged := cfg_Privileged c; cfg_Kernel := cfg_Kernel c;
            cfg_LaunchEntrypoint := cfg_LaunchEntrypoint c; cfg_Resources := cfg_Resources c; cfg_Network := cfg_Network c;
            cfg_VFS := cfg_VFS c; cfg_Env := cfg_Env c; cfg_ExtraDisks := cfg_ExtraDisks c; cfg_VirtioFS := cfg_VirtioFS c;
            cfg_VirtioFSMask := cfg_VirtioFSMask c; cfg_ImageCfg := cfg_ImageCfg c |})
  else (cfg_ID c, c).

Definition GetHostname (uuid8 : string) (c : Config) : string * Config :=
  match cfg_Network c with
  | Some n => if decide (nc_Hostname n = "") then GetID uuid8 c else (nc_Hostname n, c)
  | None => GetID uuid8 c
  end.

Definition VFSConfig_GetWorkspace (v : option VFSConfig) : string :=
  match v with Some v => vfs_Workspace v | None => "" end.

Definition HasVFSMounts (c : option Config) : bool :=
  match c with
  | Some c => match cfg_VFS c with Some v => negb (bool_decide (vfs_Mounts v = [])) | None => false end
  | None => false
  end.

Definition Config_ValidateVFS (c : option Config) : option api_error := c ≫= λ c, ValidateVFS (cfg_VFS c).

(** 1.0 *)
Definition DefaultCPUs : spec_float := S754_finite false 4503599627370496 (-52).
Definition DefaultMemoryMB : Z := 512.
Definition DefaultDiskSizeMB : Z := 5120.
Definition DefaultTimeoutSeconds : Z := 300.

Definition zero_resources : Resources := {|
  rs_CPUs := S754_zero false; rs_MemoryMB := 0; rs_DiskSizeMB := 0; rs_SwapSizeMB := 0; rs_EncryptSwap := false;
  rs_ZramPct := 0; rs_TimeoutSeconds := 0; rs_Timeout := 0 |}.

Definition DefaultConfig : Config := {|
  cfg_ID := ""; cfg_Image := ""; cfg_Privileged := false; cfg_Kernel := None; cfg_LaunchEntrypoint := false;
  cfg_Resources := Some {| rs_CPUs := DefaultCPUs; rs_MemoryMB := DefaultMemoryMB; rs_DiskSizeMB := DefaultDiskSizeMB;
                           rs_SwapSizeMB := 0; rs_EncryptSwap := false; rs_ZramPct := 0;
                           rs_TimeoutSeconds := DefaultTimeoutSeconds; rs_Timeout := 0 |};
  cfg_Network := Some {| nc_AllowedHosts := []; nc_AddHosts := []; nc_BlockPrivateIPs := true; nc_NoNetwork := false;
                         nc_Intercept := false; nc_Interception := None; nc_Secrets := []; nc_PathAllow := [];
                         nc_PolicyScript := ""; nc_DNSServers := []; nc_Hostname := ""; nc_MTU := DefaultNetworkMTU |};
  cfg_VFS := None; cfg_Env := None; cfg_ExtraDisks := []; cfg_VirtioFS := []; cfg_VirtioFSMask := []; cfg_ImageCfg := None |}.

(** [x > 0] on [float64]. *)
Definition cpus_positive (f : spec_float) : bool :=
  match f with S754_finite false _ _ | S754_infinity false => true | _ => false end.

(** What [other] says of the resources, over [r]. *)
Definition merge_resources (r other : Resources) : Resources := {|
  rs_CPUs := if cpus_positive (rs_CPUs other) then rs_CPUs other else rs_CPUs r;
  rs_MemoryMB := if 0 <? rs_MemoryMB other then rs_MemoryMB other else rs_MemoryMB r;
  rs_DiskSizeMB := if 0 <? rs_DiskSizeMB other then rs_DiskSizeMB other else rs_DiskSizeMB r;
  rs_SwapSizeMB := if 0 <? rs_SwapSizeMB other then rs_SwapSizeMB other else rs_SwapSizeMB r;
  rs_EncryptSwap := rs_EncryptSwap other || rs_EncryptSwap r;
  rs_ZramPct := if 0 <? rs_ZramPct other then rs_ZramPct other else rs_ZramPct r;
  rs_TimeoutSeconds := if 0 <? rs_TimeoutSeconds other then rs_TimeoutSeconds other else rs_TimeoutSeconds r;
  rs_Timeout := rs_Timeout r |}.

(** [first ?: second] *)
Definition or_else {A} (o d : option A) : option A := match o with Some _ => o | None => d end.
Definition or_list {A} (o d : list A) : list A := match o with [] => d | _ => o end.

(** [c.Merge(other)]: the result, and what [c] is afterwards. The result is a shallow copy, so
    the resources it merges into are those [c] points to; two nil configurations apart, the
    rest of [c] stays. *)
Definition Merge (c : Config) (other : option Config) : Config * Config :=
  match other with
  | None => (c, c)
  | Some other =>
      let resources := match cfg_Resources other with
                       | Some o => Some (merge_resources (default zero_resources (cfg_Resources c)) o)
                       | None => cfg_Resources c
                       end in
      ({| cfg_ID := cfg_ID c;
          cfg_Image := if decide (cfg_Image other = "") then cfg_Image c else cfg_Image other;
          cfg_Privileged := cfg_Privileged other || cfg_Privileged c;
          cfg_Kernel := or_else (cfg_Kernel other) (cfg_Kernel c);
          cfg_LaunchEntrypoint := cfg_LaunchEntrypoint other || cfg_LaunchEntrypoint c;
          cfg_Resources := resources;
          cfg_Network := or_else (cfg_Network other) (cfg_Network c);
          cfg_VFS := or_else (cfg_VFS other) (cfg_VFS c);
          cfg_Env := or_else (cfg_Env other) (cfg_Env c);
          cfg_ExtraDisks := or_list (cfg_ExtraDisks other) (cfg_ExtraDisks c);
          cfg_VirtioFS := or_list (cfg_VirtioFS other) (cfg_VirtioFS c);
          cfg_VirtioFSMask := or_list (cfg_VirtioFSMask other) (cfg_VirtioFSMask c);
          cfg_ImageCfg := or_else (cfg_ImageCfg other) (cfg_ImageCfg c) |},
       {| cfg_ID := cfg_ID c; cfg_Image := cfg_Image c; cfg_Privileged := cfg_Privileged c; cfg_Kernel := cfg_Kernel c;
          cfg_LaunchEntrypoint := cfg_LaunchEntrypoint c;
          cfg_Resources := match cfg_Resources c with Some _ => resources | None => None end;
          cfg_Network := cfg_Network c; cfg_VFS := cfg_VFS c; cfg_Env := cfg_Env c; cfg_ExtraDisks := cfg_ExtraDisks c;
          cfg_VirtioFS := cfg_VirtioFS c; cfg_VirtioFSMask := cfg_VirtioFSMask c; cfg_ImageCfg := cfg_ImageCfg c |})
  end.

(** ** Host aliases *)

(** [strings.ContainsAny] with " \t\n\r" *)
Fixpoint has_whitespace (s : string) : bool :=
  match s with
  | EmptyString => false
  | String c s' => existsb (Z.eqb (code c)) [32; 9; 10; 13] || has_whitespace s'
  end.

Definition ValidateAddHost (mapping : HostIPMapping) : option api_error :=
  if decide (him_Host mapping = "") then Some ErrAddHostHost
  else if has_whitespace (him_Host mapping) then Some ErrAddHostHost
  else if contains_byte ":"%char (him_Host mapping) then Some ErrAddHostHost
  else if decide (him_IP mapping = "") then Some ErrAddHostIP
  else match ParseIP (him_IP mapping) with None => Some ErrAddHostIP | Some _ => None end.

Definition ParseAddHost (spec : string) : result api_error HostIPMapping :=
  let spec := TrimSpace spec in
  if decide (spec = "") then Err ErrAddHostSpecFormat
  else match Cut spec ":"%char with
       | None => Err ErrAddHostSpecFormat
       | Some (host, ip) =>
           let mapping := {| him_Host := TrimSpace host; him_IP := TrimSpace ip |} in
           match ValidateAddHost mapping with
           | Some e => Err e
           | None =>
               match ParseIP (him_IP mapping) with
               | Some parsed => Ok {| him_Host := him_Host mapping; him_IP := IP_String parsed |}
               | None => Err ErrAddHostIP
               end
           end
       end.

Fixpoint ParseAddHosts (specs : list string) : result api_error (list HostIPMapping) :=
  match specs with
  | [] => Ok []
  | spec :: specs' => m ← ParseAddHost spec; ms ← ParseAddHosts specs'; Ok (m :: ms)
  end.

(** ** What holds *)

(** A whole number of CPUs: what is asked for, rounded up. The one number that is taken for
    representable and is not is 2^63, which becomes negative. *)
Theorem VCPUCount_exact (m : positive) (e : Z) :
  let c := ceil_pos m e in
  (if 0 <=? e then c = Z.pos m * 2 ^ e else (c - 1) * 2 ^ (- e) < Z.pos m <= c * 2 ^ (- e))
  ∧ VCPUCount (S754_finite false m e)
    = (if c <? 2 ^ 63 then c else if c =? 2 ^ 63 then - 2 ^ 63 else 0, c <=? 2 ^ 63).
Proof.
  intros c. assert (Hc : if 0 <=? e then c = Z.pos m * 2 ^ e else (c - 1) * 2 ^ (- e) < Z.pos m <= c * 2 ^ (- e)).
  { subst c. unfold ceil_pos. destruct (Z.leb_spec 0 e) as [He|He]; [done|].
    assert (0 < 2 ^ (- e)) by (apply Z.pow_pos_nonneg; lia). set (q := 2 ^ (- e)) in *.
    pose proof (Z.div_mod (Z.pos m + q - 1) q ltac:(lia)). pose proof (Z.mod_pos_bound (Z.pos m + q - 1) q ltac:(lia)). nia. }
  split; [exact Hc|].
  assert (Hpos : 0 < c).
  { destruct (0 <=? e) eqn:He; [apply Z.leb_le in He; rewrite Hc|].
    - assert (0 < 2 ^ e) by (apply Z.pow_pos_nonneg; lia). nia.
    - apply Z.leb_gt in He. assert (0 < 2 ^ (- e)) by (apply Z.pow_pos_nonneg; lia). nia. }
  unfold VCPUCount. fold c. change (2 ^ 63) with 9223372036854775808 in *.
  destruct (Z.ltb_spec 9223372036854775808 c), (Z.ltb_spec c 9223372036854775808), (Z.leb_spec c 9223372036854775808),
    (Z.eqb_spec c 9223372036854775808); try lia; [done| |].
  - rewrite int64_id; [done|]. unfold is_int64. lia.
  - subst c. rewrite e0. done.
Qed.

Lemma VCPUCount_overflow : VCPUCount (S754_finite false 4503599627370496 11) = (- 2 ^ 63, true).
Proof. vm_compute. reflexivity. Qed.

(** What a request gives of the network replaces the default network as a whole. *)
Lemma Merge_network c o n : cfg_Network o = Some n → cfg_Network (Merge c (Some o)).1 = Some n.
Proof. intros Hn. unfold Merge. cbn [fst cfg_Network]. by rewrite Hn. Qed.

(** Merging resources into a configuration that has some changes that configuration. *)
Lemma Merge_changes_receiver c o r ro :
  cfg_Resources c = Some r → cfg_Resources o = Some ro →
  cfg_Resources (Merge c (Some o)).2 = Some (merge_resources r ro)
  ∧ cfg_Resources (Merge c (Some o)).2 = cfg_Resources (Merge c (Some o)).1.
Proof. intros Hc Ho. unfold Merge. cbn [fst snd cfg_Resources]. by rewrite Hc, Ho. Qed.

(** What an accepted alias looks like. *)
Lemma ParseAddHost_valid spec m :
  ParseAddHost spec = Ok m →
  him_Host m ≠ "" ∧ has_whitespace (him_Host m) = false ∧ contains_byte ":"%char (him_Host m) = false
  ∧ ∃ ip text, ParseIP text = Some ip ∧ him_IP m = IP_String ip.
Proof.
  unfold ParseAddHost. destruct (decide (TrimSpace spec = "")); [done|]. destruct (Cut _ _) as [[host ip]|]; [|done].
  unfold ValidateAddHost. cbn [him_Host him_IP]. destruct (decide (TrimSpace host = "")); [done|].
  destruct (has_whitespace (TrimSpace host)) eqn:Hw; [done|]. destruct (contains_byte _ (TrimSpace host)) eqn:Hc; [done|].
  destruct (decide (TrimSpace ip = "")); [done|]. destruct (ParseIP (TrimSpace ip)) as [p|] eqn:Hp; [|done].
  intros [= <-]. cbn [him_Host him_IP]. split_and!; [done..|]. by exists p, (TrimSpace ip).
Qed.
