(* ===== verification/SandboxVfs.v ===== *)
(** * The sandbox's file system: [pkg/sandbox/sandbox_common.go], [vfs_hooks.go]

    How a configuration becomes the provider the VFS server serves: one provider per
    mount, the router over them, the hook engine from the interception rules, the event
    function. The end-to-end theorems about what a guest can do through the server are
    here, because they are about the whole stack. *)

From S2P Require Import Prelude GoStrings GoPath VfsBase VfsMemory VfsMemorySpec VfsReadonly.
From S2P Require Import GoStd VfsRealFS VfsRouter VfsHooks VfsIntercept VfsServer Api.

(** ** Interception rules of a configuration *)

Definition parseVFSHookPhase (phase : string) : string :=
  if EqualFold phase HookPhaseAfter then HookPhaseAfter else HookPhaseBefore.

Definition parseVFSHookAction (action : string) : option string :=
  if decide (ToLower action = HookActionAllow) then Some HookActionAllow
  else if decide (ToLower action = HookActionBlock) then Some HookActionBlock
  else None.

Definition parseVFSHookOp (op : string) : option string :=
  let o := ToLower op in
  if decide (o = HookOpStat) then Some HookOpStat
  else if decide (o = HookOpReadDir ∨ o = "read_dir") then Some HookOpReadDir
  else if decide (o = HookOpOpen) then Some HookOpOpen
  else if decide (o = HookOpCreate) then Some HookOpCreate
  else if decide (o = HookOpMkdir) then Some HookOpMkdir
  else if decide (o = HookOpChmod) then Some HookOpChmod
  else if decide (o = HookOpRemove) then Some HookOpRemove
  else if decide (o = HookOpRemoveAll ∨ o = "removeall") then Some HookOpRemoveAll
  else if decide (o = HookOpRename) then Some HookOpRename
  else if decide (o = HookOpSymlink) then Some HookOpSymlink
  else if decide (o = HookOpReadlink) then Some HookOpReadlink
  else if decide (o = HookOpRead) then Some HookOpRead
  else if decide (o = HookOpWrite) then Some HookOpWrite
  else if decide (o = HookOpClose) then Some HookOpClose
  else if decide (o = HookOpSync) then Some HookOpSync
  else if decide (o = HookOpTruncate) then Some HookOpTruncate
  else None.

Section hooks.
Context {W : Type} `{!Has engine_state W}.

(** One configured rule; a rule whose action is unknown is skipped, an operation name
    that is unknown is dropped. *)
Definition config_rule (cfg : VFSHookRule) : option (HookRule W) :=
  match parseVFSHookAction (vr_Action cfg) with
  | None => None
  | Some action => Some {|
      rule_Name := vr_Name cfg; rule_Phase := parseVFSHookPhase (vr_Phase cfg);
      rule_Ops := omap parseVFSHookOp (vr_Ops cfg); rule_PathPattern := vr_Path cfg;
      rule_Action := action; rule_ActionFunc := None; rule_MutateWriteFunc := None;
      rule_MutateWrite := [] |}
  end.

Definition config_rules (cfg : VFSInterceptionConfig) : list (HookRule W) :=
  omap config_rule (vi_Rules cfg).

Definition buildVFSHookEngine (vfs : option VFSConfig) : option (HookEngine W) :=
  match vfs ≫= vfs_Interception with
  | None => None
  | Some cfg =>
      if bool_decide (vi_Rules cfg = []) && negb (vi_EmitEvents cfg) then None
      else
        let rules := config_rules cfg in
        if bool_decide (rules = []) && negb (vi_EmitEvents cfg) then None
        else Some (NewHookEngine rules)
  end.

(** api.FileEvent *)
Record FileEvent := {
  fe_Op : string; fe_Path : string; fe_Size : Z; fe_Mode : Z; fe_UID : Z; fe_GID : Z }.

Definition file_event (req : HookRequest) (res : HookResult) : FileEvent :=
  let '(mode, uid, gid) :=
    match hres_Meta res with
    | None => (hreq_Mode req, hreq_UID req, hreq_GID req)
    | Some m =>
        if meta_HasOwnership m then (meta_Mode m, meta_UID m, meta_GID m)
        else (meta_Mode m, hreq_UID req, hreq_GID req)
    end in
  {| fe_Op := hreq_Op req; fe_Path := hreq_Path req; fe_Size := hres_Bytes res;
     fe_Mode := uint32 mode; fe_UID := uid; fe_GID := gid |}.

(** [send] is the non-blocking send on the event channel. *)
Definition attachVFSFileEvents (send : FileEvent → M W unit) (h : HookEngine W) : HookEngine W :=
  HookEngine_SetEventFunc h (Some (λ req res, send (file_event req res))).
End hooks.

(** ** Providers of a configuration *)

Section providers.
Context `{HostABI} {W : Type} `{!Has memstore W} `{!Has engine_state W} `{!Clock W} (os : OsFS W).

(** A Go pointer: a fresh address. *)
Definition new_pointer : M W N := lift alloc.

Definition createProvider (mount : MountConfig) : M W (result err (Iface W)) :=
  if has_owner mount && negb (bool_decide (mc_Type mount = MountTypeHostFS))
  then mret (Err (OtherError "invalid mount config"))
  else if decide (mc_Type mount = MountTypeHostFS) then
    let p := NewRealFSProvider (mc_HostPath mount) in
    let p := if has_owner mount
             then RealFSProvider_WithOwner p (default 0 (mc_OwnerUID mount)) (default 0 (mc_OwnerGID mount))
             else p in
    id ← new_pointer;
    if mc_Readonly mount then
      id' ← new_pointer;
      mret (Ok (readonly_iface (realfs_iface os p id) id'))
    else mret (Ok (realfs_iface os p id))
  else
    a ← lift NewMemoryProvider;
    mret (Ok (mem_iface a)).

Fixpoint buildVFSProviders (mounts : list (string * MountConfig)) : M W (result err (list (string * Iface W))) :=
  match mounts with
  | [] => mret (Ok [])
  | (path, mount) :: mounts' =>
      r ← createProvider mount;
      match r with
      | Err e => mret (Err e)
      | Ok p =>
          rest ← buildVFSProviders mounts';
          match rest with
          | Err e => mret (Err e)
          | Ok ps => mret (Ok ((path, p) :: ps))
          end
      end
  end.

(** The root provider: the router, behind the interceptor when there is an engine
    ([euid], [egid] are the process's). *)
Definition buildVFSRoot (send : FileEvent → M W unit) (euid egid : Z) (vfs : VFSConfig)
    : M W (result err (Iface W)) :=
  r ← buildVFSProviders (vfs_Mounts vfs);
  match r with
  | Err e => mret (Err e)
  | Ok ps =>
      id ← new_pointer;
      let root := router_iface (NewMountRouter ps) id in
      id' ← new_pointer;
      mret (Ok (NewInterceptProvider root (attachVFSFileEvents send <$> buildVFSHookEngine (Some vfs))
                  euid egid id'))
  end.
End providers.

(** ** Containment *)

Section containment.
Context `{HostABI} {W : Type} `{!Has memstore W} `{!Has engine_state W} `{!Clock W}.
Implicit Types (o : OsFS W).

(** Two hosts that cannot be told apart at or below any host directory the
    configuration shares. *)
Definition shared_dirs_agree (mounts : list (string * MountConfig)) o1 o2 : Prop :=
  Forall (λ gm, mc_Type gm.2 = MountTypeHostFS →
            IsAbs (mc_HostPath gm.2) = true ∧ os_agree (Clean (mc_HostPath gm.2)) o1 o2) mounts.

Definition provider_like (i1 i2 : Iface W) : Prop :=
  iface_id i1 = iface_id i2 ∧
  provider_agree (λ f, IsAbs f = true) (iface_ops i1) (iface_ops i2).

Lemma provider_agree_refl P (p : Provider W) : provider_agree P p p.
Proof. by split. Qed.

(** Results alike: the same error, or values related by [Rel]. *)
Definition result_rel {A} (Rel : A → A → Prop) (r1 r2 : result err A) : Prop :=
  match r1, r2 with
  | Ok a1, Ok a2 => Rel a1 a2
  | Err e1, Err e2 => e1 = e2
  | _, _ => False
  end.

(** Runs alike: both panic, or both return with related results and the same world. *)
Definition run_rel {A} (Rel : A → A → Prop) (m1 m2 : M W (result err A)) : Prop :=
  ∀ w, match m1 w, m2 w with
       | Some (r1, w1), Some (r2, w2) => result_rel Rel r1 r2 ∧ w1 = w2
       | None, None => True
       | _, _ => False
       end.

Lemma run_rel_bind {A B C} (Rel : A → A → Prop) (Rel' : B → B → Prop)
    (m : M W C) (f1 f2 : C → M W (result err B)) :
  (∀ c, run_rel Rel' (f1 c) (f2 c)) → run_rel Rel' (m ≫= f1) (m ≫= f2).
Proof. intros Hf w. unfold mbind, M_bind. destruct (m w) as [[c w']|]; [apply Hf|done]. Qed.

Lemma createProvider_like o1 o2 mount :
  (mc_Type mount = MountTypeHostFS →
     IsAbs (mc_HostPath mount) = true ∧ os_agree (Clean (mc_HostPath mount)) o1 o2) →
  run_rel provider_like (createProvider o1 mount) (createProvider o2 mount).
Proof.
  intros Hos. unfold createProvider. destruct (_ && negb _); [by intros w|].
  case_decide as Ht.
  - destruct (Hos Ht) as [Habs Hag]. eapply (run_rel_bind provider_like). intros id.
    set (p := if has_owner mount then _ else _).
    assert (Hroot : rfs_root p = mc_HostPath mount) by (unfold p; by destruct (has_owner mount)).
    assert (Hp : provider_agree (λ f, IsAbs f = true) (realfs_provider o1 p) (realfs_provider o2 p)).
    { apply realfs_agree; by rewrite Hroot. }
    destruct (mc_Readonly mount).
    + eapply (run_rel_bind provider_like). intros id' w. split; [|done]. split; [done|].
      by apply readonly_agree.
    + intros w. split; [|done]. by split.
  - eapply (run_rel_bind provider_like). intros a w. split; [|done]. split; [done|]. apply provider_agree_refl.
Qed.

Definition mounts_like (ps1 ps2 : list (string * Iface W)) : Prop :=
  Forall2 (λ a b, a.1 = b.1 ∧ provider_like a.2 b.2) ps1 ps2.

Lemma buildVFSProviders_like o1 o2 mounts :
  shared_dirs_agree mounts o1 o2 →
  run_rel mounts_like (buildVFSProviders o1 mounts) (buildVFSProviders o2 mounts).
Proof.
  induction 1 as [|[path mount] mounts Hm _ IH]; [intros w; split; [constructor|done]|].
  cbn [buildVFSProviders]. intros w. unfold mbind, M_bind.
  pose proof (createProvider_like o1 o2 mount Hm w) as Hc.
  destruct (createProvider o1 mount w) as [[r1 w1]|], (createProvider o2 mount w) as [[r2 w2]|]; try done.
  destruct Hc as [Hr ->]. destruct r1 as [p1|e1], r2 as [p2|e2]; try done.
  specialize (IH w2).
  destruct (buildVFSProviders o1 mounts w2) as [[[ps1|e1] w3]|],
    (buildVFSProviders o2 mounts w2) as [[[ps2|e2] w4]|]; try done; destruct IH as [IH ->]; try done.
  split; [|done]. constructor; [done|exact IH].
Qed.

Lemma NewMountRouter_like ps1 ps2 :
  mounts_like ps1 ps2 → Forall2 mount_agree (NewMountRouter ps1) (NewMountRouter ps2).
Proof.
  assert (Hins : ∀ m1 m2 l1 l2, mount_agree m1 m2 → Forall2 mount_agree l1 l2 →
            Forall2 (mount_agree (W := W)) (insert_sorted longer_first m1 l1) (insert_sorted longer_first m2 l2)).
  { intros m1 m2 l1 l2 Hm Hl. induction Hl as [|a b l1 l2 Hab Hl IH]; cbn; [by constructor|].
    assert (longer_first m1 a = longer_first m2 b) as ->.
    { unfold longer_first. destruct Hm as [-> _], Hab as [-> _]. done. }
    destruct (longer_first m2 b); constructor; auto. }
  unfold NewMountRouter, sort_by.
  induction 1 as [|[q1 i1] [q2 i2] ps1 ps2 [Hq [Hid Hp]] _ IH]; [constructor|].
  cbn. apply Hins; [|exact IH]. cbn in Hq. subst. by split.
Qed.

Lemma buildVFSRoot_like o1 o2 send euid egid vfs :
  shared_dirs_agree (vfs_Mounts vfs) o1 o2 →
  run_rel iface_agree (buildVFSRoot o1 send euid egid vfs) (buildVFSRoot o2 send euid egid vfs).
Proof.
  intros Hag w. unfold buildVFSRoot, mbind, M_bind.
  pose proof (buildVFSProviders_like o1 o2 _ Hag w) as Hb.
  destruct (buildVFSProviders o1 (vfs_Mounts vfs) w) as [[[ps1|e1] w1]|],
    (buildVFSProviders o2 (vfs_Mounts vfs) w) as [[[ps2|e2] w2]|]; try done; destruct Hb as [Hps ->]; try done.
  destruct (new_pointer w2) as [[id w3]|]; [|done]. destruct (new_pointer w3) as [[id' w4]|]; [|done].
  split; [|done]. apply NewMountRouter_like, router_agree in Hps.
  unfold NewInterceptProvider.
  destruct (buildVFSHookEngine (Some vfs)) as [h|]; cbn; [|by split].
  split; cbn; [by apply intercept_agree|intros; by apply intercept_agree|done].
Qed.
End containment.

(** C1: a guest is confined to the directories its configuration shares. Take any
    configuration whose host_fs mounts have absolute host paths, and two hosts that
    cannot be told apart at or below those directories (they may differ arbitrarily
    elsewhere). Then building the file system succeeds or fails alike, and the server
    gives the same responses, with the same effect on the world, to every sequence of
    requests a guest can send, whatever paths ([..] included), handles, offsets or
    flags they contain, through read-only wrappers, the router and the interceptor. *)
Theorem guest_confined `{HostABI} {W} `{!Has memstore W} `{!Has engine_state W} `{!Clock W}
    (o1 o2 : OsFS W) send euid egid vfs w i1 w1 :
  shared_dirs_agree (vfs_Mounts vfs) o1 o2 →
  buildVFSRoot o1 send euid egid vfs w = Some (Ok i1, w1) →
  ∃ i2, buildVFSRoot o2 send euid egid vfs w = Some (Ok i2, w1) ∧
    ∀ reqs v, dispatch_all i1 NewVFSServer reqs v = dispatch_all i2 NewVFSServer reqs v.
Proof.
  intros Hag H1. pose proof (buildVFSRoot_like o1 o2 send euid egid vfs Hag w) as Hl.
  rewrite H1 in Hl. destruct (buildVFSRoot o2 send euid egid vfs w) as [[[i2|e] w2]|]; try done.
  - destruct Hl as [Hi ->]. exists i2. split; [done|]. intros reqs v. by apply dispatch_all_agree.
  - by destruct Hl.
Qed.

(** A host that differs from the empty one outside [/srv] only. *)
Definition other_os (W : Type) : OsFS W := {|
  os_Stat := λ p, if decide (p = "/etc/shadow")
    then mret (Ok {| oi_Name := "shadow"; oi_Size := 42; oi_Mode := 0x180; oi_ModTime := 0;
                     oi_IsDir := false; oi_Sys := None |})
    else mret (Err (PathError ENOENT));
  os_ReadDir := os_ReadDir (empty_os W); os_OpenFile := os_OpenFile (empty_os W);
  os_Mkdir := os_Mkdir (empty_os W); os_Chmod := os_Chmod (empty_os W);
  os_Chtimes := os_Chtimes (empty_os W); os_Remove := os_Remove (empty_os W);
  os_RemoveAll := os_RemoveAll (empty_os W); os_Rename := os_Rename (empty_os W);
  os_Symlink := os_Symlink (empty_os W); os_Readlink := os_Readlink (empty_os W) |}.

#[export] Instance demo_clock : Clock demo_world := λ w, ms_now (fst w).

Definition demo_vfs (ty : string) (ro : bool) : VFSConfig := {|
  vfs_Workspace := "/workspace"; vfs_DirectMounts := [];
  vfs_Mounts := [("/workspace", {| mc_Type := ty; mc_HostPath := "/srv"; mc_Readonly := ro;
                                   mc_Upper := None; mc_Lower := None; mc_OwnerUID := None;
                                   mc_OwnerGID := None |})];
  vfs_Interception := None |}.

(** The file system of [demo_vfs] over a host, with no event listener. *)
Definition demo_build (os : OsFS demo_world) (ty : string) (ro : bool) :=
  @buildVFSRoot linux_abi demo_world _ _ _ os (λ _, mret tt) 0 0 (demo_vfs ty ro)
    (empty_store, newEngineState).

Definition built (r : option (result err (Iface demo_world) * demo_world)) : bool :=
  match r with Some (Ok _, _) => true | _ => false end.

Lemma guest_confined_witness :
  ∃ i1 w1, demo_build (empty_os _) MountTypeHostFS false = Some (Ok i1, w1) ∧
    ∃ i2, demo_build (other_os _) MountTypeHostFS false = Some (Ok i2, w1) ∧
      ∀ reqs v, @dispatch_all linux_abi _ i1 NewVFSServer reqs v = @dispatch_all linux_abi _ i2 NewVFSServer reqs v.
Proof.
  assert (Hb : built (demo_build (empty_os _) MountTypeHostFS false) = true) by (vm_compute; reflexivity).
  destruct (demo_build (empty_os _) MountTypeHostFS false) as [[[i1|e] w1]|] eqn:E; [|discriminate..].
  exists i1, w1. split; [reflexivity|].
  eapply (@guest_confined linux_abi demo_world _ _ _ (empty_os _) (other_os _) (λ _, mret tt) 0 0
    (demo_vfs MountTypeHostFS false) (empty_store, newEngineState)); [|exact E].
  repeat constructor; try reflexivity. intros p (l & k & Hn & Hl & ->) w. cbn.
  rewrite decide_False; [done|]. intros Heq.
  assert (l = ["srv"]) as ->.
  { apply abs_path_inj; [by apply Forall_app in Hn as [? _]|by repeat constructor|by rewrite <- Hl]. }
  cbn in Heq. destruct k; discriminate.
Defined.

(** ** Read-only sandboxes *)

Section readonly_sandbox.
Context `{HostABI} {W : Type} `{!Has memstore W} `{!Has engine_state W} `{!Clock W}.
Context (R : W → W → Prop) `{!PreOrder R}.

(** Reading a host file, and asking about it, respects [R]. *)
Record os_file_read_respects (f : OsFile W) : Prop := {
  ofr_Read n : respects R (of_Read f n);
  ofr_ReadAt n off : respects R (of_ReadAt f n off);
  ofr_Seek off wh : respects R (of_Seek f off wh);
  ofr_Close : respects R (of_Close f);
  ofr_Stat : respects R (of_Stat f);
  ofr_Sync : respects R (of_Sync f) }.

Record os_read_respects (os : OsFS W) : Prop := {
  orr_Stat p : respects R (os_Stat os p);
  orr_ReadDir p : respects R (os_ReadDir os p);
  orr_ReadDir_info p w es w' :
    os_ReadDir os p w = Some (Ok es, w') → Forall (λ e, respects R (od_Info e)) es;
  orr_OpenFile p fl m : has_flag fl write_flags = false → respects R (os_OpenFile os p fl m);
  orr_OpenFile_file p fl m w f w' :
    has_flag fl write_flags = false →
    os_OpenFile os p fl m w = Some (Ok f, w') → os_file_read_respects f;
  orr_Readlink p : respects R (os_Readlink os p) }.

Lemma realfs_entries_respects p es :
  Forall (λ e : OsDirEntry W, respects R (od_Info e)) es → respects R (realfs_entries p es).
Proof.
  induction 1 as [|e es He _ IH]; cbn; [by apply respects_ret|].
  apply respects_bind; [apply _|done|]. intros [info|]; [|done].
  apply respects_bind; [apply _|done|]. intros rest. by apply respects_ret.
Qed.

Lemma realHandle_respects f uid gid :
  os_file_read_respects f → handle_read_respects R (realHandle f uid gid).
Proof.
  intros [? ? ? ? Hst ?]. split; cbn; auto. unfold realHandle_Stat.
  apply respects_bind; [apply _|done|]. intros []; by apply respects_ret.
Qed.

Lemma no_flags : has_flag 0 write_flags = false.
Proof. reflexivity. Qed.

Lemma realfs_read_respects os p :
  os_read_respects os → provider_read_respects R (realfs_provider os p).
Proof.
  intros Ho. split; cbn.
  - intros f. unfold RealFSProvider_Stat. apply respects_bind; [apply _|apply Ho|].
    intros []; by apply respects_ret.
  - intros f. unfold RealFSProvider_ReadDir.
    eapply (respects_bind_post R (λ r, ∀ es, r = Ok es → Forall (λ e, respects R (od_Info e)) es));
      [apply Ho|intros w r w' Hr es ->; by eapply orr_ReadDir_info|].
    intros [es|e] Hes; [|by apply respects_ret].
    apply respects_bind; [apply _|apply realfs_entries_respects; by apply Hes|].
    intros. by apply respects_ret.
  - intros f fl m Hfl. unfold RealFSProvider_Open. apply respects_bind; [apply _|by apply Ho|].
    intros []; by apply respects_ret.
  - intros f fl m w h w' Hfl Hr. unfold RealFSProvider_Open in Hr.
    apply M_bind_Some in Hr as ([hf|e] & w1 & H1 & [[= ->] ->]%M_ret_Some).
    apply realHandle_respects. by eapply orr_OpenFile_file.
  - intros f. apply Ho.
  - intros f. unfold RealFSProvider_Fsync.
    eapply (respects_bind_post R (λ r, ∀ hf, r = Ok hf → os_file_read_respects hf));
      [apply Ho, no_flags|intros w r w' Hr hf ->; by eapply orr_OpenFile_file, Hr; [done|apply no_flags]|].
    intros [hf|e] Hof; [|by apply respects_ret]. destruct (Hof hf eq_refl) as [? ? ? ? ? ?].
    apply respects_bind; [apply _|done|]. intros e. apply respects_bind; [apply _|done|].
    intros _. by apply respects_ret.
Qed.

Lemma config_rules_declarative cfg : Forall (declarative (W := W)) (config_rules cfg).
Proof.
  unfold config_rules. induction (vi_Rules cfg) as [|c cs IH]; [constructor|].
  cbn. unfold config_rule at 1. destruct (parseVFSHookAction _); [constructor; [done|exact IH]|exact IH].
Qed.

Definition readonly_mounts (mounts : list (string * MountConfig)) : Prop :=
  Forall (λ gm, mc_Type gm.2 = MountTypeHostFS ∧ mc_Readonly gm.2 = true) mounts.

Lemma readonly_providers os mounts w ps w' :
  os_read_respects os → readonly_mounts mounts →
  buildVFSProviders os mounts w = Some (Ok ps, w') →
  Forall (λ pi, provider_respects R (iface_ops pi.2)) ps.
Proof.
  intros Ho Hm. revert w ps. induction Hm as [|[path mount] mounts [Ht Hro] _ IH]; intros w ps Hr.
  { apply M_ret_Some in Hr as [[= ->] _]. constructor. }
  cbn in Hr. apply M_bind_Some in Hr as ([p|e] & w1 & H1 & Hr); [|by apply M_ret_Some in Hr as [? _]].
  apply M_bind_Some in Hr as ([ps1|e] & w2 & H2 & [[= ->] ->]%M_ret_Some).
  constructor; [|by eapply IH]. cbn in Ht, Hro |- *. unfold createProvider in H1.
  rewrite Hro, Ht in H1. rewrite (bool_decide_eq_true_2 (MountTypeHostFS = MountTypeHostFS)) in H1 by done.
  rewrite andb_false_r, decide_True in H1 by done.
  apply M_bind_Some in H1 as (id & w3 & _ & H1).
  apply M_bind_Some in H1 as (id' & w4 & _ & [[= ->] _]%M_ret_Some).
  cbn. apply readonly_respects; [done|]. by apply realfs_read_respects.
Qed.

Lemma readonly_root os send euid egid vfs w i w' :
  os_read_respects os → (∀ e, respects R (send e)) → readonly_mounts (vfs_Mounts vfs) →
  buildVFSRoot os send euid egid vfs w = Some (Ok i, w') → iface_respects R i.
Proof.
  intros Ho Hs Hm Hr. unfold buildVFSRoot in Hr.
  apply M_bind_Some in Hr as ([ps|e] & w1 & H1 & Hr); [|by apply M_ret_Some in Hr as [? _]].
  apply M_bind_Some in Hr as (id & w2 & _ & Hr).
  apply M_bind_Some in Hr as (id' & w3 & _ & [[= ->] _]%M_ret_Some).
  apply readonly_providers in H1; [|done..].
  assert (Hrt : provider_respects R (router_provider (NewMountRouter ps))).
  { apply router_respects; [apply _|]. apply Forall_forall. intros m (mp & _ & Hin)%NewMountRouter_elem.
    rewrite Forall_forall in H1. by apply (H1 _ Hin). }
  unfold NewInterceptProvider. destruct (buildVFSHookEngine (Some vfs)) as [h|] eqn:Hh; cbn;
    [|split; cbn; done].
  assert (Hen : engine_respects R (attachVFSFileEvents send h)).
  { unfold buildVFSHookEngine in Hh. destruct (Some vfs ≫= vfs_Interception) as [cfg|]; [|done].
    repeat (case_match; [done|]). simplify_eq.
    apply (rules_engine_respects (config_rules cfg)); [apply config_rules_declarative|apply _|done|].
    intros req res. apply Hs. }
  split; cbn; [by apply intercept_respects|intros ? ? ? [= <-]; by apply intercept_respects|done].
Qed.
End readonly_sandbox.

(** C2: a sandbox whose mounts are all read-only cannot change the host. Let [R] be any
    preorder on worlds (such as "no host file differs") that the host's read-only calls
    and the event listener respect. If every configured mount is host_fs and readonly,
    then after any sequence of requests a guest can send, the world is still related by
    [R] to what it was. *)
Theorem readonly_sandbox_untouched `{HostABI} {W} `{!Has memstore W} `{!Has engine_state W} `{!Clock W}
    (R : W → W → Prop) `{!PreOrder R} os send euid egid vfs w0 i w1 reqs w rs sv w' :
  os_read_respects R os → (∀ e, respects R (send e)) → readonly_mounts (vfs_Mounts vfs) →
  buildVFSRoot os send euid egid vfs w0 = Some (Ok i, w1) →
  dispatch_all i NewVFSServer reqs w = Some ((rs, sv), w') → R w w'.
Proof.
  intros Ho Hs Hm Hb Hr.
  destruct (dispatch_all_respects R i reqs NewVFSServer w rs sv w') as [HR _];
    [by eapply readonly_root| |done|done].
  intros fh h. cbn. by rewrite lookup_empty.
Qed.

Definition demo_req (op : OpCode) (path : string) (fh off : Z) (data : bytes) : VFSRequest := {|
  rq_Op := op; rq_Path := path; rq_NewPath := ""; rq_Handle := fh; rq_Offset := off; rq_Size := 16;
  rq_Data := data; rq_Flags := 0; rq_Mode := 0x1A4; rq_UID := 0; rq_GID := 0; rq_AtimeNS := None;
  rq_MtimeNS := None |}.

Lemma empty_os_reads `{HostABI} {W} : os_read_respects (eq (A := W)) (empty_os W).
Proof. split; cbn; intros; try (by apply respects_ret; apply _); by repeat match goal with H : _ = _ |- _ => apply M_ret_Some in H as [? _] end. Qed.

(** Creating a file in a read-only sandbox over an empty host: nothing changes. *)
Lemma readonly_sandbox_untouched_witness :
  ∃ i w1, demo_build (empty_os _) MountTypeHostFS true = Some (Ok i, w1) ∧
    ∀ rs sv w', @dispatch_all linux_abi _ i NewVFSServer
      [demo_req OpCreate "/workspace/f" 0 0 []; demo_req OpUnlink "/workspace/../f" 0 0 []] w1
      = Some ((rs, sv), w') → w1 = w'.
Proof.
  assert (Hb : built (demo_build (empty_os _) MountTypeHostFS true) = true) by (vm_compute; reflexivity).
  destruct (demo_build (empty_os _) MountTypeHostFS true) as [[[i|e] w1]|] eqn:E; [|discriminate..].
  exists i, w1. split; [reflexivity|]. intros rs sv w' Hr.
  eapply (@readonly_sandbox_untouched linux_abi demo_world _ _ _ eq _ (empty_os _) (λ _, mret tt) 0 0
    (demo_vfs MountTypeHostFS true) (empty_store, newEngineState) i w1); [| | |exact E|exact Hr].
  - apply empty_os_reads.
  - intros e. apply respects_ret. apply _.
  - by repeat constructor.
Defined.

(** ** The server's other theorems at work on a memory mount *)

Definition demo_mem_iface : Iface demo_world := @mem_iface linux_abi _ _ 0.
Definition demo_mem_world : demo_world := (fresh_store, newEngineState).

Definition demo_create := demo_req OpCreate "/f" 0 0 [].

(** The handles in the responses of a run that returns. *)
Definition run_handles {W} (r : option (list VFSResponse * VFSServer W * W)) : list Z :=
  match r with Some (rs, _, _) => rs_Handle <$> rs | None => [] end.

(** Create, release, create again: the handles are 1 and 2, and 1 is EBADF at the end. *)
Lemma server_handles_fresh_witness :
  ∃ rs1 r rs2 sv w', @dispatch_all linux_abi _ demo_mem_iface NewVFSServer
      ([demo_create] ++ demo_req OpRelease "" 1 0 [] :: [demo_create]) demo_mem_world
      = Some ((rs1 ++ r :: rs2, sv), w') ∧ rs_Handle <$> (rs1 ++ r :: rs2) = [1; 0; 2] ∧
    ∀ v, @VFSServer_dispatch linux_abi _ demo_mem_iface sv (demo_req OpRead "" 1 0 []) v
      = Some ((resp_err (- 9), sv), v).
Proof.
  assert (Hh : run_handles (@dispatch_all linux_abi _ demo_mem_iface NewVFSServer
    ([demo_create] ++ demo_req OpRelease "" 1 0 [] :: [demo_create]) demo_mem_world) = [1; 0; 2])
    by (vm_compute; reflexivity).
  destruct (dispatch_all _ _ _ _) as [[[rs sv] w']|] eqn:E; [|discriminate].
  destruct rs as [|r1 [|r [|r2 [|r3 rs]]]]; try discriminate.
  exists [r1], r, [r2], sv, w'. split; [reflexivity|].
  split; [exact Hh|]. intros v. cbn in Hh. injection Hh as Hr1 _ _.
  destruct (@server_handles_fresh linux_abi _ demo_mem_iface [demo_create] (demo_req OpRelease "" 1 0 [])
    [demo_create] demo_mem_world w' [r1] r [r2] sv) as [_ Hbad]; try done.
  - cbn. rewrite Hr1. constructor.
  - apply Hbad; [done|by left].
Defined.

(** The guest can bring the host process down through a memory mount: a write (or a
    truncation) at a negative offset makes the dispatcher panic, and nothing on the
    connection's goroutine recovers. *)
Theorem memory_negative_offset_panics :
  (∃ r sv w, @dispatch_all linux_abi _ demo_mem_iface NewVFSServer [demo_create] demo_mem_world
     = Some ((r, sv), w) ∧
     @VFSServer_dispatch linux_abi _ demo_mem_iface sv (demo_req OpWrite "" 1 (-1) ["x"]%char) w = None ∧
     @VFSServer_dispatch linux_abi _ demo_mem_iface sv (demo_req OpTruncate "" 1 (-1) []) w = None).
Proof.
  do 3 eexists. split; [reflexivity|]. split; vm_compute; reflexivity.
Qed.

(** An operation name the parser does not know is dropped from a rule, and a rule left
    with no operation matches every one: blocking [chtimes], which the engine has an
    operation for, blocks reading too. *)
Theorem unknown_op_widens_rule :
  let cfg := {| vr_Name := ""; vr_Phase := ""; vr_Ops := [HookOpChtimes]; vr_Path := ""; vr_Action := "block";
                vr_TimeoutMS := 0 |} in
  ∃ rule : HookRule engine_state, config_rule cfg = Some rule ∧ rule_Ops rule = [] ∧
    path_blocked [rule] HookOpRead "/workspace/f" = true.
Proof. eexists. split; [reflexivity|]. split; vm_compute; reflexivity. Qed.

(** A codec for one request: the byte [o] is a create, every response is the byte [k]. *)
Lemma connection_in_order_witness :
  ∃ sv w', @VFSServer_HandleConnection linux_abi _
      (λ m, if decide (m = ["o"]%char) then Some demo_create else None) (λ _, Some ["k"]%char)
      demo_mem_iface NewVFSServer (concat (frame <$> [["o"]; ["o"]]%char)) demo_mem_world
    = Some ((concat (frame <$> [["k"]; ["k"]]%char), sv), w').
Proof.
  assert (Hh : run_handles (@dispatch_all linux_abi _ demo_mem_iface NewVFSServer
    [demo_create; demo_create] demo_mem_world) = [1; 2]) by (vm_compute; reflexivity).
  destruct (dispatch_all _ _ _ _) as [[[rs sv] w']|] eqn:E; [|discriminate].
  destruct rs as [|r1 [|r2 [|r3 rs]]]; try discriminate. exists sv, w'.
  eapply (@connection_in_order linux_abi); [|exact E|]; repeat constructor.
Defined.
