(* ===== verification/PolicyGlob.v ===== *)
(** * Host patterns: [matchGlob] of pkg/policy/engine.go

    Allow lists, secret scopes, path gates and network rules all select hosts with
    [matchGlob], a routine with three fast paths and a greedy general case. The
    reference definition is the relation [glob], in which a star stands for any
    string; [matchGlob] decides it for every pattern. *)

From S2P Require Import Prelude GoStrings.

Definition star : Ascii.ascii := "*"%char.

(** The loop over the middle parts: each is searched leftmost in what is left. *)
Fixpoint middle_parts (parts : list string) (str : string) : bool :=
  match parts with
  | [] => true
  | p :: parts' =>
      if decide (p = "") then middle_parts parts' str
      else match Index str p with
           | None => false
           | Some idx => middle_parts parts' (string_drop (idx + slen p) str)
           end
  end.

Definition matchWildcard (pattern str : string) : bool :=
  match Split pattern star with
  | [] | [_] => bool_decide (pattern = str)
  | p0 :: rest =>
      if negb (bool_decide (p0 = "")) && negb (HasPrefix str p0) then false
      else
        let str := string_drop (slen p0) str in
        let lastPart := default "" (last rest) in
        if negb (bool_decide (lastPart = "")) && negb (HasSuffix str lastPart) then false
        else
          let str := if decide (lastPart = "") then str
                     else string_take (slen str - slen lastPart) str in
          middle_parts (removelast rest) str
  end.

Definition matchGlob (pattern str : string) : bool :=
  if decide (pattern = "*") then true
  else if HasPrefix pattern "*." && negb (contains_byte star (string_drop 2 pattern)) then
    HasSuffix str (string_drop 1 pattern)
  else if HasSuffix pattern ".*"
            && negb (contains_byte star (string_take (slen pattern - 2) pattern)) then
    HasPrefix str (string_take (slen pattern - 2) pattern +:+ ".")
  else if contains_byte star pattern then matchWildcard pattern str
  else bool_decide (pattern = str).

(** ** The reference: a star matches any string, any other byte itself *)

Inductive glob : string → string → Prop :=
| glob_nil : glob "" ""
| glob_byte c p s : c ≠ star → glob p s → glob (String c p) (String c s)
| glob_star p s t : glob p t → glob (String star p) (s +:+ t).

(** A pattern as its star-free parts: consecutive parts with gaps between. *)
Fixpoint star_parts (parts : list string) (s : string) : Prop :=
  match parts with
  | [] => False
  | [p] => s = p
  | p :: parts' => ∃ m t, s = p +:+ (m +:+ t) ∧ star_parts parts' t
  end.

(** The parts occur one after the other somewhere in the string. *)
Fixpoint in_order (parts : list string) (s : string) : Prop :=
  match parts with
  | [] => True
  | p :: parts' => ∃ m t, s = m +:+ (p +:+ t) ∧ in_order parts' t
  end.

Lemma star_parts_cons p q ps s :
  star_parts (p :: q :: ps) s ↔ ∃ m t, s = p +:+ (m +:+ t) ∧ star_parts (q :: ps) t.
Proof. done. Qed.

Lemma star_parts_byte c p ps s :
  star_parts (String c p :: ps) s ↔ ∃ s', s = String c s' ∧ star_parts (p :: ps) s'.
Proof.
  destruct ps as [|q ps]; [cbn; naive_solver|]. rewrite star_parts_cons. split.
  - intros (m & t & -> & Ht). exists (p +:+ (m +:+ t)). split; [done|]. rewrite star_parts_cons. eauto.
  - intros (s' & -> & (m & t & -> & Ht)%star_parts_cons). by exists m, t.
Qed.

Lemma glob_parts pattern s : glob pattern s ↔ star_parts (Split pattern star) s.
Proof.
  revert s. induction pattern as [|c p IH]; intros s; cbn [Split].
  - split; [by inversion 1|]. cbn. intros ->. constructor.
  - pose proof (Split_nonempty p star) as Hne. destruct (decide (c = star)) as [->|Hc].
    + destruct (Split p star) as [|q ps] eqn:E; [done|]. rewrite star_parts_cons. split.
      * inversion 1 as [| |? m t Ht]; simplify_eq. exists m, t. split; [done|]. by apply IH.
      * intros (m & t & -> & Ht%IH). by apply (glob_star p m t).
    + destruct (Split p star) as [|q ps] eqn:E; [done|]. rewrite star_parts_byte. split.
      * inversion 1; simplify_eq. eexists. split; [done|]. by apply IH.
      * intros (s' & -> & Hs'%IH). by constructor.
Qed.

Lemma in_order_weaken ps x s : in_order ps s → in_order ps (x +:+ s).
Proof.
  destruct ps as [|p ps]; [done|]. intros (m & t & -> & Ht). exists (x +:+ m), t.
  by rewrite sapp_assoc.
Qed.

Lemma star_parts_split p ms l s :
  star_parts (p :: ms ++ [l]) s ↔ ∃ b, s = p +:+ (b +:+ l) ∧ in_order ms b.
Proof.
  revert p s. induction ms as [|q ms IH]; intros p s.
  - cbn [app]. rewrite star_parts_cons. split.
    + intros (m & t & -> & ->). by exists m.
    + intros (b & -> & _). by exists b, l.
  - cbn [app]. rewrite star_parts_cons. split.
    + intros (m & t & -> & (b & -> & Hb)%IH). exists (m +:+ (q +:+ b)). split.
      * by rewrite !sapp_assoc.
      * by exists m, b.
    + intros (b & -> & m & t & -> & Ht). exists m, (q +:+ (t +:+ l)). split.
      * by rewrite !sapp_assoc.
      * apply IH. by exists t.
Qed.

(** Searching each part leftmost loses no match. *)
Lemma middle_parts_in_order ps s : middle_parts ps s = true ↔ in_order ps s.
Proof.
  revert s. induction ps as [|p ps IH]; intros s; cbn [middle_parts]; [done|].
  destruct (decide (p = "")) as [->|Hp].
  { rewrite IH. split; [intros H; by exists "", s|]. intros (m & t & -> & Ht). cbn.
    by apply in_order_weaken. }
  destruct (Index s p) as [i|] eqn:Ei.
  - apply Index_Some in Ei as (a & b & -> & <- & Hmin).
    rewrite <- slen_app, <- sapp_assoc, string_drop_app, IH. split.
    + intros H. exists a, b. by rewrite sapp_assoc.
    + intros (m & t & Hmt & Ht). destruct (sapp_split_le (a +:+ p) b (m +:+ p) t) as (e & _ & ->).
      * by rewrite Hmt, sapp_assoc.
      * rewrite !slen_app. specialize (Hmin m t). rewrite <- sapp_assoc in Hmin. specialize (Hmin Hmt). lia.
      * by apply in_order_weaken.
  - split; [done|]. intros (m & t & Hs & _). rewrite Index_None in Ei. by destruct (Ei m t).
Qed.

Lemma matchWildcard_glob pattern s : matchWildcard pattern s = true ↔ glob pattern s.
Proof.
  rewrite glob_parts. unfold matchWildcard.
  pose proof (Join_Split pattern star) as Hj.
  destruct (Split pattern star) as [|p0 rest] eqn:E; [by destruct (Split_nonempty pattern star)|].
  destruct rest as [|q qs].
  { cbn in Hj. subst. cbn. rewrite bool_decide_eq_true. naive_solver. }
  destruct (exists_last (l := q :: qs)) as (ms & l & Hl); [done|]. rewrite Hl.
  rewrite last_snoc, removelast_last, star_parts_split. cbn [default from_option id].
  clear Hj E Hl.
  destruct (HasPrefix s p0) eqn:Hp.
  - apply HasPrefix_spec in Hp as (r & ->). rewrite andb_false_r, string_drop_app.
    destruct (HasSuffix r l) eqn:Hs.
    + apply HasSuffix_spec in Hs as (b & ->). rewrite andb_false_r, slen_app.
      assert (Hb : (if decide (l = "") then b +:+ l else string_take (slen b + slen l - slen l) (b +:+ l)) = b).
      { case_decide as Hd; [by rewrite Hd, sapp_nil_r|].
        by replace (slen b + slen l - slen l)%nat with (slen b) by lia; rewrite string_take_app. }
      rewrite Hb, middle_parts_in_order. split; [naive_solver|].
      intros (b' & Heq%sapp_inj_l & Hb'). apply sapp_inj_len_r in Heq as [-> _]; done.
    + assert (l ≠ "") by (intros ->; by rewrite HasSuffix_nil in Hs).
      rewrite bool_decide_eq_false_2 by done. cbn. split; [done|].
      intros (b & Heq%sapp_inj_l & _). exfalso. apply not_true_iff_false in Hs. apply Hs, HasSuffix_spec. eauto.
  - assert (p0 ≠ "") by (intros ->; by destruct s).
    rewrite bool_decide_eq_false_2 by done. cbn. split; [done|].
    intros (b & -> & _). by rewrite HasPrefix_app in Hp.
Qed.

Lemma contains_star_glob pattern s :
  contains_byte star pattern = false → glob pattern s ↔ pattern = s.
Proof. intros Hc. rewrite glob_parts, Split_single by done. cbn. naive_solver. Qed.

(** [matchGlob] decides [glob]: the fast paths and the greedy search are only
    optimisations. *)
Lemma matchGlob_glob pattern s : matchGlob pattern s = true ↔ glob pattern s.
Proof.
  unfold matchGlob. destruct (decide (pattern = "*")) as [->|Hne].
  { split; [|done]. intros _. rewrite <- (sapp_nil_r s). apply (glob_star "" s ""), glob_nil. }
  destruct (HasPrefix pattern "*." && _) eqn:H1.
  { apply andb_true_iff in H1 as [(r & ->)%HasPrefix_spec Hc%negb_true_iff].
    change (string_drop 2 ("*." +:+ r)) with r in Hc. change (string_drop 1 ("*." +:+ r)) with ("." +:+ r).
    rewrite HasSuffix_spec. rewrite glob_parts.
    change ("*." +:+ r) with (String star ("." +:+ r)). cbn [Split]. rewrite decide_True by done.
    rewrite (Split_single ("." +:+ r)) by done.
    rewrite star_parts_cons. cbn [star_parts]. split.
    - intros (t & ->). by exists t, ("." +:+ r).
    - intros (m & t & -> & ->). by exists m. }
  destruct (HasSuffix pattern ".*" && _) eqn:H2.
  { apply andb_true_iff in H2 as [(r & ->)%HasSuffix_spec Hc%negb_true_iff].
    rewrite slen_app in *. change (slen ".*") with 2%nat in *.
    replace (slen r + 2 - 2)%nat with (slen r) in * by lia. rewrite string_take_app in *.
    rewrite HasPrefix_spec, glob_parts. replace (r +:+ ".*") with ((r +:+ ".") +:+ String star "") by
      by rewrite sapp_assoc.
    rewrite Split_app_sep by (rewrite contains_byte_app, Hc; done).
    change (Split "" star) with [""]. rewrite star_parts_cons. cbn [star_parts]. split.
    - intros (t & ->). exists t, "". by rewrite sapp_nil_r.
    - intros (m & t & -> & ->). eauto. }
  clear H1 H2. destruct (contains_byte star pattern) eqn:Hc.
  - apply matchWildcard_glob.
  - by rewrite contains_star_glob, bool_decide_eq_true.
Qed.


Lemma glob_refl s : glob s s.
Proof.
  induction s as [|c s IH]; [constructor|]. destruct (decide (c = star)) as [->|Hc].
  - apply (glob_star s (String star "") s IH).
  - by constructor.
Qed.
