(* ===== verification/PolicyRules.v ===== *)
(** * Network interception rules: pkg/policy/network_hooks.go, network_callback.go

    Rules are compiled from the configuration, matched against requests, and applied
    to requests (before) and responses (after). HTTP requests and responses are
    records; the code mutates them in place through a pointer, so an operation returns
    the object after the call also when it fails. A Go map that is only looked up is a
    [gmap]; the maps of a configuration, whose iteration order can matter, are
    association lists in the order a [range] visits them. *)

From S2P Require Import Prelude GoStrings GoStd GoPath GoURL Api PolicyGlob.

(** ** HTTP *)

Definition is_token (c : Ascii.ascii) : bool :=
  is_alnum c || contains_byte c "!#$%&'*+-.^_`|~".

Fixpoint all_tokens (s : string) : bool :=
  match s with EmptyString => true | String c s' => is_token c && all_tokens s' end.

Fixpoint canonical_from (upper : bool) (s : string) : string :=
  match s with
  | EmptyString => ""
  | String c s' => String (if upper then upper_byte c else lower_byte c)
                     (canonical_from (bool_decide (c = "-"%char)) s')
  end.

(** [http.CanonicalHeaderKey]: a key that is not a token is left alone. *)
Definition CanonicalHeaderKey (s : string) : string :=
  if all_tokens s then canonical_from true s else s.

Abbreviation Header := (gmap string (list string)) (only parsing).

Definition Header_Get (h : Header) (key : string) : string :=
  default "" (head (default [] (h !! CanonicalHeaderKey key))).
Definition Header_Set (h : Header) (key value : string) : Header :=
  <[CanonicalHeaderKey key := [value]]> h.
Definition Header_Del (h : Header) (key : string) : Header := delete (CanonicalHeaderKey key) h.

Record http_Request := {
  req_Method : string; req_URL : option URL; req_Header : Header; req_Host : string;
  req_Body : string; req_ContentLength : Z; req_Close : bool }.

Definition with_Header (h : Header) (r : http_Request) : http_Request := {|
  req_Method := req_Method r; req_URL := req_URL r; req_Header := h; req_Host := req_Host r;
  req_Body := req_Body r; req_ContentLength := req_ContentLength r; req_Close := req_Close r |}.
Definition with_URL (u : option URL) (r : http_Request) : http_Request := {|
  req_Method := req_Method r; req_URL := u; req_Header := req_Header r; req_Host := req_Host r;
  req_Body := req_Body r; req_ContentLength := req_ContentLength r; req_Close := req_Close r |}.

Inductive policy_error :=
| ErrBlocked
| ErrSecretLeak
| ErrIO (msg : string).

#[export] Instance policy_error_eq_dec : EqDecision policy_error.
Proof. solve_decision. Defined.

(** ** Body replacements and the SSE transformer *)

Fixpoint applyBodyReplacements (body : string) (replacements : list NetworkBodyTransform) : string :=
  match replacements with
  | [] => body
  | item :: rest =>
      if decide (bt_Find item = "") then applyBodyReplacements body rest
      else applyBodyReplacements (ReplaceAll body (bt_Find item) (bt_Replace item)) rest
  end.

Definition newline : string := String (chr 10) "".
Definition crlf : string := String (chr 13) (String (chr 10) "").

Definition transformSSEDataLine (line : string) (replacements : list NetworkBodyTransform) : string :=
  if negb (HasPrefix line "data:") then line
  else
    let payload := string_drop 5 line in
    let '(payload, suffix) :=
      if HasSuffix payload crlf then (string_take (slen payload - 2) payload, crlf)
      else if HasSuffix payload newline then (string_take (slen payload - 1) payload, newline)
      else (payload, "") in
    "data:" +:+ (applyBodyReplacements payload replacements +:+ suffix).

(** What an [io.Reader] still has to give: bytes, then [io.EOF] ([None]) or an error. *)
Record reader := { rd_data : string; rd_end : option policy_error }.

(** [bufio.Reader.ReadBytes] of a newline: the line with its newline; without one, what is left
    and the reader's end. The error of the last case is [Some e] with [e = None] for EOF. *)
Definition ReadBytes (r : reader) : string * option (option policy_error) * reader :=
  match Cut (rd_data r) (chr 10) with
  | Some (line, rest) => (line +:+ newline, None, {| rd_data := rest; rd_end := rd_end r |})
  | None => (rd_data r, Some (rd_end r), {| rd_data := ""; rd_end := rd_end r |})
  end.

Record sseTransformReadCloser := {
  sse_reader : reader; sse_replacements : list NetworkBodyTransform;
  sse_pending : string; sse_eof : bool }.

Definition newSSETransformReadCloser (body : reader) (replacements : list NetworkBodyTransform)
    : sseTransformReadCloser :=
  {| sse_reader := body; sse_replacements := replacements; sse_pending := ""; sse_eof := false |}.

(** The loop that fills [pending]: [Some e] is an early return with the error [e] ([None] is EOF).
    A line is never transformed into nothing, so one round is enough; the fuel is the
    number of bytes left, plus one. *)
Fixpoint sse_fill (fuel : nat) (r : sseTransformReadCloser)
    : option (option policy_error) * sseTransformReadCloser :=
  if negb (bool_decide (sse_pending r = "")) then (None, r)
  else match fuel with
       | O => (None, r)
       | S fuel' =>
           if sse_eof r then (Some None, r)
           else
             let '(line, err, rd) := ReadBytes (sse_reader r) in
             let step (eof : bool) := {| sse_reader := rd; sse_replacements := sse_replacements r;
                sse_pending := transformSSEDataLine line (sse_replacements r); sse_eof := eof |} in
             let stop (eof : bool) := {| sse_reader := rd; sse_replacements := sse_replacements r;
                sse_pending := sse_pending r; sse_eof := eof |} in
             match err with
             | None => sse_fill fuel' (step false)
             | Some None => if decide (line = "") then (Some None, stop true) else sse_fill fuel' (step true)
             | Some (Some e) => (Some (Some e), stop false)
             end
       end.

(** [Read] into a buffer of [n] bytes: the bytes read, the error, the reader after. *)
Definition sse_Read (r : sseTransformReadCloser) (n : nat)
    : string * option (option policy_error) * sseTransformReadCloser :=
  if (n =? 0)%nat then ("", None, r)
  else
    let '(err, r) := sse_fill (S (slen (rd_data (sse_reader r)))) r in
    match err with
    | Some e => ("", Some e, r)
    | None =>
        (string_take n (sse_pending r), None,
         {| sse_reader := sse_reader r; sse_replacements := sse_replacements r;
            sse_pending := string_drop n (sse_pending r); sse_eof := sse_eof r |})
    end.

Inductive http_Body :=
| Plain (r : reader)
| SSE (r : sseTransformReadCloser).

(** [resp_Unread] is not a field of the Go type: it says that the body the upstream sent
    has been dropped from the response, neither read to its end nor closed, so that the
    connection it comes from still holds it. *)
Record http_Response := {
  resp_StatusCode : Z; resp_ProtoMajor : Z; resp_ProtoMinor : Z; resp_Header : Header;
  resp_Body : option http_Body; resp_ContentLength : Z; resp_TransferEncoding : list string;
  resp_Close : bool; resp_Unread : bool }.

(** Dropping the body: the response no longer refers to it. *)
Definition drop_body (r : http_Response) : http_Response := {|
  resp_StatusCode := resp_StatusCode r; resp_ProtoMajor := resp_ProtoMajor r; resp_ProtoMinor := resp_ProtoMinor r;
  resp_Header := resp_Header r; resp_Body := None; resp_ContentLength := resp_ContentLength r;
  resp_TransferEncoding := resp_TransferEncoding r; resp_Close := resp_Close r;
  resp_Unread := resp_Unread r || match resp_Body r with Some _ => true | None => false end |}.

Definition with_resp_Header (h : Header) (r : http_Response) : http_Response := {|
  resp_StatusCode := resp_StatusCode r; resp_ProtoMajor := resp_ProtoMajor r; resp_ProtoMinor := resp_ProtoMinor r;
  resp_Header := h; resp_Body := resp_Body r; resp_ContentLength := resp_ContentLength r;
  resp_TransferEncoding := resp_TransferEncoding r; resp_Close := resp_Close r; resp_Unread := resp_Unread r |}.

(** The assignments that install a body of known bytes. *)
Definition set_body (body : string) (r : http_Response) : http_Response := {|
  resp_StatusCode := resp_StatusCode r; resp_ProtoMajor := resp_ProtoMajor r; resp_ProtoMinor := resp_ProtoMinor r;
  resp_Header := Header_Del (Header_Set (resp_Header r) "Content-Length" (Itoa (Z.of_nat (slen body))))
                   "Transfer-Encoding";
  resp_Body := Some (Plain {| rd_data := body; rd_end := None |});
  resp_ContentLength := Z.of_nat (slen body); resp_TransferEncoding := []; resp_Close := resp_Close r;
  resp_Unread := resp_Unread r |}.

Definition set_stream (s : sseTransformReadCloser) (r : http_Response) : http_Response := {|
  resp_StatusCode := resp_StatusCode r; resp_ProtoMajor := resp_ProtoMajor r; resp_ProtoMinor := resp_ProtoMinor r;
  resp_Header := Header_Del (Header_Del (resp_Header r) "Content-Length") "Transfer-Encoding";
  resp_Body := Some (SSE s);
  resp_ContentLength := - 1; resp_TransferEncoding := []; resp_Close := resp_Close r;
  resp_Unread := resp_Unread r |}.

(** The whole output of a transformer: its lines, each transformed. An error that
    strikes in the middle of a line loses that line. *)
Fixpoint transform_lines (fuel : nat) (data : string) (fin : option policy_error)
    (replacements : list NetworkBodyTransform) : string :=
  match fuel with
  | O => ""
  | S fuel' =>
      match Cut data (chr 10) with
      | Some (line, rest) =>
          transformSSEDataLine (line +:+ newline) replacements
          +:+ transform_lines fuel' rest fin replacements
      | None => match fin with
                | None => if decide (data = "") then "" else transformSSEDataLine data replacements
                | Some _ => ""
                end
      end
  end.

Definition sse_output (r : sseTransformReadCloser) : string :=
  sse_pending r
  +:+ if sse_eof r then "" else
        transform_lines (S (slen (rd_data (sse_reader r)))) (rd_data (sse_reader r))
          (rd_end (sse_reader r)) (sse_replacements r).

(** [io.ReadAll] *)
Definition ReadAll (b : http_Body) : string * option policy_error :=
  match b with
  | Plain r => (rd_data r, rd_end r)
  | SSE r => (sse_output r, if sse_eof r then None else rd_end (sse_reader r))
  end.

(** A body as the reader under a new transformer. *)
Definition as_reader (b : http_Body) : reader :=
  let '(data, err) := ReadAll b in {| rd_data := data; rd_end := err |}.

(** ** Compiled rules *)

Definition networkHookPhaseBefore : string := "before".
Definition networkHookPhaseAfter : string := "after".
Definition networkHookActionAllow : string := "allow".
Definition networkHookActionBlock : string := "block".
Definition networkHookActionMutate : string := "mutate".

Record compiledNetworkRule := {
  cr_phase : string; cr_action : string; cr_callbackID : string; cr_callbackTimeout : Z;
  cr_hosts : list string; cr_methods : gset string; cr_path : string;
  cr_setHeaders : gmap string string; cr_deleteHeaders : list string;
  cr_setQuery : gmap string string; cr_deleteQuery : list string; cr_rewritePath : string;
  cr_setResponseHeaders : gmap string string; cr_deleteResponseHeaders : list string;
  cr_bodyReplacements : list NetworkBodyTransform }.

Definition normalizeNetworkHookPhase (phase : string) : string :=
  if decide (ToLower (TrimSpace phase) = networkHookPhaseAfter) then networkHookPhaseAfter
  else networkHookPhaseBefore.

Definition normalizeNetworkHookAction (action : string) : string :=
  if decide (ToLower (TrimSpace action) = networkHookActionBlock) then networkHookActionBlock
  else if decide (ToLower (TrimSpace action) = networkHookActionMutate) then networkHookActionMutate
  else networkHookActionAllow.

Definition nonempty {A} (l : list A) : bool := match l with [] => false | _ => true end.

Definition hasNetworkMutations (rule : NetworkHookRule) (phase : string) : bool :=
  if decide (phase = networkHookPhaseBefore) then
    nonempty (nr_SetHeaders rule) || nonempty (nr_DeleteHeaders rule) || nonempty (nr_SetQuery rule)
    || nonempty (nr_DeleteQuery rule) || negb (bool_decide (TrimSpace (nr_RewritePath rule) = ""))
  else
    nonempty (nr_SetResponseHeaders rule) || nonempty (nr_DeleteResponseHeaders rule)
    || nonempty (nr_BodyReplacements rule).

Definition compiledRuleHasMutations (rule : compiledNetworkRule) (phase : string) : bool :=
  if decide (phase = networkHookPhaseBefore) then
    negb (bool_decide (cr_setHeaders rule = ∅)) || nonempty (cr_deleteHeaders rule)
    || negb (bool_decide (cr_setQuery rule = ∅)) || nonempty (cr_deleteQuery rule)
    || negb (bool_decide (cr_rewritePath rule = ""))
  else
    negb (bool_decide (cr_setResponseHeaders rule = ∅)) || nonempty (cr_deleteResponseHeaders rule)
    || nonempty (cr_bodyReplacements rule).

(** A later key of the iteration wins when two keys normalise alike. *)
Fixpoint insert_trimmed {A} (canon : string → string) (l : list (string * A)) (acc : gmap string A)
    : gmap string A :=
  match l with
  | [] => acc
  | (k, v) :: l' =>
      let key := TrimSpace k in
      if decide (key = "") then insert_trimmed canon l' acc
      else insert_trimmed canon l' (<[canon key := v]> acc)
  end.

Definition normalizeHeaderSet (l : list (string * string)) : gmap string string :=
  insert_trimmed CanonicalHeaderKey l ∅.
Definition normalizeStringMap (l : list (string * string)) : gmap string string :=
  insert_trimmed (λ k, k) l ∅.

(** Trim, drop blanks and repetitions, keep the first of each. *)
Fixpoint distinct_trimmed (canon : string → string) (l : list string) (seen : gset string) : list string :=
  match l with
  | [] => []
  | k :: l' =>
      let key := TrimSpace k in
      if decide (key = "") then distinct_trimmed canon l' seen
      else
        let key := canon key in
        if decide (key ∈ seen) then distinct_trimmed canon l' seen
        else key :: distinct_trimmed canon l' ({[key]} ∪ seen)
  end.

Definition normalizeHeaderDelete (l : list string) : list string := distinct_trimmed CanonicalHeaderKey l ∅.
Definition normalizeStringList (l : list string) : list string := distinct_trimmed (λ k, k) l ∅.

Definition normalizeBodyReplacements (l : list NetworkBodyTransform) : list NetworkBodyTransform :=
  filter (λ item, bt_Find item ≠ "") l.

Definition trimmed_nonempty (l : list string) : list string :=
  filter (λ s, s ≠ "") (TrimSpace <$> l).

Definition compile_rule (rule : NetworkHookRule) : compiledNetworkRule :=
  let phase := normalizeNetworkHookPhase (nr_Phase rule) in
  let action := normalizeNetworkHookAction (nr_Action rule) in
  let action := if bool_decide (action = networkHookActionAllow) && hasNetworkMutations rule phase
                then networkHookActionMutate else action in
  {| cr_phase := phase; cr_action := action; cr_callbackID := TrimSpace (nr_CallbackID rule);
     cr_callbackTimeout := if 0 <? nr_TimeoutMS rule then int64 (nr_TimeoutMS rule * 1000000) else 0;
     cr_hosts := trimmed_nonempty (nr_Hosts rule);
     cr_methods := list_to_set (trimmed_nonempty (ToUpper <$> nr_Methods rule));
     cr_path := TrimSpace (nr_Path rule);
     cr_setHeaders := normalizeHeaderSet (nr_SetHeaders rule);
     cr_deleteHeaders := normalizeHeaderDelete (nr_DeleteHeaders rule);
     cr_setQuery := normalizeStringMap (nr_SetQuery rule);
     cr_deleteQuery := normalizeStringList (nr_DeleteQuery rule);
     cr_rewritePath := TrimSpace (nr_RewritePath rule);
     cr_setResponseHeaders := normalizeHeaderSet (nr_SetResponseHeaders rule);
     cr_deleteResponseHeaders := normalizeHeaderDelete (nr_DeleteResponseHeaders rule);
     cr_bodyReplacements := normalizeBodyReplacements (nr_BodyReplacements rule) |}.

(** Keep only effective rules. *)
Definition effective (cr : compiledNetworkRule) : bool :=
  bool_decide (cr_action cr = networkHookActionBlock) || compiledRuleHasMutations cr (cr_phase cr)
  || negb (bool_decide (cr_callbackID cr = "")).

Definition compileNetworkRules (cfg : option NetworkInterceptionConfig) : list compiledNetworkRule :=
  match cfg with
  | None => []
  | Some c => filter (λ cr, effective cr = true) (compile_rule <$> ni_Rules c)
  end.

Definition compiledNetworkRule_matches (r : compiledNetworkRule) (req : option http_Request)
    (host : string) : bool :=
  if nonempty (cr_hosts r) && negb (existsb (λ pattern, matchGlob pattern host) (cr_hosts r)) then false
  else if match req with
          | Some q => negb (bool_decide (cr_methods r = ∅))
                      && negb (bool_decide (TrimSpace (ToUpper (req_Method q)) ∈ cr_methods r))
          | None => false
          end then false
  else match req ≫= req_URL with
       | Some u =>
           if decide (cr_path r = "") then true
           else
             let pathname := if decide (url_Path u = "") then "/" else url_Path u in
             bool_decide (Match (cr_path r) pathname = Some true)
       | None => true
       end.

(** ** Callbacks *)

Record NetworkHookCallbackRequest := {
  cbq_CallbackID : string; cbq_Phase : string; cbq_Host : string; cbq_Method : string;
  cbq_Path : string; cbq_Query : gmap string string; cbq_RequestHeaders : Header;
  cbq_StatusCode : Z; cbq_ResponseHeaders : Header; cbq_IsSSE : bool }.

(** In the mutations a nil map and an empty one differ. *)
Record NetworkHookRequestMutation := {
  rqm_Headers : option (list (string * list string)); rqm_Query : option (list (string * string));
  rqm_Path : string }.
Record NetworkHookResponseMutation := {
  rsm_Headers : option (list (string * list string)); rsm_BodyReplacements : list NetworkBodyTransform;
  rsm_SetBodyBase64 : option string }.
Record NetworkHookCallbackResponse := {
  cbs_Action : string; cbs_Request : option NetworkHookRequestMutation;
  cbs_Response : option NetworkHookResponseMutation; cbs_Error : string }.

(** The mutations after normalisation. *)
Record request_mutation := {
  qm_Headers : option Header; qm_Query : option (gmap string string); qm_Path : string }.
Record response_mutation := {
  sm_Headers : option Header; sm_BodyReplacements : list NetworkBodyTransform;
  sm_SetBodyBase64 : option string }.

Definition normalizeHeaderValues (l : option (list (string * list string))) : option Header :=
  (λ l, insert_trimmed CanonicalHeaderKey l ∅) <$> l.
Definition normalizeStringMapPreserveEmpty (l : option (list (string * string))) : option (gmap string string) :=
  (λ l, insert_trimmed (λ k, k) l ∅) <$> l.

Definition normalizeCallbackRequestMutation (m : option NetworkHookRequestMutation)
    : option request_mutation :=
  m ← m;
  let out := {| qm_Headers := normalizeHeaderValues (rqm_Headers m);
                qm_Query := normalizeStringMapPreserveEmpty (rqm_Query m);
                qm_Path := TrimSpace (rqm_Path m) |} in
  if bool_decide (qm_Headers out = None) && bool_decide (qm_Query out = None)
       && bool_decide (qm_Path out = "") then None else Some out.

Definition normalizeCallbackResponseMutation (m : option NetworkHookResponseMutation)
    : option response_mutation :=
  m ← m;
  let out := {| sm_Headers := normalizeHeaderValues (rsm_Headers m);
                sm_BodyReplacements := normalizeBodyReplacements (rsm_BodyReplacements m);
                sm_SetBodyBase64 := rsm_SetBodyBase64 m |} in
  if bool_decide (sm_Headers out = None) && negb (nonempty (sm_BodyReplacements out))
       && bool_decide (sm_SetBodyBase64 out = None) then None else Some out.

Definition callbackActionWithMutations (action : string) (hasMutations : bool) : string :=
  let normalized := normalizeNetworkHookAction action in
  if bool_decide (normalized = networkHookActionAllow) && hasMutations then networkHookActionMutate
  else normalized.

Definition decodeBase64Body (data : option string) : option string := data ≫= b64_decode_std.

Definition isSSEContentType (contentType : string) : bool :=
  HasPrefix (TrimSpace (ToLower contentType)) "text/event-stream".

(** ** Mutations *)

(** The [range] over a map whose keys are distinct canonical names: the visits
    commute, so the order of [map_fold] stands for every order. *)
Definition set_headers (set : gmap string string) (h : Header) : Header :=
  map_fold (λ k v h, Header_Set h k v) h set.
Definition delete_headers (del : list string) (h : Header) : Header := foldl Header_Del h del.

Definition applyBeforeMutations (req : http_Request) (setHeaders : gmap string string)
    (deleteHeaders : list string) (setQuery : gmap string string) (deleteQuery : list string)
    (rewritePath : string) : http_Request :=
  let req := with_Header (delete_headers deleteHeaders (set_headers setHeaders (req_Header req))) req in
  match req_URL req with
  | None => req
  | Some u =>
      let u := if negb (bool_decide (setQuery = ∅)) || nonempty deleteQuery then
                 let q := map_fold (λ k v q, Values_Set q k v) (URL_Query u) setQuery in
                 with_RawQuery (Values_Encode (foldl Values_Del q deleteQuery)) u
               else u in
      let u := if decide (rewritePath = "") then u else with_Path rewritePath u in
      with_URL (Some u) req
  end.

Definition applyCallbackRequestMutation (req : http_Request) (mutation : option request_mutation)
    : http_Request :=
  match mutation with
  | None => req
  | Some m =>
      let req := match qm_Headers m with Some h => with_Header h req | None => req end in
      match req_URL req with
      | None => req
      | Some u =>
          let u := match qm_Query m with
                   | Some query =>
                       with_RawQuery (Values_Encode (map_fold (λ k v q, Values_Set q k v) ∅ query)) u
                   | None => u
                   end in
          let u := if decide (qm_Path m = "") then u else with_Path (qm_Path m) u in
          with_URL (Some u) req
      end
  end.

Definition requestMethod (req : option http_Request) : string := from_option req_Method "" req.
Definition requestPath (req : option http_Request) : string := from_option url_Path "" (req ≫= req_URL).
Definition requestQuery (req : option http_Request) : gmap string string :=
  match req ≫= req_URL with
  | Some u => (λ vs, default "" (head vs)) <$> URL_Query u
  | None => ∅
  end.
Definition requestHeaders (req : option http_Request) : Header := from_option req_Header ∅ req.

(** ** Applying rules *)

(** [networkHookInvoker]: the timeout, the request; an error or a response that may be nil. *)
Definition networkHookInvoker (W : Type) : Type :=
  Z → NetworkHookCallbackRequest → M W (result policy_error (option NetworkHookCallbackResponse)).

(** [newNetworkHookInvoker] and [unixNetworkHookInvoker.Invoke]: [exchange] is the dialogue over
    the socket (dial, encode, decode), which is the peer's. *)
Definition newNetworkHookInvoker {W}
    (exchange : string → Z → NetworkHookCallbackRequest → M W (result policy_error NetworkHookCallbackResponse))
    (config : NetworkConfig) : option (networkHookInvoker W) :=
  match nc_Interception config with
  | None => None
  | Some i =>
      let socketPath := TrimSpace (ni_CallbackSocket i) in
      if decide (socketPath = "") then None
      else Some (λ timeout req,
        r ← exchange socketPath timeout req;
        mret (match r with
              | Err e => Err e
              | Ok resp => if decide (TrimSpace (cbs_Error resp) = "") then Ok (Some resp)
                           else Err (ErrIO (cbs_Error resp))
              end))
  end.

Section apply.
Context {W : Type} (hook : option (networkHookInvoker W)).

Definition before_callback_request (rule : compiledNetworkRule) (host : string) (req : http_Request)
    : NetworkHookCallbackRequest := {|
  cbq_CallbackID := cr_callbackID rule; cbq_Phase := networkHookPhaseBefore; cbq_Host := host;
  cbq_Method := req_Method req; cbq_Path := requestPath (Some req); cbq_Query := requestQuery (Some req);
  cbq_RequestHeaders := req_Header req; cbq_StatusCode := 0; cbq_ResponseHeaders := ∅; cbq_IsSSE := false |}.

(** The loop of [applyBeforeNetworkRules]: the request after it, and the error. *)
Fixpoint applyBeforeNetworkRules (rules : list compiledNetworkRule) (req : http_Request) (host : string)
    : M W (http_Request * option policy_error) :=
  match rules with
  | [] => mret (req, None)
  | rule :: rules' =>
      if negb (bool_decide (cr_phase rule = networkHookPhaseBefore))
           || negb (compiledNetworkRule_matches rule (Some req) host)
      then applyBeforeNetworkRules rules' req host
      else if decide (cr_action rule = networkHookActionBlock) then mret (req, Some ErrBlocked)
      else
        let req := applyBeforeMutations req (cr_setHeaders rule) (cr_deleteHeaders rule)
                     (cr_setQuery rule) (cr_deleteQuery rule) (cr_rewritePath rule) in
        match hook with
        | Some invoke =>
            if decide (cr_callbackID rule = "") then applyBeforeNetworkRules rules' req host
            else
              r ← invoke (cr_callbackTimeout rule) (before_callback_request rule host req);
              match r with
              | Err _ | Ok None => applyBeforeNetworkRules rules' req host
              | Ok (Some cbResp) =>
                  let mutation := normalizeCallbackRequestMutation (cbs_Request cbResp) in
                  let hasMutations := bool_decide (is_Some mutation) in
                  let action := callbackActionWithMutations (cbs_Action cbResp) hasMutations in
                  if decide (action = networkHookActionBlock) then mret (req, Some ErrBlocked)
                  else if bool_decide (action = networkHookActionMutate) || hasMutations
                  then applyBeforeNetworkRules rules' (applyCallbackRequestMutation req mutation) host
                  else applyBeforeNetworkRules rules' req host
              end
        | None => applyBeforeNetworkRules rules' req host
        end
  end.

Definition after_callback_request (rule : compiledNetworkRule) (host : string) (req : option http_Request)
    (resp : http_Response) : NetworkHookCallbackRequest := {|
  cbq_CallbackID := cr_callbackID rule; cbq_Phase := networkHookPhaseAfter; cbq_Host := host;
  cbq_Method := requestMethod req; cbq_Path := requestPath req; cbq_Query := requestQuery req;
  cbq_RequestHeaders := requestHeaders req; cbq_StatusCode := resp_StatusCode resp;
  cbq_ResponseHeaders := resp_Header resp;
  cbq_IsSSE := isSSEContentType (Header_Get (resp_Header resp) "Content-Type") |}.

(** What the loop over the after-phase rules has gathered. *)
Record after_state := {
  as_resp : http_Response; as_replacements : list NetworkBodyTransform; as_setBody : option string }.

Definition after_rule_headers (rule : compiledNetworkRule) (resp : http_Response) : http_Response :=
  with_resp_Header (delete_headers (cr_deleteResponseHeaders rule)
                      (set_headers (cr_setResponseHeaders rule) (resp_Header resp))) resp.

Definition after_mutation (m : response_mutation) (s : after_state) : after_state := {|
  as_resp := match sm_Headers m with Some h => with_resp_Header h (as_resp s) | None => as_resp s end;
  as_replacements := as_replacements s ++ sm_BodyReplacements m;
  as_setBody := match decodeBase64Body (sm_SetBodyBase64 m) with
                | Some b => Some b | None => as_setBody s end |}.

Fixpoint after_rules (rules : list compiledNetworkRule) (req : option http_Request) (host : string)
    (s : after_state) : M W (after_state * option policy_error) :=
  match rules with
  | [] => mret (s, None)
  | rule :: rules' =>
      if negb (bool_decide (cr_phase rule = networkHookPhaseAfter))
           || negb (compiledNetworkRule_matches rule req host)
      then after_rules rules' req host s
      else if decide (cr_action rule = networkHookActionBlock) then mret (s, Some ErrBlocked)
      else
        let s := {| as_resp := after_rule_headers rule (as_resp s);
                    as_replacements := as_replacements s ++ cr_bodyReplacements rule;
                    as_setBody := as_setBody s |} in
        match hook with
        | Some invoke =>
            if decide (cr_callbackID rule = "") then after_rules rules' req host s
            else
              r ← invoke (cr_callbackTimeout rule) (after_callback_request rule host req (as_resp s));
              match r with
              | Err _ | Ok None => after_rules rules' req host s
              | Ok (Some cbResp) =>
                  let mutation := normalizeCallbackResponseMutation (cbs_Response cbResp) in
                  let hasMutations := bool_decide (is_Some mutation) in
                  let action := callbackActionWithMutations (cbs_Action cbResp) hasMutations in
                  if decide (action = networkHookActionBlock) then mret (s, Some ErrBlocked)
                  else match mutation with
                       | Some m => after_rules rules' req host (after_mutation m s)
                       | None => after_rules rules' req host s
                       end
              end
        | None => after_rules rules' req host s
        end
  end.

(** The part after the loop: install the body. *)
Definition after_body (s : after_state) : result policy_error http_Response :=
  let resp := as_resp s in
  match as_setBody s with
  | Some b => Ok (set_body (applyBodyReplacements b (as_replacements s)) (drop_body resp))
  | None =>
      match resp_Body resp with
      | None => Ok resp
      | Some body =>
          if nonempty (as_replacements s) then
            if isSSEContentType (Header_Get (resp_Header resp) "Content-Type")
            then Ok (set_stream (newSSETransformReadCloser (as_reader body) (as_replacements s)) resp)
            else
              let '(b, err) := ReadAll body in
              match err with
              | Some e => Err e
              | None => Ok (set_body (applyBodyReplacements b (as_replacements s)) resp)
              end
          else Ok resp
      end
  end.

Definition applyAfterNetworkRules (rules : list compiledNetworkRule) (resp : http_Response)
    (req : option http_Request) (host : string) : M W (result policy_error http_Response) :=
  '(s, err) ← after_rules rules req host {| as_resp := resp; as_replacements := []; as_setBody := None |};
  mret (match err with Some e => Err e | None => after_body s end).
End apply.
