(* ===== verification/PolicyEngine.v ===== *)
(** * The policy engine: pkg/policy/engine.go

    Which hosts a guest may reach, which paths of them, and where real secret values
    may go. The engine's configuration and placeholder table are a record that the
    live updates return changed; the cache of secret files is a component of the world,
    because [OnRequest] writes it. Files, the clock and the resolver belong to the host
    and are the record [host_env]. [config.Secrets] and [config.PathAllow] are
    association lists in the order the [range] of the call visits them; theorems that
    hold for every list hold for every order. *)

From S2P Require Import Prelude GoStrings GoStd GoPath GoURL GoNet VfsBase Api PolicyGlob PolicyRules.

Record secretValueEntry := { sv_value : string; sv_fetchedAt : Z; sv_ok : bool }.
Definition secret_cache : Type := gmap string secretValueEntry.

(** 60 seconds in nanoseconds. *)
Definition secretValueTTL : Z := 60 * 1000000000.

Record host_env (W : Type) := {
  env_ReadFile : string → M W (result policy_error string);
  env_Now : M W Z;
  env_LookupIP : string → M W (option (list (list Z))) }.
Arguments env_ReadFile {W}. Arguments env_Now {W}. Arguments env_LookupIP {W}.

Record Engine (W : Type) := {
  eng_config : NetworkConfig;
  eng_placeholders : gmap string string;
  eng_networkRules : list compiledNetworkRule;
  eng_networkHook : option (networkHookInvoker W) }.
Arguments eng_config {W}. Arguments eng_placeholders {W}.
Arguments eng_networkRules {W}. Arguments eng_networkHook {W}.

Definition with_config {W} (c : NetworkConfig) (e : Engine W) : Engine W := {|
  eng_config := c; eng_placeholders := eng_placeholders e;
  eng_networkRules := eng_networkRules e; eng_networkHook := eng_networkHook e |}.

Definition with_AllowedHosts (hosts : list string) (c : NetworkConfig) : NetworkConfig := {|
  nc_AllowedHosts := hosts; nc_AddHosts := nc_AddHosts c; nc_BlockPrivateIPs := nc_BlockPrivateIPs c;
  nc_NoNetwork := nc_NoNetwork c; nc_Intercept := nc_Intercept c; nc_Interception := nc_Interception c;
  nc_Secrets := nc_Secrets c; nc_PathAllow := nc_PathAllow c; nc_PolicyScript := nc_PolicyScript c;
  nc_DNSServers := nc_DNSServers c; nc_Hostname := nc_Hostname c; nc_MTU := nc_MTU c |}.
Definition with_PathAllow (pa : list (string * list string)) (c : NetworkConfig) : NetworkConfig := {|
  nc_AllowedHosts := nc_AllowedHosts c; nc_AddHosts := nc_AddHosts c;
  nc_BlockPrivateIPs := nc_BlockPrivateIPs c; nc_NoNetwork := nc_NoNetwork c;
  nc_Intercept := nc_Intercept c; nc_Interception := nc_Interception c;
  nc_Secrets := nc_Secrets c; nc_PathAllow := pa; nc_PolicyScript := nc_PolicyScript c;
  nc_DNSServers := nc_DNSServers c; nc_Hostname := nc_Hostname c; nc_MTU := nc_MTU c |}.
Definition with_Secrets (ss : list (string * Secret)) (c : NetworkConfig) : NetworkConfig := {|
  nc_AllowedHosts := nc_AllowedHosts c; nc_AddHosts := nc_AddHosts c;
  nc_BlockPrivateIPs := nc_BlockPrivateIPs c; nc_NoNetwork := nc_NoNetwork c;
  nc_Intercept := nc_Intercept c; nc_Interception := nc_Interception c;
  nc_Secrets := ss; nc_PathAllow := nc_PathAllow c; nc_PolicyScript := nc_PolicyScript c;
  nc_DNSServers := nc_DNSServers c; nc_Hostname := nc_Hostname c; nc_MTU := nc_MTU c |}.

(** The value of a key in an association list that stands for a map. *)
Fixpoint assoc {A} (k : string) (l : list (string * A)) : option A :=
  match l with
  | [] => None
  | (k', v) :: l' => if decide (k' = k) then Some v else assoc k l'
  end.

(** ** Construction *)

Definition GeneratedSecretPlaceholderPrefix : string := "SANDBOX_SECRET_".

(** [generatePlaceholder] of the 16 bytes the random source gave. *)
Definition generatePlaceholder (random : string) : string :=
  GeneratedSecretPlaceholderPrefix +:+ hex_EncodeToString random.

(** The loop over [config.Secrets]: [random name] are the bytes drawn for a secret. The
    entry written back has no ValueFile. *)
Definition fill_placeholder (random : string → string) (ns : string * Secret) : string * Secret :=
  let '(name, secret) := ns in
  if decide (secret_Placeholder secret = "") then
    (name, {| secret_Value := secret_Value secret; secret_Placeholder := generatePlaceholder (random name);
              secret_Hosts := secret_Hosts secret; secret_ValueFile := "" |})
  else (name, secret).

Definition NewEngine {W}
    (exchange : string → Z → NetworkHookCallbackRequest → M W (result policy_error NetworkHookCallbackResponse))
    (random : string → string) (config : NetworkConfig) : Engine W :=
  let secrets := fill_placeholder random <$> nc_Secrets config in
  {| eng_config := with_Secrets secrets config;
     eng_placeholders := list_to_map (prod_map id secret_Placeholder <$> secrets);
     eng_networkRules := compileNetworkRules (nc_Interception config);
     eng_networkHook := newNetworkHookInvoker exchange config |}.

Definition SetNetworkHookInvoker {W} (invoker : option (networkHookInvoker W)) (e : Engine W) : Engine W := {|
  eng_config := eng_config e; eng_placeholders := eng_placeholders e;
  eng_networkRules := eng_networkRules e; eng_networkHook := invoker |}.

Definition GetPlaceholder {W} (e : Engine W) (name : string) : string :=
  default "" (eng_placeholders e !! name).
Definition GetPlaceholders {W} (e : Engine W) : gmap string string := eng_placeholders e.

(** ** The allow list *)

(** The hosts of the list that are new, in order. *)
Fixpoint new_hosts (existing : gset string) (hosts : list string) : list string :=
  match hosts with
  | [] => []
  | h :: hosts' =>
      let host := TrimSpace h in
      if decide (host = "") then new_hosts existing hosts'
      else if decide (host ∈ existing) then new_hosts existing hosts'
      else host :: new_hosts ({[host]} ∪ existing) hosts'
  end.

Definition AddAllowedHosts {W} (e : Engine W) (hosts : list string) : list string * Engine W :=
  let existing := list_to_set (trimmed_nonempty (nc_AllowedHosts (eng_config e))) in
  let added := new_hosts existing hosts in
  (added, with_config (with_AllowedHosts (nc_AllowedHosts (eng_config e) ++ added) (eng_config e)) e).

(** The first occurrence of each host to remove, in list order. *)
Fixpoint removed_hosts (toRemove seen : gset string) (hosts : list string) : list string :=
  match hosts with
  | [] => []
  | host :: hosts' =>
      if bool_decide (host ∈ toRemove) && negb (bool_decide (host ∈ seen))
      then host :: removed_hosts toRemove ({[host]} ∪ seen) hosts'
      else removed_hosts toRemove seen hosts'
  end.

Definition RemoveAllowedHosts {W} (e : Engine W) (hosts : list string) : list string * Engine W :=
  let current := nc_AllowedHosts (eng_config e) in
  let toRemove : gset string := list_to_set (trimmed_nonempty hosts) in
  if negb (nonempty current) || bool_decide (toRemove = ∅) then ([], e)
  else
    let entries := trimmed_nonempty current in
    (removed_hosts toRemove ∅ entries,
     with_config (with_AllowedHosts (filter (λ h, h ∉ toRemove) entries) (eng_config e)) e).

Definition AllowedHosts {W} (e : Engine W) : list string :=
  trimmed_nonempty (nc_AllowedHosts (eng_config e)).

Definition privateRanges : list string :=
  ["10.0.0.0/8"; "172.16.0.0/12"; "192.168.0.0/16"; "127.0.0.0/8"; "169.254.0.0/16";
   "::1/128"; "fc00::/7"; "fe80::/10"].

Definition in_private_range (ip : list Z) : bool :=
  existsb (λ cidr, match ParseCIDR cidr with Some n => IPNet_Contains n ip | None => false end) privateRanges.

(** [strings.Split(host, ":")[0]] *)
Definition host_part (host : string) : string := default "" (head (Split host ":"%char)).

Section engine.
Context {W : Type} `{!Has secret_cache W} (env : host_env W).

Definition isPrivateIP (host : string) : M W bool :=
  match ParseIP host with
  | Some ip => mret (in_private_range ip)
  | None =>
      ips ← env_LookupIP env host;
      mret (match ips with Some (ip :: _) => in_private_range ip | _ => false end)
  end.

Definition IsHostAllowed (e : Engine W) (host : string) : M W bool :=
  let host := host_part host in
  private ← (if nc_BlockPrivateIPs (eng_config e) then isPrivateIP host else mret false);
  mret (if private : bool then false
        else if nonempty (nc_AllowedHosts (eng_config e))
        then existsb (λ pattern, matchGlob pattern host) (nc_AllowedHosts (eng_config e))
        else true).

(** ** The path gate *)

Definition path_has_prefix (reqPath p : string) : bool :=
  bool_decide (reqPath = TrimRightByte p "/"%char) || HasPrefix reqPath p.

Fixpoint path_gate (host reqPath : string) (restricted : bool) (l : list (string * list string)) : bool :=
  match l with
  | [] => negb restricted
  | (pattern, prefixes) :: l' =>
      if matchGlob pattern host then
        if existsb (path_has_prefix reqPath) prefixes then true else path_gate host reqPath true l'
      else path_gate host reqPath restricted l'
  end.

Definition pathAllowedLocked (e : Engine W) (host reqPath : string) : bool :=
  if nonempty (nc_PathAllow (eng_config e)) then
    path_gate host (Clean (if decide (reqPath = "") then "/" else reqPath)) false
      (nc_PathAllow (eng_config e))
  else true.

Definition delete_key {A} (k : string) (l : list (string * A)) : list (string * A) :=
  filter (λ kv, kv.1 ≠ k) l.

Definition SetPathAllow (e : Engine W) (host : string) (prefixes : list string) : list string * Engine W :=
  let host := TrimSpace host in
  let cleaned := normalizeStringList prefixes in
  let rest := delete_key host (nc_PathAllow (eng_config e)) in
  match cleaned with
  | [] => ([], with_config (with_PathAllow rest (eng_config e)) e)
  | _ => (cleaned, with_config (with_PathAllow (rest ++ [(host, cleaned)]) (eng_config e)) e)
  end.

Definition ClearPathAllow (e : Engine W) (host : string) : bool * Engine W :=
  let host := TrimSpace host in
  match assoc host (nc_PathAllow (eng_config e)) with
  | None => (false, e)
  | Some _ => (true, with_config (with_PathAllow (delete_key host (nc_PathAllow (eng_config e))) (eng_config e)) e)
  end.

Definition PathAllow (e : Engine W) : list (string * list string) := nc_PathAllow (eng_config e).

(** ** Secrets *)

Definition isSecretAllowedForHost (e : Engine W) (secretName host : string) : bool :=
  match assoc secretName (nc_Secrets (eng_config e)) with
  | None => false
  | Some secret =>
      if nonempty (secret_Hosts secret)
      then existsb (λ pattern, matchGlob pattern host) (secret_Hosts secret)
      else true
  end.

Definition decodeBasicAuthHeader (value : string) : option string :=
  '(prefix, encoded) ← Cut value " "%char;
  if EqualFold (TrimSpace prefix) "Basic" then
    let encoded := TrimSpace encoded in
    if decide (encoded = "") then None
    else match b64_decode_std encoded with
         | Some d => Some d
         | None => b64_decode_raw encoded
         end
  else None.

Definition basicValueContainsPlaceholder (value placeholder : string) : bool :=
  match decodeBasicAuthHeader value with
  | Some decoded => Contains decoded placeholder
  | None => false
  end.

Definition replaceBasicAuthPlaceholder (value placeholder replacement : string) : option string :=
  decoded ← decodeBasicAuthHeader value;
  if Contains decoded placeholder
  then Some ("Basic " +:+ b64_encode (ReplaceAll decoded placeholder replacement))
  else None.

Definition value_has_placeholder (placeholder v : string) : bool :=
  Contains v placeholder || basicValueContainsPlaceholder v placeholder.

Definition requestContainsPlaceholder (req : http_Request) (placeholder : string) : bool :=
  existsb (λ kv, existsb (value_has_placeholder placeholder) kv.2) (map_to_list (req_Header req))
  || match req_URL req with Some u => Contains (URL_String u) placeholder | None => false end.

(** One header value. *)
Definition replace_value (placeholder value v : string) : string :=
  if Contains v placeholder then ReplaceAll v placeholder value
  else default v (replaceBasicAuthPlaceholder v placeholder value).

Definition replace_query (placeholder value : string) (u : URL) : URL :=
  if Contains (url_RawQuery u) placeholder
  then with_RawQuery (ReplaceAll (url_RawQuery u) placeholder value) u else u.

Definition replace_headers (placeholder value : string) (h : Header) : Header :=
  (λ values : list string, replace_value placeholder value <$> values) <$> h.

Definition replaceInRequest (req : http_Request) (placeholder value : string) : http_Request :=
  with_URL (replace_query placeholder value <$> req_URL req)
    (with_Header (replace_headers placeholder value (req_Header req)) req).

Definition resolveSecretValue (name : string) (secret : Secret) : M W (option string) :=
  if decide (secret_ValueFile secret = "") then
    mret (if decide (secret_Value secret = "") then None else Some (secret_Value secret))
  else
    cache ← lift getw;
    let cached := match (cache : secret_cache) !! name with
                  | Some ent => if sv_ok ent then Some ent else None | None => None end in
    fresh ← (match cached with
             | Some ent => now ← env_Now env; mret (int64 (now - sv_fetchedAt ent) <? secretValueTTL)
             | None => mret false
             end);
    match cached, fresh : bool with
    | Some ent, true => mret (Some (sv_value ent))
    | _, _ =>
        data ← env_ReadFile env (secret_ValueFile secret);
        match data with
        | Err _ => mret (sv_value <$> cached)
        | Ok data =>
            let value := TrimSpace data in
            now ← env_Now env;
            let ent := {| sv_value := value; sv_fetchedAt := now;
                          sv_ok := negb (bool_decide (value = "")) |} in
            _ ← lift (modw (<[name := ent]> : secret_cache → secret_cache));
            mret (if sv_ok ent then Some value else None)
        end
    end.

(** The loop over [config.Secrets]. *)
Fixpoint apply_secrets (e : Engine W) (host : string) (secrets : list (string * Secret)) (req : http_Request)
    : M W (http_Request * option policy_error) :=
  match secrets with
  | [] => mret (req, None)
  | (name, secret) :: rest =>
      if isSecretAllowedForHost e name host then
        value ← resolveSecretValue name secret;
        match value with
        | Some v => apply_secrets e host rest (replaceInRequest req (secret_Placeholder secret) v)
        | None => apply_secrets e host rest req
        end
      else if requestContainsPlaceholder req (secret_Placeholder secret) then mret (req, Some ErrSecretLeak)
      else apply_secrets e host rest req
  end.

(** The request object after the call, and the error; the code returns the request
    only without one. *)
Definition OnRequest (e : Engine W) (req : http_Request) (host : string)
    : M W (http_Request * option policy_error) :=
  let host := host_part host in
  if match req_URL req with
     | Some u => negb (pathAllowedLocked e host (url_Path u)) | None => false end
  then mret (req, Some ErrBlocked)
  else
    '(req, err) ← applyBeforeNetworkRules (eng_networkHook e) (eng_networkRules e) req host;
    match err with
    | Some e => mret (req, Some e)
    | None => apply_secrets e host (nc_Secrets (eng_config e)) req
    end.

Definition OnResponse (e : Engine W) (resp : http_Response) (req : option http_Request) (host : string)
    : M W (result policy_error http_Response) :=
  applyAfterNetworkRules (eng_networkHook e) (eng_networkRules e) resp req (host_part host).
End engine.
