(* ===== verification/PolicySpec.v ===== *)
(** * What the policy engine guarantees

    Theorems about pkg/policy: which hosts and paths are let through, where secret
    values can go, and what rules do to requests and responses. *)

From S2P Require Import Prelude GoStrings GoStd GoPath GoURL GoNet VfsBase Api PolicyGlob PolicyRules PolicyEngine.

(** C11: Host patterns mean what they say. For every pattern and host, [matchGlob]
    (with its fast paths for a leading and a trailing star, and its greedy general
    case) answers true exactly when the host is the pattern with some string in place
    of each star. *)
Theorem host_pattern_exact pattern host : matchGlob pattern host = true ↔ glob pattern host.
Proof. apply matchGlob_glob. Qed.

(** ** Hosts *)

Definition hosts_match (patterns : list string) (host : string) : Prop :=
  patterns = [] ∨ ∃ p, p ∈ patterns ∧ glob p host.

Lemma existsb_glob patterns host :
  existsb (λ p, matchGlob p host) patterns = true ↔ ∃ p, p ∈ patterns ∧ glob p host.
Proof.
  rewrite existsb_exists. setoid_rewrite <- list_elem_of_In. by setoid_rewrite matchGlob_glob.
Qed.

Lemma nonempty_true {A} (l : list A) : nonempty l = true ↔ l ≠ [].
Proof. by destruct l. Qed.

Lemma IsHostAllowed_public {W} (env : host_env W) (e : Engine W) host w :
  (nc_BlockPrivateIPs (eng_config e) = true →
   isPrivateIP env (host_part host) w = Some (false, w)) →
  ∃ b, IsHostAllowed env e host w = Some (b, w) ∧
    (b = true ↔ hosts_match (nc_AllowedHosts (eng_config e)) (host_part host)).
Proof.
  intros Hp. unfold IsHostAllowed, hosts_match.
  set (b := if nonempty _ then _ else true).
  exists b. split.
  - destruct (nc_BlockPrivateIPs _); [|done].
    unfold mbind, M_bind. by rewrite Hp.
  - unfold b. destruct (nc_AllowedHosts (eng_config e)) as [|p ps] eqn:E; cbn [nonempty]; [naive_solver|].
    rewrite existsb_glob. naive_solver.
Qed.

Lemma Split_head_app x s c : contains_byte c x = false → head (Split (x +:+ String c s) c) = Some x.
Proof. intros. by rewrite Split_app_sep. Qed.

Lemma host_part_plain h : contains_byte ":"%char h = false → host_part h = h.
Proof. intros. unfold host_part. by rewrite Split_single. Qed.

Lemma host_part_port h port : contains_byte ":"%char h = false → host_part (h +:+ (":" +:+ port)) = h.
Proof. intros. unfold host_part. change (":" +:+ port) with (String ":" port). by rewrite Split_head_app. Qed.

Lemma dotted_no_colon a b c d :
  0 <= a < 256 → 0 <= b < 256 → 0 <= c < 256 → 0 <= d < 256 →
  contains_byte ":"%char (dotted a b c d) = false.
Proof.
  intros (_ & _ & Ca & _)%octets_ok (_ & _ & Cb & _)%octets_ok (_ & _ & Cc & _)%octets_ok
    (_ & _ & Cd & _)%octets_ok.
  unfold dotted. rewrite contains_byte_app, Ca. cbn [contains_byte]. rewrite contains_byte_app, Cb.
  cbn [contains_byte]. rewrite contains_byte_app, Cc. cbn [contains_byte]. by rewrite Cd.
Qed.

(** The private IPv4 blocks, by their numbers. *)
Definition private_ipv4 (a b : Z) : Prop :=
  a = 10 ∨ (a = 172 ∧ 16 <= b < 32) ∨ (a = 192 ∧ b = 168) ∨ a = 127 ∨ (a = 169 ∧ b = 254).

#[export] Instance private_ipv4_dec a b : Decision (private_ipv4 a b).
Proof. unfold private_ipv4. apply _. Defined.

(** A block of IPv4 addresses contains an address when the masked bytes agree. *)
Lemma Contains_ipv4 n m a b c d :
  length n = 4%nat →
  IPNet_Contains {| net_IP := n; net_Mask := m |} (v4_prefix ++ [a; b; c; d])
  = bool_decide (zip_with Z.land n m = zip_with Z.land [a; b; c; d] m).
Proof.
  intros Hn. unfold IPNet_Contains. cbn [net_IP net_Mask].
  assert (To4 n = Some n) as -> by (unfold To4; by rewrite Hn).
  assert (To4 (v4_prefix ++ [a; b; c; d]) = Some [a; b; c; d]) as -> by reflexivity.
  cbn [default from_option id]. by rewrite Hn.
Qed.

Lemma byte_land_255 x : 0 <= x < 256 → Z.land x 255 = x.
Proof. intros. change 255 with (Z.ones 8). rewrite Z.land_ones by lia. by apply Z.mod_small. Qed.

Lemma byte_land_240 x : 0 <= x < 256 → Z.land x 240 = 16 ↔ 16 <= x < 32.
Proof.
  intros Hx.
  assert (Hall : forallb (λ x, bool_decide (Z.land x 240 = 16 ↔ 16 <= x < 32)) (seqZ 0 256) = true)
    by (vm_compute; reflexivity).
  rewrite forallb_forall in Hall. specialize (Hall x).
  rewrite <- list_elem_of_In, elem_of_seqZ, bool_decide_eq_true in Hall. apply Hall. lia.
Qed.

Definition private_nets4 : list IPNet :=
  [{| net_IP := [10; 0; 0; 0]; net_Mask := [255; 0; 0; 0] |};
   {| net_IP := [172; 16; 0; 0]; net_Mask := [255; 240; 0; 0] |};
   {| net_IP := [192; 168; 0; 0]; net_Mask := [255; 255; 0; 0] |};
   {| net_IP := [127; 0; 0; 0]; net_Mask := [255; 0; 0; 0] |};
   {| net_IP := [169; 254; 0; 0]; net_Mask := [255; 255; 0; 0] |}].

Lemma in_private_range_ipv4 a b c d :
  0 <= a < 256 → 0 <= b < 256 →
  in_private_range (v4_prefix ++ [a; b; c; d]) = true ↔ private_ipv4 a b.
Proof.
  intros Ha Hb.
  assert (Hn : in_private_range (v4_prefix ++ [a; b; c; d])
               = existsb (λ n, IPNet_Contains n (v4_prefix ++ [a; b; c; d])) private_nets4).
  { unfold in_private_range, privateRanges, private_nets4. cbn [existsb].
    repeat match goal with |- context [ParseCIDR ?s] =>
      let r := eval vm_compute in (ParseCIDR s) in change (ParseCIDR s) with r; cbv beta iota end.
    by repeat f_equal. }
  rewrite Hn. unfold private_nets4. cbn [existsb]. rewrite !Contains_ipv4 by done. cbn [zip_with].
  rewrite !Z.land_0_r, !byte_land_255 by done.
  change (Z.land 10 255) with 10. change (Z.land 172 255) with 172. change (Z.land 16 240) with 16.
  change (Z.land 192 255) with 192. change (Z.land 168 255) with 168. change (Z.land 127 255) with 127.
  change (Z.land 169 255) with 169. change (Z.land 254 255) with 254.
  assert (Hl : ∀ x y x' y' : Z, [x; y; 0; 0] = [x'; y'; 0; 0] ↔ x = x' ∧ y = y').
  { intros. split; [by intros [= -> ->]|by intros [-> ->]]. }
  rewrite orb_false_r, !orb_true_iff, !bool_decide_eq_true, !Hl. unfold private_ipv4.
  pose proof (byte_land_240 b Hb). lia.
Qed.

(** With private addresses blocked, a numeric IPv4 host (with or without a port) is
    reachable exactly when it lies outside the private blocks 10/8, 172.16/12,
    192.168/16, 127/8 and 169.254/16 and, when there is an allow list, some pattern
    of it matches; the decision makes no lookup and changes nothing. *)
Theorem private_ipv4_blocked {W} (env : host_env W) (e : Engine W) a b c d host w :
  0 <= a < 256 → 0 <= b < 256 → 0 <= c < 256 → 0 <= d < 256 →
  nc_BlockPrivateIPs (eng_config e) = true →
  (host = dotted a b c d ∨ ∃ port, host = dotted a b c d +:+ (":" +:+ port)) →
  ∃ r, IsHostAllowed env e host w = Some (r, w) ∧
    (r = true ↔ ¬ private_ipv4 a b ∧ hosts_match (nc_AllowedHosts (eng_config e)) (dotted a b c d)).
Proof.
  intros Ha Hb Hc Hd Hblock Hhost.
  assert (Hpart : host_part host = dotted a b c d).
  { pose proof (dotted_no_colon a b c d Ha Hb Hc Hd).
    destruct Hhost as [->|[port ->]]; [by apply host_part_plain|by apply host_part_port]. }
  assert (Hp : isPrivateIP env (dotted a b c d) w = Some (in_private_range (v4_prefix ++ [a; b; c; d]), w))
    by (unfold isPrivateIP; by rewrite ParseIP_dotted).
  pose proof (in_private_range_ipv4 a b c d Ha Hb) as Hr.
  destruct (in_private_range (v4_prefix ++ [a; b; c; d])).
  - exists false. split; [|naive_solver].
    unfold IsHostAllowed. rewrite Hblock, Hpart. unfold mbind, M_bind. by rewrite Hp.
  - destruct (IsHostAllowed_public env e host w) as (r & Hrun & Hiff); [by rewrite Hpart|].
    exists r. split; [done|]. rewrite Hiff, Hpart. naive_solver.
Qed.

Definition demo_network : NetworkConfig := {|
  nc_AllowedHosts := []; nc_AddHosts := []; nc_BlockPrivateIPs := true; nc_NoNetwork := false;
  nc_Intercept := true; nc_Interception := None; nc_Secrets := []; nc_PathAllow := [];
  nc_PolicyScript := ""; nc_DNSServers := []; nc_Hostname := ""; nc_MTU := 0 |}.

(** A host without files or resolver, whose clock stands still; its world is the cache. *)
Definition demo_env : host_env secret_cache := {|
  env_ReadFile _ := mret (Err (ErrIO "no such file"));
  env_Now := mret 0;
  env_LookupIP _ := mret None |}.

Definition demo_engine (config : NetworkConfig) : Engine secret_cache := {|
  eng_config := config; eng_placeholders := ∅; eng_networkRules := compileNetworkRules (nc_Interception config);
  eng_networkHook := None |}.

Lemma private_ipv4_blocked_witness :
  ∃ r, IsHostAllowed demo_env (demo_engine demo_network) "192.168.0.7:8080" ∅ = Some (r, ∅) ∧
    (r = true ↔ ¬ private_ipv4 192 168 ∧ hosts_match [] (dotted 192 168 0 7)).
Proof.
  apply (private_ipv4_blocked demo_env (demo_engine demo_network) 192 168 0 7); [lia..|done|].
  right. exists "8080". reflexivity.
Defined.

(** Blocking private addresses does not stop an IPv6 literal. The host is cut at the
    first colon, so the address [::1] of the loopback interface, written as a URL writes
    it, becomes a lone bracket: no address and no name anybody can resolve. *)
Theorem ipv6_literal_not_blocked {W} (env : host_env W) (e : Engine W) w :
  nc_BlockPrivateIPs (eng_config e) = true → nc_AllowedHosts (eng_config e) = [] →
  env_LookupIP env "[" w = Some (None, w) →
  in_private_range (replicate 15 0 ++ [1]) = true ∧ ParseIP "::1" = Some (replicate 15 0 ++ [1]) ∧
  IsHostAllowed env e "[::1]:80" w = Some (true, w).
Proof.
  intros Hb Ha Hl. split_and!; [by vm_compute|by vm_compute|].
  destruct (IsHostAllowed_public env e "[::1]:80" w) as (r & -> & Hr).
  - intros _. change (host_part "[::1]:80") with "[". unfold isPrivateIP.
    change (ParseIP "[") with (@None (list Z)). unfold mbind, M_bind. by rewrite Hl.
  - rewrite Ha in Hr. assert (r = true) as -> by (apply Hr; by left). done.
Qed.

Lemma ipv6_literal_not_blocked_witness :
  in_private_range (replicate 15 0 ++ [1]) = true ∧ ParseIP "::1" = Some (replicate 15 0 ++ [1]) ∧
  IsHostAllowed demo_env (demo_engine demo_network) "[::1]:80" ∅ = Some (true, ∅).
Proof. by apply (ipv6_literal_not_blocked demo_env (demo_engine demo_network) ∅). Defined.

(** ** Live updates of the allow list *)

Definition trimmed_list (hosts : list string) : Prop :=
  Forall (λ h, TrimSpace h = h ∧ h ≠ "") hosts.

Lemma trimmed_nonempty_id hosts : trimmed_list hosts → trimmed_nonempty hosts = hosts.
Proof.
  unfold trimmed_nonempty. induction 1 as [|h hosts [Ht Hn] _ IH]; [done|].
  cbn [fmap list_fmap]. by rewrite filter_cons_True, IH, Ht by (by rewrite Ht).
Qed.

Lemma new_hosts_spec existing hosts :
  trimmed_list (new_hosts existing hosts) ∧ NoDup (new_hosts existing hosts) ∧
  (∀ h, h ∈ new_hosts existing hosts ↔ h ∉ existing ∧ h ≠ "" ∧ h ∈ TrimSpace <$> hosts).
Proof.
  revert existing. induction hosts as [|x hosts IH]; intros existing; cbn [new_hosts].
  { split_and!; [constructor..|]. intros h. rewrite fmap_nil, !elem_of_nil. tauto. }
  rewrite fmap_cons. setoid_rewrite elem_of_cons. case_decide as Hx.
  { destruct (IH existing) as (? & ? & Hel). split_and!; [done..|]. intros h. rewrite Hel. naive_solver. }
  case_decide as Hin.
  { destruct (IH existing) as (? & ? & Hel). split_and!; [done..|]. intros h. rewrite Hel. naive_solver. }
  destruct (IH ({[TrimSpace x]} ∪ existing)) as (Ht & Hnd & Hel). split_and!.
  - constructor; [|done]. by rewrite TrimSpace_idem.
  - constructor; [|done]. rewrite Hel. set_solver.
  - intros h. rewrite elem_of_cons, Hel, elem_of_union, elem_of_singleton.
    destruct (decide (h = TrimSpace x)); naive_solver.
Qed.

Lemma removed_hosts_all toRemove seen hosts :
  NoDup hosts → (∀ h, h ∈ hosts → h ∉ seen) →
  removed_hosts toRemove seen hosts = filter (λ h, h ∈ toRemove) hosts.
Proof.
  revert seen. induction hosts as [|h hosts IH]; intros seen Hnd Hseen; [done|].
  apply NoDup_cons in Hnd as [Hh Hnd]. cbn [removed_hosts].
  rewrite (bool_decide_eq_false_2 (h ∈ seen)) by (apply Hseen; left). rewrite andb_true_r.
  rewrite filter_cons. case_bool_decide; case_decide; try done.
  - f_equal. apply IH; [done|]. intros h' Hh'. specialize (Hseen h'). set_solver.
  - apply IH; [done|]. intros h' Hh'. apply Hseen. by right.
Qed.

Lemma removed_hosts_skip toRemove seen l k :
  (∀ h, h ∈ l → h ∉ toRemove) → removed_hosts toRemove seen (l ++ k) = removed_hosts toRemove seen k.
Proof.
  induction l as [|h l IH]; intros Hl; [done|]. cbn [app removed_hosts].
  rewrite bool_decide_eq_false_2 by (apply Hl; left). cbn. apply IH. set_solver.
Qed.

(** Live updates of the allow list. When the entries are trimmed, adding hosts
    appends exactly the trimmed, non-blank hosts that were not there, once each; each
    added host is then allowed (unless it is a blocked private address); and removing
    what was added reports exactly that and restores the list. *)
Theorem allow_list_updates {W} (env : host_env W) (e : Engine W) hosts added e1 :
  trimmed_list (nc_AllowedHosts (eng_config e)) →
  AddAllowedHosts e hosts = (added, e1) →
  AllowedHosts e1 = AllowedHosts e ++ added ∧ NoDup added ∧
  (∀ h, h ∈ added ↔ h ∈ TrimSpace <$> hosts ∧ h ≠ "" ∧ h ∉ AllowedHosts e) ∧
  (∀ h w, h ∈ added → contains_byte ":"%char h = false →
     (nc_BlockPrivateIPs (eng_config e) = true → isPrivateIP env h w = Some (false, w)) →
     IsHostAllowed env e1 h w = Some (true, w)) ∧
  ∃ e2, RemoveAllowedHosts e1 added = (added, e2) ∧ AllowedHosts e2 = AllowedHosts e.
Proof.
  unfold AddAllowedHosts. intros Htr. set (ex := list_to_set _). intros [= <- <-].
  destruct (new_hosts_spec ex hosts) as (Hat & Hnd & Hel). set (added := new_hosts ex hosts) in *.
  set (cur := nc_AllowedHosts (eng_config e)) in *.
  assert (Hcur : AllowedHosts e = cur) by (by apply trimmed_nonempty_id).
  assert (Hall : trimmed_list (cur ++ added)) by (by apply Forall_app).
  assert (Hex : ∀ h, h ∈ ex ↔ h ∈ cur).
  { intros h. unfold ex. rewrite elem_of_list_to_set. by rewrite trimmed_nonempty_id. }
  rewrite Hcur. split_and!.
  - unfold AllowedHosts. cbn. by apply trimmed_nonempty_id.
  - done.
  - intros h. rewrite Hel, Hex. tauto.
  - intros h w Hh Hcolon Hpriv.
    destruct (IsHostAllowed_public env (with_config (with_AllowedHosts (cur ++ added) (eng_config e)) e) h w)
      as (r & -> & Hr); [by rewrite host_part_plain|].
    rewrite host_part_plain in Hr by done. cbn in Hr.
    assert (r = true) as ->; [|done]. apply Hr. right. exists h. split; [set_solver|apply glob_refl].
  - clearbody added. unfold RemoveAllowedHosts, AllowedHosts.
    cbn -[trimmed_nonempty]. rewrite !trimmed_nonempty_id by done.
    destruct (decide (added = [])) as [Hnil|Hnn].
    { rewrite Hnil, app_nil_r. rewrite bool_decide_eq_true_2, orb_true_r by done.
      eexists. split; [done|]. by apply trimmed_nonempty_id. }
    assert (nonempty (cur ++ added) = true) as ->
      by (apply nonempty_true; intros [_ ?]%app_nil; done).
    assert (Hdis : ∀ h, h ∈ cur → h ∉ (list_to_set added : gset string)).
    { intros h Hh. rewrite elem_of_list_to_set, Hel, Hex. tauto. }
    rewrite bool_decide_eq_false_2
      by (destruct added as [|a l]; [done|]; intros Hempty; cbn in Hempty; set_solver).
    eexists. split; [f_equal|].
    + rewrite removed_hosts_skip by done. rewrite removed_hosts_all by set_solver.
      apply list_filter_all. intros h Hh. by apply elem_of_list_to_set.
    + cbn -[trimmed_nonempty]. rewrite filter_app, list_filter_all, list_filter_none.
      * rewrite app_nil_r. by apply trimmed_nonempty_id.
      * intros h Hh. rewrite elem_of_list_to_set. naive_solver.
      * done.
Qed.

Lemma allow_list_updates_witness :
  AllowedHosts (AddAllowedHosts (demo_engine demo_network) [" a.test "; "a.test"; ""; "*.b.test"]).2
    = ["a.test"; "*.b.test"] ∧
  ∃ e2, RemoveAllowedHosts (AddAllowedHosts (demo_engine demo_network) [" a.test "; "a.test"; ""; "*.b.test"]).2
          ["a.test"; "*.b.test"] = (["a.test"; "*.b.test"], e2) ∧ AllowedHosts e2 = [].
Proof.
  destruct (allow_list_updates demo_env (demo_engine demo_network) [" a.test "; "a.test"; ""; "*.b.test"]
              ["a.test"; "*.b.test"]
              (AddAllowedHosts (demo_engine demo_network) [" a.test "; "a.test"; ""; "*.b.test"]).2)
    as (Hl & _ & _ & _ & Hr).
  - constructor.
  - reflexivity.
  - split; [exact Hl|exact Hr].
Defined.

(** ** The path gate *)

(** In terms of strings: no key of the gate matches the host, or a matching key has a prefix of the path
    (or the prefix without its trailing slashes is the path). *)
Definition gate_open (gate : list (string * list string)) (host path : string) : Prop :=
  (∀ key prefixes, (key, prefixes) ∈ gate → ¬ glob key host) ∨
  ∃ key prefixes p, (key, prefixes) ∈ gate ∧ glob key host ∧ p ∈ prefixes ∧
    (path = TrimRightByte p "/"%char ∨ ∃ r, path = p +:+ r).

Lemma path_has_prefix_spec path p :
  path_has_prefix path p = true ↔ path = TrimRightByte p "/"%char ∨ ∃ r, path = p +:+ r.
Proof. unfold path_has_prefix. by rewrite orb_true_iff, bool_decide_eq_true, HasPrefix_spec. Qed.

Lemma path_gate_spec host path restricted gate :
  path_gate host path restricted gate = true ↔
  (restricted = false ∧ ∀ key prefixes, (key, prefixes) ∈ gate → ¬ glob key host) ∨
  ∃ key prefixes p, (key, prefixes) ∈ gate ∧ glob key host ∧ p ∈ prefixes ∧
    (path = TrimRightByte p "/"%char ∨ ∃ r, path = p +:+ r).
Proof.
  revert restricted. induction gate as [|[key prefixes] gate IH]; intros restricted; cbn [path_gate].
  { rewrite negb_true_iff. setoid_rewrite elem_of_nil. naive_solver. }
  pose proof (matchGlob_glob key host) as Hk. destruct (matchGlob key host).
  - destruct (existsb (path_has_prefix path) prefixes) eqn:E.
    + split; [intros _|done]. right. apply existsb_exists in E as (p & Hp & Hpp%path_has_prefix_spec).
      exists key, prefixes, p. rewrite list_elem_of_In. split_and!; [by left|tauto|by apply list_elem_of_In|done].
    + rewrite IH. setoid_rewrite elem_of_cons.
      assert (Hno : ∀ p, p ∈ prefixes → ¬ (path = TrimRightByte p "/"%char ∨ ∃ r, path = p +:+ r)).
      { intros p Hp Hpp%path_has_prefix_spec. apply not_true_iff_false in E. apply E, existsb_exists.
        exists p. split; [by apply list_elem_of_In|done]. }
      naive_solver.
  - rewrite IH. setoid_rewrite elem_of_cons. split.
    + intros [[Hr Hall]|Hex]; [left|right; naive_solver]. split; [done|].
      intros k ps [[= -> ->]|Hin]; [by intros ?%Hk|by eapply Hall].
    + intros [[Hr Hall]|(k & ps & p & [[= -> ->]|Hin] & Hg & Hp)];
        [left; eauto|by apply Hk in Hg|right; eauto 10].
Qed.

Lemma pathAllowedLocked_spec {W} (e : Engine W) host path :
  path ≠ "" →
  pathAllowedLocked e host path = true ↔ gate_open (nc_PathAllow (eng_config e)) host (Clean path).
Proof.
  intros Hp. unfold pathAllowedLocked, gate_open. rewrite decide_False by done.
  destruct (nc_PathAllow (eng_config e)) as [|kv gate] eqn:E; cbn [nonempty].
  - setoid_rewrite elem_of_nil. naive_solver.
  - rewrite path_gate_spec. naive_solver.
Qed.

(** A directory as it is written in a gate, with a slash at the end. *)
Definition dir_prefix (l : list string) : string := if decide (l = []) then "/" else abs_path l +:+ "/".

(** A gate of directories, and the configuration that says so. *)
Definition dirs_gate (gate : list (string * list (list string))) : list (string * list string) :=
  (λ kd : string * list (list string), (kd.1, dir_prefix <$> kd.2)) <$> gate.

(** What the gate is to let on: no key matches the host, or the path is, element by element, one of the
    directories of a matching key or below it. *)
Definition gate_admits (gate : list (string * list (list string))) (host : string) (k : list string) : Prop :=
  (∀ key dirs, (key, dirs) ∈ gate → ¬ glob key host) ∨
  ∃ key dirs l m, (key, dirs) ∈ gate ∧ glob key host ∧ l ∈ dirs ∧ k = l ++ m.

Lemma trim_dir a c : c ≠ slash → TrimRightByte ((a +:+ String c "") +:+ "/") slash = a +:+ String c "".
Proof.
  intros Hc. unfold TrimRightByte. rewrite !string_rev_sapp. change (string_rev "/") with "/". change (string_rev (String c "")) with (String c "").
  change ("/" +:+ (String c "" +:+ string_rev a)) with (String slash (String c (string_rev a))).
  cbn [drop_while_byte]. rewrite decide_True, decide_False by done. rewrite string_rev_cons. by rewrite string_rev_involutive.
Qed.

Lemma string_snoc x : x ≠ "" → ∃ a c, x = a +:+ String c "".
Proof.
  intros Hx. destruct (string_rev x) as [|c t] eqn:E; (apply (f_equal string_rev) in E; rewrite string_rev_involutive in E); [done|].
  exists (string_rev t), c. by rewrite E, string_rev_cons.
Qed.

Lemma abs_path_end l : Forall normal l → l ≠ [] → ∃ a c, abs_path l = a +:+ String c "" ∧ c ≠ slash.
Proof.
  intros Hl Hne. destruct l as [|x l _] using rev_ind; [done|]. apply Forall_app in Hl as [_ (Hx & _ & _ & Hs)%Forall_singleton].
  destruct (string_snoc x Hx) as (a & c & ->). rewrite contains_byte_app in Hs. apply orb_false_iff in Hs as [_ Hc].
  assert (c ≠ slash) by (intros ->; done). destruct (decide (l = [])) as [->|Hl'].
  - exists (String slash a), c. done.
  - exists (abs_path l +:+ String slash a), c. split; [|done]. rewrite abs_path_app by done. by rewrite sapp_assoc.
Qed.

(** A prefix that is a directory is a prefix of the paths below it. *)
Lemma dir_prefix_spec l k :
  Forall normal l → Forall normal k →
  (abs_path k = TrimRightByte (dir_prefix l) slash ∨ ∃ r, abs_path k = dir_prefix l +:+ r) ↔ ∃ m, k = l ++ m.
Proof.
  intros Hl Hk. unfold dir_prefix. destruct (decide (l = [])) as [->|Hne].
  { split; [by exists k|]. intros _. right. by exists (Join k "/"). }
  destruct (abs_path_end l Hl Hne) as (a & c & Hac & Hc). pose proof (HasPrefix_dir l k Hl Hk Hne) as Hp. rewrite HasPrefix_spec in Hp.
  rewrite Hp, Hac, trim_dir, <- Hac by done. split.
  - intros [Heq|(r & _ & ->)]; [|by exists r]. exists []. rewrite app_nil_r. by apply abs_path_inj.
  - intros (m & ->). destruct (decide (m = [])) as [->|Hm]; [left; by rewrite app_nil_r|right; by exists m].
Qed.

Lemma gate_dirs gate host k :
  Forall (λ kd : string * list (list string), Forall (Forall normal) kd.2) gate → Forall normal k →
  gate_open (dirs_gate gate) host (abs_path k) ↔ gate_admits gate host k.
Proof.
  intros Hg Hk. unfold gate_open, gate_admits, dirs_gate. rewrite Forall_forall in Hg.
  assert (Hin : ∀ key ps, (key, ps) ∈ (λ kd : string * list (list string), (kd.1, dir_prefix <$> kd.2)) <$> gate ↔
    ∃ dirs, (key, dirs) ∈ gate ∧ ps = dir_prefix <$> dirs).
  { intros key ps. rewrite list_elem_of_fmap. split; [by intros ([key' dirs] & [= -> ->] & ?); exists dirs|].
    intros (dirs & ? & ->). by exists (key, dirs). }
  setoid_rewrite Hin. split.
  - intros [Hno|(key & ps & p & (dirs & Hd & ->) & Hglob & Hp & Hpath)]; [left; intros key dirs Hd; by eapply Hno; exists dirs|right].
    apply list_elem_of_fmap in Hp as (l & -> & Hl). apply dir_prefix_spec in Hpath as (m & ->); [by exists key, dirs, l, m| |done].
    specialize (Hg _ Hd). cbn in Hg. rewrite Forall_forall in Hg. by apply Hg.
  - intros [Hno|(key & dirs & l & m & Hd & Hglob & Hl & ->)]; [left; intros key ps (dirs & Hd & ->); by eapply Hno|right].
    exists key, (dir_prefix <$> dirs), (dir_prefix l). split_and!; [by exists dirs|done|by apply list_elem_of_fmap_2|].
    apply dir_prefix_spec; [|done|by exists m]. specialize (Hg _ Hd). cbn in Hg. rewrite Forall_forall in Hg. by apply Hg.
Qed.

(** C33: The path gate judges the path the server would resolve, element by element. For a gate whose
    prefixes are directories, written with a slash at the end, and an absolute request path: the gate
    looks at the canonical path (no [..], no [.], no empty element), and lets the request on exactly
    when no gate key matches the host or the path is one of the directories of a matching key or below
    it, in whatever order the map is ranged over. Otherwise the request fails with ErrBlocked before any
    rule, callback or secret is looked at: it and the world are unchanged. *)
Theorem path_gate_exact {W} `{!Has secret_cache W} (env : host_env W) (e : Engine W) gate req u host w :
  nc_PathAllow (eng_config e) = dirs_gate gate → Forall (λ kd : string * list (list string), Forall (Forall normal) kd.2) gate →
  req_URL req = Some u → IsAbs (url_Path u) = true →
  ∃ k, Forall normal k ∧ Clean (url_Path u) = abs_path k ∧
    (pathAllowedLocked e (host_part host) (url_Path u) = true ↔ gate_admits gate (host_part host) k) ∧
    (¬ gate_admits gate (host_part host) k → OnRequest env e req host w = Some ((req, Some ErrBlocked), w)).
Proof.
  intros Hgate Hdirs Hu Habs. exists (clean_elems true (Split (url_Path u) slash)).
  pose proof (Clean_abs_eq _ Habs) as Hclean. pose proof (Clean_rooted _ Habs) as Hroot.
  assert (Hp : url_Path u ≠ "") by (intros E; by rewrite E in Habs).
  assert (Hk : Forall normal (clean_elems true (Split (url_Path u) slash))) by apply clean_elems_rooted, Split_no_sep.
  pose proof (pathAllowedLocked_spec e (host_part host) (url_Path u) Hp) as Hg. rewrite Hclean, Hgate, (gate_dirs gate _ _ Hdirs Hk) in Hg.
  split_and!; [done..|]. intros Hn. unfold OnRequest. rewrite Hu.
  destruct (pathAllowedLocked e (host_part host) (url_Path u)); [tauto|done].
Qed.

Definition demo_url (path : string) : URL := {|
  url_Scheme := ""; url_Opaque := ""; url_User := None; url_Host := ""; url_Path := path;
  url_RawPath := ""; url_OmitHost := false; url_ForceQuery := false; url_RawQuery := "";
  url_Fragment := ""; url_RawFragment := "" |}.

Definition demo_request (path : string) : http_Request := {|
  req_Method := "GET"; req_URL := Some (demo_url path); req_Header := ∅; req_Host := "";
  req_Body := ""; req_ContentLength := 0; req_Close := false |}.

Definition gated_network : NetworkConfig :=
  with_PathAllow [("api.example.com", ["/repos/ours/"])] demo_network.

(** Going up from an allowed directory is caught. *)
Lemma path_gate_exact_witness :
  OnRequest demo_env (demo_engine gated_network) (demo_request "/repos/ours/../theirs") "api.example.com" ∅
  = Some ((demo_request "/repos/ours/../theirs", Some ErrBlocked), ∅).
Proof.
  destruct (path_gate_exact demo_env (demo_engine gated_network) [("api.example.com", [["repos"; "ours"]])]
              (demo_request "/repos/ours/../theirs") (demo_url "/repos/ours/../theirs") "api.example.com" ∅)
    as (k & _ & Hk & Hiff & Hblocked); [vm_compute; reflexivity|repeat constructor; done|reflexivity|reflexivity|].
  apply Hblocked. rewrite <- Hiff. vm_compute. discriminate.
Defined.

(** Without the slash at its end a prefix is one of the siblings of its directory too. *)
Lemma path_gate_siblings :
  let e := demo_engine (with_PathAllow [("api.example.com", ["/repos/ours"])] demo_network) in
  pathAllowedLocked e "api.example.com" "/repos/ours-evil" = true ∧ pathAllowedLocked e "api.example.com" "/repos/theirs" = false.
Proof. vm_compute. done. Qed.

(** Host names are case-insensitive for the resolver and for servers, not for the gate:
    the same host in upper case matches no key, and is not restricted. *)
Theorem path_gate_case_bypass :
  pathAllowedLocked (demo_engine gated_network) "api.example.com" "/repos/theirs" = false ∧
  pathAllowedLocked (demo_engine gated_network) "API.example.com" "/repos/theirs" = true ∧
  (fst <$> IsHostAllowed demo_env (demo_engine gated_network) "API.example.com" ∅) = Some true.
Proof. vm_compute. done. Qed.

(** A configured entry with a space around it is reported as allowed, cannot be added
    again, and never matches. *)
Theorem untrimmed_entry_never_matches :
  let e := demo_engine (with_AllowedHosts [" a.test"] demo_network) in
  AllowedHosts e = ["a.test"] ∧ (AddAllowedHosts e ["a.test"]).1 = [] ∧
  (fst <$> IsHostAllowed demo_env (AddAllowedHosts e ["a.test"]).2 "a.test" ∅) = Some false.
Proof. vm_compute. done. Qed.

(** Removing the last allowed host opens the network: an empty list allows all. *)
Theorem removing_last_host_allows_all :
  let e := demo_engine (with_AllowedHosts ["a.test"] demo_network) in
  (fst <$> IsHostAllowed demo_env e "b.test" ∅) = Some false ∧
  (fst <$> IsHostAllowed demo_env (RemoveAllowedHosts e ["a.test"]).2 "b.test" ∅) = Some true.
Proof. vm_compute. done. Qed.

(** Of the addresses a name resolves to only the first is looked at: a name with a public
    and a private address passes. *)
Theorem only_first_address_checked :
  let env := {| env_ReadFile := env_ReadFile demo_env; env_Now := env_Now demo_env;
                env_LookupIP := λ _, mret (Some [[93; 184; 216; 34]; [10; 0; 0; 1]]) |} in
  in_private_range [10; 0; 0; 1] = true ∧
  (fst <$> IsHostAllowed env (demo_engine demo_network) "rebind.test" ∅) = Some true.
Proof. vm_compute. done. Qed.

(** ** Secrets go only where they may *)

Definition secret_covers (s : Secret) (host : string) : Prop := hosts_match (secret_Hosts s) host.

(** Two configurations of the secrets that differ at most in the values (and value
    files) of those that do not cover the host. *)
Definition scoped_alike (host : string) (a b : string * Secret) : Prop :=
  a.1 = b.1 ∧ secret_Placeholder a.2 = secret_Placeholder b.2 ∧ secret_Hosts a.2 = secret_Hosts b.2 ∧
  (secret_covers a.2 host → a.2 = b.2).

Lemma assoc_In {A} name (l : list (string * A)) s :
  NoDup l.*1 → (name, s) ∈ l → assoc name l = Some s.
Proof.
  induction l as [|[n t] l IH]; [by intros _ ?%elem_of_nil|]. cbn [fmap list_fmap fst assoc].
  intros [Hn Hnd]%NoDup_cons [[= -> ->]|Hin]%elem_of_cons; [by rewrite decide_True|].
  rewrite decide_False; [by apply IH|]. intros ->. apply Hn. apply list_elem_of_fmap. by exists (name, s).
Qed.

Lemma isSecretAllowed_spec {W} (e : Engine W) name s host :
  NoDup (nc_Secrets (eng_config e)).*1 → (name, s) ∈ nc_Secrets (eng_config e) →
  isSecretAllowedForHost e name host = true ↔ secret_covers s host.
Proof.
  intros Hnd Hin. unfold isSecretAllowedForHost, secret_covers, hosts_match.
  rewrite (assoc_In name _ s) by done. destruct (secret_Hosts s) as [|p ps]; cbn [nonempty]; [naive_solver|].
  rewrite existsb_glob. naive_solver.
Qed.

Definition with_engine_secrets {W} (ss : list (string * Secret)) (e : Engine W) : Engine W :=
  with_config (with_Secrets ss (eng_config e)) e.

Section noninterference.
Context {W : Type} `{!Has secret_cache W} (env1 env2 : host_env W) (host : string).
Hypothesis same_clock : env_Now env1 ≡ₘ env_Now env2.

(** The two hosts hold the same file where the secret keeps its value. *)
Definition same_value_file (s : Secret) : Prop :=
  env_ReadFile env1 (secret_ValueFile s) ≡ₘ env_ReadFile env2 (secret_ValueFile s).

Lemma resolveSecretValue_same name s :
  same_value_file s → resolveSecretValue env1 name s ≡ₘ resolveSecretValue env2 name s.
Proof.
  intros Hf. unfold resolveSecretValue. case_decide; [done|].
  apply meq_bind; [done|]. intros cache. apply meq_bind.
  { destruct (match _ !! _ with Some _ => _ | None => _ end); [|done]. by apply meq_bind. }
  intros fresh. destruct (match _ !! _ with Some _ => _ | None => _ end) as [ent|]; [destruct fresh; [done|]|];
    (apply meq_bind; [exact Hf|]; intros [data|err]; [by apply meq_bind|done]).
Qed.

Lemma apply_secrets_same e1 e2 l1 l2 req :
  (∀ name s, (name, s) ∈ l1 →
     (isSecretAllowedForHost e1 name host = true ↔ secret_covers s host) ∧
     isSecretAllowedForHost e2 name host = isSecretAllowedForHost e1 name host ∧
     (secret_covers s host → same_value_file s)) →
  Forall2 (scoped_alike host) l1 l2 →
  apply_secrets env1 e1 host l1 req ≡ₘ apply_secrets env2 e2 host l2 req.
Proof.
  intros Hl Hall. revert req Hl. induction Hall as [|[n1 s1] [n2 s2] l1 l2 (Hn & Hp & Hh & Hs) _ IH];
    intros req Hl; [done|]. cbn in Hn, Hp, Hh, Hs. subst n2. cbn [apply_secrets].
  destruct (Hl n1 s1) as (Hiff & Hsame & Hf); [by left|]. rewrite Hsame.
  assert (Hl' : ∀ req, apply_secrets env1 e1 host l1 req ≡ₘ apply_secrets env2 e2 host l2 req).
  { intros r. apply IH. intros name s Hin. apply Hl. by right. }
  destruct (isSecretAllowedForHost e1 n1 host) eqn:E.
  - assert (Hc : secret_covers s1 host) by tauto. rewrite <- (Hs Hc).
    apply meq_bind; [by apply resolveSecretValue_same, Hf|]. intros [v|]; apply Hl'.
  - rewrite <- Hp. case_match; [done|apply Hl'].
Qed.
End noninterference.

Lemma isSecretAllowed_alike {W} (e : Engine W) ss name host host' :
  Forall2 (scoped_alike host') (nc_Secrets (eng_config e)) ss →
  isSecretAllowedForHost (with_engine_secrets ss e) name host = isSecretAllowedForHost e name host.
Proof.
  unfold isSecretAllowedForHost, with_engine_secrets. cbn.
  induction 1 as [|[n1 s1] [n2 s2] l1 l2 (Hn & _ & Hh & _) _ IH]; [done|]. cbn in Hn, Hh. subst n2.
  cbn [assoc]. case_decide; [by rewrite Hh|done].
Qed.

(** C10: A secret value never influences what is sent to a host it is not meant for. Take
    two configurations that differ only in the values and value files of secrets whose
    host patterns do not match the request's host, and two machines that differ only in
    the contents of those files. Then [OnRequest] does the same on both: the same
    request goes out (headers, URL, body), the same callbacks are made with the same
    data, the same error is returned, and the same world is left. *)
Theorem secret_noninterference {W} `{!Has secret_cache W} (env1 env2 : host_env W) (e : Engine W) ss req host :
  NoDup (nc_Secrets (eng_config e)).*1 →
  Forall2 (scoped_alike (host_part host)) (nc_Secrets (eng_config e)) ss →
  env_Now env1 ≡ₘ env_Now env2 →
  (∀ name s, (name, s) ∈ nc_Secrets (eng_config e) → secret_covers s (host_part host) →
     same_value_file env1 env2 s) →
  ∀ w, OnRequest env1 e req host w = OnRequest env2 (with_engine_secrets ss e) req host w.
Proof.
  intros Hnd Hall Hnow Hfiles w. unfold OnRequest.
  change (pathAllowedLocked (with_engine_secrets ss e)) with (pathAllowedLocked e).
  destruct (match req_URL req with Some u => _ | None => _ end); [done|]. revert w.
  apply meq_bind; [done|]. intros [r [err|]]; [done|].
  apply apply_secrets_same; [done| |done]. intros name s Hin. split_and!.
  - by apply isSecretAllowed_spec.
  - by eapply isSecretAllowed_alike.
  - by apply (Hfiles name).
Qed.

Definition demo_secret (value : string) (hosts : list string) : Secret := {|
  secret_Value := value; secret_Placeholder := generatePlaceholder "0123456789abcdef";
  secret_Hosts := hosts; secret_ValueFile := "" |}.

Lemma secret_noninterference_witness :
  let e v := demo_engine (with_Secrets [("K", demo_secret v ["api.test"])] demo_network) in
  OnRequest demo_env (e "one") (demo_request "/") "evil.test" ∅
  = OnRequest demo_env (e "two") (demo_request "/") "evil.test" ∅.
Proof.
  intros e. apply (secret_noninterference demo_env demo_env (e "one")
                       [("K", demo_secret "two" ["api.test"])]).
  - apply NoDup_singleton.
  - constructor; [|constructor]. split_and!; [done..|].
    intros [Hc|(p & Hp & Hg)]; [discriminate Hc|]. apply list_elem_of_singleton in Hp as ->.
    exfalso. apply matchGlob_glob in Hg. vm_compute in Hg. done.
  - reflexivity.
  - by intros name s _ _.
Defined.
