(* ===== verification/PolicyLeak.v ===== *)
(** * Placeholders that leak are caught

    [OnRequest] refuses a request that carries a placeholder of a secret its host may
    not have, while it substitutes the placeholders of the others one after the other.
    The order is that of a Go map, so the refusal must not depend on it: substituting
    one placeholder must not hide another. For placeholders the engine generates this
    holds, and is proved here: two of them never overlap in a string, an occurrence of
    one therefore survives the replacement of another in header values, Basic
    credentials (through base64) and URLs. *)

From S2P Require Import Prelude GoStrings GoStd GoPath GoURL VfsBase Api PolicyGlob PolicyRules PolicyEngine PolicySpec.

(** ** Replacement keeps what it does not overlap *)

(** Wherever [a] and [b] occur in one string, they do not share a byte. *)
Definition no_overlap (a b : string) : Prop :=
  ∀ x1 y1 x2 y2, x1 +:+ (a +:+ y1) = x2 +:+ (b +:+ y2) →
    (slen x1 + slen a <= slen x2)%nat ∨ (slen x2 + slen b <= slen x1)%nat.

Lemma replace_nonempty_skip k s old new :
  replace_nonempty k s old new = replace_nonempty O (string_drop k s) old new.
Proof.
  revert k. induction s as [|c s IH]; intros [|k]; [done..|]. cbn [string_drop].
  rewrite <- IH. done.
Qed.

Lemma slen_pos s : s ≠ "" → (0 < slen s)%nat.
Proof. destruct s; [done|]. intros _. rewrite slen_cons. lia. Qed.

Lemma replace_keeps_apart old new b y :
  (∀ u w, b = u +:+ w → w ≠ "" → HasPrefix (w +:+ y) old = false) →
  replace_nonempty O (b +:+ y) old new = b +:+ replace_nonempty O y old new.
Proof.
  induction b as [|c b IH]; intros Hb; [done|]. rewrite !sapp_cons. cbn [replace_nonempty].
  rewrite <- sapp_cons, (Hb "" (String c b)) by done. f_equal. apply IH.
  intros u w -> Hw. by apply (Hb (String c u)).
Qed.

Lemma replace_keeps old new b s :
  old ≠ "" → b ≠ "" → no_overlap old b → Contains s b = true →
  Contains (replace_nonempty O s old new) b = true.
Proof.
  intros Hold Hb Hno. rewrite !Contains_spec. intros (x & y & ->).
  remember (slen x) as n eqn:Hn. revert x y Hn.
  induction n as [n IH] using lt_wf_ind. intros x y ->.
  destruct x as [|c x].
  - rewrite sapp_nil_l, replace_keeps_apart; [by exists "", (replace_nonempty O y old new)|].
    intros u w Huw Hw. apply HasPrefix_false. intros r Hr.
    destruct (Hno u r "" y) as [Hl|Hl].
    + by rewrite sapp_nil_l, Huw, sapp_assoc, Hr.
    + apply slen_pos in Hold. change (slen "") with 0%nat in Hl. lia.
    + rewrite Huw, slen_app in Hl. apply slen_pos in Hw. change (slen "") with 0%nat in Hl. lia.
  - rewrite sapp_cons. cbn [replace_nonempty]. rewrite <- sapp_cons.
    destruct (HasPrefix (String c x +:+ (b +:+ y)) old) eqn:Hp.
    + apply HasPrefix_spec in Hp as (r & Hr). destruct (Hno "" r (String c x) y) as [Hl|Hl]; [done| |].
      * destruct (sapp_split_le old r (String c x) (b +:+ y)) as (x' & Hx & ->); [done|exact Hl|].
        rewrite replace_nonempty_skip.
        assert (Hdrop : string_drop (Nat.pred (slen old)) (x +:+ (b +:+ y)) = x' +:+ (b +:+ y)).
        { destruct old as [|o old]; [done|]. rewrite sapp_cons in Hx. injection Hx as -> ->.
          rewrite slen_cons. cbn [Nat.pred]. by rewrite sapp_assoc, string_drop_app. }
        rewrite Hdrop. destruct (IH (slen x')) with (x := x') (y := y) as (p & q & Hpq); [|done|].
        { apply (f_equal slen) in Hx. rewrite slen_app, slen_cons in Hx. apply slen_pos in Hold.
          rewrite slen_cons. lia. }
        exists (new +:+ p), q. by rewrite Hpq, sapp_assoc.
      * apply slen_pos in Hb. change (slen "") with 0%nat in Hl. lia.
    + destruct (IH (slen x)) with (x := x) (y := y) as (p & q & Hpq); [rewrite slen_cons; lia|done|].
      exists (String c p), q. by rewrite sapp_cons, Hpq.
Qed.

Lemma ReplaceAll_keeps old new b s :
  old ≠ "" → b ≠ "" → no_overlap old b → Contains s b = true → Contains (ReplaceAll s old new) b = true.
Proof. intros Hold. unfold ReplaceAll. rewrite decide_False by done. by apply replace_keeps. Qed.

Lemma Contains_app_l x y b : Contains x b = true → Contains (x +:+ y) b = true.
Proof. rewrite !Contains_spec. intros (p & q & ->). exists p, (q +:+ y). by rewrite !sapp_assoc. Qed.

Lemma Contains_app_r x y b : Contains y b = true → Contains (x +:+ y) b = true.
Proof. rewrite !Contains_spec. intros (p & q & ->). exists (x +:+ p), q. by rewrite !sapp_assoc. Qed.

(** An occurrence does not straddle a byte it does not have. *)
Lemma Contains_around x c y b :
  contains_byte c b = false → Contains (x +:+ String c y) b = true →
  Contains x b = true ∨ Contains y b = true.
Proof.
  intros Hc. rewrite !Contains_spec. intros (p & q & Heq).
  destruct (decide (slen p + slen b <= slen x)%nat) as [Hl|Hl].
  - left. destruct (sapp_split_le (p +:+ b) q x (String c y)) as (e & -> & _).
    + by rewrite sapp_assoc.
    + by rewrite slen_app.
    + exists p, e. by rewrite sapp_assoc.
  - right. destruct (decide (slen p <= slen x)%nat) as [Hp|Hp].
    + exfalso. destruct (sapp_split_le p (b +:+ q) x (String c y)) as (e & -> & He); [done|done|].
      rewrite slen_app in Hl. destruct (sapp_split_le e (String c y) b q) as (f & -> & Hf); [done|lia|].
      destruct f as [|d f].
      { rewrite sapp_nil_r in Hl. lia. }
      rewrite sapp_cons in Hf. injection Hf as -> _. rewrite contains_byte_app in Hc. cbn in Hc.
      rewrite bool_decide_eq_true_2 in Hc by done. by rewrite orb_true_r in Hc.
    + destruct (sapp_split_le x (String c y) p (b +:+ q)) as (e & -> & He); [done|lia|].
      destruct e as [|d e]; [rewrite slen_app in Hp; change (slen "") with 0%nat in Hp; lia|].
      rewrite sapp_cons in He. injection He as <- ->. by exists e, q.
Qed.

Lemma Contains_nonempty s b : b ≠ "" → Contains s b = true → s ≠ "".
Proof.
  intros Hb H ->. apply Contains_spec in H as (x & y & H). symmetry in H.
  by apply sapp_eq_nil in H as [_ [? _]%sapp_eq_nil].
Qed.

(** ** Generated placeholders *)

Definition generated (p : string) : Prop :=
  ∃ random, slen random = 16%nat ∧ p = generatePlaceholder random.

(** No capital S in hexadecimal. *)
Lemma hex_no_S s : contains_byte "S"%char (hex_EncodeToString s) = false.
Proof.
  induction s as [|c s IH]; [done|]. cbn [hex_EncodeToString contains_byte].
  assert (Hd : ∀ n, 0 <= n < 16 → hex_digit n ≠ "S"%char).
  { intros n Hn Heq. apply (f_equal code) in Heq. unfold hex_digit in Heq.
    rewrite code_chr in Heq by (case_match; lia). change (code "S") with 83 in Heq. case_match; lia. }
  pose proof (code_range c) as Hc.
  rewrite !bool_decide_eq_false_2, IH; [done|..]; apply Hd; Z.to_euclidean_division_equations; lia.
Qed.

Lemma slen_hex s : slen (hex_EncodeToString s) = (2 * slen s)%nat.
Proof. induction s as [|c s IH]; [done|]. cbn [hex_EncodeToString]. rewrite !slen_cons, IH. lia. Qed.

Lemma generated_shape p : generated p → ∃ h, p = GeneratedSecretPlaceholderPrefix +:+ h ∧
  slen h = 32%nat ∧ contains_byte "S"%char h = false.
Proof.
  intros (r & Hr & ->). exists (hex_EncodeToString r). split_and!; [done| |apply hex_no_S].
  rewrite slen_hex. lia.
Qed.

Lemma generated_nonempty p : generated p → p ≠ "".
Proof. by intros (h & -> & _)%generated_shape. Qed.

Lemma contains_byte_no_prefix c e s h : contains_byte c h = false → h ≠ e +:+ String c s.
Proof.
  intros Hc ->. rewrite contains_byte_app in Hc. cbn in Hc.
  rewrite bool_decide_eq_true_2 in Hc by done. by rewrite orb_true_r in Hc.
Qed.

(** A generated placeholder starts nowhere inside another one: the second S of the
    common prefix is followed by a different letter than the first. *)
Lemma generated_inside e f h :
  contains_byte "S"%char h = false → e ≠ "" →
  GeneratedSecretPlaceholderPrefix +:+ h = e +:+ String "S" f →
  e = "SANDBOX_" ∧ f = "ECRET_" +:+ h.
Proof.
  intros Hh He Heq. unfold GeneratedSecretPlaceholderPrefix in Heq.
  do 15 (destruct e as [|? e];
    [rewrite ?sapp_nil_l in Heq; rewrite ?sapp_cons in Heq; simplify_eq; done
    |rewrite ?sapp_cons in Heq; injection Heq as <- Heq]).
  rewrite sapp_nil_l in Heq. by apply contains_byte_no_prefix in Heq.
Qed.

Lemma generated_apart_from_left e p q y1 y2 :
  generated p → generated q → p ≠ q → p +:+ y1 = e +:+ (q +:+ y2) → (slen p <= slen e)%nat.
Proof.
  intros (h & -> & Hh & HS)%generated_shape (h' & -> & Hh' & _)%generated_shape Hne Heq.
  destruct (decide (slen (GeneratedSecretPlaceholderPrefix +:+ h) <= slen e)%nat) as [|Hl]; [done|exfalso].
  destruct (sapp_split_le e ((GeneratedSecretPlaceholderPrefix +:+ h') +:+ y2)
              (GeneratedSecretPlaceholderPrefix +:+ h) y1) as (f & Hf & Hrest); [done|lia|].
  destruct (decide (e = "")) as [->|He].
  { rewrite sapp_nil_l in Heq. apply sapp_inj_len in Heq as [? _]; [done|]. by rewrite !slen_app, Hh, Hh'. }
  destruct f as [|c f].
  { rewrite sapp_nil_r in Hf. rewrite Hf in Hl. lia. }
  assert (c = "S"%char) as ->.
  { unfold GeneratedSecretPlaceholderPrefix in Hrest. rewrite !sapp_cons in Hrest. by injection Hrest. }
  destruct (generated_inside e f h HS He Hf) as [_ ->].
  unfold GeneratedSecretPlaceholderPrefix in Hrest. rewrite !sapp_cons in Hrest. discriminate Hrest.
Qed.

Lemma generated_no_overlap p q : generated p → generated q → p ≠ q → no_overlap p q.
Proof.
  intros Hp Hq Hne x1 y1 x2 y2 Heq.
  destruct (decide (slen x1 <= slen x2)%nat) as [Hl|Hl].
  - left. destruct (sapp_split_le x1 (p +:+ y1) x2 (q +:+ y2)) as (e & -> & He); [done|done|].
    rewrite slen_app. apply generated_apart_from_left in He; [lia|done..].
  - right. destruct (sapp_split_le x2 (q +:+ y2) x1 (p +:+ y1)) as (e & -> & He); [done|lia|].
    rewrite slen_app. apply generated_apart_from_left in He; [lia|done..].
Qed.

Lemma generated_has_underscore p : generated p → contains_byte "_"%char p = true.
Proof. intros (h & -> & _)%generated_shape. by rewrite contains_byte_app. Qed.

(** ** Basic credentials have no underscore *)

Definition no_underscore (s : string) : Prop := contains_byte "_"%char s = false.


(** Case folding keeps an underscore, and makes none disappear. *)
Lemma fold_case_keeps s : contains_byte "_"%char s = true → contains_byte "_"%char (fold_case s) = true.
Proof.
  assert (Hl : ∀ c, bool_decide (c = "_"%char) = true → bool_decide (lower_byte c = "_"%char) = true)
    by (intros c ->%bool_decide_eq_true; done).
  assert (Hne : ∀ c x, code c =? x = true → x ≠ 95 → bool_decide (c = "_"%char) = false).
  { intros c x Hc%Z.eqb_eq Hx. apply bool_decide_eq_false. intros ->. done. }
  induction s as [s IH] using string_length_ind. revert IH.
  destruct s as [|a [|b [|c s]]]; intros IH; [done|..]; cbn [fold_case].
  - cbn. rewrite !orb_false_r. apply Hl.
  - case_match eqn:E.
    + apply andb_true_iff in E as [Ea Eb]. cbn [contains_byte]. by rewrite (Hne a _ Ea), (Hne b _ Eb).
    + cbn [contains_byte]. rewrite !orb_false_r, !orb_true_iff. intros [?%Hl|?%Hl]; tauto.
  - assert (Hgen : contains_byte "_" (String a (String b (String c s))) = true →
              contains_byte "_" (String (lower_byte a) (fold_case (String b (String c s)))) = true).
    { specialize (IH (String b (String c s)) ltac:(rewrite !slen_cons; lia)). cbn [contains_byte] in *.
      intros [Ha|Hrest]%orb_true_iff; [by rewrite (Hl a Ha)|]. rewrite IH by done. apply orb_true_r. }
    destruct ((code a =? 197) && (code b =? 191)) eqn:E.
    + apply andb_true_iff in E as [Ea Eb]. specialize (IH (String c s) ltac:(rewrite !slen_cons; lia)).
      cbn [contains_byte] in IH |- *. rewrite (Hne a _ Ea), (Hne b _ Eb) by done. cbn [orb]. intros Hc.
      by apply IH.
    + destruct ((code a =? 226) && (code b =? 132) && (code c =? 170)) eqn:E3; [|exact Hgen].
      rewrite !andb_true_iff in E3. destruct E3 as [[Ea Eb] Ec]. specialize (IH s ltac:(rewrite !slen_cons; lia)).
      cbn [contains_byte] in IH |- *. rewrite (Hne a _ Ea), (Hne b _ Eb), (Hne c _ Ec) by done. cbn [orb].
      intros Hc. by apply IH.
Qed.

Lemma decodeBasicAuthHeader_no_underscore v d : decodeBasicAuthHeader v = Some d → no_underscore v.
Proof.
  unfold decodeBasicAuthHeader, no_underscore.
  destruct (Cut v " ") as [[prefix encoded]|] eqn:Ev; [|done]. cbn [mbind option_bind].
  apply Cut_Some in Ev as [-> _]. destruct (EqualFold _ _) eqn:Ef; [|done].
  case_decide as He; [done|]. intros Hd. rewrite contains_byte_app. cbn [contains_byte].
  apply orb_false_iff. split.
  - rewrite <- (TrimSpace_keeps "_" prefix) by done. apply not_true_iff_false. intros Hc%fold_case_keeps.
    unfold EqualFold in Ef. apply bool_decide_eq_true in Ef. by rewrite Ef in Hc.
  - rewrite bool_decide_eq_false_2 by done. cbn. rewrite <- (TrimSpace_keeps "_" encoded) by done.
    rewrite <- strip_newlines_keeps by done.
    unfold b64_decode_std, b64_decode_raw in Hd.
    destruct (b64_groups true (strip_newlines (TrimSpace encoded))) eqn:E1;
      [by eapply b64_groups_alphabet in E1|by eapply b64_groups_alphabet in Hd].
Qed.

(** Credentials the proxy writes are read back as they are. *)
Lemma decodeBasicAuthHeader_scheme scheme d :
  contains_byte " " scheme = false → EqualFold (TrimSpace scheme) "Basic" = true → d ≠ "" →
  decodeBasicAuthHeader (scheme +:+ (" " +:+ b64_encode d)) = Some d.
Proof.
  intros Hs Hb Hd. unfold decodeBasicAuthHeader. change (" " +:+ ?x) with (String " " x).
  rewrite Cut_app by done. cbn [mbind option_bind]. rewrite Hb, TrimSpace_plain by apply b64_encode_plain.
  rewrite decide_False by (by apply b64_encode_nonempty). by rewrite b64_roundtrip.
Qed.

Lemma decodeBasicAuthHeader_encode d : d ≠ "" → decodeBasicAuthHeader ("Basic " +:+ b64_encode d) = Some d.
Proof. by apply (decodeBasicAuthHeader_scheme "Basic"). Qed.

Lemma hex_alnum c r : contains_byte c (hex_EncodeToString r) = true → is_alnum c = true.
Proof.
  assert (Hd : ∀ n, 0 <= n < 16 → is_alnum (hex_digit n) = true).
  { intros n Hn. assert (Hall : forallb (λ n, is_alnum (hex_digit n)) (seqZ 0 16) = true) by (vm_compute; done).
    rewrite forallb_forall in Hall. apply Hall, list_elem_of_In, elem_of_seqZ. lia. }
  induction r as [|d r IH]; [done|]. cbn [hex_EncodeToString contains_byte].
  pose proof (code_range d) as Hr. rewrite !orb_true_iff, !bool_decide_eq_true.
  intros [<-|[<-|H]]; [apply Hd|apply Hd|by apply IH]; Z.to_euclidean_division_equations; lia.
Qed.

(** ** Substituting one placeholder does not hide another *)

Section keeps.
Context (p q value : string).
Hypothesis p_gen : generated p.
Hypothesis q_gen : generated q.
Hypothesis distinct : p ≠ q.

Lemma ReplaceAll_keeps_generated s : Contains s q = true → Contains (ReplaceAll s p value) q = true.
Proof. apply ReplaceAll_keeps; auto using generated_nonempty, generated_no_overlap. Qed.

Lemma Contains_underscore s : Contains s q = true → contains_byte "_"%char s = true.
Proof.
  rewrite Contains_spec. intros (x & y & ->). rewrite !contains_byte_app.
  by rewrite (generated_has_underscore q q_gen), orb_true_r.
Qed.

Lemma replace_value_keeps v :
  value_has_placeholder q v = true → value_has_placeholder q (replace_value p value v) = true.
Proof.
  unfold value_has_placeholder, replace_value, basicValueContainsPlaceholder, replaceBasicAuthPlaceholder.
  destruct (decodeBasicAuthHeader v) as [d|] eqn:Ed; cbn [mbind option_bind].
  - pose proof (decodeBasicAuthHeader_no_underscore v d Ed) as Hu. unfold no_underscore in Hu.
    assert (Hv : Contains v q = false).
    { apply not_true_iff_false. intros H%Contains_underscore. congruence. }
    assert (Hp : Contains v p = false).
    { apply not_true_iff_false. rewrite Contains_spec. intros (x & y & ->).
      rewrite !contains_byte_app, (generated_has_underscore p p_gen), orb_true_r in Hu. done. }
    rewrite Hv, Hp. cbn [orb]. intros Hd. destruct (Contains d p) eqn:Edp; cbn [default from_option id].
    + rewrite decodeBasicAuthHeader_encode.
      * by rewrite ReplaceAll_keeps_generated, orb_true_r.
      * apply (Contains_nonempty _ q), ReplaceAll_keeps_generated, Hd. by apply generated_nonempty.
    + by rewrite Ed, Hd, orb_true_r.
  - rewrite orb_false_r. intros Hv. destruct (Contains v p) eqn:Ep.
    + by rewrite ReplaceAll_keeps_generated.
    + cbn. by rewrite Hv.
Qed.

Lemma generated_no_byte c : contains_byte c q = true → is_alnum c || bool_decide (c = "_"%char) = true.
Proof.
  destruct q_gen as (r & _ & ->). unfold generatePlaceholder. rewrite contains_byte_app, orb_true_iff.
  intros [H|H].
  - unfold GeneratedSecretPlaceholderPrefix in H. cbn in H. rewrite !orb_true_iff, !bool_decide_eq_true in H.
    repeat (destruct H as [<-|H]; [done|]). done.
  - by rewrite (hex_alnum c r).
Qed.

Lemma generated_no_sep c : is_alnum c = false → c ≠ "_"%char → contains_byte c q = false.
Proof.
  intros Ha Hu. apply not_true_iff_false. intros H%generated_no_byte. rewrite Ha in H. cbn in H.
  by apply bool_decide_eq_true in H.
Qed.

Lemma URL_String_keeps u :
  Contains (URL_String u) q = true → Contains (URL_String (replace_query p value u)) q = true.
Proof.
  unfold replace_query. destruct (Contains (url_RawQuery u) p) eqn:Ep; [|done].
  assert (Hne : url_RawQuery u ≠ "") by (apply (Contains_nonempty _ p); [by apply generated_nonempty|done]).
  set (raw := ReplaceAll (url_RawQuery u) p value).
  unfold URL_String. change (url_front (with_RawQuery raw u)) with (url_front u).
  change (url_fragment_part (with_RawQuery raw u)) with (url_fragment_part u).
  unfold url_query_part. cbn [url_RawQuery url_ForceQuery with_RawQuery].
  rewrite (bool_decide_eq_false_2 (url_RawQuery u = "")), orb_true_r by done.
  change ("?" +:+ ?x) with (String "?" x). rewrite sapp_cons.
  assert (Hqm : contains_byte "?" q = false) by (by apply generated_no_sep).
  intros [H|H]%Contains_around; [by apply Contains_app_l| |done].
  assert (Hsplit : Contains (url_RawQuery u) q = true ∨ Contains (url_fragment_part u) q = true).
  { unfold url_fragment_part in *. case_decide; [rewrite sapp_nil_r in H; by left|].
    change ("#" +:+ ?x) with (String "#" x) in *.
    apply Contains_around in H as [H|H]; [by left|right|by apply generated_no_sep].
    change (String "#" ?x) with ("#" +:+ x). by apply Contains_app_r. }
  apply Contains_app_r. destruct Hsplit as [H'|H']; [|by apply Contains_app_r].
  apply Contains_app_l. apply ReplaceAll_keeps_generated in H'. fold raw in H'.
  rewrite (bool_decide_eq_false_2 (raw = "")), orb_true_r
    by (apply (Contains_nonempty _ q); [by apply generated_nonempty|done]).
  change (String "?" raw) with ("?" +:+ raw). by apply Contains_app_r.
Qed.

Lemma replaceInRequest_keeps r :
  requestContainsPlaceholder r q = true → requestContainsPlaceholder (replaceInRequest r p value) q = true.
Proof.
  unfold requestContainsPlaceholder, replaceInRequest. cbn [req_Header req_URL with_URL with_Header].
  rewrite !orb_true_iff. intros [H|H].
  - left. apply existsb_exists in H as ([k vs] & Hin & Hv). apply existsb_exists.
    exists (k, replace_value p value <$> vs). split.
    + apply list_elem_of_In, elem_of_map_to_list. unfold replace_headers. rewrite lookup_fmap.
      apply list_elem_of_In, elem_of_map_to_list in Hin. by rewrite Hin.
    + cbn [snd] in *. apply existsb_exists in Hv as (v & Hvin & Hv). apply existsb_exists.
      exists (replace_value p value v). split; [by apply in_map|by apply replace_value_keeps].
  - right. destruct (req_URL r) as [u|]; [|done]. cbn. by apply URL_String_keeps.
Qed.
End keeps.

Lemma apply_secrets_leak {W} `{!Has secret_cache W} (env : host_env W) (e : Engine W) host name s l req w r err w' :
  (name, s) ∈ l → isSecretAllowedForHost e name host = false → generated (secret_Placeholder s) →
  (∀ n t, (n, t) ∈ l → isSecretAllowedForHost e n host = true →
     generated (secret_Placeholder t) ∧ secret_Placeholder t ≠ secret_Placeholder s) →
  requestContainsPlaceholder req (secret_Placeholder s) = true →
  apply_secrets env e host l req w = Some ((r, err), w') → err = Some ErrSecretLeak.
Proof.
  intros Hin Hden Hgen. revert req w. induction l as [|[n t] l IH]; intros req w Hl Hreq Hrun.
  { by apply elem_of_nil in Hin. }
  assert (Hl' : ∀ n' t', (n', t') ∈ l → isSecretAllowedForHost e n' host = true →
                  generated (secret_Placeholder t') ∧ secret_Placeholder t' ≠ secret_Placeholder s).
  { intros n' t' Hnt. apply Hl. by right. }
  cbn [apply_secrets] in Hrun. apply elem_of_cons in Hin as [[= <- <-]|Hin].
  - rewrite Hden, Hreq in Hrun. apply M_ret_Some in Hrun as [[= -> ->] _]. done.
  - destruct (isSecretAllowedForHost e n host) eqn:E.
    + destruct (Hl n t) as [Hg Hne]; [by left|done|].
      apply M_bind_Some in Hrun as (v & w1 & _ & Hrun). destruct v as [v|].
      * eapply (IH Hin); [done| |exact Hrun]. by apply replaceInRequest_keeps.
      * by eapply (IH Hin).
    + case_match; [by apply M_ret_Some in Hrun as [[= -> ->] _]|]. by eapply (IH Hin).
Qed.

(** What it means that a request carries a string: a header value contains it; the
    credentials of a Basic header do, before their encoding; or the URL does. *)
Inductive carries (r : http_Request) (p : string) : Prop :=
| carries_header k values a b :
    req_Header r !! k = Some values → a +:+ (p +:+ b) ∈ values → carries r p
| carries_basic k values scheme a b :
    contains_byte " " scheme = false → EqualFold (TrimSpace scheme) "Basic" = true →
    req_Header r !! k = Some values → scheme +:+ (" " +:+ b64_encode (a +:+ (p +:+ b))) ∈ values → carries r p
| carries_url u a b : req_URL r = Some u → URL_String u = a +:+ (p +:+ b) → carries r p.

Lemma header_value_found r p k values v :
  req_Header r !! k = Some values → v ∈ values → value_has_placeholder p v = true →
  requestContainsPlaceholder r p = true.
Proof.
  intros Hk Hv Hp. unfold requestContainsPlaceholder. apply orb_true_iff. left. apply existsb_exists.
  exists (k, values). split; [by apply list_elem_of_In, elem_of_map_to_list|]. apply existsb_exists.
  exists v. split; [by apply list_elem_of_In|done].
Qed.

Lemma carries_found r p : p ≠ "" → carries r p → requestContainsPlaceholder r p = true.
Proof.
  intros Hp [k values a b Hk Hv|k values scheme a b Hs Hb Hk Hv|u a b Hu Hs].
  - eapply header_value_found; [done|exact Hv|]. unfold value_has_placeholder.
    by rewrite (proj2 (Contains_spec _ _)) by eauto.
  - eapply header_value_found; [done|exact Hv|]. unfold value_has_placeholder, basicValueContainsPlaceholder.
    assert (Hne : a +:+ (p +:+ b) ≠ "") by (by intros [_ [? _]%sapp_eq_nil]%sapp_eq_nil).
    rewrite decodeBasicAuthHeader_scheme by done. rewrite (proj2 (Contains_spec (a +:+ (p +:+ b)) p)) by eauto.
    by rewrite orb_true_r.
  - unfold requestContainsPlaceholder. rewrite Hu, Hs, (proj2 (Contains_spec _ _)) by eauto. by rewrite orb_true_r.
Qed.

(** C9: A leaking placeholder is always caught. Let the secrets of a configuration have
    generated, pairwise different placeholders, and take a request that the path gate
    admits, as the rules and callbacks leave it if they do not refuse it. If a header
    value, the credentials of a Basic header, or the URL contains the placeholder of a
    secret its host may not have, and [OnRequest] returns, it fails with ErrSecretLeak,
    in whatever order the map of secrets is ranged over and whatever values are
    substituted for other placeholders before. *)
Theorem leak_caught {W} `{!Has secret_cache W} (env : host_env W) (e : Engine W) req host w r w1 name s :
  NoDup (nc_Secrets (eng_config e)).*1 →
  (∀ n t, (n, t) ∈ nc_Secrets (eng_config e) → generated (secret_Placeholder t)) →
  (∀ n t, (n, t) ∈ nc_Secrets (eng_config e) → secret_Placeholder t = secret_Placeholder s → n = name) →
  (∀ u, req_URL req = Some u → pathAllowedLocked e (host_part host) (url_Path u) = true) →
  applyBeforeNetworkRules (eng_networkHook e) (eng_networkRules e) req (host_part host) w = Some ((r, None), w1) →
  (name, s) ∈ nc_Secrets (eng_config e) → ¬ secret_covers s (host_part host) →
  carries r (secret_Placeholder s) →
  ∀ r' err w', OnRequest env e req host w = Some ((r', err), w') → err = Some ErrSecretLeak.
Proof.
  intros Hnd Hgen Hinj Hpath Hrules Hin Hden Hreq r' err w'. unfold OnRequest.
  assert (Hgate : match req_URL req with
                  | Some u => negb (pathAllowedLocked e (host_part host) (url_Path u)) | None => false end = false).
  { destruct (req_URL req) as [u|]; [|done]. by rewrite (Hpath u). }
  apply carries_found in Hreq; [|by eapply generated_nonempty, Hgen].
  rewrite Hgate. intros ([r2 err2] & w2 & Hrun & Hrest)%M_bind_Some. rewrite Hrules in Hrun.
  injection Hrun as <- <- <-. cbn in Hrest.
  assert (Hd : isSecretAllowedForHost e name (host_part host) = false).
  { apply not_true_iff_false. by rewrite (isSecretAllowed_spec e name s) by done. }
  eapply apply_secrets_leak; [exact Hin|exact Hd|by eapply Hgen| |exact Hreq|exact Hrest].
  intros n t Hnt Hall. split; [by eapply Hgen|]. intros Heq. rewrite (Hinj n t Hnt Heq) in Hall. congruence.
Qed.

(** A header with the credentials of a secret for another host. *)
Definition demo_leak : http_Request :=
  with_Header {["Authorization" := ["Basic " +:+ b64_encode ("user:" +:+ generatePlaceholder "0123456789abcdef")]]}
    (demo_request "/").

Definition outcome_error {W} (r : option (http_Request * option policy_error * W)) : option (option policy_error) :=
  (λ x, x.1.2) <$> r.

Definition option_is_Some {A} (o : option A) : bool := match o with Some _ => true | None => false end.

Definition scoped_engine : Engine secret_cache :=
  demo_engine (with_Secrets [("K", demo_secret "value" ["api.test"])] demo_network).

Lemma leak_caught_witness :
  outcome_error (OnRequest demo_env scoped_engine demo_leak "evil.test" ∅) = Some (Some ErrSecretLeak).
Proof.
  assert (Hsome : option_is_Some (outcome_error (OnRequest demo_env scoped_engine demo_leak "evil.test" ∅)) = true)
    by (vm_compute; reflexivity).
  destruct (OnRequest demo_env scoped_engine demo_leak "evil.test" ∅) as [[[r' err] w']|] eqn:Hrun; [|discriminate Hsome].
  cbn. f_equal.
  refine (leak_caught demo_env scoped_engine demo_leak "evil.test" ∅ demo_leak ∅ "K" (demo_secret "value" ["api.test"])
           _ _ _ _ _ _ _ _ r' err w' Hrun).
  - apply NoDup_singleton.
  - intros n t [= -> ->]%list_elem_of_singleton. exists "0123456789abcdef". split; reflexivity.
  - by intros n t [= -> ->]%list_elem_of_singleton _.
  - intros u [= <-]. by vm_compute.
  - reflexivity.
  - by left.
  - intros [Hc|(p & Hp & Hg)]; [discriminate Hc|]. apply list_elem_of_singleton in Hp as ->.
    apply matchGlob_glob in Hg. vm_compute in Hg. done.
  - eapply (carries_basic _ _ "Authorization" _ "Basic" "user:" ""); [done|done|reflexivity|by left].
Defined.
