(* ===== verification/PolicyHttp.v ===== *)
(** * What rules do to requests and responses

    The event-stream transformer delivers the transformed lines whatever the sizes of
    the reads; rewritten responses are framed consistently; header and query mutations
    have the effect their rule says; credentials are substituted through base64. *)

From S2P Require Import Prelude GoStrings GoStd GoPath GoURL VfsBase Api PolicyGlob PolicyRules PolicyEngine PolicySpec.

(** ** The event-stream transformer *)

(** Reads of the given sizes, until one returns an error. *)
Fixpoint sse_reads (sizes : list nat) (r : sseTransformReadCloser)
    : string * option (option policy_error) :=
  match sizes with
  | [] => ("", None)
  | n :: sizes' =>
      let '(out, err, r) := sse_Read r n in
      match err with
      | Some e => (out, Some e)
      | None => let '(rest, err) := sse_reads sizes' r in (out +:+ rest, err)
      end
  end.

(** The error after the last byte ([None] is EOF). *)
Definition sse_end (r : sseTransformReadCloser) : option policy_error :=
  if sse_eof r then None else rd_end (sse_reader r).

Lemma transform_nonempty line reps : line ≠ "" → transformSSEDataLine line reps ≠ "".
Proof. intros Hl. unfold transformSSEDataLine. case_match; [done|]. by repeat case_match. Qed.

Lemma transform_lines_fuel n m data fin reps :
  (slen data < n)%nat → (slen data < m)%nat →
  transform_lines n data fin reps = transform_lines m data fin reps.
Proof.
  revert m data. induction n as [|n IH]; intros [|m] data Hn Hm; [lia..|]. cbn [transform_lines].
  destruct (Cut data (chr 10)) as [[line rest]|] eqn:Ec; [|done]. f_equal.
  apply Cut_Some in Ec as [-> _]. rewrite slen_app, slen_cons in *. apply IH; lia.
Qed.

Lemma transform_lines_S fuel data fin reps :
  transform_lines (S fuel) data fin reps =
  match Cut data (chr 10) with
  | Some (line, rest) => transformSSEDataLine (line +:+ newline) reps +:+ transform_lines fuel rest fin reps
  | None => match fin with
            | None => if decide (data = "") then "" else transformSSEDataLine data reps
            | Some _ => ""
            end
  end.
Proof. done. Qed.

Lemma sse_fill_done fuel r : sse_pending r ≠ "" → sse_fill fuel r = (None, r).
Proof. intros H. destruct fuel; cbn [sse_fill]; by rewrite bool_decide_eq_false_2. Qed.

(** One call of the loop: it ends at the end of the output, with the reader's error, or
    makes [pending] a non-empty beginning of the output. *)
Lemma sse_fill_spec r :
  let '(err, r') := sse_fill (S (slen (rd_data (sse_reader r)))) r in
  match err with
  | Some e => sse_output r = "" ∧ e = sse_end r
  | None => sse_pending r' ≠ "" ∧ sse_output r' = sse_output r ∧ sse_end r' = sse_end r
  end.
Proof.
  destruct (decide (sse_pending r = "")) as [Hp|Hp]; [|by rewrite sse_fill_done].
  cbn [sse_fill]. rewrite bool_decide_eq_true_2 by done. cbn [negb].
  unfold sse_output, sse_end. rewrite Hp, sapp_nil_l.
  destruct (sse_eof r); [done|]. unfold ReadBytes. rewrite transform_lines_S.
  destruct (Cut (rd_data (sse_reader r)) (chr 10)) as [[line rest]|] eqn:Ec.
  - rewrite sse_fill_done by (cbn; apply transform_nonempty; by intros [_ ?]%sapp_eq_nil).
    cbn [sse_pending sse_eof sse_reader sse_replacements rd_data rd_end].
    split; [apply transform_nonempty; by intros [_ ?]%sapp_eq_nil|]. split; [|done]. f_equal.
    apply transform_lines_fuel; [lia|]. apply Cut_Some in Ec as [-> _].
    rewrite slen_app, slen_cons. lia.
  - destruct (rd_end (sse_reader r)) as [e|] eqn:Ee; [done|]. case_decide as Hd; [done|].
    rewrite sse_fill_done by (cbn; by apply transform_nonempty). cbn.
    split; [by apply transform_nonempty|]. by rewrite sapp_nil_r.
Qed.

Lemma sse_Read_spec r n :
  (0 < n)%nat →
  let '(out, err, r') := sse_Read r n in
  match err with
  | Some e => out = "" ∧ sse_output r = "" ∧ e = sse_end r
  | None => out ≠ "" ∧ sse_output r = out +:+ sse_output r' ∧ sse_end r' = sse_end r
  end.
Proof.
  intros Hn. unfold sse_Read. destruct (n =? 0)%nat eqn:E; [apply Nat.eqb_eq in E; lia|].
  pose proof (sse_fill_spec r) as Hf. destruct (sse_fill _ r) as [[e|] r1]; [done|].
  destruct Hf as (Hp & <- & <-). split_and!; [|by unfold sse_output; cbn; rewrite <- sapp_assoc, string_take_drop|done].
  destruct n; [lia|]. by destruct (sse_pending r1).
Qed.

(** The event-stream transformer is independent of how it is read. However the reader
    of the response body sizes its buffers (non-empty ones, and enough of them), the
    bytes it gets are the lines of the upstream body with the replacements applied to
    the payload of each [data:] line, and then the upstream's end or error. *)
Theorem sse_stream_exact body reps sizes :
  let r := newSSETransformReadCloser body reps in
  Forall (λ n, (0 < n)%nat) sizes → (slen (sse_output r) < length sizes)%nat →
  sse_reads sizes r =
    (transform_lines (S (slen (rd_data body))) (rd_data body) (rd_end body) reps, Some (rd_end body)).
Proof.
  intros r Hpos Hlen. change (transform_lines _ _ _ _) with (sse_output r). change (rd_end body) with (sse_end r).
  clearbody r. revert r Hlen. induction Hpos as [|n sizes Hn _ IH]; intros r Hlen; [cbn in Hlen; lia|].
  cbn [sse_reads]. pose proof (sse_Read_spec r n Hn) as Hr. destruct (sse_Read r n) as [[out [e|]] r1].
  - by destruct Hr as (-> & -> & ->).
  - destruct Hr as (Hout & Heq & <-). rewrite IH.
    + by rewrite Heq.
    + rewrite Heq, slen_app in Hlen. cbn in Hlen. destruct out; [done|]. rewrite slen_cons in Hlen. lia.
Qed.

Lemma sse_stream_exact_witness :
  sse_reads (replicate 40 5%nat)
    (newSSETransformReadCloser {| rd_data := "id: a" +:+ (newline +:+ ("data: aab" +:+ newline)); rd_end := None |}
       [{| bt_Find := "a"; bt_Replace := "xyz" |}])
  = ("id: a" +:+ (newline +:+ ("data: xyzxyzb" +:+ newline)), Some None).
Proof.
  refine (sse_stream_exact {| rd_data := "id: a" +:+ (newline +:+ ("data: aab" +:+ newline)); rd_end := None |}
            [{| bt_Find := "a"; bt_Replace := "xyz" |}] (replicate 40 5%nat) _ _).
  - apply Forall_replicate. lia.
  - apply Nat.ltb_lt. vm_compute. reflexivity.
Defined.

(** ** Responses are framed consistently *)

(** The framing of a body the proxy wrote: of known length, or a stream. *)
Definition framed (resp : http_Response) : Prop :=
  resp_TransferEncoding resp = [] ∧ resp_Header resp !! "Transfer-Encoding" = None ∧
  match resp_Body resp with
  | Some (Plain rd) =>
      rd_end rd = None ∧ resp_ContentLength resp = Z.of_nat (slen (rd_data rd)) ∧
      resp_Header resp !! "Content-Length" = Some [Itoa (Z.of_nat (slen (rd_data rd)))]
  | Some (SSE _) => resp_ContentLength resp = - 1 ∧ resp_Header resp !! "Content-Length" = None
  | None => False
  end.

Definition same_body (r1 r2 : http_Response) : Prop :=
  resp_Body r1 = resp_Body r2 ∧ resp_ContentLength r1 = resp_ContentLength r2 ∧
  resp_TransferEncoding r1 = resp_TransferEncoding r2.

Lemma set_body_framed b resp : framed (set_body b resp).
Proof.
  unfold framed, set_body, Header_Del, Header_Set. cbn [resp_TransferEncoding resp_Header resp_Body].
  change (CanonicalHeaderKey "Transfer-Encoding") with "Transfer-Encoding".
  change (CanonicalHeaderKey "Content-Length") with "Content-Length".
  split_and!; [done|apply lookup_delete_eq|done|done|].
  by rewrite lookup_delete_ne, lookup_insert_eq.
Qed.

Lemma set_stream_framed s resp : framed (set_stream s resp).
Proof.
  unfold framed, set_stream, Header_Del. cbn [resp_TransferEncoding resp_Header resp_Body].
  change (CanonicalHeaderKey "Transfer-Encoding") with "Transfer-Encoding".
  change (CanonicalHeaderKey "Content-Length") with "Content-Length".
  split_and!; [done|apply lookup_delete_eq|done|].
  by rewrite lookup_delete_ne, lookup_delete_eq.
Qed.

Lemma after_rules_same_body {W} (hook : option (networkHookInvoker W)) rules req host s w s' err w' :
  after_rules hook rules req host s w = Some ((s', err), w') → same_body (as_resp s) (as_resp s').
Proof.
  revert s w. induction rules as [|rule rules IH]; intros s w; cbn [after_rules].
  { by intros [[= -> ->] ->]%M_ret_Some. }
  destruct (negb _ || negb _); [apply IH|].
  destruct (decide (cr_action rule = _)); [by intros [[= -> ->] ->]%M_ret_Some|].
  set (s1 := {| as_resp := after_rule_headers rule (as_resp s) |}).
  change (same_body (as_resp s) (as_resp s')) with (same_body (as_resp s1) (as_resp s')).
  destruct hook as [invoke|]; [|apply IH].
  destruct (decide (cr_callbackID rule = "")); [apply IH|].
  intros (r & w1 & _ & Hr)%M_bind_Some. destruct r as [[cb|]|e]; [|by apply (IH s1 w1)..].
  destruct (decide (callbackActionWithMutations _ _ = _)); [by apply M_ret_Some in Hr as [[= -> ->] _]|].
  destruct (normalizeCallbackResponseMutation _) as [m|]; [|by apply (IH s1 w1)].
  apply IH in Hr. unfold after_mutation in Hr. cbn in Hr. by destruct (sm_Headers m).
Qed.

Lemma after_body_framed s resp' :
  after_body s = Ok resp' → same_body (as_resp s) resp' ∨ framed resp'.
Proof.
  unfold after_body. destruct (as_setBody s); [intros [= <-]; right; apply set_body_framed|].
  destruct (resp_Body (as_resp s)) as [body|] eqn:Eb; [|by intros [= <-]; left].
  destruct (nonempty (as_replacements s)); [|by intros [= <-]; left].
  case_match; [intros [= <-]; right; apply set_stream_framed|].
  destruct (ReadAll body) as [b [e|]]; [done|]. intros [= <-]. right. apply set_body_framed.
Qed.

(** A response the proxy rewrites is framed for what it now is. Whatever the rules,
    callbacks and the upstream response, a response [OnResponse] returns either has the
    body and framing fields the upstream sent, or a body of known length with exactly
    that Content-Length, or a stream without one; in the last two cases no transfer
    encoding of the old body is left, neither in the header nor in the fields. *)
Theorem response_framed {W} `{!Has secret_cache W} (e : Engine W) resp req host w resp' w' :
  OnResponse e resp req host w = Some (Ok resp', w') → same_body resp resp' ∨ framed resp'.
Proof.
  unfold OnResponse, applyAfterNetworkRules. intros ([s err] & w1 & Hrun & Hret)%M_bind_Some.
  apply after_rules_same_body in Hrun. cbn in Hrun. destruct err as [x|];
    apply M_ret_Some in Hret as [Hres _]; [done|]. symmetry in Hres. apply after_body_framed in Hres.
  destruct Hres as [(H1 & H2 & H3)|Hf]; [left|by right]. destruct Hrun as (G1 & G2 & G3).
  unfold same_body. split_and!; congruence.
Qed.

Definition demo_rule_after : NetworkHookRule := {|
  nr_Name := ""; nr_Phase := "after"; nr_Hosts := []; nr_Methods := []; nr_Path := ""; nr_Action := "";
  nr_CallbackID := ""; nr_TimeoutMS := 0; nr_SetHeaders := []; nr_DeleteHeaders := []; nr_SetQuery := [];
  nr_DeleteQuery := []; nr_RewritePath := ""; nr_SetResponseHeaders := []; nr_DeleteResponseHeaders := [];
  nr_BodyReplacements := [{| bt_Find := "secret"; bt_Replace := "xx" |}] |}.

Definition rules_engine (rules : list NetworkHookRule) : Engine secret_cache := {|
  eng_config := demo_network; eng_placeholders := ∅;
  eng_networkRules := compileNetworkRules (Some {| ni_Rules := rules; ni_CallbackSocket := "" |});
  eng_networkHook := None |}.

Definition demo_response : http_Response := {|
  resp_StatusCode := 200; resp_ProtoMajor := 1; resp_ProtoMinor := 1; resp_Unread := false; resp_Header := {["Transfer-Encoding" := ["chunked"]]};
  resp_Body := Some (Plain {| rd_data := "a secret b"; rd_end := None |}); resp_ContentLength := - 1;
  resp_TransferEncoding := ["chunked"]; resp_Close := false |}.

Definition demo_rewritten : http_Response := {|
  resp_StatusCode := 200; resp_ProtoMajor := 1; resp_ProtoMinor := 1; resp_Unread := false; resp_Header := {["Content-Length" := ["6"]]};
  resp_Body := Some (Plain {| rd_data := "a xx b"; rd_end := None |}); resp_ContentLength := 6;
  resp_TransferEncoding := []; resp_Close := false |}.

Lemma response_framed_witness : same_body demo_response demo_rewritten ∨ framed demo_rewritten.
Proof.
  apply (response_framed (rules_engine [demo_rule_after]) demo_response None "a.test" ∅ demo_rewritten ∅).
  vm_compute. reflexivity.
Defined.

(** ** The effect of a rule's mutations *)

Definition canonical_byte_ok (c : Ascii.ascii) : bool :=
  (negb (is_token c) || (is_token (upper_byte c) && is_token (lower_byte c)))
  && bool_decide (upper_byte (upper_byte c) = upper_byte c)
  && bool_decide (lower_byte (lower_byte c) = lower_byte c)
  && Bool.eqb (bool_decide (upper_byte c = "-"%char)) (bool_decide (c = "-"%char))
  && Bool.eqb (bool_decide (lower_byte c = "-"%char)) (bool_decide (c = "-"%char)).

Lemma canonical_bytes c : canonical_byte_ok c = true.
Proof. apply all_bytes. vm_compute. reflexivity. Qed.

Lemma canonical_byte c :
  (is_token c = true → is_token (upper_byte c) = true ∧ is_token (lower_byte c) = true) ∧
  upper_byte (upper_byte c) = upper_byte c ∧ lower_byte (lower_byte c) = lower_byte c ∧
  bool_decide (upper_byte c = "-"%char) = bool_decide (c = "-"%char) ∧
  bool_decide (lower_byte c = "-"%char) = bool_decide (c = "-"%char).
Proof.
  pose proof (canonical_bytes c) as H. unfold canonical_byte_ok in H.
  rewrite !andb_true_iff, !bool_decide_eq_true in H. destruct H as ((((H1 & H2) & H3) & H4) & H5).
  apply Bool.eqb_prop in H4, H5. split_and!; try done. intros Ht. rewrite Ht in H1. cbn in H1.
  by apply andb_true_iff.
Qed.

Lemma canonical_from_idem b s : canonical_from b (canonical_from b s) = canonical_from b s.
Proof.
  revert b. induction s as [|c s IH]; intros b; [done|]. cbn [canonical_from].
  destruct (canonical_byte c) as (_ & Hu & Hl & Hdu & Hdl).
  destruct b; [rewrite Hu, Hdu, IH|rewrite Hl, Hdl, IH]; done.
Qed.

Lemma canonical_from_tokens b s : all_tokens s = true → all_tokens (canonical_from b s) = true.
Proof.
  revert b. induction s as [|c s IH]; intros b; [done|]. cbn [canonical_from all_tokens].
  rewrite andb_true_iff. intros [Hc Hs]. destruct (canonical_byte c) as (Ht & _).
  destruct (Ht Hc) as [Hu Hl]. rewrite IH by done. by destruct b; rewrite ?Hu, ?Hl.
Qed.

Lemma CanonicalHeaderKey_idem s : CanonicalHeaderKey (CanonicalHeaderKey s) = CanonicalHeaderKey s.
Proof.
  unfold CanonicalHeaderKey. destruct (all_tokens s) eqn:E; [|by rewrite E].
  by rewrite canonical_from_tokens, canonical_from_idem.
Qed.

(** Setting every key of a map, for keys the canonical form leaves alone. *)
Lemma fold_set_lookup (canon : string → string) (set : gmap string string) (m : gmap string (list string)) k :
  (∀ k' v, set !! k' = Some v → canon k' = k') →
  map_fold (λ k v m, <[canon k := [v]]> m) m set !! k =
  match set !! k with Some v => Some [v] | None => m !! k end.
Proof.
  intros Hcanon. revert Hcanon k.
  refine (map_fold_weak_ind (λ r set, (∀ k' v, set !! k' = Some v → canon k' = k') →
            ∀ k, r !! k = match set !! k with Some v => Some [v] | None => m !! k end) _ m _ _ set).
  - intros _ k. by rewrite lookup_empty.
  - intros k' v set' r Hk' IH Hcanon k. rewrite (Hcanon k' v) by (by rewrite lookup_insert_eq).
    destruct (decide (k' = k)) as [->|Hne]; [by rewrite !lookup_insert_eq|].
    rewrite !lookup_insert_ne by done. apply IH. intros k0 v0 H0. apply (Hcanon k0 v0).
    rewrite lookup_insert_ne; [done|]. intros ->. congruence.
Qed.

Lemma foldl_delete_lookup {A} (canon : string → string) (ks : list string) (m : gmap string A) k :
  (∀ k', k' ∈ ks → canon k' = k') →
  foldl (λ m k, delete (canon k) m) m ks !! k = if decide (k ∈ ks) then None else m !! k.
Proof.
  revert m. induction ks as [|k' ks IH]; intros m Hcanon; [done|]. cbn [foldl].
  rewrite IH by (intros; apply Hcanon; by right). rewrite (Hcanon k') by left.
  destruct (decide (k' = k)) as [->|Hne].
  - rewrite lookup_delete_eq. rewrite (decide_True (P := k ∈ k :: ks)) by left. by case_decide.
  - rewrite lookup_delete_ne by done. destruct (decide (k ∈ ks)); case_decide; set_solver.
Qed.

Lemma insert_trimmed_keys {A} canon (l : list (string * A)) acc :
  (∀ s, canon (canon s) = canon s) → (∀ k v, acc !! k = Some v → canon k = k) →
  ∀ k v, insert_trimmed canon l acc !! k = Some v → canon k = k.
Proof.
  intros Hidem. revert acc. induction l as [|[k0 v0] l IH]; intros acc Hacc; [done|]. cbn [insert_trimmed].
  case_decide; [by apply IH|]. apply IH. intros k v. destruct (decide (canon (TrimSpace k0) = k)) as [<-|Hne].
  - intros _. apply Hidem.
  - rewrite lookup_insert_ne by done. apply Hacc.
Qed.

Lemma distinct_trimmed_keys canon l seen :
  (∀ s, canon (canon s) = canon s) → ∀ k, k ∈ distinct_trimmed canon l seen → canon k = k.
Proof.
  intros Hidem. revert seen. induction l as [|k0 l IH]; intros seen k; cbn [distinct_trimmed].
  { by intros ?%elem_of_nil. }
  case_decide; [apply IH|]. case_decide; [apply IH|]. intros [->|Hk]%elem_of_cons; [apply Hidem|by eapply IH].
Qed.

Lemma URL_Query_values u k : URL_Query u !! k ≠ Some [].
Proof.
  unfold URL_Query, ParseQuery. case_decide; [by rewrite lookup_empty|].
  rewrite foldl_values_add_key, lookup_empty. case_match; [done|]. cbn. done.
Qed.

(** A before-rule changes what it names and nothing else. After the mutations of a
    compiled rule, a header (by its canonical name) is absent if the rule deletes it,
    has exactly the rule's value if the rule sets it, and is as before otherwise; the
    same holds of the query as the server will parse it, whatever characters keys and
    values have; the path is the rewritten one if there is one; method, host and body
    stay. *)
Theorem rule_mutation_exact (rule : NetworkHookRule) req u :
  req_URL req = Some u →
  let cr := compile_rule rule in
  let req' := applyBeforeMutations req (cr_setHeaders cr) (cr_deleteHeaders cr) (cr_setQuery cr)
                (cr_deleteQuery cr) (cr_rewritePath cr) in
  ∃ u', req_URL req' = Some u' ∧
    (∀ k, req_Header req' !! k =
       if decide (k ∈ cr_deleteHeaders cr) then None
       else match cr_setHeaders cr !! k with Some v => Some [v] | None => req_Header req !! k end) ∧
    (∀ k, URL_Query u' !! k =
       if decide (k ∈ cr_deleteQuery cr) then None
       else match cr_setQuery cr !! k with Some v => Some [v] | None => URL_Query u !! k end) ∧
    url_Path u' = (if decide (cr_rewritePath cr = "") then url_Path u else cr_rewritePath cr) ∧
    req_Method req' = req_Method req ∧ req_Host req' = req_Host req ∧ req_Body req' = req_Body req.
Proof.
  intros Hu cr req'. unfold req', applyBeforeMutations. cbn [req_URL with_Header]. rewrite Hu.
  eexists. split; [reflexivity|]. cbn [req_Header with_URL with_Header req_Method req_Host req_Body].
  split_and!; try done.
  - intros k. unfold delete_headers, set_headers, Header_Del, Header_Set. rewrite foldl_delete_lookup.
    + case_decide; [done|]. apply fold_set_lookup. intros k' v.
      by apply insert_trimmed_keys; [apply CanonicalHeaderKey_idem|intros ? ?; rewrite lookup_empty].
    + apply distinct_trimmed_keys, CanonicalHeaderKey_idem.
  - intros k.
    assert (Hrw : ∀ u0, URL_Query (if decide (cr_rewritePath cr = "") then u0 else with_Path (cr_rewritePath cr) u0)
                        = URL_Query u0) by (intros; by case_decide).
    rewrite Hrw. destruct (negb _ || nonempty _) eqn:E.
    + unfold URL_Query at 1. cbn [with_RawQuery url_RawQuery]. rewrite ParseQuery_Encode.
      unfold Values_Del, Values_Set. rewrite (foldl_delete_lookup (λ k, k)) by done.
      destruct (decide (k ∈ cr_deleteQuery cr)); [done|]. rewrite (fold_set_lookup (λ k, k)) by done.
      destruct (cr_setQuery cr !! k); [done|]. pose proof (URL_Query_values u k).
      by destruct (URL_Query u !! k) as [[|]|].
    + apply orb_false_iff in E as [E1%negb_false_iff E2]. apply bool_decide_eq_true in E1. rewrite E1, lookup_empty.
      destruct (cr_deleteQuery cr); [|done]. rewrite decide_False; [done|]. apply not_elem_of_nil.
  - case_decide; [|done]. by case_match.
Qed.

Definition demo_rule_before : NetworkHookRule := {|
  nr_Name := ""; nr_Phase := ""; nr_Hosts := []; nr_Methods := []; nr_Path := ""; nr_Action := "mutate";
  nr_CallbackID := ""; nr_TimeoutMS := 0; nr_SetHeaders := [("x-a", "1")]; nr_DeleteHeaders := ["cookie"];
  nr_SetQuery := [("q", "a&b")]; nr_DeleteQuery := ["z"]; nr_RewritePath := "/v2"; nr_SetResponseHeaders := [];
  nr_DeleteResponseHeaders := []; nr_BodyReplacements := [] |}.

Lemma rule_mutation_exact_witness :
  let cr := compile_rule demo_rule_before in
  let req := with_URL (Some (with_RawQuery "q=1&z=2" (demo_url "/v1")))
               (with_Header {["Cookie" := ["c"]]} (demo_request "/v1")) in
  let req' := applyBeforeMutations req (cr_setHeaders cr) (cr_deleteHeaders cr) (cr_setQuery cr)
                (cr_deleteQuery cr) (cr_rewritePath cr) in
  req_Header req' !! "Cookie" = None ∧ req_Header req' !! "X-A" = Some ["1"] ∧
  (URL_Query <$> req_URL req') ≫= (.!! "q") = Some ["a&b"].
Proof.
  intros cr req req'.
  destruct (rule_mutation_exact demo_rule_before req (with_RawQuery "q=1&z=2" (demo_url "/v1")) eq_refl)
    as (u' & Hu & Hh & Hq & _).
  split_and!; [etrans; [apply Hh|vm_compute; reflexivity]..|].
  assert (req_URL req' = Some u') as -> by exact Hu. cbn [fmap option_fmap option_map mbind option_bind].
  etrans; [apply Hq|vm_compute; reflexivity].
Defined.
