(* ===== verification/Proxy.v ===== *)
(** * The intercepting proxy: pkg/net/http.go, connpool.go, the passthrough of proxy.go

    Every connection of the guest to ports 80 and 443 ends here: requests are read, put to
    the policy engine, forwarded to the host they name, and the responses put to the
    engine again. Sockets, TLS and the HTTP codec are an interface, [net_io]. The state of
    the proxy is its pool of idle upstream connections; [px_log] records, in order, what
    it did on the network, so that theorems can speak of it. *)

From S2P Require Import Prelude GoStrings GoStd GoPath GoURL GoNet VfsBase Api PolicyGlob PolicyRules PolicyEngine.

(** ** Connections and events *)

(** An upstream connection: its identity and the address it was dialled to. *)
Record upstream := { up_id : Z; up_target : string }.

Record pooledConn := { pc_conn : upstream; pc_idleAt : Z }.

Record NetworkEvent := {
  ne_Method : string; ne_URL : string; ne_Host : string; ne_StatusCode : Z; ne_RequestBytes : Z;
  ne_ResponseBytes : Z; ne_DurationMS : Z; ne_Blocked : bool; ne_BlockReason : string }.

Inductive proxy_event :=
| EvDial (target : string)
| EvUpstream (c : upstream) (req : http_Request)
| EvClose (c : upstream)
| EvGuest (resp : http_Response)
| EvGuestBytes (data : string)
| EvTunnel (c : upstream)
| EvEmit (e : NetworkEvent).

(** Operations on sockets. An option or boolean result is an error or its absence. The
    channel of events may be nil; a send that finds it full does not wait. *)
Record net_io (W : Type) := {
  io_Now : M W Z;
  io_Handshake : M W (option string);
  io_ReadRequest : M W (option http_Request);
  io_Dial : string → M W (option Z);
  io_DialTLS : string → string → M W (option Z);
  io_WriteRequest : Z → http_Request → M W bool;
  io_ReadResponse : Z → http_Request → M W (option http_Response);
  io_CloseBody : Z → M W unit;
  io_Close : Z → M W unit;
  io_WriteGuest : http_Response → M W bool;
  io_WriteGuestBytes : string → M W bool;
  io_Header : Header → string;
  io_Copy : Z → M W unit;
  io_Emit : option (NetworkEvent → M W bool) }.
Arguments io_Now {W}. Arguments io_Handshake {W}. Arguments io_ReadRequest {W}. Arguments io_Dial {W}.
Arguments io_DialTLS {W}. Arguments io_WriteRequest {W}. Arguments io_ReadResponse {W}.
Arguments io_CloseBody {W}. Arguments io_Close {W}. Arguments io_WriteGuest {W}.
Arguments io_WriteGuestBytes {W}. Arguments io_Header {W}. Arguments io_Copy {W}.
Arguments io_Emit {W}.

Record proxy (W : Type) := {
  px_world : W; px_pool : gmap string (list pooledConn); px_log : list proxy_event }.
Arguments px_world {W}. Arguments px_pool {W}. Arguments px_log {W}. Arguments Build_proxy {W}.

Definition on_world {W A} (m : M W A) : M (proxy W) A := λ p,
  match m (px_world p) with
  | Some (a, w) => Some (a, Build_proxy w (px_pool p) (px_log p))
  | None => None
  end.

Definition log {W} (e : proxy_event) : M (proxy W) unit :=
  modw (λ p, Build_proxy (px_world p) (px_pool p) (px_log p ++ [e])).

Definition set_pool {W} (pool : gmap string (list pooledConn)) : M (proxy W) unit :=
  modw (λ p, Build_proxy (px_world p) pool (px_log p)).

(** [http.StatusText] of the statuses the proxy itself sends. *)
Definition StatusForbidden : Z := 403.
Definition StatusBadGateway : Z := 502.

Definition writeHTTPError_text (status : Z) (status_text message : string) : string :=
  "HTTP/1.1 " +:+ Itoa status +:+ " " +:+ status_text +:+ crlf +:+ "Content-Length: "
  +:+ Itoa (Z.of_nat (slen message)) +:+ crlf +:+ "Connection: close" +:+ crlf +:+ crlf +:+ message.

Definition isStreamingResponse (resp : http_Response) : bool :=
  HasPrefix (Header_Get (resp_Header resp) "Content-Type") "text/event-stream"
  || existsb (λ te, bool_decide (te = "chunked")) (resp_TransferEncoding resp)
  || ((resp_ContentLength resp =? -1) && (resp_ProtoMajor resp =? 1) && (resp_ProtoMinor resp =? 1)).

(** [Body.Read] into a buffer of [n] bytes. *)
Definition body_Read (b : http_Body) (n : nat) : string * option (option policy_error) * http_Body :=
  match b with
  | Plain r =>
      match rd_data r with
      | EmptyString => ("", Some (rd_end r), b)
      | _ => (string_take n (rd_data r), None, Plain {| rd_data := string_drop n (rd_data r); rd_end := rd_end r |})
      end
  | SSE s => let '(out, err, s') := sse_Read s n in (out, err, SSE s')
  end.

Section proxy.
Context {W : Type} `{!Has secret_cache W} (env : host_env W) (io : net_io W).

Definition now : M (proxy W) Z := on_world (io_Now io).

Definition close_conn (c : upstream) : M (proxy W) unit :=
  _ ← on_world (io_Close io (up_id c)); log (EvClose c).

(** ** The connection pool *)

Definition maxIdleConnsPerHost : Z := 4.
Definition idleConnTimeout : Z := 90 * 10 ^ 9.

(** The loop of [get], on the list in reverse: the most recently used comes first. The
    connections left stay in the pool. *)
Fixpoint pool_pop (host : string) (conns : list pooledConn) : M (proxy W) (option upstream) :=
  match conns with
  | [] => mret None
  | pc :: rest =>
      p ← getw;
      _ ← set_pool (<[host := rev rest]> (px_pool p));
      t ← now;
      if idleConnTimeout <? t - pc_idleAt pc then _ ← close_conn (pc_conn pc); pool_pop host rest
      else mret (Some (pc_conn pc))
  end.

Definition pool_get (host : string) : M (proxy W) (option upstream) :=
  p ← getw; pool_pop host (rev (default [] (px_pool p !! host))).

Definition pool_put (host : string) (c : upstream) : M (proxy W) unit :=
  p ← getw;
  let conns := default [] (px_pool p !! host) in
  if maxIdleConnsPerHost <=? Z.of_nat (length conns) then close_conn c
  else t ← now; set_pool (<[host := conns ++ [{| pc_conn := c; pc_idleAt := t |}]]> (px_pool p)).

(** One round of [reapLoop] over the hosts of the pool, in the order of the range. *)
Fixpoint reap_conns (t : Z) (conns : list pooledConn) : M (proxy W) (list pooledConn) :=
  match conns with
  | [] => mret []
  | pc :: rest =>
      if idleConnTimeout <? t - pc_idleAt pc then _ ← close_conn (pc_conn pc); reap_conns t rest
      else alive ← reap_conns t rest; mret (pc :: alive)
  end.

Fixpoint reap_hosts (t : Z) (hosts : list (string * list pooledConn)) : M (proxy W) unit :=
  match hosts with
  | [] => mret tt
  | (host, conns) :: rest =>
      alive ← reap_conns t conns;
      p ← getw;
      _ ← set_pool (match alive with [] => delete host (px_pool p) | _ => <[host := alive]> (px_pool p) end);
      reap_hosts t rest
  end.

Definition reap : M (proxy W) unit :=
  t ← now; p ← getw; reap_hosts t (map_to_list (px_pool p)).

(** ** Answers and events *)

Definition writeHTTPError (status : Z) (message : string) : M (proxy W) unit :=
  let data := writeHTTPError_text status (http_StatusText status) message in
  _ ← on_world (io_WriteGuestBytes io data); log (EvGuestBytes data).

Definition emit (ev : NetworkEvent) : M (proxy W) unit :=
  match io_Emit io with
  | None => mret tt
  | Some send => sent ← on_world (send ev); if (sent : bool) then log (EvEmit ev) else mret tt
  end.

(** [http.ReadRequest] leaves [req.TLS] nil, so the scheme is always http. *)
Definition emitEvent (req : http_Request) (resp : http_Response) (host : string) (duration : Z) : M (proxy W) unit :=
  emit {|
    ne_Method := req_Method req;
    ne_URL := "http://" +:+ host +:+ match req_URL req with Some u => url_Path u | None => "" end;
    ne_Host := host; ne_StatusCode := resp_StatusCode resp;
    ne_RequestBytes := Z.max 0 (req_ContentLength req); ne_ResponseBytes := Z.max 0 (resp_ContentLength resp);
    ne_DurationMS := duration / 10 ^ 6; ne_Blocked := false; ne_BlockReason := "" |}.

Definition emitBlockedEvent (req : option http_Request) (host reason : string) : M (proxy W) unit :=
  emit {|
    ne_Method := match req with Some r => req_Method r | None => "" end;
    ne_URL := match req with Some r => match req_URL r with Some u => URL_String u | None => "" end | None => "" end;
    ne_Host := host; ne_StatusCode := 0; ne_RequestBytes := 0; ne_ResponseBytes := 0; ne_DurationMS := 0;
    ne_Blocked := true; ne_BlockReason := reason |}.

Definition policy_error_text (e : policy_error) : string :=
  match e with ErrBlocked => "request blocked by policy" | ErrSecretLeak => "secret placeholder sent to unauthorized host"
             | ErrIO m => m end.

Definition writeResponse (resp : http_Response) : M (proxy W) bool :=
  ok ← on_world (io_WriteGuest io resp); _ ← log (EvGuest resp); mret ok.

(** The copying loop, a buffer of 4096 bytes at a time; [fuel] bounds the reads. *)
Fixpoint stream_body (fuel : nat) (b : http_Body) : M (proxy W) bool :=
  match fuel with
  | O => mret false
  | S fuel' =>
      let '(data, err, b') := body_Read b 4096 in
      ok ← (if decide (data = "") then mret true
            else w ← on_world (io_WriteGuestBytes io data); _ ← log (EvGuestBytes data); mret w);
      if negb ok then mret false
      else match err with
           | Some None => mret true
           | Some (Some _) => mret false
           | None => stream_body fuel' b'
           end
  end.

(** Every read but the last yields at least a byte, so the bytes of a body bound the reads. *)
Definition body_size (b : http_Body) : nat := slen (fst (ReadAll b)).

Definition response_head (resp : http_Response) : string :=
  "HTTP/" +:+ Itoa (resp_ProtoMajor resp) +:+ "." +:+ Itoa (resp_ProtoMinor resp) +:+ " "
  +:+ Itoa (resp_StatusCode resp) +:+ " " +:+ http_StatusText (resp_StatusCode resp) +:+ crlf
  +:+ io_Header io (resp_Header resp) +:+ crlf.

Definition writeResponseHeadersAndStreamBody (resp : http_Response) : M (proxy W) bool :=
  let head := response_head resp in
  ok ← on_world (io_WriteGuestBytes io head);
  _ ← log (EvGuestBytes head);
  if negb ok then mret false
  else match resp_Body resp with
       | Some b => stream_body (S (body_size b)) b
       | None => mret true
       end.

(** [resp.Body.Close()]: closing the upstream's body reads it to its end; a body the
    response no longer refers to stays in the connection. *)
Definition close_body (c : upstream) (resp : http_Response) : M (proxy W) unit :=
  if resp_Unread resp then mret tt else on_world (io_CloseBody io (up_id c)).

(** ** One request of a connection: whether the loop goes on *)

(** Reading the response and answering the guest. *)
Definition answer (e : Engine W) (host : string) (c : upstream) (req : http_Request) (start : Z)
    (stop : M (proxy W) bool) (goon : M (proxy W) bool) : M (proxy W) bool :=
  r ← on_world (io_ReadResponse io (up_id c) req);
  match r with
  | None => stop
  | Some resp =>
      o ← on_world (OnResponse e resp (Some req) host);
      match o with
      | Err err =>
          _ ← emitBlockedEvent (Some req) host (policy_error_text err);
          _ ← writeHTTPError StatusForbidden "Blocked by policy";
          _ ← close_body c resp;
          stop
      | Ok resp =>
          t ← now;
          _ ← emitEvent req resp host (t - start);
          if isStreamingResponse resp then
            _ ← writeResponseHeadersAndStreamBody resp;
            _ ← close_body c resp;
            stop
          else
            ok ← writeResponse resp;
            _ ← close_body c resp;
            if negb ok then stop
            else if req_Close req || resp_Close resp then stop
            else goon
      end
  end.

Definition http_exchange (e : Engine W) (dstIP : string) (dstPort : Z) : M (proxy W) bool :=
  r ← on_world (io_ReadRequest io);
  match r with
  | None => mret false
  | Some req =>
      start ← now;
      let host := if decide (req_Host req = "") then dstIP else req_Host req in
      allowed ← on_world (IsHostAllowed env e host);
      if negb allowed then
        _ ← emitBlockedEvent (Some req) host "host not in allowlist";
        _ ← writeHTTPError StatusForbidden "Blocked by policy";
        mret false
      else
        '(req, err) ← on_world (OnRequest env e req host);
        match err with
        | Some err =>
            _ ← emitBlockedEvent (Some req) host (policy_error_text err);
            _ ← writeHTTPError StatusForbidden "Blocked by policy";
            mret false
        | None =>
            let target := JoinHostPort host (Itoa dstPort) in
            pc ← pool_get target;
            pc ← (match pc with
                  | Some c => mret (Some c)
                  | None =>
                      d ← on_world (io_Dial io target);
                      _ ← log (EvDial target);
                      mret ((λ id, {| up_id := id; up_target := target |}) <$> d)
                  end);
            match pc with
            | None => _ ← writeHTTPError StatusBadGateway "Failed to connect"; mret false
            | Some c =>
                ok ← on_world (io_WriteRequest io (up_id c) req);
                _ ← log (EvUpstream c req);
                if negb ok then
                  _ ← close_conn c;
                  _ ← writeHTTPError StatusBadGateway "Failed to write request";
                  mret false
                else answer e host c req start (_ ← close_conn c; mret false) (_ ← pool_put target c; mret true)
            end
        end
  end.

(** HandleHTTP: one engine per request, the engine as the request finds it. The loop ends
    by itself when a request says so; the length of the list bounds the requests. *)
Fixpoint HandleHTTP (es : list (Engine W)) (dstIP : string) (dstPort : Z) : M (proxy W) unit :=
  match es with
  | [] => mret tt
  | e :: es' => more ← http_exchange e dstIP dstPort; if (more : bool) then HandleHTTP es' dstIP dstPort else mret tt
  end.

Definition https_exchange (e : Engine W) (serverName : string) (c : upstream) : M (proxy W) bool :=
  r ← on_world (io_ReadRequest io);
  match r with
  | None => mret false
  | Some req =>
      start ← now;
      '(req, err) ← on_world (OnRequest env e req serverName);
      match err with
      | Some err =>
          _ ← emitBlockedEvent (Some req) serverName (policy_error_text err);
          _ ← writeHTTPError StatusForbidden "Blocked by policy";
          mret false
      | None =>
          ok ← on_world (io_WriteRequest io (up_id c) req);
          _ ← log (EvUpstream c req);
          if negb ok then mret false
          else answer e serverName c req start (mret false) (mret true)
      end
  end.

Fixpoint https_loop (es : list (Engine W)) (serverName : string) (c : upstream) : M (proxy W) unit :=
  match es with
  | [] => mret tt
  | e :: es' => more ← https_exchange e serverName c; if (more : bool) then https_loop es' serverName c else mret tt
  end.

(** The first engine is the one the host check finds. *)
Definition HandleHTTPS (e0 : Engine W) (es : list (Engine W)) (dstIP : string) (dstPort : Z) : M (proxy W) unit :=
  h ← on_world (io_Handshake io);
  match h with
  | None => mret tt
  | Some name =>
      let serverName := if decide (name = "") then dstIP else name in
      allowed ← on_world (IsHostAllowed env e0 serverName);
      if negb allowed then emitBlockedEvent None serverName "host not in allowlist"
      else
        let target := JoinHostPort serverName (Itoa dstPort) in
        d ← on_world (io_DialTLS io target serverName);
        _ ← log (EvDial target);
        match d with
        | None => mret tt
        | Some id =>
            let c := {| up_id := id; up_target := target |} in
            _ ← https_loop es serverName c;
            close_conn c
        end
  end.

(** Other ports: bytes are copied both ways once the address is allowed. *)
Definition handlePassthrough (e : Engine W) (dstIP : string) (dstPort : Z) : M (proxy W) unit :=
  let host := JoinHostPort dstIP (Itoa dstPort) in
  allowed ← on_world (IsHostAllowed env e dstIP);
  if negb allowed then emitBlockedEvent None host "host not in allowlist"
  else
    d ← on_world (io_Dial io host);
    _ ← log (EvDial host);
    match d with
    | None => mret tt
    | Some id =>
        let c := {| up_id := id; up_target := host |} in
        _ ← on_world (io_Copy io id);
        _ ← log (EvTunnel c);
        close_conn c
    end.

End proxy.
