(* ===== verification/ProxySpec.v ===== *)
(** * What the proxy guarantees

    Nothing goes upstream but what the policy engine passed, on a connection to the host
    it was passed for; a refused request costs the guest an error and nothing else. *)

From S2P Require Import Prelude GoStrings GoStd GoPath GoURL GoNet VfsBase Api PolicyGlob PolicyRules PolicyEngine PolicySpec PolicyHttp PolicyLeak Proxy.

(** ** Streaming

    The copying loop delivers what [io.ReadAll] would have read, in pieces of at most a
    buffer. *)

Lemma body_Read_spec b n :
  (0 < n)%nat →
  let '(out, err, b') := body_Read b n in
  match err with
  | Some e => out = "" ∧ ReadAll b = ("", e)
  | None => out ≠ "" ∧ (slen out <= n)%nat ∧ (ReadAll b).1 = out +:+ (ReadAll b').1 ∧ (ReadAll b').2 = (ReadAll b).2
  end.
Proof.
  intros Hn. destruct b as [r|s]; cbn [body_Read].
  - destruct r as [data e]. cbn [rd_data rd_end]. destruct data as [|c data]; [done|].
    destruct n as [|n]; [lia|]. split_and!; [done|rewrite slen_take; lia| |done].
    cbn [ReadAll fst rd_data]. by rewrite string_take_drop.
  - pose proof (sse_Read_spec s n Hn) as Hr. destruct (sse_Read s n) as [[out err] s'] eqn:Es.
    destruct err as [e|].
    + destruct Hr as (-> & Ho & ->). split; [done|]. cbn [ReadAll]. by rewrite Ho.
    + destruct Hr as (Ho & Heq & He). split_and!; [done| |done|done].
      unfold sse_Read in Es. destruct (n =? 0)%nat; [by injection Es as <- <-|].
      destruct (sse_fill _ s) as [[e|] s1]; [done|]. injection Es as <- <-. rewrite slen_take. lia.
Qed.

Section stream.
Context {W : Type} (io : net_io W).

Definition sconcat : list string → string := foldr String.append "".

(** A guest that takes what it is sent. *)
Definition guest_reads : Prop := ∀ data w, ∃ w', io_WriteGuestBytes io data w = Some (true, w').

Lemma stream_body_exact b fuel p :
  guest_reads → (slen (ReadAll b).1 < fuel)%nat →
  ∃ chunks w, stream_body io fuel b p =
      Some (bool_decide ((ReadAll b).2 = None), Build_proxy w (px_pool p) (px_log p ++ (EvGuestBytes <$> chunks)))
    ∧ sconcat chunks = (ReadAll b).1 ∧ Forall (λ d, d ≠ "" ∧ (slen d <= 4096)%nat) chunks.
Proof.
  intros Hg. revert b p. induction fuel as [|fuel IH]; intros b p Hf; [lia|]. cbn [stream_body].
  pose proof (body_Read_spec b 4096 ltac:(lia)) as Hr. destruct (body_Read b 4096) as [[out err] b'].
  destruct err as [e|].
  - destruct Hr as [-> Hall]. rewrite Hall. exists [], (px_world p). cbn [fst snd fmap list_fmap].
    rewrite app_nil_r. split; [|split; [done|constructor]]. destruct p. by destruct e.
  - destruct Hr as (Ho & Hlen & Heq & He). rewrite decide_False by done.
    destruct (Hg out (px_world p)) as [w Hw].
    destruct (IH b' (Build_proxy w (px_pool p) (px_log p ++ [EvGuestBytes out]))) as (cs & w' & Hs & Hc & Hall).
    { rewrite Heq, slen_app in Hf. destruct out; [done|]. rewrite slen_cons in Hf. lia. }
    exists (out :: cs), w'. split_and!; [|by rewrite Heq, <- Hc|by constructor].
    rewrite <- He. unfold mbind, M_bind, on_world. rewrite Hw. cbn [px_world px_pool px_log] in *.
    cbn [negb]. unfold log, modw. cbn. rewrite Hs. cbn. by rewrite <- app_assoc.
Qed.

End stream.

(** ** A logic for the proxy's effects

    [does Q m R]: from a well-labelled pool, [m] leaves a well-labelled pool, appends only
    runs of events that satisfy [Q] to the log, and returns a value that satisfies [R]. *)

(** Every idle connection is filed under the address it was dialled to, at most four each. *)
Definition pool_ok (pool : gmap string (list pooledConn)) : Prop := ∀ host conns,
  pool !! host = Some conns →
  Forall (λ pc, up_target (pc_conn pc) = host) conns ∧ (length conns <= 4)%nat.

Lemma pool_ok_empty : pool_ok ∅.
Proof. intros host conns. by rewrite lookup_empty. Qed.

Lemma pool_ok_insert pool host conns :
  pool_ok pool → Forall (λ pc, up_target (pc_conn pc) = host) conns → (length conns <= 4)%nat →
  pool_ok (<[host := conns]> pool).
Proof.
  intros Hp Hc Hl h cs. destruct (decide (h = host)) as [->|Hne].
  - rewrite lookup_insert_eq. by intros [= <-].
  - rewrite lookup_insert_ne by done. apply Hp.
Qed.

Lemma pool_ok_delete pool host : pool_ok pool → pool_ok (delete host pool).
Proof.
  intros Hp h cs. destruct (decide (h = host)) as [->|Hne]; [by rewrite lookup_delete_eq|].
  rewrite lookup_delete_ne by done. apply Hp.
Qed.

Lemma pool_ok_lookup pool host :
  pool_ok pool → Forall (λ pc, up_target (pc_conn pc) = host) (default [] (pool !! host)) ∧
    (length (default [] (pool !! host)) <= 4)%nat.
Proof. intros Hp. destruct (pool !! host) as [cs|] eqn:E; [by apply Hp|]. cbn. split; [constructor|lia]. Qed.

Section logic.
Context {W : Type} (Q : list proxy_event → Prop).

Definition does {A} (m : M (proxy W) A) (R : A → Prop) : Prop := ∀ p a p',
  pool_ok (px_pool p) → m p = Some (a, p') →
  pool_ok (px_pool p') ∧ (∃ new, px_log p' = px_log p ++ concat new ∧ Forall Q new) ∧ R a.

Lemma does_ret {A} (a : A) (R : A → Prop) : R a → does (mret a) R.
Proof. intros Ha p b p' Hp [-> ->]%M_ret_Some. split_and!; [done| |done]. exists []. cbn. by rewrite app_nil_r. Qed.

Lemma does_bind {A B} (m : M (proxy W) A) (f : A → M (proxy W) B) R S :
  does m R → (∀ a, R a → does (f a) S) → does (m ≫= f) S.
Proof.
  intros Hm Hf p b p' Hp (a & p1 & H1 & H2)%M_bind_Some.
  destruct (Hm p a p1 Hp H1) as (Hp1 & (n1 & Hl1 & Hq1) & Ha).
  destruct (Hf a Ha p1 b p' Hp1 H2) as (Hp2 & (n2 & Hl2 & Hq2) & Hb).
  split_and!; [done| |done]. exists (n1 ++ n2). rewrite Hl2, Hl1, concat_app, app_assoc. split; [done|]. by apply Forall_app.
Qed.

Lemma does_weaken {A} (m : M (proxy W) A) (R S : A → Prop) : does m R → (∀ a, R a → S a) → does m S.
Proof. intros Hm H p a p' Hp Hrun. destruct (Hm p a p' Hp Hrun) as (? & ? & ?). by split_and!; auto. Qed.

(** The inner world's answers: whatever they are, they are answers of that world. *)
Lemma does_on_world {A} (m : M W A) : does (on_world m) (λ a, ∃ w w', m w = Some (a, w')).
Proof.
  intros p a p' Hp. unfold on_world. destruct (m (px_world p)) as [[b w]|] eqn:E; [|done]. intros [= <- <-].
  split_and!; [done| |by exists (px_world p), w]. exists []. cbn. by rewrite app_nil_r.
Qed.

Lemma on_world_run {A} (m : M W A) (p : proxy W) a w :
  m (px_world p) = Some (a, w) → on_world m p = Some (a, Build_proxy w (px_pool p) (px_log p)).
Proof. unfold on_world. by intros ->. Qed.

Lemma does_log (e : proxy_event) (R : unit → Prop) : Q [e] → R tt → does (log e) R.
Proof.
  intros He Ht p [] p' Hp [= <-]. split_and!; [done| |done]. exists [[e]]. split; [done|]. by constructor.
Qed.

Lemma does_pool : does getw (λ p, pool_ok (px_pool p)).
Proof. intros p a p' Hp [= <- <-]. split_and!; [done| |done]. exists []. cbn. by rewrite app_nil_r. Qed.

Lemma does_set_pool pool (R : unit → Prop) : pool_ok pool → R tt → does (set_pool pool) R.
Proof. intros Hpool Ht p [] p' Hp [= <-]. split_and!; [done| |done]. exists []. cbn. by rewrite app_nil_r. Qed.

Lemma does_if {A} (b : bool) (m n : M (proxy W) A) R : (b = true → does m R) → (b = false → does n R) → does (if b then m else n) R.
Proof. destruct b; auto. Qed.
End logic.

(** ** Pool operations keep the labels *)

Section mediation.
Context {W : Type} `{!Has secret_cache W} (env : host_env W) (io : net_io W).

(** An answer the engine passed: what the upstream sent to a request, put to [OnResponse]. *)
Definition passed (es : list (Engine W)) (resp' : http_Response) : Prop :=
  ∃ e host c req resp w0 w1 w w', e ∈ es ∧ io_ReadResponse io c req w0 = Some (Some resp, w1) ∧
    OnResponse e resp (Some req) host w = Some (Ok resp', w').

(** What the bytes of a streamed answer are: its body, if it has one. *)
Definition body_bytes (resp : http_Response) : string :=
  match resp_Body resp with Some b => (ReadAll b).1 | None => "" end.

(** What a run of events may be, for the engines [es] a connection meets and the port it
    was for: a dial or a tunnel to a host an engine allows; a request upstream that an
    engine made of a request for that host, on a connection to that host; a response to
    the guest that an engine passed, whole or streamed, and of a streamed one the head
    and then its body from the first byte on; an error message of the proxy's own. *)
Inductive mediated (es : list (Engine W)) (port : string) : list proxy_event → Prop :=
| med_dial e host w w' :
    e ∈ es → IsHostAllowed env e host w = Some (true, w') → mediated es port [EvDial (JoinHostPort host port)]
| med_upstream e e' host req req' c w w' w1 w2 :
    e ∈ es → IsHostAllowed env e host w = Some (true, w') →
    e' ∈ es → OnRequest env e' req host w1 = Some ((req', None), w2) →
    up_target c = JoinHostPort host port → mediated es port [EvUpstream c req']
| med_tunnel e host c w w' :
    e ∈ es → IsHostAllowed env e host w = Some (true, w') → up_target c = JoinHostPort host port →
    mediated es port [EvTunnel c]
| med_guest resp : passed es resp → mediated es port [EvGuest resp]
| med_stream resp chunks rest :
    passed es resp → isStreamingResponse resp = true → body_bytes resp = sconcat chunks +:+ rest →
    mediated es port (EvGuestBytes (response_head io resp) :: (EvGuestBytes <$> chunks))
| med_error status :
    status = StatusForbidden ∨ status = StatusBadGateway → ∀ message,
    mediated es port [EvGuestBytes (writeHTTPError_text status (http_StatusText status) message)]
| med_close c : mediated es port [EvClose c]
| med_emit e : mediated es port [EvEmit e].

Section steps.
Context (es : list (Engine W)) (port : string).
Local Abbreviation safe m R := (does (W := W) (mediated es port) m R) (only parsing).

Ltac step := first
  [ apply does_ret; (done || eauto)
  | eapply does_bind; [apply does_on_world|]; intros ? ?; cbv beta in *
  | eapply does_bind; [apply (does_log _ _ (λ _, True)); [by constructor|done]|]; intros ? ?
  | apply does_log; [by constructor|done]
  | eapply does_bind; [apply does_pool|]; intros ? ?; cbv beta in * ].

Lemma close_conn_does c : safe (close_conn io c) (λ _, True).
Proof. unfold close_conn. repeat step. Qed.

Lemma pool_pop_does host conns :
  Forall (λ pc, up_target (pc_conn pc) = host) conns → (length conns <= 4)%nat →
  safe (pool_pop io host conns) (λ r, ∀ c, r = Some c → up_target c = host).
Proof.
  induction conns as [|pc conns IH]; cbn [pool_pop]; [by intros; step|].
  intros [Hpc Hall]%Forall_cons Hlen. cbn [length] in Hlen. step.
  eapply does_bind; [apply (does_set_pool _ _ (λ _, True)); [|done]|intros _ _].
  { apply pool_ok_insert; [done|by apply Forall_rev|]. rewrite length_rev. lia. }
  unfold now. step. apply does_if; intros _.
  - eapply does_bind; [apply close_conn_does|]. intros _ _. apply IH; [done|lia].
  - apply does_ret. by intros c [= <-].
Qed.

Lemma pool_get_does host : safe (pool_get io host) (λ r, ∀ c, r = Some c → up_target c = host).
Proof.
  unfold pool_get. step. match goal with H : pool_ok _ |- _ => destruct (pool_ok_lookup _ host H) as [H1 H2] end.
  apply pool_pop_does; [by apply Forall_rev|by rewrite length_rev].
Qed.

Lemma pool_put_does host c : up_target c = host → safe (pool_put io host c) (λ _, True).
Proof.
  intros Hc. unfold pool_put. step. match goal with H : pool_ok _ |- _ => destruct (pool_ok_lookup _ host H) as [H1 H2] end.
  destruct (Z.leb_spec maxIdleConnsPerHost (Z.of_nat (length (default [] (px_pool a !! host))))) as [Hl|Hl];
    [apply close_conn_does|]. unfold now. step. apply does_set_pool; [|done]. apply pool_ok_insert; [done| |].
  - apply Forall_app. split; [done|]. by constructor.
  - rewrite length_app. cbn. unfold maxIdleConnsPerHost in Hl. lia.
Qed.

Lemma emit_does ev : safe (emit io ev) (λ _, True).
Proof. unfold emit. destruct (io_Emit io); [|step]. step. apply does_if; intros _; step. Qed.

Lemma writeHTTPError_does status msg :
  status = StatusForbidden ∨ status = StatusBadGateway → safe (writeHTTPError io status msg) (λ _, True).
Proof. intros Hs. unfold writeHTTPError. step. apply does_log; [by apply med_error|done]. Qed.

(** Whatever the guest does, what it was sent of a body is its beginning. *)
Lemma stream_body_log fuel b p ok p' :
  stream_body io fuel b p = Some (ok, p') →
  px_pool p' = px_pool p ∧ ∃ chunks rest,
    px_log p' = px_log p ++ (EvGuestBytes <$> chunks) ∧ (ReadAll b).1 = sconcat chunks +:+ rest.
Proof.
  assert (Hstop : ∀ p : proxy W, px_pool p = px_pool p ∧ ∃ chunks rest,
    px_log p = px_log p ++ (EvGuestBytes <$> chunks) ∧ (ReadAll b).1 = sconcat chunks +:+ rest).
  { intros q. split; [done|]. exists [], (ReadAll b).1. by rewrite app_nil_r. }
  revert b p Hstop. induction fuel as [|fuel IH]; intros b p Hstop; cbn [stream_body].
  { by intros [-> ->]%M_ret_Some. }
  pose proof (body_Read_spec b 4096 ltac:(lia)) as Hr. destruct (body_Read b 4096) as [[out err] b'].
  destruct err as [e|].
  - destruct Hr as [-> _]. rewrite decide_True by done. intros (o & q & [-> ->]%M_ret_Some & H)%M_bind_Some.
    cbn in H. by destruct e; apply M_ret_Some in H as [-> ->].
  - destruct Hr as (Ho & _ & Heq & _). rewrite decide_False by done.
    intros (o & q & Hw & H)%M_bind_Some. apply M_bind_Some in Hw as (o' & q1 & H1 & Hw).
    apply M_bind_Some in Hw as ([] & q2 & [= <-] & [-> ->]%M_ret_Some).
    unfold on_world in H1. destruct (io_WriteGuestBytes io out (px_world p)) as [[o1 w]|]; [|done].
    injection H1 as <- <-. cbn [px_world px_pool px_log] in H.
    assert (Hone : px_pool p' = px_pool p ∧ ∃ chunks rest, px_log p' = (px_log p ++ [EvGuestBytes out]) ++ (EvGuestBytes <$> chunks) ∧
      (ReadAll b').1 = sconcat chunks +:+ rest).
    { destruct o1; cbn [negb] in H.
      - apply IH in H; [done|]. intros q. split; [done|]. exists [], (ReadAll b').1. by rewrite app_nil_r.
      - apply M_ret_Some in H as [_ ->]. split; [done|]. exists [], (ReadAll b').1. by rewrite app_nil_r. }
    destruct Hone as (Hp & cs & rest & Hl & Hc). split; [done|]. exists (out :: cs), rest.
    rewrite Hl, Heq, Hc, <- app_assoc. split; [done|]. cbn. by rewrite sapp_assoc.
Qed.

Lemma stream_does resp :
  passed es resp → isStreamingResponse resp = true →
  safe (writeResponseHeadersAndStreamBody io resp) (λ _, True).
Proof.
  intros Hpass Hs p ok p' Hp. unfold writeResponseHeadersAndStreamBody.
  intros (o & q & Hw & H)%M_bind_Some. apply M_bind_Some in H as ([] & q1 & [= <-] & H).
  unfold on_world in Hw. destruct (io_WriteGuestBytes io _ (px_world p)) as [[o1 w]|]; [|done].
  injection Hw as <- <-. cbn [px_world px_pool px_log] in H.
  assert (Hgo : px_pool p' = px_pool p ∧ ∃ chunks rest,
    px_log p' = (px_log p ++ [EvGuestBytes (response_head io resp)]) ++ (EvGuestBytes <$> chunks) ∧
    body_bytes resp = sconcat chunks +:+ rest).
  { unfold body_bytes. destruct o1; cbn [negb] in H; [destruct (resp_Body resp) as [b|]|].
    - by apply stream_body_log in H.
    - apply M_ret_Some in H as [_ ->]. split; [done|]. exists [], "". by rewrite app_nil_r.
    - apply M_ret_Some in H as [_ ->]. split; [done|]. exists []. eexists. by rewrite app_nil_r. }
  destruct Hgo as (Hpool & cs & rest & Hl & Hb). rewrite Hpool. split_and!; [done| |done].
  exists [EvGuestBytes (response_head io resp) :: (EvGuestBytes <$> cs)].
  rewrite Hl, <- app_assoc. cbn. rewrite app_nil_r. split; [done|].
  constructor; [by eapply med_stream|constructor].
Qed.

#[local] Ltac refused :=
  eapply does_bind; [apply emit_does|]; intros _ _;
  eapply does_bind; [by apply writeHTTPError_does; left|]; intros _ _.

Lemma close_body_does c resp : safe (close_body io c resp) (λ _, True).
Proof. unfold close_body. apply does_if; intros _; [step|]. eapply does_weaken; [apply does_on_world|done]. Qed.

Lemma answer_does e host c req start stop goon :
  e ∈ es → safe stop (λ _, True) → safe goon (λ _, True) →
  safe (answer io e host c req start stop goon) (λ _, True).
Proof.
  intros He Hstop Hgo. unfold answer. step. destruct a as [resp|]; [|done].
  match goal with H : ∃ w w', io_ReadResponse _ _ _ w = _ |- _ => rename H into Hres end. step.
  match goal with H : ∃ w w', OnResponse _ _ _ _ w = _ |- _ => destruct H as (w & w' & Hon) end.
  destruct a as [resp'|err].
  - unfold now. step. eapply does_bind; [apply emit_does|]. intros _ _.
    assert (Hpass : passed es resp').
    { destruct Hres as (v & v' & Hread). by exists e, host, (up_id c), req, resp, v, v', w, w'. }
    apply does_if; intros Hs.
    + eapply does_bind; [by apply stream_does|]. intros _ _. eapply does_bind; [apply close_body_does|]. by intros _ _.
    + unfold writeResponse. eapply does_bind with (R := λ _, True).
      { step. eapply does_bind; [apply (does_log _ _ (λ _, True)); [by apply med_guest|done]|]. intros _ _. step. }
      intros ok _. eapply does_bind; [apply close_body_does|]. intros _ _.
      apply does_if; intros _; [done|]. by apply does_if.
  - refused.
    eapply does_bind; [apply close_body_does|]. by intros _ _.
Qed.

Lemma http_exchange_does e dstIP dstPort :
  e ∈ es → Itoa dstPort = port → safe (http_exchange env io e dstIP dstPort) (λ _, True).
Proof.
  intros He Hport. unfold http_exchange. rewrite Hport. step. destruct a as [req|]; [|step]. unfold now. step.
  set (host := if decide (req_Host req = "") then dstIP else req_Host req). step.
  match goal with H : ∃ w w', IsHostAllowed _ _ _ w = _ |- _ => destruct H as (w & w' & Hallow) end.
  apply does_if; intros Hb.
  { refused. step. }
  apply negb_false_iff in Hb. rewrite Hb in Hallow. step.
  match goal with H : ∃ w w', OnRequest _ _ _ _ w = _ |- _ => destruct H as (w1 & w2 & Hon) end.
  match type of Hon with _ = Some (?r, _) => destruct r as [req' err] end. destruct err as [err|].
  { refused. step. }
  set (target := JoinHostPort host port) in *.
  eapply does_bind; [apply pool_get_does|]. intros pc Hpc.
  eapply does_bind with (R := λ r, ∀ c, r = Some c → up_target c = target).
  { destruct pc as [c|]; [by apply does_ret|]. step.
    eapply does_bind; [apply (does_log _ _ (λ _, True)); [by eapply med_dial|done]|]. intros _ _.
    apply does_ret. intros c Hc. apply fmap_Some in Hc as (id & _ & ->). done. }
  intros [c|] Hc; [|eapply does_bind; [by apply writeHTTPError_does; right|]; intros _ _; step].
  specialize (Hc c eq_refl). step.
  eapply does_bind; [apply (does_log _ _ (λ _, True)); [by eapply med_upstream|done]|]. intros _ _.
  apply does_if; intros _.
  - eapply does_bind; [apply close_conn_does|]. intros _ _.
    eapply does_bind; [by apply writeHTTPError_does; right|]. intros _ _. step.
  - apply answer_does; [done| |].
    + eapply does_bind; [apply close_conn_does|]. intros _ _. step.
    + eapply does_bind; [by apply pool_put_does|]. intros _ _. step.
Qed.

Lemma https_exchange_does e e0 name c w w' :
  e ∈ es → e0 ∈ es → IsHostAllowed env e0 name w = Some (true, w') → up_target c = JoinHostPort name port →
  safe (https_exchange env io e name c) (λ _, True).
Proof.
  intros He He0 Hallow Hc. unfold https_exchange. step. destruct a as [req|]; [|step]. unfold now. step. step.
  match goal with H : ∃ w w', OnRequest _ _ _ _ w = _ |- _ => destruct H as (w1 & w2 & Hon) end.
  match type of Hon with _ = Some (?r, _) => destruct r as [req' err] end. destruct err as [err|].
  { refused. step. }
  step. eapply does_bind; [apply (does_log _ _ (λ _, True)); [by apply (med_upstream es port e0 e name req req' c w w' w1 w2)|done]|]. intros _ _.
  apply does_if; intros _; [step|]. apply answer_does; [done| |]; step.
Qed.

Lemma HandleHTTP_does l dstIP dstPort :
  (∀ e, e ∈ l → e ∈ es) → Itoa dstPort = port → safe (HandleHTTP env io l dstIP dstPort) (λ _, True).
Proof.
  intros Hl Hport. induction l as [|e l IH]; cbn [HandleHTTP]; [step|].
  eapply does_bind; [apply http_exchange_does; [apply Hl; by left|done]|]. intros more _.
  apply does_if; intros _; [|step]. apply IH. intros e' He'. apply Hl. by right.
Qed.

Lemma https_loop_does l e0 name c w w' :
  (∀ e, e ∈ l → e ∈ es) → e0 ∈ es → IsHostAllowed env e0 name w = Some (true, w') →
  up_target c = JoinHostPort name port → safe (https_loop env io l name c) (λ _, True).
Proof.
  intros Hl He0 Hallow Hc. induction l as [|e l IH]; cbn [https_loop]; [step|].
  eapply does_bind; [eapply (https_exchange_does e e0); [apply Hl; by left|done..]|]. intros more _.
  apply does_if; intros _; [|step]. apply IH. intros e' He'. apply Hl. by right.
Qed.

Lemma HandleHTTPS_does e0 l dstIP dstPort :
  e0 ∈ es → (∀ e, e ∈ l → e ∈ es) → Itoa dstPort = port → safe (HandleHTTPS env io e0 l dstIP dstPort) (λ _, True).
Proof.
  intros He0 Hl Hport. unfold HandleHTTPS. rewrite Hport. step. destruct a as [name|]; [|step].
  set (server := if decide (name = "") then dstIP else name). step.
  match goal with H : ∃ w w', IsHostAllowed _ _ _ w = _ |- _ => destruct H as (w & w' & Hallow) end.
  apply does_if; intros Hb; [apply emit_does|]. apply negb_false_iff in Hb. rewrite Hb in Hallow.
  step. eapply does_bind; [apply (does_log _ _ (λ _, True)); [by eapply med_dial|done]|]. intros _ _.
  match goal with |- does _ (match ?d with Some _ => _ | None => _ end) _ => destruct d as [id|] end; [|step].
  eapply does_bind; [by eapply (https_loop_does l e0)|]. intros _ _. apply close_conn_does.
Qed.

Lemma handlePassthrough_does e dstIP dstPort :
  e ∈ es → Itoa dstPort = port → safe (handlePassthrough env io e dstIP dstPort) (λ _, True).
Proof.
  intros He Hport. unfold handlePassthrough. rewrite Hport. step.
  match goal with H : ∃ w w', IsHostAllowed _ _ _ w = _ |- _ => destruct H as (w & w' & Hallow) end.
  apply does_if; intros Hb; [apply emit_does|]. apply negb_false_iff in Hb. rewrite Hb in Hallow.
  step. eapply does_bind; [apply (does_log _ _ (λ _, True)); [by eapply med_dial|done]|]. intros _ _.
  match goal with |- does _ (match ?d with Some _ => _ | None => _ end) _ => destruct d as [id|] end; [|step].
  step. eapply does_bind; [apply (does_log _ _ (λ _, True)); [by eapply med_tunnel|done]|]. intros _ _.
  apply close_conn_does.
Qed.

End steps.

(** What a connection of the guest to some port is. *)
Inductive connection : list (Engine W) → string → M (proxy W) unit → Prop :=
| conn_http es dstIP dstPort : connection es (Itoa dstPort) (HandleHTTP env io es dstIP dstPort)
| conn_https e0 es dstIP dstPort : connection (e0 :: es) (Itoa dstPort) (HandleHTTPS env io e0 es dstIP dstPort)
| conn_other e dstIP dstPort : connection [e] (Itoa dstPort) (handlePassthrough env io e dstIP dstPort).

(** C3: The proxy mediates all of a guest's traffic, whatever the guest, the hosts and the
    resolver do, and however the policy is changed while a connection lives: every dial and
    every tunnel is to a host that the policy allowed; every request that goes upstream is
    what [OnRequest] made of a request for an allowed host, and goes out on a connection
    dialled to that very host, a reused idle one included; every response the guest gets is
    an upstream's answer that [OnResponse] passed, and of one that is streamed the guest
    gets the head and then the body from its first byte on, as [OnResponse] left it; the
    only other bytes it gets are the proxy's own error messages. Idle connections stay filed under the host they were dialled
    to, at most four each. *)
Theorem proxy_mediates es port m p p' :
  connection es port m → pool_ok (px_pool p) → m p = Some (tt, p') →
  pool_ok (px_pool p') ∧ ∃ new, px_log p' = px_log p ++ concat new ∧ Forall (mediated es port) new.
Proof.
  intros Hc Hp Hrun. assert (Hdoes : does (mediated es port) m (λ _, True)).
  { destruct Hc as [es dstIP dstPort|e0 es dstIP dstPort|e dstIP dstPort].
    - by apply HandleHTTP_does.
    - apply HandleHTTPS_does; [by left| |done]. intros e He. by right.
    - apply handlePassthrough_does; [by left|done]. }
  destruct (Hdoes p tt p' Hp Hrun) as (? & ? & _). done.
Qed.

End mediation.

(** ** A guest, a host and a network to try the proxy on *)

(** The world: the secret cache, the requests the guest still sends, and whether the
    upstream connection holds a body nobody has read. *)
Abbreviation demo_world := (secret_cache * (list http_Request * bool))%type (only parsing).

Definition ok_response (body : string) : http_Response := {|
  resp_StatusCode := 200; resp_ProtoMajor := 1; resp_ProtoMinor := 1; resp_Header := ∅;
  resp_Body := Some (Plain {| rd_data := body; rd_end := None |}); resp_ContentLength := Z.of_nat (slen body);
  resp_TransferEncoding := []; resp_Close := false; resp_Unread := false |}.

(** A host that answers every request with "hello"; a response cannot be read while the
    body of the one before is still in the connection. *)
Definition demo_io : net_io demo_world := {|
  io_Now := mret 0; io_Handshake := mret (Some "a.test");
  io_ReadRequest := λ w : demo_world, Some (match w.2.1 with
                               | [] => (None, w)
                               | r :: rest => (Some r, (w.1, (rest, w.2.2))) end);
  io_Dial := λ _, mret (Some 1); io_DialTLS := λ _ _, mret (Some 1);
  io_WriteRequest := λ _ _, mret true;
  io_ReadResponse := λ _ _ (w : demo_world), Some (if w.2.2 then (None, w) else (Some (ok_response "hello"), (w.1, (w.2.1, true))));
  io_CloseBody := λ _ (w : demo_world), Some (tt, (w.1, (w.2.1, false)));
  io_Close := λ _, mret tt; io_WriteGuest := λ _, mret true; io_WriteGuestBytes := λ _, mret true;
  io_Header := λ _, ""; io_Copy := λ _, mret tt; io_Emit := Some (λ _, mret true) |}.

Definition demo_px_env : host_env demo_world := {|
  env_ReadFile _ := mret (Err (ErrIO "no such file")); env_Now := mret 0; env_LookupIP _ := mret None |}.

Definition px_engine (config : NetworkConfig) (rules : list NetworkHookRule) (hook : option (networkHookInvoker demo_world))
    : Engine demo_world := {|
  eng_config := config; eng_placeholders := ∅;
  eng_networkRules := compileNetworkRules (Some {| ni_Rules := rules; ni_CallbackSocket := "" |});
  eng_networkHook := hook |}.

Definition px_request (host path : string) : http_Request := {|
  req_Method := "GET"; req_URL := Some (demo_url path); req_Header := ∅; req_Host := host;
  req_Body := ""; req_ContentLength := 0; req_Close := false |}.

Definition px_start (reqs : list http_Request) : proxy demo_world := Build_proxy (∅, (reqs, false)) ∅ [].

Definition px_events (m : M (proxy demo_world) unit) (p : proxy demo_world) : list proxy_event :=
  match m p with Some (_, p') => px_log p' | None => [] end.

(** How many responses the guest got. *)
Definition is_guest (e : proxy_event) : bool := match e with EvGuest _ => true | _ => false end.
Definition guest_responses (l : list proxy_event) : nat := length (List.filter is_guest l).

Definition dials (l : list proxy_event) : list string :=
  omap (λ e, match e with EvDial t => Some t | _ => None end) l.

(** Two requests of a guest: the second is answered over the idle connection of the first. *)
Lemma proxy_mediates_witness :
  let e := px_engine demo_network [] None in
  let p := px_start [px_request "a.test" "/"; px_request "a.test" "/"] in
  let m := HandleHTTP demo_px_env demo_io [e; e] "93.184.216.34" 80 in
  (dials (px_events m p) = ["a.test:80"] ∧ guest_responses (px_events m p) = 2%nat) ∧
  ∃ p', m p = Some (tt, p') ∧ pool_ok (px_pool p') ∧
    ∃ new, px_log p' = [] ++ concat new ∧ Forall (mediated demo_px_env demo_io [e; e] (Itoa 80)) new.
Proof.
  intros e p m. split; [vm_compute; split; reflexivity|].
  assert (Hs : option_is_Some (m p) = true) by (vm_compute; reflexivity).
  destruct (m p) as [[[] p']|] eqn:H; [|discriminate Hs]. exists p'. split; [reflexivity|].
  exact (proxy_mediates demo_px_env demo_io [e; e] (Itoa 80) m p p' (conn_http _ _ _ _ _) pool_ok_empty H).
Defined.

(** ** Refusals *)

(** How an event is reported: it is put into the channel if there is one and it has room. *)
Definition reports {W} (io : net_io W) (ev : NetworkEvent) (new : list proxy_event) : Prop :=
  match io_Emit io with
  | None => new = []
  | Some send => ∃ w sent w', send ev w = Some (sent, w') ∧ new = if (sent : bool) then [EvEmit ev] else []
  end.

(** A refusal: the pool is as it was, and the log holds the report and then [answer]. *)
Definition refusal {W} (io : net_io W) (host : string) (p p' : proxy W) (answer : list proxy_event) : Prop :=
  px_pool p' = px_pool p ∧ ∃ ev new, ne_Blocked ev = true ∧ ne_Host ev = host ∧ reports io ev new ∧
    px_log p' = px_log p ++ new ++ answer.

Definition forbidden_message : proxy_event :=
  EvGuestBytes (writeHTTPError_text 403 "Forbidden" "Blocked by policy").

Section refusals.
Context {W : Type} (io : net_io W).

Lemma emit_channel ev p p' : emit io ev p = Some (tt, p') →
  px_pool p' = px_pool p ∧ ∃ new, reports io ev new ∧ px_log p' = px_log p ++ new.
Proof.
  unfold emit, reports. destruct (io_Emit io) as [send|].
  - intros (sent & q & H1 & H)%M_bind_Some. unfold on_world in H1.
    destruct (send ev (px_world p)) as [[b w]|] eqn:E; [|done]. injection H1 as <- <-.
    destruct b; [injection H as <-|apply M_ret_Some in H as [_ ->]]; (split; [done|]);
      eexists; (split; [by do 3 eexists|]); [done|by rewrite app_nil_r].
  - intros [_ ->]%M_ret_Some. split; [done|]. exists []. by rewrite app_nil_r.
Qed.

Lemma blocked_refusal r host reason p p' :
  emitBlockedEvent io r host reason p = Some (tt, p') → refusal io host p p' [].
Proof.
  intros (Hp & new & Hr & Hl)%emit_channel. split; [done|]. eexists _, new. split_and!; [| |exact Hr|]; [done..|].
  by rewrite app_nil_r.
Qed.

Lemma forbidden_refusal r host reason p more p' :
  (_ ← emitBlockedEvent io r host reason; _ ← writeHTTPError io StatusForbidden "Blocked by policy"; mret false) p
    = Some (more, p') → more = false ∧ refusal io host p p' [forbidden_message].
Proof.
  intros ([] & q & Hb & H)%M_bind_Some. apply blocked_refusal in Hb as (Hp & ev & new & ? & ? & ? & Hl).
  apply M_bind_Some in H as (u & q2 & H & [-> ->]%M_ret_Some).
  unfold writeHTTPError in H. apply M_bind_Some in H as (u3 & q3 & H3 & [= <- <-]). unfold on_world in H3.
  destruct (io_WriteGuestBytes io _ _) as [[ok w]|]; [|done]. injection H3 as <- <-.
  split; [done|]. split; [done|]. exists ev, new. split_and!; [done..|].
  cbn. by rewrite Hl, app_nil_r, <- app_assoc.
Qed.
End refusals.

(** C39: What the policy refuses costs the guest an error and nothing else. A plain HTTP
    request it refuses, for its host or for what it carries, is answered with exactly one
    403 message and ends the connection: nothing is dialled and nothing goes upstream. A
    TLS connection to a host it refuses is closed with nothing dialled and no answer at
    all, and a request it refuses on a TLS connection to an allowed host is answered with
    exactly one 403 message and does not go upstream. Each refusal is put into the channel
    of events as blocked, if there is a channel and it has room. *)
Theorem proxy_refuses {W} `{!Has secret_cache W} (env : host_env W) (io : net_io W) e dstIP dstPort p :
  (∀ req w1 t w2, io_ReadRequest io (px_world p) = Some (Some req, w1) → io_Now io w1 = Some (t, w2) →
    let host := if decide (req_Host req = "") then dstIP else req_Host req in
    (∃ w3, IsHostAllowed env e host w2 = Some (false, w3)) ∨
    (∃ w3 r err w4, IsHostAllowed env e host w2 = Some (true, w3) ∧ OnRequest env e req host w3 = Some ((r, Some err), w4)) →
    ∀ more p', http_exchange env io e dstIP dstPort p = Some (more, p') →
    more = false ∧ refusal io host p p' [forbidden_message]) ∧
  (∀ name w1 w2, io_Handshake io (px_world p) = Some (Some name, w1) →
    let host := if decide (name = "") then dstIP else name in
    IsHostAllowed env e host w1 = Some (false, w2) →
    ∀ es p', HandleHTTPS env io e es dstIP dstPort p = Some (tt, p') → refusal io host p p' []) ∧
  (∀ name c req w1 t w2 r err w3,
    io_ReadRequest io (px_world p) = Some (Some req, w1) → io_Now io w1 = Some (t, w2) →
    OnRequest env e req name w2 = Some ((r, Some err), w3) →
    ∀ more p', https_exchange env io e name c p = Some (more, p') →
    more = false ∧ refusal io name p p' [forbidden_message]).
Proof.
  split_and!.
  - intros req w1 t w2 Hread Hnow host Href more p'. unfold http_exchange.
    rewrite (M_bind_step _ _ _ _ _ (on_world_run _ p _ _ Hread)). cbv beta iota.
    rewrite (M_bind_step _ _ _ _ _ (on_world_run (io_Now io) (Build_proxy w1 (px_pool p) (px_log p)) _ _ Hnow)).
    cbv beta zeta. fold host. set (q := Build_proxy w2 (px_pool p) (px_log p)).
    destruct Href as [(w3 & Hno)|(w3 & r & err & w4 & Hyes & Hon)].
    + rewrite (M_bind_step _ _ _ _ _ (on_world_run _ q _ _ Hno)). cbn [negb]. intros H. by apply forbidden_refusal in H.
    + rewrite (M_bind_step _ _ _ _ _ (on_world_run _ q _ _ Hyes)). cbn [negb].
      rewrite (M_bind_step _ _ _ _ _ (on_world_run _ (Build_proxy w3 (px_pool p) (px_log p)) _ _ Hon)).
      intros H. by apply forbidden_refusal in H.
  - intros name w1 w2 Hshake host Hno es p'. unfold HandleHTTPS.
    rewrite (M_bind_step _ _ _ _ _ (on_world_run _ p _ _ Hshake)). cbv beta iota zeta. fold host.
    rewrite (M_bind_step _ _ _ _ _ (on_world_run _ (Build_proxy w1 (px_pool p) (px_log p)) _ _ Hno)). cbn [negb].
    intros H. by apply blocked_refusal in H.
  - intros name c req w1 t w2 r err w3 Hread Hnow Hon more p'. unfold https_exchange.
    rewrite (M_bind_step _ _ _ _ _ (on_world_run _ p _ _ Hread)). cbv beta iota.
    rewrite (M_bind_step _ _ _ _ _ (on_world_run (io_Now io) (Build_proxy w1 (px_pool p) (px_log p)) _ _ Hnow)). cbv beta zeta.
    rewrite (M_bind_step _ _ _ _ _ (on_world_run _ (Build_proxy w2 (px_pool p) (px_log p)) _ _ Hon)).
    intros H. by apply forbidden_refusal in H.
Qed.

Definition px_private_engine : Engine demo_world := px_engine demo_network [] None.

Lemma proxy_refuses_witness :
  let p := px_start [px_request "10.0.0.1" "/"] in
  ∃ more p', http_exchange demo_px_env demo_io px_private_engine "10.0.0.1" 80 p = Some (more, p') ∧
  more = false ∧ refusal demo_io "10.0.0.1" p p' [forbidden_message].
Proof.
  intros p.
  assert (Hs : option_is_Some (http_exchange demo_px_env demo_io px_private_engine "10.0.0.1" 80 p) = true)
    by (vm_compute; reflexivity).
  destruct (http_exchange demo_px_env demo_io px_private_engine "10.0.0.1" 80 p) as [[more p']|] eqn:H; [|discriminate Hs].
  exists more, p'. split; [reflexivity|].
  refine (proj1 (proxy_refuses demo_px_env demo_io px_private_engine "10.0.0.1" 80 p) (px_request "10.0.0.1" "/")
    (∅, ([], false)) 0 (∅, ([], false)) _ _ _ more p' H); [reflexivity|reflexivity|].
  left. exists (∅, ([], false)). vm_compute. reflexivity.
Defined.

(** ** What gets through or goes wrong *)

(** A guest reaches the host's own IPv6 loopback although private addresses are blocked:
    of the Host header "::1" the policy looks at what precedes the first colon, which is
    empty, while the proxy takes all of it for an address and dials [::1]:80. *)
Theorem proxy_dials_ipv6_loopback :
  nc_BlockPrivateIPs (eng_config px_private_engine) = true ∧
  in_private_range (replicate 15 0 ++ [1]) = true ∧
  let m := HandleHTTP demo_px_env demo_io [px_private_engine] "93.184.216.34" 80 in
  let l := px_events m (px_start [px_request "::1" "/"]) in
  dials l = ["[::1]:80"] ∧ guest_responses l = 1%nat.
Proof. vm_compute. done. Qed.

(** A hook that replaces the response body by "!". *)
Definition set_body_rule : NetworkHookRule := {|
  nr_Name := ""; nr_Phase := "after"; nr_Hosts := []; nr_Methods := []; nr_Path := ""; nr_Action := "";
  nr_CallbackID := "cb"; nr_TimeoutMS := 0; nr_SetHeaders := []; nr_DeleteHeaders := []; nr_SetQuery := [];
  nr_DeleteQuery := []; nr_RewritePath := ""; nr_SetResponseHeaders := []; nr_DeleteResponseHeaders := [];
  nr_BodyReplacements := [] |}.

Definition set_body_hook : networkHookInvoker demo_world := λ _ _, mret (Ok (Some {|
  cbs_Action := "mutate"; cbs_Request := None; cbs_Error := "";
  cbs_Response := Some {| rsm_Headers := None; rsm_BodyReplacements := []; rsm_SetBodyBase64 := Some "IQ==" |} |})).

(** A callback that sets the body of a response leaves the upstream's body unread in
    the connection, which goes back to the pool: the next request to that host, sent over
    it, is not answered. Without the callback both requests are. *)
Theorem set_body_desyncs :
  let reqs := [px_request "a.test" "/"; px_request "a.test" "/"] in
  let run e := px_events (HandleHTTP demo_px_env demo_io [e; e] "93.184.216.34" 80) (px_start reqs) in
  guest_responses (run (px_engine demo_network [set_body_rule] None)) = 2%nat ∧
  guest_responses (run (px_engine demo_network [set_body_rule] (Some set_body_hook))) = 1%nat.
Proof. vm_compute. done. Qed.

(** Two secrets in one query: the first for this host, the second for another. *)
Definition two_secrets : NetworkConfig := with_Secrets
  [("A", {| secret_Value := "s3cr3t"; secret_Placeholder := "PH_A"; secret_Hosts := ["a.test"]; secret_ValueFile := "" |});
   ("B", {| secret_Value := "other"; secret_Placeholder := "PH_B"; secret_Hosts := ["b.test"]; secret_ValueFile := "" |})]
  demo_network.

Definition leaking_request : http_Request := {|
  req_Method := "GET"; req_URL := Some (with_RawQuery "k=PH_A&l=PH_B" (demo_url "/")); req_Header := ∅;
  req_Host := "a.test"; req_Body := ""; req_ContentLength := 0; req_Close := false |}.

(** The report of a leak can itself contain a secret: [OnRequest] substitutes in place
    before it finds the leak, and the blocked event shows the URL of the request as it then
    is, with the real value of the other secret. *)
Theorem blocked_event_shows_secret :
  let m := HandleHTTP demo_px_env demo_io [px_engine two_secrets [] None] "93.184.216.34" 80 in
  omap (λ e, match e with EvEmit ev => Some (ne_Blocked ev, ne_URL ev) | _ => None end)
    (px_events m (px_start [leaking_request])) = [(true, "/?k=s3cr3t&l=PH_B")].
Proof. vm_compute. done. Qed.

(** Over TLS only the server name of the handshake is put to the allow list: a request on
    that connection can name any host in its Host header. *)
Theorem https_host_header_unchecked :
  let e := px_engine (with_AllowedHosts ["a.test"] demo_network) [] None in
  let l := px_events (HandleHTTPS demo_px_env demo_io e [e] "93.184.216.34" 443) (px_start [px_request "evil.test" "/"]) in
  omap (λ ev, match ev with EvUpstream c r => Some (up_target c, req_Host r) | _ => None end) l = [("a.test:443", "evil.test")].
Proof. vm_compute. done. Qed.
