(* ===== verification/Db.v ===== *)
(** * The state database: pkg/storedb, the schemas of pkg/state and pkg/lifecycle

    Several processes share one SQLite file. A component's state is the contents of
    the tables its migrations create, and a statement is a function on them. Any
    statement can also fail (busy, locked, I/O) without effect: [sg_faults] says which
    of the statements to come fail and how, so a theorem that holds for every list of
    faults holds however the database behaves. A text column that holds JSON or a time
    is represented by what it decodes to ([col]). *)

From S2P Require Import Prelude GoStrings GoStd.

Record db_error := { dbe_code : option Z; dbe_text : string }.

#[export] Instance db_error_eq_dec : EqDecision db_error.
Proof. solve_decision. Defined.

(** A text column: empty, undecodable, or the encoding of a value. *)
Inductive col (A : Type) :=
| ColEmpty
| ColBad
| ColOf (a : A).
Arguments ColEmpty {A}. Arguments ColBad {A}. Arguments ColOf {A} a.

(** What SQLite reports when another process holds the lock. *)
Definition busy_error : db_error := {| dbe_code := Some 5; dbe_text := "database is locked (5) (SQLITE_BUSY)" |}.

(** ** Rows *)

Record CleanupResult := { cu_Status : string; cu_Error : string; cu_UpdatedAt : Z }.

Record Resources := {
  rs_StateDir : string; rs_Workspace : string; rs_KernelRef : string; rs_KernelPath : string;
  rs_RootfsPath : string; rs_SubnetFile : string; rs_GatewayIP : string; rs_GuestIP : string;
  rs_SubnetCIDR : string; rs_VsockPath : string; rs_TAPName : string; rs_FirewallTable : string;
  rs_NATTable : string }.

(** Table [vm_lifecycle], primary key (vm_id, version). *)
Record life_row := {
  lr_vm_id : string; lr_version : Z; lr_backend : string; lr_phase : string;
  lr_updated_at : col Z; lr_last_error : string; lr_resources : col Resources;
  lr_cleanup : col (gmap string CleanupResult) }.

(** The configuration of a VM: its JSON text, and the [image] member it has. *)
Record vm_config := { cf_json : string; cf_Image : string }.

(** Table [vms], primary key id. *)
Record vm_row := {
  vr_id : string; vr_pid : Z; vr_status : string; vr_image : string; vr_config : col vm_config;
  vr_created_at : col Z; vr_updated_at : col Z }.

(** Table [subnet_allocations], primary key vm_id, unique octet. *)
Record subnet_row := {
  sr_vm_id : string; sr_octet : Z; sr_gateway_ip : string; sr_guest_ip : string; sr_subnet : string }.

Record storage := {
  sg_vms : list vm_row;
  sg_subnets : list subnet_row;
  sg_lifecycle : list life_row;
  sg_heads : gmap string Z;
  sg_now : Z;
  sg_faults : list (option db_error) }.

Definition with_faults (f : list (option db_error)) (s : storage) : storage := {|
  sg_vms := sg_vms s; sg_subnets := sg_subnets s; sg_lifecycle := sg_lifecycle s; sg_heads := sg_heads s;
  sg_now := sg_now s; sg_faults := f |}.
Definition with_vms (v : list vm_row) (s : storage) : storage := {|
  sg_vms := v; sg_subnets := sg_subnets s; sg_lifecycle := sg_lifecycle s; sg_heads := sg_heads s;
  sg_now := sg_now s; sg_faults := sg_faults s |}.
Definition with_subnets (v : list subnet_row) (s : storage) : storage := {|
  sg_vms := sg_vms s; sg_subnets := v; sg_lifecycle := sg_lifecycle s; sg_heads := sg_heads s;
  sg_now := sg_now s; sg_faults := sg_faults s |}.
Definition with_lifecycle (l : list life_row) (h : gmap string Z) (s : storage) : storage := {|
  sg_vms := sg_vms s; sg_subnets := sg_subnets s; sg_lifecycle := l; sg_heads := h;
  sg_now := sg_now s; sg_faults := sg_faults s |}.

(** ** Statements and transactions *)

Abbreviation db_M A := (M storage (result db_error A)) (only parsing).

(** A statement: its effect on the tables, unless it fails. *)
Definition stmt {A} (f : storage → result db_error (A * storage)) : db_M A := λ s,
  match sg_faults s with
  | Some e :: rest => Some (Err e, with_faults rest s)
  | faults =>
      let s := with_faults (tail faults) s in
      match f s with
      | Ok (a, s') => Some (Ok a, s')
      | Err e => Some (Err e, s)
      end
  end.

Definition query {A} (f : storage → A) : db_M A := stmt (λ s, Ok (f s, s)).
Definition exec (f : storage → storage) : db_M unit := stmt (λ s, Ok (tt, f s)).

(** ROLLBACK puts the tables back as they were when the transaction began; it is the
    one statement that does not fail. *)
Definition rollback (s0 : storage) : M storage unit :=
  modw (λ s, {| sg_vms := sg_vms s0; sg_subnets := sg_subnets s0; sg_lifecycle := sg_lifecycle s0;
                sg_heads := sg_heads s0; sg_now := sg_now s; sg_faults := sg_faults s |}).

(** BEGIN, the statements, COMMIT; a failure of any of them after BEGIN rolls back. *)
Definition transaction {A} (body : db_M A) : db_M A :=
  s0 ← getw;
  b ← exec id;
  match b with
  | Err e => mret (Err e)
  | Ok _ =>
      r ← body;
      match r with
      | Err e => _ ← rollback s0; mret (Err e)
      | Ok a =>
          c ← exec id;
          match c with
          | Err e => _ ← rollback s0; mret (Err e)
          | Ok _ => mret (Ok a)
          end
      end
  end.

Definition same_tables (s t : storage) : Prop :=
  sg_vms s = sg_vms t ∧ sg_subnets s = sg_subnets t ∧ sg_lifecycle s = sg_lifecycle t ∧ sg_heads s = sg_heads t.

(** ** Facts *)

#[export] Instance same_tables_equivalence : Equivalence same_tables.
Proof.
  split; unfold same_tables; [done| |].
  - intros s t (? & ? & ? & ?). split_and!; done.
  - intros s t u (? & ? & ? & ?) (? & ? & ? & ?). split_and!; congruence.
Qed.

(** A statement fails without effect or has its effect. *)
Lemma stmt_run {A} (f : storage → result db_error (A * storage)) s r s' :
  stmt f s = Some (r, s') →
  match r with
  | Ok a => ∃ faults, f (with_faults faults s) = Ok (a, s')
  | Err e => same_tables s s' ∧
             (head (sg_faults s) = Some (Some e) ∨ ∃ faults, f (with_faults faults s) = Err e)
  end.
Proof.
  unfold stmt. destruct (sg_faults s) as [|[e|] rest] eqn:E; cbn [tail].
  - destruct (f _) as [[a s1]|e] eqn:Ef; intros [= <- <-]; [by exists []|]. split; [done|right; by exists []].
  - intros [= <- <-]. split; [done|by left].
  - destruct (f _) as [[a s1]|e] eqn:Ef; intros [= <- <-]; [by exists rest|]. split; [done|right; by exists rest].
Qed.

Lemma query_run {A} (f : storage → A) s r s' :
  (∀ faults t, f (with_faults faults t) = f t) → query f s = Some (r, s') →
  same_tables s s' ∧ sg_now s' = sg_now s ∧ match r with Ok a => a = f s | Err e => head (sg_faults s) = Some (Some e) end.
Proof.
  intros Hf. unfold query, stmt. destruct (sg_faults s) as [|[e|] rest]; intros [= <- <-]; split_and!; try done; apply Hf.
Qed.

Lemma exec_run (f : storage → storage) s r s' :
  exec f s = Some (r, s') →
  match r with
  | Ok _ => ∃ faults, s' = f (with_faults faults s)
  | Err e => same_tables s s' ∧ sg_now s' = sg_now s ∧ head (sg_faults s) = Some (Some e)
  end.
Proof.
  unfold exec, stmt. destruct (sg_faults s) as [|[e|] rest] eqn:E; intros [= <- <-]; [by exists []|done|by exists rest].
Qed.

(** A transaction fails without effect, or does all of its body. *)
Lemma transaction_run {A} (body : db_M A) s r s' :
  (∀ s1 r1 s2, body s1 = Some (r1, s2) → sg_now s2 = sg_now s1) →
  transaction body s = Some (r, s') →
  sg_now s' = sg_now s ∧
  match r with
  | Err _ => same_tables s s'
  | Ok a => ∃ faults1 s1 s2, body (with_faults faults1 s) = Some (Ok a, s1) ∧ same_tables s1 s2 ∧ s' = s2
  end.
Proof.
  intros Hnow. unfold transaction. intros (s0 & w0 & H0 & Hrun)%M_bind_Some.
  injection H0 as <- <-. apply M_bind_Some in Hrun as (b & w1 & Hb & Hrun).
  apply exec_run in Hb. destruct b as [u|e].
  - destruct Hb as [f1 ->]. apply M_bind_Some in Hrun as (r1 & w2 & Hbody & Hrun).
    pose proof (Hnow _ _ _ Hbody) as Hn. cbn in Hn. destruct r1 as [a|e].
    + apply M_bind_Some in Hrun as (c & w3 & Hc & Hrun). apply exec_run in Hc. destruct c as [u'|e].
      * destruct Hc as [f2 ->]. apply M_ret_Some in Hrun as [-> ->]. split; [by rewrite <- Hn|].
        exists f1, w2, (id (with_faults f2 w2)). split_and!; [done|split_and!; done|done].
      * destruct Hc as (_ & Hn3 & _). apply M_bind_Some in Hrun as (u' & w4 & Hr & Hrun). injection Hr as <- <-.
        apply M_ret_Some in Hrun as [-> ->]. cbn. split; [congruence|by split_and!].
    + apply M_bind_Some in Hrun as (u' & w4 & Hr & Hrun). injection Hr as <- <-.
      apply M_ret_Some in Hrun as [-> ->]. cbn. split; [congruence|by split_and!].
  - destruct Hb as (? & ? & _). apply M_ret_Some in Hrun as [-> ->]. done.
Qed.
