(* ===== verification/Lifecycle.v ===== *)
(** * VM lifecycle records: pkg/lifecycle/state_machine.go, record.go

    Each VM has an append-only history of versioned records in the shared database;
    its current record is the one with the highest version. A [Store] loads it,
    changes it and appends the result in a transaction, retrying while the database is
    busy. Phase changes go through the transition table. *)

From S2P Require Import Prelude GoStrings GoStd GoPath Db.

(** ** The state machine *)

Definition PhaseCreating : string := "creating".
Definition PhaseCreated : string := "created".
Definition PhaseStarting : string := "starting".
Definition PhaseRunning : string := "running".
Definition PhaseStopping : string := "stopping".
Definition PhaseStopped : string := "stopped".
Definition PhaseCleaning : string := "cleaning".
Definition PhaseCleaned : string := "cleaned".
Definition PhaseCreateFailed : string := "create_failed".
Definition PhaseStartFailed : string := "start_failed".
Definition PhaseStopFailed : string := "stop_failed".
Definition PhaseCleanupFailed : string := "cleanup_failed".

(** The table; a phase with no entry has no successors. *)
Definition allowedTransitions (from : string) : list string :=
  if decide (from = PhaseCreating) then [PhaseCreating; PhaseCreated; PhaseCreateFailed; PhaseCleaning]
  else if decide (from = PhaseCreated) then [PhaseCreated; PhaseStarting; PhaseStopping; PhaseCleaning]
  else if decide (from = PhaseStarting) then
    [PhaseStarting; PhaseRunning; PhaseStartFailed; PhaseStopping; PhaseCleaning]
  else if decide (from = PhaseRunning) then [PhaseRunning; PhaseStopping; PhaseCleaning]
  else if decide (from = PhaseStopping) then [PhaseStopping; PhaseStopped; PhaseStopFailed; PhaseCleaning]
  else if decide (from = PhaseStopped) then [PhaseStopped; PhaseCleaning; PhaseCleaned]
  else if decide (from = PhaseCleaning) then [PhaseCleaning; PhaseCleaned; PhaseCleanupFailed]
  else if decide (from = PhaseCreateFailed) then [PhaseCreateFailed; PhaseCleaning; PhaseCleanupFailed]
  else if decide (from = PhaseStartFailed) then
    [PhaseStartFailed; PhaseStopping; PhaseCleaning; PhaseCleanupFailed]
  else if decide (from = PhaseStopFailed) then [PhaseStopFailed; PhaseCleaning; PhaseCleanupFailed]
  else if decide (from = PhaseCleanupFailed) then [PhaseCleanupFailed; PhaseCleaning; PhaseCleaned]
  else if decide (from = PhaseCleaned) then [PhaseCleaned]
  else [].

Inductive life_error :=
| ErrReadRecord (cause : option db_error)
| ErrDecodeRecord
| ErrWriteRecord (cause : option db_error)
| ErrInvalidPhase (from to : string).

Definition validateTransition (from to : string) : option life_error :=
  let from := if decide (from = "") then PhaseCreating else from in
  if decide (to = "") then Some (ErrInvalidPhase from to)
  else if bool_decide (to ∈ allowedTransitions from) then None else Some (ErrInvalidPhase from to).

(** ** Records and stores *)

(** [UpdatedAt] is [None] for the zero time. *)
Record LifeRecord := {
  rec_Version : Z; rec_VMID : string; rec_Backend : string; rec_Phase : string;
  rec_UpdatedAt : option Z; rec_LastError : string; rec_Resources : Resources;
  rec_Cleanup : gmap string CleanupResult }.

Definition no_resources : Resources := {|
  rs_StateDir := ""; rs_Workspace := ""; rs_KernelRef := ""; rs_KernelPath := ""; rs_RootfsPath := "";
  rs_SubnetFile := ""; rs_GatewayIP := ""; rs_GuestIP := ""; rs_SubnetCIDR := ""; rs_VsockPath := "";
  rs_TAPName := ""; rs_FirewallTable := ""; rs_NATTable := "" |}.

Definition state_dir (dir : string) : Resources := {|
  rs_StateDir := dir; rs_Workspace := ""; rs_KernelRef := ""; rs_KernelPath := ""; rs_RootfsPath := "";
  rs_SubnetFile := ""; rs_GatewayIP := ""; rs_GuestIP := ""; rs_SubnetCIDR := ""; rs_VsockPath := "";
  rs_TAPName := ""; rs_FirewallTable := ""; rs_NATTable := "" |}.

Definition with_Phase (p : string) (r : LifeRecord) : LifeRecord := {|
  rec_Version := rec_Version r; rec_VMID := rec_VMID r; rec_Backend := rec_Backend r; rec_Phase := p;
  rec_UpdatedAt := rec_UpdatedAt r; rec_LastError := rec_LastError r; rec_Resources := rec_Resources r;
  rec_Cleanup := rec_Cleanup r |}.
Definition with_LastError (e : string) (r : LifeRecord) : LifeRecord := {|
  rec_Version := rec_Version r; rec_VMID := rec_VMID r; rec_Backend := rec_Backend r; rec_Phase := rec_Phase r;
  rec_UpdatedAt := rec_UpdatedAt r; rec_LastError := e; rec_Resources := rec_Resources r;
  rec_Cleanup := rec_Cleanup r |}.
Definition with_Resources (x : Resources) (r : LifeRecord) : LifeRecord := {|
  rec_Version := rec_Version r; rec_VMID := rec_VMID r; rec_Backend := rec_Backend r; rec_Phase := rec_Phase r;
  rec_UpdatedAt := rec_UpdatedAt r; rec_LastError := rec_LastError r; rec_Resources := x;
  rec_Cleanup := rec_Cleanup r |}.
Definition with_Cleanup (c : gmap string CleanupResult) (r : LifeRecord) : LifeRecord := {|
  rec_Version := rec_Version r; rec_VMID := rec_VMID r; rec_Backend := rec_Backend r; rec_Phase := rec_Phase r;
  rec_UpdatedAt := rec_UpdatedAt r; rec_LastError := rec_LastError r; rec_Resources := rec_Resources r;
  rec_Cleanup := c |}.
Definition with_UpdatedAt (t : Z) (r : LifeRecord) : LifeRecord := {|
  rec_Version := rec_Version r; rec_VMID := rec_VMID r; rec_Backend := rec_Backend r; rec_Phase := rec_Phase r;
  rec_UpdatedAt := Some t; rec_LastError := rec_LastError r; rec_Resources := rec_Resources r;
  rec_Cleanup := rec_Cleanup r |}.
Definition with_VMID (id : string) (r : LifeRecord) : LifeRecord := {|
  rec_Version := rec_Version r; rec_VMID := id; rec_Backend := rec_Backend r; rec_Phase := rec_Phase r;
  rec_UpdatedAt := rec_UpdatedAt r; rec_LastError := rec_LastError r; rec_Resources := rec_Resources r;
  rec_Cleanup := rec_Cleanup r |}.

(** [initErr] is the error opening the database gave. *)
Record Store := { st_vmDir : string; st_vmID : string; st_initErr : option db_error }.

Definition set_vmID (id : string) (s : Store) : Store :=
  {| st_vmDir := st_vmDir s; st_vmID := id; st_initErr := st_initErr s |}.

(** [openErr] is what opening the database returned. *)
Definition NewStore (openErr : option db_error) (vmDir : string) : Store :=
  {| st_vmDir := vmDir; st_vmID := Base (Clean vmDir); st_initErr := openErr |}.

Definition readyNoLock (s : Store) : option life_error :=
  match st_initErr s with Some e => Some (ErrReadRecord (Some e)) | None => None end.

Definition resolveVMIDNoLock (s : Store) : string :=
  if negb (bool_decide (st_vmID s = "")) && negb (bool_decide (st_vmID s = ".")) then st_vmID s
  else
    let base := Base (Clean (st_vmDir s)) in
    if bool_decide (base = ".") || bool_decide (base = "/") then "" else base.

Definition time_Now : M storage Z := λ s, Some (sg_now s, s).

(** ** Reading *)

(** The rows of a VM, in table order. *)
Definition vm_history (id : string) (rows : list life_row) : list life_row :=
  filter (λ r, lr_vm_id r = id) rows.

(** [MAX(version)] of a list of rows, 0 for none. *)
Definition max_version (rows : list life_row) : Z := foldr (λ r m, Z.max (lr_version r) m) 0 rows.

(** [ORDER BY version DESC LIMIT 1] *)
Fixpoint latest (rows : list life_row) : option life_row :=
  match rows with
  | [] => None
  | r :: rows' =>
      match latest rows' with
      | Some r' => if lr_version r' <? lr_version r then Some r else Some r'
      | None => Some r
      end
  end.

Definition decodeLifecycleRecord (r : life_row) : result life_error LifeRecord :=
  match lr_updated_at r, lr_resources r, lr_cleanup r with
  | ColBad, _, _ | _, ColBad, _ | _, _, ColBad => Err ErrDecodeRecord
  | t, res, cl => Ok {|
      rec_Version := lr_version r; rec_VMID := lr_vm_id r; rec_Backend := lr_backend r;
      rec_Phase := lr_phase r; rec_UpdatedAt := match t with ColOf z => Some z | _ => None end;
      rec_LastError := lr_last_error r;
      rec_Resources := match res with ColOf x => x | _ => no_resources end;
      rec_Cleanup := match cl with ColOf x => x | _ => ∅ end |}
  end.

Definition blank_record (id : string) : LifeRecord := {|
  rec_Version := 0; rec_VMID := id; rec_Backend := ""; rec_Phase := PhaseCreating; rec_UpdatedAt := None;
  rec_LastError := ""; rec_Resources := no_resources; rec_Cleanup := ∅ |}.

Definition loadNoLock (st : Store) : M storage (result life_error LifeRecord) :=
  let vmID := resolveVMIDNoLock st in
  if decide (vmID = "") then mret (Ok (blank_record ""))
  else
    row ← query (λ s, latest (vm_history vmID (sg_lifecycle s)));
    mret (match row with
          | Err e => Err (ErrReadRecord (Some e))
          | Ok None => Ok (blank_record vmID)
          | Ok (Some r) => decodeLifecycleRecord r
          end).

Definition Store_Load (st : Store) : M storage (result life_error LifeRecord) :=
  match readyNoLock st with
  | Some e => mret (Err e)
  | None => loadNoLock st
  end.

Definition Store_Exists (st : Store) : M storage bool :=
  match readyNoLock st with
  | Some _ => mret false
  | None =>
      let vmID := resolveVMIDNoLock st in
      if decide (vmID = "") then mret false
      else
        found ← query (λ s, negb (bool_decide (vm_history vmID (sg_lifecycle s) = [])));
        mret (match found with Ok b => b | Err _ => false end)
  end.

Fixpoint decode_all (rows : list life_row) : result life_error (list LifeRecord) :=
  match rows with
  | [] => Ok []
  | r :: rows' => rec ← decodeLifecycleRecord r; recs ← decode_all rows'; Ok (rec :: recs)
  end.

Definition Store_History (st : Store) : M storage (result life_error (list LifeRecord)) :=
  match readyNoLock st with
  | Some e => mret (Err e)
  | None =>
      let vmID := resolveVMIDNoLock st in
      if decide (vmID = "") then mret (Ok [])
      else
        rows ← query (λ s, sort_by (λ a b, lr_version a <=? lr_version b) (vm_history vmID (sg_lifecycle s)));
        mret (match rows with
              | Err e => Err (ErrReadRecord (Some e))
              | Ok rows => decode_all rows
              end)
  end.

(** ** Writing *)

Definition sqlitePrimaryErrMask : Z := 0xFF.
Definition sqlitePrimaryBusy : Z := 5.
Definition sqlitePrimaryLocked : Z := 6.
Definition recordWriteRetryAttempts : nat := 8.

Definition isSQLiteBusy (e : db_error) : bool :=
  match dbe_code e with
  | Some c => let p := Z.land c sqlitePrimaryErrMask in (p =? sqlitePrimaryBusy) || (p =? sqlitePrimaryLocked)
  | None => false
  end
  || (let msg := ToLower (dbe_text e) in
      Contains msg "database is locked" || Contains msg "database is busy").

(** The upsert of [vm_lifecycle_head] and the version it returns. *)
Definition nextLifecycleVersion (vmID : string) : db_M Z :=
  stmt (λ s,
    let version := match sg_heads s !! vmID with
                   | Some h => h + 1
                   | None => max_version (vm_history vmID (sg_lifecycle s)) + 1
                   end in
    Ok (version, with_lifecycle (sg_lifecycle s) (<[vmID := version]> (sg_heads s)) s)).

(** SQLITE_CONSTRAINT_PRIMARYKEY *)
Definition constraint_error : db_error :=
  {| dbe_code := Some 1555; dbe_text := "constraint failed: UNIQUE constraint failed" |}.

Definition record_row (version : Z) (rec : LifeRecord) : life_row := {|
  lr_vm_id := rec_VMID rec; lr_version := version; lr_backend := rec_Backend rec;
  lr_phase := rec_Phase rec;
  lr_updated_at := match rec_UpdatedAt rec with Some t => ColOf t | None => ColEmpty end;
  lr_last_error := rec_LastError rec; lr_resources := ColOf (rec_Resources rec);
  lr_cleanup := ColOf (rec_Cleanup rec) |}.

Definition insert_row (row : life_row) : db_M unit :=
  stmt (λ s,
    if existsb (λ r, bool_decide (lr_vm_id r = lr_vm_id row) && (lr_version r =? lr_version row)) (sg_lifecycle s)
    then Err constraint_error
    else Ok (tt, with_lifecycle (sg_lifecycle s ++ [row]) (sg_heads s) s)).

Definition saveAttemptNoLock (rec : LifeRecord) : db_M Z :=
  conn ← exec id;
  match conn with
  | Err e => mret (Err e)
  | Ok _ =>
      transaction (
        v ← nextLifecycleVersion (rec_VMID rec);
        match v with
        | Err e => mret (Err e)
        | Ok version =>
            i ← insert_row (record_row version rec);
            mret (match i with Err e => Err e | Ok _ => Ok version end)
        end)
  end.

(** The retry loop, with the attempts left. *)
Fixpoint save_attempts (attempts : nat) (lastBusyErr : option db_error) (rec : LifeRecord)
    : M storage (result life_error Z) :=
  match attempts with
  | O => mret (Err (ErrWriteRecord lastBusyErr))
  | S attempts' =>
      r ← saveAttemptNoLock rec;
      match r with
      | Ok version => mret (Ok version)
      | Err e => if isSQLiteBusy e then save_attempts attempts' (Some e) rec
                 else mret (Err (ErrWriteRecord (Some e)))
      end
  end.

(** The error, and the store with the VM id it has learnt. *)
Definition saveNoLock (st : Store) (rec : LifeRecord) : M storage (option life_error * Store) :=
  let rec := if decide (rec_VMID rec = "") then with_VMID (resolveVMIDNoLock st) rec else rec in
  if decide (rec_VMID rec = "") then mret (Some (ErrWriteRecord None), st)
  else
    let st := set_vmID (rec_VMID rec) st in
    now ← time_Now;
    let rec := match rec_UpdatedAt rec with Some _ => rec | None => with_UpdatedAt now rec end in
    r ← save_attempts recordWriteRetryAttempts None rec;
    mret (result_err r, st).

Definition Store_Init (st : Store) (vmID backend stateDir : string) : M storage (option life_error * Store) :=
  match readyNoLock st with
  | Some e => mret (Some e, st)
  | None =>
      now ← time_Now;
      saveNoLock (set_vmID vmID st) {|
        rec_Version := 1; rec_VMID := vmID; rec_Backend := backend; rec_Phase := PhaseCreating;
        rec_UpdatedAt := Some now; rec_LastError := ""; rec_Resources := state_dir stateDir; rec_Cleanup := ∅ |}
  end.

Definition Store_Update (st : Store) (updateFn : LifeRecord → result life_error LifeRecord)
    : M storage (option life_error * Store) :=
  match readyNoLock st with
  | Some e => mret (Some e, st)
  | None =>
      r ← loadNoLock st;
      match r with
      | Err e => mret (Some e, st)
      | Ok rec =>
          match updateFn rec with
          | Err e => mret (Some e, st)
          | Ok rec => now ← time_Now; saveNoLock st (with_UpdatedAt now rec)
          end
      end
  end.

Definition Store_SetPhase (st : Store) (phase : string) : M storage (option life_error * Store) :=
  Store_Update st (λ r, match validateTransition (rec_Phase r) phase with
                        | Some e => Err e | None => Ok (with_Phase phase r) end).

(** The argument is the text of the error, if any. *)
Definition Store_SetLastError (st : Store) (err : option string) : M storage (option life_error * Store) :=
  Store_Update st (λ r, Ok (with_LastError (default "" err) r)).

Definition Store_SetResource (st : Store) (updateFn : Resources → Resources) : M storage (option life_error * Store) :=
  Store_Update st (λ r, Ok (with_Resources (updateFn (rec_Resources r)) r)).

Definition Store_MarkCleanup (st : Store) (name : string) (opErr : option string) : M storage (option life_error * Store) :=
  now ← time_Now;
  Store_Update st (λ r,
    Ok (with_Cleanup (<[name := {| cu_Status := match opErr with Some _ => "error" | None => "ok" end;
                                  cu_Error := default "" opErr; cu_UpdatedAt := now |}]> (rec_Cleanup r)) r)).
