(* ===== verification/LifecycleSpec.v ===== *)
(** * What lifecycle stores guarantee

    Histories are append-only, numbered without gaps and follow the state machine from what
    their writers had read, however processes interleave and the database fails; a write retries
    while the database is busy and is all or nothing; what was written is what is read. *)

From S2P Require Import Prelude GoStrings GoStd GoPath Db Lifecycle.

(** ** Histories *)

(** A phase may follow another: by a transition of the table, or because the VM id was
    initialised again. *)
Definition may_follow (p q : string) : Prop := validateTransition p q = None ∨ q = PhaseCreating.

Fixpoint linked (p : string) (l : list string) : Prop :=
  match l with
  | [] => True
  | q :: l' => may_follow p q ∧ linked q l'
  end.

Lemma linked_snoc p l q : linked p (l ++ [q]) ↔ linked p l ∧ may_follow (default p (last l)) q.
Proof.
  revert p. induction l as [|x l IH]; intros p; cbn [app linked]; [cbn; tauto|].
  rewrite IH. destruct l as [|y l]; [cbn; tauto|]. rewrite !last_cons. cbn.
  destruct (last l); cbn; tauto.
Qed.

(** The phases of the table: each may follow itself. *)
Definition known_phase (p : string) : Prop := validateTransition p p = None.

Definition history_ok (rows : list life_row) : Prop :=
  lr_version <$> rows = seqZ 1 (Z.of_nat (length rows)) ∧ Forall known_phase (lr_phase <$> rows).

Definition life_inv (s : storage) : Prop := ∀ id,
  history_ok (vm_history id (sg_lifecycle s)) ∧
  sg_heads s !! id =
    match vm_history id (sg_lifecycle s) with
    | [] => None | rows => Some (Z.of_nat (length rows)) end.

Definition life_empty (s : storage) : Prop := sg_lifecycle s = [] ∧ sg_heads s = ∅.

Lemma life_inv_empty s : life_empty s → life_inv s.
Proof. intros [Hl Hh] id. rewrite Hl, Hh. split; [split; done|]. apply lookup_empty. Qed.

Lemma life_inv_tables s t : same_tables s t → life_inv s → life_inv t.
Proof. intros (_ & _ & Hl & Hh) H id. rewrite <- Hl, <- Hh. apply H. Qed.

Lemma vm_history_app id l k : vm_history id (l ++ k) = vm_history id l ++ vm_history id k.
Proof. apply filter_app. Qed.

Lemma vm_history_snoc id l row :
  vm_history id (l ++ [row]) = vm_history id l ++ (if decide (lr_vm_id row = id) then [row] else []).
Proof. rewrite vm_history_app. by f_equal. Qed.

(** The next version of a VM, and the tables after appending its row. *)
Definition next_version (id : string) (s : storage) : Z :=
  Z.of_nat (length (vm_history id (sg_lifecycle s))) + 1.

Definition appended (row : life_row) (s s' : storage) : Prop :=
  sg_vms s' = sg_vms s ∧ sg_subnets s' = sg_subnets s ∧
  sg_lifecycle s' = sg_lifecycle s ++ [row] ∧ sg_heads s' = <[lr_vm_id row := lr_version row]> (sg_heads s).

Lemma appended_tables row s s1 t t1 :
  same_tables s s1 → same_tables t1 t → appended row s1 t1 → appended row s t.
Proof.
  intros (A1 & A2 & A3 & A4) (B1 & B2 & B3 & B4) (C1 & C2 & C3 & C4). split_and!; congruence.
Qed.

Lemma next_version_tables id s t : same_tables s t → next_version id s = next_version id t.
Proof. unfold next_version. by intros (_ & _ & -> & _). Qed.

Lemma life_inv_appended row s s' :
  life_inv s → appended row s s' → lr_version row = next_version (lr_vm_id row) s →
  known_phase (lr_phase row) → life_inv s'.
Proof.
  intros Hinv (_ & _ & Hl & Hh) Hv Hphase id. rewrite Hl, Hh, vm_history_snoc.
  destruct (Hinv id) as [[Hvs Hlink] Hhead]. destruct (decide (lr_vm_id row = id)) as [<-|Hne].
  - split.
    + split.
      * rewrite fmap_app, Hvs, length_app, Nat2Z.inj_add. cbn [length].
        rewrite seqZ_app by lia. f_equal. cbn. rewrite Hv. unfold next_version.
        rewrite seqZ_cons by lia. cbn. f_equal. lia.
      * rewrite fmap_app. apply Forall_app. split; [done|]. by apply Forall_singleton.
    + rewrite lookup_insert_eq, Hv. unfold next_version.
      destruct (vm_history (lr_vm_id row) (sg_lifecycle s)) as [|x l]; [done|].
      cbn [app]. f_equal. cbn [length]. rewrite length_app. cbn [length]. lia.
  - rewrite app_nil_r, lookup_insert_ne by done. done.
Qed.

Lemma max_version_seqZ rows :
  lr_version <$> rows = seqZ 1 (Z.of_nat (length rows)) → max_version rows = Z.of_nat (length rows).
Proof.
  intros H. unfold max_version.
  assert (Hf : ∀ l, foldr (λ r m, Z.max (lr_version r) m) 0 l = foldr Z.max 0 (lr_version <$> l)).
  { induction l as [|x l IH]; [done|]. cbn. by rewrite IH. }
  rewrite Hf, H. clear H Hf.
  assert (Hs : ∀ n, foldr Z.max 0 (seqZ 1 (Z.of_nat n)) = Z.of_nat n).
  { intros n. assert (Hgen : ∀ m, 1 <= m → foldr Z.max 0 (seqZ m (Z.of_nat n)) = if (n =? 0)%nat then 0 else m + Z.of_nat n - 1).
    { induction n as [|n IH]; intros m Hm; [done|]. rewrite seqZ_cons by lia. cbn [foldr].
      replace (Z.pred (Z.of_nat (S n))) with (Z.of_nat n) by lia. rewrite IH by lia.
      destruct n; cbn [Nat.eqb]; lia. }
    rewrite Hgen by lia. destruct n; cbn [Nat.eqb]; lia. }
  apply Hs.
Qed.

(** ** A write appends one row or changes nothing *)

Lemma stmt_now {A} (f : storage → result db_error (A * storage)) s r s' :
  (∀ t a t', f t = Ok (a, t') → sg_now t' = sg_now t) → stmt f s = Some (r, s') → sg_now s' = sg_now s.
Proof.
  intros Hf. unfold stmt. destruct (sg_faults s) as [|[e|] rest]; [|by intros [= <- <-]|];
    destruct (f _) as [[a s1]|e] eqn:E; intros [= <- <-]; try done; by rewrite (Hf _ _ _ E).
Qed.

Definition save_body (rec : LifeRecord) : db_M Z :=
  v ← nextLifecycleVersion (rec_VMID rec);
  match v with
  | Err e => mret (Err e)
  | Ok version =>
      i ← insert_row (record_row version rec);
      mret (match i with Err e => Err e | Ok _ => Ok version end)
  end.

Lemma save_body_now rec s r s' : save_body rec s = Some (r, s') → sg_now s' = sg_now s.
Proof.
  intros (v & s1 & Hv & Hrun)%M_bind_Some.
  assert (H1 : sg_now s1 = sg_now s) by (eapply stmt_now; [|exact Hv]; by intros ? ? ? [= <- <-]).
  destruct v as [version|e]; [|by apply M_ret_Some in Hrun as [-> ->]].
  apply M_bind_Some in Hrun as (i & s2 & Hi & Hrun). apply M_ret_Some in Hrun as [_ ->]. rewrite <- H1.
  eapply stmt_now; [|exact Hi]. intros t a t'. cbn. case_match; [done|]. by intros [= <- <-].
Qed.

Lemma save_body_run rec s v s' :
  life_inv s → save_body rec s = Some (Ok v, s') →
  v = next_version (rec_VMID rec) s ∧ appended (record_row v rec) s s'.
Proof.
  intros Hinv (v1 & s1 & Hv & Hrun)%M_bind_Some. apply stmt_run in Hv.
  destruct v1 as [version|e]; [|by apply M_ret_Some in Hrun as [? _]].
  destruct Hv as (f1 & [= <- <-]). apply M_bind_Some in Hrun as (i & s2 & Hi & Hrun).
  apply M_ret_Some in Hrun as [Hres ->]. apply stmt_run in Hi. destruct i as [u|e]; [|done].
  injection Hres as ->. destruct Hi as (f2 & Hi). cbn -[vm_history max_version] in Hi. revert Hi.
  destruct (Hinv (rec_VMID rec)) as [[Hvs _] Hhead].
  assert (Hnext : match sg_heads s !! rec_VMID rec with
                  | Some h => h + 1 | None => max_version (vm_history (rec_VMID rec) (sg_lifecycle s)) + 1 end
                  = next_version (rec_VMID rec) s).
  { rewrite Hhead. unfold next_version. destruct (vm_history _ _) as [|x l]; [done|]. done. }
  rewrite Hnext. destruct (existsb _ _); [done|]. intros Heq. injection Heq as Heq. subst s2. by split.
Qed.

Lemma saveAttempt_run rec s r s' :
  life_inv s → saveAttemptNoLock rec s = Some (r, s') →
  sg_now s' = sg_now s ∧
  match r with
  | Ok v => v = next_version (rec_VMID rec) s ∧ appended (record_row v rec) s s'
  | Err _ => same_tables s s'
  end.
Proof.
  intros Hinv (c & s1 & Hc & Hrun)%M_bind_Some. apply exec_run in Hc. destruct c as [u|e].
  - destruct Hc as [f ->]. fold (save_body rec) in Hrun.
    apply transaction_run in Hrun as [Hn Hr]; [|apply save_body_now]. split; [exact Hn|].
    destruct r as [v|e]; [|exact Hr]. destruct Hr as (f1 & s2 & s3 & Hbody & Hst & ->).
    apply save_body_run in Hbody as [Hv Ha]; [|exact Hinv]. split; [exact Hv|].
    exact (appended_tables _ s _ s3 _ ltac:(done) Hst Ha).
  - apply M_ret_Some in Hrun as [-> ->]. by destruct Hc as (? & ? & _).
Qed.

Lemma save_attempts_run n last rec s r s' :
  life_inv s → save_attempts n last rec s = Some (r, s') →
  sg_now s' = sg_now s ∧
  match r with
  | Ok v => v = next_version (rec_VMID rec) s ∧ appended (record_row v rec) s s'
  | Err _ => same_tables s s'
  end.
Proof.
  revert last s. induction n as [|n IH]; intros last s Hinv; cbn [save_attempts].
  { by intros [-> ->]%M_ret_Some. }
  intros (r1 & s1 & H1 & Hrun)%M_bind_Some. apply saveAttempt_run in H1 as [Hn H1]; [|done].
  destruct r1 as [v|e]; [by apply M_ret_Some in Hrun as [-> ->]|].
  destruct (isSQLiteBusy e); [|by apply M_ret_Some in Hrun as [-> ->]].
  apply IH in Hrun as [Hn' Hr]; [|by eapply life_inv_tables]. split; [congruence|].
  destruct r as [v|e']; [|by trans s1]. destruct Hr as [Hv Ha].
  rewrite (next_version_tables _ s s1) by done. split; [exact Hv|]. by eapply appended_tables.
Qed.

(** The record a save writes, and its row. *)
Definition saved_record (st : Store) (now : Z) (rec : LifeRecord) : LifeRecord :=
  let rec := if decide (rec_VMID rec = "") then with_VMID (resolveVMIDNoLock st) rec else rec in
  match rec_UpdatedAt rec with Some _ => rec | None => with_UpdatedAt now rec end.

Definition saved_row (id : string) (rec : LifeRecord) (s : storage) : life_row :=
  record_row (next_version id s) rec.

Lemma rec_VMID_UpdatedAt (now : Z) (r : LifeRecord) :
  rec_VMID (match rec_UpdatedAt r with Some _ => r | None => with_UpdatedAt now r end) = rec_VMID r.
Proof. by destruct (rec_UpdatedAt r). Qed.

Lemma saveNoLock_run st rec s err st' s' :
  life_inv s → saveNoLock st rec s = Some ((err, st'), s') →
  sg_now s' = sg_now s ∧
  match err with
  | None => let rec' := saved_record st (sg_now s) rec in
            rec_VMID rec' ≠ "" ∧ st' = set_vmID (rec_VMID rec') st ∧
            appended (saved_row (rec_VMID rec') rec' s) s s'
  | Some _ => same_tables s s'
  end.
Proof.
  intros Hinv. unfold saveNoLock, saved_record.
  set (rec1 := if decide (rec_VMID rec = "") then _ else _).
  destruct (decide (rec_VMID rec1 = "")) as [He|He]; [by intros [[= -> ->] ->]%M_ret_Some|].
  intros (now & s0 & [= <- <-] & Hrun)%M_bind_Some.
  apply M_bind_Some in Hrun as (r & s1 & Hrun & Hret). apply M_ret_Some in Hret as [[= -> ->] ->].
  apply save_attempts_run in Hrun as [Hn Hr]; [|done]. split; [exact Hn|].
  destruct r as [v|e]; cbn [result_err]; [|exact Hr]. destruct Hr as [-> Ha].
  rewrite rec_VMID_UpdatedAt in *. done.
Qed.

(** ** Reading gives the last row *)

Lemma latest_last rows n :
  lr_version <$> rows = seqZ n (Z.of_nat (length rows)) → latest rows = last rows.
Proof.
  revert n. induction rows as [|r rows IH]; intros n; [done|].
  cbn [length fmap list_fmap latest]. rewrite seqZ_cons by lia. intros [= Hr Hrows].
  replace (Z.pred (Z.of_nat (S (length rows)))) with (Z.of_nat (length rows)) in Hrows by lia.
  rewrite (IH (Z.succ n) Hrows), last_cons. destruct (last rows) as [r'|] eqn:El; [|done].
  assert (Hge : n < lr_version r').
  { apply last_Some in El as [l ->]. assert (Hin : lr_version r' ∈ lr_version <$> l ++ [r']) by set_solver.
    rewrite Hrows in Hin. apply elem_of_seqZ in Hin. lia. }
  destruct (Z.ltb_spec (lr_version r') (lr_version r)); [lia|done].
Qed.

(** The phase of the last row of a VM: [creating] when there is none. *)
Definition last_phase (id : string) (s : storage) : string :=
  default PhaseCreating (last (lr_phase <$> vm_history id (sg_lifecycle s))).

Lemma vm_history_id id rows r : r ∈ vm_history id rows → lr_vm_id r = id.
Proof. by intros [? _]%list_elem_of_filter. Qed.

Lemma latest_history id s :
  life_inv s → latest (vm_history id (sg_lifecycle s)) = last (vm_history id (sg_lifecycle s)).
Proof. intros Hinv. destruct (Hinv id) as [[Hvs _] _]. by eapply latest_last. Qed.

Lemma decode_run r rec :
  decodeLifecycleRecord r = Ok rec → rec_VMID rec = lr_vm_id r ∧ rec_Phase rec = lr_phase r.
Proof.
  unfold decodeLifecycleRecord.
  destruct (lr_updated_at r), (lr_resources r), (lr_cleanup r); by intros [= <-].
Qed.

Lemma loadNoLock_run st s r s' :
  life_inv s → loadNoLock st s = Some (r, s') →
  same_tables s s' ∧ sg_now s' = sg_now s ∧
  ∀ rec, r = Ok rec → rec_VMID rec = resolveVMIDNoLock st ∧
    (rec_VMID rec ≠ "" → rec_Phase rec = last_phase (rec_VMID rec) s).
Proof.
  intros Hinv. unfold loadNoLock. destruct (decide (resolveVMIDNoLock st = "")) as [He|He].
  { intros [-> ->]%M_ret_Some. split_and!; [done..|]. intros rec [= <-]. by rewrite He. }
  intros (row & s1 & Hq & [-> ->]%M_ret_Some)%M_bind_Some.
  apply query_run in Hq as (Ht & Hn & Hrow); [|done]. split_and!; [done..|].
  intros rec. destruct row as [[row|]|e]; [| |done].
  - intros [Hid Hph]%decode_run. rewrite latest_history in Hrow by done. symmetry in Hrow.
    assert (Hin : row ∈ vm_history (resolveVMIDNoLock st) (sg_lifecycle s)).
    { apply last_Some in Hrow as [l ->]. set_solver. }
    apply vm_history_id in Hin. rewrite Hid, Hin. split; [done|]. intros _.
    unfold last_phase. rewrite fmap_last, Hrow. exact Hph.
  - intros [= <-]. split; [done|]. intros _. cbn [rec_VMID rec_Phase blank_record].
    rewrite latest_history in Hrow by done. unfold last_phase. by rewrite fmap_last, <- Hrow.
Qed.

(** ** Updates *)

Lemma allowed_known p q : q ∈ allowedTransitions p → validateTransition q q = None.
Proof.
  unfold allowedTransitions.
  repeat (destruct (decide (p = _)) as [->|_];
    [intros H; repeat (apply elem_of_cons in H as [->|H]; [reflexivity|]); by apply elem_of_nil in H|]).
  by intros ?%elem_of_nil.
Qed.

Lemma may_follow_known p q : may_follow p q → validateTransition q q = None.
Proof.
  intros [H| ->]; [|reflexivity]. revert H. unfold validateTransition at 1.
  destruct (decide (q = "")); [done|]. case_bool_decide as Hin; [|done]. intros _. by eapply allowed_known.
Qed.

Lemma last_phase_known id s : life_inv s → validateTransition (last_phase id s) (last_phase id s) = None.
Proof.
  intros Hinv. destruct (Hinv id) as [[_ Hl] _]. unfold last_phase. revert Hl.
  generalize (lr_phase <$> vm_history id (sg_lifecycle s)). intros l.
  destruct l as [|q l _] using rev_ind; [reflexivity|]. rewrite last_snoc.
  intros [_ H]%Forall_app. rewrite Forall_singleton in H. exact H.
Qed.

(** What an update function may do to a record: nothing to its id, and with its phase
    only what the table allows. *)
Definition update_fn_ok (f : LifeRecord → result life_error LifeRecord) : Prop := ∀ r r',
  f r = Ok r' → rec_VMID r' = rec_VMID r ∧
  (rec_Phase r' = rec_Phase r ∨ validateTransition (rec_Phase r) (rec_Phase r') = None).

(** The one row a step may add. *)
Definition life_change (s s' : storage) : Prop :=
  same_tables s s' ∨
  ∃ row, appended row s s' ∧ lr_version row = next_version (lr_vm_id row) s ∧
    may_follow (last_phase (lr_vm_id row) s) (lr_phase row).

Lemma life_change_inv s s' : life_inv s → life_change s s' → life_inv s'.
Proof.
  intros Hinv [Ht|(row & Ha & Hv & Hp)]; [by eapply life_inv_tables|]. eapply life_inv_appended; [done..|]. by eapply may_follow_known.
Qed.

Lemma saved_record_id st now rec : rec_VMID rec ≠ "" → rec_VMID (saved_record st now rec) = rec_VMID rec.
Proof. intros H. unfold saved_record. rewrite decide_False by done. by apply rec_VMID_UpdatedAt. Qed.

Lemma saved_record_resolved st now rec :
  rec_VMID rec = resolveVMIDNoLock st → rec_VMID (saved_record st now rec) = rec_VMID rec.
Proof.
  intros H. unfold saved_record. rewrite rec_VMID_UpdatedAt. destruct (decide (rec_VMID rec = "")); [|done].
  cbn. by rewrite H.
Qed.

Lemma saved_record_phase st now rec : rec_Phase (saved_record st now rec) = rec_Phase rec.
Proof. unfold saved_record. by destruct (decide _), (rec_UpdatedAt _). Qed.

Lemma Store_Update_change st f s r s' :
  life_inv s → update_fn_ok f → Store_Update st f s = Some (r, s') → life_change s s'.
Proof.
  intros Hinv Hf. unfold Store_Update. destruct (readyNoLock st); [by intros [_ ->]%M_ret_Some; left|].
  intros (l & s1 & Hl & Hrun)%M_bind_Some. apply loadNoLock_run in Hl as (Ht & Hn & Hl); [|done].
  destruct l as [rec|e]; [|by apply M_ret_Some in Hrun as [_ ->]; left].
  destruct (f rec) as [rec'|e] eqn:E; [|by apply M_ret_Some in Hrun as [_ ->]; left].
  apply M_bind_Some in Hrun as (now & s2 & [= <- <-] & Hrun). destruct r as [err st'].
  apply saveNoLock_run in Hrun as [_ Hrun]; [|by eapply life_inv_tables].
  destruct err as [e|]; [left; by trans s1|]. destruct Hrun as (Hne & _ & Ha).
  destruct (Hl rec eq_refl) as [Hid Hph]. destruct (Hf _ _ E) as [Hid' Hph'].
  rewrite saved_record_resolved in Hne, Ha by (cbn; congruence). cbn in Hne.
  right. eexists. split_and!; [by eapply appended_tables|cbn|cbn].
  - rewrite saved_record_resolved by (cbn; congruence). symmetry. by apply next_version_tables.
  - rewrite saved_record_phase, saved_record_resolved by (cbn; congruence). cbn. rewrite Hid' in Hne |- *.
    rewrite <- Hph by done. left. destruct Hph' as [->|?]; [|done].
    rewrite Hph by done. by apply last_phase_known.
Qed.

Lemma Store_Init_change st id backend dir r s s' :
  life_inv s → Store_Init st id backend dir s = Some (r, s') → life_change s s'.
Proof.
  intros Hinv. unfold Store_Init. destruct (readyNoLock st); [by intros [_ ->]%M_ret_Some; left|].
  intros (now & s1 & [= <- <-] & Hrun)%M_bind_Some. destruct r as [[e|] st'].
  - apply saveNoLock_run in Hrun as [_ Hrun]; [by left|done].
  - apply saveNoLock_run in Hrun as [_ (_ & _ & Ha)]; [|done]. right. eexists. split_and!; [done|done|].
    right. cbn. by rewrite saved_record_phase.
Qed.

(** ** Any interleaving of the stores of any processes

    An update reads the current record, in one statement, and then tries at most eight times to
    append the new one, each time in a transaction of its own; only the mutex of its own store keeps
    other updates out meanwhile. *)

(** The reading half of an update. *)
Definition Update_begin (st : Store) (f : LifeRecord → result life_error LifeRecord) : M storage (result life_error LifeRecord) :=
  match readyNoLock st with
  | Some e => mret (Err e)
  | None =>
      r ← loadNoLock st;
      match r with
      | Err e => mret (Err e)
      | Ok rec =>
          match f rec with
          | Err e => mret (Err e)
          | Ok rec => now ← time_Now; mret (Ok (with_UpdatedAt now rec))
          end
      end
  end.

Lemma Store_Update_halves st f :
  Store_Update st f ≡ₘ (r ← Update_begin st f; match r with Err e => mret (Some e, st) | Ok rec => saveNoLock st rec end).
Proof.
  intros s. unfold Store_Update, Update_begin, mbind, M_bind. destruct (readyNoLock st); [done|].
  destruct (loadNoLock st s) as [[[rec|e] s1]|]; [|done..]. by destruct (f rec).
Qed.

(** What the operations of a store do to the record they read. *)
Inductive store_update : (LifeRecord → result life_error LifeRecord) → Prop :=
| update_phase p : store_update (λ r, match validateTransition (rec_Phase r) p with Some e => Err e | None => Ok (with_Phase p r) end)
| update_error e : store_update (λ r, Ok (with_LastError (default "" e) r))
| update_resource g : store_update (λ r, Ok (with_Resources (g (rec_Resources r)) r))
| update_cleanup n e now : store_update (λ r,
    Ok (with_Cleanup (<[n := {| cu_Status := match e with Some _ => "error" | None => "ok" end;
                               cu_Error := default "" e; cu_UpdatedAt := now |}]> (rec_Cleanup r)) r)).

(** A record to be written: the version it was made from, unless it is the first of an
    initialisation; the attempts left. *)
Record pending := { pd_from : option Z; pd_rec : LifeRecord; pd_left : nat }.

(** The database, and what the stores are writing. *)
Record lsys := { ly_db : storage; ly_pending : gmap nat pending }.

(** A save that begins. *)
Definition saving (from : option Z) (st : Store) (rec : LifeRecord) (s : storage) : pending :=
  {| pd_from := from; pd_rec := saved_record st (sg_now s) rec; pd_left := recordWriteRetryAttempts |}.

Definition init_record (vmID backend dir : string) (now : Z) : LifeRecord := {|
  rec_Version := 1; rec_VMID := vmID; rec_Backend := backend; rec_Phase := PhaseCreating;
  rec_UpdatedAt := Some now; rec_LastError := ""; rec_Resources := state_dir dir; rec_Cleanup := ∅ |}.

Definition after_attempt (i : nat) (pd : pending) (r : result db_error Z) (m : gmap nat pending) : gmap nat pending :=
  match r, pd_left pd with
  | Err e, S (S n) => if isSQLiteBusy e then <[i := {| pd_from := pd_from pd; pd_rec := pd_rec pd; pd_left := S n |}]> m else delete i m
  | _, _ => delete i m
  end.

(** The version a write gives is the one after the version its record was made from. *)
Definition unstale (pd : pending) (r : result db_error Z) : Prop :=
  match r, pd_from pd with Ok v, Some n => v = n + 1 | _, _ => True end.

(** One statement or transaction of one store; with [excl], no other write to the VM has come
    between the reading and the writing of an update. *)
Inductive life_step (excl : bool) : lsys → lsys → Prop :=
| step_env s t m :
    (** time, other components' statements, a change of the database's health *)
    sg_lifecycle s = sg_lifecycle t → sg_heads s = sg_heads t → life_step excl {| ly_db := s; ly_pending := m |} {| ly_db := t; ly_pending := m |}
| step_init i st id backend dir s m :
    m !! i = None → readyNoLock st = None → rec_VMID (saved_record (set_vmID id st) (sg_now s) (init_record id backend dir (sg_now s))) ≠ "" →
    life_step excl {| ly_db := s; ly_pending := m |}
      {| ly_db := s; ly_pending := <[i := saving None (set_vmID id st) (init_record id backend dir (sg_now s)) s]> m |}
| step_read i st f rec s s' m :
    m !! i = None → store_update f → Update_begin st f s = Some (Ok rec, s') → rec_VMID (saved_record st (sg_now s') rec) ≠ "" →
    life_step excl {| ly_db := s; ly_pending := m |} {| ly_db := s'; ly_pending := <[i := saving (Some (rec_Version rec)) st rec s']> m |}
| step_attempt i pd r s s' m :
    m !! i = Some pd → saveAttemptNoLock (pd_rec pd) s = Some (r, s') → (excl = true → unstale pd r) →
    life_step excl {| ly_db := s; ly_pending := m |} {| ly_db := s'; ly_pending := after_attempt i pd r m |}
| step_crash i s m : life_step excl {| ly_db := s; ly_pending := m |} {| ly_db := s; ly_pending := delete i m |}.

(** The phase of a version; before the first it is [creating]. *)
Definition phase_at (n : Z) (rows : list life_row) : string :=
  if n <=? 0 then PhaseCreating else default PhaseCreating (lr_phase <$> rows !! Z.to_nat (n - 1)).

Definition founded (rows : list life_row) : Prop := ∀ k row,
  rows !! k = Some row →
  lr_phase row = PhaseCreating ∨ ∃ j, 0 <= j <= Z.of_nat k ∧ validateTransition (phase_at j rows) (lr_phase row) = None.

Lemma life_inv_env s t : sg_lifecycle s = sg_lifecycle t → sg_heads s = sg_heads t → life_inv s → life_inv t.
Proof. intros Hl Hh H id. rewrite <- Hl, <- Hh. apply H. Qed.

Lemma phase_at_app n rows k : n <= Z.of_nat (length rows) → phase_at n (rows ++ k) = phase_at n rows.
Proof. intros Hn. unfold phase_at. destruct (Z.leb_spec n 0); [done|]. by rewrite lookup_app_l by lia. Qed.

Lemma phase_at_last rows : phase_at (Z.of_nat (length rows)) rows = default PhaseCreating (last (lr_phase <$> rows)).
Proof.
  unfold phase_at. destruct rows as [|r rows _] using rev_ind; [done|]. rewrite fmap_app, length_app. change (lr_phase <$> [r]) with [lr_phase r].
  rewrite last_snoc. cbn [length default].
  destruct (Z.leb_spec (Z.of_nat (length rows + 1)) 0); [lia|].
  rewrite lookup_app_r by lia. by replace (Z.to_nat (Z.of_nat (length rows + 1) - 1) - length rows)%nat with O by lia.
Qed.

Lemma founded_snoc rows row :
  founded rows →
  lr_phase row = PhaseCreating ∨ (∃ j, 0 <= j <= Z.of_nat (length rows) ∧ validateTransition (phase_at j rows) (lr_phase row) = None) →
  founded (rows ++ [row]).
Proof.
  intros Hf Hrow k r Hk. apply lookup_app_Some in Hk as [Hk|[Hlen Hk]].
  - pose proof (lookup_lt_Some _ _ _ Hk). destruct (Hf k r Hk) as [?|(j & Hj & Hp)]; [by left|right].
    exists j. split; [done|]. by rewrite phase_at_app by lia.
  - apply list_lookup_singleton_Some in Hk as [Hk <-]. destruct Hrow as [?|(j & Hj & Hp)]; [by left|right].
    exists j. split; [lia|]. by rewrite phase_at_app by lia.
Qed.

(** What a store is about to write follows the version it was made from. *)
Definition pending_ok (s : storage) (pd : pending) : Prop :=
  let rows := vm_history (rec_VMID (pd_rec pd)) (sg_lifecycle s) in
  match pd_from pd with
  | None => rec_Phase (pd_rec pd) = PhaseCreating
  | Some n => 0 <= n <= Z.of_nat (length rows) ∧ validateTransition (phase_at n rows) (rec_Phase (pd_rec pd)) = None
  end.

Record lsys_inv (excl : bool) (y : lsys) : Prop := {
  ly_inv : life_inv (ly_db y);
  ly_founded : ∀ id, founded (vm_history id (sg_lifecycle (ly_db y)));
  ly_linked : excl = true → ∀ id, linked PhaseCreating (lr_phase <$> vm_history id (sg_lifecycle (ly_db y)));
  ly_pend : ∀ i pd, ly_pending y !! i = Some pd → pending_ok (ly_db y) pd }.

Definition life_grows (s t : storage) : Prop := ∀ id,
  vm_history id (sg_lifecycle s) `prefix_of` vm_history id (sg_lifecycle t).

Lemma pending_grows s t pd : life_grows s t → pending_ok s pd → pending_ok t pd.
Proof.
  intros Hg. unfold pending_ok. destruct (pd_from pd) as [n|]; [|done]. destruct (Hg (rec_VMID (pd_rec pd))) as [k ->].
  intros [Hn Hp]. rewrite length_app, phase_at_app by lia. split; [lia|done].
Qed.

Lemma store_update_ok f : store_update f → update_fn_ok f ∧ ∀ r r', f r = Ok r' → rec_Version r' = rec_Version r.
Proof.
  unfold update_fn_ok. intros [p|e|g|n e now]; (split; intros x y Hxy; [|revert Hxy]).
  - revert Hxy. destruct (validateTransition (rec_Phase x) p) eqn:Ev; [done|]. intros [= <-]. split; [done|by right].
  - destruct (validateTransition (rec_Phase x) p); by intros [= <-].
  - injection Hxy as <-. split; [done|by left].
  - by intros [= <-].
  - injection Hxy as <-. split; [done|by left].
  - by intros [= <-].
  - injection Hxy as <-. split; [done|by left].
  - by intros [= <-].
Qed.

(** What is loaded is the last version. *)
Lemma load_version st s r s' :
  life_inv s → loadNoLock st s = Some (Ok r, s') → rec_VMID r ≠ "" →
  rec_Version r = Z.of_nat (length (vm_history (rec_VMID r) (sg_lifecycle s))).
Proof.
  intros Hinv Hload Hne. destruct (loadNoLock_run _ _ _ _ Hinv Hload) as (_ & _ & Hr). destruct (Hr r eq_refl) as [Hid _].
  rewrite Hid in Hne |- *. revert Hload. unfold loadNoLock. rewrite decide_False by done.
  intros (row & s1 & Hq & [Hrow ->]%M_ret_Some)%M_bind_Some. apply query_run in Hq as (_ & _ & Hq); [|done].
  destruct row as [row|e]; [|done]. rewrite latest_history in Hq by done. destruct (Hinv (resolveVMIDNoLock st)) as [[Hvs _] _].
  destruct row as [row|].
  - symmetry in Hq. apply last_Some in Hq as [l Hl]. rewrite Hl in Hvs |- *. symmetry in Hrow. revert Hrow. unfold decodeLifecycleRecord.
    intros Hd. assert (Hv : rec_Version r = lr_version row) by (revert Hd; destruct (lr_updated_at row), (lr_resources row), (lr_cleanup row); by intros [= <-]).
    rewrite Hv, length_app. cbn [length]. rewrite fmap_app, length_app, Nat2Z.inj_add, seqZ_app in Hvs by lia. cbn in Hvs.
    apply app_inj_2 in Hvs as [_ Hvs]; [|done]. rewrite seqZ_cons in Hvs by lia. injection Hvs as Hvs. cbn. lia.
  - injection Hrow as ->. symmetry in Hq. apply last_None in Hq as ->. done.
Qed.

Lemma Update_begin_ok st f s rec s' :
  life_inv s → store_update f → Update_begin st f s = Some (Ok rec, s') → rec_VMID (saved_record st (sg_now s') rec) ≠ "" →
  same_tables s s' ∧ pending_ok s' (saving (Some (rec_Version rec)) st rec s').
Proof.
  intros Hinv Hf. destruct (store_update_ok f Hf) as [Hfn Hver]. unfold Update_begin. destruct (readyNoLock st); [done|].
  intros (r & s1 & Hl & Hrun)%M_bind_Some. pose proof Hl as Hload. apply loadNoLock_run in Hl as (Ht & Hn & Hl); [|done].
  destruct r as [rec0|e]; [|done]. destruct (f rec0) as [rec1|e] eqn:E; [|done].
  apply M_bind_Some in Hrun as (now & s2 & [= <- <-] & [Hrec ->]%M_ret_Some). injection Hrec as ->.
  destruct (Hl rec0 eq_refl) as [Hid Hph]. destruct (Hfn _ _ E) as [Hid' Hph'].
  intros Hne. rewrite saved_record_resolved in Hne by (cbn; congruence). cbn in Hne. rewrite Hid' in Hne.
  split; [done|]. unfold pending_ok, saving. cbn [pd_from pd_rec]. rewrite saved_record_phase, saved_record_resolved by (cbn; congruence).
  cbn [rec_VMID rec_Version rec_Phase with_UpdatedAt]. rewrite Hid', (Hver _ _ E), (load_version _ _ _ _ Hinv Hload Hne).
  destruct Ht as (_ & _ & <- & _). split; [lia|]. rewrite phase_at_last. specialize (Hph Hne).
  change (default PhaseCreating _) with (last_phase (rec_VMID rec0) s). rewrite <- Hph.
  destruct Hph' as [->|?]; [|done]. rewrite Hph. by apply last_phase_known.
Qed.

(** Writing what was read of an old version: the row follows that version. *)
Lemma attempt_sound excl i pd r s s' m :
  lsys_inv excl {| ly_db := s; ly_pending := m |} → m !! i = Some pd → saveAttemptNoLock (pd_rec pd) s = Some (r, s') →
  (excl = true → unstale pd r) →
  lsys_inv excl {| ly_db := s'; ly_pending := after_attempt i pd r m |} ∧ life_grows s s'.
Proof.
  intros [Hinv Hfound Hlink Hpend] Hi Hrun Hex. cbn in *. destruct (saveAttempt_run _ _ _ _ Hinv Hrun) as [_ Hr].
  pose proof (Hpend _ _ Hi) as Hpd. set (id := rec_VMID (pd_rec pd)) in *.
  assert (Hmap : ∀ j q, after_attempt i pd r m !! j = Some q → ∃ q', m !! j = Some q' ∧ pd_from q = pd_from q' ∧ pd_rec q = pd_rec q').
  { intros j q. unfold after_attempt. destruct r as [v|e]; [intros [_ Hq]%lookup_delete_Some; by exists q|].
    destruct (pd_left pd) as [|[|n]]; [intros [_ Hq]%lookup_delete_Some; by exists q..|].
    destruct (isSQLiteBusy e); [|intros [_ Hq]%lookup_delete_Some; by exists q].
    intros [[<- <-]|[_ Hq]]%lookup_insert_Some; [by exists pd|by exists q]. }
  assert (Hkeep : life_grows s s' → ∀ j q, after_attempt i pd r m !! j = Some q → pending_ok s' q).
  { intros Hg j q Hq. destruct (Hmap j q Hq) as (q' & Hq' & Hf & Hrec). unfold pending_ok. rewrite Hf, Hrec.
    by apply (pending_grows s s' q'), (Hpend j). }
  destruct r as [v|e].
  2: { assert (Hl := Hr). destruct Hl as (_ & _ & Hl & _). assert (Hg : life_grows s s') by (intros k; by rewrite Hl). split; [|done].
       split; cbn; rewrite <- ?Hl; [by eapply life_inv_tables|done..|by apply Hkeep]. }
  destruct Hr as [-> Ha]. set (row := record_row _ _) in *. pose proof Ha as (_ & _ & Hl & _).
  assert (Hg : life_grows s s') by (intros k; rewrite Hl, vm_history_app; by apply prefix_app_r). split; [|done].
  unfold pending_ok in Hpd. cbn zeta in Hpd. fold id in Hpd.
  assert (Hph : lr_phase row = PhaseCreating ∨ ∃ j, 0 <= j <= Z.of_nat (length (vm_history id (sg_lifecycle s))) ∧
    validateTransition (phase_at j (vm_history id (sg_lifecycle s))) (lr_phase row) = None).
  { destruct (pd_from pd) as [n|]; [right; by exists n|by left]. }
  split; cbn.
  - eapply life_inv_appended; [exact Hinv|exact Ha|done|]. unfold known_phase. destruct Hph as [->|(j & _ & Hv)]; [reflexivity|].
    by eapply may_follow_known; left.
  - intros k. rewrite Hl, vm_history_snoc. cbn. fold id. destruct (decide (id = k)) as [<-|]; [by apply founded_snoc|by rewrite app_nil_r].
  - intros He k. rewrite Hl, vm_history_snoc. cbn. fold id. destruct (decide (id = k)) as [<-|]; [|rewrite app_nil_r; by apply Hlink].
    rewrite fmap_app. apply linked_snoc. split; [by apply Hlink|]. specialize (Hex He). unfold unstale in Hex.
    rewrite <- phase_at_last. destruct (pd_from pd) as [n|]; [left|by right]. destruct Hpd as [_ Hpd].
    unfold next_version in Hex. fold id in Hex. by replace n with (Z.of_nat (length (vm_history id (sg_lifecycle s)))) in Hpd by lia.
  - by apply Hkeep.
Qed.

Lemma life_step_inv excl y z : lsys_inv excl y → life_step excl y z → lsys_inv excl z ∧ life_grows (ly_db y) (ly_db z).
Proof.
  intros Hinv Hstep. pose proof Hinv as [Hi Hf Hl Hp].
  destruct Hstep as [s t m Hr Hh|j st id backend dir s m Hm Hrd Hid|j st f rec s t m Hm Hu Hb Hne|j pd r s t m Hm Hrun Hex|j s m]; cbn in *.
  - split; [|intros k; by rewrite Hr]. split; cbn; rewrite <- ?Hr; [by eapply life_inv_env|done..|].
    intros i pd Hpd. apply (pending_grows s); [intros k; by rewrite Hr|by eapply Hp].
  - split; [|by intros k]. split; cbn; try done. intros i pd [[<- <-]|[_ ?]]%lookup_insert_Some; [|by eapply Hp].
    unfold pending_ok, saving. cbn [pd_from pd_rec]. by rewrite saved_record_phase.
  - destruct (Update_begin_ok _ _ _ _ _ Hi Hu Hb Hne) as [Ht Hpd]. pose proof Ht as (_ & _ & Hr & _).
    split; [|intros k; by rewrite Hr]. split; cbn; rewrite <- ?Hr; [by eapply life_inv_tables|done..|].
    intros i pd [[<- <-]|[_ Hi']]%lookup_insert_Some; [done|]. apply (pending_grows s); [intros k; by rewrite Hr|by eapply Hp].
  - by eapply attempt_sound.
  - split; [|by intros k]. split; cbn; try done. intros i pd [_ ?]%lookup_delete_Some. by eapply Hp.
Qed.

Lemma life_steps_inv excl y z : rtc (life_step excl) y z → lsys_inv excl y → lsys_inv excl z ∧ life_grows (ly_db y) (ly_db z).
Proof.
  induction 1 as [y|y z u Hst _ IH]; intros Hinv; [split; [done|by intros id]|].
  destruct (life_step_inv excl y z Hinv Hst) as [Hinv' Hg]. destruct (IH Hinv') as [Hu Hg'].
  split; [done|]. intros id. by trans (vm_history id (sg_lifecycle (ly_db z))).
Qed.

Lemma lsys_inv_empty excl s : life_empty s → lsys_inv excl {| ly_db := s; ly_pending := ∅ |}.
Proof.
  intros H. pose proof H as [Hl _]. split; cbn; [by apply life_inv_empty|rewrite Hl; by intros id k row|rewrite Hl; by intros _ id|].
  intros i pd Hi. by rewrite lookup_empty in Hi.
Qed.

(** C13: However the lifecycle stores of any number of processes interleave (an update is a read and
    then up to eight attempts to write), fail and crash, starting from an empty table: the history of
    every VM is numbered 1, 2, 3, … without gap or duplicate, and only grows at its end; a phase is
    [creating], or follows by the transition table the phase of an earlier version (the one its writer
    had read; before the first it is [creating]). When no write to the VM comes between the reading and
    the writing of an update, each phase follows the one before it by the table, or is the [creating]
    of an initialisation. *)
Theorem lifecycle_history_sound excl s0 y z :
  life_empty s0 → rtc (life_step excl) {| ly_db := s0; ly_pending := ∅ |} y → rtc (life_step excl) y z →
  ∀ id, let h := vm_history id (sg_lifecycle (ly_db z)) in
    lr_version <$> h = seqZ 1 (Z.of_nat (length h)) ∧ founded h ∧
    (excl = true → linked PhaseCreating (lr_phase <$> h)) ∧
    vm_history id (sg_lifecycle (ly_db y)) `prefix_of` h.
Proof.
  intros H0 Hy Hz id h. destruct (life_steps_inv excl _ _ Hy (lsys_inv_empty excl s0 H0)) as [Hinv _].
  destruct (life_steps_inv excl _ _ Hz Hinv) as [[Hi Hf Hl _] Hg]. split_and!; [apply Hi|apply Hf|by intros ?; apply Hl|apply Hg].
Qed.

(** The tables after a computation that returns. *)
Definition after {A} (m : M storage A) (s : storage) : storage :=
  match m s with Some (_, s') => s' | None => s end.

Lemma after_run {A} (m : M storage A) s a s' : m s = Some (a, s') → m s = Some (a, after m s).
Proof. intros H. unfold after. by rewrite H. Qed.

Definition empty_storage (now : Z) (faults : list (option db_error)) : storage := {|
  sg_vms := []; sg_subnets := []; sg_lifecycle := []; sg_heads := ∅; sg_now := now; sg_faults := faults |}.

Definition demo_store : Store := NewStore None "/home/u/.matchlock/vms/vm-1".

(** Two stores on [vm-1]: its own, and one of another process. *)
Definition demo_sys (s : storage) (m : gmap nat pending) : lsys := {| ly_db := s; ly_pending := m |}.

(** The state after the steps of an update of store [i]. *)
Definition demo_read (i : nat) (f : LifeRecord → result life_error LifeRecord) (y : lsys) : lsys :=
  match Update_begin demo_store f (ly_db y) with
  | Some (Ok rec, s) => demo_sys s (<[i := saving (Some (rec_Version rec)) demo_store rec s]> (ly_pending y))
  | _ => y
  end.
Definition demo_attempt (i : nat) (y : lsys) : lsys :=
  match ly_pending y !! i with
  | Some pd => match saveAttemptNoLock (pd_rec pd) (ly_db y) with
               | Some (r, s) => demo_sys s (after_attempt i pd r (ly_pending y)) | None => y end
  | None => y
  end.
Definition to_phase (p : string) : LifeRecord → result life_error LifeRecord :=
  λ r, match validateTransition (rec_Phase r) p with Some e => Err e | None => Ok (with_Phase p r) end.

Definition demo_new : lsys :=
  demo_attempt 0 (demo_sys (empty_storage 7 []) (<[0%nat := saving None (set_vmID "vm-1" demo_store) (init_record "vm-1" "linux" "/d" 7) (empty_storage 7 [])]> ∅)).

Lemma demo_attempt_step excl i y :
  match ly_pending y !! i with
  | Some pd => match saveAttemptNoLock (pd_rec pd) (ly_db y) with Some (r, _) => excl = true → unstale pd r | None => False end
  | None => False
  end → life_step excl y (demo_attempt i y).
Proof.
  unfold demo_attempt. destruct y as [s0 m]. cbn [ly_pending ly_db]. destruct (m !! i) as [pd|] eqn:Hi; [|done].
  destruct (saveAttemptNoLock _ _) as [[r s]|] eqn:E; [|done]. intros Hex. by apply (step_attempt excl i pd r).
Qed.

Lemma demo_read_step excl i p y :
  ly_pending y !! i = None →
  match Update_begin demo_store (to_phase p) (ly_db y) with
  | Some (Ok rec, s) => rec_VMID (saved_record demo_store (sg_now s) rec) ≠ ""
  | _ => False
  end → life_step excl y (demo_read i (to_phase p) y).
Proof.
  intros Hi. unfold demo_read. destruct (Update_begin _ _ _) as [[[rec|e] s]|] eqn:E; [|done..]. intros Hne. destruct y as [s0 m].
  by apply (step_read excl i demo_store (to_phase p)); [..|constructor| |].
Qed.

Lemma demo_new_steps excl : rtc (life_step excl) (demo_sys (empty_storage 7 []) ∅) demo_new.
Proof.
  eapply rtc_l; [apply (step_init excl 0 demo_store "vm-1" "linux" "/d"); [reflexivity|reflexivity|vm_compute; discriminate]|]. apply rtc_once, demo_attempt_step. by vm_compute.
Qed.

Lemma demo_created_steps : rtc (life_step true) demo_new (demo_attempt 1 (demo_read 1 (to_phase PhaseCreated) demo_new)).
Proof.
  eapply rtc_l; [apply (demo_read_step true 1 PhaseCreated); [by vm_compute|vm_compute; discriminate]|]. apply rtc_once, demo_attempt_step. by vm_compute.
Qed.

Lemma lifecycle_history_sound_witness :
  let h := vm_history "vm-1" (sg_lifecycle (ly_db (demo_attempt 1 (demo_read 1 (to_phase PhaseCreated) demo_new)))) in
  lr_version <$> h = seqZ 1 (Z.of_nat (length h)) ∧ founded h ∧ (true = true → linked PhaseCreating (lr_phase <$> h)) ∧
  vm_history "vm-1" (sg_lifecycle (ly_db demo_new)) `prefix_of` h.
Proof.
  exact (lifecycle_history_sound true (empty_storage 7 []) demo_new _ (conj eq_refl eq_refl) (demo_new_steps true) demo_created_steps "vm-1").
Defined.

(** Two processes read [creating]; one takes the VM to [cleaning], the other then writes the phase it
    had decided on: a transition that the table does not have. *)
Lemma updates_overlap :
  let y := demo_attempt 2 (demo_attempt 1 (demo_read 2 (to_phase PhaseCreated) (demo_read 1 (to_phase PhaseCleaning) demo_new))) in
  rtc (life_step false) (demo_sys (empty_storage 7 []) ∅) y ∧
  lr_phase <$> vm_history "vm-1" (sg_lifecycle (ly_db y)) = [PhaseCreating; PhaseCleaning; PhaseCreated] ∧
  validateTransition PhaseCleaning PhaseCreated ≠ None.
Proof.
  split; [|by vm_compute]. etrans; [apply demo_new_steps|].
  eapply rtc_l; [apply (demo_read_step false 1 PhaseCleaning); [by vm_compute|vm_compute; discriminate]|].
  eapply rtc_l; [apply (demo_read_step false 2 PhaseCreated); [by vm_compute|vm_compute; discriminate]|].
  eapply rtc_l; [apply (demo_attempt_step false 1); by vm_compute|]. apply rtc_once, demo_attempt_step. by vm_compute.
Qed.

(** ** Retrying while the database is busy *)

(** An attempt that fails at its [j]-th statement: connection, BEGIN, upsert, insert,
    COMMIT. *)
Definition failing (a : nat * db_error) : list (option db_error) := replicate a.1 None ++ [Some a.2].

Lemma history_version_bound id s r :
  life_inv s → r ∈ sg_lifecycle s → lr_vm_id r = id → lr_version r < next_version id s.
Proof.
  intros Hinv Hr Hid. destruct (Hinv id) as [[Hvs _] _].
  assert (Hin : lr_version r ∈ lr_version <$> vm_history id (sg_lifecycle s)).
  { apply list_elem_of_fmap. exists r. split; [done|]. by apply list_elem_of_filter. }
  rewrite Hvs in Hin. apply elem_of_seqZ in Hin. unfold next_version. lia.
Qed.

Lemma insert_fresh rec s :
  life_inv s →
  existsb (λ r, bool_decide (lr_vm_id r = rec_VMID rec) && (lr_version r =? next_version (rec_VMID rec) s))
    (sg_lifecycle s) = false.
Proof.
  intros Hinv. apply not_true_iff_false. intros (r & Hr & Heq)%existsb_exists.
  apply list_elem_of_In in Hr. apply andb_true_iff in Heq as [Hid Hv].
  apply bool_decide_eq_true in Hid. apply Z.eqb_eq in Hv.
  pose proof (history_version_bound (rec_VMID rec) s r Hinv Hr Hid). lia.
Qed.

Lemma head_version id s :
  life_inv s →
  match sg_heads s !! id with
  | Some h => h + 1 | None => max_version (vm_history id (sg_lifecycle s)) + 1 end = next_version id s.
Proof.
  intros Hinv. destruct (Hinv id) as [_ ->]. unfold next_version. by destruct (vm_history _ _).
Qed.

Definition save_tables (rec : LifeRecord) (s : storage) : storage :=
  let v := next_version (rec_VMID rec) s in
  with_lifecycle (sg_lifecycle s ++ [record_row v rec]) (<[rec_VMID rec := v]> (sg_heads s)) s.

Lemma appended_save_tables rec s : appended (record_row (next_version (rec_VMID rec) s) rec) s (save_tables rec s).
Proof. by split_and!. Qed.

Lemma saveAttempt_ok rec s :
  life_inv s → sg_faults s = [] →
  saveAttemptNoLock rec s = Some (Ok (next_version (rec_VMID rec) s), save_tables rec s).
Proof.
  intros Hinv Hf. destruct s as [vms subs rows heads now faults]. cbn in Hf. subst faults.
  pose proof (head_version (rec_VMID rec) _ Hinv) as Hv. cbn -[next_version max_version vm_history] in Hv.
  pose proof (insert_fresh rec _ Hinv) as Hi. cbn -[next_version] in Hi.
  unfold saveAttemptNoLock, transaction, nextLifecycleVersion, insert_row, exec, stmt, mbind, M_bind, getw,
    save_tables. cbn -[next_version max_version vm_history]. rewrite Hv, Hi. reflexivity.
Qed.

Lemma saveAttempt_fails rec s a rest :
  life_inv s → (a.1 < 5)%nat → sg_faults s = failing a ++ rest →
  ∃ s', saveAttemptNoLock rec s = Some (Err a.2, s') ∧ same_tables s s' ∧ sg_faults s' = rest.
Proof.
  destruct a as [j e]. cbn [fst snd failing]. intros Hinv Hj Hf.
  destruct s as [vms subs rows heads now faults]. cbn in Hf. subst faults.
  pose proof (head_version (rec_VMID rec) _ Hinv) as Hv. cbn -[next_version max_version vm_history] in Hv.
  pose proof (insert_fresh rec _ Hinv) as Hi. cbn -[next_version] in Hi.
  unfold saveAttemptNoLock, transaction, nextLifecycleVersion, insert_row, exec, stmt, mbind, M_bind, getw.
  do 5 (destruct j as [|j];
    [cbn -[next_version max_version vm_history]; rewrite ?Hv, ?Hi; eexists; split; [reflexivity|by split_and!]|]).
  lia.
Qed.

Lemma save_attempts_fail n last rec s js rest :
  life_inv s → Forall (λ a, (a.1 < 5)%nat ∧ isSQLiteBusy a.2 = true) js → (length js <= n)%nat →
  sg_faults s = concat (failing <$> js) ++ rest →
  ∃ s', save_attempts n last rec s = save_attempts (n - length js) (from_option (λ a, Some a.2) last (list.last js)) rec s' ∧
    same_tables s s' ∧ sg_faults s' = rest.
Proof.
  revert n last s. induction js as [|a js IH]; intros n lst s Hinv Hjs Hn Hf.
  { exists s. rewrite Nat.sub_0_r. done. }
  apply Forall_cons in Hjs as [[Hj Hb] Hjs]. destruct n as [|n]; [cbn in Hn; lia|].
  cbn [fmap list_fmap concat] in Hf. rewrite <- app_assoc in Hf.
  destruct (saveAttempt_fails rec s a _ Hinv Hj Hf) as (s1 & H1 & Ht1 & Hf1).
  destruct (IH n (Some a.2) s1 ltac:(by eapply life_inv_tables) Hjs ltac:(cbn in Hn; lia) Hf1) as (s2 & H2 & Ht2 & Hf2).
  exists s2. split_and!; [|by trans s1|done]. cbn [save_attempts]. unfold mbind, M_bind.
  rewrite H1, Hb, H2, last_cons. cbn [length]. rewrite Nat.sub_succ. by destruct (list.last js).
Qed.

Lemma saveNoLock_attempts st rec s :
  rec_VMID rec ≠ "" →
  saveNoLock st rec s =
    match save_attempts recordWriteRetryAttempts None (saved_record st (sg_now s) rec) s with
    | Some (r, s') => Some ((result_err r, set_vmID (rec_VMID rec) st), s')
    | None => None
    end.
Proof.
  intros Hne. unfold saveNoLock, saved_record. rewrite !(decide_False (P := rec_VMID rec = "")) by done.
  unfold mbind, M_bind, time_Now. by destruct (save_attempts _ _ _ _) as [[??]|].
Qed.

(** Writing a record while the database is busy: whichever statement of an attempt
    fails, fewer than eight busy attempts are retried until the record is appended with
    the next version; after eight the write gives up with the last busy error and the
    tables are as before; an error that is not "busy" ends it at once, tables as before. *)
Theorem write_retries st rec s js rest :
  life_inv s → rec_VMID rec ≠ "" → sg_faults s = concat (failing <$> js) ++ rest →
  Forall (λ a, (a.1 < 5)%nat ∧ isSQLiteBusy a.2 = true) js →
  let st' := set_vmID (rec_VMID rec) st in
  ((length js < 8)%nat → rest = [] →
    ∃ s', saveNoLock st rec s = Some ((None, st'), s') ∧
      appended (saved_row (rec_VMID rec) (saved_record st (sg_now s) rec) s) s s') ∧
  (length js = 8%nat →
    ∃ s' a, list.last js = Some a ∧ saveNoLock st rec s = Some ((Some (ErrWriteRecord (Some a.2)), st'), s') ∧
      same_tables s s' ∧ sg_faults s' = rest) ∧
  (∀ a rest', (length js < 8)%nat → rest = failing a ++ rest' → (a.1 < 5)%nat → isSQLiteBusy a.2 = false →
    ∃ s', saveNoLock st rec s = Some ((Some (ErrWriteRecord (Some a.2)), st'), s') ∧
      same_tables s s' ∧ sg_faults s' = rest').
Proof.
  intros Hinv Hne Hf Hjs st'. rewrite (saveNoLock_attempts st rec s Hne).
  pose proof (saved_record_id st (sg_now s) rec Hne) as Hid. revert Hid.
  generalize (saved_record st (sg_now s) rec) as rec'. intros rec' Hid.
  assert (Hrun : (length js <= 8)%nat → ∃ s',
    save_attempts 8 None rec' s =
      save_attempts (8 - length js) (from_option (λ a, Some a.2) None (list.last js)) rec' s' ∧
    same_tables s s' ∧ sg_faults s' = rest) by (intros; by apply save_attempts_fail).
  unfold recordWriteRetryAttempts. split_and!.
  - intros Hlt ->. destruct Hrun as (s1 & -> & Ht & Hf1); [lia|].
    destruct (8 - length js)%nat as [|n] eqn:En; [lia|]. cbn [save_attempts]. unfold mbind, M_bind.
    rewrite saveAttempt_ok by (try done; by eapply life_inv_tables). eexists. split; [reflexivity|].
    unfold saved_row. rewrite (next_version_tables _ s s1), <- Hid by done.
    eapply appended_tables; [done..|apply appended_save_tables].
  - intros Hlen. destruct Hrun as (s1 & -> & Ht & Hf1); [lia|]. rewrite Hlen.
    destruct (list.last js) as [a|] eqn:El; [|by apply last_None in El; subst]. by exists s1, a.
  - intros a rest' Hlt -> Ha Hb. destruct Hrun as (s1 & -> & Ht & Hf1); [lia|].
    destruct (8 - length js)%nat as [|n] eqn:En; [lia|]. cbn [save_attempts].
    destruct (saveAttempt_fails rec' s1 a rest') as (s2 & H2 & Ht2 & Hf2); [by eapply life_inv_tables|done..|].
    unfold mbind, M_bind. rewrite H2, Hb. exists s2. split_and!; [done|by trans s1|done].
Qed.

Lemma write_retries_witness :
  let js := [(0%nat, busy_error); (3%nat, busy_error); (4%nat, busy_error)] in
  let s := empty_storage 7 (concat (failing <$> js)) in
  let rec := with_Phase PhaseCreated (blank_record "vm-1") in
  ∃ s', saveNoLock demo_store rec s = Some ((None, demo_store), s') ∧
    appended (saved_row "vm-1" (saved_record demo_store 7 rec) s) s s'.
Proof.
  intros js s rec. apply (write_retries demo_store rec s js []); [by apply life_inv_empty|done|done| |cbn; lia|done].
  repeat (constructor; [split; [cbn; lia|vm_compute; reflexivity]|]). constructor.
Defined.

(** ** What was written is what is read *)

Lemma loadNoLock_last st id s row rec :
  life_inv s → resolveVMIDNoLock st = id → id ≠ "" → head (sg_faults s) = None ∨ head (sg_faults s) = Some None →
  last (vm_history id (sg_lifecycle s)) = Some row → decodeLifecycleRecord row = Ok rec →
  ∃ s', loadNoLock st s = Some (Ok rec, s') ∧ same_tables s s'.
Proof.
  intros Hinv Hid Hne Hf Hrow Hrec. unfold loadNoLock. rewrite Hid, decide_False by done.
  unfold query, stmt, mbind, M_bind. destruct (sg_faults s) as [|[e|] rest]; [| |].
  - cbn [sg_lifecycle with_faults tail]. rewrite latest_history, Hrow by done. eexists.
    unfold mret, M_ret. rewrite Hrec. split; [reflexivity|done].
  - by destruct Hf.
  - cbn [sg_lifecycle with_faults tail]. rewrite latest_history, Hrow by done. eexists.
    unfold mret, M_ret. rewrite Hrec. split; [reflexivity|done].
Qed.

Definition with_Version (v : Z) (r : LifeRecord) : LifeRecord := {|
  rec_Version := v; rec_VMID := rec_VMID r; rec_Backend := rec_Backend r; rec_Phase := rec_Phase r;
  rec_UpdatedAt := rec_UpdatedAt r; rec_LastError := rec_LastError r; rec_Resources := rec_Resources r;
  rec_Cleanup := rec_Cleanup r |}.

Lemma decode_record_row v rec :
  decodeLifecycleRecord (record_row v rec) = Ok (with_Version v rec).
Proof. unfold decodeLifecycleRecord, with_Version. cbn. by destruct (rec_UpdatedAt rec). Qed.

Lemma resolve_set_vmID st id : id ≠ "" → id ≠ "." → resolveVMIDNoLock (set_vmID id st) = id.
Proof.
  intros H1 H2. unfold resolveVMIDNoLock. cbn [st_vmID set_vmID].
  by rewrite (bool_decide_eq_false_2 (id = "")), (bool_decide_eq_false_2 (id = ".")) by done.
Qed.

(** An update is a read-modify-write: when it reports success (however many busy
    attempts that took), the record it wrote is the function applied to the current
    one, stamped with the time and the next version, and the next load that can read
    the database returns exactly that record. *)
Theorem update_then_load st f s st' s' :
  life_inv s → update_fn_ok f → Store_Update st f s = Some ((None, st'), s') →
  ∃ rec rec' s1, Store_Load st s = Some (Ok rec, s1) ∧ f rec = Ok rec' ∧
    (∀ t, same_tables s' t → rec_VMID rec ≠ "." → head (sg_faults t) = None ∨ head (sg_faults t) = Some None →
      ∃ t', Store_Load st' t =
        Some (Ok (with_Version (next_version (rec_VMID rec) s) (with_UpdatedAt (sg_now s) rec')), t')).
Proof.
  intros Hinv Hf Hup. pose proof (Store_Update_change _ _ _ _ _ Hinv Hf Hup) as Hc.
  pose proof (life_change_inv _ _ Hinv Hc) as Hinv'. revert Hup. unfold Store_Update.
  destruct (readyNoLock st) eqn:Er; [by intros [[=] _]%M_ret_Some|].
  intros (l & s1 & Hl & Hrun)%M_bind_Some. pose proof Hl as Hload.
  apply loadNoLock_run in Hl as (Ht & Hn & Hl); [|done].
  destruct l as [rec|e]; [|by apply M_ret_Some in Hrun as [[=] _]].
  destruct (f rec) as [rec'|e] eqn:E; [|by apply M_ret_Some in Hrun as [[=] _]].
  apply M_bind_Some in Hrun as (now & s2 & [= <- <-] & Hrun).
  apply saveNoLock_run in Hrun as [_ (Hne & -> & Ha)]; [|by eapply life_inv_tables].
  destruct (Hl rec eq_refl) as [Hid _]. pose proof (Hf _ _ E) as [Hid' _].
  assert (Hsaved : saved_record st (sg_now s1) (with_UpdatedAt (sg_now s1) rec') = with_UpdatedAt (sg_now s1) rec').
  { unfold saved_record. cbn. destruct (decide _) as [He|]; [|done]. cbn. unfold with_VMID, with_UpdatedAt.
    cbn. congruence. }
  rewrite Hsaved in Hne, Ha |- *. cbn [rec_VMID with_UpdatedAt] in *. rewrite Hid' in *.
  exists rec, rec', s1. split_and!; [unfold Store_Load; by rewrite Er|done|].
  intros t Htt Hdot Hft. rewrite Hn in *. rewrite (next_version_tables _ s s1) by done.
  set (row := saved_row (rec_VMID rec) (with_UpdatedAt (sg_now s) rec') s1).
  destruct (loadNoLock_last (set_vmID (rec_VMID rec) st) (rec_VMID rec) t row
    (with_Version (next_version (rec_VMID rec) s1) (with_UpdatedAt (sg_now s) rec'))) as (t' & Hlt & _).
  - by eapply life_inv_tables.
  - by apply resolve_set_vmID.
  - done.
  - done.
  - destruct Ha as (_ & _ & Hrows & _), Htt as (_ & _ & <- & _). rewrite Hrows, vm_history_snoc.
    rewrite decide_True by (cbn; congruence). apply last_snoc.
  - apply decode_record_row.
  - exists t'. unfold Store_Load. replace (readyNoLock _) with (readyNoLock st) by done. by rewrite Er.
Qed.

Definition demo_created : storage := after (Store_Init demo_store "vm-1" "linux" "/d") (empty_storage 7 []).

Lemma demo_created_inv : life_inv demo_created.
Proof.
  assert (Hrun : Store_Init demo_store "vm-1" "linux" "/d" (empty_storage 7 []) = Some ((None, demo_store), demo_created)) by (vm_compute; reflexivity).
  eapply life_change_inv, Store_Init_change, Hrun; by apply life_inv_empty.
Qed.

Lemma update_then_load_witness :
  let f := λ r, Ok (with_LastError "boom" r) in
  ∃ rec rec' s1, Store_Load demo_store demo_created = Some (Ok rec, s1) ∧ f rec = Ok rec' ∧
    (∀ t, same_tables (after (Store_Update demo_store f) demo_created) t → rec_VMID rec ≠ "." →
      head (sg_faults t) = None ∨ head (sg_faults t) = Some None →
      ∃ t', Store_Load demo_store t =
        Some (Ok (with_Version (next_version (rec_VMID rec) demo_created)
          (with_UpdatedAt (sg_now demo_created) rec')), t')).
Proof.
  intros f. apply (update_then_load demo_store f demo_created demo_store); [apply demo_created_inv| |].
  - intros r r' [= <-]. split; [done|by left].
  - vm_compute. reflexivity.
Defined.
