(* ===== verification/State.v ===== *)
(** * VM registry and subnets: pkg/state/state.go, subnet.go

    The registry of the VMs of this host and the /24 subnets they hold, two tables of
    the shared database, and the host directories and processes that go with them. The
    host's process and file operations are an interface, [host_ops]. *)

From S2P Require Import Prelude GoStrings GoStd GoPath Db.

(** ** The host *)

Record os_error := { oe_text : string; oe_not_exist : bool; oe_perm : bool }.

(** Operations of the packages os, syscall, os/exec and net on a host of type [OS]: each
    returns its result and the host after it. *)
Record host_ops (OS : Type) := {
  os_GOOS : string;
  os_Getpid : Z;
  os_MkdirAll : string → OS → option os_error * OS;
  os_RemoveAll : string → OS → option os_error * OS;
  os_Remove : string → OS → option os_error * OS;
  os_Signal : Z → Z → OS → option os_error * OS;
  os_ReadFile : string → OS → result os_error string * OS;
  os_ps_stat : string → OS → result os_error string * OS }.
Arguments os_GOOS {OS}. Arguments os_Getpid {OS}. Arguments os_MkdirAll {OS}. Arguments os_RemoveAll {OS}.
Arguments os_Remove {OS}. Arguments os_Signal {OS}. Arguments os_ReadFile {OS}. Arguments os_ps_stat {OS}.

(** The database and the rest of the host. *)
Record host (OS : Type) := { h_db : storage; h_os : OS }.
Arguments h_db {OS}. Arguments h_os {OS}. Arguments Build_host {OS}.

Definition on_db {OS A} (m : M storage A) : M (host OS) A := λ h,
  match m (h_db h) with Some (a, s) => Some (a, Build_host s (h_os h)) | None => None end.
Definition on_os {OS A} (m : OS → A * OS) : M (host OS) A := λ h,
  let (a, o) := m (h_os h) in Some (a, Build_host (h_db h) o).

(** ** Errors *)

Inductive state_cause := CauseDb (e : db_error) | CauseOs (e : os_error) | CauseMarshal | CauseTime.

Inductive state_error :=
| ErrStateDBInit (cause : state_cause)
| ErrRegisterVM (cause : state_cause)
| ErrUnregisterVM (cause : state_cause)
| ErrListVMs (cause : state_cause)
| ErrGetVM (cause : state_cause)
| ErrKillVM (cause : state_cause)
| ErrRemoveVM (cause : state_cause)
| ErrSaveSubnetAllocation (cause : state_cause)
| ErrNoAvailableSubnets
| ErrVMNotFound (id : string)
| ErrVMNotRunning (id : string)
| ErrRemoveRunning (id : string)
| ErrSubnetNotFound (id : string)
| ErrSignal (e : os_error).

(** ** The registry *)

Record VMState := {
  vs_ID : string; vs_PID : Z; vs_Status : string; vs_Image : string; vs_CreatedAt : option Z;
  vs_Config : col vm_config }.

Definition with_Status (status : string) (v : VMState) : VMState := {|
  vs_ID := vs_ID v; vs_PID := vs_PID v; vs_Status := status; vs_Image := vs_Image v;
  vs_CreatedAt := vs_CreatedAt v; vs_Config := vs_Config v |}.

Record Manager := { mg_baseDir : string; mg_initErr : option db_error }.

Definition Manager_ready (m : Manager) : option state_error :=
  match mg_initErr m with Some e => Some (ErrStateDBInit (CauseDb e)) | None => None end.

Definition Manager_Dir (m : Manager) (id : string) : string := PathJoin [mg_baseDir m; id].
Definition Manager_LogPath (m : Manager) (id : string) : string := PathJoin [mg_baseDir m; id; "logs"; "vm.log"].
Definition Manager_SocketPath (m : Manager) (id : string) : string := PathJoin [mg_baseDir m; id; "socket"].
Definition Manager_ExecSocketPath (m : Manager) (id : string) : string := PathJoin [mg_baseDir m; id; "exec.sock"].

Definition scanVMStateRow (r : vm_row) : result state_cause VMState :=
  let image := if decide (vr_image r = "") then match vr_config r with ColOf c => cf_Image c | _ => "" end
               else vr_image r in
  match vr_created_at r with
  | ColBad => Err CauseTime
  | t => Ok {| vs_ID := vr_id r; vs_PID := vr_pid r; vs_Status := vr_status r; vs_Image := image;
               vs_CreatedAt := match t with ColOf z => Some z | _ => None end; vs_Config := vr_config r |}
  end.

(** The row of an id: ids are a primary key. *)
Definition find_vm (id : string) (rows : list vm_row) : option vm_row := find (λ r, bool_decide (vr_id r = id)) rows.

Definition update_vm (id : string) (f : vm_row → vm_row) (rows : list vm_row) : list vm_row :=
  (λ r, if decide (vr_id r = id) then f r else r) <$> rows.

Definition set_status (status : string) (now : Z) (r : vm_row) : vm_row := {|
  vr_id := vr_id r; vr_pid := vr_pid r; vr_status := status; vr_image := vr_image r; vr_config := vr_config r;
  vr_created_at := vr_created_at r; vr_updated_at := ColOf now |}.

Definition set_stopped (now : Z) (r : vm_row) : vm_row := {|
  vr_id := vr_id r; vr_pid := 0; vr_status := "stopped"; vr_image := vr_image r; vr_config := vr_config r;
  vr_created_at := vr_created_at r; vr_updated_at := ColOf now |}.

(** [INSERT INTO vms … ON CONFLICT(id) DO UPDATE]: a row that exists keeps its creation
    time. *)
Definition upsert_vm (row : vm_row) (rows : list vm_row) : list vm_row :=
  match find_vm (vr_id row) rows with
  | Some _ => update_vm (vr_id row) (λ r, {|
      vr_id := vr_id r; vr_pid := vr_pid row; vr_status := vr_status row; vr_image := vr_image row;
      vr_config := vr_config row; vr_created_at := vr_created_at r; vr_updated_at := vr_updated_at row |}) rows
  | None => rows ++ [row]
  end.

Definition delete_subnet (id : string) (s : storage) : storage :=
  with_subnets (filter (λ r, sr_vm_id r ≠ id) (sg_subnets s)) s.
Definition delete_vm (id : string) (s : storage) : storage :=
  with_vms (filter (λ r, vr_id r ≠ id) (sg_vms s)) s.

(** [DELETE FROM subnet_allocations WHERE vm_id NOT IN (SELECT id FROM vms)] *)
Definition delete_orphan_subnets (s : storage) : storage :=
  with_subnets (filter (λ r, sr_vm_id r ∈ (vr_id <$> sg_vms s)) (sg_subnets s)) s.

Section state.
Context {OS : Type} (ops : host_ops OS).
(** The order of the texts of [created_at]. *)
Context (text_le : col Z → col Z → bool).

(** IsProcessZombie reads the state field of /proc/<pid>/stat: the first token after the
    last parenthesis. On other systems it asks ps. *)
Definition stat_is_zombie (s : string) : bool :=
  match LastIndexByte s ")"%char with
  | Some i => match Fields (string_drop (S i) s) with f :: _ => bool_decide (f = "Z") | [] => false end
  | None => false
  end.

Definition ps_is_zombie (out : string) : bool :=
  match TrimSpace out with
  | EmptyString => false
  | String c _ as st => bool_decide (c = "Z"%char) || Contains st "E"
  end.

Definition IsProcessZombie (pid : Z) : M (host OS) bool :=
  if pid <=? 0 then mret false
  else if decide (os_GOOS ops = "linux") then
    r ← on_os (os_ReadFile ops ("/proc/" +:+ Itoa pid +:+ "/stat"));
    mret (match r with Ok s => stat_is_zombie s | Err _ => false end)
  else
    r ← on_os (os_ps_stat ops (Itoa pid));
    mret (match r with Ok s => ps_is_zombie s | Err _ => false end).

(** os.FindProcess does not fail on Unix. *)
Definition isProcessRunning (pid : Z) : M (host OS) bool :=
  if pid =? 0 then mret false
  else
    e ← on_os (os_Signal ops pid 0);
    match e with
    | Some _ => mret false
    | None => z ← IsProcessZombie pid; mret (negb z)
    end.

(** [config] is the configuration's JSON, or [None] if it cannot be encoded. *)
Definition Manager_Register (m : Manager) (id : string) (config : option vm_config) : M (host OS) (option state_error) :=
  match Manager_ready m with
  | Some e => mret (Some e)
  | None =>
      let dir := PathJoin [mg_baseDir m; id] in
      e1 ← on_os (os_MkdirAll ops dir);
      match e1 with
      | Some e => mret (Some (ErrRegisterVM (CauseOs e)))
      | None =>
          e2 ← on_os (os_MkdirAll ops (PathJoin [dir; "logs"]));
          match e2 with
          | Some e => mret (Some (ErrRegisterVM (CauseOs e)))
          | None =>
              match config with
              | None => mret (Some (ErrRegisterVM CauseMarshal))
              | Some cfg =>
                  r ← on_db (exec (λ s, with_vms (upsert_vm {|
                        vr_id := id; vr_pid := os_Getpid ops; vr_status := "running"; vr_image := cf_Image cfg;
                        vr_config := ColOf cfg; vr_created_at := ColOf (sg_now s);
                        vr_updated_at := ColOf (sg_now s) |} (sg_vms s)) s));
                  match r with
                  | Err e => _ ← on_os (os_RemoveAll ops dir); mret (Some (ErrRegisterVM (CauseDb e)))
                  | Ok _ => mret None
                  end
              end
          end
      end
  end.

Definition Manager_Unregister (m : Manager) (id : string) : M (host OS) (option state_error) :=
  match Manager_ready m with
  | Some e => mret (Some e)
  | None =>
      rows ← on_db (stmt (λ s, Ok (negb (bool_decide (id ∈ (vr_id <$> sg_vms s))),
                                   with_vms (update_vm id (set_stopped (sg_now s)) (sg_vms s)) s)));
      mret (match rows with
            | Err e => Some (ErrUnregisterVM (CauseDb e))
            | Ok none => if (none : bool) then Some (ErrVMNotFound id) else None
            end)
  end.

(** The loop over the rows: the states, and the ids found crashed. *)
Fixpoint list_rows (rows : list vm_row) : M (host OS) (result state_cause (list VMState * list string)) :=
  match rows with
  | [] => mret (Ok ([], []))
  | r :: rows' =>
      match scanVMStateRow r with
      | Err e => mret (Err e)
      | Ok st =>
          crashed ← (if decide (vs_Status st = "running")
                     then alive ← isProcessRunning (vs_PID st); mret (negb alive) else mret false);
          rest ← list_rows rows';
          mret (match rest with
                | Err e => Err e
                | Ok (states, ids) =>
                    if (crashed : bool) then Ok (with_Status "crashed" st :: states, vs_ID st :: ids)
                    else Ok (st :: states, ids)
                end)
      end
  end.

Fixpoint mark_crashed (updatedAt : Z) (ids : list string) : M (host OS) (option db_error) :=
  match ids with
  | [] => mret None
  | id :: ids' =>
      r ← on_db (exec (λ s, with_vms (update_vm id (set_status "crashed" updatedAt) (sg_vms s)) s));
      match r with Err e => mret (Some e) | Ok _ => mark_crashed updatedAt ids' end
  end.

Definition now_of : M (host OS) Z := λ h, Some (sg_now (h_db h), h).

Definition Manager_List (m : Manager) : M (host OS) (result state_error (list VMState)) :=
  match Manager_ready m with
  | Some e => mret (Err e)
  | None =>
      rows ← on_db (query (λ s, sort_by (λ a b, text_le (vr_created_at b) (vr_created_at a)) (sg_vms s)));
      match rows with
      | Err e => mret (Err (ErrListVMs (CauseDb e)))
      | Ok rows =>
          r ← list_rows rows;
          match r with
          | Err e => mret (Err (ErrListVMs e))
          | Ok (states, crashedIDs) =>
              updatedAt ← now_of;
              e ← mark_crashed updatedAt crashedIDs;
              mret (match e with Some e => Err (ErrListVMs (CauseDb e)) | None => Ok states end)
          end
      end
  end.

Definition Manager_Get (m : Manager) (id : string) : M (host OS) (result state_error VMState) :=
  match Manager_ready m with
  | Some e => mret (Err e)
  | None =>
      r ← on_db (query (λ s, find_vm id (sg_vms s)));
      mret (match r with
            | Err e => Err (ErrGetVM (CauseDb e))
            | Ok None => Err (ErrVMNotFound id)
            | Ok (Some row) => match scanVMStateRow row with Ok v => Ok v | Err e => Err (ErrGetVM e) end
            end)
  end.

Definition SIGTERM : Z := 15.

Definition Manager_Kill (m : Manager) (id : string) : M (host OS) (option state_error) :=
  r ← Manager_Get m id;
  match r with
  | Err e => mret (Some e)
  | Ok state =>
      if vs_PID state =? 0 then mret (Some (ErrVMNotRunning id))
      else e ← on_os (os_Signal ops (vs_PID state) SIGTERM); mret (ErrSignal <$> e)
  end.

(** The transaction of [Remove]. *)
Definition remove_rows (id : string) : db_M unit :=
  transaction (
    r ← exec (delete_subnet id);
    match r with Err e => mret (Err e) | Ok _ => exec (delete_vm id) end).

Definition Manager_Remove (m : Manager) (id : string) : M (host OS) (option state_error) :=
  r ← Manager_Get m id;
  match r with
  | Err e => mret (Some e)
  | Ok state =>
      refused ← (if decide (vs_Status state = "running") then
                   alive ← isProcessRunning (vs_PID state);
                   if (alive : bool) then mret true
                   else
                     _ ← on_db (exec (λ s, with_vms (update_vm id (set_status "crashed" (sg_now s)) (sg_vms s)) s));
                     mret false
                 else mret false);
      if (refused : bool) then mret (Some (ErrRemoveRunning id))
      else
        d ← on_db (remove_rows id);
        match d with
        | Err e => mret (Some (ErrRemoveVM (CauseDb e)))
        | Ok _ => e ← on_os (os_RemoveAll ops (PathJoin [mg_baseDir m; id])); mret (ErrRemoveVM ∘ CauseOs <$> e)
        end
  end.

(** The loop of [Prune]: the ids removed. *)
Fixpoint prune_states (m : Manager) (states : list VMState) : M (host OS) (list string) :=
  match states with
  | [] => mret []
  | st :: states' =>
      if decide (vs_Status st = "crashed" ∨ vs_Status st = "stopped") then
        e ← Manager_Remove m (vs_ID st);
        rest ← prune_states m states';
        mret (match e with None => vs_ID st :: rest | Some _ => rest end)
      else prune_states m states'
  end.

Definition Manager_Prune (m : Manager) : M (host OS) (result state_error (list string)) :=
  r ← Manager_List m;
  match r with
  | Err e => mret (Err e)
  | Ok states =>
      pruned ← prune_states m states;
      _ ← on_db (exec delete_orphan_subnets);
      mret (Ok pruned)
  end.

End state.
