(* ===== verification/Subnets.v ===== *)
(** * Subnet allocation: pkg/state/subnet.go

    Each VM gets a /24 network 192.168.X.0/24, X between 100 and 254, recorded in a
    table whose columns [vm_id] and [octet] are both unique. *)

From S2P Require Import Prelude GoStrings GoStd GoPath Db State.

(** ** The allocator *)

Record SubnetAllocator := {
  sa_baseDir : string; sa_minOctet : Z; sa_maxOctet : Z; sa_initErr : option db_error }.

(** [openErr] is what opening the database returned. *)
Definition NewSubnetAllocatorWithDir (openErr : option db_error) (baseDir : string) : SubnetAllocator := {|
  sa_baseDir := baseDir; sa_minOctet := 100; sa_maxOctet := 254; sa_initErr := openErr |}.

Record SubnetInfo := {
  si_Octet : Z; si_GatewayIP : string; si_GuestIP : string; si_Subnet : string; si_VMID : string }.

Definition Subnet_ready (a : SubnetAllocator) : option state_error :=
  match sa_initErr a with Some e => Some (ErrStateDBInit (CauseDb e)) | None => None end.

Definition row_info (r : subnet_row) : SubnetInfo := {|
  si_Octet := sr_octet r; si_GatewayIP := sr_gateway_ip r; si_GuestIP := sr_guest_ip r;
  si_Subnet := sr_subnet r; si_VMID := sr_vm_id r |}.

Definition info_row (i : SubnetInfo) : subnet_row := {|
  sr_vm_id := si_VMID i; sr_octet := si_Octet i; sr_gateway_ip := si_GatewayIP i;
  sr_guest_ip := si_GuestIP i; sr_subnet := si_Subnet i |}.

Definition find_subnet (id : string) (rows : list subnet_row) : option subnet_row :=
  find (λ r, bool_decide (sr_vm_id r = id)) rows.

Definition Subnet_Get (a : SubnetAllocator) (vmID : string) : M storage (result state_error SubnetInfo) :=
  match Subnet_ready a with
  | Some e => mret (Err e)
  | None =>
      r ← query (λ s, find_subnet vmID (sg_subnets s));
      mret (match r with
            | Err e => Err (ErrSaveSubnetAllocation (CauseDb e))
            | Ok None => Err (ErrSubnetNotFound vmID)
            | Ok (Some row) => Ok (row_info row)
            end)
  end.

(** The octets in use, as a list. *)
Definition usedOctets : M storage (result state_error (list Z)) :=
  r ← query (λ s, sr_octet <$> sg_subnets s);
  mret (match r with Err e => Err (ErrSaveSubnetAllocation (CauseDb e)) | Ok l => Ok l end).

(** The loop over the octets: [fuel] counts the octets left, 0 when none is free. *)
Fixpoint first_free (used : list Z) (o : Z) (fuel : nat) : Z :=
  match fuel with
  | O => 0
  | S fuel' => if bool_decide (o ∈ used) then first_free used (o + 1) fuel' else o
  end.

Definition octet_info (octet : Z) (vmID : string) : SubnetInfo := {|
  si_Octet := octet;
  si_GatewayIP := "192.168." +:+ Itoa octet +:+ ".1";
  si_GuestIP := "192.168." +:+ Itoa octet +:+ ".2";
  si_Subnet := "192.168." +:+ Itoa octet +:+ ".0/24";
  si_VMID := vmID |}.

(** SQLITE_CONSTRAINT_UNIQUE *)
Definition unique_error : db_error :=
  {| dbe_code := Some 2067; dbe_text := "constraint failed: UNIQUE constraint failed" |}.

Definition insert_subnet (row : subnet_row) : db_M unit :=
  stmt (λ s,
    if existsb (λ r, bool_decide (sr_vm_id r = sr_vm_id row) || (sr_octet r =? sr_octet row)) (sg_subnets s)
    then Err unique_error
    else Ok (tt, with_subnets (sg_subnets s ++ [row]) s)).

(** Allocate up to its INSERT: the subnet the VM has, or the one to insert. *)
Definition Allocate_choose (a : SubnetAllocator) (vmID : string)
    : M storage (result state_error (SubnetInfo + SubnetInfo)) :=
  match Subnet_ready a with
  | Some e => mret (Err e)
  | None =>
      existing ← Subnet_Get a vmID;
      match existing with
      | Ok info => mret (Ok (inl info))
      | Err _ =>
          used ← usedOctets;
          match used with
          | Err e => mret (Err e)
          | Ok used =>
              let octet := first_free used (sa_minOctet a) (Z.to_nat (sa_maxOctet a - sa_minOctet a + 1)) in
              if octet =? 0 then mret (Err ErrNoAvailableSubnets) else mret (Ok (inr (octet_info octet vmID)))
          end
      end
  end.

Definition Allocate_insert (info : SubnetInfo) : M storage (result state_error SubnetInfo) :=
  r ← insert_subnet (info_row info);
  mret (match r with Err e => Err (ErrSaveSubnetAllocation (CauseDb e)) | Ok _ => Ok info end).

Definition Subnet_Allocate (a : SubnetAllocator) (vmID : string) : M storage (result state_error SubnetInfo) :=
  c ← Allocate_choose a vmID;
  match c with
  | Err e => mret (Err e)
  | Ok (inl info) => mret (Ok info)
  | Ok (inr info) => Allocate_insert info
  end.

Definition Subnet_Release (a : SubnetAllocator) (vmID : string) : M storage (option state_error) :=
  match Subnet_ready a with
  | Some e => mret (Some e)
  | None =>
      r ← exec (delete_subnet vmID);
      mret (match r with Err e => Some (ErrSaveSubnetAllocation (CauseDb e)) | Ok _ => None end)
  end.

Definition Subnet_AllocationPath (a : SubnetAllocator) (vmID : string) : string :=
  PathJoin [sa_baseDir a; vmID +:+ ".json"].

Section cleanup.
Context {OS : Type}.

(** The ids of the rows whose VM [Get] does not return. *)
Fixpoint stale_ids (mgr : Manager) (ids : list string) : M (host OS) (list string) :=
  match ids with
  | [] => mret []
  | id :: ids' =>
      r ← Manager_Get mgr id;
      rest ← stale_ids mgr ids';
      mret (match r with Err _ => id :: rest | Ok _ => rest end)
  end.

Fixpoint delete_subnets (ids : list string) : M (host OS) (option state_error) :=
  match ids with
  | [] => mret None
  | id :: ids' =>
      r ← on_db (exec (delete_subnet id));
      match r with
      | Err e => mret (Some (ErrSaveSubnetAllocation (CauseDb e)))
      | Ok _ => delete_subnets ids'
      end
  end.

Definition Subnet_Cleanup (a : SubnetAllocator) (mgr : Manager) : M (host OS) (option state_error) :=
  match Subnet_ready a with
  | Some e => mret (Some e)
  | None =>
      rows ← on_db (query (λ s, sr_vm_id <$> sg_subnets s));
      match rows with
      | Err e => mret (Some (ErrSaveSubnetAllocation (CauseDb e)))
      | Ok ids => stale ← stale_ids mgr ids; delete_subnets stale
      end
  end.

End cleanup.

(** ** Facts about the choice *)

Lemma first_free_spec used o n :
  0 < o → let r := first_free used o n in
  (r = 0 ∧ ∀ k, o <= k < o + Z.of_nat n → k ∈ used) ∨
  (o <= r < o + Z.of_nat n ∧ r ∉ used ∧ ∀ k, o <= k < r → k ∈ used).
Proof.
  revert o. induction n as [|n IH]; intros o Ho; cbn [first_free]; [left; split; [done|lia]|].
  case_bool_decide as Hin; [|right; split_and!; [lia|lia|done|lia]].
  destruct (IH (o + 1) ltac:(lia)) as [[Hz Hk]|(Hr & Hfree & Hk)].
  - left. split; [done|]. intros k Hko. destruct (decide (k = o)) as [->|]; [done|]. apply Hk. lia.
  - right. split_and!; [lia|lia|done|]. intros k Hko. destruct (decide (k = o)) as [->|]; [done|]. apply Hk. lia.
Qed.

(** ** The table *)

Definition octet_ok (o : Z) : Prop := 100 <= o <= 254.

(** What a row of the table is: the row of an octet in range. *)
Definition subnet_row_ok (r : subnet_row) : Prop :=
  octet_ok (sr_octet r) ∧ r = info_row (octet_info (sr_octet r) (sr_vm_id r)).

Record subnet_inv (s : storage) : Prop := {
  si_vm_ids : NoDup (sr_vm_id <$> sg_subnets s);
  si_octets : NoDup (sr_octet <$> sg_subnets s);
  si_rows : Forall subnet_row_ok (sg_subnets s) }.

Lemma subnet_inv_env s t : sg_subnets s = sg_subnets t → subnet_inv s → subnet_inv t.
Proof. intros E [H1 H2 H3]. by split; rewrite <- E. Qed.

Lemma NoDup_fmap_filter {A B} (g : A → B) (P : A → Prop) `{!∀ x, Decision (P x)} (l : list A) :
  NoDup (g <$> l) → NoDup (g <$> filter P l).
Proof.
  induction l as [|x l IH]; [done|]. rewrite fmap_cons, NoDup_cons. intros [Hx Hl].
  rewrite filter_cons. destruct (decide (P x)); [|by apply IH]. rewrite fmap_cons. apply NoDup_cons.
  split; [|by apply IH]. contradict Hx. apply list_elem_of_fmap in Hx as (y & -> & Hy).
  apply list_elem_of_fmap. exists y. split; [done|]. by apply list_elem_of_filter in Hy as [_ ?].
Qed.

Lemma subnet_inv_filter (P : subnet_row → Prop) `{!∀ x, Decision (P x)} s :
  subnet_inv s → subnet_inv (with_subnets (filter P (sg_subnets s)) s).
Proof.
  intros [H1 H2 H3]. split; cbn.
  - by apply NoDup_fmap_filter.
  - by apply NoDup_fmap_filter.
  - rewrite Forall_forall in *. intros x [_ Hx]%list_elem_of_filter. by apply H3.
Qed.

Lemma insert_subnet_run row s r s' :
  subnet_inv s → subnet_row_ok row → insert_subnet row s = Some (r, s') →
  subnet_inv s' ∧
  match r with
  | Ok _ => sg_subnets s' = sg_subnets s ++ [row] ∧ sr_octet row ∉ (sr_octet <$> sg_subnets s) ∧
            sr_vm_id row ∉ (sr_vm_id <$> sg_subnets s)
  | Err _ => same_tables s s'
  end.
Proof.
  intros Hinv Hrow Hrun. apply stmt_run in Hrun. destruct r as [u|e].
  - destruct Hrun as [faults Hrun]. revert Hrun. cbn [sg_subnets with_faults].
    destruct (existsb _ _) eqn:Ex; [done|]. intros [= _ <-].
    assert (Hno : ∀ x, x ∈ sg_subnets s → sr_vm_id x ≠ sr_vm_id row ∧ sr_octet x ≠ sr_octet row).
    { intros x Hx. apply not_true_iff_false in Ex. split; intros E; apply Ex, existsb_exists; exists x;
        (split; [by apply list_elem_of_In|]); rewrite E.
      - by rewrite bool_decide_eq_true_2.
      - by rewrite Z.eqb_refl, orb_true_r. }
    assert (Ho : sr_octet row ∉ (sr_octet <$> sg_subnets s)).
    { intros (x & Heq & Hx)%list_elem_of_fmap. destruct (Hno x Hx). congruence. }
    assert (Hv : sr_vm_id row ∉ (sr_vm_id <$> sg_subnets s)).
    { intros (x & Heq & Hx)%list_elem_of_fmap. destruct (Hno x Hx). congruence. }
    split; [|done]. destruct Hinv as [H1 H2 H3]. split; cbn; rewrite ?fmap_app.
    + apply NoDup_app. split_and!; [done| |apply NoDup_singleton]. by intros x Hx ->%list_elem_of_singleton.
    + apply NoDup_app. split_and!; [done| |apply NoDup_singleton]. by intros x Hx ->%list_elem_of_singleton.
    + apply Forall_app. split; [done|]. by constructor.
  - destruct Hrun as [Ht _]. split; [|done]. eapply subnet_inv_env; [|done]. by destruct Ht as (_ & ? & _).
Qed.
