(* ===== verification/SubnetsSpec.v ===== *)
(** * What the subnet allocator guarantees

    No two VMs ever share a network, however allocations, releases and removals of
    several processes interleave; an allocation is the lowest free network. *)

From S2P Require Import Prelude GoStrings GoStd GoPath Db State Subnets.

(** ** The choice *)

Lemma subnet_query_ok {A} (f : storage → A) s :
  sg_faults s = [] → query f s = Some (Ok (f s), s).
Proof. destruct s as [? ? ? ? ? faults]. cbn. by intros ->. Qed.

Lemma Allocate_choose_octet dir id s info s' :
  Allocate_choose (NewSubnetAllocatorWithDir None dir) id s = Some (Ok (inr info), s') →
  ∃ o, octet_ok o ∧ info = octet_info o id.
Proof.
  unfold Allocate_choose. cbn [Subnet_ready sa_initErr NewSubnetAllocatorWithDir].
  intros (x & s1 & _ & Hrun)%M_bind_Some. destruct x as [i|e]; [by apply M_ret_Some in Hrun as [[=] _]|].
  apply M_bind_Some in Hrun as (u & s2 & _ & Hrun). destruct u as [used|e']; [|by apply M_ret_Some in Hrun as [[=] _]].
  cbn [sa_minOctet sa_maxOctet NewSubnetAllocatorWithDir] in Hrun. revert Hrun.
  pose proof (first_free_spec used 100 (Z.to_nat (254 - 100 + 1)) ltac:(lia)) as Hspec. revert Hspec.
  generalize (first_free used 100 (Z.to_nat (254 - 100 + 1))). intros o Ho.
  destruct (Z.eqb_spec o 0) as [->|Hne]; [by intros [[=] _]%M_ret_Some|].
  intros [[= ->] _]%M_ret_Some. exists o. split; [|done]. unfold octet_ok.
  destruct Ho as [[? _]|[? _]]; [done|lia].
Qed.

(** ** Interleavings, statement by statement *)

Inductive subnet_step : storage → storage → Prop :=
| sub_env s t :
    (** anything that leaves this table alone *)
    sg_subnets s = sg_subnets t → subnet_step s t
| sub_insert dir id s0 info s0' r s s' :
    (** the INSERT of an [Allocate] whose reads may be arbitrarily stale *)
    Allocate_choose (NewSubnetAllocatorWithDir None dir) id s0 = Some (Ok (inr info), s0') →
    Allocate_insert info s = Some (r, s') → subnet_step s s'
| sub_delete id r s s' :
    (** [Release], or a deletion of [Cleanup] *)
    exec (delete_subnet id) s = Some (r, s') → subnet_step s s'
| sub_orphans r s s' : exec delete_orphan_subnets s = Some (r, s') → subnet_step s s'
| sub_remove id r s s' :
    (** the transaction of [Manager.Remove] *)
    remove_rows id s = Some (r, s') → subnet_step s s'.

Lemma same_tables_subnets s t : same_tables s t → sg_subnets s = sg_subnets t.
Proof. by intros (_ & ? & _). Qed.

Lemma delete_subnet_inv id s r s' : subnet_inv s → exec (delete_subnet id) s = Some (r, s') → subnet_inv s'.
Proof.
  intros Hinv Hrun. apply exec_run in Hrun. destruct r as [u|e].
  - destruct Hrun as [f ->]. apply (subnet_inv_filter (λ r, sr_vm_id r ≠ id) (with_faults f s)).
    by apply (subnet_inv_env s).
  - destruct Hrun as (Ht & _). eapply subnet_inv_env; [|done]. by apply same_tables_subnets.
Qed.

Definition remove_body (id : string) : db_M unit :=
  r ← exec (delete_subnet id);
  match r with Err e => mret (Err e) | Ok _ => exec (delete_vm id) end.

Lemma exec_now (f : storage → storage) s r s' :
  (∀ t, sg_now (f t) = sg_now t) → exec f s = Some (r, s') → sg_now s' = sg_now s.
Proof.
  intros Hf Hrun. apply exec_run in Hrun. destruct r; [|by destruct Hrun as (_ & ? & _)].
  destruct Hrun as [x ->]. by rewrite Hf.
Qed.

Lemma remove_body_now id s r s' : remove_body id s = Some (r, s') → sg_now s' = sg_now s.
Proof.
  intros (d & s1 & Hd & Hrun)%M_bind_Some. apply exec_now in Hd; [|done].
  destruct d; [|by apply M_ret_Some in Hrun as [_ ->]]. apply exec_now in Hrun; [|done]. congruence.
Qed.

(** The removal of a VM's rows does both deletions or nothing. *)
Lemma remove_rows_run id s r s' :
  remove_rows id s = Some (r, s') →
  sg_now s' = sg_now s ∧
  match r with
  | Ok _ => same_tables (delete_vm id (delete_subnet id s)) s'
  | Err _ => same_tables s s'
  end.
Proof.
  unfold remove_rows. fold (remove_body id). intros Hrun.
  apply transaction_run in Hrun as [Hn Hr]; [|apply remove_body_now]. split; [done|].
  destruct r as [u|e]; [|done]. destruct Hr as (f1 & s1 & s2 & Hbody & Ht & ->).
  apply M_bind_Some in Hbody as (d & s3 & Hd & Hbody). apply exec_run in Hd.
  destruct d as [u1|e]; [|by apply M_ret_Some in Hbody as [[=] _]]. destruct Hd as [f2 ->].
  apply exec_run in Hbody as [f3 ->]. by rewrite <- Ht.
Qed.

Lemma subnet_step_inv s t : subnet_step s t → subnet_inv s → subnet_inv t.
Proof.
  intros Hst Hinv. destruct Hst as [s t E|dir id s0 info s0' r s s' Hc Hi|id r s s' Hd|r s s' Hd|id r s s' Hd].
  - by eapply subnet_inv_env.
  - apply Allocate_choose_octet in Hc as (o & Ho & ->). unfold Allocate_insert in Hi.
    apply M_bind_Some in Hi as (x & s1 & Hi & [_ ->]%M_ret_Some).
    apply insert_subnet_run in Hi as [? _]; [done|done|]. split; done.
  - by eapply delete_subnet_inv.
  - apply exec_run in Hd. destruct r.
    + destruct Hd as [f ->]. apply (subnet_inv_filter _ (with_faults f s)). by apply (subnet_inv_env s).
    + destruct Hd as (Ht & _). eapply subnet_inv_env; [|done]. by apply same_tables_subnets.
  - apply remove_rows_run in Hd as [_ Hr]. destruct r.
    + eapply subnet_inv_env; [by apply same_tables_subnets|].
      apply (subnet_inv_env (delete_subnet id s)); [done|]. by apply (subnet_inv_filter (λ r, sr_vm_id r ≠ id)).
    + eapply subnet_inv_env; [|done]. by apply same_tables_subnets.
Qed.

Lemma subnet_steps_inv s t : rtc subnet_step s t → subnet_inv s → subnet_inv t.
Proof. induction 1; eauto using subnet_step_inv. Qed.

Lemma NoDup_fmap_inj {A B} (g : A → B) (l : list A) x y :
  NoDup (g <$> l) → x ∈ l → y ∈ l → g x = g y → x = y.
Proof.
  induction l as [|z l IH]; [by intros _ ?%elem_of_nil|]. rewrite fmap_cons, NoDup_cons.
  intros [Hz Hl] [->|Hx]%elem_of_cons [->|Hy]%elem_of_cons Heq; [done| | |by apply IH].
  - contradict Hz. rewrite Heq. by apply list_elem_of_fmap_2.
  - contradict Hz. rewrite <- Heq. by apply list_elem_of_fmap_2.
Qed.

(** C12: However allocations, releases, clean-ups and removals of any number of processes
    interleave, statement by statement (an allocation inserts what it chose from a table
    that may have changed since), and however statements fail: every VM holds at most
    one subnet, no two VMs share one, and each is a whole 192.168.X.0/24 with X between
    100 and 254, its addresses .1 and .2. *)
Theorem subnets_never_shared s0 s r1 r2 :
  sg_subnets s0 = [] → rtc subnet_step s0 s → r1 ∈ sg_subnets s → r2 ∈ sg_subnets s →
  (sr_octet r1 = sr_octet r2 ∨ sr_vm_id r1 = sr_vm_id r2 → r1 = r2) ∧
  octet_ok (sr_octet r1) ∧ r1 = info_row (octet_info (sr_octet r1) (sr_vm_id r1)).
Proof.
  intros H0 Hsteps H1 H2. assert (Hinv : subnet_inv s0).
  { split; rewrite H0; constructor. }
  destruct (subnet_steps_inv s0 s Hsteps Hinv) as [Hids Hoctets Hrows]. rewrite Forall_forall in Hrows. destruct (Hrows r1 H1) as [Ho Hr].
  split; [|done]. intros [E|E]; [exact (NoDup_fmap_inj sr_octet _ _ _ Hoctets H1 H2 E)|].
  exact (NoDup_fmap_inj sr_vm_id _ _ _ Hids H1 H2 E).
Qed.

Definition demo_alloc : SubnetAllocator := NewSubnetAllocatorWithDir None "/home/u/.matchlock/subnets".

Definition subnet_storage (rows : list subnet_row) (faults : list (option db_error)) : storage := {|
  sg_vms := []; sg_subnets := rows; sg_lifecycle := []; sg_heads := ∅; sg_now := 0; sg_faults := faults |}.

Definition demo_row (octet : Z) (id : string) : subnet_row := info_row (octet_info octet id).

(** Two allocations that both read the empty table: one INSERT succeeds, the other fails. *)
Lemma subnets_never_shared_witness :
  let s1 := subnet_storage [demo_row 100 "vm-1"] [] in
  (100 = 100 ∨ "vm-1" = "vm-1" → demo_row 100 "vm-1" = demo_row 100 "vm-1") ∧
  octet_ok 100 ∧ demo_row 100 "vm-1" = info_row (octet_info 100 "vm-1").
Proof.
  intros s1. apply (subnets_never_shared (subnet_storage [] []) s1 (demo_row 100 "vm-1") (demo_row 100 "vm-1"));
    [done| |by left|by left].
  eapply rtc_l; [eapply (sub_insert "/home/u/.matchlock/subnets" "vm-1" (subnet_storage [] []))|].
  - vm_compute. reflexivity.
  - vm_compute. reflexivity.
  - apply rtc_once.
    eapply (sub_insert "/home/u/.matchlock/subnets" "vm-2" (subnet_storage [] []));
      vm_compute; reflexivity.
Defined.

(** ** Allocation *)

Lemma find_subnet_None id rows : find_subnet id rows = None ↔ id ∉ (sr_vm_id <$> rows).
Proof.
  unfold find_subnet. induction rows as [|r rows IH]; cbn [find]; [split; [by intros _ ?%elem_of_nil|done]|].
  rewrite fmap_cons, not_elem_of_cons. case_bool_decide as E; [|by rewrite IH; naive_solver].
  split; [done|]. intros [? _]. by subst.
Qed.

Lemma usedOctets_ok s : sg_faults s = [] → usedOctets s = Some (Ok (sr_octet <$> sg_subnets s), s).
Proof. intros Hf. unfold usedOctets, mbind, M_bind. by rewrite subnet_query_ok. Qed.

Lemma Subnet_Get_ok a id s :
  sa_initErr a = None → sg_faults s = [] →
  Subnet_Get a id s = Some (match find_subnet id (sg_subnets s) with
                            | Some row => Ok (row_info row) | None => Err (ErrSubnetNotFound id) end, s).
Proof.
  intros Ha Hf. unfold Subnet_Get, Subnet_ready. rewrite Ha. unfold mbind, M_bind.
  rewrite subnet_query_ok by done. by destruct (find_subnet _ _).
Qed.

Lemma insert_subnet_fresh row s :
  sg_faults s = [] → sr_octet row ∉ (sr_octet <$> sg_subnets s) → sr_vm_id row ∉ (sr_vm_id <$> sg_subnets s) →
  insert_subnet row s = Some (Ok tt, with_subnets (sg_subnets s ++ [row]) s).
Proof.
  destruct s as [vms rows life heads now faults]. cbn [sg_faults sg_subnets]. intros -> Ho Hid.
  unfold insert_subnet, stmt. cbn [sg_faults sg_subnets with_faults tail].
  destruct (existsb _ rows) eqn:Ex; [|done]. apply existsb_exists in Ex as (r & Hr & Heq).
  apply list_elem_of_In in Hr. apply orb_true_iff in Heq as [E|E].
  - apply bool_decide_eq_true in E. contradict Hid. rewrite <- E. by apply list_elem_of_fmap_2.
  - apply Z.eqb_eq in E. contradict Ho. rewrite <- E. by apply list_elem_of_fmap_2.
Qed.

(** Allocate, on a database that answers: a VM that has a subnet gets that one again
    and the table is unchanged; otherwise it gets the lowest free network, whose row is
    added; and it fails, with ErrNoAvailableSubnets, exactly when all 155 networks
    192.168.100.0/24 to 192.168.254.0/24 are held. *)
Theorem allocate_exact dir id s :
  let a := NewSubnetAllocatorWithDir None dir in
  let used := sr_octet <$> sg_subnets s in
  sg_faults s = [] →
  (∀ row, find_subnet id (sg_subnets s) = Some row → Subnet_Allocate a id s = Some (Ok (row_info row), s)) ∧
  (find_subnet id (sg_subnets s) = None →
    (∀ o, octet_ok o → o ∉ used → (∀ k, 100 <= k < o → k ∈ used) →
      Subnet_Allocate a id s =
        Some (Ok (octet_info o id), with_subnets (sg_subnets s ++ [info_row (octet_info o id)]) s)) ∧
    ((∀ o, octet_ok o → o ∈ used) ↔ Subnet_Allocate a id s = Some (Err ErrNoAvailableSubnets, s))).
Proof.
  intros a used Hf. unfold Subnet_Allocate, Allocate_choose. cbn [Subnet_ready a sa_initErr NewSubnetAllocatorWithDir].
  assert (Hget := Subnet_Get_ok a id s eq_refl Hf). unfold mbind, M_bind. rewrite Hget.
  split; [by intros row ->|]. intros Hnone. rewrite Hnone, usedOctets_ok by done. fold used.
  cbn [sa_minOctet sa_maxOctet a NewSubnetAllocatorWithDir].
  pose proof (first_free_spec used 100 (Z.to_nat (254 - 100 + 1)) ltac:(lia)) as Hspec. revert Hspec. cbv zeta.
  generalize (first_free used 100 (Z.to_nat (254 - 100 + 1))). intros o Ho.
  assert (Hins : o ∉ used → Allocate_insert (octet_info o id) s =
    Some (Ok (octet_info o id), with_subnets (sg_subnets s ++ [info_row (octet_info o id)]) s)).
  { intros Hno. unfold Allocate_insert, mbind, M_bind. rewrite insert_subnet_fresh; [done|done|done|].
    by apply find_subnet_None. }
  destruct Ho as [[-> Hall]|(Hr & Hfree & Hlow)].
  - cbn [Z.eqb]. split.
    + intros o Ho Hno. contradict Hno. apply Hall. unfold octet_ok in Ho. lia.
    + split; [done|]. intros _ o Ho. apply Hall. unfold octet_ok in Ho. lia.
  - rewrite (proj2 (Z.eqb_neq o 0)) by lia. unfold mret, M_ret. rewrite Hins by done. split.
    + intros o' [Ho1 Ho2] Hno Hlow'. assert (o' = o) as ->; [|done].
      destruct (Z.lt_trichotomy o o') as [?|[?|?]]; [|done|].
      * contradict Hfree. apply Hlow'. lia.
      * contradict Hno. apply Hlow. lia.
    + split; [|done]. intros Hall. contradict Hfree. apply Hall. unfold octet_ok. lia.
Qed.

Lemma allocate_exact_witness :
  Subnet_Allocate demo_alloc "vm-3" (subnet_storage [demo_row 100 "vm-1"; demo_row 102 "vm-2"] []) =
    Some (Ok (octet_info 101 "vm-3"),
      subnet_storage [demo_row 100 "vm-1"; demo_row 102 "vm-2"; demo_row 101 "vm-3"] []).
Proof.
  apply (allocate_exact "/home/u/.matchlock/subnets" "vm-3"
    (subnet_storage [demo_row 100 "vm-1"; demo_row 102 "vm-2"] [])); [done|done|..].
  - unfold octet_ok. lia.
  - cbn. set_solver.
  - intros k Hk. cbn. assert (k = 100) as -> by lia. set_solver.
Defined.
