(* ===== verification/StateSpec.v ===== *)
(** * What the VM registry guarantees

    A VM whose process runs is never removed; a removal touches one VM's rows, all of
    them or none; zombie detection reads the right field of /proc/<pid>/stat. *)

From S2P Require Import Prelude GoStrings GoStd GoPath Db State Subnets SubnetsSpec.

(** ** The state field of /proc/<pid>/stat *)

Lemma Fields_first st rest : all_plain st = true → st ≠ "" → head (Fields (" " +:+ st +:+ " " +:+ rest)) = Some st.
Proof.
  intros Hp Hne. unfold Fields. rewrite (sapp_cons " "%char), sapp_nil_l. cbn [space_pieces].
  change (space_width white2 white3 (String " " (st +:+ " " +:+ rest))) with 1%nat. cbv beta iota.
  rewrite filter_cons_False by (intros H; by apply H).
  rewrite space_pieces_plain by done. rewrite (sapp_cons " "%char), sapp_nil_l. cbn [space_pieces].
  change (space_width white2 white3 (String " " rest)) with 1%nat. cbv beta iota.
  rewrite sapp_nil_r. by rewrite filter_cons_True.
Qed.

(** Zombie detection reads the process state whatever the name of the program is,
    parentheses and spaces included: of a line "pid (comm) S rest" it reads S. *)
Theorem zombie_reads_state pid comm st rest :
  all_plain st = true → st ≠ "" → contains_byte ")" st = false → contains_byte ")" rest = false →
  stat_is_zombie (pid +:+ " (" +:+ comm +:+ ") " +:+ st +:+ " " +:+ rest) = bool_decide (st = "Z").
Proof.
  intros Hp Hne Hst Hrest. set (t := " " +:+ st +:+ " " +:+ rest).
  replace (pid +:+ " (" +:+ comm +:+ ") " +:+ st +:+ " " +:+ rest)
    with ((pid +:+ " (" +:+ comm) +:+ String ")" t) by (unfold t; by rewrite !sapp_assoc).
  assert (Ht : contains_byte ")" t = false).
  { unfold t. rewrite !contains_byte_app, Hst, Hrest. done. }
  unfold stat_is_zombie. rewrite LastIndexByte_app by done.
  pose proof (Fields_first st rest Hp Hne) as Hf. fold t in Hf.
  rewrite string_drop_app_S. destruct (Fields t) as [|x l]; [done|]. by injection Hf as ->.
Qed.

Lemma zombie_reads_state_witness :
  stat_is_zombie ("4242" +:+ " (" +:+ "a) R (b" +:+ ") " +:+ "Z" +:+ " " +:+ "1 4242 4242 0") = bool_decide ("Z" = "Z").
Proof. apply (zombie_reads_state "4242" "a) R (b" "Z" "1 4242 4242 0"); vm_compute; done. Defined.

(** ** Removing a VM *)

Section remove.
Context {OS : Type} (ops : host_ops OS).

(** Whether the process of a pid runs, on a host in state [o]: the liveness test does
    not look at the database and does not change it. *)
Definition process_runs (pid : Z) (o : OS) : bool :=
  match isProcessRunning ops pid (Build_host (subnet_storage [] []) o) with Some (b, _) => b | None => false end.

(** A computation of the host that does not look at the database. *)
Definition os_only {A} (m : M (host OS) A) : Prop := ∀ o, ∃ a o', ∀ s, m (Build_host s o) = Some (a, Build_host s o').

Lemma os_only_ret {A} (a : A) : os_only (mret a).
Proof. intros o. by exists a, o. Qed.

Lemma os_only_on_os {A} (f : OS → A * OS) : os_only (on_os f).
Proof. intros o. destruct (f o) as [a o'] eqn:E. exists a, o'. intros s. unfold on_os. cbn. by rewrite E. Qed.

Lemma os_only_bind {A B} (m : M (host OS) A) (k : A → M (host OS) B) :
  os_only m → (∀ a, os_only (k a)) → os_only (m ≫= k).
Proof.
  intros Hm Hk o. destruct (Hm o) as (a & o1 & H1). destruct (Hk a o1) as (b & o2 & H2).
  exists b, o2. intros s. unfold mbind, M_bind. by rewrite H1.
Qed.

Lemma isProcessRunning_os_only pid : os_only (isProcessRunning ops pid).
Proof.
  unfold isProcessRunning, IsProcessZombie.
  repeat (first [apply os_only_ret | apply os_only_on_os | apply os_only_bind; [|intros ?]] || case_match).
Qed.

Lemma isProcessRunning_run pid s o :
  ∃ o', isProcessRunning ops pid (Build_host s o) = Some (process_runs pid o, Build_host s o').
Proof.
  destruct (isProcessRunning_os_only pid o) as (b & o' & H). exists o'. unfold process_runs. by rewrite !H.
Qed.

Lemma Manager_Get_run m id s o r h' :
  Manager_Get (OS := OS) m id (Build_host s o) = Some (r, h') →
  h_os h' = o ∧ same_tables s (h_db h') ∧
  match r with
  | Ok v => ∃ row, find_vm id (sg_vms s) = Some row ∧ vs_Status v = vr_status row ∧ vs_PID v = vr_pid row
  | Err _ => True
  end.
Proof.
  unfold Manager_Get. destruct (Manager_ready m); [by intros [-> ->]%M_ret_Some|].
  intros (x & h1 & Hq & [-> ->]%M_ret_Some)%M_bind_Some. unfold on_db in Hq.
  destruct (query _ _) as [[y s1]|] eqn:Ey; [|done]. injection Hq as -> <-. cbn.
  apply query_run in Ey as (Ht & _ & Hy); [|done]. split_and!; [done|done|].
  destruct x as [[row|]|e]; [|done|done]. cbn [h_db] in Hy. unfold scanVMStateRow.
  destruct (vr_created_at row); [|done|]; by exists row.
Qed.

Definition others (id : string) (s : storage) : list vm_row * list subnet_row * list life_row * gmap string Z :=
  (filter (λ r, vr_id r ≠ id) (sg_vms s), filter (λ r, sr_vm_id r ≠ id) (sg_subnets s), sg_lifecycle s, sg_heads s).

Lemma others_tables id s t : same_tables s t → others id s = others id t.
Proof. unfold others. by intros (-> & -> & -> & ->). Qed.

Lemma filter_update_vm id f rows :
  (∀ r, vr_id (f r) = vr_id r) → filter (λ r, vr_id r ≠ id) (update_vm id f rows) = filter (λ r, vr_id r ≠ id) rows.
Proof.
  intros Hf. induction rows as [|r rows IH]; [done|]. unfold update_vm in *. rewrite fmap_cons, !filter_cons, IH.
  destruct (decide (vr_id r = id)) as [E|E]; [|done]. rewrite Hf.
  destruct (decide (vr_id r ≠ id)); [done|done].
Qed.

(** The rows left by a successful removal: those of the other VMs. *)
Definition removed (id : string) (s s' : storage) : Prop :=
  sg_vms s' = filter (λ r, vr_id r ≠ id) (sg_vms s) ∧ sg_subnets s' = filter (λ r, sr_vm_id r ≠ id) (sg_subnets s).

Definition crash_row (id : string) (s : storage) : storage :=
  with_vms (update_vm id (set_status "crashed" (sg_now s)) (sg_vms s)) s.

Lemma others_crash_row id s : others id (crash_row id s) = others id s.
Proof. unfold others, crash_row. cbn. by rewrite filter_update_vm. Qed.

Lemma filter_filter_same {A} (P : A → Prop) `{!∀ x, Decision (P x)} (l : list A) :
  filter P (filter P l) = filter P l.
Proof. apply list_filter_all. by intros x [? _]%list_elem_of_filter. Qed.

Lemma others_delete id s : others id (delete_vm id (delete_subnet id s)) = others id s.
Proof. unfold others. cbn. by rewrite !filter_filter_same. Qed.

(** What follows the liveness test in [Remove]. *)
Lemma remove_tail m id s1 o e h' s :
  (d ← on_db (remove_rows id);
   match d with
   | Err e => mret (Some (ErrRemoveVM (CauseDb e)))
   | Ok _ => e ← on_os (os_RemoveAll ops (PathJoin [mg_baseDir m; id])); mret (ErrRemoveVM ∘ CauseOs <$> e)
   end) (Build_host s1 o) = Some (e, h') →
  others id s1 = others id s →
  others id (h_db h') = others id s ∧ (e = None → removed id s (h_db h')).
Proof.
  intros (d & h2 & Hd & Hrun)%M_bind_Some Hs. unfold on_db in Hd. cbn in Hd.
  destruct (remove_rows id s1) as [[d' s2]|] eqn:Er; [|done]. injection Hd as -> <-.
  apply remove_rows_run in Er as [_ Hr]. destruct d as [u|e'].
  - apply M_bind_Some in Hrun as (x & h3 & Hx & [-> ->]%M_ret_Some). unfold on_os in Hx. cbn in Hx.
    destruct (os_RemoveAll ops _ o) as [y o2]. injection Hx as <- <-. cbn.
    assert (Ho : others id s2 = others id s).
    { rewrite <- Hs, <- (others_delete id s1). symmetry. by apply others_tables. }
    split; [done|]. intros _. destruct Hr as (Hv & Hsub & _). unfold others in Hs. injection Hs as H1 H2 _ _.
    split; [rewrite <- Hv|rewrite <- Hsub]; cbn; done.
  - apply M_ret_Some in Hrun as [-> ->]. cbn. split; [|done]. rewrite <- Hs. symmetry. by apply others_tables.
Qed.

(** Removing a VM never takes one whose process runs: the removal is refused and no
    table changes. In every case, whatever statement or file operation fails, the rows
    of the other VMs and all lifecycle records are untouched; and a removal that reports
    success leaves neither the VM's registration nor its subnet. *)
Theorem remove_spares_running m id s o e h' :
  Manager_Remove ops m id (Build_host s o) = Some (e, h') →
  (∀ row, find_vm id (sg_vms s) = Some row → vr_status row = "running" → process_runs (vr_pid row) o = true →
    e ≠ None ∧ same_tables s (h_db h')) ∧
  others id (h_db h') = others id s ∧ (e = None → removed id s (h_db h')).
Proof.
  unfold Manager_Remove. intros (r & [s1 o1] & Hg & Hrun)%M_bind_Some.
  apply Manager_Get_run in Hg as (Ho & Ht & Hr). cbn in Ho, Ht. subst o1.
  pose proof (others_tables id s s1 Ht) as Hoth.
  destruct r as [st|e']; [|apply M_ret_Some in Hrun as [-> ->]; by split_and!].
  destruct Hr as (row & Hrow & Hst & Hpid). apply M_bind_Some in Hrun as (refused & h2 & Hlive & Hrun).
  destruct (decide (vs_Status st = "running")) as [Es|Es].
  - apply M_bind_Some in Hlive as (alive & h3 & Ha & Hlive).
    destruct (isProcessRunning_run (vs_PID st) s1 o) as (o3 & Ha'). rewrite Ha' in Ha. injection Ha as <- <-.
    destruct (process_runs (vs_PID st) o) eqn:Ep.
    + apply M_ret_Some in Hlive as [-> ->]. apply M_ret_Some in Hrun as [-> ->]. by split_and!.
    + apply M_bind_Some in Hlive as (u & h4 & Hu & [-> ->]%M_ret_Some). unfold on_db in Hu. cbn in Hu.
      destruct (exec _ s1) as [[u' s4]|] eqn:Ex; [|done]. injection Hu as <- <-.
      assert (H4 : others id s4 = others id s).
      { rewrite Hoth. apply exec_run in Ex. destruct u' as [u'|e4].
        - destruct Ex as [f ->]. apply (others_crash_row id (with_faults f s1)).
        - destruct Ex as (Ht4 & _). symmetry. by apply others_tables. }
      apply (remove_tail m id s4 o3 e h' s) in Hrun as [H1 H2]; [|done]. split; [|done].
      intros row' Hrow' _. rewrite Hrow in Hrow'. injection Hrow' as <-. rewrite <- Hpid, Ep. done.
  - apply M_ret_Some in Hlive as [-> ->]. apply (remove_tail m id s1 o e h' s) in Hrun as [H1 H2]; [|done].
    split; [|done]. intros row' Hrow' Hrun'. rewrite Hrow in Hrow'. injection Hrow' as <-. congruence.
Qed.

End remove.

(** A host where the processes of a list run. *)
Definition demo_ops : host_ops (list Z) := {|
  os_GOOS := "linux"; os_Getpid := 4242;
  os_MkdirAll := λ _ o, (None, o); os_RemoveAll := λ _ o, (None, o); os_Remove := λ _ o, (None, o);
  os_Signal := λ pid _ o, (if bool_decide (pid ∈ o) then None
                           else Some {| oe_text := "os: process already finished"; oe_not_exist := false; oe_perm := false |}, o);
  os_ReadFile := λ _ o, (Ok "4242 (matchlock) S 1 4242 4242 0", o);
  os_ps_stat := λ _ o, (Ok "S", o) |}.

Definition demo_mgr : Manager := {| mg_baseDir := "/home/u/.matchlock/vms"; mg_initErr := None |}.

Definition demo_vm (id status : string) (pid : Z) : vm_row := {|
  vr_id := id; vr_pid := pid; vr_status := status; vr_image := "alpine"; vr_config := ColEmpty;
  vr_created_at := ColOf 1; vr_updated_at := ColOf 1 |}.

Definition demo_db (faults : list (option db_error)) : storage := {|
  sg_vms := [demo_vm "vm-1" "running" 4242; demo_vm "vm-2" "running" 77];
  sg_subnets := [demo_row 100 "vm-1"; demo_row 101 "vm-2"];
  sg_lifecycle := []; sg_heads := ∅; sg_now := 9; sg_faults := faults |}.

(** vm-2's process is gone, vm-1's runs: only vm-2 can be removed. *)
Lemma remove_spares_running_witness :
  let s := demo_db [] in
  (∀ row, find_vm "vm-1" (sg_vms s) = Some row → vr_status row = "running" →
     process_runs demo_ops (vr_pid row) [4242] = true →
     Some (ErrRemoveRunning "vm-1") ≠ None ∧ same_tables s s) ∧
  (∃ h', Manager_Remove demo_ops demo_mgr "vm-2" (Build_host s [4242]) = Some (None, h') ∧
     removed "vm-2" s (h_db h')).
Proof.
  intros s. split.
  - apply (remove_spares_running demo_ops demo_mgr "vm-1" s [4242] (Some (ErrRemoveRunning "vm-1"))
      (Build_host s [4242])). vm_compute. reflexivity.
  - eexists. assert (H : Manager_Remove demo_ops demo_mgr "vm-2" (Build_host s [4242]) =
      Some (None, Build_host (with_subnets [demo_row 100 "vm-1"] (with_vms [demo_vm "vm-1" "running" 4242] s)) [4242]))
      by (vm_compute; reflexivity).
    split; [exact H|]. by apply (remove_spares_running demo_ops demo_mgr "vm-2" s [4242] None) in H as (_ & _ & H).
Defined.

(** Cleanup treats every failure to read a VM's registration as "the VM is gone":
    when the database is busy at that moment the subnet of a VM whose process runs is
    released, Cleanup reports success, and the next allocation hands the same network
    to another VM. *)
Theorem cleanup_frees_live_subnet :
  let h := Build_host (demo_db [None; Some busy_error]) [4242; 77] in
  process_runs demo_ops 4242 [4242; 77] = true ∧
  ∃ h', Subnet_Cleanup demo_alloc demo_mgr h = Some (None, h') ∧
    sg_vms (h_db h') = sg_vms (h_db h) ∧
    sg_subnets (h_db h') = [demo_row 101 "vm-2"] ∧
    ∃ s', Subnet_Allocate demo_alloc "vm-3" (h_db h') = Some (Ok (octet_info 100 "vm-3"), s').
Proof.
  split; [reflexivity|]. eexists. split; [vm_compute; reflexivity|]. split; [reflexivity|]. split; [reflexivity|].
  eexists. vm_compute. reflexivity.
Qed.
