(* ===== verification/Reconcile.v ===== *)
(** * Reconciling a VM's host resources: pkg/lifecycle/reconcile.go, reconcile_linux.go,
    reconcile_linux_helpers.go, manager.go

    Before a VM's registration is removed, what it held on the host is released: its
    subnet, its disks, its TAP interface and firewall tables. Each step is recorded in
    the VM's lifecycle record. The kernel's network interfaces are an interface,
    [net_ops]. *)

From S2P Require Import Prelude GoStrings GoStd GoPath Db Lifecycle State Subnets.

(** ** Network operations of the host *)

Abbreviation nft_table := (Z * string)%type (only parsing).

(** System calls on the TUN device, net.InterfaceByName and the library
    github.com/google/nftables; an errno is its text. *)
Record net_ops (OS : Type) := {
  net_InterfaceByName : string → OS → bool * OS;
  sys_Open : string → Z → OS → result string Z * OS;
  sys_Close : Z → OS → unit * OS;
  sys_TUNSETIFF : Z → string → Z → OS → option string * OS;
  sys_TUNSETPERSIST : Z → Z → OS → option string * OS;
  nft_New : OS → option os_error * OS;
  nft_ListTables : OS → result os_error (list nft_table) * OS;
  nft_Flush : list nft_table → OS → option os_error * OS }.
Arguments net_InterfaceByName {OS}. Arguments sys_Open {OS}. Arguments sys_Close {OS}.
Arguments sys_TUNSETIFF {OS}. Arguments sys_TUNSETPERSIST {OS}. Arguments nft_New {OS}.
Arguments nft_ListTables {OS}. Arguments nft_Flush {OS}.

(** ** Reports and errors *)

Record ReconcileReport := {
  rr_VMID : string; rr_Cleaned : list string; rr_Failed : gmap string string; rr_Skipped : string }.

Definition new_report (vmID : string) : ReconcileReport := {|
  rr_VMID := vmID; rr_Cleaned := []; rr_Failed := ∅; rr_Skipped := "" |}.
Definition addCleaned (item : string) (r : ReconcileReport) : ReconcileReport := {|
  rr_VMID := rr_VMID r; rr_Cleaned := rr_Cleaned r ++ [item]; rr_Failed := rr_Failed r; rr_Skipped := rr_Skipped r |}.
Definition addFailed (item err : string) (r : ReconcileReport) : ReconcileReport := {|
  rr_VMID := rr_VMID r; rr_Cleaned := rr_Cleaned r; rr_Failed := <[item := err]> (rr_Failed r);
  rr_Skipped := rr_Skipped r |}.
Definition skipped (why : string) (r : ReconcileReport) : ReconcileReport := {|
  rr_VMID := rr_VMID r; rr_Cleaned := rr_Cleaned r; rr_Failed := rr_Failed r; rr_Skipped := why |}.

Inductive reconcile_error :=
| ReState (e : state_error)
| ReRunning (vmID : string)
| ReLoad (e : life_error)
| ReSteps (text : string).

Definition cause_text (parse marshal : string) (c : state_cause) : string :=
  match c with
  | CauseDb e => dbe_text e
  | CauseOs e => oe_text e
  | CauseMarshal => marshal
  | CauseTime => parse
  end.

(** [errors.Join]: nothing for no error, otherwise the texts on lines of their own. *)
Definition join_errors (errs : list string) : option string :=
  match errs with [] => None | _ => Some (Join errs (String (chr 10) "")) end.

(** ** Names of TAP devices *)

Definition add_candidate (candidates : list string) (v : string) : list string :=
  if decide (v = "") then candidates
  else if bool_decide (v ∈ candidates) then candidates else candidates ++ [v].

Definition tapNameCandidates (vmID fromRecord : string) : list string :=
  let c := add_candidate [] fromRecord in
  let idSuffix := TrimPrefix vmID "vm-" in
  let c := if (8 <=? slen idSuffix)%nat then add_candidate c ("fc-" +:+ string_take 8 idSuffix)
           else if decide (idSuffix = "") then c else add_candidate c ("fc-" +:+ idSuffix) in
  if (8 <=? slen vmID)%nat then add_candidate c ("fc-" +:+ string_take 8 vmID) else c.

Definition tunDevice : string := "/dev/net/tun".
Definition ifnameLen : nat := 16.
Definition O_RDWR : Z := 2.
Definition IFF_TAP_NO_PI : Z := Z.lor 0x2 0x1000.

Section reconcile.
Context {OS : Type} (ops : host_ops OS) (net : net_ops OS).
Context (text_le : col Z → col Z → bool).
(** Texts of the errors of time.Parse and json.Marshal. *)
Context (parse_text marshal_text : string).

Definition state_error_text (e : state_error) : string :=
  let c := cause_text parse_text marshal_text in
  match e with
  | ErrStateDBInit x => "initialize state database: " +:+ c x
  | ErrRegisterVM x => "register VM: " +:+ c x
  | ErrUnregisterVM x => "unregister VM: " +:+ c x
  | ErrListVMs x => "list VMs: " +:+ c x
  | ErrGetVM x => "get VM: " +:+ c x
  | ErrKillVM x => "kill VM: " +:+ c x
  | ErrRemoveVM x => "remove VM: " +:+ c x
  | ErrSaveSubnetAllocation x => "failed to save subnet allocation: " +:+ c x
  | ErrNoAvailableSubnets => "no available subnets (all 100-254 in use)"
  | ErrVMNotFound id => "VM " +:+ id +:+ " not found"
  | ErrVMNotRunning id => "VM " +:+ id +:+ " is not running"
  | ErrRemoveRunning id => "cannot remove running VM " +:+ id +:+ ", kill it first"
  | ErrSubnetNotFound id => "subnet allocation not found for " +:+ id
  | ErrSignal e => oe_text e
  end.

(** Texts of lifecycle errors, for the report. *)
Definition life_error_text (e : life_error) : string :=
  match e with
  | ErrReadRecord (Some c) => "read lifecycle record: " +:+ dbe_text c
  | ErrReadRecord None => "read lifecycle record"
  | ErrDecodeRecord => "decode lifecycle record: " +:+ parse_text
  | ErrWriteRecord (Some c) => "write lifecycle record: " +:+ dbe_text c
  | ErrWriteRecord None => "write lifecycle record"
  | ErrInvalidPhase from to => "invalid lifecycle phase transition"
  end.

(** ** Interfaces and tables *)

(** linuxvm.DeleteInterface (pkg/vm/linux/tap.go); closing the descriptor is deferred. *)
Definition DeleteInterface (name : string) : M (host OS) (option string) :=
  r ← on_os (sys_Open net tunDevice O_RDWR);
  match r with
  | Err e => mret (Some ("open TUN device: " +:+ e))
  | Ok fd =>
      e ← on_os (sys_TUNSETIFF net fd (string_take ifnameLen name) IFF_TAP_NO_PI);
      match e with
      | Some errno => _ ← on_os (sys_Close net fd); mret (Some ("TUNSETIFF: " +:+ errno))
      | None =>
          e ← on_os (sys_TUNSETPERSIST net fd 0);
          _ ← on_os (sys_Close net fd);
          mret (match e with Some errno => Some ("TUNSETPERSIST(0): " +:+ errno) | None => None end)
      end
  end.

Definition forgive_perm (e : os_error) : option string := if oe_perm e then None else Some (oe_text e).

Definition deleteNFTTable (tableName : string) : M (host OS) (option string) :=
  c ← on_os (nft_New net);
  match c with
  | Some e => mret (forgive_perm e)
  | None =>
      t ← on_os (nft_ListTables net);
      match t with
      | Err e => mret (forgive_perm e)
      | Ok tables =>
          match filter (λ t, t.2 = tableName) tables with
          | [] => mret None
          | found => e ← on_os (nft_Flush net found); mret (match e with Some e => forgive_perm e | None => None end)
          end
      end
  end.

(** The loop over the TAP names: the report and the wrapped errors. *)
Fixpoint delete_taps (taps : list string) (report : ReconcileReport) : M (host OS) (ReconcileReport * list string) :=
  match taps with
  | [] => mret (report, [])
  | tap :: taps' =>
      there ← on_os (net_InterfaceByName net tap);
      if negb there then delete_taps taps' report
      else
        e ← DeleteInterface tap;
        match e with
        | Some err =>
            r ← delete_taps taps' (addFailed ("tap_delete:" +:+ tap) err report);
            mret (r.1, ("reconcile TAP interface: " +:+ err) :: r.2)
        | None => delete_taps taps' (addCleaned ("tap_delete:" +:+ tap) report)
        end
  end.

Fixpoint delete_tables (tables : list string) (report : ReconcileReport) : M (host OS) (ReconcileReport * list string) :=
  match tables with
  | [] => mret (report, [])
  | table :: tables' =>
      e ← deleteNFTTable table;
      match e with
      | Some err =>
          r ← delete_tables tables' (addFailed ("nft_table_delete:" +:+ table) err report);
          mret (r.1, ("reconcile nftables table " +:+ table +:+ ": " +:+ err) :: r.2)
      | None => delete_tables tables' (addCleaned ("nft_table_delete:" +:+ table) report)
      end
  end.

Definition table_candidates (rec : LifeRecord) : list string :=
  let c := add_candidate [] (rs_FirewallTable (rec_Resources rec)) in
  let c := add_candidate c (rs_NATTable (rec_Resources rec)) in
  foldl (λ c tap, add_candidate (add_candidate c ("matchlock_" +:+ tap)) ("matchlock_nat_" +:+ tap)) c
    (tapNameCandidates (rec_VMID rec) (rs_TAPName (rec_Resources rec))).

(** A store operation whose error is dropped. *)
Definition store_do (m : M storage (option life_error * Store)) : M (host OS) Store :=
  r ← on_db m; mret r.2.

Abbreviation step_result := (option string * Store * ReconcileReport)%type (only parsing).

Definition reconcilePlatform (rec : LifeRecord) (store : Store) (report : ReconcileReport) : M (host OS) step_result :=
  if decide (os_GOOS ops = "linux") then
    taps ← delete_taps (tapNameCandidates (rec_VMID rec) (rs_TAPName (rec_Resources rec))) report;
    store ← store_do (Store_MarkCleanup store "tap_delete" (join_errors taps.2));
    tables ← delete_tables (table_candidates rec) taps.1;
    store ← store_do (Store_MarkCleanup store "nftables_cleanup" (join_errors tables.2));
    mret (join_errors (taps.2 ++ tables.2), store, tables.1)
  else
    store ← store_do (Store_MarkCleanup store "platform_cleanup" None);
    mret (None, store, report).

(** ** The reconciler *)

Record Reconciler := { rc_stateMgr : Manager; rc_subnetAlloc : SubnetAllocator }.

Definition reconcileSubnet (r : Reconciler) (vmID : string) (store : Store) (report : ReconcileReport)
    : M (host OS) step_result :=
  err ← on_db (Subnet_Release (rc_subnetAlloc r) vmID);
  store ← store_do (Store_MarkCleanup store "subnet_release" (state_error_text <$> err));
  match err with
  | Some e =>
      mret (Some (state_error_text e +:+ ": " +:+ vmID), store,
            addFailed "subnet_release" (state_error_text e) report)
  | None => mret (None, store, addCleaned "subnet_release" report)
  end.

(** Removing one disk: what is not there needs no removal. *)
Definition remove_disk (item path : string) (store : Store) (report : ReconcileReport) : M (host OS) step_result :=
  e ← on_os (os_Remove ops path);
  match e with
  | Some e =>
      if oe_not_exist e then
        store ← store_do (Store_MarkCleanup store item None);
        mret (None, store, addCleaned item report)
      else
        store ← store_do (Store_MarkCleanup store item (Some (oe_text e)));
        mret (Some (oe_text e +:+ ": " +:+ path), store, addFailed item (oe_text e) report)
  | None =>
      store ← store_do (Store_MarkCleanup store item None);
      mret (None, store, addCleaned item report)
  end.

Definition reconcileRootfs (r : Reconciler) (rec : LifeRecord) (store : Store) (report : ReconcileReport)
    : M (host OS) step_result :=
  let upper := PathJoin [Manager_Dir (rc_stateMgr r) (rec_VMID rec); "upper.ext4"] in
  let rootfsPath := if decide (rs_RootfsPath (rec_Resources rec) = "") then upper
                    else rs_RootfsPath (rec_Resources rec) in
  if decide (rootfsPath = "") then
    store ← store_do (Store_MarkCleanup store "rootfs_remove" None);
    mret (None, store, report)
  else
    x ← remove_disk "rootfs_remove" rootfsPath store report;
    let '(e, store, report) := x in
    match e with
    | Some _ => mret (e, store, report)
    | None =>
        remove_disk "bootstrap_remove"
          (PathJoin [Manager_Dir (rc_stateMgr r) (rec_VMID rec); "bootstrap.ext4"]) store report
    end.

Definition set_rootfs (path : string) (res : Resources) : Resources := {|
  rs_StateDir := rs_StateDir res; rs_Workspace := rs_Workspace res; rs_KernelRef := rs_KernelRef res;
  rs_KernelPath := rs_KernelPath res; rs_RootfsPath := path; rs_SubnetFile := rs_SubnetFile res;
  rs_GatewayIP := rs_GatewayIP res; rs_GuestIP := rs_GuestIP res; rs_SubnetCIDR := rs_SubnetCIDR res;
  rs_VsockPath := rs_VsockPath res; rs_TAPName := rs_TAPName res; rs_FirewallTable := rs_FirewallTable res;
  rs_NATTable := rs_NATTable res |}.

(** Opening the database of a VM's directory is one statement that may fail. *)
Definition open_store (vmDir : string) : M (host OS) Store :=
  r ← on_db (exec id);
  mret (NewStore (result_err r) vmDir).

(** The record of a VM that has none yet. *)
Definition ensure_record (vmID vmDir : string) (store : Store) : M (host OS) Store :=
  exists_ ← on_db (Store_Exists store);
  if (exists_ : bool) then mret store
  else
    i ← on_db (Store_Init store vmID "unknown" vmDir);
    match i with
    | (None, store) => store_do (Store_SetResource store (set_rootfs (PathJoin [vmDir; "upper.ext4"])))
    | (Some _, store) => mret store
    end.

(** What is done once the record is read. *)
Definition reconcile_steps (r : Reconciler) (vmID : string) (rec : LifeRecord) (store : Store)
    (report : ReconcileReport) : M (host OS) (ReconcileReport * option reconcile_error) :=
  store ← store_do (Store_SetPhase store PhaseCleaning);
  store ← store_do (Store_SetLastError store None);
  s1 ← reconcileSubnet r vmID store report;
  let '(e1, store, report) := s1 in
  s2 ← reconcileRootfs r rec store report;
  let '(e2, store, report) := s2 in
  s3 ← reconcilePlatform rec store report;
  let '(e3, store, report) := s3 in
  match join_errors (omap id [e1; e2; e3]) with
  | Some joined =>
      store ← store_do (Store_SetLastError store (Some joined));
      store ← store_do (Store_SetPhase store PhaseCleanupFailed);
      mret (report, Some (ReSteps joined))
  | None =>
      store ← store_do (Store_SetLastError store None);
      store ← store_do (Store_SetPhase store PhaseCleaned);
      mret (report, None)
  end.

Definition ErrVMRunning_text : string := "VM is running".

Definition ReconcileVM (r : Reconciler) (vmID : string) (forceRunning : bool)
    : M (host OS) (ReconcileReport * option reconcile_error) :=
  let report := new_report vmID in
  g ← Manager_Get (rc_stateMgr r) vmID;
  match g with
  | Err e => mret (addFailed "state" (state_error_text e) report, Some (ReState e))
  | Ok vmState =>
      running ← (if decide (vs_Status vmState = "running") then isProcessRunning ops (vs_PID vmState)
                 else mret false);
      if (running : bool) && negb forceRunning then
        mret (skipped ErrVMRunning_text report, Some (ReRunning vmID))
      else
        let vmDir := Manager_Dir (rc_stateMgr r) vmID in
        store ← open_store vmDir;
        store ← ensure_record vmID vmDir store;
        l ← on_db (Store_Load store);
        match l with
        | Err e => mret (addFailed "load_record" (life_error_text e) report, Some (ReLoad e))
        | Ok rec =>
            let rec := if decide (rec_VMID rec = "") then with_VMID vmID rec else rec in
            reconcile_steps r vmID rec store report
        end
  end.

Fixpoint reconcile_states (r : Reconciler) (forceRunning : bool) (states : list VMState)
    : M (host OS) (list ReconcileReport * list (string * reconcile_error)) :=
  match states with
  | [] => mret ([], [])
  | s :: states' =>
      x ← ReconcileVM r (vs_ID s) forceRunning;
      rest ← reconcile_states r forceRunning states';
      mret (x.1 :: rest.1, match x.2 with Some e => (vs_ID s, e) :: rest.2 | None => rest.2 end)
  end.

(** The reports, sorted by VM id, and the errors joined, each with its VM's id. *)
Definition ReconcileAll (r : Reconciler) (forceRunning : bool)
    : M (host OS) (result state_error (list ReconcileReport * list (string * reconcile_error))) :=
  l ← Manager_List ops text_le (rc_stateMgr r);
  match l with
  | Err e => mret (Err e)
  | Ok states =>
      x ← reconcile_states r forceRunning states;
      mret (Ok (sort_by (λ a b, string_leb (rr_VMID a) (rr_VMID b)) x.1, x.2))
  end.

(** ** The VM manager: reconcile, then remove *)

(** [newAlloc] is the allocator [NewSubnetAllocator] makes, used when there is none. *)
Record VMManager := {
  vmm_stateMgr : Manager; vmm_subnetAlloc : option SubnetAllocator; vmm_reconciler : Reconciler;
  vmm_forceOnGCVM : bool }.

Definition NewVMManagerWithDeps (stateMgr : Manager) (subnetAlloc : SubnetAllocator) : VMManager := {|
  vmm_stateMgr := stateMgr; vmm_subnetAlloc := Some subnetAlloc;
  vmm_reconciler := {| rc_stateMgr := stateMgr; rc_subnetAlloc := subnetAlloc |}; vmm_forceOnGCVM := false |}.

Inductive vmm_error := VmmReconcile (e : reconcile_error) | VmmState (e : state_error).

Definition VMManager_List (m : VMManager) : M (host OS) (result state_error (list VMState)) :=
  Manager_List ops text_le (vmm_stateMgr m).

Definition VMManager_Kill (m : VMManager) (id : string) : M (host OS) (option state_error) :=
  Manager_Kill ops (vmm_stateMgr m) id.

Definition VMManager_Remove (m : VMManager) (id : string) : M (host OS) (option vmm_error) :=
  x ← ReconcileVM (vmm_reconciler m) id (vmm_forceOnGCVM m);
  match x.2 with
  | Some e => mret (Some (VmmReconcile e))
  | None => e ← Manager_Remove ops (vmm_stateMgr m) id; mret (VmmState <$> e)
  end.

Fixpoint vmm_prune_states (m : VMManager) (states : list VMState) : M (host OS) (list string * list vmm_error) :=
  match states with
  | [] => mret ([], [])
  | st :: states' =>
      if decide (vs_Status st = "crashed" ∨ vs_Status st = "stopped") then
        e ← VMManager_Remove m (vs_ID st);
        rest ← vmm_prune_states m states';
        mret (match e with
              | None => (vs_ID st :: rest.1, rest.2)
              | Some e => (rest.1, e :: rest.2)
              end)
      else vmm_prune_states m states'
  end.

Definition VMManager_Prune (newAlloc : SubnetAllocator) (m : VMManager)
    : M (host OS) (result state_error (list string * list vmm_error)) :=
  l ← Manager_List ops text_le (vmm_stateMgr m);
  match l with
  | Err e => mret (Err e)
  | Ok states =>
      x ← vmm_prune_states m states;
      c ← Subnet_Cleanup (default newAlloc (vmm_subnetAlloc m)) (vmm_stateMgr m);
      mret (Ok (x.1, x.2 ++ match c with Some e => [VmmState e] | None => [] end))
  end.

End reconcile.
