(* ===== verification/ReconcileSpec.v ===== *)
(** * What reconciliation guarantees

    A VM whose process runs is left alone; any other is brought to the phase [cleaned],
    or to [cleanup_failed] with the failure recorded, and its subnet is free. *)

From S2P Require Import Prelude GoStrings GoStd GoPath Db Lifecycle LifecycleSpec State Subnets SubnetsSpec StateSpec Reconcile.

(** ** Updates of a healthy store *)

Record store_ok (id : string) (st : Store) (s : storage) : Prop := {
  so_inv : life_inv s;
  so_faults : sg_faults s = [];
  so_id : resolveVMIDNoLock st = id;
  so_name : id ≠ "" ∧ id ≠ ".";
  so_ready : readyNoLock st = None;
  so_rows : ∀ row, row ∈ vm_history id (sg_lifecycle s) → is_Ok (decodeLifecycleRecord row) = true }.

(** What an update that is not a phase change leaves as it was. *)
Definition stays (id : string) (s : storage) (st' : Store) (s' : storage) : Prop :=
  store_ok id st' s' ∧ last_phase id s' = last_phase id s ∧ sg_vms s' = sg_vms s ∧ sg_subnets s' = sg_subnets s.

Lemma stays_refl id st s : store_ok id st s → stays id s st s.
Proof. by split. Qed.

Lemma stays_trans id s st1 s1 st2 s2 : stays id s st1 s1 → stays id s1 st2 s2 → stays id s st2 s2.
Proof. intros (_ & H1 & H2 & H3) (? & ? & ? & ?). split_and!; congruence || done. Qed.

Lemma saveNoLock_ok st rec s :
  life_inv s → sg_faults s = [] → rec_VMID rec ≠ "" →
  saveNoLock st rec s =
    Some ((None, set_vmID (rec_VMID rec) st), save_tables (saved_record st (sg_now s) rec) s).
Proof.
  intros Hinv Hf Hne. rewrite saveNoLock_attempts by done. unfold recordWriteRetryAttempts.
  cbn [save_attempts]. unfold mbind, M_bind. by rewrite saveAttempt_ok.
Qed.

Lemma save_tables_history rec s :
  vm_history (rec_VMID rec) (sg_lifecycle (save_tables rec s)) =
  vm_history (rec_VMID rec) (sg_lifecycle s) ++ [record_row (next_version (rec_VMID rec) s) rec].
Proof. cbn [sg_lifecycle save_tables with_lifecycle]. rewrite vm_history_snoc. by rewrite decide_True. Qed.

Lemma save_tables_phase rec s : last_phase (rec_VMID rec) (save_tables rec s) = rec_Phase rec.
Proof. unfold last_phase. by rewrite fmap_last, save_tables_history, last_snoc. Qed.

Lemma save_tables_ok st rec s st' :
  store_ok (rec_VMID rec) st s → life_inv (save_tables rec s) → readyNoLock st' = None →
  resolveVMIDNoLock st' = rec_VMID rec →
  store_ok (rec_VMID rec) st' (save_tables rec s).
Proof.
  intros [_ Hf _ Hname _ Hrows] Hinv Hready Hid. split; try done.
  intros row. rewrite save_tables_history. intros [Hin|Hin]%elem_of_app; [by apply Hrows|].
  apply list_elem_of_singleton in Hin as ->. by rewrite decode_record_row.
Qed.

(** The current record of a healthy store. *)
Lemma loadNoLock_ok id st s :
  store_ok id st s →
  ∃ rec, loadNoLock st s = Some (Ok rec, s) ∧ rec_VMID rec = id ∧ rec_Phase rec = last_phase id s.
Proof.
  intros [Hinv Hf Hid [Hne _] _ Hrows].
  assert (Hrun : ∃ r, loadNoLock st s = Some (r, s) ∧ is_Ok r = true).
  { unfold loadNoLock. rewrite Hid, decide_False by done. unfold mbind, M_bind.
    rewrite subnet_query_ok, latest_history by done.
    destruct (last (vm_history id (sg_lifecycle s))) as [row|] eqn:El; [|by eexists].
    eexists. split; [reflexivity|]. apply Hrows. apply last_Some in El as [l ->]. set_solver. }
  destruct Hrun as ([rec|e] & Hrun & Hok); [|done]. exists rec. split; [done|].
  apply loadNoLock_run in Hrun as (_ & _ & Hrec); [|done]. destruct (Hrec rec eq_refl) as [H1 H2].
  rewrite Hid in H1. split; [done|]. rewrite <- H1. apply H2. by rewrite H1.
Qed.

Lemma saved_record_current st now id rec :
  rec_VMID rec = id → id ≠ "" → rec_VMID (saved_record st now rec) = id.
Proof. intros <- Hne. by apply saved_record_id. Qed.

Lemma Store_Update_ok id st f s :
  store_ok id st s → update_fn_ok f →
  ∃ rec, rec_VMID rec = id ∧ rec_Phase rec = last_phase id s ∧
  match f rec with
  | Err e => Store_Update st f s = Some ((Some e, st), s)
  | Ok rec' => ∃ st' s', Store_Update st f s = Some ((None, st'), s') ∧ store_ok id st' s' ∧
      last_phase id s' = rec_Phase rec' ∧ sg_vms s' = sg_vms s ∧ sg_subnets s' = sg_subnets s
  end.
Proof.
  intros Hok Hf. destruct (loadNoLock_ok id st s Hok) as (rec & Hload & Hid & Hphase).
  exists rec. split_and!; [done..|]. destruct (f rec) as [rec'|e] eqn:E.
  - destruct (Hf _ _ E) as [Hid' _]. rewrite Hid in Hid'. pose proof (so_name _ _ _ Hok) as [Hne Hdot].
    set (rec2 := with_UpdatedAt (sg_now s) rec'). assert (Hid2 : rec_VMID rec2 = id) by done.
    assert (Hrun : Store_Update st f s = Some ((None, set_vmID id st), save_tables (saved_record st (sg_now s) rec2) s)).
    { unfold Store_Update. rewrite (so_ready _ _ _ Hok). unfold mbind, M_bind. rewrite Hload, E. cbn.
      fold rec2. destruct Hok. rewrite saveNoLock_ok by (try done; by rewrite Hid2). by rewrite Hid2. }
    assert (Hsid := saved_record_current st (sg_now s) id rec2 Hid2 Hne).
    exists (set_vmID id st), (save_tables (saved_record st (sg_now s) rec2) s).
    split_and!; [done| | |done|done].
    + rewrite <- Hsid at 1. apply (save_tables_ok st).
      * by rewrite Hsid.
      * eapply life_change_inv; [apply Hok|]. eapply (Store_Update_change st f); [apply Hok|done..].
      * apply Hok.
      * rewrite Hsid. by apply resolve_set_vmID.
    + rewrite <- Hsid, save_tables_phase. by rewrite saved_record_phase.
  - unfold Store_Update. rewrite (so_ready _ _ _ Hok). unfold mbind, M_bind. by rewrite Hload, E.
Qed.

(** ** Store operations on the host *)

Section reconcile.
Context {OS : Type} (ops : host_ops OS) (net : net_ops OS) (parse_text marshal_text : string).

Lemma store_do_stays id st f s o :
  store_ok id st s → (∀ r, ∃ r', f r = Ok r' ∧ rec_VMID r' = rec_VMID r ∧ rec_Phase r' = rec_Phase r) →
  ∃ st' s', store_do (OS := OS) (Store_Update st f) (Build_host s o) = Some (st', Build_host s' o) ∧ stays id s st' s'.
Proof.
  intros Hok Hf. assert (Hfn : update_fn_ok f).
  { intros r r' E. destruct (Hf r) as (r1 & E1 & ? & ?). rewrite E in E1. injection E1 as ->. by split; [|left]. }
  destruct (Store_Update_ok id st f s Hok Hfn) as (rec & Hid & Hph & H). destruct (Hf rec) as (rec' & E & _ & Hp').
  rewrite E in H. destruct H as (st' & s' & Hrun & Hok' & Hph' & Hv & Hs). exists st', s'.
  unfold store_do, on_db, mbind, M_bind. cbn. rewrite Hrun. split; [done|]. split_and!; congruence || done.
Qed.

Lemma MarkCleanup_stays id st name e s o :
  store_ok id st s →
  ∃ st' s', store_do (OS := OS) (Store_MarkCleanup st name e) (Build_host s o) = Some (st', Build_host s' o) ∧
    stays id s st' s'.
Proof.
  intros Hok. unfold Store_MarkCleanup.
  eapply (store_do_stays id st (λ r, Ok (with_Cleanup _ r)) s o Hok). intros r. eexists. by split_and!.
Qed.

Lemma SetLastError_stays id st e s o :
  store_ok id st s →
  ∃ st' s', store_do (OS := OS) (Store_SetLastError st e) (Build_host s o) = Some (st', Build_host s' o) ∧
    stays id s st' s'.
Proof.
  intros Hok. apply (store_do_stays id st (λ r, Ok (with_LastError (default "" e) r)) s o Hok).
  intros r. eexists. by split_and!.
Qed.

(** A phase change takes effect if the table allows it and is dropped otherwise. *)
Lemma SetPhase_run id st p s o :
  store_ok id st s →
  ∃ st' s', store_do (OS := OS) (Store_SetPhase st p) (Build_host s o) = Some (st', Build_host s' o) ∧
    store_ok id st' s' ∧ sg_vms s' = sg_vms s ∧ sg_subnets s' = sg_subnets s ∧
    last_phase id s' = match validateTransition (last_phase id s) p with None => p | Some _ => last_phase id s end.
Proof.
  intros Hok. set (f := λ r, match validateTransition (rec_Phase r) p with
                            | Some e => Err e | None => Ok (with_Phase p r) end).
  assert (Hfn : update_fn_ok f).
  { intros r r'. unfold f. destruct (validateTransition (rec_Phase r) p) eqn:Ev; [done|]. intros [= <-].
    split; [done|by right]. }
  destruct (Store_Update_ok id st f s Hok Hfn) as (rec & Hid & Hph & H). unfold f in H. rewrite Hph in H.
  unfold store_do, Store_SetPhase, on_db, mbind, M_bind. cbn [h_db]. fold f in H |- *.
  destruct (validateTransition (last_phase id s) p).
  - exists st, s. by rewrite H.
  - destruct H as (st' & s' & -> & Hok' & Hph' & Hv & Hs). by exists st', s'.
Qed.

(** ** The steps: each does what it can and leaves the phase alone *)

(** A step of the reconciliation of a healthy store. *)
Definition step_stays (id : string) (s s0 : storage) (o : OS)
    (run : option ((option string * Store * ReconcileReport) * host OS)) : Prop :=
  ∃ e st' rep' s' o', run = Some ((e, st', rep'), Build_host s' o') ∧ stays id s0 st' s'.

Lemma step_stays_intro id s0 s o e st' rep' s' o' :
  stays id s0 st' s' → step_stays id s s0 o (Some ((e, st', rep'), Build_host s' o')).
Proof. intros H. by exists e, st', rep', s', o'. Qed.

Ltac run_store H := let st' := fresh "st" in let s' := fresh "s" in let Hst := fresh "Hst" in
  edestruct H as (st' & s' & -> & Hst); [eassumption|].

Lemma remove_disk_stays id item path st rep s o :
  store_ok id st s → step_stays id s s o (remove_disk ops item path st rep (Build_host s o)).
Proof.
  intros Hok. unfold remove_disk, mbind, M_bind, on_os. cbn [h_os h_db].
  destruct (os_Remove ops path o) as [[e|] o1]; [destruct (oe_not_exist e)|];
    run_store MarkCleanup_stays; by apply step_stays_intro.
Qed.

Lemma reconcileRootfs_stays id r rec st rep s o :
  store_ok id st s → step_stays id s s o (reconcileRootfs ops r rec st rep (Build_host s o)).
Proof.
  intros Hok. unfold reconcileRootfs. set (path := if decide (rs_RootfsPath _ = "") then _ else _).
  destruct (decide (path = "")).
  { unfold mbind, M_bind. run_store MarkCleanup_stays. by apply step_stays_intro. }
  destruct (remove_disk_stays id "rootfs_remove" path st rep s o Hok) as (e & st1 & rep1 & s1 & o1 & H & Hs).
  unfold mbind, M_bind. rewrite H. destruct e as [e|]; [by apply step_stays_intro|].
  edestruct (remove_disk_stays id "bootstrap_remove") as (e & st2 & rep2 & s2 & o2 & -> & Hs2); [by apply Hs|].
  exists e, st2, rep2, s2, o2. split; [done|]. by eapply stays_trans.
Qed.

Lemma DeleteInterface_os_only name : os_only (DeleteInterface net name).
Proof.
  unfold DeleteInterface.
  repeat (first [apply os_only_ret | apply os_only_on_os | apply os_only_bind; [|intros ?]] || case_match).
Qed.

Lemma deleteNFTTable_os_only name : os_only (deleteNFTTable net name).
Proof.
  unfold deleteNFTTable.
  repeat (first [apply os_only_ret | apply os_only_on_os | apply os_only_bind; [|intros ?]] || case_match).
Qed.

Lemma delete_taps_os_only taps rep : os_only (delete_taps net taps rep).
Proof.
  revert rep. induction taps as [|tap taps IH]; intros rep; cbn [delete_taps]; [apply os_only_ret|].
  apply os_only_bind; [apply os_only_on_os|]. intros there. destruct (negb there); [apply IH|].
  apply os_only_bind; [apply DeleteInterface_os_only|]. intros [e|]; [|apply IH].
  apply os_only_bind; [apply IH|]. intros x. apply os_only_ret.
Qed.

Lemma delete_tables_os_only tables rep : os_only (delete_tables net tables rep).
Proof.
  revert rep. induction tables as [|t tables IH]; intros rep; cbn [delete_tables]; [apply os_only_ret|].
  apply os_only_bind; [apply deleteNFTTable_os_only|]. intros [e|]; [|apply IH].
  apply os_only_bind; [apply IH|]. intros x. apply os_only_ret.
Qed.

Lemma reconcilePlatform_stays id rec st rep s o :
  store_ok id st s → step_stays id s s o (reconcilePlatform ops net rec st rep (Build_host s o)).
Proof.
  intros Hok. unfold reconcilePlatform, mbind, M_bind. destruct (decide (os_GOOS ops = "linux")).
  - destruct (delete_taps_os_only (tapNameCandidates (rec_VMID rec) (rs_TAPName (rec_Resources rec))) rep o)
      as (a & o1 & ->).
    edestruct (MarkCleanup_stays id st) as (st1 & s1 & -> & Hs1); [done|].
    destruct (delete_tables_os_only (table_candidates rec) a.1 o1) as (b & o2 & ->).
    edestruct (MarkCleanup_stays id st1) as (st2 & s2 & -> & Hs2); [by apply Hs1|].
    apply step_stays_intro. by eapply stays_trans.
  - run_store MarkCleanup_stays. by apply step_stays_intro.
Qed.

Lemma store_ok_env id st s t :
  sg_lifecycle s = sg_lifecycle t → sg_heads s = sg_heads t → sg_faults s = sg_faults t → store_ok id st s → store_ok id st t.
Proof.
  intros Hl Hh Hf [H1 H2 H3 H4 H5 H6]. split; rewrite <- ?Hl, <- ?Hf; try done. by eapply life_inv_env.
Qed.

Lemma reconcileSubnet_stays id r st rep s o :
  store_ok id st s → sa_initErr (rc_subnetAlloc r) = None →
  ∃ st' rep' s', reconcileSubnet (OS := OS) parse_text marshal_text r id st rep (Build_host s o) =
    Some ((None, st', rep'), Build_host s' o) ∧ stays id (delete_subnet id s) st' s'.
Proof.
  intros Hok Ha. assert (Hrun : Subnet_Release (rc_subnetAlloc r) id s = Some (None, delete_subnet id s)).
  { unfold Subnet_Release, Subnet_ready, exec, stmt, mbind, M_bind. rewrite Ha, (so_faults _ _ _ Hok).
    destruct s as [? ? ? ? ? faults]. pose proof (so_faults _ _ _ Hok) as Hf. cbn in Hf. by subst faults. }
  unfold reconcileSubnet, on_db, mbind, M_bind. cbn [h_db]. rewrite Hrun.
  edestruct (MarkCleanup_stays id st "subnet_release" None (delete_subnet id s) o) as (st1 & s1 & Hm & Hs1);
    [by apply (store_ok_env id st s)|].
  cbn [fmap option_fmap option_map h_os]. rewrite Hm. by eexists st1, _, s1.
Qed.

(** ** The phases of a reconciliation *)

Lemma cleaning_allowed p :
  validateTransition p p = None → p ≠ PhaseCleaned → validateTransition p PhaseCleaning = None.
Proof.
  unfold validateTransition at 1. destruct (decide (p = "")) as [->|]; [done|]. case_bool_decide as Hin; [|done].
  intros _ Hne. revert Hin. unfold allowedTransitions at 1.
  repeat (destruct (decide (p = _)) as [->|_]; [intros _; first [reflexivity|by contradict Hne]|]).
  by intros ?%elem_of_nil.
Qed.

(** Where a reconciliation ends: [cleaned], after which no phase is left to move to. *)
Definition ends_in (p : string) {E} (e : option E) (q : string) : Prop :=
  (e = None → q = PhaseCleaned) ∧ (e ≠ None → p ≠ PhaseCleaned → q = PhaseCleanupFailed) ∧ (p = PhaseCleaned → q = PhaseCleaned).

Lemma reconcile_steps_run id r rec st rep s o :
  store_ok id st s → sa_initErr (rc_subnetAlloc r) = None →
  ∃ rep' e st' s' o', reconcile_steps ops net parse_text marshal_text r id rec st rep (Build_host s o) =
      Some ((rep', e), Build_host s' o') ∧
    store_ok id st' s' ∧ sg_vms s' = sg_vms s ∧ sg_subnets s' = sg_subnets (delete_subnet id s) ∧
    ends_in (last_phase id s) e (last_phase id s').
Proof.
  intros Hok Ha. unfold reconcile_steps.
  destruct (SetPhase_run id st PhaseCleaning s o Hok) as (st1 & s1 & H1 & Hok1 & Hv1 & Hs1 & Hp1).
  destruct (SetLastError_stays id st1 None s1 o Hok1) as (st2 & s2 & H2 & St2).
  destruct (reconcileSubnet_stays id r st2 rep s2 o (proj1 St2) Ha) as (st3 & rep3 & s3 & H3 & St3).
  destruct (reconcileRootfs_stays id r rec st3 rep3 s3 o (proj1 St3)) as (e4 & st4 & rep4 & s4 & o4 & H4 & St4).
  destruct (reconcilePlatform_stays id rec st4 rep4 s4 o4 (proj1 St4)) as (e5 & st5 & rep5 & s5 & o5 & H5 & St5).
  assert (Hphase : last_phase id s5 = if decide (last_phase id s = PhaseCleaned) then PhaseCleaned else PhaseCleaning).
  { destruct St2 as (_ & E2 & _), St3 as (_ & E3 & _), St4 as (_ & E4 & _), St5 as (_ & E5 & _).
    change (last_phase id (delete_subnet id s2)) with (last_phase id s2) in E3.
    rewrite E5, E4, E3, E2, Hp1. destruct (decide (last_phase id s = PhaseCleaned)) as [->|Hne]; [reflexivity|].
    by rewrite cleaning_allowed by (try done; apply last_phase_known, Hok). }
  assert (Hvms : sg_vms s5 = sg_vms s) by (destruct St2, St3, St4, St5; intuition (cbn in *; congruence)).
  assert (Hsub : sg_subnets s5 = sg_subnets (delete_subnet id s)).
  { destruct St2 as (_ & _ & _ & E2), St3 as (_ & _ & _ & E3), St4 as (_ & _ & _ & E4), St5 as (_ & _ & _ & E5).
    rewrite E5, E4, E3. cbn. by rewrite E2, Hs1. }
  unfold mbind, M_bind. rewrite H1, H2, H3, H4, H5.
  destruct (join_errors _) as [joined|].
  - destruct (SetLastError_stays id st5 (Some joined) s5 o5 (proj1 St5)) as (st6 & s6 & H6 & Hok6 & E6 & V6 & S6).
    destruct (SetPhase_run id st6 PhaseCleanupFailed s6 o5 Hok6) as (st7 & s7 & H7 & Hok7 & Hv7 & Hs7 & Hp7).
    rewrite H6, H7. exists rep5, (Some (ReSteps joined)), st7, s7, o5. split_and!; [done|done|congruence|congruence|].
    rewrite Hp7, E6, Hphase. unfold ends_in. by destruct (decide (last_phase id s = PhaseCleaned)).
  - destruct (SetLastError_stays id st5 None s5 o5 (proj1 St5)) as (st6 & s6 & H6 & Hok6 & E6 & V6 & S6).
    destruct (SetPhase_run id st6 PhaseCleaned s6 o5 Hok6) as (st7 & s7 & H7 & Hok7 & Hv7 & Hs7 & Hp7).
    rewrite H6, H7. exists rep5, None, st7, s7, o5. split_and!; [done|done|congruence|congruence|].
    rewrite Hp7, E6, Hphase. unfold ends_in. by destruct (decide (last_phase id s = PhaseCleaned)).
Qed.

Lemma Store_Init_ok id st backend dir s :
  store_ok id st s → vm_history id (sg_lifecycle s) = [] →
  ∃ st' s', Store_Init st id backend dir s = Some ((None, st'), s') ∧ stays id s st' s'.
Proof.
  intros Hok Hempty. pose proof (so_name _ _ _ Hok) as [Hne Hdot].
  set (rec := {| rec_Version := 1; rec_VMID := id; rec_Backend := backend; rec_Phase := PhaseCreating;
    rec_UpdatedAt := Some (sg_now s); rec_LastError := ""; rec_Resources := state_dir dir; rec_Cleanup := ∅ |}).
  assert (Hsid : rec_VMID (saved_record (set_vmID id st) (sg_now s) rec) = id) by (by apply saved_record_current).
  assert (Hrun : Store_Init st id backend dir s =
    Some ((None, set_vmID id st), save_tables (saved_record (set_vmID id st) (sg_now s) rec) s)).
  { unfold Store_Init. rewrite (so_ready _ _ _ Hok). unfold mbind, M_bind. cbn. fold rec.
    destruct Hok. by rewrite (saveNoLock_ok (set_vmID id st) rec s). }
  eexists _, _. split; [exact Hrun|]. split_and!; [| |done|done].
  - rewrite <- Hsid at 1. apply (save_tables_ok st).
    + by rewrite Hsid.
    + eapply life_change_inv; [apply Hok|]. eapply Store_Init_change; [apply Hok|done].
    + apply Hok.
    + rewrite Hsid. by apply resolve_set_vmID.
  - rewrite <- Hsid at 1. rewrite save_tables_phase, saved_record_phase. unfold last_phase. by rewrite Hempty.
Qed.

Lemma ensure_record_stays id dir st s o :
  store_ok id st s → ∃ st' s', ensure_record (OS := OS) id dir st (Build_host s o) = Some (st', Build_host s' o) ∧
    stays id s st' s'.
Proof.
  intros Hok. assert (Hex : Store_Exists st s =
    Some (negb (bool_decide (vm_history id (sg_lifecycle s) = [])), s)).
  { pose proof (so_name _ _ _ Hok) as [Hne _]. unfold Store_Exists.
    rewrite (so_ready _ _ _ Hok), (so_id _ _ _ Hok), decide_False by done.
    unfold mbind, M_bind. by rewrite subnet_query_ok by apply Hok. }
  unfold ensure_record, on_db, mbind, M_bind. cbn [h_db h_os]. rewrite Hex. case_bool_decide as Hempty; cbn [negb h_db h_os].
  - destruct (Store_Init_ok id st "unknown" dir s Hok Hempty) as (st1 & s1 & -> & Hst1).
    edestruct (store_do_stays id st1 (λ r, Ok (with_Resources (set_rootfs (PathJoin [dir; "upper.ext4"]) (rec_Resources r)) r))
      s1 o (proj1 Hst1)) as (st2 & s2 & H2 & Hst2); [intros r; eexists; by split_and!|].
    exists st2, s2. split; [exact H2|]. by eapply stays_trans.
  - exists st, s. split; [done|]. by apply stays_refl.
Qed.

Lemma ReconcileVM_ends r vm force s o row :
  life_inv s → sg_faults s = [] →
  (∀ x, x ∈ vm_history vm (sg_lifecycle s) → is_Ok (decodeLifecycleRecord x) = true) →
  vm ≠ "" ∧ vm ≠ "." ∧ Base (Clean (Manager_Dir (rc_stateMgr r) vm)) = vm →
  mg_initErr (rc_stateMgr r) = None → sa_initErr (rc_subnetAlloc r) = None →
  find_vm vm (sg_vms s) = Some row → is_Ok (scanVMStateRow row) = true →
  force = true ∨ vr_status row ≠ "running" ∨ process_runs ops (vr_pid row) o = false →
  ∃ rep e s' o', ReconcileVM ops net parse_text marshal_text r vm force (Build_host s o) =
      Some ((rep, e), Build_host s' o') ∧
    sg_vms s' = sg_vms s ∧ sg_subnets s' = filter (λ x, sr_vm_id x ≠ vm) (sg_subnets s) ∧
    ends_in (last_phase vm s) e (last_phase vm s').
Proof.
  intros Hinv Hf Hrows (Hne & Hdot & Hbase) Hm Ha Hrow Hscan Hdead. unfold ReconcileVM.
  assert (Hget : ∃ v, Manager_Get (OS := OS) (rc_stateMgr r) vm (Build_host s o) = Some (Ok v, Build_host s o) ∧
    vs_Status v = vr_status row ∧ vs_PID v = vr_pid row).
  { unfold Manager_Get, Manager_ready, on_db, mbind, M_bind. rewrite Hm. cbn [h_db].
    rewrite subnet_query_ok, Hrow by done. destruct (scanVMStateRow row) as [v|] eqn:Es; [|done]. exists v.
    split; [done|]. unfold scanVMStateRow in Es. by destruct (vr_created_at row); simplify_eq. }
  destruct Hget as (v & Hget & Hst & Hpid). unfold mbind, M_bind. rewrite Hget.
  assert (Hlive : ∃ b o1, (if decide (vs_Status v = "running") then isProcessRunning ops (vs_PID v) else mret false)
    (Build_host s o) = Some (b, Build_host s o1) ∧ b && negb force = false).
  { destruct (decide (vs_Status v = "running")) as [E|E]; [|by eexists false, o].
    destruct (isProcessRunning_run ops (vs_PID v) s o) as (o1 & ->). eexists _, o1. split; [done|].
    rewrite Hpid. destruct Hdead as [->|[?| ->]]; [by rewrite andb_false_r|congruence|done]. }
  destruct Hlive as (b & o1 & -> & ->). unfold open_store, on_db, mbind, M_bind. cbn [h_db h_os].
  assert (Hexec : exec id s = Some (Ok tt, s)) by (destruct s; cbn in Hf; by subst).
  rewrite Hexec. cbn [result_err]. set (dir := Manager_Dir (rc_stateMgr r) vm) in *.
  assert (Hok : store_ok vm (NewStore None dir) s).
  { split; try done. unfold resolveVMIDNoLock, NewStore. cbn [st_vmID]. rewrite Hbase.
    by rewrite (bool_decide_eq_false_2 (vm = "")), (bool_decide_eq_false_2 (vm = ".")). }
  destruct (ensure_record_stays vm dir (NewStore None dir) s o1 Hok) as (st2 & s2 & H2 & St2).
  unfold mret at 1, M_ret. rewrite H2. cbn [h_db h_os].
  destruct (loadNoLock_ok vm st2 s2 (proj1 St2)) as (rec & Hload & Hid & _).
  unfold Store_Load. rewrite (so_ready _ _ _ (proj1 St2)), Hload.
  destruct (reconcile_steps_run vm r (if decide (rec_VMID rec = "") then with_VMID vm rec else rec) st2
    (new_report vm) s2 o1 (proj1 St2) Ha) as (rep & e & st3 & s3 & o3 & H3 & Hok3 & Hv & Hs & Hp).
  exists rep, e, s3, o3. destruct St2 as (_ & Ep & Ev & Es). split_and!; [exact H3|congruence| |by rewrite <- Ep].
  rewrite Hs. cbn. by rewrite Es.
Qed.

(** C37: Reconciling a registered VM with readable records, whose process does not run or by force, on
    a database that answers: it comes to an end; the VM's subnet is free afterwards and the
    registrations and other subnets are as before; the VM's lifecycle is in the phase [cleaned]
    when every step succeeded, and in [cleanup_failed] when a step failed and it had not been
    [cleaned] before. *)
Theorem reconcile_phase r vm force s o row :
  life_inv s → sg_faults s = [] →
  (∀ x, x ∈ vm_history vm (sg_lifecycle s) → is_Ok (decodeLifecycleRecord x) = true) →
  vm ≠ "" ∧ vm ≠ "." ∧ Base (Clean (Manager_Dir (rc_stateMgr r) vm)) = vm →
  mg_initErr (rc_stateMgr r) = None → sa_initErr (rc_subnetAlloc r) = None →
  find_vm vm (sg_vms s) = Some row → is_Ok (scanVMStateRow row) = true →
  force = true ∨ vr_status row ≠ "running" ∨ process_runs ops (vr_pid row) o = false →
  ∃ rep e s' o', ReconcileVM ops net parse_text marshal_text r vm force (Build_host s o) =
      Some ((rep, e), Build_host s' o') ∧
    sg_vms s' = sg_vms s ∧ sg_subnets s' = filter (λ x, sr_vm_id x ≠ vm) (sg_subnets s) ∧
    match e with
    | None => last_phase vm s' = PhaseCleaned
    | Some _ => last_phase vm s ≠ PhaseCleaned → last_phase vm s' = PhaseCleanupFailed
    end.
Proof.
  intros H1 H2 H3 H4 H5 H6 H7 H8 H9.
  destruct (ReconcileVM_ends r vm force s o row H1 H2 H3 H4 H5 H6 H7 H8 H9) as (rep & e & s' & o' & Hrun & Hv & Hs & Hn & He & _).
  exists rep, e, s', o'. split_and!; [done..|]. destruct e; auto.
Qed.

(** That a VM has been [cleaned] hides a later failure: the table has no way out of [cleaned], and the
    refusal of the phase is not looked at. *)
Lemma reconcile_hides_failure r vm force s o row :
  life_inv s → sg_faults s = [] →
  (∀ x, x ∈ vm_history vm (sg_lifecycle s) → is_Ok (decodeLifecycleRecord x) = true) →
  vm ≠ "" ∧ vm ≠ "." ∧ Base (Clean (Manager_Dir (rc_stateMgr r) vm)) = vm →
  mg_initErr (rc_stateMgr r) = None → sa_initErr (rc_subnetAlloc r) = None →
  find_vm vm (sg_vms s) = Some row → is_Ok (scanVMStateRow row) = true →
  force = true ∨ vr_status row ≠ "running" ∨ process_runs ops (vr_pid row) o = false →
  ∃ rep e s' o', ReconcileVM ops net parse_text marshal_text r vm force (Build_host s o) =
      Some ((rep, e), Build_host s' o') ∧
    sg_vms s' = sg_vms s ∧ sg_subnets s' = filter (λ x, sr_vm_id x ≠ vm) (sg_subnets s) ∧
    (last_phase vm s = PhaseCleaned → last_phase vm s' = PhaseCleaned).
Proof.
  intros H1 H2 H3 H4 H5 H6 H7 H8 H9.
  destruct (ReconcileVM_ends r vm force s o row H1 H2 H3 H4 H5 H6 H7 H8 H9) as (rep & e & s' & o' & Hrun & Hv & Hs & _ & _ & Hc).
  by exists rep, e, s', o'.
Qed.

Lemma ReconcileVM_running r vm s o rep e h' row :
  ReconcileVM ops net parse_text marshal_text r vm false (Build_host s o) = Some ((rep, e), h') →
  find_vm vm (sg_vms s) = Some row → vr_status row = "running" → process_runs ops (vr_pid row) o = true →
  e ≠ None ∧ same_tables s (h_db h') ∧
  (h_os h' = o ∨ ∃ t, isProcessRunning ops (vr_pid row) (Build_host s o) = Some (true, t) ∧ h_os h' = h_os t).
Proof.
  intros (g & [s1 o1] & Hg & Hrun)%M_bind_Some Hrow Hst Halive.
  apply Manager_Get_run in Hg as (Ho & Ht & Hg). cbn [h_os h_db] in Ho, Ht. subst o1.
  destruct g as [v|err].
  - destruct Hg as (row' & Hrow' & Hst' & Hpid). rewrite Hrow in Hrow'. injection Hrow' as <-.
    rewrite decide_True in Hrun by congruence. apply M_bind_Some in Hrun as (b & h2 & Hb & Hrun).
    destruct (isProcessRunning_run ops (vs_PID v) s1 o) as (o2 & Hb2). rewrite Hb2 in Hb.
    rewrite Hpid, Halive in Hb. injection Hb as <- <-. cbn [negb andb] in Hrun.
    apply M_ret_Some in Hrun as [[= -> ->] ->]. split_and!; [done|done|]. right.
    destruct (isProcessRunning_os_only ops (vr_pid row) o) as (b & o3 & H3).
    rewrite Hpid, H3, Halive in Hb2. injection Hb2 as -> ->. by exists (Build_host s o2).
  - apply M_ret_Some in Hrun as [[= -> ->] ->]. split_and!; [done|done|by left].
Qed.

(** C32: Neither reconciling nor removing a VM ([matchlock rm], which reconciles and then
    removes) touches one whose process runs: unless forced, the call fails, no table
    changes, and nothing is asked of the host but the liveness test, whatever statements
    fail. *)
Theorem reconcile_spares_running mgr alloc vm s o row :
  find_vm vm (sg_vms s) = Some row → vr_status row = "running" → process_runs ops (vr_pid row) o = true →
  let spared (h' : host OS) := same_tables s (h_db h') ∧
    (h_os h' = o ∨ ∃ t, isProcessRunning ops (vr_pid row) (Build_host s o) = Some (true, t) ∧ h_os h' = h_os t) in
  (∀ rep e h', ReconcileVM ops net parse_text marshal_text {| rc_stateMgr := mgr; rc_subnetAlloc := alloc |} vm false
     (Build_host s o) = Some ((rep, e), h') → e ≠ None ∧ spared h') ∧
  (∀ e h', VMManager_Remove ops net parse_text marshal_text (NewVMManagerWithDeps mgr alloc) vm (Build_host s o) =
     Some (e, h') → (∃ err, e = Some (VmmReconcile err)) ∧ spared h').
Proof.
  intros Hrow Hst Halive spared. split.
  - intros rep e h' H. by eapply ReconcileVM_running.
  - intros e h' ([rep e1] & h1 & H1 & Hrun)%M_bind_Some. eapply ReconcileVM_running in H1 as [He Hs]; [|done..].
    cbn [snd] in Hrun. destruct e1 as [err|]; [|done]. apply M_ret_Some in Hrun as [-> ->]. by eauto.
Qed.

End reconcile.

(** ** Witnesses *)

(** A kernel with no interfaces and no firewall tables. *)
Definition demo_net : net_ops (list Z) := {|
  net_InterfaceByName := λ _ o, (false, o);
  sys_Open := λ _ _ o, (Ok 3, o); sys_Close := λ _ o, (tt, o);
  sys_TUNSETIFF := λ _ _ _ o, (None, o); sys_TUNSETPERSIST := λ _ _ o, (None, o);
  nft_New := λ o, (None, o); nft_ListTables := λ o, (Ok [], o); nft_Flush := λ _ o, (None, o) |}.

Definition demo_rc : Reconciler := {| rc_stateMgr := demo_mgr; rc_subnetAlloc := demo_alloc |}.

Lemma reconcile_phase_witness :
  ∃ rep e s' o', ReconcileVM demo_ops demo_net "" "" demo_rc "vm-2" false (Build_host (demo_db []) [4242]) =
      Some ((rep, e), Build_host s' o') ∧
    sg_vms s' = sg_vms (demo_db []) ∧ sg_subnets s' = filter (λ x, sr_vm_id x ≠ "vm-2") (sg_subnets (demo_db [])) ∧
    match e with
    | None => last_phase "vm-2" s' = PhaseCleaned
    | Some _ => last_phase "vm-2" (demo_db []) ≠ PhaseCleaned → last_phase "vm-2" s' = PhaseCleanupFailed
    end.
Proof.
  apply (reconcile_phase demo_ops demo_net "" "" demo_rc "vm-2" false (demo_db []) [4242] (demo_vm "vm-2" "running" 77)).
  - by apply life_inv_empty.
  - done.
  - by intros x ?%elem_of_nil.
  - vm_compute. done.
  - done.
  - done.
  - vm_compute. done.
  - done.
  - right. right. vm_compute. done.
Defined.

Lemma reconcile_spares_running_witness :
  ∃ h', VMManager_Remove demo_ops demo_net "" "" (NewVMManagerWithDeps demo_mgr demo_alloc) "vm-1"
      (Build_host (demo_db []) [4242]) = Some (Some (VmmReconcile (ReRunning "vm-1")), h') ∧
    same_tables (demo_db []) (h_db h').
Proof.
  exists (Build_host (demo_db []) [4242]). assert (H : VMManager_Remove demo_ops demo_net "" ""
    (NewVMManagerWithDeps demo_mgr demo_alloc) "vm-1" (Build_host (demo_db []) [4242]) =
    Some (Some (VmmReconcile (ReRunning "vm-1")), Build_host (demo_db []) [4242])) by (vm_compute; reflexivity).
  split; [exact H|]. apply (reconcile_spares_running demo_ops demo_net "" "" demo_mgr demo_alloc "vm-1" (demo_db []) [4242]
    (demo_vm "vm-1" "running" 4242)) in H; [by destruct H as (_ & ? & _)|vm_compute; done..].
Defined.

(** ** A record lost to a busy database *)

Definition demo_rc_store : Store := NewStore None "/home/u/.matchlock/vms/vm-2".

(** vm-2 with a TAP device of its own name in its record. *)
Definition demo_recorded : storage :=
  after (Store_SetResource demo_rc_store (λ r, {|
    rs_StateDir := rs_StateDir r; rs_Workspace := ""; rs_KernelRef := ""; rs_KernelPath := "";
    rs_RootfsPath := "/data/vm-2.ext4"; rs_SubnetFile := ""; rs_GatewayIP := ""; rs_GuestIP := "";
    rs_SubnetCIDR := ""; rs_VsockPath := ""; rs_TAPName := "tap7"; rs_FirewallTable := "fw7"; rs_NATTable := "nat7" |}))
  (after (Store_Init demo_rc_store "vm-2" "linux" "/d") (demo_db [])).

(** The resources of the record a store would load. *)
Definition recorded_disk (s : storage) : option string :=
  match latest (vm_history "vm-2" (sg_lifecycle s)) with
  | Some row => match lr_resources row with ColOf r => Some (rs_RootfsPath r) | _ => None end
  | None => None
  end.

(** [Exists] answers "no" when the database is busy. A reconciliation that meets this
    initialises the record of a VM that has one: the recorded disk, TAP device and
    firewall tables are forgotten, other names are cleaned in their place, and the VM is
    reported [cleaned]. *)
Theorem reconcile_forgets_resources :
  recorded_disk demo_recorded = Some "/data/vm-2.ext4" ∧
  ∃ rep h', ReconcileVM demo_ops demo_net "" "" demo_rc "vm-2" false
      (Build_host (with_faults [None; None; Some busy_error] demo_recorded) [4242]) = Some ((rep, None), h') ∧
    recorded_disk (h_db h') = Some "/home/u/.matchlock/vms/vm-2/upper.ext4" ∧
    last_phase "vm-2" (h_db h') = PhaseCleaned.
Proof.
  split; [vm_compute; reflexivity|]. eexists _, _. split; [vm_compute; reflexivity|]. split; vm_compute; reflexivity.
Qed.
