(* ===== verification/Wire.v ===== *)
(** * Framed messages: pkg/vsock/wire.go and vsock.go, and their counterparts in the exec
    relay (pkg/sandbox/exec_relay.go) and the guest agent (internal/guestruntime/agent)

    A message is a type byte, the length of its payload in four big-endian bytes, and the
    payload. A connection read from is the list of segments its reads deliver; one written
    to is the sequence of its write calls. Several goroutines may write to one connection:
    a step relation says what can reach the wire then, with and without the lock that the
    relay's sender takes. *)

From S2P Require Import Prelude GoStrings.

(** ** Messages *)

Record message := { m_type : Z; m_data : bytes }.

#[export] Instance message_eq_dec : EqDecision message.
Proof. solve_decision. Defined.

(** The types of pkg/vsock, which the agent repeats. *)
Definition MsgTypeExec : Z := 1.
Definition MsgTypeExecResult : Z := 2.
Definition MsgTypeStdout : Z := 3.
Definition MsgTypeStderr : Z := 4.
Definition MsgTypeSignal : Z := 5.
Definition MsgTypeReady : Z := 6.
Definition MsgTypeStdin : Z := 7.
Definition MsgTypeResize : Z := 8.
Definition MsgTypeExecTTY : Z := 9.
Definition MsgTypeExit : Z := 10.
Definition MsgTypeExecStream : Z := 11.
Definition MsgTypeExecPipe : Z := 12.
Definition MsgTypePortForward : Z := 13.
Definition MsgTypeWriteFile : Z := 14.
Definition MsgTypeReadFile : Z := 15.
Definition MsgTypeListFiles : Z := 16.
Definition MsgTypeFileResult : Z := 17.

Definition msg_header (m : message) : bytes := chr (m_type m) :: be32 (uint32 (blen (m_data m))).

(** The write calls of one message: an empty payload is not written. *)
Definition msg_writes (m : message) : list bytes :=
  msg_header m :: match m_data m with [] => [] | data => [data] end.

Definition frame_of (m : message) : bytes := msg_header m ++ m_data m.

(** A type that fits its byte, a payload whose length fits the header. *)
Definition msg_ok (m : message) : Prop := 0 <= m_type m < 256 ∧ blen (m_data m) < 2 ^ 32.

(** ** Writing *)

Section writer.
Context {W : Type} (conn_Write : bytes → M W bool).

(** [SendMessage], [WriteMessage] and the relay's [sendRelayMsg]: the first write that fails
    ends it. *)
Definition SendMessage (m : message) : M W bool :=
  ok ← conn_Write (msg_header m);
  if negb ok then mret false
  else match m_data m with [] => mret true | data => conn_Write data end.

(** The agent's [sendMessage]: the results of the writes are ignored. *)
Definition agent_sendMessage (m : message) : M W unit :=
  _ ← conn_Write (msg_header m);
  match m_data m with [] => mret tt | data => _ ← conn_Write data; mret tt end.

End writer.

(** ** Reading *)

(** What the reads of a connection deliver, in order; at the end they fail. *)
Abbreviation conn := (list bytes) (only parsing).

(** [Read] into a buffer of [n] bytes. *)
Definition conn_Read (n : Z) (c : conn) : option (bytes * conn) :=
  match c with
  | [] => None
  | seg :: rest =>
      if blen seg <=? n then Some (seg, rest)
      else Some (take (Z.to_nat n) seg, drop (Z.to_nat n) seg :: rest)
  end.

(** The loop over [total]: what it read, and whether it read it all. The agent takes a read of
    no bytes for the end. Each round but the last exhausts a segment. *)
Fixpoint read_full (zero_is_eof : bool) (fuel : nat) (n : Z) (c : conn) : bytes * bool * conn :=
  match fuel with
  | O => ([], false, c)
  | S fuel' =>
      if n <=? 0 then ([], true, c)
      else match conn_Read n c with
           | None => ([], false, c)
           | Some (d, c') =>
               if zero_is_eof && (blen d =? 0) then ([], false, c')
               else let '(rest, ok, c'') := read_full zero_is_eof fuel' (n - blen d) c' in (d ++ rest, ok, c'')
           end
  end.

Definition ReadFull (n : Z) (c : conn) : bytes * bool * conn := read_full false (2 + length c) n c.

(** The agent's [readFull]. *)
Definition agent_readFull (n : Z) (c : conn) : bytes * bool * conn := read_full true (2 + length c) n c.

Inductive read_error := ErrReadHeader | ErrReadData.

(** Reading one message with a [ReadFull]: an error in the header or in the payload. *)
Definition read_message (readFull : Z → conn → bytes * bool * conn) (c : conn)
    : result read_error (message * conn) :=
  let '(header, ok, c) := readFull 5 c in
  if negb ok then Err ErrReadHeader
  else
    let msgType := match header with b :: _ => code b | [] => 0 end in
    let length := u32 (drop 1 header) in
    if length =? 0 then Ok ({| m_type := msgType; m_data := [] |}, c)
    else
      let '(data, ok, c) := readFull length c in
      if negb ok then Err ErrReadData else Ok ({| m_type := msgType; m_data := data |}, c).

Definition ReadMessage : conn → result read_error (message * conn) := read_message ReadFull.
Definition agent_readMessage : conn → result read_error (message * conn) := read_message agent_readFull.

(** The loops over incoming messages: a round reads a message and either goes on with a new
    state or ends with a result. Every message has a header, so the bytes that are left bound
    the rounds. *)
Section loop.
Context {S R : Type} (readMessage : conn → result read_error (message * conn)) (body : S → message → S + (S * R)).

Fixpoint for_messages (fuel : nat) (s : S) (c : conn) : S * result read_error R * conn :=
  match fuel with
  | O => (s, Err ErrReadHeader, c)
  | Datatypes.S fuel' =>
      match readMessage c with
      | Err e => (s, Err e, c)
      | Ok (m, c') =>
          match body s m with
          | inl s' => for_messages fuel' s' c'
          | inr (s', r) => (s', Ok r, c')
          end
      end
  end.

Definition loop_messages (s : S) (c : conn) : S * result read_error R * conn :=
  for_messages (Datatypes.S (length (concat c))) s c.
End loop.

(** The same loop over messages instead of bytes. *)
Fixpoint fold_messages {S R} (body : S → message → S + (S * R)) (s : S) (ms : list message) : S + (S * R) :=
  match ms with
  | [] => inl s
  | m :: ms' => match body s m with inl s' => fold_messages body s' ms' | inr r => inr r end
  end.

(** ** Several writers on one connection

    A thread has messages to send; while it sends one, it holds the writes that are left. *)

Record thread := { th_todo : list message; th_writes : option (list bytes) }.

Record wire := {
  wr_stream : bytes;            (* what has reached the connection *)
  wr_broken : bool;             (* a write has failed: no byte gets through any more *)
  wr_lock : option nat;         (* who holds the sender's mutex *)
  wr_threads : list thread;
  wr_started : list (nat * message) }.  (* ghost: the sends begun, in order *)

(** One step of a thread: begin a send (taking the lock if there is one), make a write, see a
    write fail after part of it, or finish. After a failed write the relay's sender makes no
    other; the agent goes on regardless. *)
Inductive wire_step (locked : bool) : wire → wire → Prop :=
| StepBegin i m todo w :
    wr_threads w !! i = Some {| th_todo := m :: todo; th_writes := None |} →
    (locked = true → wr_lock w = None) →
    wire_step locked w
      {| wr_stream := wr_stream w; wr_broken := wr_broken w;
         wr_lock := if locked then Some i else wr_lock w;
         wr_threads := <[i := {| th_todo := todo; th_writes := Some (msg_writes m) |}]> (wr_threads w);
         wr_started := wr_started w ++ [(i, m)] |}
| StepWrite i todo d ds w :
    wr_threads w !! i = Some {| th_todo := todo; th_writes := Some (d :: ds) |} →
    wr_broken w = false →
    wire_step locked w
      {| wr_stream := wr_stream w ++ d; wr_broken := false; wr_lock := wr_lock w;
         wr_threads := <[i := {| th_todo := todo; th_writes := Some ds |}]> (wr_threads w);
         wr_started := wr_started w |}
| StepFail i todo d ds p w :
    wr_threads w !! i = Some {| th_todo := todo; th_writes := Some (d :: ds) |} →
    p `prefix_of` d → (wr_broken w = true → p = []) →
    wire_step locked w
      {| wr_stream := wr_stream w ++ p; wr_broken := true; wr_lock := wr_lock w;
         wr_threads := <[i := {| th_todo := todo; th_writes := Some (if locked then [] else ds) |}]> (wr_threads w);
         wr_started := wr_started w |}
| StepEnd i todo w :
    wr_threads w !! i = Some {| th_todo := todo; th_writes := Some [] |} →
    wire_step locked w
      {| wr_stream := wr_stream w; wr_broken := wr_broken w;
         wr_lock := if locked then None else wr_lock w;
         wr_threads := <[i := {| th_todo := todo; th_writes := None |}]> (wr_threads w);
         wr_started := wr_started w |}.

Definition wire_init (todos : list (list message)) : wire := {|
  wr_stream := []; wr_broken := false; wr_lock := None;
  wr_threads := (λ todo, {| th_todo := todo; th_writes := None |}) <$> todos; wr_started := [] |}.

Definition wire_run (locked : bool) : wire → wire → Prop := rtc (wire_step locked).

(** Nothing is left to send. *)
Definition wire_done (w : wire) : Prop := Forall (λ t, t = {| th_todo := []; th_writes := None |}) (wr_threads w).

(** Who writes a broken connection's last frame can leave a part of it: what reading yields
    is all the frames that are complete. *)
Definition thread_sends (i : nat) (started : list (nat * message)) : list message :=
  snd <$> filter (λ p, p.1 = i) started.
