(* ===== verification/WireSpec.v ===== *)
(** * What is written is what is read

    Reading does not depend on how the bytes are cut into segments; messages are read back
    as they were framed; a truncated message is an error and never a different message; and
    senders that share a connection through the relay's lock put whole messages on it. *)

From S2P Require Import Prelude GoStrings Wire.

(** ** Reading *)

(** A connection whose reads deliver at least a byte, as those of a socket do. *)
Definition no_empty_reads (c : list bytes) : Prop := Forall (λ seg, seg ≠ []) c.

Lemma read_full_spec z fuel n c :
  z = false ∨ no_empty_reads c → (length c < fuel)%nat → 0 <= n →
  if n <=? blen (concat c) then
    ∃ c', read_full z fuel n c = (take (Z.to_nat n) (concat c), true, c')
      ∧ concat c' = drop (Z.to_nat n) (concat c) ∧ (no_empty_reads c → no_empty_reads c')
  else ∃ c', read_full z fuel n c = (concat c, false, c').
Proof.
  revert n c. induction fuel as [|fuel IH]; intros n c Hz Hf Hn; [lia|]. cbn [read_full].
  destruct (Z.leb_spec n 0) as [H0|H0].
  { assert (n = 0) as -> by lia. rewrite (proj2 (Z.leb_le 0 _)) by apply blen_nonneg. change (Z.to_nat 0) with O. rewrite drop_0. by exists c. }
  destruct c as [|seg c]; cbn [conn_Read concat].
  { change (blen (@nil byte)) with 0. rewrite (proj2 (Z.leb_gt n 0)) by lia. by eexists. }
  assert (Hseg : z = true → seg ≠ []) by (intros ->; destruct Hz as [|Hz]; [done|by inversion Hz]).
  assert (Hz' : z = false ∨ no_empty_reads c).
  { destruct Hz as [|Hz]; [by left|right]. by inversion Hz. }
  rewrite blen_app. pose proof (blen_nonneg seg). pose proof (blen_nonneg (concat c)).
  destruct (Z.leb_spec (blen seg) n) as [Hs|Hs].
  - assert (z && (blen seg =? 0) = false) as ->.
    { destruct z; [|done]. apply Z.eqb_neq. unfold blen. destruct seg; [by specialize (Hseg eq_refl)|cbn; lia]. }
    specialize (IH (n - blen seg) c Hz' ltac:(cbn in Hf; lia) ltac:(lia)).
    assert (n - blen seg <=? blen (concat c) = (n <=? blen seg + blen (concat c))) as Hcmp.
    { destruct (Z.leb_spec n (blen seg + blen (concat c))); [apply Z.leb_le|apply Z.leb_gt]; lia. }
    rewrite Hcmp in IH. assert (Z.to_nat n = length seg + Z.to_nat (n - blen seg))%nat as -> by (unfold blen in *; lia).
    destruct (n <=? blen seg + blen (concat c)).
    + destruct IH as (c' & -> & Hc & Hne). exists c'. rewrite take_app_add, drop_app_add. split_and!; [done|done|].
      intros Hall. apply Hne. by inversion Hall.
    + destruct IH as (c' & ->). by eexists.
  - assert (Hlen : blen (take (Z.to_nat n) seg) = n) by (unfold blen in *; rewrite length_take; lia).
    rewrite Hlen. rewrite (proj2 (Z.eqb_neq n 0)), andb_false_r by lia. rewrite (proj2 (Z.leb_le n _)) by lia.
    destruct fuel as [|fuel]; [cbn in Hf; lia|]. cbn [read_full]. rewrite (proj2 (Z.leb_le _ _)) by lia.
    exists (drop (Z.to_nat n) seg :: c). cbn [concat].
    unfold blen in Hs. rewrite app_nil_r, take_app_le, drop_app_le by lia. split_and!; [done..|].
    intros Hall. constructor; [|by inversion Hall]. intros Hd. apply (f_equal length) in Hd.
    rewrite length_drop in Hd. cbn in Hd. lia.
Qed.

Definition reader_of (z : bool) (n : Z) (c : list bytes) := read_full z (2 + length c) n c.

Lemma reader_of_spec z n c :
  z = false ∨ no_empty_reads c → 0 <= n →
  if n <=? blen (concat c) then
    ∃ c', reader_of z n c = (take (Z.to_nat n) (concat c), true, c')
      ∧ concat c' = drop (Z.to_nat n) (concat c) ∧ (no_empty_reads c → no_empty_reads c')
  else ∃ c', reader_of z n c = (concat c, false, c').
Proof. intros Hz Hn. apply read_full_spec; [done|lia|done]. Qed.

Lemma header_length m : length (msg_header m) = 5%nat.
Proof. done. Qed.

Lemma blen_frame m : blen (frame_of m) = 5 + blen (m_data m).
Proof. unfold frame_of. by rewrite blen_app. Qed.

(** The fields of a header read back. *)
Lemma header_fields m :
  msg_ok m → (match msg_header m with b :: _ => code b | [] => 0 end) = m_type m
    ∧ u32 (drop 1 (msg_header m)) = blen (m_data m).
Proof.
  intros [Ht Hd]. pose proof (blen_nonneg (m_data m)). unfold msg_header. cbn [drop]. split; [by apply code_chr|].
  rewrite uint32_id by lia. apply u32_be32. lia.
Qed.

Lemma read_message_frame z m c rest :
  msg_ok m → z = false ∨ no_empty_reads c → concat c = frame_of m ++ rest →
  ∃ c', read_message (reader_of z) c = Ok (m, c') ∧ concat c' = rest ∧ (no_empty_reads c → no_empty_reads c').
Proof.
  intros Hok Hz Hc. destruct (header_fields m Hok) as [Ht Hl]. unfold read_message.
  pose proof (reader_of_spec z 5 c Hz ltac:(lia)) as H5. rewrite Hc, blen_app, blen_frame in H5.
  pose proof (blen_nonneg (m_data m)). pose proof (blen_nonneg rest).
  rewrite (proj2 (Z.leb_le _ _)) in H5 by lia. destruct H5 as (c1 & -> & Hc1 & Hne1). cbn [negb].
  unfold frame_of in *. rewrite <- app_assoc in Hc1 |- *. change (Z.to_nat 5) with (length (msg_header m)) in *.
  rewrite take_app_length. rewrite drop_app_length in Hc1. rewrite Ht, Hl.
  destruct (Z.eqb_spec (blen (m_data m)) 0) as [Hd0|Hd0].
  { destruct m as [t data]. cbn in *. destruct data; [|done]. by exists c1. }
  assert (Hz1 : z = false ∨ no_empty_reads c1) by (destruct Hz; [by left|right; by apply Hne1]).
  pose proof (reader_of_spec z (blen (m_data m)) c1 Hz1 ltac:(lia)) as Hd. rewrite Hc1, blen_app in Hd.
  rewrite (proj2 (Z.leb_le _ _)) in Hd by lia. destruct Hd as (c2 & -> & Hc2 & Hne2). cbn [negb].
  assert (Z.to_nat (blen (m_data m)) = length (m_data m)) as Hn by (unfold blen; lia).
  rewrite Hn in *. rewrite take_app_length. rewrite drop_app_length in Hc2. exists c2.
  split_and!; [by destruct m|done|]. intros Hall. by apply Hne2, Hne1.
Qed.

(** Cut off before its end, a message is an error. *)
Lemma read_message_cut z m c :
  msg_ok m → z = false ∨ no_empty_reads c → concat c `prefix_of` frame_of m → concat c ≠ frame_of m →
  ∃ e, read_message (reader_of z) c = Err e.
Proof.
  intros Hok Hz [rest Hc] Hneq. destruct (header_fields m Hok) as [Ht Hl].
  assert (Hr : 0 < blen rest).
  { unfold blen. destruct rest; [by rewrite app_nil_r in Hc|]. cbn. lia. }
  unfold read_message. pose proof (reader_of_spec z 5 c Hz ltac:(lia)) as H5.
  destruct (Z.leb_spec 5 (blen (concat c))) as [H|H]; [|destruct H5 as (c' & ->); by eexists].
  destruct H5 as (c1 & -> & Hc1 & Hne1). cbn [negb].
  assert (Hh : take (Z.to_nat 5) (concat c) = msg_header m).
  { unfold frame_of in Hc. apply (f_equal (take 5)) in Hc. change (take 5 (msg_header m ++ m_data m)) with (msg_header m) in Hc.
    rewrite Hc. change (Z.to_nat 5) with 5%nat. rewrite take_app_le; [done|]. unfold blen in H. lia. }
  rewrite Hh, Ht, Hl. pose proof (f_equal blen Hc) as Hlen. rewrite blen_frame, blen_app in Hlen.
  destruct (Z.eqb_spec (blen (m_data m)) 0) as [Hd0|Hd0]; [lia|].
  assert (Hz1 : z = false ∨ no_empty_reads c1) by (destruct Hz; [by left|right; by apply Hne1]).
  pose proof (reader_of_spec z (blen (m_data m)) c1 Hz1 ltac:(apply blen_nonneg)) as Hd.
  assert (blen (concat c1) = blen (concat c) - 5) as Hb by (rewrite Hc1; unfold blen in *; rewrite length_drop; lia).
  rewrite (proj2 (Z.leb_gt _ _)) in Hd by lia. destruct Hd as (c' & ->). by eexists.
Qed.

Lemma ReadMessage_frame m c rest :
  msg_ok m → concat c = frame_of m ++ rest → ∃ c', ReadMessage c = Ok (m, c') ∧ concat c' = rest.
Proof.
  intros Hok Hc. destruct (read_message_frame false m c rest Hok (or_introl eq_refl) Hc) as (c' & H & H' & _).
  by exists c'.
Qed.

Lemma ReadMessage_cut m c :
  msg_ok m → concat c `prefix_of` frame_of m → concat c ≠ frame_of m → ∃ e, ReadMessage c = Err e.
Proof. intros Hok. apply (read_message_cut false); [done|by left]. Qed.

(** ** Loops over messages *)

Abbreviation frames ms := (concat (frame_of <$> ms)) (only parsing).

(** What is left when a connection is cut off in the middle of a message, or between two. *)
Definition cut_frame (tail : bytes) : Prop := ∃ m, msg_ok m ∧ tail `prefix_of` frame_of m ∧ tail ≠ frame_of m.

Lemma cut_frame_nil : cut_frame [].
Proof. exists {| m_type := 0; m_data := [] |}. split; [by split; cbn|]. split; [apply prefix_nil|done]. Qed.

Section loops.
Context {S R : Type} (body : S → message → S + (S * R)) (z : bool).

Lemma for_messages_fold fuel s c ms tail :
  z = false ∨ no_empty_reads c → Forall msg_ok ms → concat c = frames ms ++ tail → (length (concat c) < fuel)%nat →
  match fold_messages body s ms with
  | inl s' => ∃ fuel' c', for_messages (read_message (reader_of z)) body fuel s c
        = for_messages (read_message (reader_of z)) body fuel' s' c' ∧ concat c' = tail
      ∧ (length tail < fuel')%nat ∧ (no_empty_reads c → no_empty_reads c')
  | inr (s', r) => ∃ c', for_messages (read_message (reader_of z)) body fuel s c = (s', Ok r, c')
  end.
Proof.
  intros Hz Hok. revert fuel s c Hz. induction Hok as [|m ms Hm _ IH]; intros fuel s c Hz Hc Hf; cbn [fold_messages].
  { exists fuel, c. cbn in Hc. by rewrite <- Hc. }
  rewrite fmap_cons in Hc. cbn [concat] in Hc. rewrite <- app_assoc in Hc.
  destruct (read_message_frame z m c _ Hm Hz Hc) as (c1 & Hr & Hc1 & Hne).
  destruct fuel as [|fuel]; [lia|]. cbn [for_messages]. rewrite Hr.
  assert (length (concat c1) < fuel)%nat.
  { rewrite Hc, <- Hc1, length_app in Hf. unfold frame_of in Hf. rewrite length_app, header_length in Hf. lia. }
  assert (Hz1 : z = false ∨ no_empty_reads c1) by (destruct Hz; [by left|right; by apply Hne]).
  destruct (body s m) as [s1|[s1 r]]; [|by exists c1]. specialize (IH fuel s1 c1 Hz1 Hc1 ltac:(done)).
  destruct (fold_messages body s1 ms) as [s2|[s2 r2]]; [|done].
  destruct IH as (fuel' & c' & ? & ? & ? & Hne'). exists fuel', c'. split_and!; [done..|]. intros Hall. by apply Hne', Hne.
Qed.

(** A loop over a connection is the fold over the messages it carries. *)
Lemma loop_messages_stops s c ms tail s' r :
  z = false ∨ no_empty_reads c → Forall msg_ok ms → concat c = frames ms ++ tail →
  fold_messages body s ms = inr (s', r) →
  ∃ c', loop_messages (read_message (reader_of z)) body s c = (s', Ok r, c').
Proof.
  intros Hz Hok Hc Hf. pose proof (for_messages_fold _ s c ms tail Hz Hok Hc (Nat.lt_succ_diag_r _)) as H.
  by rewrite Hf in H.
Qed.

Lemma loop_messages_ends s c ms tail s' :
  z = false ∨ no_empty_reads c → Forall msg_ok ms → concat c = frames ms ++ tail → cut_frame tail →
  fold_messages body s ms = inl s' →
  ∃ e c', loop_messages (read_message (reader_of z)) body s c = (s', Err e, c').
Proof.
  intros Hz Hok Hc (m & Hm & Hp & Hne) Hf.
  pose proof (for_messages_fold _ s c ms tail Hz Hok Hc (Nat.lt_succ_diag_r _)) as H. rewrite Hf in H.
  destruct H as (fuel & c' & Hl & <- & Hfuel & Hnr).
  assert (Hz' : z = false ∨ no_empty_reads c') by (destruct Hz; [by left|right; by apply Hnr]).
  destruct (read_message_cut z m c' Hm Hz' Hp Hne) as [e He].
  exists e, c'. unfold loop_messages. rewrite Hl. destruct fuel as [|fuel]; [lia|]. cbn [for_messages]. by rewrite He.
Qed.

Lemma fold_messages_app s ms1 ms2 :
  fold_messages body s (ms1 ++ ms2) =
  match fold_messages body s ms1 with inl s' => fold_messages body s' ms2 | inr r => inr r end.
Proof. revert s. induction ms1 as [|m ms1 IH]; intros s; [done|]. cbn. by destruct (body s m). Qed.

End loops.

(** Everything a connection carries. *)
Definition collect (ms : list message) (m : message) : list message + (list message * Empty_set) := inl (ms ++ [m]).

Definition received (c : list bytes) : list message := (loop_messages ReadMessage collect [] c).1.1.

Lemma fold_collect acc ms : fold_messages collect acc ms = inl (acc ++ ms).
Proof. revert acc. induction ms as [|m ms IH]; intros acc; [by rewrite app_nil_r|]. cbn. rewrite IH. by rewrite <- app_assoc. Qed.

Lemma received_frames c ms tail :
  Forall msg_ok ms → concat c = frames ms ++ tail → cut_frame tail → received c = ms.
Proof.
  intros Hok Hc Ht. destruct (loop_messages_ends collect false [] c ms tail _ (or_introl eq_refl) Hok Hc Ht (fold_collect [] ms)) as (e & c' & H).
  unfold received. change ReadMessage with (read_message (reader_of false)). by rewrite H.
Qed.

(** A beginning of a sequence of frames is some of the frames and a cut one. *)
Lemma prefix_of_frames p ms :
  Forall msg_ok ms → p `prefix_of` frames ms →
  ∃ ms1 ms2 tail, ms = ms1 ++ ms2 ∧ p = frames ms1 ++ tail ∧ cut_frame tail ∧ (p = frames ms → ms2 = []).
Proof.
  intros Hok. revert p. induction Hok as [|m ms Hm Hok IH]; intros p Hp.
  { apply prefix_nil_inv in Hp as ->. exists [], [], []. split_and!; [done..|apply cut_frame_nil|done]. }
  rewrite fmap_cons in Hp |- *. cbn [concat] in *.
  destruct (decide (length p < length (frame_of m))%nat) as [Hl|Hl].
  - exists [], (m :: ms), p. split_and!; [done..| |].
    + exists m. split; [done|]. split.
      * destruct Hp as [k Hk]. apply (f_equal (take (length p))) in Hk.
        rewrite take_app_length in Hk. rewrite take_app_le in Hk by lia. rewrite <- Hk. apply prefix_take.
      * intros ->. lia.
    + intros ->. rewrite length_app in Hl. lia.
  - assert (∃ q, p = frame_of m ++ q) as [q ->].
    { exists (drop (length (frame_of m)) p). destruct Hp as [k Hk]. apply (f_equal (take (length (frame_of m)))) in Hk.
      rewrite take_app_length, take_app_le in Hk by lia. rewrite Hk at 1. by rewrite take_drop. }
    apply prefix_app_inv in Hp. destruct (IH q Hp) as (ms1 & ms2 & tail & -> & -> & Ht & Hall).
    exists (m :: ms1), ms2, tail. split_and!; [done| |done|].
    + rewrite fmap_cons. cbn [concat]. by rewrite app_assoc.
    + intros Heq. apply app_inv_head in Heq. by apply Hall.
Qed.

(** ** Senders behind the lock *)

(** What the holder of the lock has still to write. *)
Definition wire_pending (w : wire) : bytes :=
  match wr_lock w with
  | Some i => match wr_threads w !! i with
              | Some {| th_writes := Some ds |} => concat ds
              | _ => []
              end
  | None => []
  end.

Record wire_inv (todos : list (list message)) (w : wire) : Prop := {
  wi_lock : ∀ j t, wr_threads w !! j = Some t → th_writes t ≠ None → wr_lock w = Some j;
  wi_held : ∀ i, wr_lock w = Some i → ∃ todo ds, wr_threads w !! i = Some {| th_todo := todo; th_writes := Some ds |};
  wi_exact : wr_broken w = false → wr_stream w ++ wire_pending w = frames (wr_started w).*2;
  wi_prefix : wr_stream w `prefix_of` frames (wr_started w).*2;
  wi_length : length (wr_threads w) = length todos;
  wi_todo : ∀ i t, wr_threads w !! i = Some t →
    todos !! i = Some (thread_sends i (wr_started w) ++ th_todo t);
  wi_ok : Forall (Forall msg_ok) todos → Forall msg_ok (wr_started w).*2;
  wi_ids : Forall (λ p, (p.1 < length todos)%nat) (wr_started w) }.

Lemma thread_sends_snoc i j m l :
  thread_sends i (l ++ [(j, m)]) = thread_sends i l ++ if decide (j = i) then [m] else [].
Proof.
  unfold thread_sends. rewrite filter_app, fmap_app. f_equal. destruct (decide (j = i)) as [Heq|Heq].
  - by rewrite filter_cons_True.
  - by rewrite filter_cons_False.
Qed.

Lemma concat_msg_writes m : concat (msg_writes m) = frame_of m.
Proof.
  unfold msg_writes, frame_of. cbn [concat]. destruct (m_data m); cbn [concat]; by rewrite ?app_nil_r.
Qed.

#[local] Arguments thread_sends : simpl never.

Lemma wire_inv_init todos : wire_inv todos (wire_init todos).
Proof.
  split; cbn; [|done|done|done|by rewrite length_fmap| |by constructor|constructor].
  - intros j t Ht. rewrite list_lookup_fmap in Ht. by destruct (todos !! j); simplify_eq/=.
  - intros i t Ht. rewrite list_lookup_fmap in Ht. by destruct (todos !! i); simplify_eq/=.
Qed.

(** A thread [i] that changes only its writes keeps what the threads have to send. *)
Lemma wire_todo_update (todos : list (list message)) (threads : list thread) started i todo ws ws' :
  (∀ j t, threads !! j = Some t → todos !! j = Some (thread_sends j started ++ th_todo t)) →
  threads !! i = Some {| th_todo := todo; th_writes := ws |} →
  ∀ j t, <[i := {| th_todo := todo; th_writes := ws' |}]> threads !! j = Some t →
  todos !! j = Some (thread_sends j started ++ th_todo t).
Proof.
  intros Hall Hi j t Hj. destruct (decide (j = i)) as [->|Hne].
  - rewrite list_lookup_insert_eq in Hj by (by eapply lookup_lt_Some). injection Hj as <-. by apply Hall in Hi.
  - rewrite list_lookup_insert_ne in Hj by done. by apply Hall.
Qed.

(** The holder of the lock goes on holding it. *)
Lemma wire_lock_update (threads : list thread) i t' :
  (∀ j t, threads !! j = Some t → th_writes t ≠ None → Some i = Some j) →
  ∀ j t, <[i := t']> threads !! j = Some t → th_writes t ≠ None → Some i = Some j.
Proof.
  intros Hall j t Hj Hw. destruct (decide (j = i)) as [->|Hne]; [done|].
  rewrite list_lookup_insert_ne in Hj by done. by eapply Hall.
Qed.

Lemma wire_inv_step todos w w' : wire_inv todos w → wire_step true w w' → wire_inv todos w'.
Proof.
  intros [Hlock Hheld Hex Hpre Hlen Htodo Hok Hids] Hs.
  destruct Hs as [i m todo w Hi Hfree|i todo d ds w Hi Hb|i todo d ds p w Hi Hp Hb|i todo w Hi];
    pose proof (lookup_lt_Some _ _ _ Hi) as Hlt.
  - specialize (Hfree eq_refl). split; cbn.
    + apply wire_lock_update. intros j t Hj Hw. specialize (Hlock j t Hj Hw). congruence.
    + intros ? [= <-]. rewrite list_lookup_insert_eq by done. eauto.
    + intros Hub. specialize (Hex Hub). unfold wire_pending in *. rewrite Hfree, app_nil_r in Hex.
      cbn. rewrite list_lookup_insert_eq by done. rewrite Hex, fmap_app, fmap_app, concat_app, concat_msg_writes.
      cbn. by rewrite app_nil_r.
    + rewrite fmap_app, fmap_app, concat_app. by apply prefix_app_r.
    + by rewrite length_insert.
    + intros j t Hj. rewrite thread_sends_snoc. destruct (decide (i = j)) as [<-|Hne].
      * rewrite list_lookup_insert_eq in Hj by done. injection Hj as <-. cbn. rewrite <- app_assoc. by apply Htodo in Hi.
      * rewrite list_lookup_insert_ne in Hj by done. rewrite app_nil_r. by apply Htodo.
    + intros Hall. rewrite fmap_app. apply Forall_app. split; [by apply Hok|]. apply Htodo in Hi. cbn in Hi.
      apply (Forall_lookup_1 _ _ _ _ Hall), Forall_app in Hi as [_ Hi]. constructor; [by inversion Hi|constructor].
    + apply Forall_app. split; [done|]. constructor; [by rewrite <- Hlen|constructor].
  - assert (Hl : wr_lock w = Some i) by (by eapply Hlock; [exact Hi|]).
    assert (Hp : wr_stream w ++ d ++ concat ds = frames (wr_started w).*2).
    { rewrite <- (Hex Hb). unfold wire_pending. by rewrite Hl, Hi. }
    split; cbn.
    + rewrite Hl in *. by apply wire_lock_update.
    + rewrite Hl. intros ? [= <-]. rewrite list_lookup_insert_eq by done. eauto.
    + intros _. unfold wire_pending. cbn. rewrite Hl, list_lookup_insert_eq by done. by rewrite <- app_assoc.
    + rewrite <- Hp, app_assoc. by apply prefix_app_r.
    + by rewrite length_insert.
    + by eapply wire_todo_update.
    + done.
    + done.
  - assert (Hl : wr_lock w = Some i) by (by eapply Hlock; [exact Hi|]). split; cbn.
    + rewrite Hl in *. by apply wire_lock_update.
    + rewrite Hl. intros ? [= <-]. rewrite list_lookup_insert_eq by done. eauto.
    + done.
    + destruct (wr_broken w); [by rewrite Hb, app_nil_r|]. specialize (Hex eq_refl).
      unfold wire_pending in Hex. rewrite Hl, Hi in Hex. cbn in Hex. destruct Hp as [k ->].
      rewrite <- Hex, <- !app_assoc, app_assoc. by apply prefix_app_r.
    + by rewrite length_insert.
    + by eapply wire_todo_update.
    + done.
    + done.
  - assert (Hl : wr_lock w = Some i) by (by eapply Hlock; [exact Hi|]). split; cbn.
    + intros j t Hj Hw. destruct (decide (j = i)) as [->|Hne].
      * rewrite list_lookup_insert_eq in Hj by done. by injection Hj as <-.
      * rewrite list_lookup_insert_ne in Hj by done. specialize (Hlock j t Hj Hw). congruence.
    + done.
    + intros Hub. specialize (Hex Hub). unfold wire_pending in *. by rewrite Hl, Hi in Hex.
    + done.
    + by rewrite length_insert.
    + by eapply wire_todo_update.
    + done.
    + done.
Qed.

Lemma wire_inv_run todos w : wire_run true (wire_init todos) w → wire_inv todos w.
Proof.
  intros Hr. remember (wire_init todos) as w0 eqn:E. assert (H0 : wire_inv todos w0) by (subst; apply wire_inv_init).
  clear E. induction Hr as [|w0 w1 w2 Hs _ IH]; [done|]. apply IH. by eapply wire_inv_step.
Qed.

(** What the invariant says of the messages: those begun are a beginning of each thread's, and
    all of them once the threads are done. *)
Lemma wire_inv_sends todos w i todo :
  wire_inv todos w → todos !! i = Some todo →
  thread_sends i (wr_started w) `prefix_of` todo ∧ (wire_done w → thread_sends i (wr_started w) = todo).
Proof.
  intros Hinv Hi. destruct (lookup_lt_is_Some_2 (wr_threads w) i) as [t Ht].
  { rewrite (wi_length _ _ Hinv). by eapply lookup_lt_Some. }
  pose proof (wi_todo _ _ Hinv i t Ht) as Htodo. rewrite Hi in Htodo. injection Htodo as ->. split; [by apply prefix_app_r|].
  intros Hd. unfold wire_done in Hd. rewrite Forall_lookup in Hd. rewrite (Hd _ _ Ht). by rewrite app_nil_r.
Qed.

(** When all is sent and no write failed, the connection carries the frames begun. *)
Lemma wire_inv_done todos w :
  wire_inv todos w → wire_done w → wr_broken w = false → wr_stream w = frames (wr_started w).*2.
Proof.
  intros Hinv Hd Hub. pose proof (wi_exact _ _ Hinv Hub) as Hex. unfold wire_pending in Hex.
  destruct (wr_lock w) as [i|] eqn:El; [|by rewrite app_nil_r in Hex].
  destruct (wi_held _ _ Hinv i El) as (todo & ds & Hi). unfold wire_done in Hd. rewrite Forall_lookup in Hd.
  by specialize (Hd _ _ Hi).
Qed.

(** C15: Senders that share a connection through the lock put whole messages on it. Whatever the
    interleaving of their statements, and whichever write fails: the receiver gets, for every
    segmentation of the bytes, a beginning of the messages whose sending was begun, in that
    order, and never anything else; each sender's messages are begun in its order; and when
    all sends are done and none failed, every message has arrived. *)
Theorem locked_frames_whole todos w c :
  Forall (Forall msg_ok) todos → wire_run true (wire_init todos) w → concat c = wr_stream w →
  received c `prefix_of` (wr_started w).*2
  ∧ (∀ i todo, todos !! i = Some todo → thread_sends i (wr_started w) `prefix_of` todo)
  ∧ (wire_done w → wr_broken w = false → received c = (wr_started w).*2
      ∧ ∀ i todo, todos !! i = Some todo → thread_sends i (wr_started w) = todo).
Proof.
  intros Hok Hinv%wire_inv_run Hc. pose proof (wi_ok _ _ Hinv Hok) as Hsent. pose proof (wi_prefix _ _ Hinv) as Hpre.
  rewrite <- Hc in Hpre. destruct (prefix_of_frames _ _ Hsent Hpre) as (ms1 & ms2 & tail & Hms & Hs & Ht & Hall).
  assert (Hrec : received c = ms1).
  { eapply received_frames; [|exact Hs|done]. rewrite Hms in Hsent. by apply Forall_app in Hsent as [? _]. }
  rewrite Hrec. split_and!.
  - rewrite Hms. by apply prefix_app_r.
  - intros i todo Hi. by apply (wire_inv_sends _ _ _ _ Hinv).
  - intros Hd Hub. split; [|intros i todo Hi; by apply (wire_inv_sends _ _ _ _ Hinv)].
    pose proof (wire_inv_done _ _ Hinv Hd Hub) as Hst. rewrite Hms, (Hall ltac:(congruence)). by rewrite app_nil_r.
Qed.

(** ** Two outputs on one connection *)

(** The payloads of the messages of a type. *)
Definition payload (t : Z) (ms : list message) : bytes := concat (m_data <$> filter (λ m, m_type m = t) ms).

Lemma payload_cons t m ms : payload t (m :: ms) = (if m_type m =? t then m_data m else []) ++ payload t ms.
Proof.
  unfold payload. destruct (Z.eqb_spec (m_type m) t) as [H|H].
  - by rewrite filter_cons_True.
  - by rewrite filter_cons_False.
Qed.

Lemma payload_all t ms : Forall (λ m, m_type m = t) ms → payload t ms = concat (m_data <$> ms).
Proof. induction 1 as [|m ms Hm _ IH]; [done|]. rewrite payload_cons, Hm, Z.eqb_refl, IH. done. Qed.

(** An interleaving of two outputs, each with its type: what each says is in its order. *)
Record interleaved (t0 t1 : Z) (sent : list (nat * message)) (l0 l1 : list message) : Prop := {
  il_ids : Forall (λ p, (p.1 < 2)%nat) sent;
  il_first : thread_sends 0 sent = l0;
  il_second : thread_sends 1 sent = l1;
  il_type0 : Forall (λ m, m_type m = t0) l0;
  il_type1 : Forall (λ m, m_type m = t1) l1 }.

Lemma elem_of_thread_sends i m sent : (i, m) ∈ sent → m ∈ thread_sends i sent.
Proof. intros H. unfold thread_sends. apply list_elem_of_fmap. exists (i, m). split; [done|]. by apply list_elem_of_filter. Qed.

Lemma interleaved_elem t0 t1 sent l0 l1 i m :
  interleaved t0 t1 sent l0 l1 → (i, m) ∈ sent →
  (i = 0%nat ∧ m ∈ l0 ∧ m_type m = t0) ∨ (i = 1%nat ∧ m ∈ l1 ∧ m_type m = t1).
Proof.
  intros [Hi H0 H1 Ht0 Ht1] Hm. pose proof (elem_of_thread_sends _ _ _ Hm) as Hin.
  pose proof (proj1 (Forall_forall _ _) Ht0) as Hall0. pose proof (proj1 (Forall_forall _ _) Ht1) as Hall1.
  pose proof (proj1 (Forall_forall _ _) Hi _ Hm) as Hlt. cbn in Hlt. destruct i as [|[|i]]; [left|right|lia].
  - rewrite H0 in Hin. split_and!; [done|done|by apply Hall0].
  - rewrite H1 in Hin. split_and!; [done|done|by apply Hall1].
Qed.

Lemma interleaved_ok t0 t1 sent l0 l1 :
  interleaved t0 t1 sent l0 l1 → Forall msg_ok l0 → Forall msg_ok l1 → Forall msg_ok sent.*2.
Proof.
  intros Hs H0 H1. apply Forall_fmap, Forall_forall. intros [i m] Hm. cbn.
  destruct (interleaved_elem _ _ _ _ _ _ _ Hs Hm) as [(_ & Hin & _) | (_ & Hin & _)].
  - by apply (proj1 (Forall_forall _ _) H0).
  - by apply (proj1 (Forall_forall _ _) H1).
Qed.

Lemma interleaved_types t0 t1 sent l0 l1 :
  interleaved t0 t1 sent l0 l1 → Forall (λ m, m_type m = t0 ∨ m_type m = t1) sent.*2.
Proof.
  intros Hs. apply Forall_fmap, Forall_forall. intros [i m] Hm. cbn.
  destruct (interleaved_elem _ _ _ _ _ _ _ Hs Hm) as [(_ & _ & ?) | (_ & _ & ?)]; auto.
Qed.

(** The payloads of a type are those of its thread. *)
Lemma payload_threads i t sent :
  (∀ j m, (j, m) ∈ sent → m_type m = t ↔ j = i) → payload t sent.*2 = payload t (thread_sends i sent).
Proof.
  intros H. unfold thread_sends. induction sent as [|[j m] sent IH]; [done|].
  rewrite fmap_cons, payload_cons. cbn [snd]. specialize (IH (λ j' m' Hm', H j' m' (list_elem_of_further _ _ _ Hm'))).
  pose proof (H j m (list_elem_of_here _ _)) as Hj. destruct (decide (j = i)) as [->|Hne].
  - rewrite filter_cons_True by done. rewrite fmap_cons, payload_cons. cbn [snd]. by rewrite IH.
  - rewrite filter_cons_False by done. rewrite IH. destruct (Z.eqb_spec (m_type m) t) as [Ht|Ht]; [naive_solver|done].
Qed.

Lemma interleaved_payloads t0 t1 sent l0 l1 :
  t0 ≠ t1 → interleaved t0 t1 sent l0 l1 →
  payload t0 sent.*2 = concat (m_data <$> l0) ∧ payload t1 sent.*2 = concat (m_data <$> l1).
Proof.
  intros Hne Hs. rewrite (payload_threads 0 t0), (payload_threads 1 t1), (il_first _ _ _ _ _ Hs), (il_second _ _ _ _ _ Hs).
  - rewrite (payload_all t0), (payload_all t1); [done|by eapply il_type1|by eapply il_type0].
  - intros j m Hm. destruct (interleaved_elem _ _ _ _ _ _ _ Hs Hm) as [(-> & _ & Ht) | (-> & _ & Ht)]; rewrite Ht; naive_solver.
  - intros j m Hm. destruct (interleaved_elem _ _ _ _ _ _ _ Hs Hm) as [(-> & _ & Ht) | (-> & _ & Ht)]; rewrite Ht; naive_solver.
Qed.

(** Two outputs through the lock interleave by whole messages. *)
Lemma wire_run_interleaved t0 t1 l0 l1 w :
  wire_run true (wire_init [l0; l1]) w → wire_done w → wr_broken w = false →
  Forall (λ m, m_type m = t0) l0 → Forall (λ m, m_type m = t1) l1 →
  interleaved t0 t1 (wr_started w) l0 l1 ∧ wr_stream w = frames (wr_started w).*2.
Proof.
  intros Hinv%wire_inv_run Hd Hub H0 H1. split; [|by eapply wire_inv_done]. split; [apply (wi_ids _ _ Hinv)| | |done|done].
  - by apply (wire_inv_sends _ _ 0%nat l0 Hinv).
  - by apply (wire_inv_sends _ _ 1%nat l1 Hinv).
Qed.

(** ** Senders without it

    The agent sends a command's standard output and standard error from two goroutines that
    write to one descriptor with no lock. *)

(** With the lock or without, each thread begins its messages in its order. *)
Record wire_accounts (todos : list (list message)) (w : wire) : Prop := {
  wa_length : length (wr_threads w) = length todos;
  wa_todo : ∀ i t, wr_threads w !! i = Some t →
    todos !! i = Some (thread_sends i (wr_started w) ++ th_todo t);
  wa_ids : Forall (λ p, (p.1 < length todos)%nat) (wr_started w) }.

Lemma wire_accounts_step excl todos w w' : wire_accounts todos w → wire_step excl w w' → wire_accounts todos w'.
Proof.
  intros [Hlen Htodo Hids] Hs.
  destruct Hs as [i m todo w Hi _|i todo d ds w Hi Hb|i todo d ds p w Hi Hp Hb|i todo w Hi];
    pose proof (lookup_lt_Some _ _ _ Hi) as Hlt; (split; cbn; [by rewrite length_insert| |try done]).
  3-5: by eapply wire_todo_update.
  - intros j t Hj. rewrite thread_sends_snoc. destruct (decide (i = j)) as [<-|Hne].
    + rewrite list_lookup_insert_eq in Hj by done. injection Hj as <-. cbn. rewrite <- app_assoc. by apply Htodo in Hi.
    + rewrite list_lookup_insert_ne in Hj by done. rewrite app_nil_r. by apply Htodo.
  - apply Forall_app. split; [done|]. constructor; [by rewrite <- Hlen|constructor].
Qed.

Lemma wire_accounts_run excl todos w : wire_run excl (wire_init todos) w → wire_accounts todos w.
Proof.
  intros Hr. remember (wire_init todos) as w0 eqn:E.
  assert (H0 : wire_accounts todos w0) by (destruct (wire_inv_init todos); by subst; split).
  clear E. induction Hr as [|w0 w1 w2 Hs _ IH]; [done|]. apply IH. by eapply wire_accounts_step.
Qed.

(** Threads that are done have begun all their messages. *)
Lemma wire_accounts_sends todos w i todo :
  wire_accounts todos w → wire_done w → todos !! i = Some todo → thread_sends i (wr_started w) = todo.
Proof.
  intros Hacc Hd Hi. destruct (lookup_lt_is_Some_2 (wr_threads w) i) as [t Ht].
  { rewrite (wa_length _ _ Hacc). by eapply lookup_lt_Some. }
  pose proof (wa_todo _ _ Hacc i t Ht) as Htodo. rewrite Hi in Htodo. injection Htodo as ->.
  unfold wire_done in Hd. rewrite Forall_lookup in Hd. rewrite (Hd _ _ Ht). by rewrite app_nil_r.
Qed.

(** The frames arrive whole: some order of the messages begun, each thread's in its own order,
    is what the connection carries. *)
Definition arrives_whole (w : wire) : Prop := ∃ sent,
  Forall (λ p, (p.1 < length (wr_threads w))%nat) sent
  ∧ (∀ i, thread_sends i sent = thread_sends i (wr_started w)) ∧ wr_stream w = frames sent.*2.

(** Two outputs whose frames arrive whole interleave by whole messages, with the lock or without. *)
Lemma whole_interleaved excl t0 t1 l0 l1 w :
  wire_run excl (wire_init [l0; l1]) w → wire_done w → arrives_whole w →
  Forall (λ m, m_type m = t0) l0 → Forall (λ m, m_type m = t1) l1 →
  ∃ sent, interleaved t0 t1 sent l0 l1 ∧ wr_stream w = frames sent.*2.
Proof.
  intros Hacc%wire_accounts_run Hd (sent & Hids & Hsame & Hst) H0 H1. exists sent. split; [|done].
  rewrite (wa_length _ _ Hacc) in Hids. split; [done| | |done|done]; rewrite Hsame.
  - by apply (wire_accounts_sends _ _ 0%nat l0 Hacc).
  - by apply (wire_accounts_sends _ _ 1%nat l1 Hacc).
Qed.

(** Two messages whose write calls alternate: both headers, then both payloads. *)
Definition torn (m1 m2 : message) : wire := {|
  wr_stream := msg_header m1 ++ msg_header m2 ++ m_data m1 ++ m_data m2; wr_broken := false; wr_lock := None;
  wr_threads := [{| th_todo := []; th_writes := None |}; {| th_todo := []; th_writes := None |}];
  wr_started := [(0%nat, m1); (1%nat, m2)] |}.

Lemma torn_run m1 m2 :
  m_data m1 ≠ [] → m_data m2 ≠ [] → wire_run false (wire_init [[m1]; [m2]]) (torn m1 m2).
Proof.
  intros H1 H2.
  assert (Hw : ∀ m, m_data m ≠ [] → msg_writes m = [msg_header m; m_data m]).
  { intros m Hm. unfold msg_writes. by destruct (m_data m). }
  unfold wire_run. eapply rtc_l; [by eapply (StepBegin _ 0%nat)|]. cbn.
  eapply rtc_l; [by eapply (StepBegin _ 1%nat)|]. cbn -[msg_writes]. rewrite !Hw by done.
  eapply rtc_l; [by eapply (StepWrite _ 0%nat)|]. cbn -[msg_header].
  eapply rtc_l; [by eapply (StepWrite _ 1%nat)|]. cbn -[msg_header].
  eapply rtc_l; [by eapply (StepWrite _ 0%nat)|]. cbn -[msg_header].
  eapply rtc_l; [by eapply (StepWrite _ 1%nat)|]. cbn -[msg_header].
  eapply rtc_l; [by eapply (StepEnd _ 0%nat)|]. cbn -[msg_header].
  eapply rtc_l; [by eapply (StepEnd _ 1%nat)|]. cbn -[msg_header].
  unfold torn. rewrite <- !app_assoc. apply rtc_refl.
Qed.

(** A command that writes five bytes to each of its outputs while they are sent can make the
    host read a message nobody sent: here an exit message, whatever the bytes of standard
    error are. The first output's payload is taken for the header of a message whose payload
    is the second output's. *)
Theorem unlocked_frames_forge (e : bytes) :
  blen e = 5 →
  let out := {| m_type := MsgTypeStdout; m_data := msg_header {| m_type := MsgTypeExit; m_data := e |} |} in
  let err := {| m_type := MsgTypeStderr; m_data := e |} in
  ∃ w, wire_run false (wire_init [[out]; [err]]) w ∧ wire_done w ∧ wr_broken w = false
    ∧ ∀ c, concat c = wr_stream w →
        received c = [{| m_type := MsgTypeStdout; m_data := msg_header err |}; {| m_type := MsgTypeExit; m_data := e |}].
Proof.
  intros He out err. exists (torn out err). split_and!.
  - apply torn_run; [done|]. cbn. intros ->. by cbn in He.
  - by repeat constructor.
  - done.
  - intros c Hc. apply (received_frames c _ []); [| |apply cut_frame_nil].
    + apply Forall_cons. split; [by split; cbn|]. apply Forall_cons. split; [split; [done|cbn [m_data]; by rewrite He]|done].
    + rewrite Hc. unfold frame_of. cbn [fmap list_fmap concat m_data wr_stream torn].
      assert (msg_header out = msg_header {| m_type := MsgTypeStdout; m_data := msg_header err |}) as -> by done.
      subst out err. cbn [m_data]. by rewrite !app_nil_r, <- !app_assoc.
Qed.

(** Two senders, a failing write: the receiver has the first message and part of the second. *)
Definition demo_out : message := {| m_type := 4; m_data := ["h"%char; "i"%char] |}.
Definition demo_err : message := {| m_type := 5; m_data := ["!"%char] |}.

Lemma demo_run :
  wire_run true (wire_init [[demo_out]; [demo_err]])
    {| wr_stream := frame_of demo_out ++ take 3 (msg_header demo_err); wr_broken := true; wr_lock := Some 1%nat;
       wr_threads := [{| th_todo := []; th_writes := None |}; {| th_todo := []; th_writes := Some [] |}];
       wr_started := [(0%nat, demo_out); (1%nat, demo_err)] |}.
Proof.
  unfold wire_run. eapply rtc_l; [by eapply (StepBegin _ 0%nat)|]. cbn -[msg_writes msg_header].
  change (msg_writes demo_out) with [msg_header demo_out; m_data demo_out].
  eapply rtc_l; [by eapply (StepWrite _ 0%nat)|]. cbn -[msg_header].
  eapply rtc_l; [by eapply (StepWrite _ 0%nat)|]. cbn -[msg_header].
  eapply rtc_l; [by eapply (StepEnd _ 0%nat)|]. cbn -[msg_header].
  eapply rtc_l; [by eapply (StepBegin _ 1%nat)|]. cbn -[msg_writes msg_header].
  change (msg_writes demo_err) with [msg_header demo_err; m_data demo_err].
  eapply rtc_l; [eapply (StepFail _ 1%nat _ _ _ (take 3 (msg_header demo_err))); [done|apply prefix_take|done]|].
  cbn -[msg_header]. apply rtc_refl.
Qed.

Lemma locked_frames_whole_witness : ∃ w,
  wire_run true (wire_init [[demo_out]; [demo_err]]) w
  ∧ received [wr_stream w] `prefix_of` [demo_out; demo_err].
Proof.
  eexists. split; [exact demo_run|].
  refine (proj1 (locked_frames_whole [[demo_out]; [demo_err]] _ [_] _ demo_run _)).
  - repeat (apply Forall_cons_2; [apply Forall_cons_2; [by split|constructor]|]). constructor.
  - by rewrite concat_cons, concat_nil, app_nil_r.
Defined.

Lemma unlocked_frames_forge_witness : ∃ w,
  wire_done w ∧ received [wr_stream w]
  = [{| m_type := MsgTypeStdout; m_data := msg_header {| m_type := MsgTypeStderr; m_data := replicate 5 zero_byte |} |};
     {| m_type := MsgTypeExit; m_data := replicate 5 zero_byte |}].
Proof.
  destruct (unlocked_frames_forge (replicate 5 zero_byte) eq_refl) as (w & _ & Hd & _ & Hr).
  exists w. split; [exact Hd|]. apply Hr. rewrite concat_cons, concat_nil. apply app_nil_r.
Defined.
