(* ===== verification/Exec.v ===== *)
(** * The exec service, host side: pkg/vsock (protocol types, wire.go), execVsock and
    ExecInteractive of pkg/vm/linux/backend.go

    The requests and responses with their JSON, and what the host makes of the messages a
    guest agent sends back. Output writers are lists of events in order. *)

From S2P Require Import Prelude GoStrings GoStd GoJson Wire.

(** ** Protocol types *)

Record ExecRequest := {
  er_Command : string; er_Args : list string; er_WorkingDir : string; er_Env : gmap string string;
  er_Stdin : bytes; er_User : string }.

Record ExecTTYRequest := {
  et_Command : string; et_Args : list string; et_WorkingDir : string; et_Env : gmap string string;
  et_Rows : Z; et_Cols : Z; et_User : string }.

Record PortForwardRequest := { pf_Host : string; pf_Port : Z }.

Record ExecResponse := { ex_ExitCode : Z; ex_Stdout : bytes; ex_Stderr : bytes; ex_Error : string }.

Record WriteFileRequest := { wf_Path : string; wf_Content : bytes; wf_Mode : Z }.
Record ReadFileRequest := { rf_Path : string }.
Record ListFilesRequest := { lf_Path : string }.
Record FileInfo := { fi_Name : string; fi_Size : Z; fi_Mode : Z; fi_IsDir : bool }.
Record FileResponse := { fr_Content : bytes; fr_Files : list FileInfo; fr_Error : string }.

Definition JInt (n : Z) : json := JNum (FormatInt n).

Definition enc_env (omit : bool) (m : gmap string string) : list (string * json) :=
  omitempty (omit && bool_decide (m = ∅)) "env" (enc_map JStr m).

#[export] Instance ExecRequest_codec : Codec ExecRequest := {|
  to_json r := JObj (member "command" (JStr (er_Command r))
    ++ omitempty (is_empty (er_Args r)) "args" (enc_strings (er_Args r))
    ++ omitempty (bool_decide (er_WorkingDir r = "")) "working_dir" (JStr (er_WorkingDir r))
    ++ enc_env true (er_Env r)
    ++ omitempty (is_empty (er_Stdin r)) "stdin" (enc_bytes (er_Stdin r))
    ++ omitempty (bool_decide (er_User r = "")) "user" (JStr (er_User r)));
  of_json := of_struct (λ l,
    command ← field "command" dec_string "" l; args ← field "args" dec_strings [] l;
    wd ← field "working_dir" dec_string "" l; env ← field "env" (dec_map (dec_string "")) ∅ l;
    stdin ← field "stdin" dec_bytes [] l; user ← field "user" dec_string "" l;
    Some {| er_Command := command; er_Args := args; er_WorkingDir := wd; er_Env := env; er_Stdin := stdin; er_User := user |}) |}.

#[export] Instance ExecTTYRequest_codec : Codec ExecTTYRequest := {|
  to_json r := JObj (member "command" (JStr (et_Command r))
    ++ omitempty (is_empty (et_Args r)) "args" (enc_strings (et_Args r))
    ++ omitempty (bool_decide (et_WorkingDir r = "")) "working_dir" (JStr (et_WorkingDir r))
    ++ enc_env true (et_Env r)
    ++ member "rows" (JInt (et_Rows r)) ++ member "cols" (JInt (et_Cols r))
    ++ omitempty (bool_decide (et_User r = "")) "user" (JStr (et_User r)));
  of_json := of_struct (λ l,
    command ← field "command" dec_string "" l; args ← field "args" dec_strings [] l;
    wd ← field "working_dir" dec_string "" l; env ← field "env" (dec_map (dec_string "")) ∅ l;
    rows ← field "rows" (dec_uint 16) 0 l; cols ← field "cols" (dec_uint 16) 0 l; user ← field "user" dec_string "" l;
    Some {| et_Command := command; et_Args := args; et_WorkingDir := wd; et_Env := env; et_Rows := rows; et_Cols := cols;
            et_User := user |}) |}.

#[export] Instance PortForwardRequest_codec : Codec PortForwardRequest := {|
  to_json r := JObj (omitempty (bool_decide (pf_Host r = "")) "host" (JStr (pf_Host r)) ++ member "port" (JInt (pf_Port r)));
  of_json := of_struct (λ l,
    host ← field "host" dec_string "" l; port ← field "port" (dec_uint 16) 0 l;
    Some {| pf_Host := host; pf_Port := port |}) |}.

(** The agent's type has no [omitempty]; the agent is the one that encodes it. *)
#[export] Instance ExecResponse_codec : Codec ExecResponse := {|
  to_json r := JObj (member "exit_code" (JInt (ex_ExitCode r)) ++ member "stdout" (enc_bytes (ex_Stdout r))
    ++ member "stderr" (enc_bytes (ex_Stderr r)) ++ member "error" (JStr (ex_Error r)));
  of_json := of_struct (λ l,
    code ← field "exit_code" dec_int 0 l; out ← field "stdout" dec_bytes [] l;
    err ← field "stderr" dec_bytes [] l; e ← field "error" dec_string "" l;
    Some {| ex_ExitCode := code; ex_Stdout := out; ex_Stderr := err; ex_Error := e |}) |}.

#[export] Instance WriteFileRequest_codec : Codec WriteFileRequest := {|
  to_json r := JObj (member "path" (JStr (wf_Path r)) ++ member "content" (enc_bytes (wf_Content r))
    ++ member "mode" (JInt (wf_Mode r)));
  of_json := of_struct (λ l,
    path ← field "path" dec_string "" l; content ← field "content" dec_bytes [] l; mode ← field "mode" (dec_uint 32) 0 l;
    Some {| wf_Path := path; wf_Content := content; wf_Mode := mode |}) |}.

#[export] Instance ReadFileRequest_codec : Codec ReadFileRequest := {|
  to_json r := JObj (member "path" (JStr (rf_Path r)));
  of_json := of_struct (λ l, path ← field "path" dec_string "" l; Some {| rf_Path := path |}) |}.

#[export] Instance ListFilesRequest_codec : Codec ListFilesRequest := {|
  to_json r := JObj (member "path" (JStr (lf_Path r)));
  of_json := of_struct (λ l, path ← field "path" dec_string "" l; Some {| lf_Path := path |}) |}.

#[export] Instance FileInfo_codec : Codec FileInfo := {|
  to_json f := JObj (member "name" (JStr (fi_Name f)) ++ member "size" (JInt (fi_Size f))
    ++ member "mode" (JInt (fi_Mode f)) ++ member "is_dir" (JBool (fi_IsDir f)));
  of_json := of_struct (λ l,
    name ← field "name" dec_string "" l; size ← field "size" dec_int 0 l; mode ← field "mode" (dec_uint 32) 0 l;
    isdir ← field "is_dir" dec_bool false l;
    Some {| fi_Name := name; fi_Size := size; fi_Mode := mode; fi_IsDir := isdir |}) |}.

#[export] Instance FileResponse_codec : Codec FileResponse := {|
  to_json r := JObj (omitempty (is_empty (fr_Content r)) "content" (enc_bytes (fr_Content r))
    ++ omitempty (is_empty (fr_Files r)) "files" (JArr (to_json <$> fr_Files r))
    ++ omitempty (bool_decide (fr_Error r = "")) "error" (JStr (fr_Error r)));
  of_json := of_struct (λ l,
    content ← field "content" dec_bytes [] l; files ← field "files" (dec_list of_json) [] l;
    e ← field "error" dec_string "" l;
    Some {| fr_Content := content; fr_Files := files; fr_Error := e |}) |}.

(** ** Options, results, errors *)

(** [api.ExecOptions]: whether there is a standard input, and writers for the outputs. *)
Record ExecOptions := {
  eo_WorkingDir : string; eo_Env : gmap string string; eo_User : string;
  eo_Stdin : bool; eo_Stdout : bool; eo_Stderr : bool }.

Record ExecResult := { res_ExitCode : Z; res_Stdout : bytes; res_Stderr : bytes }.

Inductive exec_error :=
| ErrContext                        (* the context was cancelled *)
| ErrReadResponseHeader | ErrReadResponseData
| ErrDecodeResponse
| ErrRemote (message : string)      (* ErrExecRemote, ErrFileRemote, ErrPortForwardRejected *)
| ErrUnexpectedType (msgType : Z).

Definition read_exec_error (e : read_error) : exec_error :=
  match e with ErrReadHeader => ErrReadResponseHeader | ErrReadData => ErrReadResponseData end.

(** What is written to [opts.Stdout] and [opts.Stderr], in order. *)
Inductive out_event := OutWrite (data : bytes) | ErrWrite (data : bytes).

Definition request_of (command : string) (opts : option ExecOptions) : ExecRequest :=
  match opts with
  | Some o => {| er_Command := command; er_Args := []; er_WorkingDir := eo_WorkingDir o; er_Env := eo_Env o;
                 er_Stdin := []; er_User := eo_User o |}
  | None => {| er_Command := command; er_Args := []; er_WorkingDir := ""; er_Env := ∅; er_Stdin := []; er_User := "" |}
  end.

Definition has_stdout (opts : option ExecOptions) : bool := match opts with Some o => eo_Stdout o | None => false end.
Definition has_stderr (opts : option ExecOptions) : bool := match opts with Some o => eo_Stderr o | None => false end.

(** [int(binary.BigEndian.Uint32(data))], 0 when there are fewer than four bytes. *)
Definition exit_code_of (data : bytes) : Z := if 4 <=? blen data then u32 (take 4 data) else 0.

(** ** ExecPipe *)

Definition ExecPipe_request (command : string) (opts : option ExecOptions) : message :=
  {| m_type := MsgTypeExecPipe; m_data := Marshal (request_of command opts) |}.

(** The goroutine that forwards standard input: the reads of [opts.Stdin], at most 4096 bytes
    each, and whether a read also returns an error (its end). [closed i] says whether the
    response reader has finished when it looks for the [i]-th time. *)
Section stdin.
Context {W : Type} (conn_Write : bytes → M W bool) (closed : nat → bool).

Fixpoint ExecPipe_stdin (i : nat) (reads : list (bytes * bool)) : M W unit :=
  match reads with
  | [] => mret tt
  | (data, err) :: reads' =>
      let finish (i : nat) : M W unit :=
        if closed i then mret tt
        else _ ← SendMessage conn_Write {| m_type := MsgTypeStdin; m_data := [] |}; mret tt in
      if bool_decide (data = []) then (if err : bool then finish i else ExecPipe_stdin i reads')
      else if closed i then mret tt
      else
        ok ← SendMessage conn_Write {| m_type := MsgTypeStdin; m_data := data |};
        if negb ok then mret tt
        else if err then finish (S i) else ExecPipe_stdin (S i) reads'
  end.
End stdin.

(** The goroutine that reads the responses: the exit code of the exit message. *)
Definition ExecPipe_body (opts : option ExecOptions) (ev : list out_event) (m : message)
    : list out_event + (list out_event * Z) :=
  if m_type m =? MsgTypeStdout then inl (if has_stdout opts then ev ++ [OutWrite (m_data m)] else ev)
  else if m_type m =? MsgTypeStderr then inl (if has_stderr opts then ev ++ [ErrWrite (m_data m)] else ev)
  else if m_type m =? MsgTypeExit then inr (ev, exit_code_of (m_data m))
  else inl ev.

Definition ExecPipe_reader (opts : option ExecOptions) (c : conn) : list out_event * result read_error Z * conn :=
  loop_messages ReadMessage (ExecPipe_body opts) [] c.

(** The final select: what the reader delivers, or the cancellation. A cancelled context closes
    the connection, and the reader then reports it too. *)
Inductive ExecPipe_returns (cancelled : bool) (reader : result read_error Z) : result exec_error Z → Prop :=
| ReturnsDone code : reader = Ok code → ExecPipe_returns cancelled reader (Ok code)
| ReturnsErr e : reader = Err e →
    ExecPipe_returns cancelled reader (Err (if cancelled then ErrContext else read_exec_error e))
| ReturnsCancelled : cancelled = true → ExecPipe_returns cancelled reader (Err ErrContext).

(** ** execVsock: commands without standard input *)

Definition streaming (opts : option ExecOptions) : bool := has_stdout opts || has_stderr opts.

Definition execVsock_request (command : string) (opts : option ExecOptions) : message :=
  {| m_type := if streaming opts then MsgTypeExecStream else MsgTypeExec; m_data := Marshal (request_of command opts) |}.

Record exec_output := { xo_events : list out_event; xo_stdout : bytes; xo_stderr : bytes }.

(** The message with the result: what was streamed goes before what it carries. *)
Definition execVsock_result (o : exec_output) (resp : ExecResponse) : ExecResult * option exec_error :=
  let stdout := if is_empty (xo_stdout o) && negb (is_empty (ex_Stdout resp)) then ex_Stdout resp else xo_stdout o in
  let stderr := if is_empty (xo_stderr o) && negb (is_empty (ex_Stderr resp)) then ex_Stderr resp else xo_stderr o in
  ({| res_ExitCode := ex_ExitCode resp; res_Stdout := stdout; res_Stderr := stderr |},
   if decide (ex_Error resp = "") then None else Some (ErrRemote (ex_Error resp))).

Definition execVsock_body (opts : option ExecOptions) (o : exec_output) (m : message)
    : exec_output + (exec_output * (option ExecResult * option exec_error)) :=
  if m_type m =? MsgTypeStdout then
    inl {| xo_events := if streaming opts && has_stdout opts then xo_events o ++ [OutWrite (m_data m)] else xo_events o;
           xo_stdout := xo_stdout o ++ m_data m; xo_stderr := xo_stderr o |}
  else if m_type m =? MsgTypeStderr then
    inl {| xo_events := if streaming opts && has_stderr opts then xo_events o ++ [ErrWrite (m_data m)] else xo_events o;
           xo_stdout := xo_stdout o; xo_stderr := xo_stderr o ++ m_data m |}
  else if m_type m =? MsgTypeExecResult then
    match Unmarshal (m_data m) with
    | None => inr (o, (None, Some ErrDecodeResponse))
    | Some resp => let '(r, e) := execVsock_result o resp in inr (o, (Some r, e))
    end
  else inl o.

(** The loop of [execVsock], and what it returns. *)
Definition execVsock (opts : option ExecOptions) (cancelled : bool) (c : conn)
    : list out_event * (option ExecResult * option exec_error) :=
  let '(o, r, _) := loop_messages ReadMessage (execVsock_body opts) {| xo_events := []; xo_stdout := []; xo_stderr := [] |} c in
  (xo_events o, match r with
                | Ok r => r
                | Err e => (None, Some (if cancelled then ErrContext else read_exec_error e))
                end).

(** ** ExecInteractive *)

Definition ExecInteractive_request (command : string) (opts : option ExecOptions) (rows cols : Z) : message :=
  let r := request_of command opts in
  {| m_type := MsgTypeExecTTY;
     m_data := Marshal {| et_Command := command; et_Args := []; et_WorkingDir := er_WorkingDir r; et_Env := er_Env r;
                          et_Rows := rows; et_Cols := cols; et_User := er_User r |} |}.

Definition ExecInteractive_body (out : bytes) (m : message) : bytes + (bytes * Z) :=
  if m_type m =? MsgTypeStdout then inl (out ++ m_data m)
  else if m_type m =? MsgTypeExit then inr (out, exit_code_of (m_data m))
  else inl out.

Definition ExecInteractive_reader (c : conn) : bytes * result read_error Z * conn :=
  loop_messages ReadMessage ExecInteractive_body [] c.

(** [binary.BigEndian.PutUint16] of rows and columns. *)
Definition be16 (v : Z) : bytes := [chr (Z.land (Z.shiftr v 8) 0xFF); chr (Z.land v 0xFF)].

Definition resize_message (rows cols : Z) : message := {| m_type := MsgTypeResize; m_data := be16 rows ++ be16 cols |}.

(** ** Files and ports of the guest *)

(** [fileRPC] on what comes back for its request. *)
Definition fileRPC_response (c : conn) : result exec_error FileResponse :=
  match ReadMessage c with
  | Err e => Err (read_exec_error e)
  | Ok (m, _) =>
      match Unmarshal (m_data m) with
      | None => Err ErrReadResponseData
      | Some resp => if decide (fr_Error resp = "") then Ok resp else Err (ErrRemote (fr_Error resp))
      end
  end.

Definition WriteFileVsock_request (path : string) (content : bytes) (mode : Z) : message :=
  {| m_type := MsgTypeWriteFile; m_data := Marshal {| wf_Path := path; wf_Content := content; wf_Mode := mode |} |}.
Definition ReadFileVsock_request (path : string) : message :=
  {| m_type := MsgTypeReadFile; m_data := Marshal {| rf_Path := path |} |}.
Definition ListFilesVsock_request (path : string) : message :=
  {| m_type := MsgTypeListFiles; m_data := Marshal {| lf_Path := path |} |}.

Definition WriteFileVsock (c : conn) : result exec_error unit := _ ← fileRPC_response c; Ok tt.
Definition ReadFileVsock (c : conn) : result exec_error bytes := r ← fileRPC_response c; Ok (fr_Content r).
Definition ListFilesVsock (c : conn) : result exec_error (list FileInfo) := r ← fileRPC_response c; Ok (fr_Files r).

Definition OpenPortForward_request (host : string) (port : Z) : message :=
  {| m_type := MsgTypePortForward; m_data := Marshal {| pf_Host := host; pf_Port := port |} |}.

(** The answer, and the stream that follows it. *)
Definition OpenPortForward (c : conn) : result exec_error conn :=
  match ReadMessage c with
  | Err e => Err (read_exec_error e)
  | Ok (m, c') =>
      if m_type m =? MsgTypeReady then Ok c'
      else if m_type m =? MsgTypeStderr then Err (ErrRemote (String.string_of_list_ascii (m_data m)))
      else Err (ErrUnexpectedType (m_type m))
  end.
