(* ===== verification/GuestAgent.v ===== *)
(** * The guest agent: internal/guestruntime/agent/main.go

    What the agent does with a connection to its exec service: the request, the environment of
    the command, what it feeds to the command and sends back, cancellation, files and ports.
    The guest's operating system is a record; the output of a command is the chunks that reads
    of its pipes return. *)

From S2P Require Import Prelude GoStrings GoStd GoJson GoPath GoNet Wire Exec.

(** ** Dispatch *)

Inductive agent_handler :=
| HExecBatch | HExecStreamBatch | HExecPipe | HPortForward | HExecTTY | HWriteFile | HReadFile | HListFile.

Definition agent_handlers : list (Z * agent_handler) :=
  [(MsgTypeExec, HExecBatch); (MsgTypeExecStream, HExecStreamBatch); (MsgTypeExecPipe, HExecPipe);
   (MsgTypePortForward, HPortForward); (MsgTypeExecTTY, HExecTTY); (MsgTypeWriteFile, HWriteFile);
   (MsgTypeReadFile, HReadFile); (MsgTypeListFiles, HListFile)].

(** [handleExec] up to its switch: the handler, its data, and the rest of the connection;
    [None] closes the connection at once. *)
Definition handleExec (c : conn) : option (agent_handler * bytes * conn) :=
  match agent_readMessage c with
  | Err _ => None
  | Ok (m, c') =>
      match find (λ p, p.1 =? m_type m) agent_handlers with
      | Some (_, h) => Some (h, m_data m, c')
      | None => None
      end
  end.

(** ** The command *)

(** The variables of a request, in the order the map is ranged over, after those of the agent. *)
Definition env_entries (env : list (string * string)) : list string := (λ kv, kv.1 +:+ ("=" +:+ kv.2)) <$> env.

(** [cmd.Env]: [None] is the agent's own environment. *)
Definition command_env (environ : list string) (env : list (string * string)) (user : string) : option (list string) :=
  let cmdEnv := match env with [] => None | _ => Some (environ ++ env_entries env) end in
  if decide (user = "") then cmdEnv
  else Some (default environ cmdEnv ++ ["MATCHLOCK_USER=" +:+ user]).

(** ** Cancellation *)

Definition SIGTERM : Z := 15.
Definition SIGKILL : Z := 9.

(** What the process group is sent once the host has closed the connection, given whether the
    command has been waited for then and after the grace period. *)
Definition cancel_signals (done_at_close done_after_grace : bool) : list Z :=
  if done_at_close then []
  else SIGTERM :: if done_after_grace then [] else [SIGKILL].

(** ** Output of a command *)

(** How a command ended. [ProcessState.ExitCode] is -1 for a signal. *)
Inductive exit_status := Exited (code : Z) | Signalled | WaitFailed (message : string).

Definition ExitCode (s : exit_status) : Z :=
  match s with Exited code => code | _ => -1 end.

Definition exit_response (s : exit_status) : ExecResponse :=
  match s with
  | WaitFailed e => {| ex_ExitCode := 1; ex_Stdout := []; ex_Stderr := []; ex_Error := e |}
  | Exited code => {| ex_ExitCode := code; ex_Stdout := []; ex_Stderr := []; ex_Error := "" |}
  | Signalled => {| ex_ExitCode := -1; ex_Stdout := []; ex_Stderr := []; ex_Error := "" |}
  end.

Definition exec_response_message (r : ExecResponse) : message := {| m_type := MsgTypeExecResult; m_data := Marshal r |}.

(** [handleExecBatch] after the command: its whole output in the response. *)
Definition batch_response (stdout stderr : bytes) (s : exit_status) : message :=
  let r := exit_response s in
  exec_response_message {| ex_ExitCode := ex_ExitCode r; ex_Stdout := stdout; ex_Stderr := stderr; ex_Error := ex_Error r |}.

(** The goroutine that copies a pipe: a message per read that returned bytes. *)
Definition copy_output (msgType : Z) (chunks : list bytes) : list message :=
  (λ d, {| m_type := msgType; m_data := d |}) <$> filter (λ d, d ≠ []) chunks.

(** What the two copying goroutines send, each in its order. *)
Definition output_threads (stdout stderr : list bytes) : list (list message) :=
  [copy_output MsgTypeStdout stdout; copy_output MsgTypeStderr stderr].

(** [sendExitCode]. *)
Definition exit_message (code : Z) : message := {| m_type := MsgTypeExit; m_data := be32 (uint32 code) |}.

(** ** Input of a command *)

Inductive input_event :=
| StdinWrite (data : bytes)
| StdinClose
| Kill (signal : Z)
| Setsize (rows cols : Z).

Definition u16 (b : bytes) : Z := u32 b.

(** The goroutine of [handleExecPipe] that reads from the host. *)
Definition pipe_input_body (ev : list input_event) (m : message) : list input_event + (list input_event * unit) :=
  if m_type m =? MsgTypeStdin then
    if bool_decide (m_data m = []) then inr (ev ++ [StdinClose], tt) else inl (ev ++ [StdinWrite (m_data m)])
  else if m_type m =? MsgTypeSignal then
    inl (match m_data m with b :: _ => ev ++ [Kill (code b)] | [] => ev end)
  else inl ev.

(** What it does in the end: on an error of the connection it closes the pipe and terminates the
    command; after the end of standard input it has returned. *)
Definition pipe_input (done_at_close done_after_grace : bool) (c : conn) : list input_event :=
  match loop_messages agent_readMessage pipe_input_body [] c with
  | (ev, Ok _, _) => ev
  | (ev, Err _, _) => ev ++ StdinClose :: (Kill <$> cancel_signals done_at_close done_after_grace)
  end.

(** The goroutine of [handleExecTTY]. *)
Definition tty_input_body (ev : list input_event) (m : message) : list input_event + (list input_event * Empty_set) :=
  if m_type m =? MsgTypeStdin then inl (ev ++ [StdinWrite (m_data m)])
  else if m_type m =? MsgTypeResize then
    inl (if 4 <=? blen (m_data m)
         then ev ++ [Setsize (u16 (take 2 (m_data m))) (u16 (take 2 (drop 2 (m_data m))))] else ev)
  else if m_type m =? MsgTypeSignal then
    inl (match m_data m with b :: _ => ev ++ [Kill (code b)] | [] => ev end)
  else inl ev.

Definition tty_input (c : conn) : list input_event := (loop_messages agent_readMessage tty_input_body [] c).1.1.

(** ** Files *)

(** The guest's file system as the handlers use it. Errors are their texts. A file that was
    opened has a size and a mode, and reading it gives bytes or an error. *)
Record guest_os (W : Type) := {
  go_MkdirAll : string → Z → M W (option string);
  go_WriteFile : string → bytes → Z → M W (option string);
  go_Open : string → M W (result string Z);
  go_Stat : Z → M W (result string (bool * Z));   (* regular?, size *)
  go_Read : Z → Z → M W (result string bytes);    (* all of the file, up to a limit *)
  go_CloseFile : Z → M W unit;
  go_ReadDir : string → M W (result string (list (string * bool * option (Z * Z)))); (* name, is a directory, Info: size and mode *)
  go_Dial : string → M W (result string Z) }.
Arguments go_MkdirAll {W}. Arguments go_WriteFile {W}. Arguments go_Open {W}. Arguments go_Stat {W}.
Arguments go_Read {W}. Arguments go_CloseFile {W}. Arguments go_ReadDir {W}. Arguments go_Dial {W}.

Definition maxReadFileBytes : Z := 16 * 1024 * 1024.

Definition file_error (e : string) : FileResponse := {| fr_Content := []; fr_Files := []; fr_Error := e |}.
Definition file_ok : FileResponse := {| fr_Content := []; fr_Files := []; fr_Error := "" |}.

Section files.
Context {W : Type} (os : guest_os W) (unmarshal_error : bytes → string).

Definition handleWriteFile (data : bytes) : M W FileResponse :=
  match Unmarshal (T := WriteFileRequest) data with
  | None => mret (file_error (unmarshal_error data))
  | Some req =>
      let mode := if wf_Mode req =? 0 then 420 (* 0644 *) else wf_Mode req in
      e ← go_MkdirAll os (Dir (wf_Path req)) 493 (* 0755 *);
      match e with
      | Some e => mret (file_error e)
      | None =>
          e ← go_WriteFile os (wf_Path req) (wf_Content req) mode;
          mret (match e with Some e => file_error e | None => file_ok end)
      end
  end.

Definition too_large (path : string) : FileResponse :=
  file_error ("read_file exceeds " +:+ Itoa maxReadFileBytes +:+ " bytes: " +:+ path).

Definition handleReadFile (data : bytes) : M W FileResponse :=
  match Unmarshal (T := ReadFileRequest) data with
  | None => mret (file_error (unmarshal_error data))
  | Some req =>
      let path := rf_Path req in
      f ← go_Open os path;
      match f with
      | Err e => mret (file_error e)
      | Ok f =>
          info ← go_Stat os f;
          r ← match info with
              | Err e => mret (file_error e)
              | Ok (regular, size) =>
                  if negb regular then mret (file_error ("read_file only supports regular files: " +:+ path))
                  else if maxReadFileBytes <? size then mret (too_large path)
                  else
                    content ← go_Read os f (maxReadFileBytes + 1);
                    mret (match content with
                          | Err e => file_error e
                          | Ok content =>
                              if maxReadFileBytes <? blen content then too_large path
                              else {| fr_Content := content; fr_Files := []; fr_Error := "" |}
                          end)
              end;
          _ ← go_CloseFile os f;
          mret r
      end
  end.

(** Entries whose [Info] fails are left out. *)
Definition list_entry (e : string * bool * option (Z * Z)) : option FileInfo :=
  let '(name, isdir, info) := e in
  '(size, mode) ← info; Some {| fi_Name := name; fi_Size := size; fi_Mode := uint32 mode; fi_IsDir := isdir |}.

Definition handleListFile (data : bytes) : M W FileResponse :=
  match Unmarshal (T := ListFilesRequest) data with
  | None => mret (file_error (unmarshal_error data))
  | Some req =>
      entries ← go_ReadDir os (lf_Path req);
      mret (match entries with
            | Err e => file_error e
            | Ok entries => {| fr_Content := []; fr_Files := omap list_entry entries; fr_Error := "" |}
            end)
  end.

Definition file_result_message (r : FileResponse) : message := {| m_type := MsgTypeFileResult; m_data := Marshal r |}.

(** ** Ports: the answer, and the connection to bridge *)

Definition stderr_message (text : string) : message := {| m_type := MsgTypeStderr; m_data := String.list_ascii_of_string text |}.

Definition handlePortForward (data : bytes) : M W (message * option Z) :=
  match Unmarshal (T := PortForwardRequest) data with
  | None => mret (stderr_message ("invalid port-forward request: " +:+ unmarshal_error data), None)
  | Some req =>
      let host := if decide (pf_Host req = "") then "127.0.0.1" else pf_Host req in
      if pf_Port req =? 0 then mret (stderr_message "invalid remote port 0", None)
      else
        target ← go_Dial os (JoinHostPort host (Itoa (pf_Port req)));
        mret (match target with
              | Err e => (stderr_message ("connect " +:+ host +:+ ":" +:+ Itoa (pf_Port req) +:+ " failed: " +:+ e), None)
              | Ok fd => ({| m_type := MsgTypeReady; m_data := [] |}, Some fd)
              end)
  end.

End files.
