(* ===== verification/ExecSpec.v ===== *)
(** * Host and guest agent understand each other

    The message types of the exec service survive their encoding; what a command writes
    reaches the host's writers, and what the host reads reaches the command; files and ports
    of the guest answer as its file system does. Also what goes wrong: the agent does not lock
    its connection, forgets a host that closes it after the end of standard input, and sends
    exit codes as unsigned numbers. *)

From S2P Require Import Prelude GoStrings GoStd GoJson GoJsonSpec GoNet Wire WireSpec Exec GuestAgent.

(** ** The messages survive *)

Definition valid_strings (l : list string) : Prop := Forall (λ s, ValidString s = true) l.
Definition valid_env (m : gmap string string) : Prop :=
  ∀ k v, m !! k = Some v → ValidString k = true ∧ ValidString v = true.

Lemma small_env d m omit l :
  0 <= d → valid_env m → Forall (member_small (d + 1)) l → Forall (member_small (d + 1)) (enc_env omit m ++ l).
Proof.
  intros Hd Hm Hl. apply small_omitempty; [done| |done]. intros _. apply small_map; [done|].
  intros k v Hkv. destruct (Hm k v Hkv). split; [done|by apply small_str].
Qed.

(** Proves the bounds on an object member by member. *)
Ltac small_members :=
  repeat first
    [ apply small_env; [lia|assumption|]
    | apply small_omitempty; [reflexivity|intros _|] | apply small_omitempty_end; [reflexivity|intros _]
    | apply small_member; [reflexivity| |] | apply small_member_end; [reflexivity|] ];
  first [ apply small_str; [lia|assumption] | apply small_bytes; lia | apply small_int; [lia|done || (unfold is_int64; lia)]
        | apply small_bool; lia | apply Forall_nil_2 | idtac ].

(** What remains of a round trip once codec and record are open: the fields. *)
Ltac codec_fields := unfold of_struct, enc_env, member, JInt; cbn [app].

(** From a bound on the depth to the law. *)
Lemma small_law d j : small d j → d <= maxNestingDepth → json_ok j = true ∧ json_depth j <= maxNestingDepth.
Proof. intros [] ?. split; [done|lia]. Qed.

Definition ExecRequest_valid (r : ExecRequest) : Prop :=
  ValidString (er_Command r) = true ∧ valid_strings (er_Args r) ∧ ValidString (er_WorkingDir r) = true
  ∧ valid_env (er_Env r) ∧ ValidString (er_User r) = true.

#[export] Program Instance ExecRequest_laws : CodecLaws ExecRequest := {| codec_valid := ExecRequest_valid |}.
Next Obligation.
  intros r (Hc & Ha & Hw & He & Hu). apply (small_law (0 + 1 + 1)); [|done]. apply small_obj; [lia|]. small_members.
  by apply small_strings.
Qed.
Next Obligation.
  intros [command args wd env stdin user] _. unfold to_json, of_json, ExecRequest_codec.
  cbn [er_Command er_Args er_WorkingDir er_Env er_Stdin er_User]. codec_fields.
  read_field command. read_field args. read_field wd. read_field env. read_field stdin. read_field user. done.
Qed.

Definition ExecTTYRequest_valid (r : ExecTTYRequest) : Prop :=
  ValidString (et_Command r) = true ∧ valid_strings (et_Args r) ∧ ValidString (et_WorkingDir r) = true
  ∧ valid_env (et_Env r) ∧ 0 <= et_Rows r < 2 ^ 16 ∧ 0 <= et_Cols r < 2 ^ 16 ∧ ValidString (et_User r) = true.

#[export] Program Instance ExecTTYRequest_laws : CodecLaws ExecTTYRequest := {| codec_valid := ExecTTYRequest_valid |}.
Next Obligation.
  intros r (Hc & Ha & Hw & He & Hr & Hl & Hu). apply (small_law (0 + 1 + 1)); [|done]. apply small_obj; [lia|]. small_members.
  by apply small_strings.
Qed.
Next Obligation.
  intros [command args wd env rows cols user] (_ & _ & _ & _ & Hr & Hl & _). unfold to_json, of_json, ExecTTYRequest_codec.
  cbn [et_Command et_Args et_WorkingDir et_Env et_Rows et_Cols et_User] in *. codec_fields.
  read_field command. read_field args. read_field wd. read_field env. read_field rows. read_field cols. read_field user. done.
Qed.

Definition PortForwardRequest_valid (r : PortForwardRequest) : Prop :=
  ValidString (pf_Host r) = true ∧ 0 <= pf_Port r < 2 ^ 16.

#[export] Program Instance PortForwardRequest_laws : CodecLaws PortForwardRequest := {| codec_valid := PortForwardRequest_valid |}.
Next Obligation.
  intros r (Hh & Hp). apply (small_law (0 + 1)); [|done]. apply small_obj; [lia|]. small_members.
Qed.
Next Obligation.
  intros [host port] (_ & Hp). unfold to_json, of_json, PortForwardRequest_codec. cbn [pf_Host pf_Port] in *. codec_fields.
  read_field host. read_field port. done.
Qed.

Definition ExecResponse_valid (r : ExecResponse) : Prop := is_int64 (ex_ExitCode r) ∧ ValidString (ex_Error r) = true.

#[export] Program Instance ExecResponse_laws : CodecLaws ExecResponse := {| codec_valid := ExecResponse_valid |}.
Next Obligation.
  intros r (Hc & He). apply (small_law (0 + 1)); [|done]. apply small_obj; [lia|]. small_members.
Qed.
Next Obligation.
  intros [code out err e] (Hc & _). unfold to_json, of_json, ExecResponse_codec.
  cbn [ex_ExitCode ex_Stdout ex_Stderr ex_Error] in *. codec_fields.
  read_field code. read_field out. read_field err. read_field e. done.
Qed.

Definition WriteFileRequest_valid (r : WriteFileRequest) : Prop := ValidString (wf_Path r) = true ∧ 0 <= wf_Mode r < 2 ^ 32.

#[export] Program Instance WriteFileRequest_laws : CodecLaws WriteFileRequest := {| codec_valid := WriteFileRequest_valid |}.
Next Obligation.
  intros r (Hp & Hm). apply (small_law (0 + 1)); [|done]. apply small_obj; [lia|]. small_members.
Qed.
Next Obligation.
  intros [path content mode] (_ & Hm). unfold to_json, of_json, WriteFileRequest_codec.
  cbn [wf_Path wf_Content wf_Mode] in *. codec_fields. read_field path. read_field content. read_field mode. done.
Qed.

#[export] Program Instance ReadFileRequest_laws : CodecLaws ReadFileRequest :=
  {| codec_valid r := ValidString (rf_Path r) = true |}.
Next Obligation. intros r Hp. apply (small_law (0 + 1)); [|done]. apply small_obj; [lia|]. small_members. Qed.
Next Obligation.
  intros [path] _. unfold to_json, of_json, ReadFileRequest_codec. cbn [rf_Path]. codec_fields. read_field path. done.
Qed.

#[export] Program Instance ListFilesRequest_laws : CodecLaws ListFilesRequest :=
  {| codec_valid r := ValidString (lf_Path r) = true |}.
Next Obligation. intros r Hp. apply (small_law (0 + 1)); [|done]. apply small_obj; [lia|]. small_members. Qed.
Next Obligation.
  intros [path] _. unfold to_json, of_json, ListFilesRequest_codec. cbn [lf_Path]. codec_fields. read_field path. done.
Qed.

Definition FileInfo_valid (f : FileInfo) : Prop :=
  ValidString (fi_Name f) = true ∧ is_int64 (fi_Size f) ∧ 0 <= fi_Mode f < 2 ^ 32.

Lemma FileInfo_small f : FileInfo_valid f → small (0 + 1) (to_json f).
Proof. intros (Hn & Hs & Hm). apply small_obj; [lia|]. small_members. Qed.

Lemma FileInfo_roundtrip (f : FileInfo) : FileInfo_valid f → of_json (to_json f) = Some f.
Proof.
  destruct f as [name size mode isdir]. intros (_ & Hs & Hm). unfold to_json, of_json, FileInfo_codec.
  cbn [fi_Name fi_Size fi_Mode fi_IsDir] in *. codec_fields.
  read_field name. read_field size. read_field mode. read_field isdir. done.
Qed.

Definition FileResponse_valid (r : FileResponse) : Prop := Forall FileInfo_valid (fr_Files r) ∧ ValidString (fr_Error r) = true.

Lemma dec_files_enc a l : Forall FileInfo_valid l → dec_list of_json a (JArr (to_json <$> l)) = Some l.
Proof.
  intros Hl. unfold dec_list. induction Hl as [|f l Hf _ IH]; [done|]. cbn [fmap list_fmap mapM].
  rewrite FileInfo_roundtrip by done. cbn [mbind option_bind]. by rewrite IH.
Qed.

#[export] Program Instance FileResponse_laws : CodecLaws FileResponse := {| codec_valid := FileResponse_valid |}.
Next Obligation.
  intros r (Hf & He). apply (small_law (0 + 1 + 1 + 1)); [|done]. apply small_obj; [lia|]. small_members.
  apply small_arr; [lia|]. apply Forall_fmap. eapply Forall_impl; [exact Hf|]. by apply FileInfo_small.
Qed.
Next Obligation.
  intros [content files e] (Hf & _). unfold to_json, of_json, FileResponse_codec. cbn [fr_Content fr_Files fr_Error] in *.
  codec_fields. read_field content.
  apply (option_bind_step _ _ files).
  { skip_members. rewrite (field_omitempty _ _ _ files); [by skip_members|done|apply is_empty_true|].
    intros _. by apply dec_files_enc. }
  cbv beta. read_field e. done.
Qed.

(** ** From the command to the host *)

Definition out_written (ev : list out_event) : bytes :=
  concat (omap (λ e, match e with OutWrite d => Some d | ErrWrite _ => None end) ev).
Definition err_written (ev : list out_event) : bytes :=
  concat (omap (λ e, match e with ErrWrite d => Some d | OutWrite _ => None end) ev).

(** The agent's two outputs: each goroutine sends what it copies, in two writes a message and
    with no lock between them. *)
Definition agent_output (out err : list bytes) (w : wire) : Prop :=
  wire_run false (wire_init [copy_output MsgTypeStdout out; copy_output MsgTypeStderr err]) w
  ∧ wire_done w ∧ wr_broken w = false.

(** The two outputs as messages that take turns. *)
Definition output_turns (sent : list (nat * message)) (out err : list bytes) : Prop :=
  interleaved MsgTypeStdout MsgTypeStderr sent (copy_output MsgTypeStdout out) (copy_output MsgTypeStderr err).

Lemma copy_output_type t chunks : Forall (λ m, m_type m = t) (copy_output t chunks).
Proof. unfold copy_output. apply Forall_fmap, Forall_forall. done. Qed.

(** What the host needs of them: that the frames arrive whole. *)
Lemma whole_turns out err w :
  agent_output out err w → arrives_whole w → ∃ sent, output_turns sent out err ∧ wr_stream w = frames sent.*2.
Proof. intros (Hr & Hd & _) Hw. by eapply whole_interleaved, copy_output_type; [..|apply copy_output_type]. Qed.

Lemma copy_output_data t chunks : concat (m_data <$> copy_output t chunks) = concat chunks.
Proof.
  unfold copy_output. induction chunks as [|d chunks IH]; [done|]. destruct (decide (d = [])) as [->|Hd].
  - by rewrite filter_cons_False by naive_solver.
  - rewrite filter_cons_True by done. rewrite !fmap_cons. cbn [concat m_data]. by rewrite IH.
Qed.

Lemma agent_payloads sent out err :
  output_turns sent out err → payload MsgTypeStdout sent.*2 = concat out ∧ payload MsgTypeStderr sent.*2 = concat err.
Proof. intros Hs. apply interleaved_payloads in Hs; [|done]. by rewrite !copy_output_data in Hs. Qed.

(** Chunks as the agent's copying buffer makes them. *)
Definition chunked (chunks : list bytes) : Prop := Forall (λ d, blen d <= 4096) chunks.

Lemma copy_output_ok t chunks : 0 <= t < 256 → chunked chunks → Forall msg_ok (copy_output t chunks).
Proof.
  intros Ht Hc. unfold copy_output. apply Forall_fmap, Forall_forall. intros d Hd. apply list_elem_of_filter in Hd as [_ Hd].
  unfold chunked in Hc. rewrite Forall_forall in Hc. specialize (Hc d Hd). split; cbn [m_type m_data]; lia.
Qed.

Lemma agent_output_ok sent out err : output_turns sent out err → chunked out → chunked err → Forall msg_ok sent.*2.
Proof. intros Hs Ho He. eapply interleaved_ok; [exact Hs|by apply copy_output_ok..]. Qed.

Lemma out_written_snoc ev d : out_written (ev ++ [OutWrite d]) = out_written ev ++ d ∧ err_written (ev ++ [OutWrite d]) = err_written ev.
Proof. unfold out_written, err_written. rewrite !omap_app, !concat_app. cbn. by rewrite !app_nil_r. Qed.
Lemma err_written_snoc ev d : err_written (ev ++ [ErrWrite d]) = err_written ev ++ d ∧ out_written (ev ++ [ErrWrite d]) = out_written ev.
Proof. unfold out_written, err_written. rewrite !omap_app, !concat_app. cbn. by rewrite !app_nil_r. Qed.

Definition output_message (m : message) : Prop := m_type m = MsgTypeStdout ∨ m_type m = MsgTypeStderr.

Lemma ExecPipe_fold opts ev ms :
  Forall output_message ms →
  ∃ ev', fold_messages (ExecPipe_body opts) ev ms = inl ev'
    ∧ out_written ev' = out_written ev ++ (if has_stdout opts then payload MsgTypeStdout ms else [])
    ∧ err_written ev' = err_written ev ++ (if has_stderr opts then payload MsgTypeStderr ms else []).
Proof.
  intros Hms. revert ev. induction Hms as [|m ms Hm _ IH]; intros ev.
  { exists ev. cbn. by destruct (has_stdout opts), (has_stderr opts); rewrite !app_nil_r. }
  cbn [fold_messages]. unfold ExecPipe_body at 1. rewrite !payload_cons. destruct Hm as [-> | ->].
  - cbn [MsgTypeStdout MsgTypeStderr Z.eqb Pos.eqb app].
    destruct (IH (if has_stdout opts then ev ++ [OutWrite (m_data m)] else ev)) as (ev' & -> & Ho & He). exists ev'.
    split; [done|]. destruct (out_written_snoc ev (m_data m)) as [H1 H2]. rewrite Ho, He.
    destruct (has_stdout opts); rewrite ?H1, ?H2; rewrite ?app_assoc; by split.
  - cbn [MsgTypeStdout MsgTypeStderr Z.eqb Pos.eqb app].
    destruct (IH (if has_stderr opts then ev ++ [ErrWrite (m_data m)] else ev)) as (ev' & -> & Ho & He). exists ev'.
    split; [done|]. destruct (err_written_snoc ev (m_data m)) as [H1 H2]. rewrite Ho, He.
    destruct (has_stderr opts); rewrite ?H1, ?H2; rewrite ?app_assoc; by split.
Qed.

Lemma exit_message_ok code : msg_ok (exit_message code).
Proof. split; [done|]. change (4 < 2 ^ 32). lia. Qed.

Lemma exit_code_of_message code : exit_code_of (m_data (exit_message code)) = uint32 code.
Proof.
  unfold exit_code_of. change (4 <=? blen (m_data (exit_message code))) with true. cbv iota.
  change (take 4 (m_data (exit_message code))) with (be32 (uint32 code)). apply u32_be32.
  apply Z.mod_pos_bound. lia.
Qed.

(** What a piped command writes reaches the host, if its messages arrive whole. However the
    agent's two output goroutines take turns, and however the bytes are cut into reads: the
    host's writers get exactly the command's standard output and standard error, and the
    result is the exit code as an unsigned 32-bit number. When the connection breaks off
    before the exit message, the host has an error, or the cancellation, and no exit code. *)
Theorem exec_pipe_delivers opts sent out err c tail :
  output_turns sent out err → chunked out → chunked err →
  (∀ code, concat c = frames (sent.*2 ++ [exit_message code]) ++ tail →
    ∃ ev c', ExecPipe_reader opts c = (ev, Ok (code mod 2 ^ 32), c')
      ∧ out_written ev = (if has_stdout opts then concat out else [])
      ∧ err_written ev = (if has_stderr opts then concat err else []))
  ∧ (concat c = frames sent.*2 ++ tail → cut_frame tail →
      ∃ ev e c', ExecPipe_reader opts c = (ev, Err e, c')
        ∧ ∀ cancelled r, ExecPipe_returns cancelled (Err e) r →
            r = Err (if cancelled then ErrContext else read_exec_error e)).
Proof.
  intros Hs Ho He. pose proof (agent_output_ok _ _ _ Hs Ho He) as Hok.
  destruct (ExecPipe_fold opts [] sent.*2 (interleaved_types _ _ _ _ _ Hs)) as (ev & Hf & Hout & Herr).
  destruct (agent_payloads _ _ _ Hs) as [Hpo Hpe]. rewrite Hpo in Hout. rewrite Hpe in Herr. split.
  - intros code Hc. destruct (loop_messages_stops (ExecPipe_body opts) false [] c (sent.*2 ++ [exit_message code]) tail ev (uint32 code))
      as [c' Hl]; [by left| |done| |].
    + apply Forall_app. split; [done|]. apply Forall_cons. split; [apply exit_message_ok|constructor].
    + rewrite fold_messages_app, Hf. cbn [fold_messages]. unfold ExecPipe_body. cbn [m_type exit_message].
      change (MsgTypeExit =? MsgTypeStdout) with false. change (MsgTypeExit =? MsgTypeStderr) with false.
      change (MsgTypeExit =? MsgTypeExit) with true. cbv iota. by rewrite exit_code_of_message.
    + by exists ev, c'.
  - intros Hc Ht. destruct (loop_messages_ends (ExecPipe_body opts) false [] c sent.*2 tail ev) as (e & c' & Hl); [by left|done..|].
    exists ev, e, c'. split; [done|]. intros cancelled r Hr. inversion Hr; subst; try done; by simplify_eq.
Qed.

(** A command killed by a signal: -1 in the batch modes, 4294967295 through a pipe. *)
Lemma signalled_exit_code : exit_code_of (m_data (exit_message (ExitCode Signalled))) = 4294967295.
Proof. done. Qed.

(** ** From the host to the command *)

(** A connection that takes what is written: the bytes that arrive. *)
Definition stream_write (d : bytes) : M bytes bool := λ s, Some (true, s ++ d).

Lemma SendMessage_stream m s : SendMessage stream_write m s = Some (true, s ++ frame_of m).
Proof.
  unfold SendMessage, frame_of. rewrite (M_bind_step _ _ _ true (s ++ msg_header m)) by done. cbn [negb].
  rewrite app_assoc. destruct (m_data m); [by rewrite app_nil_r|done].
Qed.

(** The messages the host sends for the reads of its standard input: the bytes of each, up to
    the read that ends it, and an empty one for the end. *)
Fixpoint stdin_messages (reads : list (bytes * bool)) : list message :=
  match reads with
  | [] => []
  | (data, err) :: reads' =>
      (if bool_decide (data = []) then [] else [{| m_type := MsgTypeStdin; m_data := data |}])
      ++ if err : bool then [{| m_type := MsgTypeStdin; m_data := [] |}] else stdin_messages reads'
  end.

Lemma ExecPipe_stdin_sends reads i s :
  ExecPipe_stdin stream_write (λ _, false) i reads s = Some (tt, s ++ frames (stdin_messages reads)).
Proof.
  revert i s. induction reads as [|[data err] reads IH]; intros i s; cbn [ExecPipe_stdin stdin_messages].
  { cbn. by rewrite app_nil_r. }
  destruct (bool_decide_reflect (data = [])) as [->|Hd].
  - destruct err; [|apply IH]. rewrite (M_bind_step _ _ _ _ _ (SendMessage_stream _ _)). cbn. by rewrite ?app_nil_r.
  - rewrite (M_bind_step _ _ _ _ _ (SendMessage_stream _ _)). cbn [negb].
    rewrite fmap_app, concat_app. cbn [fmap list_fmap concat]. rewrite app_nil_r. destruct err.
    + rewrite (M_bind_step _ _ _ _ _ (SendMessage_stream _ _)). cbn. by rewrite ?app_nil_r, <- app_assoc.
    + rewrite IH. by rewrite <- app_assoc.
Qed.

(** The bytes the command is given, whether its standard input has been closed, the signals it
    is sent. *)
Definition stdin_given (ev : list input_event) : bytes :=
  concat (omap (λ e, match e with StdinWrite d => Some d | _ => None end) ev).
Definition signals (ev : list input_event) : list Z :=
  omap (λ e, match e with Kill s => Some s | _ => None end) ev.

Definition stdin_chunks (reads : list (bytes * bool)) : list bytes := filter (λ d, d ≠ []) reads.*1.

(** The reads of a standard input: the last one, and only it, ends it. *)
Definition ended_reads (reads : list (bytes * bool)) : Prop := ∃ l data, reads = ((λ d, (d, false)) <$> l) ++ [(data, true)].
Definition open_reads (reads : list (bytes * bool)) : Prop := Forall (λ r, r.2 = false) reads.

Definition stdin_message (d : bytes) : message := {| m_type := MsgTypeStdin; m_data := d |}.

Lemma stdin_messages_open reads : open_reads reads → stdin_messages reads = stdin_message <$> stdin_chunks reads.
Proof.
  unfold stdin_chunks. induction 1 as [|[data err] reads Herr _ IH]; [done|]. cbn in Herr. subst err.
  cbn [stdin_messages fmap list_fmap fst]. rewrite IH. destruct (bool_decide_reflect (data = [])) as [Hd|Hd].
  - by rewrite filter_cons_False by naive_solver.
  - by rewrite filter_cons_True.
Qed.

Lemma stdin_messages_ended reads :
  ended_reads reads → stdin_messages reads = (stdin_message <$> stdin_chunks reads) ++ [stdin_message []].
Proof.
  intros (l & data & ->). induction l as [|d l IH].
  - unfold stdin_chunks. cbn [fmap list_fmap app stdin_messages fst]. destruct (bool_decide_reflect (data = [])) as [Hd|Hd].
    + by rewrite filter_cons_False by naive_solver.
    + by rewrite filter_cons_True.
  - rewrite fmap_cons. cbn [app stdin_messages]. rewrite IH. unfold stdin_chunks. rewrite fmap_cons. cbn [fst].
    destruct (bool_decide_reflect (d = [])) as [Hd|Hd].
    + by rewrite filter_cons_False by naive_solver.
    + by rewrite filter_cons_True.
Qed.

Lemma pipe_input_fold ev chunks :
  Forall (λ d, d ≠ []) chunks →
  fold_messages pipe_input_body ev (stdin_message <$> chunks) = inl (ev ++ (StdinWrite <$> chunks)).
Proof.
  intros Hc. revert ev. induction Hc as [|d chunks Hd _ IH]; intros ev; [by rewrite app_nil_r|].
  rewrite fmap_cons. cbn [fold_messages]. unfold pipe_input_body at 1. cbn [m_type m_data stdin_message].
  change (MsgTypeStdin =? MsgTypeStdin) with true. cbv iota. rewrite bool_decide_eq_false_2 by done.
  rewrite IH. by rewrite <- app_assoc.
Qed.

Lemma stdin_chunks_ok reads :
  Forall (λ r, blen r.1 <= 4096) reads → Forall (λ d, d ≠ []) (stdin_chunks reads) ∧ Forall msg_ok (stdin_message <$> stdin_chunks reads).
Proof.
  intros Hr. unfold stdin_chunks. split; [apply Forall_forall; by intros d [H _]%list_elem_of_filter|].
  apply Forall_fmap, Forall_forall. intros d [_ Hd]%list_elem_of_filter. apply list_elem_of_fmap in Hd as (r & -> & Hr').
  rewrite Forall_forall in Hr. specialize (Hr _ Hr'). split; cbn [m_type m_data stdin_message]; [done|lia].
Qed.

Lemma signals_writes l ev : signals ((StdinWrite <$> l) ++ ev) = signals ev.
Proof. unfold signals. rewrite omap_app. by induction l. Qed.

(** What the host reads reaches a piped command, and when the command is told of a host that
    goes away. While the standard input is open, a connection that breaks off gives the
    command exactly the bytes that were read, closes its standard input and terminates it
    (SIGTERM, and SIGKILL after the grace period unless it has ended). After the end of the
    standard input the command has been given all of it, its standard input is closed, and
    whatever the connection does then, closing included, sends no signal. *)
Theorem pipe_input_exact reads dc dg :
  Forall (λ r, blen r.1 <= 4096) reads →
  let sent := default [] (snd <$> ExecPipe_stdin stream_write (λ _, false) 0 reads []) in
  (open_reads reads → ∀ c tail, no_empty_reads c → concat c = sent ++ tail → cut_frame tail →
    pipe_input dc dg c = (StdinWrite <$> stdin_chunks reads) ++ StdinClose :: (Kill <$> cancel_signals dc dg))
  ∧ (ended_reads reads → ∀ c tail, no_empty_reads c → concat c = sent ++ tail →
      pipe_input dc dg c = (StdinWrite <$> stdin_chunks reads) ++ [StdinClose]
      ∧ signals (pipe_input dc dg c) = []).
Proof.
  intros Hr sent. subst sent. rewrite ExecPipe_stdin_sends. cbn [fmap option_fmap option_map snd default]. rewrite app_nil_l.
  destruct (stdin_chunks_ok reads Hr) as [Hne Hok]. unfold pipe_input. split.
  - intros Ho c tail Hnr Hc Ht. rewrite (stdin_messages_open _ Ho) in Hc.
    destruct (loop_messages_ends pipe_input_body true [] c _ tail _ (or_intror Hnr) Hok Hc Ht (pipe_input_fold [] _ Hne))
      as (e & c' & Hl).
    change agent_readMessage with (read_message (reader_of true)). by rewrite Hl.
  - intros He c tail Hnr Hc. rewrite (stdin_messages_ended _ He) in Hc.
    destruct (loop_messages_stops pipe_input_body true [] c ((stdin_message <$> stdin_chunks reads) ++ [stdin_message []]) tail
                ((StdinWrite <$> stdin_chunks reads) ++ [StdinClose]) tt) as [c' Hl]; [by right| |done| |].
    + apply Forall_app. split; [done|]. apply Forall_cons. split; [by split|constructor].
    + rewrite fold_messages_app, pipe_input_fold by done. done.
    + change agent_readMessage with (read_message (reader_of true)). rewrite Hl. split; [done|].
      by rewrite signals_writes.
Qed.

(** ** Batch and streaming modes *)

Definition exit_valid (s : exit_status) : Prop :=
  match s with Exited code => - 1 <= code < 256 | Signalled => True | WaitFailed e => ValidString e = true end.

Lemma exit_response_valid s : exit_valid s → ExecResponse_valid (exit_response s).
Proof. unfold ExecResponse_valid, is_int64. destruct s; cbn [exit_response ex_ExitCode ex_Error exit_valid]; intros; (split; [lia|done]). Qed.

Definition exec_outcome (stdout stderr : bytes) (s : exit_status) : option ExecResult * option exec_error :=
  let r := exit_response s in
  (Some {| res_ExitCode := ex_ExitCode r; res_Stdout := stdout; res_Stderr := stderr |},
   if decide (ex_Error r = "") then None else Some (ErrRemote (ex_Error r))).

Definition xo_start : exec_output := {| xo_events := []; xo_stdout := []; xo_stderr := [] |}.

Lemma execVsock_fold opts o ms :
  Forall output_message ms →
  ∃ o', fold_messages (execVsock_body opts) o ms = inl o'
    ∧ xo_stdout o' = xo_stdout o ++ payload MsgTypeStdout ms ∧ xo_stderr o' = xo_stderr o ++ payload MsgTypeStderr ms
    ∧ out_written (xo_events o') = out_written (xo_events o) ++ (if has_stdout opts then payload MsgTypeStdout ms else [])
    ∧ err_written (xo_events o') = err_written (xo_events o) ++ (if has_stderr opts then payload MsgTypeStderr ms else []).
Proof.
  intros Hms. revert o. induction Hms as [|m ms Hm _ IH]; intros o.
  { exists o. cbn. by destruct (has_stdout opts), (has_stderr opts); rewrite !app_nil_r. }
  cbn [fold_messages]. unfold execVsock_body at 1. rewrite !payload_cons. unfold streaming in *. destruct Hm as [-> | ->].
  - change (MsgTypeStdout =? MsgTypeStdout) with true. change (MsgTypeStdout =? MsgTypeStderr) with false. cbv iota.
    match goal with |- context [fold_messages _ ?o1 ms] => destruct (IH o1) as (o' & -> & H1 & H2 & H3 & H4) end. exists o'.
    cbn [xo_stdout xo_stderr xo_events] in *. rewrite H1, H2, H3, H4. split; [done|]. rewrite <- app_assoc.
    destruct (has_stdout opts); cbn [orb andb app]; [|by rewrite andb_false_r].
    destruct (out_written_snoc (xo_events o) (m_data m)) as [-> ->]. by rewrite <- app_assoc.
  - change (MsgTypeStderr =? MsgTypeStdout) with false. change (MsgTypeStderr =? MsgTypeStderr) with true. cbv iota.
    match goal with |- context [fold_messages _ ?o1 ms] => destruct (IH o1) as (o' & -> & H1 & H2 & H3 & H4) end. exists o'.
    cbn [xo_stdout xo_stderr xo_events] in *. rewrite H1, H2, H3, H4. split; [done|]. rewrite <- app_assoc.
    destruct (has_stderr opts); cbn [andb app]; [|by rewrite andb_false_r].
    rewrite orb_true_r. cbn [andb]. destruct (err_written_snoc (xo_events o) (m_data m)) as [-> ->]. by rewrite <- app_assoc.
Qed.

Lemma execVsock_body_result opts o resp :
  ExecResponse_valid resp →
  execVsock_body opts o (exec_response_message resp) = let '(r, e) := execVsock_result o resp in inr (o, (Some r, e)).
Proof.
  intros Hv. unfold execVsock_body. cbn [m_type m_data exec_response_message].
  change (MsgTypeExecResult =? MsgTypeStdout) with false. change (MsgTypeExecResult =? MsgTypeStderr) with false.
  change (MsgTypeExecResult =? MsgTypeExecResult) with true. cbv iota. by rewrite Unmarshal_Marshal.
Qed.

Lemma is_empty_choice (a b : bytes) : (if is_empty a && negb (is_empty b) then b else a) = if is_empty a then b else a.
Proof. by destruct a, b. Qed.

(** C17: The two ways to run a command without standard input give the same result, when the
    streamed frames arrive whole. In batch mode the agent sends the whole output in the result;
    in streaming mode it sends it as it comes, from two goroutines that share the connection
    without a lock, and then a result without it. Of every run in which no header is parted
    from its payload, the host returns the same exit code, standard output, standard error and
    error as in batch mode, and the writers it was given have received exactly the streamed
    output. *)
Theorem exec_modes_agree opts cancelled w out err s c1 c2 tail1 tail2 :
  agent_output out err w → arrives_whole w → chunked out → chunked err → exit_valid s →
  msg_ok (batch_response (concat out) (concat err) s) → msg_ok (exec_response_message (exit_response s)) →
  concat c1 = frame_of (batch_response (concat out) (concat err) s) ++ tail1 →
  concat c2 = wr_stream w ++ frame_of (exec_response_message (exit_response s)) ++ tail2 →
  execVsock opts cancelled c1 = ([], exec_outcome (concat out) (concat err) s)
  ∧ ∃ ev, execVsock opts cancelled c2 = (ev, exec_outcome (concat out) (concat err) s)
      ∧ out_written ev = (if has_stdout opts then concat out else [])
      ∧ err_written ev = (if has_stderr opts then concat err else []).
Proof.
  intros Hw Hwhole Ho He Hx Hb Hr Hc1 Hc2. destruct (whole_turns _ _ _ Hw Hwhole) as (sent & Hs & Hst).
  assert (Hc2' : concat c2 = frames (sent.*2 ++ [exec_response_message (exit_response s)]) ++ tail2).
  { rewrite Hc2, Hst, fmap_app, concat_app, <- app_assoc. f_equal. cbn. by rewrite app_nil_r. }
  clear Hc2. rename Hc2' into Hc2. pose proof (agent_output_ok _ _ _ Hs Ho He) as Hok.
  pose proof (exit_response_valid s Hx) as Hv. destruct (agent_payloads _ _ _ Hs) as [Hpo Hpe]. unfold execVsock. split.
  - destruct (loop_messages_stops (execVsock_body opts) false xo_start c1 [batch_response (concat out) (concat err) s] tail1
                xo_start (exec_outcome (concat out) (concat err) s)) as [c' Hl].
    + by left.
    + by apply Forall_cons.
    + rewrite Hc1. cbn. by rewrite app_nil_r.
    + cbn [fold_messages]. unfold batch_response. rewrite execVsock_body_result by done. unfold execVsock_result.
      rewrite !is_empty_choice. done.
    + change ReadMessage with (read_message (reader_of false)). unfold xo_start in Hl. by rewrite Hl.
  - destruct (execVsock_fold opts xo_start sent.*2 (interleaved_types _ _ _ _ _ Hs)) as (o & Hf & H1 & H2 & H3 & H4).
    cbn [xo_stdout xo_stderr xo_events xo_start] in *. rewrite Hpo in *. rewrite Hpe in *.
    destruct (loop_messages_stops (execVsock_body opts) false xo_start c2 (sent.*2 ++ [exec_response_message (exit_response s)]) tail2
                o (exec_outcome (concat out) (concat err) s)) as [c' Hl]; [by left| |done| |].
    + apply Forall_app. split; [done|]. by apply Forall_cons.
    + rewrite fold_messages_app, Hf. cbn [fold_messages]. rewrite execVsock_body_result by done. unfold execVsock_result.
      rewrite !is_empty_choice, H1, H2. assert (ex_Stdout (exit_response s) = [] ∧ ex_Stderr (exit_response s) = []) as [-> ->].
      { by destruct s. }
      unfold exec_outcome. rewrite !app_nil_l. by destruct (concat out), (concat err).
    + exists (xo_events o). change ReadMessage with (read_message (reader_of false)). unfold xo_start in Hl. by rewrite Hl.
Qed.

(** ** Files of the guest *)

(** A request of the host arrives at its handler. *)
Lemma handleExec_request m h c tail :
  msg_ok m → find (λ p, p.1 =? m_type m) agent_handlers = Some (m_type m, h) →
  no_empty_reads c → concat c = frame_of m ++ tail → ∃ c', handleExec c = Some (h, m_data m, c').
Proof.
  intros Hok Hf Hnr Hc. destruct (read_message_frame true m c tail Hok (or_intror Hnr) Hc) as (c' & Hr & _).
  exists c'. unfold handleExec. change agent_readMessage with (read_message (reader_of true)). rewrite Hr.
  by rewrite Hf.
Qed.

Lemma fileRPC_response_exact r c tail :
  FileResponse_valid r → msg_ok (file_result_message r) → concat c = frame_of (file_result_message r) ++ tail →
  fileRPC_response c = if decide (fr_Error r = "") then Ok r else Err (ErrRemote (fr_Error r)).
Proof.
  intros Hv Hok Hc. destruct (ReadMessage_frame _ _ _ Hok Hc) as (c' & Hr & _). unfold fileRPC_response. rewrite Hr.
  cbn [m_data file_result_message]. by rewrite Unmarshal_Marshal.
Qed.

Section files.
Context {W : Type} (os : guest_os W) (unmarshal_error : bytes → string).

(** Errors of the operating system have a text. *)
Record errors_have_text : Prop := {
  eht_open p w e w' : go_Open os p w = Some (Err e, w') → e ≠ "";
  eht_stat f w e w' : go_Stat os f w = Some (Err e, w') → e ≠ "";
  eht_read f n w e w' : go_Read os f n w = Some (Err e, w') → e ≠ "" }.

Lemma too_large_error path : fr_Error (too_large path) ≠ "".
Proof. done. Qed.

Lemma handleReadFile_ok path w r w' :
  errors_have_text → ValidString path = true →
  handleReadFile os unmarshal_error (m_data (ReadFileVsock_request path)) w = Some (r, w') → fr_Error r = "" →
  blen (fr_Content r) <= maxReadFileBytes ∧
  ∃ f w1 size w2 w3, go_Open os path w = Some (Ok f, w1) ∧ go_Stat os f w1 = Some (Ok (true, size), w2)
    ∧ size <= maxReadFileBytes ∧ go_Read os f (maxReadFileBytes + 1) w2 = Some (Ok (fr_Content r), w3).
Proof.
  intros He Hp Hrun Hr. unfold handleReadFile in Hrun. cbn [m_data ReadFileVsock_request] in Hrun.
  rewrite Unmarshal_Marshal in Hrun by done. cbn [rf_Path] in Hrun.
  apply M_bind_Some in Hrun as ([f|e] & w1 & Hopen & Hrun).
  2: { apply M_ret_Some in Hrun as [-> _]. by apply (eht_open He) in Hopen. }
  apply M_bind_Some in Hrun as (info & w2 & Hstat & Hrun).
  apply M_bind_Some in Hrun as (r' & w3 & Hbody & Hrun).
  apply M_bind_Some in Hrun as ([] & w4 & _ & [-> _]%M_ret_Some).
  destruct info as [[regular size]|e].
  2: { apply M_ret_Some in Hbody as [-> _]. by apply (eht_stat He) in Hstat. }
  destruct regular; cbn [negb] in Hbody; [|by apply M_ret_Some in Hbody as [-> _]].
  destruct (Z.ltb_spec maxReadFileBytes size) as [Hs|Hs].
  { apply M_ret_Some in Hbody as [-> _]. by apply too_large_error in Hr. }
  apply M_bind_Some in Hbody as (content & w5 & Hread & [-> _]%M_ret_Some).
  destruct content as [content|e]; [|by apply (eht_read He) in Hread].
  destruct (Z.ltb_spec maxReadFileBytes (blen content)) as [Hl|Hl]; [by apply too_large_error in Hr|].
  cbn [fr_Content]. split; [done|]. by exists f, w1, size, w2, w5.
Qed.

End files.

(** Reading a file of the guest, from the host's request to its answer. The request reaches the
    read handler; the host gets the content or the error of the response the handler makes;
    and it gets content only if the guest's file system opened the file, said that it is a
    regular one of at most 16 MiB, and read exactly that content of at most 16 MiB from it. *)
Theorem guest_read_exact {W} (os : guest_os W) unmarshal_error path w r w' creq tail c tail' :
  errors_have_text os → ValidString path = true → msg_ok (ReadFileVsock_request path) →
  no_empty_reads creq → concat creq = frame_of (ReadFileVsock_request path) ++ tail →
  handleReadFile os unmarshal_error (m_data (ReadFileVsock_request path)) w = Some (r, w') →
  FileResponse_valid r → msg_ok (file_result_message r) → concat c = frame_of (file_result_message r) ++ tail' →
  (∃ c', handleExec creq = Some (HReadFile, m_data (ReadFileVsock_request path), c'))
  ∧ ReadFileVsock c = (if decide (fr_Error r = "") then Ok (fr_Content r) else Err (ErrRemote (fr_Error r)))
  ∧ ∀ content, ReadFileVsock c = Ok content →
      blen content <= maxReadFileBytes ∧
      ∃ f w1 size w2 w3, go_Open os path w = Some (Ok f, w1) ∧ go_Stat os f w1 = Some (Ok (true, size), w2)
        ∧ size <= maxReadFileBytes ∧ go_Read os f (maxReadFileBytes + 1) w2 = Some (Ok content, w3).
Proof.
  intros He Hp Hreq Hnr Hcreq Hrun Hv Hok Hc.
  assert (Hread : ReadFileVsock c = if decide (fr_Error r = "") then Ok (fr_Content r) else Err (ErrRemote (fr_Error r))).
  { unfold ReadFileVsock. rewrite (fileRPC_response_exact _ _ _ Hv Hok Hc). by destruct (decide (fr_Error r = "")). }
  split_and!; [by eapply handleExec_request|done|]. rewrite Hread. intros content Hcontent.
  destruct (decide (fr_Error r = "")) as [Herr|]; [|done]. injection Hcontent as <-.
  by eapply handleReadFile_ok.
Qed.

(** ** The theorems at work *)

Definition raw (s : string) : bytes := String.list_ascii_of_string s.
Definition demo_opts : option ExecOptions :=
  Some {| eo_WorkingDir := "/workspace"; eo_Env := {["A" := "1"]}; eo_User := ""; eo_Stdin := true; eo_Stdout := true; eo_Stderr := true |}.
Definition demo_stdout : list bytes := [raw "hello "; raw "world"].
Definition demo_stderr : list bytes := [raw "oops"].
Definition demo_sent : list (nat * message) :=
  [(0%nat, {| m_type := MsgTypeStdout; m_data := raw "hello " |}); (1%nat, {| m_type := MsgTypeStderr; m_data := raw "oops" |});
   (0%nat, {| m_type := MsgTypeStdout; m_data := raw "world" |})].

Lemma demo_interleaved : output_turns demo_sent demo_stdout demo_stderr.
Proof. split; [|done|done|apply copy_output_type..]. repeat (apply Forall_cons_2; [cbn; lia|]). constructor. Qed.

(** The same on the connection: a run of the two goroutines. *)
Definition demo_wire : wire := {|
  wr_stream := frames demo_sent.*2; wr_broken := false; wr_lock := None;
  wr_threads := [{| th_todo := []; th_writes := None |}; {| th_todo := []; th_writes := None |}];
  wr_started := demo_sent |}.

Lemma demo_output : agent_output demo_stdout demo_stderr demo_wire.
Proof.
  split; [|split; [by repeat constructor|done]]. unfold wire_run.
  eapply rtc_l; [by eapply (StepBegin _ 0%nat)|]. vm_compute (msg_writes _). cbn -[raw].
  eapply rtc_l; [by eapply (StepWrite _ 0%nat)|]. cbn -[raw].
  eapply rtc_l; [by eapply (StepWrite _ 0%nat)|]. cbn -[raw].
  eapply rtc_l; [by eapply (StepEnd _ 0%nat)|]. cbn -[raw].
  eapply rtc_l; [by eapply (StepBegin _ 1%nat)|]. cbn -[raw].
  eapply rtc_l; [by eapply (StepWrite _ 1%nat)|]. cbn -[raw].
  eapply rtc_l; [by eapply (StepWrite _ 1%nat)|]. cbn -[raw].
  eapply rtc_l; [by eapply (StepEnd _ 1%nat)|]. cbn -[raw].
  eapply rtc_l; [by eapply (StepBegin _ 0%nat)|]. cbn -[raw].
  eapply rtc_l; [by eapply (StepWrite _ 0%nat)|]. cbn -[raw].
  eapply rtc_l; [by eapply (StepWrite _ 0%nat)|]. cbn -[raw].
  eapply rtc_l; [by eapply (StepEnd _ 0%nat)|]. apply rtc_refl.
Qed.

Lemma demo_whole : arrives_whole demo_wire.
Proof. exists demo_sent. split_and!; [repeat (apply Forall_cons_2; [cbn; lia|]); constructor|done|done]. Qed.

Lemma demo_chunked : chunked demo_stdout ∧ chunked demo_stderr.
Proof. split; repeat (apply Forall_cons_2; [done|]); constructor. Qed.

Lemma exec_pipe_delivers_witness : ∃ ev c',
  ExecPipe_reader demo_opts [frames (demo_sent.*2 ++ [exit_message (ExitCode Signalled)])] = (ev, Ok 4294967295, c')
  ∧ out_written ev = raw "hello world" ∧ err_written ev = raw "oops".
Proof.
  destruct demo_chunked as [H1 H2].
  refine (proj1 (exec_pipe_delivers demo_opts demo_sent demo_stdout demo_stderr [_] [] demo_interleaved H1 H2) (-1) _).
  by rewrite concat_cons, concat_nil.
Defined.

Lemma pipe_input_exact_witness :
  pipe_input false false
    [default [] (snd <$> ExecPipe_stdin stream_write (λ _, false) 0 [(raw "x", false); (raw "", true)] [])]
  = [StdinWrite (raw "x"); StdinClose].
Proof.
  assert (Hr : Forall (λ r : bytes * bool, blen r.1 <= 4096) [(raw "x", false); (raw "", true)]).
  { repeat (apply Forall_cons_2; [done|]). constructor. }
  destruct (pipe_input_exact [(raw "x", false); (raw "", true)] false false Hr) as [_ He].
  refine (proj1 (He _ [_] [] _ _)).
  - by exists [raw "x"], (raw "").
  - by apply Forall_cons_2.
  - by rewrite concat_cons, concat_nil.
Defined.

Lemma msg_ok_b (m : message) : (0 <=? m_type m) && (m_type m <? 256) && (blen (m_data m) <? 2 ^ 32) = true → msg_ok m.
Proof. rewrite !andb_true_iff, Z.leb_le, !Z.ltb_lt. intros [[? ?] ?]. by split. Qed.

Lemma exec_modes_agree_witness : ∃ ev,
  execVsock demo_opts false [frame_of (batch_response (raw "hello world") (raw "oops") (Exited 3))]
  = ([], (Some {| res_ExitCode := 3; res_Stdout := raw "hello world"; res_Stderr := raw "oops" |}, None))
  ∧ execVsock demo_opts false [wr_stream demo_wire ++ frame_of (exec_response_message (exit_response (Exited 3)))]
  = (ev, (Some {| res_ExitCode := 3; res_Stdout := raw "hello world"; res_Stderr := raw "oops" |}, None)).
Proof.
  destruct demo_chunked as [H1 H2].
  destruct (exec_modes_agree demo_opts false demo_wire demo_stdout demo_stderr (Exited 3)
    [frame_of (batch_response (raw "hello world") (raw "oops") (Exited 3))]
    [wr_stream demo_wire ++ frame_of (exec_response_message (exit_response (Exited 3)))] [] [] demo_output demo_whole H1 H2) as (Hb & ev & Hs & _).
  - done.
  - apply msg_ok_b. vm_compute. reflexivity.
  - apply msg_ok_b. vm_compute. reflexivity.
  - by rewrite concat_cons, concat_nil.
  - by rewrite concat_cons, concat_nil.
  - exists ev. split; [exact Hb|exact Hs].
Defined.

(** A guest with one file. *)
Definition demo_os : guest_os unit := {|
  go_MkdirAll _ _ := mret None; go_WriteFile _ _ _ := mret None;
  go_Open p := mret (if decide (p = "/etc/os-release") then Ok 3 else Err "no such file");
  go_Stat _ := mret (Ok (true, 4)); go_Read _ _ := mret (Ok (raw "NAME")); go_CloseFile _ := mret tt;
  go_ReadDir _ := mret (Err "no such directory"); go_Dial _ := mret (Err "refused") |}.

Lemma guest_read_exact_witness :
  ReadFileVsock [frame_of (file_result_message {| fr_Content := raw "NAME"; fr_Files := []; fr_Error := "" |})] = Ok (raw "NAME").
Proof.
  refine (proj1 (proj2 (guest_read_exact demo_os (λ _, "bad json") "/etc/os-release" tt
    {| fr_Content := raw "NAME"; fr_Files := []; fr_Error := "" |} tt
    [frame_of (ReadFileVsock_request "/etc/os-release")] [] [_] [] _ _ _ _ _ _ _ _ _))).
  - split; cbn.
    + intros p w e w'. destruct (decide (p = "/etc/os-release")); [done|]. intros [H _]%M_ret_Some. by injection H as ->.
    + by intros f w e w' [? _]%M_ret_Some.
    + by intros f n w e w' [? _]%M_ret_Some.
  - by vm_compute.
  - apply msg_ok_b. vm_compute. reflexivity.
  - by apply Forall_cons_2.
  - by rewrite concat_cons, concat_nil.
  - vm_compute. reflexivity.
  - by split.
  - apply msg_ok_b. vm_compute. reflexivity.
  - by rewrite concat_cons, concat_nil.
Defined.
