(* ===== verification/SandboxExec.v ===== *)
(** * Commands in a sandbox: pkg/sandbox/sandbox_common.go

    The options a command runs with (environment, directory, user), which the configuration,
    the certificate pool and the policy engine determine, and the shell command that copies a
    file out of the guest. *)

From S2P Require Import Prelude GoStrings GoStd GoNet VfsBase Api PolicyGlob PolicyRules PolicyEngine Exec.

(** What of [api.Config] commands depend on. *)
Record exec_config := {
  xc_VFS : option VFSConfig; xc_ImageCfg : option ImageConfig; xc_Env : gmap string string }.

Definition Config_GetWorkspace (c : exec_config) : string :=
  match xc_VFS c with Some v => vfs_Workspace v | None => "" end.

Definition ca_cert_path : string := "/etc/ssl/certs/matchlock-ca.crt".
Definition ca_env : gmap string string :=
  <["SSL_CERT_FILE" := ca_cert_path]> (<["REQUESTS_CA_BUNDLE" := ca_cert_path]>
    (<["CURL_CA_BUNDLE" := ca_cert_path]> (<["NODE_EXTRA_CA_CERTS" := ca_cert_path]> ∅))).

(** [prepareExecEnv]: what is assigned later wins, so it comes first in the union. [ca] says
    whether there is a certificate pool. *)
Definition prepareExecEnv {W} (config : exec_config) (ca : bool) (pol : option (Engine W)) : ExecOptions :=
  let image := xc_ImageCfg config in
  let imageEnv := match image with Some ic => ic_Env ic | None => ∅ end in
  let workdir := match image with
                 | Some ic => if decide (ic_WorkingDir ic = "") then Config_GetWorkspace config else ic_WorkingDir ic
                 | None => Config_GetWorkspace config
                 end in
  {| eo_WorkingDir := workdir;
     eo_User := match image with Some ic => ic_User ic | None => "" end;
     eo_Env := match pol with Some e => GetPlaceholders e | None => ∅ end
               ∪ ((if ca then ca_env else ∅) ∪ (xc_Env config ∪ imageEnv));
     eo_Stdin := false; eo_Stdout := false; eo_Stderr := false |}.

Definition no_options : ExecOptions := {|
  eo_WorkingDir := ""; eo_Env := ∅; eo_User := ""; eo_Stdin := false; eo_Stdout := false; eo_Stderr := false |}.

Definition prepareExecOptions {W} (config : exec_config) (ca : bool) (pol : option (Engine W)) (opts : option ExecOptions)
    : ExecOptions :=
  let opts := default no_options opts in
  let prepared := prepareExecEnv config ca pol in
  {| eo_WorkingDir := if decide (eo_WorkingDir opts = "") then eo_WorkingDir prepared else eo_WorkingDir opts;
     eo_User := if decide (eo_User opts = "") then eo_User prepared else eo_User opts;
     eo_Env := eo_Env prepared ∪ eo_Env opts;
     eo_Stdin := eo_Stdin opts; eo_Stdout := eo_Stdout opts; eo_Stderr := eo_Stderr opts |}.

(** ** Reading a file through the shell *)

Definition squote : Ascii.ascii := chr 39.

(** Each quote is closed, quoted in double quotes, and opened again. *)
Definition shellSingleQuote (s : string) : string :=
  String squote (ReplaceAll s (String squote "")
    (String squote (String (chr 34) (String squote (String (chr 34) (String squote ""))))) +:+ String squote "").

Definition readFileTo_command (path : string) : string :=
  let quotedPath := shellSingleQuote path in
  "if [ ! -f " +:+ quotedPath +:+ " ]; then echo 'read_file only supports regular files' >&2; exit 1; fi; cat < " +:+ quotedPath.

(** [readFileTo] on the result of the command, through a dialer: the bytes copied, and the
    error. *)
Definition readFileTo_result (copied : Z) (stderr : bytes) (r : result exec_error Z) : Z * option exec_error :=
  match r with
  | Err e => (copied, Some e)
  | Ok code =>
      if code =? 0 then (copied, None)
      else
        let msg := TrimSpace (String.string_of_list_ascii stderr) in
        (copied, Some (ErrRemote (if decide (msg = "") then "exit code " +:+ Itoa code else msg)))
  end.

(** ** What holds *)

(** The word a POSIX shell makes of a text of single-quoted and double-quoted parts, and
    whether the text is one such word: within single quotes every byte stands for itself;
    within double quotes so does a single quote (the only byte the source puts there). *)
Inductive shell_mode := Bare | InSingle | InDouble.

Fixpoint shell_word (m : shell_mode) (s : string) : option string :=
  match s with
  | EmptyString => match m with Bare => Some "" | _ => None end
  | String c s' =>
      match m with
      | Bare => if code c =? 39 then shell_word InSingle s'
                else if code c =? 34 then shell_word InDouble s' else None
      | InSingle => if code c =? 39 then shell_word Bare s' else String c <$> shell_word InSingle s'
      | InDouble => if code c =? 34 then shell_word Bare s'
                    else if code c =? 39 then String c <$> shell_word InDouble s' else None
      end
  end.

Lemma squote_replaced s rest :
  shell_word InSingle (ReplaceAll s (String squote "")
    (String squote (String (chr 34) (String squote (String (chr 34) (String squote ""))))) +:+ String squote rest)
  = String.append s <$> shell_word Bare rest.
Proof.
  unfold ReplaceAll. rewrite decide_False by done.
  set (new := String squote (String (chr 34) (String squote (String (chr 34) (String squote ""))))).
  induction s as [|c s IH].
  - cbn [replace_nonempty]. rewrite sapp_nil_l. cbn [shell_word]. change (code squote =? 39) with true. cbv iota.
    by destruct (shell_word Bare rest).
  - cbn [replace_nonempty HasPrefix]. destruct (bool_decide_reflect (c = squote)) as [->|Hc]; cbn [andb].
    + assert (HasPrefix s "" = true) as -> by (by destruct s).
      change (Nat.pred (slen (String squote ""))) with O. rewrite sapp_assoc.
      change (new +:+ ?x) with (String squote (String (chr 34) (String squote (String (chr 34) (String squote x))))).
      cbn [shell_word]. change (code squote =? 39) with true. change (code (chr 34) =? 39) with false.
      change (code (chr 34) =? 34) with true. change (code squote =? 34) with false. cbv iota.
      rewrite IH. by destruct (shell_word Bare rest).
    + rewrite sapp_cons. cbn [shell_word]. rewrite (proj2 (Z.eqb_neq (code c) 39)).
      { rewrite IH. by destruct (shell_word Bare rest). }
      intros H. apply Hc. rewrite <- (chr_code c), H. done.
Qed.

(** The shell reads a quoted path as that path: whatever bytes it has, it is one word, with
    nothing left for the shell to interpret. *)
Theorem shellSingleQuote_exact path rest :
  shell_word Bare (shellSingleQuote path +:+ rest) = String.append path <$> shell_word Bare rest.
Proof.
  unfold shellSingleQuote. rewrite sapp_cons, sapp_assoc, sapp_cons, sapp_nil_l. cbn [shell_word].
  change (code squote =? 39) with true. cbv iota. apply squote_replaced.
Qed.

(** Two configurations of the network that differ only in the values of secrets. *)
Definition same_placeholders (c1 c2 : NetworkConfig) : Prop :=
  Forall2 (λ s1 s2 : string * Secret, s1.1 = s2.1 ∧ secret_Placeholder s1.2 = secret_Placeholder s2.2)
    (nc_Secrets c1) (nc_Secrets c2).

Lemma placeholders_same {W} ex random c1 c2 :
  same_placeholders c1 c2 → GetPlaceholders (NewEngine (W := W) ex random c1) = GetPlaceholders (NewEngine (W := W) ex random c2).
Proof.
  intros Hs. unfold GetPlaceholders, NewEngine. cbn [eng_placeholders]. f_equal.
  induction Hs as [|[n1 s1] [n2 s2] l1 l2 [Hn Hp] _ IH]; [done|]. cbn in Hn, Hp. subst n2.
  rewrite !fmap_cons, IH. f_equal. cbn [fill_placeholder]. rewrite Hp. destruct (decide (secret_Placeholder s2 = "")); [done|].
  unfold prod_map. cbn [fst snd]. by rewrite Hp.
Qed.

(** C30: No command gets a secret through its environment. The options of every command are the
    same whatever the values of the secrets are; and the variable named after a secret holds
    its placeholder, even when the image, the configuration or the caller sets it. *)
Theorem exec_env_secretless {W} ex random c1 c2 config ca opts :
  same_placeholders c1 c2 →
  prepareExecOptions config ca (Some (NewEngine (W := W) ex random c1)) opts
    = prepareExecOptions config ca (Some (NewEngine (W := W) ex random c2)) opts
  ∧ ∀ name ph, GetPlaceholders (NewEngine (W := W) ex random c1) !! name = Some ph →
      eo_Env (prepareExecOptions config ca (Some (NewEngine (W := W) ex random c1)) opts) !! name = Some ph.
Proof.
  intros Hs. split.
  - unfold prepareExecOptions, prepareExecEnv. by rewrite (placeholders_same ex random c1 c2 Hs).
  - intros name ph Hph. unfold prepareExecOptions, prepareExecEnv. cbn [eo_Env].
    apply lookup_union_Some_l. by apply lookup_union_Some_l.
Qed.

Definition demo_net (value : string) : NetworkConfig := {|
  nc_AllowedHosts := []; nc_AddHosts := []; nc_BlockPrivateIPs := true; nc_NoNetwork := false; nc_Intercept := false;
  nc_Interception := None;
  nc_Secrets := [("API_KEY", {| secret_Value := value; secret_Placeholder := "PLACEHOLDER"; secret_Hosts := ["api.example.com"];
                                secret_ValueFile := "" |})];
  nc_PathAllow := []; nc_PolicyScript := ""; nc_DNSServers := []; nc_Hostname := ""; nc_MTU := 1500 |}.

Lemma exec_env_secretless_witness :
  eo_Env (prepareExecOptions {| xc_VFS := None; xc_ImageCfg := None; xc_Env := {["API_KEY" := "s3cret"]} |} true
    (Some (NewEngine (W := unit) (λ _ _ _, mret (Err ErrBlocked)) (λ _, "") (demo_net "s3cret"))) None) !! "API_KEY"
  = Some "PLACEHOLDER".
Proof.
  refine (proj2 (exec_env_secretless (λ _ _ _, mret (Err ErrBlocked)) (λ _, "") (demo_net "s3cret") (demo_net "other") _ _ _ _) _ _ _).
  - apply Forall2_cons. split; [by split|constructor].
  - reflexivity.
Defined.
