(* ===== verification/Relay.v ===== *)
(** * The exec relay: pkg/sandbox/exec_relay.go, and the client side of port_forward.go

    A Unix socket through which other processes run commands in a sandbox and change its
    allow list. Each connection carries one request; the server answers on it with framed
    messages, the client interprets them. Output of a command goes through a sender with a
    lock ([Wire.wire_step true]). *)

From S2P Require Import Prelude GoStrings GoStd GoJson GoNet VfsBase Api PolicyGlob PolicyRules PolicyEngine Wire Exec SandboxExec.

(** ** Messages *)

Definition relayMsgExec : Z := 1.
Definition relayMsgExecResult : Z := 2.
Definition relayMsgExecInteractive : Z := 3.
Definition relayMsgStdout : Z := 4.
Definition relayMsgStderr : Z := 5.
Definition relayMsgStdin : Z := 6.
Definition relayMsgExit : Z := 7.
Definition relayMsgExecPipe : Z := 8.
Definition relayMsgPortForward : Z := 9.
Definition relayMsgAllowListAdd : Z := 10.
Definition relayMsgAllowListDelete : Z := 11.
Definition relayMsgAllowListResult : Z := 12.
Definition relayMsgResize : Z := 13.
Definition relayMsgNetworkReset : Z := 14.
Definition relayMsgNetworkResetResult : Z := 15.
Definition relayMsgPathAllowSet : Z := 16.
Definition relayMsgPathAllowClear : Z := 17.
Definition relayMsgPathAllowResult : Z := 18.

Record relayExecRequest := { rx_Command : string; rx_WorkingDir : string; rx_User : string }.
Record relayExecInteractiveRequest := {
  ri_Command : string; ri_WorkingDir : string; ri_User : string; ri_Rows : Z; ri_Cols : Z }.
Record relayPortForwardRequest := { rp_RemotePort : Z }.
Record relayAllowListRequest := { ral_Hosts : list string }.
Record relayAllowListResult := {
  rr_AllowedHosts : list string; rr_Added : list string; rr_Removed : list string; rr_Error : string }.
Record relayNetworkResetResult := { rn_Error : string }.
Record relayPathAllowRequest := { rpa_Host : string; rpa_Prefixes : list string }.
Record relayPathAllowResult := { rpr_PathAllow : gmap string (list string); rpr_Error : string }.
Record relayExecResult := { rer_ExitCode : Z; rer_Stdout : bytes; rer_Stderr : bytes; rer_Error : string }.

Definition omit_string (name s : string) : list (string * json) := omitempty (bool_decide (s = "")) name (JStr s).
Definition omit_strings (name : string) (l : list string) : list (string * json) := omitempty (is_empty l) name (enc_strings l).
Definition omit_bytes (name : string) (d : bytes) : list (string * json) := omitempty (is_empty d) name (enc_bytes d).

#[export] Instance relayExecRequest_codec : Codec relayExecRequest := {|
  to_json r := JObj (member "command" (JStr (rx_Command r)) ++ omit_string "working_dir" (rx_WorkingDir r)
    ++ omit_string "user" (rx_User r));
  of_json := of_struct (λ l,
    command ← field "command" dec_string "" l; wd ← field "working_dir" dec_string "" l; user ← field "user" dec_string "" l;
    Some {| rx_Command := command; rx_WorkingDir := wd; rx_User := user |}) |}.

#[export] Instance relayExecInteractiveRequest_codec : Codec relayExecInteractiveRequest := {|
  to_json r := JObj (member "command" (JStr (ri_Command r)) ++ omit_string "working_dir" (ri_WorkingDir r)
    ++ omit_string "user" (ri_User r) ++ member "rows" (JInt (ri_Rows r)) ++ member "cols" (JInt (ri_Cols r)));
  of_json := of_struct (λ l,
    command ← field "command" dec_string "" l; wd ← field "working_dir" dec_string "" l; user ← field "user" dec_string "" l;
    rows ← field "rows" (dec_uint 16) 0 l; cols ← field "cols" (dec_uint 16) 0 l;
    Some {| ri_Command := command; ri_WorkingDir := wd; ri_User := user; ri_Rows := rows; ri_Cols := cols |}) |}.

#[export] Instance relayPortForwardRequest_codec : Codec relayPortForwardRequest := {|
  to_json r := JObj (member "remote_port" (JInt (rp_RemotePort r)));
  of_json := of_struct (λ l, port ← field "remote_port" dec_int 0 l; Some {| rp_RemotePort := port |}) |}.

#[export] Instance relayAllowListRequest_codec : Codec relayAllowListRequest := {|
  to_json r := JObj (member "hosts" (enc_strings (ral_Hosts r)));
  of_json := of_struct (λ l, hosts ← field "hosts" dec_strings [] l; Some {| ral_Hosts := hosts |}) |}.

#[export] Instance relayAllowListResult_codec : Codec relayAllowListResult := {|
  to_json r := JObj (omit_strings "allowed_hosts" (rr_AllowedHosts r) ++ omit_strings "added" (rr_Added r)
    ++ omit_strings "removed" (rr_Removed r) ++ omit_string "error" (rr_Error r));
  of_json := of_struct (λ l,
    allowed ← field "allowed_hosts" dec_strings [] l; added ← field "added" dec_strings [] l;
    removed ← field "removed" dec_strings [] l; e ← field "error" dec_string "" l;
    Some {| rr_AllowedHosts := allowed; rr_Added := added; rr_Removed := removed; rr_Error := e |}) |}.

#[export] Instance relayNetworkResetResult_codec : Codec relayNetworkResetResult := {|
  to_json r := JObj (omit_string "error" (rn_Error r));
  of_json := of_struct (λ l, e ← field "error" dec_string "" l; Some {| rn_Error := e |}) |}.

#[export] Instance relayPathAllowRequest_codec : Codec relayPathAllowRequest := {|
  to_json r := JObj (member "host" (JStr (rpa_Host r)) ++ omit_strings "prefixes" (rpa_Prefixes r));
  of_json := of_struct (λ l,
    host ← field "host" dec_string "" l; prefixes ← field "prefixes" dec_strings [] l;
    Some {| rpa_Host := host; rpa_Prefixes := prefixes |}) |}.

#[export] Instance relayPathAllowResult_codec : Codec relayPathAllowResult := {|
  to_json r := JObj (omitempty (bool_decide (rpr_PathAllow r = ∅)) "path_allow" (enc_map enc_strings (rpr_PathAllow r))
    ++ omit_string "error" (rpr_Error r));
  of_json := of_struct (λ l,
    pa ← field "path_allow" (dec_map (dec_strings [])) ∅ l; e ← field "error" dec_string "" l;
    Some {| rpr_PathAllow := pa; rpr_Error := e |}) |}.

#[export] Instance relayExecResult_codec : Codec relayExecResult := {|
  to_json r := JObj (member "exit_code" (JInt (rer_ExitCode r)) ++ omit_bytes "stdout" (rer_Stdout r)
    ++ omit_bytes "stderr" (rer_Stderr r) ++ omit_string "error" (rer_Error r));
  of_json := of_struct (λ l,
    code ← field "exit_code" dec_int 0 l; out ← field "stdout" dec_bytes [] l; err ← field "stderr" dec_bytes [] l;
    e ← field "error" dec_string "" l;
    Some {| rer_ExitCode := code; rer_Stdout := out; rer_Stderr := err; rer_Error := e |}) |}.

(** [readRelayMsg]: the errors of header and payload are not told apart. *)
Definition readRelayMsg (c : conn) : option (message * conn) :=
  match ReadMessage c with Ok r => Some r | Err _ => None end.

(** ** The sandbox behind the relay: pkg/sandbox/sandbox_linux.go *)

Record Sandbox (W : Type) := {
  sb_config : exec_config; sb_caPool : bool; sb_policy : option (Engine W); sb_proxy : bool }.
Arguments sb_config {W}. Arguments sb_caPool {W}. Arguments sb_policy {W}. Arguments sb_proxy {W}.

Definition with_policy {W} (e : Engine W) (sb : Sandbox W) : Sandbox W := {|
  sb_config := sb_config sb; sb_caPool := sb_caPool sb; sb_policy := Some e; sb_proxy := sb_proxy sb |}.

Definition err_unavailable : string := "allow-list updates unavailable: sandbox was started without network interception".
Definition err_no_hosts : string := "invalid allow-list hosts: no hosts provided".
Definition err_no_host : string := "invalid allow-list hosts: no host provided".
Definition err_reset : string := "network reset unavailable: only supported on darwin (macOS) sandboxes".

Section sandbox.
Context {W : Type}.

(** The policy engine of a sandbox with a proxy; a nil engine is a panic. *)
Definition the_policy : M (Sandbox W) (Engine W) := sb ← getw; liftp (sb_policy sb).

(** Updates go through the engine, which is shared. *)
Definition update_policy {A} (f : Engine W → A * Engine W) : M (Sandbox W) A :=
  e ← the_policy;
  let '(a, e') := f e in
  _ ← modw (with_policy e'); mret a.

Definition Sandbox_AddAllowedHosts (hosts : list string) : M (Sandbox W) (result string (list string)) :=
  sb ← getw;
  if negb (sb_proxy sb) then mret (Err err_unavailable)
  else if bool_decide (hosts = []) then mret (Err err_no_hosts)
  else added ← update_policy (λ e, AddAllowedHosts e hosts); mret (Ok added).

Definition Sandbox_RemoveAllowedHosts (hosts : list string) : M (Sandbox W) (result string (list string)) :=
  sb ← getw;
  if negb (sb_proxy sb) then mret (Err err_unavailable)
  else if bool_decide (hosts = []) then mret (Err err_no_hosts)
  else removed ← update_policy (λ e, RemoveAllowedHosts e hosts); mret (Ok removed).

Definition Sandbox_AllowedHosts : M (Sandbox W) (result string (list string)) :=
  sb ← getw;
  if negb (sb_proxy sb) then mret (Err err_unavailable)
  else e ← the_policy; mret (Ok (AllowedHosts e)).

Definition Sandbox_SetPathAllow (host : string) (prefixes : list string) : M (Sandbox W) (option string) :=
  sb ← getw;
  if negb (sb_proxy sb) then mret (Some err_unavailable)
  else if bool_decide (host = "") then mret (Some err_no_host)
  else _ ← update_policy (λ e, SetPathAllow e host prefixes); mret None.

Definition Sandbox_ClearPathAllow (host : string) : M (Sandbox W) (option string) :=
  sb ← getw;
  if negb (sb_proxy sb) then mret (Some err_unavailable)
  else if bool_decide (host = "") then mret (Some err_no_host)
  else _ ← update_policy (λ e, ClearPathAllow e host); mret None.

Definition Sandbox_PathAllow : M (Sandbox W) (result string (list (string * list string))) :=
  sb ← getw;
  if negb (sb_proxy sb) then mret (Err err_unavailable)
  else e ← the_policy; mret (Ok (PathAllow e)).

Definition Sandbox_ResetNetwork : option string := Some err_reset.

Definition Sandbox_PrepareExecEnv (sb : Sandbox W) : ExecOptions := prepareExecEnv (sb_config sb) (sb_caPool sb) (sb_policy sb).

(** ** The server: replies *)

Context (unmarshal_error : bytes → string).

Definition allow_list_reply (r : relayAllowListResult) : message := {| m_type := relayMsgAllowListResult; m_data := Marshal r |}.
Definition allow_list_error (e : string) : message :=
  allow_list_reply {| rr_AllowedHosts := []; rr_Added := []; rr_Removed := []; rr_Error := e |}.

Definition handleAllowListMutation (data : bytes) (add : bool) : M (Sandbox W) message :=
  match Unmarshal (T := relayAllowListRequest) data with
  | None => mret (allow_list_error (unmarshal_error data))
  | Some req =>
      if bool_decide (ral_Hosts req = []) then mret (allow_list_error "hosts is required")
      else
        r ← (if add then Sandbox_AddAllowedHosts (ral_Hosts req) else Sandbox_RemoveAllowedHosts (ral_Hosts req));
        match r with
        | Err e => mret (allow_list_error e)
        | Ok changed =>
            allowed ← Sandbox_AllowedHosts;
            mret (match allowed with
                  | Err e => allow_list_error e
                  | Ok allowed =>
                      allow_list_reply {| rr_AllowedHosts := allowed; rr_Added := if add then changed else [];
                                          rr_Removed := if add then [] else changed; rr_Error := "" |}
                  end)
        end
  end.

Definition handleNetworkReset : message :=
  {| m_type := relayMsgNetworkResetResult; m_data := Marshal {| rn_Error := default "" Sandbox_ResetNetwork |} |}.

Definition path_allow_reply (r : relayPathAllowResult) : message := {| m_type := relayMsgPathAllowResult; m_data := Marshal r |}.
Definition path_allow_error (e : string) : message := path_allow_reply {| rpr_PathAllow := ∅; rpr_Error := e |}.

Definition sendCurrentPathAllow : M (Sandbox W) message :=
  pa ← Sandbox_PathAllow;
  mret (match pa with
        | Err e => path_allow_error e
        | Ok pa => path_allow_reply {| rpr_PathAllow := list_to_map pa; rpr_Error := "" |}
        end).

Definition handlePathAllowSet (data : bytes) : M (Sandbox W) message :=
  match Unmarshal (T := relayPathAllowRequest) data with
  | None => mret (path_allow_error (unmarshal_error data))
  | Some req =>
      if bool_decide (rpa_Host req = "") then mret (path_allow_error "host is required")
      else
        e ← Sandbox_SetPathAllow (rpa_Host req) (rpa_Prefixes req);
        match e with Some e => mret (path_allow_error e) | None => sendCurrentPathAllow end
  end.

Definition handlePathAllowClear (data : bytes) : M (Sandbox W) message :=
  match Unmarshal (T := relayPathAllowRequest) data with
  | None => mret (path_allow_error (unmarshal_error data))
  | Some req =>
      if bool_decide (rpa_Host req = "") then mret (path_allow_error "host is required")
      else
        e ← Sandbox_ClearPathAllow (rpa_Host req);
        match e with Some e => mret (path_allow_error e) | None => sendCurrentPathAllow end
  end.

(** ** The server: commands *)

Definition exec_options (sb : Sandbox W) (workingDir user : string) : ExecOptions :=
  let opts := Sandbox_PrepareExecEnv sb in
  {| eo_WorkingDir := if decide (workingDir = "") then eo_WorkingDir opts else workingDir; eo_Env := eo_Env opts;
     eo_User := if decide (user = "") then eo_User opts else user; eo_Stdin := eo_Stdin opts; eo_Stdout := eo_Stdout opts;
     eo_Stderr := eo_Stderr opts |}.

(** [execCommand], what the machine is given: the options once more prepared. *)
Definition exec_command_options (sb : Sandbox W) (opts : ExecOptions) : ExecOptions :=
  prepareExecOptions (sb_config sb) (sb_caPool sb) (sb_policy sb) (Some opts).

(** The command and options of a request, and of one that is piped. *)
Definition relay_exec_call (sb : Sandbox W) (req : relayExecRequest) (piped : bool) : string * ExecOptions :=
  let opts := exec_options sb (rx_WorkingDir req) (rx_User req) in
  (rx_Command req,
   exec_command_options sb {| eo_WorkingDir := eo_WorkingDir opts; eo_Env := eo_Env opts; eo_User := eo_User opts;
                              eo_Stdin := piped; eo_Stdout := piped; eo_Stderr := piped |}).

Definition exec_result_message (r : relayExecResult) : message := {| m_type := relayMsgExecResult; m_data := Marshal r |}.

(** [handleExec] after the command: its result or its error. *)
Definition handleExec_reply (r : result string ExecResult) : message :=
  exec_result_message
    match r with
    | Err e => {| rer_ExitCode := 1; rer_Stdout := []; rer_Stderr := []; rer_Error := e |}
    | Ok res => {| rer_ExitCode := res_ExitCode res; rer_Stdout := res_Stdout res; rer_Stderr := res_Stderr res; rer_Error := "" |}
    end.

Definition relay_exit_message (code : Z) : message := {| m_type := relayMsgExit; m_data := be32 (uint32 code) |}.

(** What the two writers of [handleExecPipe] send: a message per write. *)
Definition relayWriter_messages (msgType : Z) (writes : list bytes) : list message :=
  (λ d, {| m_type := msgType; m_data := d |}) <$> writes.

Definition relay_threads (stdout stderr : list bytes) : list (list message) :=
  [relayWriter_messages relayMsgStdout stdout; relayWriter_messages relayMsgStderr stderr].

(** The exit code [handleExecPipe] and [handleExecInteractive] send. *)
Definition relay_exit_code (r : option Z) : Z := match r with Some code => code | None => 1 end.

(** What the goroutines that read from the client do to the command. *)
Inductive relay_input :=
| RelayStdin (data : bytes)
| RelayStdinClose
| RelayCancel
| RelayResize (rows cols : Z).

Definition relay_pipe_body (ev : list relay_input) (m : message) : list relay_input + (list relay_input * unit) :=
  if m_type m =? relayMsgStdin then
    if bool_decide (m_data m = []) then inr (ev, tt) else inl (ev ++ [RelayStdin (m_data m)])
  else inl ev.

(** The goroutine of [handleExecPipe]: the pipe is closed when it returns. *)
Definition relay_pipe_input (c : conn) : list relay_input :=
  match loop_messages ReadMessage relay_pipe_body [] c with
  | (ev, Ok _, _) => ev ++ [RelayStdinClose]
  | (ev, Err _, _) => ev ++ [RelayCancel; RelayStdinClose]
  end.

(** The goroutine of [handleExecInteractive]. *)
Definition relay_tty_body (ev : list relay_input) (m : message) : list relay_input + (list relay_input * Empty_set) :=
  if m_type m =? relayMsgStdin then inl (ev ++ [RelayStdin (m_data m)])
  else if m_type m =? relayMsgResize then
    inl (if blen (m_data m) =? 4 then ev ++ [RelayResize (u32 (take 2 (m_data m))) (u32 (drop 2 (m_data m)))] else ev)
  else inl ev.

Definition relay_tty_input (c : conn) : list relay_input :=
  (loop_messages ReadMessage relay_tty_body [] c).1.1 ++ [RelayStdinClose].

(** ** The server: dispatch *)

Inductive relay_action :=
| RelayExec (req : option relayExecRequest) (data : bytes)
| RelayExecInteractive (req : option relayExecInteractiveRequest)
| RelayExecPipe (req : option relayExecRequest)
| RelayPortForward (req : option relayPortForwardRequest) (data : bytes)
| RelayReply (m : message)
| RelayNothing.

(** [handleConn]: commands and port forwards are left to the machine; the rest is answered. *)
Definition handleConn (c : conn) : M (Sandbox W) (relay_action * conn) :=
  match readRelayMsg c with
  | None => mret (RelayNothing, c)
  | Some (m, c') =>
      let data := m_data m in
      a ← (if m_type m =? relayMsgExec then mret (RelayExec (Unmarshal data) data)
           else if m_type m =? relayMsgExecInteractive then mret (RelayExecInteractive (Unmarshal data))
           else if m_type m =? relayMsgExecPipe then mret (RelayExecPipe (Unmarshal data))
           else if m_type m =? relayMsgPortForward then mret (RelayPortForward (Unmarshal data) data)
           else if m_type m =? relayMsgAllowListAdd then r ← handleAllowListMutation data true; mret (RelayReply r)
           else if m_type m =? relayMsgAllowListDelete then r ← handleAllowListMutation data false; mret (RelayReply r)
           else if m_type m =? relayMsgNetworkReset then mret (RelayReply handleNetworkReset)
           else if m_type m =? relayMsgPathAllowSet then r ← handlePathAllowSet data; mret (RelayReply r)
           else if m_type m =? relayMsgPathAllowClear then r ← handlePathAllowClear data; mret (RelayReply r)
           else mret RelayNothing);
      mret (a, c')
  end.

End sandbox.

(** ** The client *)

Inductive relay_error :=
| ErrRelayContext                        (* the context was cancelled *)
| ErrRelayRead
| ErrRelayUnexpected (msgType : Z)
| ErrRelayDecode
| ErrRelayRemote (message : string)      (* the text the server sent *)
| ErrRelayProxy (message : string).

(** A reply of the expected type, decoded. *)
Definition relay_reply {T} `{!Codec T} (cancelled : bool) (expected : Z) (c : conn) : result relay_error T :=
  match readRelayMsg c with
  | None => Err (if cancelled then ErrRelayContext else ErrRelayRead)
  | Some (m, _) =>
      if negb (m_type m =? expected) then Err (ErrRelayUnexpected (m_type m))
      else match Unmarshal (m_data m) with Some r => Ok r | None => Err ErrRelayDecode end
  end.

Definition ExecViaRelay_request (command workingDir user : string) : message :=
  {| m_type := relayMsgExec; m_data := Marshal {| rx_Command := command; rx_WorkingDir := workingDir; rx_User := user |} |}.

(** The result, also when there is an error of the command. *)
Definition ExecViaRelay (cancelled : bool) (c : conn) : result relay_error (ExecResult * option relay_error) :=
  r ← relay_reply (T := relayExecResult) cancelled relayMsgExecResult c;
  Ok ({| res_ExitCode := rer_ExitCode r; res_Stdout := rer_Stdout r; res_Stderr := rer_Stderr r |},
      if decide (rer_Error r = "") then None else Some (ErrRelayRemote (rer_Error r))).

Definition ExecPipeViaRelay_request (command workingDir user : string) : message :=
  {| m_type := relayMsgExecPipe; m_data := Marshal {| rx_Command := command; rx_WorkingDir := workingDir; rx_User := user |} |}.

Definition ExecPipeViaRelay_body (ev : list out_event) (m : message) : list out_event + (list out_event * Z) :=
  if m_type m =? relayMsgStdout then inl (ev ++ [OutWrite (m_data m)])
  else if m_type m =? relayMsgStderr then inl (ev ++ [ErrWrite (m_data m)])
  else if m_type m =? relayMsgExit then inr (ev, exit_code_of (m_data m))
  else inl ev.

Definition ExecPipeViaRelay_reader (c : conn) : list out_event * result read_error Z * conn :=
  loop_messages ReadMessage ExecPipeViaRelay_body [] c.

(** The goroutine that forwards the standard input; the results of its sends are ignored. *)
Fixpoint ExecPipeViaRelay_stdin (reads : list (bytes * bool)) : list message :=
  match reads with
  | [] => []
  | (data, err) :: reads' =>
      (if bool_decide (data = []) then [] else [{| m_type := relayMsgStdin; m_data := data |}])
      ++ if err : bool then [{| m_type := relayMsgStdin; m_data := [] |}] else ExecPipeViaRelay_stdin reads'
  end.

Definition ExecInteractiveViaRelay_request (command workingDir user : string) (rows cols : Z) : message :=
  {| m_type := relayMsgExecInteractive;
     m_data := Marshal {| ri_Command := command; ri_WorkingDir := workingDir; ri_User := user; ri_Rows := rows; ri_Cols := cols |} |}.

Definition ExecInteractiveViaRelay_body (out : bytes) (m : message) : bytes + (bytes * Z) :=
  if m_type m =? relayMsgStdout then inl (out ++ m_data m)
  else if m_type m =? relayMsgExit then inr (out, exit_code_of (m_data m))
  else inl out.

Definition ExecInteractiveViaRelay_reader (c : conn) : bytes * result read_error Z * conn :=
  loop_messages ReadMessage ExecInteractiveViaRelay_body [] c.

Definition relay_resize_message (rows cols : Z) : message := {| m_type := relayMsgResize; m_data := be16 rows ++ be16 cols |}.

Definition allowListUpdate_request (msgType : Z) (hosts : list string) : message :=
  {| m_type := msgType; m_data := Marshal {| ral_Hosts := hosts |} |}.

Definition remote_error {A} (e : string) (a : A) : result relay_error A :=
  if decide (e = "") then Ok a else Err (ErrRelayRemote e).

(** [allowListUpdateViaRelay]: the hosts allowed now, those added and those removed. *)
Definition allowListUpdateViaRelay (cancelled : bool) (c : conn)
    : result relay_error (list string * list string * list string) :=
  r ← relay_reply (T := relayAllowListResult) cancelled relayMsgAllowListResult c;
  remote_error (rr_Error r) (rr_AllowedHosts r, rr_Added r, rr_Removed r).

Definition pathAllowUpdate_request (msgType : Z) (host : string) (prefixes : list string) : message :=
  {| m_type := msgType; m_data := Marshal {| rpa_Host := host; rpa_Prefixes := prefixes |} |}.

Definition pathAllowUpdateViaRelay (cancelled : bool) (c : conn) : result relay_error (gmap string (list string)) :=
  r ← relay_reply (T := relayPathAllowResult) cancelled relayMsgPathAllowResult c;
  remote_error (rpr_Error r) (rpr_PathAllow r).

Definition NetworkResetViaRelay (cancelled : bool) (c : conn) : result relay_error unit :=
  r ← relay_reply (T := relayNetworkResetResult) cancelled relayMsgNetworkResetResult c;
  remote_error (rn_Error r) tt.

(** [PortForwardViaRelay]: what is written to the local connection, and how it ends. [writable]
    says which writes to it succeed. *)
Definition PortForwardViaRelay_body (writable : nat → bool) (s : list bytes * string) (m : message)
    : (list bytes * string) + ((list bytes * string) * option relay_error) :=
  let '(out, remoteErr) := s in
  if m_type m =? relayMsgStdout then
    if writable (length out) then inl (out ++ [m_data m], remoteErr) else inr (s, None)
  else if m_type m =? relayMsgStderr then inl (out, remoteErr +:+ String.string_of_list_ascii (m_data m))
  else if m_type m =? relayMsgExit then
    if (4 <=? blen (m_data m)) && negb (u32 (take 4 (m_data m)) =? 0)
    then inr (s, Some (ErrRelayProxy (if decide (remoteErr = "") then "port-forward failed" else remoteErr)))
    else inr (s, None)
  else inr (s, Some (ErrRelayUnexpected (m_type m))).

Definition PortForwardViaRelay (writable : nat → bool) (cancelled : bool) (c : conn) : list bytes * option relay_error :=
  match loop_messages ReadMessage (PortForwardViaRelay_body writable) ([], "") c with
  | ((out, _), Ok e, _) => (out, e)
  | ((out, _), Err _, _) => (out, if cancelled then None else Some ErrRelayRead)
  end.

(** ** The server's port forward *)

(** [openGuestPort] before it dials. *)
Definition guest_port_ok (remotePort : Z) : bool := (1 <=? remotePort) && (remotePort <=? 65535).

(** What [handlePortForward] sends once the port is open: the reads of the guest's connection,
    and its end: [None] is EOF or a closed connection. *)
Definition port_forward_output (reads : list bytes) (end_error : option string) : list message :=
  relayWriter_messages relayMsgStdout (filter (λ d, d ≠ []) reads)
  ++ match end_error with
     | None => [relay_exit_message 0]
     | Some e => [{| m_type := relayMsgStderr; m_data := String.list_ascii_of_string e |}; relay_exit_message 1]
     end.

(** Without a port, the error. *)
Definition port_forward_failure (e : string) : list message :=
  [{| m_type := relayMsgStderr; m_data := String.list_ascii_of_string e |}; relay_exit_message 1].
