(* ===== verification/RelaySpec.v ===== *)
(** * What the exec relay guarantees

    Its messages survive; an update of the allow list or of the path gates through the relay is
    exactly the engine's update and reports the engine's state, or fails and changes nothing;
    what a command writes reaches the client whole; and when a client that goes away is
    noticed. *)

From S2P Require Import Prelude GoStrings GoStd GoJson GoJsonSpec GoNet VfsBase Api PolicyGlob PolicyRules PolicyEngine.
From S2P Require Import Wire WireSpec Exec GuestAgent SandboxExec ExecSpec Relay.

(** ** The messages survive *)

Definition relayExecRequest_valid (r : relayExecRequest) : Prop :=
  ValidString (rx_Command r) = true ∧ ValidString (rx_WorkingDir r) = true ∧ ValidString (rx_User r) = true.

#[export] Program Instance relayExecRequest_laws : CodecLaws relayExecRequest := {| codec_valid := relayExecRequest_valid |}.
Next Obligation.
  intros r (Hc & Hw & Hu). apply (small_law (0 + 1)); [|done]. apply small_obj; [lia|]. unfold omit_string. small_members.
Qed.
Next Obligation.
  intros [command wd user] _. unfold to_json, of_json, relayExecRequest_codec, omit_string.
  cbn [rx_Command rx_WorkingDir rx_User]. codec_fields. read_field command. read_field wd. read_field user. done.
Qed.

Definition relayExecInteractiveRequest_valid (r : relayExecInteractiveRequest) : Prop :=
  ValidString (ri_Command r) = true ∧ ValidString (ri_WorkingDir r) = true ∧ ValidString (ri_User r) = true
  ∧ 0 <= ri_Rows r < 2 ^ 16 ∧ 0 <= ri_Cols r < 2 ^ 16.

#[export] Program Instance relayExecInteractiveRequest_laws : CodecLaws relayExecInteractiveRequest :=
  {| codec_valid := relayExecInteractiveRequest_valid |}.
Next Obligation.
  intros r (Hc & Hw & Hu & Hr & Hl). apply (small_law (0 + 1)); [|done]. apply small_obj; [lia|]. unfold omit_string.
  small_members.
Qed.
Next Obligation.
  intros [command wd user rows cols] (_ & _ & _ & Hr & Hl). unfold to_json, of_json, relayExecInteractiveRequest_codec, omit_string.
  cbn [ri_Command ri_WorkingDir ri_User ri_Rows ri_Cols] in *. codec_fields.
  read_field command. read_field wd. read_field user. read_field rows. read_field cols. done.
Qed.

#[export] Program Instance relayPortForwardRequest_laws : CodecLaws relayPortForwardRequest :=
  {| codec_valid r := is_int64 (rp_RemotePort r) |}.
Next Obligation. intros r Hp. apply (small_law (0 + 1)); [|done]. apply small_obj; [lia|]. small_members. Qed.
Next Obligation.
  intros [port] Hp. unfold to_json, of_json, relayPortForwardRequest_codec. cbn [rp_RemotePort] in *. codec_fields.
  read_field port. done.
Qed.

#[export] Program Instance relayAllowListRequest_laws : CodecLaws relayAllowListRequest :=
  {| codec_valid r := valid_strings (ral_Hosts r) |}.
Next Obligation.
  intros r Hp. apply (small_law (0 + 1 + 1)); [|done]. apply small_obj; [lia|]. small_members. by apply small_strings.
Qed.
Next Obligation.
  intros [hosts] _. unfold to_json, of_json, relayAllowListRequest_codec. cbn [ral_Hosts]. codec_fields.
  read_field hosts. done.
Qed.

Definition relayAllowListResult_valid (r : relayAllowListResult) : Prop :=
  valid_strings (rr_AllowedHosts r) ∧ valid_strings (rr_Added r) ∧ valid_strings (rr_Removed r) ∧ ValidString (rr_Error r) = true.

#[export] Program Instance relayAllowListResult_laws : CodecLaws relayAllowListResult :=
  {| codec_valid := relayAllowListResult_valid |}.
Next Obligation.
  intros r (H1 & H2 & H3 & He). apply (small_law (0 + 1 + 1)); [|done]. apply small_obj; [lia|].
  unfold omit_string, omit_strings. small_members; by apply small_strings.
Qed.
Next Obligation.
  intros [allowed added removed e] _. unfold to_json, of_json, relayAllowListResult_codec, omit_string, omit_strings.
  cbn [rr_AllowedHosts rr_Added rr_Removed rr_Error]. codec_fields.
  read_field allowed. read_field added. read_field removed. read_field e. done.
Qed.

#[export] Program Instance relayNetworkResetResult_laws : CodecLaws relayNetworkResetResult :=
  {| codec_valid r := ValidString (rn_Error r) = true |}.
Next Obligation.
  intros r He. apply (small_law (0 + 1)); [|done]. apply small_obj; [lia|]. unfold omit_string. small_members.
Qed.
Next Obligation.
  intros [e] _. unfold to_json, of_json, relayNetworkResetResult_codec, omit_string. cbn [rn_Error]. codec_fields.
  read_field e. done.
Qed.

#[export] Program Instance relayPathAllowRequest_laws : CodecLaws relayPathAllowRequest :=
  {| codec_valid r := ValidString (rpa_Host r) = true ∧ valid_strings (rpa_Prefixes r) |}.
Next Obligation.
  intros r (Hh & Hp). apply (small_law (0 + 1 + 1)); [|done]. apply small_obj; [lia|]. unfold omit_strings. small_members.
  by apply small_strings.
Qed.
Next Obligation.
  intros [host prefixes] _. unfold to_json, of_json, relayPathAllowRequest_codec, omit_strings.
  cbn [rpa_Host rpa_Prefixes]. codec_fields. read_field host. read_field prefixes. done.
Qed.

Definition relayPathAllowResult_valid (r : relayPathAllowResult) : Prop :=
  (∀ k v, rpr_PathAllow r !! k = Some v → ValidString k = true ∧ valid_strings v) ∧ ValidString (rpr_Error r) = true.

Lemma dec_gates_enc m : dec_map (dec_strings []) ∅ (enc_map enc_strings m) = Some m.
Proof. apply dec_map_enc. intros k v _. apply dec_strings_enc. Qed.

#[export] Program Instance relayPathAllowResult_laws : CodecLaws relayPathAllowResult :=
  {| codec_valid := relayPathAllowResult_valid |}.
Next Obligation.
  intros r (Hm & He). apply (small_law (0 + 1 + 1 + 1)); [|done]. apply small_obj; [lia|]. unfold omit_string. small_members.
  apply small_map; [lia|]. intros k v Hkv. destruct (Hm k v Hkv). split; [done|]. by apply small_strings.
Qed.
Next Obligation.
  intros [gates e] _. unfold to_json, of_json, relayPathAllowResult_codec, omit_string.
  cbn [rpr_PathAllow rpr_Error]. codec_fields. apply (option_bind_step _ _ gates).
  { rewrite (field_omitempty _ _ _ gates); [by skip_members|done|apply bool_decide_eq_true_1|]. intros _. apply dec_gates_enc. }
  cbv beta. read_field e. done.
Qed.

Definition relayExecResult_valid (r : relayExecResult) : Prop := is_int64 (rer_ExitCode r) ∧ ValidString (rer_Error r) = true.

#[export] Program Instance relayExecResult_laws : CodecLaws relayExecResult := {| codec_valid := relayExecResult_valid |}.
Next Obligation.
  intros r (Hc & He). apply (small_law (0 + 1)); [|done]. apply small_obj; [lia|]. unfold omit_string, omit_bytes. small_members.
Qed.
Next Obligation.
  intros [code out err e] (Hc & _). unfold to_json, of_json, relayExecResult_codec, omit_string, omit_bytes.
  cbn [rer_ExitCode rer_Stdout rer_Stderr rer_Error] in *. codec_fields.
  read_field code. read_field out. read_field err. read_field e. done.
Qed.

(** A reply reaches the client. *)
Lemma relay_reply_exact {T} `{CodecLaws T} (r : T) t cancelled c tail :
  codec_valid r → msg_ok {| m_type := t; m_data := Marshal r |} →
  concat c = frame_of {| m_type := t; m_data := Marshal r |} ++ tail → relay_reply cancelled t c = Ok r.
Proof.
  intros Hv Hok Hc. destruct (ReadMessage_frame _ _ _ Hok Hc) as (c' & Hr & _). unfold relay_reply, readRelayMsg.
  rewrite Hr. cbn [m_type m_data]. rewrite Z.eqb_refl. cbn [negb]. by rewrite Unmarshal_Marshal.
Qed.

(** Decides comparisons of message types. *)
Ltac decide_types :=
  repeat match goal with
  | |- context [?a =? ?b] => let v := eval vm_compute in (a =? b) in change (a =? b) with v
  end; cbv iota beta.

(** ** Updates of the policy *)

Section updates.
Context {W : Type} (unmarshal_error : bytes → string).

(** A sandbox with a proxy, and so with an engine. *)
Definition intercepting (sb : Sandbox W) (e : Engine W) : Prop := sb_proxy sb = true ∧ sb_policy sb = Some e.

Lemma intercepting_update sb e e' : intercepting sb e → intercepting (with_policy e' sb) e'.
Proof. by intros []. Qed.

Lemma update_policy_run {A} (f : Engine W → A * Engine W) sb e :
  intercepting sb e → update_policy f sb = Some ((f e).1, with_policy (f e).2 sb).
Proof.
  intros [_ Hp]. unfold update_policy, the_policy. unfold mbind, M_bind, getw, liftp, modw. rewrite Hp. by destruct (f e).
Qed.

(** The engine's update of the allow list that a request asks for. *)
Definition engine_update (add : bool) (hosts : list string) (e : Engine W) : list string * Engine W :=
  if add then AddAllowedHosts e hosts else RemoveAllowedHosts e hosts.

Lemma sandbox_update_run (add : bool) hosts sb e :
  intercepting sb e → hosts ≠ [] →
  (if add then Sandbox_AddAllowedHosts hosts else Sandbox_RemoveAllowedHosts hosts) sb
  = Some (Ok (engine_update add hosts e).1, with_policy (engine_update add hosts e).2 sb).
Proof.
  intros Hi Hh. pose proof Hi as [Hpx Hpol]. destruct add; unfold Sandbox_AddAllowedHosts, Sandbox_RemoveAllowedHosts;
    rewrite (M_bind_step _ _ _ sb sb) by done; rewrite Hpx; cbn [negb]; rewrite bool_decide_eq_false_2 by done;
    rewrite (M_bind_step _ _ _ _ _ (update_policy_run _ sb e Hi)); done.
Qed.

Definition update_type (add : bool) : Z := if add then relayMsgAllowListAdd else relayMsgAllowListDelete.

(** The result of an update that went through. *)
Definition update_result (add : bool) (hosts : list string) (e : Engine W) : relayAllowListResult :=
  let '(changed, e') := engine_update add hosts e in
  {| rr_AllowedHosts := AllowedHosts e'; rr_Added := if add then changed else [];
     rr_Removed := if add then [] else changed; rr_Error := "" |}.

Lemma handleAllowListMutation_run (add : bool) hosts sb e :
  valid_strings hosts → hosts ≠ [] → intercepting sb e →
  handleAllowListMutation unmarshal_error (Marshal {| ral_Hosts := hosts |}) add sb
  = Some (allow_list_reply (update_result add hosts e), with_policy (engine_update add hosts e).2 sb).
Proof.
  intros Hv Hh Hi. unfold handleAllowListMutation. rewrite Unmarshal_Marshal by done. cbn [ral_Hosts].
  rewrite bool_decide_eq_false_2 by done. rewrite (M_bind_step _ _ _ _ _ (sandbox_update_run add hosts sb e Hi Hh)).
  unfold update_result. destruct (engine_update add hosts e) as [changed e'] eqn:Eu. cbn [fst snd].
  unfold Sandbox_AllowedHosts, the_policy, mbind, M_bind, getw, liftp, mret, M_ret. cbn [sb_proxy with_policy sb_policy].
  destruct Hi as [-> _]. done.
Qed.

Lemma handleConn_allow_list (add : bool) hosts (sb : Sandbox W) c tail :
  msg_ok (allowListUpdate_request (update_type add) hosts) →
  concat c = frame_of (allowListUpdate_request (update_type add) hosts) ++ tail →
  ∃ c', concat c' = tail ∧ handleConn unmarshal_error c sb =
    match handleAllowListMutation unmarshal_error (Marshal {| ral_Hosts := hosts |}) add sb with
    | Some (m, sb') => Some ((RelayReply m, c'), sb')
    | None => None
    end.
Proof.
  intros Hok Hc. destruct (ReadMessage_frame _ _ _ Hok Hc) as (c' & Hr & Hc'). exists c'. split; [done|].
  unfold handleConn, readRelayMsg. rewrite Hr. cbn [m_type m_data allowListUpdate_request].
  unfold mbind, M_bind, mret, M_ret.
  destruct add; cbn [update_type]; decide_types; by destruct (handleAllowListMutation _ _ _ _) as [[]|].
Qed.

(** An update of the allow list through the relay. With a proxy, a request for hosts is the
    engine's update of the same hosts, whose result the client gets: the hosts allowed after
    it and those that were added or removed. Without a proxy, or without hosts, the client
    gets the error and the sandbox is as it was. *)
Theorem relay_allow_list_exact (add : bool) hosts (sb : Sandbox W) c tail cancelled :
  valid_strings hosts → msg_ok (allowListUpdate_request (update_type add) hosts) →
  concat c = frame_of (allowListUpdate_request (update_type add) hosts) ++ tail →
  (∀ e, intercepting sb e → hosts ≠ [] →
    let '(changed, e') := engine_update add hosts e in
    valid_strings (AllowedHosts e') → valid_strings changed → msg_ok (allow_list_reply (update_result add hosts e)) →
    ∃ reply c', handleConn unmarshal_error c sb = Some ((RelayReply reply, c'), with_policy e' sb)
      ∧ ∀ cr tail', concat cr = frame_of reply ++ tail' →
          allowListUpdateViaRelay cancelled cr
          = Ok (AllowedHosts e', if add then changed else [], if add then [] else changed))
  ∧ (sb_proxy sb = false ∨ hosts = [] →
      ∃ reply c', handleConn unmarshal_error c sb = Some ((RelayReply reply, c'), sb)
      ∧ ∀ cr tail', concat cr = frame_of reply ++ tail' →
          allowListUpdateViaRelay cancelled cr
          = Err (ErrRelayRemote (if decide (hosts = []) then "hosts is required" else err_unavailable))).
Proof.
  intros Hv Hok Hc. destruct (handleConn_allow_list add hosts sb c tail Hok Hc) as (c' & _ & Hconn). split.
  - intros e Hi Hh. destruct (engine_update add hosts e) as [changed e'] eqn:Eu. intros Ha Hch Hrep.
    rewrite (handleAllowListMutation_run add hosts sb e Hv Hh Hi), Eu in Hconn.
    eexists _, c'. split; [exact Hconn|]. intros cr tail' Hcr. unfold allowListUpdateViaRelay.
    erewrite (relay_reply_exact (update_result add hosts e)); [|..|exact Hcr]; [|unfold update_result; rewrite Eu|done].
    + unfold update_result. by rewrite Eu.
    + unfold codec_valid, relayAllowListResult_laws, relayAllowListResult_valid.
      cbn [rr_AllowedHosts rr_Added rr_Removed rr_Error]. destruct add; (split_and!; [done|done || constructor..]).
  - intros Hno. assert (∃ err, err = (if decide (hosts = []) then "hosts is required" else err_unavailable) ∧
        handleAllowListMutation unmarshal_error (Marshal {| ral_Hosts := hosts |}) add sb = Some (allow_list_error err, sb))
      as (err & Herr & Hrun).
    { eexists. split; [reflexivity|]. unfold handleAllowListMutation. rewrite Unmarshal_Marshal by done. cbn [ral_Hosts].
      destruct (decide (hosts = [])) as [->|Hh]; [done|]. rewrite bool_decide_eq_false_2 by done.
      destruct Hno as [Hno|]; [|done].
      assert (∀ A (m : M (Sandbox W) (result string A)), (sb0 ← getw; if negb (sb_proxy sb0) then mret (Err err_unavailable) else m) sb
                = Some (Err err_unavailable, sb)) as Hoff.
      { intros A m. rewrite (M_bind_step _ _ _ sb sb) by done. by rewrite Hno. }
      destruct add; unfold Sandbox_AddAllowedHosts, Sandbox_RemoveAllowedHosts; by rewrite (M_bind_step _ _ _ _ _ (Hoff _ _)). }
    rewrite Hrun in Hconn. eexists _, c'. split; [exact Hconn|]. intros cr tail' Hcr. unfold allowListUpdateViaRelay.
    assert (Hve : err = "hosts is required" ∨ err = err_unavailable).
    { rewrite Herr. destruct (decide (hosts = [])); auto. }
    rewrite <- Herr.
    erewrite (relay_reply_exact {| rr_AllowedHosts := []; rr_Added := []; rr_Removed := []; rr_Error := err |}); [|..|exact Hcr].
    + by destruct Hve as [-> | ->].
    + unfold codec_valid, relayAllowListResult_laws, relayAllowListResult_valid.
      cbn [rr_AllowedHosts rr_Added rr_Removed rr_Error]. split_and!; [constructor..|by destruct Hve as [-> | ->]].
    + apply msg_ok_b. by destruct Hve as [-> | ->].
Qed.

End updates.

(** ** Output of a command, through the relay *)

Lemma relayWriter_type t writes : Forall (λ m, m_type m = t) (relayWriter_messages t writes).
Proof. unfold relayWriter_messages. apply Forall_fmap, Forall_forall. done. Qed.

Lemma relayWriter_data t writes : m_data <$> relayWriter_messages t writes = writes.
Proof. unfold relayWriter_messages. rewrite <- list_fmap_compose. apply list_fmap_id. Qed.

Lemma relayWriter_ok t writes : 0 <= t < 256 → Forall (λ d, blen d < 2 ^ 32) writes → Forall msg_ok (relayWriter_messages t writes).
Proof. intros Ht Hw. unfold relayWriter_messages. apply Forall_fmap. eapply Forall_impl; [exact Hw|]. intros d Hd. split; [exact Ht|exact Hd]. Qed.

Lemma ExecPipeViaRelay_fold ev ms :
  Forall (λ m, m_type m = relayMsgStdout ∨ m_type m = relayMsgStderr) ms →
  ∃ ev', fold_messages ExecPipeViaRelay_body ev ms = inl ev'
    ∧ out_written ev' = out_written ev ++ payload relayMsgStdout ms
    ∧ err_written ev' = err_written ev ++ payload relayMsgStderr ms.
Proof.
  intros Hms. revert ev. induction Hms as [|m ms Hm _ IH]; intros ev.
  { exists ev. cbn. by rewrite !app_nil_r. }
  cbn [fold_messages]. unfold ExecPipeViaRelay_body at 1. rewrite !payload_cons. destruct Hm as [-> | ->]; decide_types.
  - destruct (IH (ev ++ [OutWrite (m_data m)])) as (ev' & -> & Ho & He). exists ev'. split; [done|].
    destruct (out_written_snoc ev (m_data m)) as [H1 H2]. rewrite Ho, He, H1, H2. split; [by rewrite app_assoc|done].
  - destruct (IH (ev ++ [ErrWrite (m_data m)])) as (ev' & -> & Ho & He). exists ev'. split; [done|].
    destruct (err_written_snoc ev (m_data m)) as [H1 H2]. rewrite Ho, He, H1, H2. split; [done|by rewrite app_assoc].
Qed.

(** C16: The output of a piped command reaches the client of the relay whole. However the two
    writers of the server take turns at the sender's lock, once both are done and no write has
    failed, and the exit message follows: the client's writers get exactly what was written to
    the server's, and the client returns the exit code as an unsigned 32-bit number. *)
Theorem relay_pipe_delivers out err w code c tail :
  Forall (λ d, blen d < 2 ^ 32) out → Forall (λ d, blen d < 2 ^ 32) err →
  wire_run true (wire_init (relay_threads out err)) w → wire_done w → wr_broken w = false →
  concat c = wr_stream w ++ frame_of (relay_exit_message code) ++ tail →
  ∃ ev c', ExecPipeViaRelay_reader c = (ev, Ok (code mod 2 ^ 32), c')
    ∧ out_written ev = concat out ∧ err_written ev = concat err.
Proof.
  intros Ho He Hrun Hd Hub Hc.
  destruct (wire_run_interleaved relayMsgStdout relayMsgStderr _ _ _ Hrun Hd Hub (relayWriter_type _ _) (relayWriter_type _ _)) as [Hs Hst].
  destruct (interleaved_payloads relayMsgStdout relayMsgStderr _ _ _ ltac:(done) Hs) as [Hpo Hpe]. rewrite !relayWriter_data in Hpo, Hpe.
  destruct (ExecPipeViaRelay_fold [] _ (interleaved_types _ _ _ _ _ Hs)) as (ev & Hf & Hout & Herr).
  rewrite Hpo in Hout. rewrite Hpe in Herr.
  destruct (loop_messages_stops ExecPipeViaRelay_body false [] c ((wr_started w).*2 ++ [relay_exit_message code]) tail ev (uint32 code))
    as [c' Hl]; [by left| | | |].
  - apply Forall_app. split.
    + eapply interleaved_ok; [exact Hs|by apply relayWriter_ok..].
    + apply Forall_cons. split; [|constructor]. split; [done|]. change (4 < 2 ^ 32). lia.
  - rewrite Hc, Hst, fmap_app, concat_app. cbn [fmap list_fmap concat]. by rewrite app_nil_r, <- app_assoc.
  - rewrite fold_messages_app, Hf. cbn [fold_messages]. unfold ExecPipeViaRelay_body. cbn [m_type relay_exit_message]. decide_types.
    change (m_data (relay_exit_message code)) with (m_data (exit_message code)). by rewrite exit_code_of_message.
  - exists ev, c'. by split_and!.
Qed.

(** ** Input of a command, and a client that goes away *)

Definition relay_stdin_message (d : bytes) : message := {| m_type := relayMsgStdin; m_data := d |}.

Lemma relay_stdin_open reads : open_reads reads → ExecPipeViaRelay_stdin reads = relay_stdin_message <$> stdin_chunks reads.
Proof.
  unfold stdin_chunks. induction 1 as [|[data err] reads Herr _ IH]; [done|]. cbn in Herr. subst err.
  cbn [ExecPipeViaRelay_stdin fmap list_fmap fst]. rewrite IH. destruct (bool_decide_reflect (data = [])) as [Hd|Hd].
  - by rewrite filter_cons_False by naive_solver.
  - by rewrite filter_cons_True.
Qed.

Lemma relay_stdin_ended reads :
  ended_reads reads → ExecPipeViaRelay_stdin reads = (relay_stdin_message <$> stdin_chunks reads) ++ [relay_stdin_message []].
Proof.
  intros (l & data & ->). induction l as [|d l IH].
  - unfold stdin_chunks. cbn [fmap list_fmap app ExecPipeViaRelay_stdin fst]. destruct (bool_decide_reflect (data = [])) as [Hd|Hd].
    + by rewrite filter_cons_False by naive_solver.
    + by rewrite filter_cons_True.
  - rewrite fmap_cons. cbn [app ExecPipeViaRelay_stdin]. rewrite IH. unfold stdin_chunks. rewrite fmap_cons. cbn [fst].
    destruct (bool_decide_reflect (d = [])) as [Hd|Hd].
    + by rewrite filter_cons_False by naive_solver.
    + by rewrite filter_cons_True.
Qed.

Lemma relay_pipe_fold ev chunks :
  Forall (λ d, d ≠ []) chunks →
  fold_messages relay_pipe_body ev (relay_stdin_message <$> chunks) = inl (ev ++ (RelayStdin <$> chunks)).
Proof.
  intros Hc. revert ev. induction Hc as [|d chunks Hd _ IH]; intros ev; [by rewrite app_nil_r|].
  rewrite fmap_cons. cbn [fold_messages]. unfold relay_pipe_body at 1. cbn [m_type m_data relay_stdin_message]. decide_types.
  rewrite bool_decide_eq_false_2 by done. rewrite IH. by rewrite <- app_assoc.
Qed.

(** When the relay notices that its client has gone. While the client's standard input is open,
    a connection that breaks off cancels the command, after it was given exactly what the
    client read. Once the standard input has ended, the command has been given all of it, its
    standard input is closed, and nothing the client does then, closing the connection
    included, cancels the command. *)
Theorem relay_input_exact reads :
  Forall (λ r, blen r.1 <= 4096) reads →
  let sent := frames (ExecPipeViaRelay_stdin reads) in
  (open_reads reads → ∀ c tail, concat c = sent ++ tail → cut_frame tail →
    relay_pipe_input c = (RelayStdin <$> stdin_chunks reads) ++ [RelayCancel; RelayStdinClose])
  ∧ (ended_reads reads → ∀ c tail, concat c = sent ++ tail →
      relay_pipe_input c = (RelayStdin <$> stdin_chunks reads) ++ [RelayStdinClose]
      ∧ RelayCancel ∉ relay_pipe_input c).
Proof.
  intros Hr sent. subst sent. destruct (stdin_chunks_ok reads Hr) as [Hne Hok0].
  assert (Hok : Forall msg_ok (relay_stdin_message <$> stdin_chunks reads)).
  { apply (proj1 (Forall_fmap stdin_message _ _)) in Hok0. apply Forall_fmap. eapply Forall_impl; [exact Hok0|]. intros d [_ Hd]. split; [done|exact Hd]. }
  unfold relay_pipe_input. split.
  - intros Ho c tail Hc Ht. rewrite (relay_stdin_open _ Ho) in Hc.
    destruct (loop_messages_ends relay_pipe_body false [] c _ tail _ (or_introl eq_refl) Hok Hc Ht (relay_pipe_fold [] _ Hne))
      as (e & c' & Hl).
    change ReadMessage with (read_message (reader_of false)). by rewrite Hl.
  - intros He c tail Hc. rewrite (relay_stdin_ended _ He) in Hc.
    destruct (loop_messages_stops relay_pipe_body false [] c ((relay_stdin_message <$> stdin_chunks reads) ++ [relay_stdin_message []]) tail
                (RelayStdin <$> stdin_chunks reads) tt) as [c' Hl]; [by left| |done| |].
    + apply Forall_app. split; [done|]. apply Forall_cons. split; [by split|constructor].
    + rewrite fold_messages_app, relay_pipe_fold by done. done.
    + change ReadMessage with (read_message (reader_of false)). rewrite Hl. split; [done|].
      rewrite elem_of_app, list_elem_of_fmap, list_elem_of_singleton. naive_solver.
Qed.

(** ** The theorems at work *)

Definition demo_relay_engine : Engine unit :=
  NewEngine (λ _ _ _, mret (Err ErrBlocked)) (λ _, "") (demo_net "s3cret").
Definition demo_sandbox : Sandbox unit := {|
  sb_config := {| xc_VFS := None; xc_ImageCfg := None; xc_Env := ∅ |}; sb_caPool := true;
  sb_policy := Some demo_relay_engine; sb_proxy := true |}.
Definition demo_hosts : list string := ["a.test"; "*.b.test"; "a.test"].

Lemma relay_allow_list_exact_witness :
  ∃ reply c' e', handleConn (λ _, "bad") [frame_of (allowListUpdate_request (update_type true) demo_hosts)] demo_sandbox
    = Some ((RelayReply reply, c'), with_policy e' demo_sandbox)
  ∧ allowListUpdateViaRelay false [frame_of reply] = Ok (AllowedHosts e', ["a.test"; "*.b.test"], []).
Proof.
  assert (Hv : valid_strings demo_hosts). { repeat (apply Forall_cons_2; [done|]). constructor. }
  assert (Hok : msg_ok (allowListUpdate_request (update_type true) demo_hosts)) by (apply msg_ok_b; by vm_compute).
  destruct (relay_allow_list_exact (λ _, "bad") true demo_hosts demo_sandbox
              [frame_of (allowListUpdate_request (update_type true) demo_hosts)] [] false Hv Hok) as [Hon _].
  { by rewrite concat_cons. }
  specialize (Hon demo_relay_engine (conj eq_refl eq_refl)).
  destruct (engine_update true demo_hosts demo_relay_engine) as [changed e'] eqn:Eu.
  assert (Hd : demo_hosts ≠ []) by done. specialize (Hon Hd).
  assert (He : AllowedHosts (engine_update true demo_hosts demo_relay_engine).2
               = AllowedHosts demo_relay_engine ++ ["a.test"; "*.b.test"]) by (by vm_compute).
  assert (Hc : (engine_update true demo_hosts demo_relay_engine).1 = ["a.test"; "*.b.test"]) by (by vm_compute).
  rewrite Eu in He, Hc. cbn [fst snd] in He, Hc. subst changed.
  destruct Hon as (reply & c' & Hrun & Hcl).
  - rewrite He. repeat (apply Forall_cons_2; [done|]). constructor.
  - repeat (apply Forall_cons_2; [done|]). constructor.
  - unfold update_result. rewrite Eu, He. apply msg_ok_b. by vm_compute.
  - exists reply, c', e'. split; [exact Hrun|]. apply (Hcl _ []). by rewrite concat_cons.
Defined.

Definition relay_out (s : string) : message := {| m_type := relayMsgStdout; m_data := raw s |}.
Definition relay_err (s : string) : message := {| m_type := relayMsgStderr; m_data := raw s |}.

Ltac wire_next step := eapply rtc_l; [by eapply step|cbn -[msg_header msg_writes]].

(** The second writer takes its turn while the first has more to say. *)
Lemma relay_demo_run :
  wire_run true (wire_init (relay_threads [raw "a"; raw "b"] [raw "!"]))
    {| wr_stream := ((frame_of (relay_out "a")) ++ frame_of (relay_err "!")) ++ frame_of (relay_out "b");
       wr_broken := false; wr_lock := None;
       wr_threads := [{| th_todo := []; th_writes := None |}; {| th_todo := []; th_writes := None |}];
       wr_started := [(0%nat, relay_out "a"); (1%nat, relay_err "!"); (0%nat, relay_out "b")] |}.
Proof.
  unfold wire_run, wire_init, relay_threads, relayWriter_messages. cbn -[msg_header msg_writes].
  wire_next (StepBegin true 0%nat). change (msg_writes (relay_out "a")) with [msg_header (relay_out "a"); raw "a"].
  wire_next (StepWrite true 0%nat). wire_next (StepWrite true 0%nat). wire_next (StepEnd true 0%nat).
  wire_next (StepBegin true 1%nat). change (msg_writes (relay_err "!")) with [msg_header (relay_err "!"); raw "!"].
  wire_next (StepWrite true 1%nat). wire_next (StepWrite true 1%nat). wire_next (StepEnd true 1%nat).
  wire_next (StepBegin true 0%nat). change (msg_writes (relay_out "b")) with [msg_header (relay_out "b"); raw "b"].
  wire_next (StepWrite true 0%nat). wire_next (StepWrite true 0%nat). wire_next (StepEnd true 0%nat).
  apply rtc_refl.
Qed.

Lemma relay_pipe_delivers_witness : ∃ w ev c',
  ExecPipeViaRelay_reader [wr_stream w ++ frame_of (relay_exit_message (-1))] = (ev, Ok 4294967295, c')
  ∧ out_written ev = raw "ab" ∧ err_written ev = raw "!".
Proof.
  eexists. refine (relay_pipe_delivers [raw "a"; raw "b"] [raw "!"] _ (-1) [_] [] _ _ relay_demo_run _ _ _).
  - repeat (apply Forall_cons_2; [done|]). constructor.
  - repeat (apply Forall_cons_2; [done|]). constructor.
  - repeat (apply Forall_cons_2; [done|]). constructor.
  - done.
  - by rewrite concat_cons, concat_nil, app_nil_r.
Defined.

Lemma relay_input_exact_witness :
  relay_pipe_input [frames (ExecPipeViaRelay_stdin [(raw "x", false)]); take 3 (frame_of (relay_out "lost"))]
  = [RelayStdin (raw "x"); RelayCancel; RelayStdinClose]
  ∧ relay_pipe_input [frames (ExecPipeViaRelay_stdin [(raw "x", true)]); take 3 (frame_of (relay_out "lost"))]
  = [RelayStdin (raw "x"); RelayStdinClose].
Proof.
  split.
  - refine (proj1 (relay_input_exact [(raw "x", false)] _) _ [_; _] (take 3 (frame_of (relay_out "lost"))) _ _).
    + by apply Forall_cons_2.
    + by apply Forall_cons_2.
    + by rewrite !concat_cons, concat_nil, app_nil_r.
    + exists (relay_out "lost"). split_and!; [by apply msg_ok_b|apply prefix_take|done].
  - refine (proj1 (proj2 (relay_input_exact [(raw "x", true)] _) _ [_; _] (take 3 (frame_of (relay_out "lost"))) _)).
    + by apply Forall_cons_2.
    + by exists [], (raw "x").
    + by rewrite !concat_cons, concat_nil, app_nil_r.
Defined.
