(* ===== verification/Rpc.v ===== *)
(** * The JSON-RPC handler: pkg/rpc/handler.go

    A client of the process talks to it in lines of JSON. Requests run concurrently, in
    goroutines that share the handler's fields, its output, and channels that carry the input
    of commands; create, close, cancel and input run in the loop that reads the lines.

    A handler is a program of actions ([prog]): what it does to the handler's fields, the
    machine, channels and the output, and what it goes on with when it has the answer. The
    semantics of the actions and of the loop is a step relation ([rpc_step]); the machine is the
    environment, which answers as it likes. *)

From S2P Require Import Prelude GoStrings GoStd GoJson GoNet Api ApiConfig Wire Exec.

(** ** Messages *)

(** [Params] is a raw message: [None] when it is absent. *)
Record Request := { rq_JSONRPC : string; rq_Method : string; rq_Params : option json; rq_ID : option Z }.

Record Error := { er_Code : Z; er_Message : string }.

Record Response := { rp_Result : option json; rp_Error : option Error; rp_ID : option Z }.

Definition ErrCodeParse : Z := -32700.
Definition ErrCodeInvalidRequest : Z := -32600.
Definition ErrCodeMethodNotFound : Z := -32601.
Definition ErrCodeInvalidParams : Z := -32602.
Definition ErrCodeInternal : Z := -32603.
Definition ErrCodeVMFailed : Z := -32000.
Definition ErrCodeExecFailed : Z := -32001.
Definition ErrCodeFileFailed : Z := -32002.
Definition ErrCodeCancelled : Z := -32003.

(** A [*uint64], and a [json.RawMessage], which takes [null] too. *)
Definition dec_id (_ : option Z) (j : json) : option (option Z) :=
  match j with JNull => Some None | JNum lit => Some <$> ParseUint lit 64 | _ => None end.
Definition dec_raw (_ : option json) (j : json) : option (option json) := Some (Some j).

Definition Request_of_json : json → option Request := of_struct (λ l,
  v ← field "jsonrpc" dec_string "" l; m ← field "method" dec_string "" l;
  p ← field "params" dec_raw None l; id ← field "id" dec_id None l;
  Some {| rq_JSONRPC := v; rq_Method := m; rq_Params := p; rq_ID := id |}).

Definition id_json (id : option Z) : json := match id with Some n => JInt n | None => JNull end.

(** A map with string keys: printed in the order of the keys. *)
Definition json_object (l : list (string * json)) : json := JObj (sort_by (λ a b, string_leb a.1 b.1) l).

Definition Response_json (r : Response) : json :=
  JObj (member "jsonrpc" (JStr "2.0")
        ++ (match rp_Result r with Some j => member "result" j | None => [] end)
        ++ (match rp_Error r with
            | Some e => member "error" (JObj (member "code" (JInt (er_Code e)) ++ member "message" (JStr (er_Message e))))
            | None => []
            end)
        ++ (match rp_ID r with Some n => member "id" (JInt n) | None => [] end)).

Definition error_response (id : option Z) (code : Z) (message : string) : Response :=
  {| rp_Result := None; rp_Error := Some {| er_Code := code; er_Message := message |}; rp_ID := id |}.
Definition result_response (id : option Z) (l : list (string * json)) : Response :=
  {| rp_Result := Some (json_object l); rp_Error := None; rp_ID := id |}.

(** ** Parameters *)

(** [json.Unmarshal(req.Params, &params)]; absent parameters are an error. *)
Definition decode {T} (dec : list (string * json) → option T) (p : option json) : option T := p ≫= of_struct dec.

Record exec_params := { xp_Command : string; xp_WorkingDir : string; xp_User : string }.
Definition dec_exec (l : list (string * json)) : option exec_params :=
  c ← field "command" dec_string "" l; w ← field "working_dir" dec_string "" l; u ← field "user" dec_string "" l;
  Some {| xp_Command := c; xp_WorkingDir := w; xp_User := u |}.

Record tty_params := { tp_Command : string; tp_WorkingDir : string; tp_User : string; tp_Rows : Z; tp_Cols : Z }.
Definition dec_tty (l : list (string * json)) : option tty_params :=
  c ← field "command" dec_string "" l; w ← field "working_dir" dec_string "" l; u ← field "user" dec_string "" l;
  rows ← field "rows" (dec_uint 16) 0 l; cols ← field "cols" (dec_uint 16) 0 l;
  Some {| tp_Command := c; tp_WorkingDir := w; tp_User := u; tp_Rows := rows; tp_Cols := cols |}.

Definition dec_stdin (l : list (string * json)) : option (option Z * string) :=
  id ← field "id" dec_id None l; data ← field "data" dec_string "" l; Some (id, data).
Definition dec_eof (l : list (string * json)) : option (option Z) := field "id" dec_id None l.
Definition dec_resize (l : list (string * json)) : option (option Z * Z * Z) :=
  id ← field "id" dec_id None l; rows ← field "rows" (dec_uint 16) 0 l; cols ← field "cols" (dec_uint 16) 0 l;
  Some (id, rows, cols).

Record write_params := { wp_Path : string; wp_Content : string; wp_Mode : Z }.
Definition dec_write (l : list (string * json)) : option write_params :=
  p ← field "path" dec_string "" l; c ← field "content" dec_string "" l; m ← field "mode" (dec_uint 32) 0 l;
  Some {| wp_Path := p; wp_Content := c; wp_Mode := m |}.
Definition dec_path (l : list (string * json)) : option string := field "path" dec_string "" l.
Definition dec_hosts (l : list (string * json)) : option (list string) := field "hosts" dec_strings [] l.

Definition PortForward_of_json : json → option PortForward := of_struct (λ l,
  a ← field "local_port" dec_int 0 l; b ← field "remote_port" dec_int 0 l; Some {| pf_LocalPort := a; pf_RemotePort := b |}).
Definition dec_forwards (l : list (string * json)) : option (list PortForward * list string) :=
  f ← field "forwards" (dec_list PortForward_of_json) [] l; a ← field "addresses" dec_strings [] l; Some (f, a).
Definition dec_cancel (l : list (string * json)) : option Z := field "id" (dec_uint 64) 0 l.

(** The literal of [timeout_seconds], zero unless there is one: errors are ignored. *)
Definition close_timeout (p : option json) : string :=
  match p with
  | Some (JObj l) => foldl (λ acc kv, if key_is "timeout_seconds" kv.1 then match kv.2 with JNum lit => lit | _ => acc end else acc) "0" l
  | _ => "0"
  end.

(** ** Actions and programs *)

Record execInputChunk := { ck_Data : bytes; ck_EOF : bool }.

(** What a goroutine runs in the machine while it waits: a command, one with a terminal, or the
    copying of a log that is followed. *)
Inductive job (V : Type) :=
| JobExec (v : V) (command workingDir user : string)
| JobTTY (v : V) (command workingDir user : string) (rows cols : Z)
| JobLog (path : string).
Arguments JobExec {V}. Arguments JobTTY {V}. Arguments JobLog {V}.

(** The methods of the notifications its writers send, and the channels it reads. *)
Record job_io := { jo_stdout : option string; jo_stderr : option string; jo_stdin : option nat; jo_resize : option nat }.
Definition no_io : job_io := {| jo_stdout := None; jo_stderr := None; jo_stdin := None; jo_resize := None |}.

(** How a job ended: its result and duration, or the text of its error; and whether its two
    writers were used. *)
Record job_result := { jr_result : result string (ExecResult * Z); jr_out_used : bool; jr_err_used : bool }.

(** How the image's entrypoint is after half a second. *)
Inductive entry_outcome := EntryFailed (message : string) | EntryExited (code : Z) | EntryRunning | EntryContextDone (message : string).

Inductive action (V : Type) :=
(* the handler's fields *)
| AGetVM | ACurrentVMID | ASetClosed
| AInstall (v : V) (entry : bool)                  (* the locked section of create *)
| ATake                                            (* the locked section of close *)
| AEntryCancel
| ACtxErr                                          (* ctx.Err() != nil *)
| ARegister (id : Z) | AUnregister (id : Z) | ACancel (id : Z)
(* the machine *)
| AFactory (c : Config) | AStart (v : V) | AClose (v : V) (timeout : string) | AStateRemove (id : string)
| AStartEntry (v : V) (command : string)
| ARun (j : job V) (io : job_io)
| AWriteFile (v : V) (path : string) (content : bytes) (mode : Z) | AReadFile (v : V) (path : string)
| AListFiles (v : V) (path : string) | AReadLog (path : string)
| AUpdateHosts (v : V) (add : bool) (hosts : list string) | AAllowedHosts (v : V)
| AResetNetwork (v : V)
(* port forwards *)
| APfLock | APfUnlock | APfTake | APfClose (p : nat) | APfInstall (p : nat)
| APfStart (v : V) (addresses : list string) (forwards : list PortForward)
(* input of commands *)
| AOpenPipe (id : Z) | AClosePipe (id : Z) (ch : nat) | AOpenTTY (id : Z) | ACloseTTY (id : Z) (ch rch : nat)
| ALookupPipe (id : Z) | ALookupTTY (id : Z)
| APush (ch : nat) (c : execInputChunk) | AResize (rch : nat) (size : Z * Z)
(* output *)
| ANotify (id : option Z) (method : string) (data : option bytes)
| ASend (r : Response).
Arguments AGetVM {V}. Arguments ACurrentVMID {V}. Arguments ASetClosed {V}. Arguments AInstall {V}. Arguments ATake {V}.
Arguments AEntryCancel {V}. Arguments ACtxErr {V}. Arguments ARegister {V}. Arguments AUnregister {V}. Arguments ACancel {V}.
Arguments AFactory {V}. Arguments AStart {V}. Arguments AClose {V}. Arguments AStateRemove {V}. Arguments AStartEntry {V}.
Arguments ARun {V}. Arguments AWriteFile {V}. Arguments AReadFile {V}. Arguments AListFiles {V}. Arguments AReadLog {V}.
Arguments AUpdateHosts {V}. Arguments AAllowedHosts {V}. Arguments AResetNetwork {V}.
Arguments APfLock {V}. Arguments APfUnlock {V}. Arguments APfTake {V}. Arguments APfClose {V}. Arguments APfInstall {V}.
Arguments APfStart {V}. Arguments AOpenPipe {V}. Arguments AClosePipe {V}. Arguments AOpenTTY {V}. Arguments ACloseTTY {V}.
Arguments ALookupPipe {V}. Arguments ALookupTTY {V}. Arguments APush {V}. Arguments AResize {V}. Arguments ANotify {V}.
Arguments ASend {V}.

Definition answer {V} (a : action V) : Type :=
  match a with
  | AGetVM => option V
  | ACurrentVMID => string
  | ATake => option V * option nat * bool
  | ACtxErr | ACancel _ => bool
  | AFactory _ => result string V
  | AStart _ | AWriteFile _ _ _ _ | AResetNetwork _ | APfClose _ => option string
  | AClose _ _ => option string * bool
  | AStartEntry _ _ => entry_outcome
  | ARun _ _ => job_result
  | AReadFile _ _ | AReadLog _ => result string bytes
  | AListFiles _ _ => result string (option (list json))
  | AUpdateHosts _ _ _ | AAllowedHosts _ => result string (option (list string))
  | APfTake => option nat
  | APfStart _ _ _ => result string (nat * json)
  | AOpenPipe _ => nat
  | AOpenTTY _ => nat * nat
  | ALookupPipe _ => option nat
  | ALookupTTY _ => option (nat * nat)
  | _ => unit
  end.

Inductive prog (V A : Type) :=
| Ret (a : A)
| Act (a : action V) (k : answer a → prog V A).
Arguments Ret {V A}. Arguments Act {V A}.

Fixpoint prog_bind {V A B} (f : A → prog V B) (p : prog V A) : prog V B :=
  match p with Ret a => f a | Act a k => Act a (λ x, prog_bind f (k x)) end.

#[export] Instance prog_ret V : MRet (prog V) := λ A, Ret.
#[export] Instance prog_mbind V : MBind (prog V) := λ A B, prog_bind.

Definition act {V} (a : action V) : prog V (answer a) := Act a Ret.

(** What a machine is, and what of the interfaces beyond [VM] it implements. *)
Record vm_class (V : Type) := {
  vm_ID : V → string; vm_Config : V → option Config;
  vm_portForward : V → bool; vm_interactive : V → bool; vm_networkReset : V → bool }.
Arguments vm_ID {V}. Arguments vm_Config {V}. Arguments vm_portForward {V}. Arguments vm_interactive {V}.
Arguments vm_networkReset {V}.

(** ** The handlers *)

Section handlers.
Context {V : Type} (cls : vm_class V).
(** [encoding/json] on the configuration, the texts of errors, [shellquote.Join], the path of a
    machine's log. *)
Context (config_of_json : json → option Config) (unmarshal_error : option json → string) (error_text : api_error → string).
Context (shellquote_Join : list string → string) (logPathForVM : string → string).

Abbreviation prog := (prog V).
Abbreviation handler := (prog (option Response)) (only parsing).

Definition fail (req : Request) (code : Z) (message : string) : handler :=
  Ret (Some (error_response (rq_ID req) code message)).
Definition succeed (req : Request) (l : list (string * json)) : handler := Ret (Some (result_response (rq_ID req) l)).
Definition invalid_params (req : Request) : handler := fail req ErrCodeInvalidParams (unmarshal_error (rq_Params req)).
(** A slice, which may be nil. *)
Definition enc_slice (l : option (list json)) : json := match l with Some l => JArr l | None => JNull end.
Definition string_slice (l : option (list string)) : json := match l with Some l => enc_strings l | None => JNull end.
Definition b64 (b : bytes) : json := JStr (b64_encode (String.string_of_list_ascii b)).

(** The handlers that need a machine. *)
Definition with_vm (req : Request) (k : V → handler) : handler :=
  vm ← act AGetVM;
  match vm with None => fail req ErrCodeVMFailed "VM not created" | Some vm => k vm end.

Definition with_params {T} (dec : list (string * json) → option T) (req : Request) (k : T → handler) : handler :=
  match decode dec (rq_Params req) with None => invalid_params req | Some params => k params end.

(** The error of a job: cancelled if its context is done. *)
Definition job_failed (req : Request) (code : Z) (e : string) : handler :=
  done ← act ACtxErr; fail req (if done : bool then ErrCodeCancelled else code) e.

(** [ShellQuoteArgs] of the image's command, if there is one to start. *)
Definition entrypoint_command (c : option Config) : option string :=
  match c with
  | Some c =>
      match cfg_ImageCfg c with
      | Some ic =>
          if negb (cfg_LaunchEntrypoint c) then None
          else match ComposeCommand (Some ic) [] with [] => None | args => Some (shellquote_Join args) end
      | None => None
      end
  | None => None
  end.

(** The cancel function is [Ok true]; [Ok false] is a nil one. *)
Definition startImageEntrypoint (vm : V) : prog (result string bool) :=
  match entrypoint_command (vm_Config cls vm) with
  | None => Ret (Ok false)
  | Some command =>
      o ← act (AStartEntry vm command);
      Ret match o with
          | EntryFailed e => Err ("start image entrypoint: " +:+ e)
          | EntryExited code =>
              if code =? 0 then Ok false else Err ("start image entrypoint: exit code " +:+ FormatInt code)
          | EntryRunning => Ok true
          | EntryContextDone e => Err e
          end
  end.

(** A machine that could not be started is closed and its state removed. *)
Definition discard (req : Request) (vm : V) (e : string) : handler :=
  _ ← act (AClose vm ""); _ ← act (AStateRemove (vm_ID cls vm)); fail req ErrCodeVMFailed e.

Definition handleCreate (req : Request) : handler :=
  match (match rq_Params req with None => Some None | Some j => Some <$> config_of_json j end) with
  | None => invalid_params req
  | Some params =>
      let image := match params with Some c => cfg_Image c | None => "" end in
      let id := match params with Some c => cfg_ID c | None => "" end in
      if decide (image = "") then fail req ErrCodeInvalidParams "image is required (e.g., alpine:latest)"
      else if decide (id ≠ "") then fail req ErrCodeInvalidParams "id is internal-only and cannot be set"
      else
        let config := (Merge DefaultConfig params).1 in
        match NetworkConfig_Validate (cfg_Network config), Config_ValidateVFS (Some config) with
        | Some e, _ | None, Some e => fail req ErrCodeInvalidParams (error_text e)
        | None, None =>
            vm ← act (AFactory config);
            match vm with
            | Err e => fail req ErrCodeVMFailed e
            | Ok vm =>
                err ← act (AStart vm);
                match err with
                | Some e => discard req vm e
                | None =>
                    entry ← startImageEntrypoint vm;
                    match entry with
                    | Err e => discard req vm e
                    | Ok entry => _ ← act (AInstall vm entry); succeed req [("id", JStr (vm_ID cls vm))]
                    end
                end
            end
        end
  end.

Definition handleExec (req : Request) : handler :=
  with_vm req (λ vm, with_params dec_exec req (λ params,
    r ← act (ARun (JobExec vm (xp_Command params) (xp_WorkingDir params) (xp_User params)) no_io);
    match jr_result r with
    | Err e => job_failed req ErrCodeExecFailed e
    | Ok (result, ms) =>
        succeed req [("exit_code", JInt (res_ExitCode result)); ("stdout", b64 (res_Stdout result));
                     ("stderr", b64 (res_Stderr result)); ("duration_ms", JInt ms)]
    end)).

(** Output that the machine did not stream. *)
Definition send_rest (req : Request) (used : bool) (method : string) (data : bytes) : prog unit :=
  if negb used && negb (is_empty data) then act (ANotify (rq_ID req) method (Some data)) else Ret tt.

(** What [handleExecStream] and [handleExecPipe] do when the command has ended. *)
Definition streamed_result (req : Request) (prefix : string) (r : job_result) : handler :=
  match jr_result r with
  | Err e => job_failed req ErrCodeExecFailed e
  | Ok (result, ms) =>
      _ ← send_rest req (jr_out_used r) (prefix +:+ ".stdout") (res_Stdout result);
      _ ← send_rest req (jr_err_used r) (prefix +:+ ".stderr") (res_Stderr result);
      succeed req [("exit_code", JInt (res_ExitCode result)); ("duration_ms", JInt ms)]
  end.

Definition handleExecStream (req : Request) : handler :=
  with_vm req (λ vm, with_params dec_exec req (λ params,
    r ← act (ARun (JobExec vm (xp_Command params) (xp_WorkingDir params) (xp_User params))
               {| jo_stdout := Some "exec_stream.stdout"; jo_stderr := Some "exec_stream.stderr"; jo_stdin := None; jo_resize := None |});
    streamed_result req "exec_stream" r)).

Definition handleExecPipe (req : Request) : handler :=
  with_vm req (λ vm,
    match rq_ID req with
    | None => fail req ErrCodeInvalidRequest "exec_pipe requires request id"
    | Some id =>
        with_params dec_exec req (λ params,
          ch ← act (AOpenPipe id);
          _ ← act (ANotify (Some id) "exec_pipe.ready" None);
          r ← act (ARun (JobExec vm (xp_Command params) (xp_WorkingDir params) (xp_User params))
                     {| jo_stdout := Some "exec_pipe.stdout"; jo_stderr := Some "exec_pipe.stderr"; jo_stdin := Some ch; jo_resize := None |});
          resp ← streamed_result req "exec_pipe" r;
          _ ← act (AClosePipe id ch); Ret resp)
    end).

Definition handleExecTTY (req : Request) : handler :=
  with_vm req (λ vm,
    match rq_ID req with
    | None => fail req ErrCodeInvalidRequest "exec_tty requires request id"
    | Some id =>
        if negb (vm_interactive cls vm) then fail req ErrCodeVMFailed "VM backend does not support interactive exec"
        else with_params dec_tty req (λ params,
          let rows := if tp_Rows params =? 0 then 24 else tp_Rows params in
          let cols := if tp_Cols params =? 0 then 80 else tp_Cols params in
          chs ← act (AOpenTTY id);
          _ ← act (ANotify (Some id) "exec_tty.ready" None);
          r ← act (ARun (JobTTY vm (tp_Command params) (tp_WorkingDir params) (tp_User params) rows cols)
                     {| jo_stdout := Some "exec_tty.stdout"; jo_stderr := None; jo_stdin := Some chs.1; jo_resize := Some chs.2 |});
          resp ← match jr_result r with
                 | Err e => job_failed req ErrCodeExecFailed e
                 | Ok (result, ms) => succeed req [("exit_code", JInt (res_ExitCode result)); ("duration_ms", JInt ms)]
                 end;
          _ ← act (ACloseTTY id chs.1 chs.2); Ret resp)
    end).

(** Input: nothing is answered, and what is malformed or for no command is dropped. *)
Definition handleExecPipeStdin (req : Request) : handler :=
  match decode dec_stdin (rq_Params req) with
  | Some (Some id, data) =>
      match b64_decode_std data with
      | Some data =>
          ch ← act (ALookupPipe id);
          match ch with
          | Some ch => _ ← act (APush ch {| ck_Data := String.list_ascii_of_string data; ck_EOF := false |}); Ret None
          | None => Ret None
          end
      | None => Ret None
      end
  | _ => Ret None
  end.

Definition handleExecPipeStdinEOF (req : Request) : handler :=
  match decode dec_eof (rq_Params req) with
  | Some (Some id) =>
      ch ← act (ALookupPipe id);
      match ch with
      | Some ch => _ ← act (APush ch {| ck_Data := []; ck_EOF := true |}); Ret None
      | None => Ret None
      end
  | _ => Ret None
  end.

Definition handleExecTTYStdin (req : Request) : handler :=
  match decode dec_stdin (rq_Params req) with
  | Some (Some id, data) =>
      match b64_decode_std data with
      | Some data =>
          s ← act (ALookupTTY id);
          match s with
          | Some (ch, _) => _ ← act (APush ch {| ck_Data := String.list_ascii_of_string data; ck_EOF := false |}); Ret None
          | None => Ret None
          end
      | None => Ret None
      end
  | _ => Ret None
  end.

Definition handleExecTTYStdinEOF (req : Request) : handler :=
  match decode dec_eof (rq_Params req) with
  | Some (Some id) =>
      s ← act (ALookupTTY id);
      match s with
      | Some (ch, _) => _ ← act (APush ch {| ck_Data := []; ck_EOF := true |}); Ret None
      | None => Ret None
      end
  | _ => Ret None
  end.

Definition handleExecTTYResize (req : Request) : handler :=
  match decode dec_resize (rq_Params req) with
  | Some (Some id, rows, cols) =>
      s ← act (ALookupTTY id);
      match s with Some (_, rch) => _ ← act (AResize rch (rows, cols)); Ret None | None => Ret None end
  | _ => Ret None
  end.

Definition handleWriteFile (req : Request) : handler :=
  with_vm req (λ vm, with_params dec_write req (λ params,
    match b64_decode_std (wp_Content params) with
    | None => fail req ErrCodeInvalidParams "invalid base64 content"
    | Some content =>
        let mode := if wp_Mode params =? 0 then 420 else wp_Mode params in
        err ← act (AWriteFile vm (wp_Path params) (String.list_ascii_of_string content) mode);
        match err with Some e => fail req ErrCodeFileFailed e | None => succeed req [] end
    end)).

Definition handleReadFile (req : Request) : handler :=
  with_vm req (λ vm, with_params dec_path req (λ path,
    r ← act (AReadFile vm path);
    match r with Err e => fail req ErrCodeFileFailed e | Ok content => succeed req [("content", b64 content)] end)).

Definition handleListFiles (req : Request) : handler :=
  with_vm req (λ vm, with_params dec_path req (λ path,
    r ← act (AListFiles vm path);
    match r with Err e => fail req ErrCodeFileFailed e | Ok files => succeed req [("files", enc_slice files)] end)).

(** The log of the machine, or of the last one. *)
Definition handleLog (req : Request) : handler :=
  vmID ← act ACurrentVMID;
  if decide (vmID = "") then fail req ErrCodeVMFailed "VM not created"
  else r ← act (AReadLog (logPathForVM vmID));
       match r with Err e => fail req ErrCodeFileFailed e | Ok data => succeed req [("content", b64 data)] end.

Definition handleLogStream (req : Request) : handler :=
  vmID ← act ACurrentVMID;
  if decide (vmID = "") then fail req ErrCodeVMFailed "VM not created"
  else match rq_ID req with
       | None => fail req ErrCodeInvalidRequest "log_stream requires request id"
       | Some _ =>
           r ← act (ARun (JobLog (logPathForVM vmID))
                      {| jo_stdout := Some "log_stream.data"; jo_stderr := None; jo_stdin := None; jo_resize := None |});
           match jr_result r with Err e => job_failed req ErrCodeFileFailed e | Ok _ => succeed req [] end
       end.

(** [handleAllowListAdd] and [handleAllowListDelete]. *)
Definition handleAllowListUpdate (add : bool) (req : Request) : handler :=
  with_vm req (λ vm, with_params dec_hosts req (λ hosts,
    if bool_decide (hosts = []) then fail req ErrCodeInvalidParams "hosts is required"
    else
      r ← act (AUpdateHosts vm add hosts);
      match r with
      | Err e => fail req ErrCodeVMFailed e
      | Ok changed =>
          allowed ← act (AAllowedHosts vm);
          match allowed with
          | Err e => fail req ErrCodeVMFailed e
          | Ok allowed =>
              succeed req [(if add then "added" else "removed", string_slice changed);
                           ("allowed_hosts", string_slice allowed)]
          end
      end)).
Definition handleAllowListAdd : Request → handler := handleAllowListUpdate true.
Definition handleAllowListDelete : Request → handler := handleAllowListUpdate false.

Definition handleNetworkReset (req : Request) : handler :=
  with_vm req (λ vm,
    if negb (vm_networkReset cls vm) then fail req ErrCodeVMFailed "VM backend does not support network reset"
    else err ← act (AResetNetwork vm);
         match err with Some e => fail req ErrCodeVMFailed e | None => succeed req [] end).

(** The manager is replaced under its own lock: the old one is closed first. *)
Definition handlePortForward (req : Request) : handler :=
  with_vm req (λ vm,
    if negb (vm_portForward cls vm) then fail req ErrCodeVMFailed "VM backend does not support port-forward"
    else with_params dec_forwards req (λ '(forwards, addresses),
      if bool_decide (forwards = []) then fail req ErrCodeInvalidParams "forwards is required"
      else
        let addresses := if bool_decide (addresses = []) then ["127.0.0.1"] else addresses in
        _ ← act APfLock;
        old ← act APfTake;
        _ ← (match old with Some p => _ ← act (APfClose p); Ret tt | None => Ret tt end);
        r ← act (APfStart vm addresses forwards);
        resp ← match r with
               | Err e => fail req ErrCodeVMFailed e
               | Ok (manager, bindings) => _ ← act (APfInstall manager); succeed req [("bindings", bindings)]
               end;
        _ ← act APfUnlock; Ret resp)).

(** Whatever there is, is taken first. *)
Definition handleClose (req : Request) : handler :=
  _ ← act ASetClosed;
  taken ← act ATake;
  let '(vm, pfManager, entry) := taken in
  _ ← (if entry : bool then act AEntryCancel else Ret tt);
  pfErr ← (match pfManager with Some p => act (APfClose p) | None => Ret None end);
  match pfErr with
  | Some e => fail req ErrCodeVMFailed e
  | None =>
      r ← (match vm with Some vm => act (AClose vm (close_timeout (rq_Params req))) | None => Ret (None, false) end);
      match r with
      | (Some e, expired) => fail req (if expired : bool then ErrCodeCancelled else ErrCodeVMFailed) e
      | (None, _) => succeed req []
      end
  end.

Definition handleCancel (req : Request) : handler :=
  match (match rq_Params req with None => Some 0 | p => decode dec_cancel p end) with
  | None => invalid_params req
  | Some id => ok ← act (ACancel id); succeed req [("cancelled", JBool ok)]
  end.

Definition handleRequest (req : Request) : handler :=
  let m := rq_Method req in
  if decide (m = "create") then handleCreate req
  else if decide (m = "exec") then handleExec req
  else if decide (m = "exec_stream") then handleExecStream req
  else if decide (m = "exec_pipe") then handleExecPipe req
  else if decide (m = "exec_tty") then handleExecTTY req
  else if decide (m = "exec_pipe.stdin") then handleExecPipeStdin req
  else if decide (m = "exec_pipe.stdin_eof") then handleExecPipeStdinEOF req
  else if decide (m = "exec_tty.stdin") then handleExecTTYStdin req
  else if decide (m = "exec_tty.stdin_eof") then handleExecTTYStdinEOF req
  else if decide (m = "exec_tty.resize") then handleExecTTYResize req
  else if decide (m = "write_file") then handleWriteFile req
  else if decide (m = "read_file") then handleReadFile req
  else if decide (m = "list_files") then handleListFiles req
  else if decide (m = "log") then handleLog req
  else if decide (m = "log_stream") then handleLogStream req
  else if decide (m = "allow_list_add") then handleAllowListAdd req
  else if decide (m = "allow_list_delete") then handleAllowListDelete req
  else if decide (m = "port_forward") then handlePortForward req
  else if decide (m = "network_reset") then handleNetworkReset req
  else if decide (m = "close") then handleClose req
  else fail req ErrCodeMethodNotFound "Method not found".

(** A handler, and the sending of what it returns. *)
Definition respond (p : handler) : prog unit :=
  resp ← p; match resp with Some r => act (ASend r) | None => Ret tt end.

(** The goroutine of a request: its cancel function is registered under its id. *)
Definition request_goroutine (req : Request) : prog unit :=
  match rq_ID req with
  | Some id => _ ← act (ARegister id); _ ← respond (handleRequest req); act (AUnregister id)
  | None => respond (handleRequest req)
  end.

Definition isExecInputMethod (method : string) : bool :=
  bool_decide (method ∈ ["exec_pipe.stdin"; "exec_pipe.stdin_eof"; "exec_tty.stdin"; "exec_tty.stdin_eof"]).

End handlers.

(** ** The state of the handler *)

(** The buffer of a channel of input, and whether it was closed; [cn_sent] are all the chunks that
    were ever put in. *)
Record channel := { cn_queue : list execInputChunk; cn_closed : bool; cn_sent : list execInputChunk }.

Record vm_fields (V : Type) := {
  f_vm : option V; f_lastVMID : string; f_entry : bool; f_pfManager : option nat; f_pfMu : option nat;
  f_made : list V;                       (* the machines the factory made *)
  f_dead : list V;                       (* those that were closed *)
  f_pfOpen : gset nat }.                 (* the port forward managers that are open *)
Arguments f_vm {V}. Arguments f_lastVMID {V}. Arguments f_entry {V}. Arguments f_pfManager {V}. Arguments f_pfMu {V}.
Arguments f_made {V}. Arguments f_dead {V}. Arguments f_pfOpen {V}. Arguments Build_vm_fields {V}.

Record exec_fields := {
  f_execPipes : gmap Z nat; f_execTTYs : gmap Z (nat * nat);
  f_channels : gmap nat channel; f_resizes : gmap nat (list (Z * Z) * bool) }.

(** Requests are numbered in the order they are read; [f_cancelled] are those whose context was
    cancelled, [f_stopped] says that all were. *)
Record run_fields := {
  f_closed : bool; f_stopped : bool; f_cancels : gmap Z nat; f_cancelled : gset nat; f_writeFailed : bool }.

(** A line of output, with the number of the request it is for. *)
Inductive out_line :=
| OutResponse (t : nat) (r : Response)
| OutNotify (t : nat) (params : json)
| OutEvent (event : json).

Record Handler (V : Type) := { h_vm : vm_fields V; h_exec : exec_fields; h_run : run_fields; h_out : list out_line }.
Arguments h_vm {V}. Arguments h_exec {V}. Arguments h_run {V}. Arguments h_out {V}. Arguments Build_Handler {V}.

Definition NewHandler {V} : Handler V := {|
  h_vm := {| f_vm := None; f_lastVMID := ""; f_entry := false; f_pfManager := None; f_pfMu := None;
             f_made := []; f_dead := []; f_pfOpen := ∅ |};
  h_exec := {| f_execPipes := ∅; f_execTTYs := ∅; f_channels := ∅; f_resizes := ∅ |};
  h_run := {| f_closed := false; f_stopped := false; f_cancels := ∅; f_cancelled := ∅; f_writeFailed := false |};
  h_out := [] |}.

Section setters.
Context {V : Type}.
Implicit Types (h : Handler V) (f : vm_fields V).

Definition set_vm f h : Handler V := {| h_vm := f; h_exec := h_exec h; h_run := h_run h; h_out := h_out h |}.
Definition set_exec (e : exec_fields) h : Handler V := {| h_vm := h_vm h; h_exec := e; h_run := h_run h; h_out := h_out h |}.
Definition set_run (r : run_fields) h : Handler V := {| h_vm := h_vm h; h_exec := h_exec h; h_run := r; h_out := h_out h |}.
Definition add_out (l : out_line) h : Handler V :=
  {| h_vm := h_vm h; h_exec := h_exec h; h_run := h_run h; h_out := h_out h ++ [l] |}.

Definition install (v : V) (id : string) (entry : bool) f : vm_fields V :=
  {| f_vm := Some v; f_lastVMID := id; f_entry := entry; f_pfManager := None; f_pfMu := f_pfMu f; f_made := f_made f;
     f_dead := f_dead f; f_pfOpen := match f_pfManager f with Some p => f_pfOpen f ∖ {[p]} | None => f_pfOpen f end |}.
Definition taken f : vm_fields V :=
  {| f_vm := None; f_lastVMID := f_lastVMID f; f_entry := false; f_pfManager := None; f_pfMu := f_pfMu f; f_made := f_made f;
     f_dead := f_dead f; f_pfOpen := f_pfOpen f |}.
Definition made (v : V) f : vm_fields V :=
  {| f_vm := f_vm f; f_lastVMID := f_lastVMID f; f_entry := f_entry f; f_pfManager := f_pfManager f; f_pfMu := f_pfMu f;
     f_made := v :: f_made f; f_dead := f_dead f; f_pfOpen := f_pfOpen f |}.
Definition dead (v : V) f : vm_fields V :=
  {| f_vm := f_vm f; f_lastVMID := f_lastVMID f; f_entry := f_entry f; f_pfManager := f_pfManager f; f_pfMu := f_pfMu f;
     f_made := f_made f; f_dead := v :: f_dead f; f_pfOpen := f_pfOpen f |}.
Definition pf_fields (pf : option nat) (mu : option nat) (opened : gset nat) f : vm_fields V :=
  {| f_vm := f_vm f; f_lastVMID := f_lastVMID f; f_entry := f_entry f; f_pfManager := pf; f_pfMu := mu;
     f_made := f_made f; f_dead := f_dead f; f_pfOpen := opened |}.

Definition set_channel (ch : nat) (c : channel) (e : exec_fields) : exec_fields :=
  {| f_execPipes := f_execPipes e; f_execTTYs := f_execTTYs e; f_channels := <[ch := c]> (f_channels e); f_resizes := f_resizes e |}.
Definition set_pipes (m : gmap Z nat) (e : exec_fields) : exec_fields :=
  {| f_execPipes := m; f_execTTYs := f_execTTYs e; f_channels := f_channels e; f_resizes := f_resizes e |}.
Definition set_ttys (m : gmap Z (nat * nat)) (e : exec_fields) : exec_fields :=
  {| f_execPipes := f_execPipes e; f_execTTYs := m; f_channels := f_channels e; f_resizes := f_resizes e |}.
Definition set_resizes (ch : nat) (q : list (Z * Z)) (closed : bool) (e : exec_fields) : exec_fields :=
  {| f_execPipes := f_execPipes e; f_execTTYs := f_execTTYs e; f_channels := f_channels e;
     f_resizes := <[ch := (q, closed)]> (f_resizes e) |}.

Definition set_cancels (m : gmap Z nat) (r : run_fields) : run_fields :=
  {| f_closed := f_closed r; f_stopped := f_stopped r; f_cancels := m; f_cancelled := f_cancelled r; f_writeFailed := f_writeFailed r |}.
Definition cancel_request (t : nat) (r : run_fields) : run_fields :=
  {| f_closed := f_closed r; f_stopped := f_stopped r; f_cancels := f_cancels r; f_cancelled := {[t]} ∪ f_cancelled r;
     f_writeFailed := f_writeFailed r |}.
Definition close_run (r : run_fields) : run_fields :=
  {| f_closed := true; f_stopped := f_stopped r; f_cancels := f_cancels r; f_cancelled := f_cancelled r; f_writeFailed := f_writeFailed r |}.
(** [stopRun], and [stopRun] after a write that failed. *)
Definition stopRun (r : run_fields) : run_fields :=
  {| f_closed := true; f_stopped := true; f_cancels := f_cancels r; f_cancelled := f_cancelled r; f_writeFailed := f_writeFailed r |}.
Definition write_failed (r : run_fields) : run_fields :=
  {| f_closed := true; f_stopped := true; f_cancels := f_cancels r; f_cancelled := f_cancelled r; f_writeFailed := true |}.

(** Writing a line, under the lock of the output. *)
Definition emit (l : out_line) h h' : Prop := h' = add_out l h ∨ h' = set_run (write_failed (h_run h)) h.
End setters.

Definition notification (id : option Z) (method : string) (data : option bytes) : json :=
  json_object [("jsonrpc", JStr "2.0"); ("method", JStr method);
               ("params", json_object (("id", id_json id) :: match data with Some d => [("data", b64 d)] | None => [] end))].

Definition event_json (event : json) : json :=
  json_object [("jsonrpc", JStr "2.0"); ("method", JStr "event"); ("params", event)].

(** What is printed, and its line. *)
Definition line_json (l : out_line) : json :=
  match l with OutResponse _ r => Response_json r | OutNotify _ j => j | OutEvent e => event_json e end.
Definition line_text (l : out_line) : string := json_print (line_json l) +:+ String (chr 10) "".

(** ** What the actions do

    [t] is the request whose goroutine acts, [used] whether the writers of its job were used. *)

Definition pipe_buffer : nat := 64.
Definition resize_buffer : nat := 16.

(** A send blocks while the buffer is full; on a closed channel it panics, and that is
    recovered from. *)
Definition push_chunk (c : execInputChunk) (ch ch' : channel) : Prop :=
  if cn_closed ch then ch' = ch
  else (length (cn_queue ch) < pipe_buffer)%nat
       ∧ ch' = {| cn_queue := cn_queue ch ++ [c]; cn_closed := false; cn_sent := cn_sent ch ++ [c] |}.

Definition close_channel (ch : channel) : channel := {| cn_queue := cn_queue ch; cn_closed := true; cn_sent := cn_sent ch |}.

Section actions.
Context {V : Type} (cls : vm_class V).
Implicit Types (h : Handler V).

Definition do_action (t : nat) (used : bool * bool) (a : action V) (h : Handler V) : answer a → Handler V → Prop :=
  match a return answer a → Handler V → Prop with
  | AGetVM => λ x h', x = f_vm (h_vm h) ∧ h' = h
  | ACurrentVMID => λ x h', x = match f_vm (h_vm h) with Some v => vm_ID cls v | None => f_lastVMID (h_vm h) end ∧ h' = h
  | ASetClosed => λ _ h', h' = set_run (close_run (h_run h)) h
  | AInstall v entry => λ _ h', h' = set_vm (install v (vm_ID cls v) entry (h_vm h)) h
  | ATake => λ x h', x = (f_vm (h_vm h), f_pfManager (h_vm h), f_entry (h_vm h)) ∧ h' = set_vm (taken (h_vm h)) h
  | ACtxErr => λ x h', x = f_stopped (h_run h) || bool_decide (t ∈ f_cancelled (h_run h)) ∧ h' = h
  | ARegister id => λ _ h', h' = set_run (set_cancels (<[id := t]> (f_cancels (h_run h))) (h_run h)) h
  | AUnregister id => λ _ h', h' = set_run (set_cancels (delete id (f_cancels (h_run h))) (h_run h)) h
  | ACancel id => λ x h',
      match f_cancels (h_run h) !! id with
      | Some t' => x = true ∧ h' = set_run (cancel_request t' (h_run h)) h
      | None => x = false ∧ h' = h
      end
  | AFactory _ => λ x h',
      match x with Ok v => v ∉ f_made (h_vm h) ∧ h' = set_vm (made v (h_vm h)) h | Err _ => h' = h end
  | AClose v _ => λ _ h', h' = set_vm (dead v (h_vm h)) h
  | ARun _ _ => λ x h', jr_out_used x = used.1 ∧ jr_err_used x = used.2 ∧ h' = h
  | APfLock => λ _ h',
      f_pfMu (h_vm h) = None
      ∧ h' = set_vm (pf_fields (f_pfManager (h_vm h)) (Some t) (f_pfOpen (h_vm h)) (h_vm h)) h
  | APfUnlock => λ _ h', h' = set_vm (pf_fields (f_pfManager (h_vm h)) None (f_pfOpen (h_vm h)) (h_vm h)) h
  | APfTake => λ x h',
      x = f_pfManager (h_vm h) ∧ h' = set_vm (pf_fields None (f_pfMu (h_vm h)) (f_pfOpen (h_vm h)) (h_vm h)) h
  | APfClose p => λ _ h',
      h' = set_vm (pf_fields (f_pfManager (h_vm h)) (f_pfMu (h_vm h)) (f_pfOpen (h_vm h) ∖ {[p]}) (h_vm h)) h
  | APfInstall p => λ _ h', h' = set_vm (pf_fields (Some p) (f_pfMu (h_vm h)) (f_pfOpen (h_vm h)) (h_vm h)) h
  | APfStart _ _ _ => λ x h',
      match x with
      | Ok (p, _) =>
          p ∉ f_pfOpen (h_vm h)
          ∧ h' = set_vm (pf_fields (f_pfManager (h_vm h)) (f_pfMu (h_vm h)) ({[p]} ∪ f_pfOpen (h_vm h)) (h_vm h)) h
      | Err _ => h' = h
      end
  | AOpenPipe id => λ ch h',
      f_channels (h_exec h) !! ch = None
      ∧ h' = set_exec (set_pipes (<[id := ch]> (f_execPipes (h_exec h)))
                (set_channel ch {| cn_queue := []; cn_closed := false; cn_sent := [] |} (h_exec h))) h
  | AClosePipe id ch => λ _ h',
      ∃ c, f_channels (h_exec h) !! ch = Some c
      ∧ h' = set_exec (set_pipes (delete id (f_execPipes (h_exec h))) (set_channel ch (close_channel c) (h_exec h))) h
  | AOpenTTY id => λ chs h',
      f_channels (h_exec h) !! chs.1 = None ∧ f_resizes (h_exec h) !! chs.2 = None
      ∧ h' = set_exec (set_ttys (<[id := chs]> (f_execTTYs (h_exec h)))
                (set_resizes chs.2 [] false
                  (set_channel chs.1 {| cn_queue := []; cn_closed := false; cn_sent := [] |} (h_exec h)))) h
  | ACloseTTY id ch rch => λ _ h',
      ∃ c q b, f_channels (h_exec h) !! ch = Some c ∧ f_resizes (h_exec h) !! rch = Some (q, b)
      ∧ h' = set_exec (set_ttys (delete id (f_execTTYs (h_exec h)))
                (set_resizes rch q true (set_channel ch (close_channel c) (h_exec h)))) h
  | ALookupPipe id => λ x h', x = f_execPipes (h_exec h) !! id ∧ h' = h
  | ALookupTTY id => λ x h', x = f_execTTYs (h_exec h) !! id ∧ h' = h
  | APush ch c => λ _ h',
      ∃ cn cn', f_channels (h_exec h) !! ch = Some cn ∧ push_chunk c cn cn' ∧ h' = set_exec (set_channel ch cn' (h_exec h)) h
  | AResize rch size => λ _ h',
      ∃ q closed, f_resizes (h_exec h) !! rch = Some (q, closed)
      ∧ if closed : bool then h' = h
        else (length q < resize_buffer)%nat ∧ h' = set_exec (set_resizes rch (q ++ [size]) false (h_exec h)) h
  | ANotify id method data => λ _ h', emit (OutNotify t (notification id method data)) h h'
  | ASend r => λ _ h', emit (OutResponse t r) h h'
  | _ => λ _ h', h' = h
  end.
End actions.

(** ** Reading the input of a command *)

Inductive read_outcome := ReadBlocked | ReadEOF | ReadData (d : bytes).

(** [execInputReader.Read] into [n] bytes: what comes of it, the buffer, and the queue. Empty
    chunks are passed over; a closed channel is drained first. *)
Fixpoint execInputReader_Read (n : nat) (closed : bool) (buf : bytes) (queue : list execInputChunk)
    : read_outcome * bytes * list execInputChunk :=
  match buf with
  | _ :: _ => (ReadData (take n buf), drop n buf, queue)
  | [] =>
      match queue with
      | [] => (if closed then ReadEOF else ReadBlocked, [], [])
      | c :: queue' =>
          if ck_EOF c then (ReadEOF, [], queue')
          else match ck_Data c with
               | [] => execInputReader_Read n closed [] queue'
               | d => (ReadData (take n d), drop n d, queue')
               end
      end
  end.

(** ** The loop and the goroutines *)

(** A goroutine: what is left of its program; of the job it waits for, the buffer of its input
    reader, what was read, whether its end was seen, and which writers were used. *)
Record goroutine (V : Type) := {
  g_prog : prog V unit; g_buf : bytes; g_read : bytes; g_eof : bool; g_used : bool * bool }.
Arguments g_prog {V}. Arguments g_buf {V}. Arguments g_read {V}. Arguments g_eof {V}. Arguments g_used {V}.
Arguments Build_goroutine {V}.

Definition start {V} (p : prog V unit) : goroutine V :=
  {| g_prog := p; g_buf := []; g_read := []; g_eof := false; g_used := (false, false) |}.

(** Where [Run] is: at [Scan], waiting for the goroutines before create or close, handling
    request [t] itself, or waiting for them at the end. *)
Inductive run_loop (V : Type) :=
| LScan | LWait (t : nat) (req : Request) | LHandle (t : nat) (p : prog V unit) | LStop | LDone.
Arguments LScan {V}. Arguments LWait {V}. Arguments LHandle {V}. Arguments LStop {V}. Arguments LDone {V}.

(** [s_requests]: every line that was read and handled, [None] for one that does not parse;
    [s_dropped]: what was read when the handler was closed, and dropped. *)
Record sys (V : Type) := {
  s_handler : Handler V; s_input : list string; s_loop : run_loop V;
  s_goroutines : gmap nat (goroutine V); s_requests : list (option Request); s_dropped : list string }.
Arguments s_handler {V}. Arguments s_input {V}. Arguments s_loop {V}. Arguments s_goroutines {V}. Arguments s_requests {V}. Arguments s_dropped {V}.
Arguments Build_sys {V}.

Section run.
Context {V : Type} (cls : vm_class V).
Context (config_of_json : json → option Config) (unmarshal_error : option json → string) (error_text : api_error → string).
Context (shellquote_Join : list string → string) (logPathForVM : string → string).

Let handle : Request → prog V (option Response) :=
  handleRequest cls config_of_json unmarshal_error error_text shellquote_Join logPathForVM.

Definition parse_error_response : Response := error_response None ErrCodeParse "Parse error".

Definition parse_request (line : string) : option Request := json_parse line ≫= Request_of_json.

(** What the loop does with a line that is not empty. *)
Definition handle_line (line : string) (t : nat) : option Request * (run_loop V + goroutine V) :=
  match parse_request line with
  | None => (None, inl (LHandle t (act (ASend parse_error_response))))
  | Some req =>
      (Some req,
       if decide (rq_Method req = "cancel") then inl (LHandle t (respond (handleCancel unmarshal_error req)))
       else if decide (rq_Method req = "create" ∨ rq_Method req = "close") then inl (LWait t req)
       else if isExecInputMethod (rq_Method req) then inl (LHandle t (respond (handle req)))
       else inr (start (request_goroutine cls config_of_json unmarshal_error error_text shellquote_Join logPathForVM req)))
  end.

Definition with_handler (h : Handler V) (s : sys V) : sys V :=
  {| s_handler := h; s_input := s_input s; s_loop := s_loop s; s_goroutines := s_goroutines s; s_requests := s_requests s; s_dropped := s_dropped s |}.
Definition with_loop (l : run_loop V) (s : sys V) : sys V :=
  {| s_handler := s_handler s; s_input := s_input s; s_loop := l; s_goroutines := s_goroutines s; s_requests := s_requests s; s_dropped := s_dropped s |}.
Definition with_goroutine (t : nat) (g : goroutine V) (s : sys V) : sys V :=
  {| s_handler := s_handler s; s_input := s_input s; s_loop := s_loop s; s_goroutines := <[t := g]> (s_goroutines s);
     s_requests := s_requests s; s_dropped := s_dropped s |}.
Definition without_goroutine (t : nat) (s : sys V) : sys V :=
  {| s_handler := s_handler s; s_input := s_input s; s_loop := s_loop s; s_goroutines := delete t (s_goroutines s);
     s_requests := s_requests s; s_dropped := s_dropped s |}.

Definition run_of (s : sys V) : run_fields := h_run (s_handler s).
Definition stop (s : sys V) : sys V := with_handler (set_run (stopRun (run_of s)) (s_handler s)) (with_loop LStop s).

(** A line is taken from the input. *)
Definition read_line (lines : list string) (l : run_loop V) (req : option (option Request)) (s : sys V) : sys V :=
  {| s_handler := s_handler s; s_input := lines; s_loop := l; s_goroutines := s_goroutines s;
     s_requests := s_requests s ++ (match req with Some r => [r] | None => [] end); s_dropped := s_dropped s |}.

Definition drop_line (line : string) (lines : list string) (s : sys V) : sys V :=
  {| s_handler := s_handler s; s_input := lines; s_loop := s_loop s; s_goroutines := s_goroutines s;
     s_requests := s_requests s; s_dropped := s_dropped s ++ [line] |}.

(** Steps of the loop. The input is at its end also when [stopRun] has closed it. *)
Inductive loop_step : sys V → sys V → Prop :=
| StepEOF s :
    s_loop s = LScan → s_input s = [] ∨ f_stopped (run_of s) = true → loop_step s (stop s)
| StepClosed s line lines :
    s_loop s = LScan → s_input s = line :: lines → f_closed (run_of s) = true →
    loop_step s (stop (drop_line line lines s))
| StepEmptyLine s lines :
    s_loop s = LScan → s_input s = "" :: lines → f_closed (run_of s) = false → loop_step s (read_line lines LScan None s)
| StepLine s line lines req l :
    s_loop s = LScan → s_input s = line :: lines → line ≠ "" → f_closed (run_of s) = false →
    handle_line line (length (s_requests s)) = (req, inl l) → loop_step s (read_line lines l (Some req) s)
| StepSpawn s line lines req g :
    s_loop s = LScan → s_input s = line :: lines → line ≠ "" → f_closed (run_of s) = false →
    handle_line line (length (s_requests s)) = (req, inr g) →
    loop_step s (with_goroutine (length (s_requests s)) g (read_line lines LScan (Some req) s))
| StepWaited s t req :
    s_loop s = LWait t req → s_goroutines s = ∅ → loop_step s (with_loop (LHandle t (respond (handle req))) s)
| StepHandle s t a k x h' :
    s_loop s = LHandle t (Act a k) → do_action cls t (false, false) a (s_handler s) x h' →
    loop_step s (with_handler h' (with_loop (LHandle t (k x)) s))
| StepHandled s t :
    s_loop s = LHandle t (Ret tt) → loop_step s (with_loop LScan s)
| StepAllDone s :
    s_loop s = LStop → s_goroutines s = ∅ → loop_step s (with_loop LDone s).

(** The writer of a job, its method, and the flag it sets. *)
Definition job_writer (io : job_io) (err : bool) : option string := if err then jo_stderr io else jo_stdout io.
Definition mark_used (err : bool) (u : bool * bool) : bool * bool := if err then (u.1, true) else (true, u.2).

(** Steps of the goroutine of request [t]: its actions; while it waits for a job, what the job
    does with its writers and its input; and its end. *)
Inductive goroutine_step (t : nat) : sys V → sys V → Prop :=
| StepAct s g a k x h' :
    s_goroutines s !! t = Some g → g_prog g = Act a k → do_action cls t (g_used g) a (s_handler s) x h' →
    goroutine_step t s
      (with_handler h' (with_goroutine t
         {| g_prog := k x; g_buf := g_buf g; g_read := g_read g; g_eof := g_eof g; g_used := g_used g |} s))
| StepWrite s g j io k (err : bool) method data id h' :
    s_goroutines s !! t = Some g → g_prog g = Act (ARun j io) k → job_writer io err = Some method →
    (rq_ID <$> (default None (s_requests s !! t))) = Some id →
    emit (OutNotify t (notification id method (Some data))) (s_handler s) h' →
    goroutine_step t s
      (with_handler h' (with_goroutine t
         {| g_prog := g_prog g; g_buf := g_buf g; g_read := g_read g; g_eof := g_eof g; g_used := mark_used err (g_used g) |} s))
| StepRead s g j io k ch cn n out buf queue :
    s_goroutines s !! t = Some g → g_prog g = Act (ARun j io) k → jo_stdin io = Some ch →
    f_channels (h_exec (s_handler s)) !! ch = Some cn → g_eof g = false →
    execInputReader_Read n (cn_closed cn) (g_buf g) (cn_queue cn) = (out, buf, queue) →
    goroutine_step t s
      (with_handler
         (set_exec (set_channel ch {| cn_queue := queue; cn_closed := cn_closed cn; cn_sent := cn_sent cn |}
                      (h_exec (s_handler s))) (s_handler s))
         (with_goroutine t
            {| g_prog := g_prog g; g_buf := buf;
               g_read := g_read g ++ match out with ReadData d => d | _ => [] end;
               g_eof := match out with ReadEOF => true | _ => false end; g_used := g_used g |} s))
| StepReadCancelled s g j io k ch :
    s_goroutines s !! t = Some g → g_prog g = Act (ARun j io) k → jo_stdin io = Some ch → g_buf g = [] →
    f_stopped (run_of s) || bool_decide (t ∈ f_cancelled (run_of s)) = true →
    goroutine_step t s
      (with_goroutine t
         {| g_prog := g_prog g; g_buf := []; g_read := g_read g; g_eof := true; g_used := g_used g |} s)
| StepResize s g j io k rch q closed size :
    s_goroutines s !! t = Some g → g_prog g = Act (ARun j io) k → jo_resize io = Some rch →
    f_resizes (h_exec (s_handler s)) !! rch = Some (size :: q, closed) →
    goroutine_step t s
      (with_handler (set_exec (set_resizes rch q closed (h_exec (s_handler s))) (s_handler s)) s)
| StepEnd s g :
    s_goroutines s !! t = Some g → g_prog g = Ret tt → goroutine_step t s (without_goroutine t s).

(** An event of the machine is printed, unless the run was stopped. *)
Inductive event_step : sys V → sys V → Prop :=
| StepEvent s event h' :
    f_stopped (run_of s) = false → emit (OutEvent event) (s_handler s) h' → event_step s (with_handler h' s).

Definition rpc_step (s s' : sys V) : Prop :=
  loop_step s s' ∨ (∃ t, goroutine_step t s s') ∨ event_step s s'.

Definition rpc_init (lines : list string) : sys V :=
  {| s_handler := NewHandler; s_input := lines; s_loop := LScan; s_goroutines := ∅; s_requests := []; s_dropped := [] |}.

Definition rpc_run (lines : list string) : sys V → Prop := rtc rpc_step (rpc_init lines).
End run.
