(* ===== verification/RpcSpec.v ===== *)
(** * Every request of the JSON-RPC handler is answered once

    An invariant of runs: what was answered to each request, and what is left of its program,
    which sends its answer or, for input, none. *)

From S2P Require Import Prelude GoStrings GoStd GoJson GoJsonSpec GoNet Api ApiConfig Wire Exec Rpc.

(** ** Programs

    What holds of all the actions and results of a program, whatever the answers are. *)

Section programs.
Context {V : Type}.

(** No response is sent, and every result satisfies [Q]. *)
Fixpoint handles {A} (Q : A → Prop) (p : prog V A) : Prop :=
  match p with
  | Ret a => Q a
  | Act a k => (match a with ASend _ => False | _ => True end) ∧ ∀ x, handles Q (k x)
  end.

Abbreviation silent := (handles (λ _, True)) (only parsing).

(** Exactly one response is sent, under this id. *)
Fixpoint sends_one {A} (id : option Z) (p : prog V A) : Prop :=
  match p with
  | Ret _ => False
  | Act a k =>
      match a with
      | ASend r => rp_ID r = id ∧ ∀ x, handles (λ _, True) (k x)
      | _ => ∀ x, sends_one id (k x)
      end
  end.

Lemma handles_bind {A B} (Q : A → Prop) (R : B → Prop) (p : prog V A) (f : A → prog V B) :
  handles Q p → (∀ a, Q a → handles R (f a)) → handles R (p ≫= f).
Proof.
  intros Hp Hf. unfold mbind, prog_mbind. induction p as [a|a k IH]; [by apply Hf|].
  destruct Hp as [Ha Hk]. split; [exact Ha|]. intros x. apply IH, Hk.
Qed.

Lemma handles_weaken {A} (Q R : A → Prop) (p : prog V A) : (∀ a, Q a → R a) → handles Q p → handles R p.
Proof. intros HQ. induction p as [a|a k IH]; cbn [handles]; [auto|]. intros [Ha Hk]. split; [exact Ha|]. eauto. Qed.

Lemma sends_one_bind {A B} id (Q : A → Prop) (p : prog V A) (f : A → prog V B) :
  handles Q p → (∀ a, Q a → sends_one id (f a)) → sends_one id (p ≫= f).
Proof.
  intros Hp Hf. unfold mbind, prog_mbind. induction p as [a|a k IH]; [by apply Hf|].
  destruct Hp as [Ha Hk]. cbn [prog_bind sends_one]. destruct a; first [by destruct Ha|intros x; apply IH, Hk].
Qed.

Lemma sends_one_then {A B} id (p : prog V A) (f : A → prog V B) :
  sends_one id p → (∀ a, handles (λ _, True) (f a)) → sends_one id (p ≫= f).
Proof.
  intros Hp Hf. unfold mbind, prog_mbind. induction p as [a|a k IH]; [done|].
  cbn [prog_bind sends_one] in *. destruct a; try (intros x; apply IH, Hp).
  destruct Hp as [Hid Hk]. split; [exact Hid|]. intros x. exact (handles_bind _ _ _ _ (Hk x) (λ a _, Hf a)).
Qed.

(** A handler's result is a response to its request. *)
Definition replies (req : Request) (r : option Response) : Prop := ∃ resp, r = Some resp ∧ rp_ID resp = rq_ID req.

Lemma respond_replies req (p : prog V (option Response)) : handles (replies req) p → sends_one (rq_ID req) (respond p).
Proof. intros Hp. unfold respond. eapply sends_one_bind; [exact Hp|]. intros r (resp & -> & Hid). by split. Qed.

Lemma respond_silent (p : prog V (option Response)) : handles (λ r, r = None) p → handles (λ _, True) (respond p).
Proof. intros Hp. unfold respond. eapply handles_bind; [exact Hp|]. by intros r ->. Qed.
End programs.

(** Goes through a handler: its actions, and the cases of its code. *)
Ltac handler_step :=
  match goal with
  | |- handles _ (act _ ≫= _) => split; [exact I|intros ?; unfold prog_mbind; cbn [prog_bind]]
  | |- handles _ (act _) => split; [exact I|intros ?]
  | |- handles _ (Act _ _) => split; [exact I|intros ?]
  | |- handles _ (prog_bind _ (Ret _)) => cbn [prog_bind]
  | |- handles _ (prog_bind ?f ?p) => change (prog_bind f p) with (p ≫= f)
  | |- handles _ (match ?x with _ => _ end) => destruct x
  | |- handles _ (if ?x then _ else _) => destruct x
  | |- handles _ (let '(_, _) := ?x in _) => destruct x
  end.

(** ** Every request is answered once *)

Section answers.
Context {V : Type} (cls : vm_class V).
Context (config_of_json : json → option Config) (unmarshal_error : option json → string) (error_text : api_error → string).
Context (shellquote_Join : list string → string) (logPathForVM : string → string).

Abbreviation handle := (handleRequest cls config_of_json unmarshal_error error_text shellquote_Join logPathForVM).

Lemma fail_replies req code e : handles (replies req) (fail (V := V) req code e).
Proof. eexists. by split. Qed.
Lemma succeed_replies req l : handles (replies req) (succeed (V := V) req l).
Proof. eexists. by split. Qed.
Lemma job_failed_replies req code e : handles (replies req) (job_failed (V := V) req code e).
Proof. unfold job_failed. handler_step. destruct x; apply fail_replies. Qed.

Lemma with_vm_replies req (k : V → prog V (option Response)) :
  (∀ vm, handles (replies req) (k vm)) → handles (replies req) (with_vm req k).
Proof. intros Hk. unfold with_vm. handler_step. destruct x; [apply Hk|apply fail_replies]. Qed.

Lemma with_params_replies {T} dec req (k : T → prog V (option Response)) :
  (∀ params, handles (replies req) (k params)) → handles (replies req) (with_params unmarshal_error dec req k).
Proof. intros Hk. unfold with_params. destruct (decode _ _); [apply Hk|apply fail_replies]. Qed.

Lemma streamed_result_replies req pre r : handles (replies req) (streamed_result (V := V) req pre r).
Proof.
  unfold streamed_result. destruct (jr_result r) as [[result ms]|e]; [|apply job_failed_replies].
  eapply (handles_bind (λ _, True)); [unfold send_rest; by repeat handler_step|intros _ _].
  eapply (handles_bind (λ _, True)); [unfold send_rest; by repeat handler_step|intros _ _]. apply succeed_replies.
Qed.

(** A handler that goes on with a reply it has. *)
Lemma reply_then req (p : prog V (option Response)) f :
  handles (replies req) p → (∀ r, replies req r → handles (replies req) (f r)) → handles (replies req) (p ≫= f).
Proof. apply handles_bind. Qed.

(** Actions whose results do not matter. *)
Lemma act_then {A B} (Q : B → Prop) (p : prog V A) f :
  handles (λ _, True) p → (∀ a, handles Q (f a)) → handles Q (p ≫= f).
Proof. intros Hp Hf. eapply handles_bind; [exact Hp|auto]. Qed.

(** What ends a handler, its usual beginnings, and the cases of its code. *)
Ltac reply_step :=
  first [assumption | apply fail_replies | apply succeed_replies | apply job_failed_replies | apply streamed_result_replies
        | apply with_vm_replies; intros ? | apply with_params_replies; intros ? | handler_step
        | apply reply_then; [|intros ? ?] | apply act_then; [by repeat handler_step|intros ?]].
Ltac reply := repeat reply_step.

Lemma handleCreate_replies req :
  handles (replies req) (handleCreate cls config_of_json unmarshal_error error_text shellquote_Join req).
Proof.
  unfold handleCreate, invalid_params, discard, startImageEntrypoint. reply.
Qed.
Lemma handleExec_replies req : handles (replies req) (handleExec (V := V) unmarshal_error req).
Proof. unfold handleExec. reply. Qed.
Lemma handleExecStream_replies req : handles (replies req) (handleExecStream (V := V) unmarshal_error req).
Proof. unfold handleExecStream. reply. Qed.
Lemma handleExecPipe_replies req : handles (replies req) (handleExecPipe (V := V) unmarshal_error req).
Proof. unfold handleExecPipe. reply. Qed.
Lemma handleExecTTY_replies req : handles (replies req) (handleExecTTY cls unmarshal_error req).
Proof. unfold handleExecTTY. reply. Qed.
Lemma handleWriteFile_replies req : handles (replies req) (handleWriteFile (V := V) unmarshal_error req).
Proof. unfold handleWriteFile. reply. Qed.
Lemma handleReadFile_replies req : handles (replies req) (handleReadFile (V := V) unmarshal_error req).
Proof. unfold handleReadFile. reply. Qed.
Lemma handleListFiles_replies req : handles (replies req) (handleListFiles (V := V) unmarshal_error req).
Proof. unfold handleListFiles. reply. Qed.
Lemma handleLog_replies req : handles (replies req) (handleLog (V := V) logPathForVM req).
Proof. unfold handleLog. reply. Qed.
Lemma handleLogStream_replies req : handles (replies req) (handleLogStream (V := V) logPathForVM req).
Proof. unfold handleLogStream. reply. Qed.
Lemma handleAllowListUpdate_replies add req : handles (replies req) (handleAllowListUpdate (V := V) unmarshal_error add req).
Proof. unfold handleAllowListUpdate. reply. Qed.
Lemma handleNetworkReset_replies req : handles (replies req) (handleNetworkReset cls req).
Proof. unfold handleNetworkReset. reply. Qed.
Lemma handlePortForward_replies req : handles (replies req) (handlePortForward cls unmarshal_error req).
Proof. unfold handlePortForward. reply. Qed.
Lemma handleClose_replies req : handles (replies req) (handleClose (V := V) req).
Proof. unfold handleClose. reply. Qed.
Lemma handleCancel_replies req : handles (replies req) (handleCancel (V := V) unmarshal_error req).
Proof. unfold handleCancel, invalid_params. reply. Qed.

(** The methods that are answered: all but input. *)
Definition silent_methods : list string :=
  ["exec_pipe.stdin"; "exec_pipe.stdin_eof"; "exec_tty.stdin"; "exec_tty.stdin_eof"; "exec_tty.resize"].

Lemma handle_replies req : rq_Method req ∉ silent_methods → handles (replies req) (handle req).
Proof.
  intros Hm. assert (bool_decide (rq_Method req ∈ silent_methods) = false) as Hm' by (by apply bool_decide_eq_false_2). clear Hm; rename Hm' into Hm. unfold handleRequest.
  repeat (match goal with |- handles _ (if decide (rq_Method req = ?m) then _ else _) => destruct (decide (rq_Method req = m)) as [Heq|_] end;
    [first [by (exfalso; match goal with H : bool_decide _ = _ |- _ => rewrite Heq in H; vm_compute in H end)
           | apply handleCreate_replies | apply handleExec_replies | apply handleExecStream_replies | apply handleExecPipe_replies
           | apply handleExecTTY_replies | apply handleWriteFile_replies | apply handleReadFile_replies
           | apply handleListFiles_replies | apply handleLog_replies | apply handleLogStream_replies
           | apply handleAllowListUpdate_replies | apply handlePortForward_replies | apply handleNetworkReset_replies
           | apply handleClose_replies]|]).
  apply fail_replies.
Qed.

Lemma handle_silent req : rq_Method req ∈ silent_methods → handles (λ r, r = None) (handle req).
Proof.
  intros Hm. assert (bool_decide (rq_Method req ∈ silent_methods) = true) as Hm' by (by apply bool_decide_eq_true_2). unfold handleRequest.
  repeat (match goal with |- handles _ (if decide (rq_Method req = ?m) then _ else _) => destruct (decide (rq_Method req = m)) as [Heq|?] end;
    [first [by (exfalso; match goal with H : bool_decide _ = _ |- _ => rewrite Heq in H; vm_compute in H end)
           | clear; unfold handleExecPipeStdin, handleExecPipeStdinEOF, handleExecTTYStdin, handleExecTTYStdinEOF, handleExecTTYResize;
             by repeat handler_step]|]).
  exfalso. unfold silent_methods in Hm. set_unfold in Hm. tauto.
Qed.

(** What a request is answered with. A line that does not parse is answered, without an id. *)
Definition answered (r : option Request) : bool :=
  match r with Some req => negb (bool_decide (rq_Method req ∈ silent_methods)) | None => true end.
Definition request_id (r : option Request) : option Z := r ≫= rq_ID.

(** A program for a request: it sends its answer, or the request has none. *)
Definition program_of (r : option Request) (p : prog V unit) : Prop :=
  if answered r then sends_one (request_id r) p else handles (λ _, True) p.

Lemma respond_program req : program_of (Some req) (respond (handle req)).
Proof.
  unfold program_of, answered. destruct (bool_decide_reflect (rq_Method req ∈ silent_methods)) as [Hm|Hm]; cbn [negb].
  - by apply respond_silent, handle_silent.
  - by apply respond_replies, handle_replies.
Qed.

Lemma goroutine_program req :
  program_of (Some req) (request_goroutine cls config_of_json unmarshal_error error_text shellquote_Join logPathForVM req).
Proof.
  pose proof (respond_program req) as Hr. unfold request_goroutine. destruct (rq_ID req) as [id|] eqn:Hid; [|done].
  unfold program_of in *. destruct (answered (Some req)).
  - eapply (sends_one_bind _ (λ _, True)); [by split|]. intros _ _. eapply sends_one_then; [exact Hr|]. intros _. by split.
  - eapply act_then; [by split|]. intros _. eapply act_then; [exact Hr|]. intros _. by split.
Qed.

Abbreviation line_handler := (handle_line cls config_of_json unmarshal_error error_text shellquote_Join logPathForVM).

(** What becomes of a line. *)
Lemma handle_line_spec line t req x :
  line_handler line t = (req, x) →
  match x with
  | inl (LHandle t' p) => t' = t ∧ program_of req p
  | inl (LWait t' r) => t' = t ∧ req = Some r
  | inl _ => False
  | inr g => program_of req (g_prog g)
  end.
Proof.
  unfold handle_line. destruct (parse_request line) as [r|]; [|intros [= <- <-]; split; [done|by split]].
  intros [= <- <-]. destruct (decide (rq_Method r = "cancel")) as [Hc|_].
  - split; [done|]. unfold program_of, answered. rewrite Hc. cbn. apply respond_replies, handleCancel_replies.
  - destruct (decide _); [by split|]. destruct (isExecInputMethod _).
    + split; [done|apply respond_program].
    + apply goroutine_program.
Qed.
End answers.

(** ** The invariant of the output *)

(** The cases of what an action does. *)
Ltac action_cases :=
  repeat match goal with
  | H : ∃ _, _ |- _ => destruct H
  | H : _ ∧ _ |- _ => destruct H
  | H : (match ?x with _ => _ end) |- _ => destruct x eqn:?
  end.

Section output.
Context {V : Type}.

Definition response_of (t : nat) (l : out_line) : option Response :=
  match l with OutResponse t' r => if decide (t' = t) then Some r else None | _ => None end.

(** What was answered to request [t]. *)
Definition responses (t : nat) (out : list out_line) : list Response := omap (response_of t) out.

Lemma responses_snoc t out l : responses t (out ++ [l]) = responses t out ++ match response_of t l with Some r => [r] | None => [] end.
Proof. unfold responses. rewrite omap_app. cbn. by destruct (response_of t l). Qed.

(** The response that an action of request [t'] sends to request [t]. *)
Definition sent_by (t t' : nat) (a : action V) : list Response :=
  match a with ASend r => if decide (t' = t) then [r] else [] | _ => [] end.

(** The output only grows, by what is sent, unless a write failed. *)
Lemma emit_responses t l (h h' : Handler V) :
  emit l h h' →
  (f_writeFailed (h_run h) = true → f_writeFailed (h_run h') = true)
  ∧ (responses t (h_out h') = responses t (h_out h) ++ match response_of t l with Some r => [r] | None => [] end
     ∨ responses t (h_out h') = responses t (h_out h) ∧ f_writeFailed (h_run h') = true).
Proof.
  intros [-> | ->]; (split; [done|]).
  - left. apply responses_snoc.
  - by right.
Qed.

Lemma do_action_responses (cls : vm_class V) t t' used a h x h' :
  do_action cls t' used a h x h' →
  (f_writeFailed (h_run h) = true → f_writeFailed (h_run h') = true)
  ∧ (responses t (h_out h') = responses t (h_out h) ++ sent_by t t' a
     ∨ responses t (h_out h') = responses t (h_out h) ∧ f_writeFailed (h_run h') = true).
Proof.
  assert (Hsame : h_out h' = h_out h → f_writeFailed (h_run h') = f_writeFailed (h_run h) → sent_by t t' a = [] →
    (f_writeFailed (h_run h) = true → f_writeFailed (h_run h') = true)
    ∧ (responses t (h_out h') = responses t (h_out h) ++ sent_by t t' a
       ∨ responses t (h_out h') = responses t (h_out h) ∧ f_writeFailed (h_run h') = true)).
  { intros -> -> ->. split; [done|]. left. by rewrite app_nil_r. }
  destruct a; cbn [do_action]; intros Hdo; try (apply (emit_responses t) in Hdo; cbn [response_of sent_by] in *; by try destruct (decide (t' = t)));
    (apply Hsame; [..|reflexivity]); action_cases; by simplify_eq.
Qed.

(** How a request stands: it has a program to run that will answer it, or it was answered (or
    the answer was lost in a write that failed), or it is not answered at all. *)
Definition answered_once (lost : bool) (rs : list Response) (r : option Request) : Prop :=
  if answered r
  then (∃ resp, rs = [resp] ∧ rp_ID resp = request_id r) ∨ rs = [] ∧ lost = true
  else rs = [].

Definition status (lost : bool) (rs : list Response) (r : option Request) (p : option (prog V unit)) : Prop :=
  match p with
  | Some p => answered r = true ∧ sends_one (request_id r) p ∧ rs = [] ∨ handles (λ _, True) p ∧ answered_once lost rs r
  | None => answered_once lost rs r
  end.

Lemma answered_once_mono lost lost' rs r : answered_once lost rs r → (lost = true → lost' = true) → answered_once lost' rs r.
Proof. unfold answered_once. destruct (answered r); naive_solver. Qed.

Lemma status_mono lost lost' rs r p : status lost rs r p → (lost = true → lost' = true) → status lost' rs r p.
Proof. destruct p; cbn [status]; [|by apply answered_once_mono]. intros [?|[? ?]] ?; [by left|right]. eauto using answered_once_mono. Qed.

Lemma status_start lost r p : program_of r p → status lost [] r (Some p).
Proof. unfold program_of, status, answered_once. destruct (answered r); [left|right]; by split_and!. Qed.

Lemma status_ret lost rs r : status lost rs r (Some (Ret tt)) → status lost rs r None.
Proof. by intros [(_ & [] & _)|[_ ?]]. Qed.

Lemma status_act lost lost' rs rs' r t a k x :
  status lost rs r (Some (Act a k)) → (lost = true → lost' = true) →
  rs' = rs ++ sent_by t t a ∨ rs' = rs ∧ lost' = true → status lost' rs' r (Some (k x)).
Proof.
  intros [(Hr & Hs & ->)|[[Ha Hk] Ho]] Hl Hrs.
  - destruct a; cbn [sends_one sent_by app] in Hs, Hrs;
      try (left; split_and!; [done|apply Hs|by destruct Hrs as [|[? _]]]).
    destruct Hs as [Hid Hk]. right. split; [apply Hk|]. unfold answered_once. rewrite Hr. rewrite decide_True in Hrs by done.
    destruct Hrs as [-> | [-> ?]]; [left; by eexists|by right].
  - right. split; [apply Hk|]. destruct Hrs as [-> | [-> _]]; [|by eapply answered_once_mono].
    destruct a; cbn [sent_by]; try (rewrite app_nil_r; by eapply answered_once_mono). done.
Qed.
End output.

(** ** Runs *)

Section runs.
Context {V : Type} (cls : vm_class V).
Context (config_of_json : json → option Config) (unmarshal_error : option json → string) (error_text : api_error → string).
Context (shellquote_Join : list string → string) (logPathForVM : string → string).

Abbreviation handle := (handleRequest cls config_of_json unmarshal_error error_text shellquote_Join logPathForVM).
Abbreviation step := (rpc_step cls config_of_json unmarshal_error error_text shellquote_Join logPathForVM).
Abbreviation loop_step := (loop_step cls config_of_json unmarshal_error error_text shellquote_Join logPathForVM).
Abbreviation run := (rpc_run cls config_of_json unmarshal_error error_text shellquote_Join logPathForVM).

Definition output (s : sys V) : list out_line := h_out (s_handler s).
Definition lost (s : sys V) : bool := f_writeFailed (run_of s).

(** What is left to do for request [t], by the loop or by a goroutine. *)
Definition loop_prog (l : run_loop V) : option (nat * prog V unit) :=
  match l with LHandle t p => Some (t, p) | LWait t req => Some (t, respond (handle req)) | _ => None end.

Definition prog_of (s : sys V) (t : nat) : option (prog V unit) :=
  match loop_prog (s_loop s) with
  | Some (t', p) => if decide (t' = t) then Some p else g_prog <$> s_goroutines s !! t
  | None => g_prog <$> s_goroutines s !! t
  end.

Record output_inv (s : sys V) : Prop := {
  oi_goroutines : ∀ t g, s_goroutines s !! t = Some g → (t < length (s_requests s))%nat;
  oi_loop : ∀ t p, loop_prog (s_loop s) = Some (t, p) → (t < length (s_requests s))%nat ∧ s_goroutines s !! t = None;
  oi_fresh : ∀ t, (length (s_requests s) <= t)%nat → responses t (output s) = [];
  oi_status : ∀ t r, s_requests s !! t = Some r → status (lost s) (responses t (output s)) r (prog_of s t) }.

(** What a step does to the programs and the output, when only request [t] moves. *)
Lemma output_inv_move s s' t :
  output_inv s → s_requests s' = s_requests s →
  (∀ u g, s_goroutines s' !! u = Some g → (u < length (s_requests s))%nat) →
  (∀ u p, loop_prog (s_loop s') = Some (u, p) → (u < length (s_requests s))%nat ∧ s_goroutines s' !! u = None) →
  (∀ u, u ≠ t → prog_of s' u = prog_of s u) →
  (lost s = true → lost s' = true) →
  (∀ u, u ≠ t → responses u (output s') = responses u (output s)) →
  (∀ r, s_requests s !! t = Some r → status (lost s) (responses t (output s)) r (prog_of s t) →
        status (lost s') (responses t (output s')) r (prog_of s' t)) →
  ((length (s_requests s) <= t)%nat → responses t (output s') = []) →
  output_inv s'.
Proof.
  intros [Hg Hl Hf Hs] Hreq Hg' Hl' Hp Hlost Ho Hst Hft. split; rewrite Hreq; [done..| |].
  - intros u Hu. destruct (decide (u = t)) as [->|]; [auto|]. rewrite Ho by done. auto.
  - intros u r Hu. destruct (decide (u = t)) as [->|Hne]; [auto|]. rewrite Ho, Hp by done. eapply status_mono; eauto.
Qed.

(** A step that changes neither programs nor answers. *)
Lemma output_inv_frame s s' :
  output_inv s → s_requests s' = s_requests s → loop_prog (s_loop s') = loop_prog (s_loop s) →
  (∀ u, g_prog <$> s_goroutines s' !! u = g_prog <$> s_goroutines s !! u) →
  (lost s = true → lost s' = true) → (∀ u, responses u (output s') = responses u (output s)) → output_inv s'.
Proof.
  intros [Hg Hl Hf Hs] Hreq Hloop Hgs Hlost Ho.
  assert (Hnone : ∀ u, s_goroutines s' !! u = None ↔ s_goroutines s !! u = None).
  { intros u. specialize (Hgs u). destruct (s_goroutines s' !! u), (s_goroutines s !! u); naive_solver. }
  split; rewrite Hreq.
  - intros u g Hu. specialize (Hgs u). rewrite Hu in Hgs. destruct (s_goroutines s !! u) eqn:Hu'; [|done]. eauto.
  - intros u p. rewrite Hloop, Hnone. apply Hl.
  - intros u Hu. rewrite Ho. auto.
  - intros u r Hu. rewrite Ho. assert (prog_of s' u = prog_of s u) as -> by (unfold prog_of; by rewrite Hloop, Hgs).
    eapply status_mono; eauto.
Qed.

Lemma sent_by_other u t (a : action V) : u ≠ t → sent_by u t a = [].
Proof. intros Hne. destruct a; try done. cbn [sent_by]. by rewrite decide_False. Qed.

(** The action of a program for request [t], by whom ever. *)
Lemma output_inv_act s s' t used a (k : answer a → prog V unit) x h' :
  output_inv s → prog_of s t = Some (Act a k) → (t < length (s_requests s))%nat →
  do_action cls t used a (s_handler s) x h' → s_handler s' = h' → s_requests s' = s_requests s →
  (∀ u g, s_goroutines s' !! u = Some g → (u < length (s_requests s))%nat) →
  (∀ u p, loop_prog (s_loop s') = Some (u, p) → (u < length (s_requests s))%nat ∧ s_goroutines s' !! u = None) →
  (∀ u, u ≠ t → prog_of s' u = prog_of s u) → prog_of s' t = Some (k x) → output_inv s'.
Proof.
  intros Hinv Hpt Ht Hdo Hh' Hreq Hg Hl Hu Hpt'. subst h'.
  assert (Hresp : ∀ u, _) by (intros u; exact (do_action_responses cls u t used a _ x _ Hdo)).
  eapply (output_inv_move s s' t); [done..| | | |].
  - exact (proj1 (Hresp t)).
  - intros u Hne. unfold output. destruct (Hresp u) as [_ [-> | [-> _]]]; [|done]. rewrite sent_by_other by done. apply app_nil_r.
  - intros r Hr. rewrite Hpt, Hpt'. intros Hs. destruct (Hresp t) as [Hm Hc]. by eapply status_act.
  - intros. lia.
Qed.

(** A line that is read becomes the program of a new request. *)
Lemma output_inv_line s line lines req l :
  output_inv s → s_loop s = LScan →
  handle_line cls config_of_json unmarshal_error error_text shellquote_Join logPathForVM line (length (s_requests s)) = (req, inl l) →
  output_inv (read_line lines l (Some req) s).
Proof.
  intros [Hg Hl Hf Hs] Hscan Hline. pose proof (handle_line_spec _ _ _ _ _ _ _ _ _ _ Hline) as Hspec.
  set (n := length (s_requests s)) in *.
  assert (Hn : s_goroutines s !! n = None). { destruct (s_goroutines s !! n) eqn:Hgn; [|done]. apply Hg in Hgn. lia. }
  assert (Hp : ∃ p, loop_prog l = Some (n, p) ∧ program_of req p).
  { destruct l as [|t r|t p| |]; try done; destruct Hspec as [-> Hr]; [|by exists p].
    subst req. eexists. split; [done|apply respond_program]. }
  destruct Hp as (p & Hlp & Hp). split; cbn [s_requests s_goroutines s_loop read_line]; rewrite ?length_app; cbn [length]; fold n.
  - intros t g Ht%Hg. lia.
  - intros t q. rewrite Hlp. intros [= <- <-]. split; [lia|done].
  - intros t Ht. apply Hf. lia.
  - intros t r Ht. unfold prog_of. cbn [s_loop read_line s_goroutines]. rewrite Hlp.
    change (output (read_line lines l (Some req) s)) with (output s). change (lost (read_line lines l (Some req) s)) with (lost s).
    destruct (decide (n = t)) as [<-|Hne].
    + rewrite lookup_app_r, Nat.sub_diag in Ht by (unfold n; lia). injection Ht as <-. rewrite Hf by lia. by apply status_start.
    + assert (t < n)%nat by (apply lookup_lt_Some in Ht; rewrite length_app in Ht; cbn in Ht; lia).
      rewrite lookup_app_l in Ht by done. apply Hs in Ht. unfold prog_of in Ht. rewrite Hscan in Ht. exact Ht.
Qed.

Lemma output_inv_spawn s line lines req g :
  output_inv s → s_loop s = LScan →
  handle_line cls config_of_json unmarshal_error error_text shellquote_Join logPathForVM line (length (s_requests s)) = (req, inr g) →
  output_inv (with_goroutine (length (s_requests s)) g (read_line lines LScan (Some req) s)).
Proof.
  intros [Hg Hl Hf Hs] Hscan Hline. pose proof (handle_line_spec _ _ _ _ _ _ _ _ _ _ Hline) as Hspec. cbn beta iota in Hspec.
  set (n := length (s_requests s)) in *.
  split; cbn [s_requests s_goroutines s_loop read_line with_goroutine]; rewrite ?length_app; cbn [length]; fold n.
  - intros t g' [[<- _]|[_ Ht%Hg]]%lookup_insert_Some; lia.
  - done.
  - intros t Ht. apply Hf. lia.
  - intros t r Ht. unfold prog_of. cbn [s_loop read_line s_goroutines with_goroutine loop_prog].
    match goal with |- status ?a (responses _ ?b) _ _ => change b with (output s); change a with (lost s) end.
    destruct (decide (n = t)) as [<-|Hne].
    + rewrite lookup_app_r, Nat.sub_diag in Ht by (unfold n; lia). injection Ht as <-. rewrite Hf by lia.
      rewrite lookup_insert_eq. by apply status_start.
    + assert (t < n)%nat by (apply lookup_lt_Some in Ht; rewrite length_app in Ht; cbn in Ht; lia).
      rewrite lookup_app_l in Ht by done. rewrite lookup_insert_ne by done. apply Hs in Ht. unfold prog_of in Ht. by rewrite Hscan in Ht.
Qed.

Lemma output_inv_loop_step s s' : output_inv s → loop_step s s' → output_inv s'.
Proof.
  intros Hinv Hstep. destruct Hstep as [s Hl _|s line lines Hl _ _|s lines Hl _ _|s line lines req l Hl _ _ _ Hh
    |s line lines req g Hl _ _ _ Hh|s t req Hl Hg|s t a k x h' Hl Hdo|s t Hl|s Hl _].
  - apply (output_inv_frame s); try done. cbn. by rewrite Hl.
  - apply (output_inv_frame s); try done; cbn; by rewrite Hl.
  - apply (output_inv_frame s); try done; cbn; [by rewrite app_nil_r|by rewrite Hl].
  - by eapply output_inv_line.
  - by eapply output_inv_spawn.
  - apply (output_inv_frame s); try done. cbn. by rewrite Hl.
  - destruct (oi_loop _ Hinv t (Act a k)) as [Ht Hn]; [by rewrite Hl|].
    eapply (output_inv_act s _ t _ a k x h'); try done.
    + unfold prog_of. rewrite Hl. cbn. by rewrite decide_True.
    + apply (oi_goroutines _ Hinv).
    + cbn. intros u p [= <- <-]. by split.
    + intros u Hne. unfold prog_of. cbn. rewrite Hl. cbn. by rewrite !decide_False.
    + unfold prog_of. cbn. by rewrite decide_True.
  - destruct (oi_loop _ Hinv t (Ret tt)) as [Ht Hn]; [by rewrite Hl|].
    eapply (output_inv_move s _ t); try done.
    + apply (oi_goroutines _ Hinv).
    + intros u Hne. unfold prog_of. cbn. rewrite Hl. cbn. by rewrite decide_False.
    + intros r Hr. unfold prog_of. cbn. rewrite Hl, Hn. cbn. rewrite decide_True by done. apply status_ret.
    + cbn. lia.
  - apply (output_inv_frame s); try done. cbn. by rewrite Hl.
Qed.

(** A goroutine that goes on, whose program does not change. *)
Lemma output_inv_job s s' t g g' h' :
  output_inv s → s_goroutines s !! t = Some g → g_prog g' = g_prog g →
  s' = with_handler h' (with_goroutine t g' s) →
  (lost s = true → f_writeFailed (h_run h') = true) → (∀ u, responses u (h_out h') = responses u (output s)) → output_inv s'.
Proof.
  intros Hinv Hg Hp -> Hlost Ho. apply (output_inv_frame s); try done.
  intros u. cbn. destruct (decide (t = u)) as [<-|Hne]; [|by rewrite lookup_insert_ne].
  rewrite lookup_insert_eq, Hg. cbn. by rewrite Hp.
Qed.

Lemma output_inv_goroutine_step t s s' : output_inv s → goroutine_step cls t s s' → output_inv s'.
Proof.
  intros Hinv Hstep. destruct Hstep as [s g a k x h' Hg Hp Hdo|s g j io k err method data id h' Hg Hp _ _ Hemit
    |s g j io k ch cn n out buf queue Hg Hp _ _ _ _|s g j io k ch Hg Hp _ _ _|s g j io k rch q closed size Hg _ _ _|s g Hg Hp].
  - pose proof (oi_goroutines _ Hinv _ _ Hg) as Ht.
    assert (Hother : ∀ p, loop_prog (s_loop s) = Some (t, p) → False).
    { intros p Hl. destruct (oi_loop _ Hinv _ _ Hl). congruence. }
    eapply (output_inv_act s _ t _ a k x h'); try done.
    + unfold prog_of. rewrite Hg. destruct (loop_prog (s_loop s)) as [[u p]|] eqn:Hl; [|by cbn; rewrite Hp].
      destruct (decide (u = t)) as [->|]; [by destruct (Hother p)|]. cbn. by rewrite Hp.
    + intros u g'. cbn. intros [[<- _]|[_ Hu]]%lookup_insert_Some; [done|]. by eapply (oi_goroutines _ Hinv).
    + intros u p. cbn. intros Hl. destruct (decide (t = u)) as [<-|]; [by destruct (Hother p)|].
      rewrite lookup_insert_ne by done. by eapply (oi_loop _ Hinv).
    + intros u Hne. unfold prog_of. cbn. destruct (loop_prog (s_loop s)) as [[]|]; by rewrite lookup_insert_ne.
    + unfold prog_of. cbn. rewrite lookup_insert_eq. destruct (loop_prog (s_loop s)) as [[u p]|] eqn:Hl; [|done].
      destruct (decide (u = t)) as [->|]; [by destruct (Hother p)|done].
  - eapply (output_inv_job s _ t g _ h'); [done|done| |reflexivity| |]; [done|..].
    + intros Hlost. by destruct (emit_responses 0 _ _ _ Hemit) as [Hm _]; apply Hm.
    + intros u. destruct (emit_responses u _ _ _ Hemit) as [_ [-> | [-> _]]]; [by rewrite app_nil_r|done].
  - eapply (output_inv_job s _ t g); [done|done| |reflexivity| |]; done.
  - eapply (output_inv_job s _ t g _ (s_handler s)); [done|done| |reflexivity| |]; done.
  - by apply (output_inv_frame s).
  - pose proof (oi_goroutines _ Hinv _ _ Hg) as Ht.
    assert (Hother : ∀ p, loop_prog (s_loop s) = Some (t, p) → False).
    { intros p Hl. destruct (oi_loop _ Hinv _ _ Hl). congruence. }
    eapply (output_inv_move s _ t); try done.
    + intros u g'. cbn. intros [_ Hu]%lookup_delete_Some. by eapply (oi_goroutines _ Hinv).
    + intros u p. cbn. intros Hl. destruct (oi_loop _ Hinv _ _ Hl) as [Hu Hn]. split; [done|]. by apply lookup_delete_None; right.
    + intros u Hne. unfold prog_of. cbn. destruct (loop_prog (s_loop s)) as [[]|]; by rewrite lookup_delete_ne.
    + intros r Hr. unfold prog_of. cbn. rewrite lookup_delete_eq, Hg. destruct (loop_prog (s_loop s)) as [[u p]|] eqn:Hl.
      * destruct (decide (u = t)) as [->|]; [by destruct (Hother p)|]. cbn. rewrite Hp. apply status_ret.
      * cbn. rewrite Hp. apply status_ret.
    + cbn. lia.
Qed.

Lemma output_inv_step s s' : output_inv s → step s s' → output_inv s'.
Proof.
  intros Hinv [Hs|[[t Hs]|Hs]]; [by eapply output_inv_loop_step|by eapply output_inv_goroutine_step|].
  destruct Hs as [s event h' _ Hemit]. apply (output_inv_frame s); try done.
  - intros Hlost. by destruct (emit_responses 0 _ _ _ Hemit) as [Hm _]; apply Hm.
  - intros u. unfold output. cbn. destruct (emit_responses u _ _ _ Hemit) as [_ [-> | [-> _]]]; [by rewrite app_nil_r|done].
Qed.

Lemma output_inv_init lines : output_inv (rpc_init lines).
Proof. by split. Qed.

Lemma run_ind (P : sys V → Prop) lines s : P (rpc_init lines) → (∀ s s', P s → step s s' → P s') → run lines s → P s.
Proof. intros H0 Hs. revert s. apply rtc_ind_r; eauto. Qed.

(** At the end of a run no goroutine is left. *)
Lemma run_done lines s : run lines s → s_loop s = LDone → s_goroutines s = ∅.
Proof.
  intros Hrun. apply (run_ind (λ s, s_loop s = LDone → s_goroutines s = ∅) lines); [done| |exact Hrun].
  intros s1 s2 IH [Hs|[[t Hs]|Hs]].
  - destruct Hs; cbn; intros Hd; try done. subst l.
    by match goal with H : handle_line _ _ _ _ _ _ _ _ = _ |- _ => apply handle_line_spec in H end.
  - destruct Hs; cbn; intros Hd; specialize (IH Hd); try done; by rewrite IH in *.
  - by destruct Hs.
Qed.

(** The lines read are the requests, in order, and after them at most one that was dropped. *)
Definition line_requests (taken : list string) : list (option Request) := parse_request <$> filter (λ l, l ≠ "") taken.

Definition reading (lines : list string) (s : sys V) : Prop := ∃ taken,
  lines = taken ++ s_dropped s ++ s_input s ∧ s_requests s = line_requests taken ∧
  (s_dropped s = [] ∨ (∃ l, s_dropped s = [l]) ∧ (s_loop s = LStop ∨ s_loop s = LDone)).

Lemma handle_line_request line t req x :
  handle_line cls config_of_json unmarshal_error error_text shellquote_Join logPathForVM line t = (req, x) → req = parse_request line.
Proof. unfold handle_line. destruct (parse_request line); by intros [= <- _]. Qed.

Lemma reading_same lines s s' :
  s_dropped s' = s_dropped s → s_input s' = s_input s → s_requests s' = s_requests s →
  (s_loop s = LStop ∨ s_loop s = LDone → s_loop s' = LStop ∨ s_loop s' = LDone) → reading lines s → reading lines s'.
Proof.
  intros Hd Hi Hr Hl (taken & Hlines & Hreq & Hdrop). exists taken. rewrite Hd, Hi, Hr. split_and!; [done..|].
  destruct Hdrop as [?|[? ?]]; [by left|right; auto].
Qed.

Lemma reading_line lines s line rest l req :
  s_loop s = LScan → s_input s = line :: rest → req = (if decide (line = "") then None else Some (parse_request line)) →
  reading lines s → reading lines (read_line rest l req s).
Proof.
  intros Hl Hin -> (taken & Hlines & Hreq & Hdrop). assert (Hd : s_dropped s = []).
  { destruct Hdrop as [?|[_ [He|He]]]; [done|by rewrite Hl in He..]. }
  exists (taken ++ [line]). cbn [read_line s_dropped s_input s_requests]. rewrite Hd, Hin in *. split_and!.
  - by rewrite Hlines, <- app_assoc.
  - unfold line_requests in *. rewrite filter_app, fmap_app, Hreq. destruct (decide (line = "")) as [->|Hne].
    + by rewrite filter_cons_False by tauto.
    + by rewrite filter_cons_True.
  - by left.
Qed.

Lemma reading_run lines s : run lines s → reading lines s.
Proof.
  revert s. intros sf. apply run_ind; [by exists []; split_and!; [..|left]|].
  intros s1 s2 IH [Hs|[[t Hs]|Hs]].
  - destruct Hs as [s Hl _|s line rest Hl Hin _|s rest Hl Hin _|s line rest req l Hl Hin Hne _ Hh
      |s line rest req g Hl Hin Hne _ Hh|s t req Hl Hg|s t a k x h' Hl Hdo|s t Hl|s Hl _].
    + revert IH. apply reading_same; auto.
    + destruct IH as (taken & Hlines & Hreq & Hdrop). assert (Hd : s_dropped s = []).
      { destruct Hdrop as [?|[_ [He|He]]]; [done|by rewrite Hl in He..]. }
      exists taken. cbn. rewrite Hd in *. split_and!; [by rewrite Hlines, Hin|done|right; split; [by exists line|by left]].
    + by apply reading_line with (line := "").
    + apply (reading_line _ _ line); [done|done| |done]. rewrite decide_False by done. f_equal. by eapply handle_line_request.
    + apply (reading_same _ (read_line rest LScan (Some req) s)); [done..|auto|].
      apply (reading_line _ _ line); [done|done| |done]. rewrite decide_False by done. f_equal. by eapply handle_line_request.
    + revert IH. apply reading_same; try done. cbn. intros [He|He]; congruence.
    + revert IH. apply reading_same; try done. cbn. intros [He|He]; congruence.
    + revert IH. apply reading_same; try done. cbn. intros [He|He]; congruence.
    + revert IH. apply reading_same; try done. cbn. by right.
  - destruct Hs; (revert IH; apply reading_same; done).
  - destruct Hs; (revert IH; apply reading_same; done).
Qed.

(** After close, or when the run is stopped, one more line may be read: it is dropped, and if it is
    a request it gets no answer. *)
Lemma closed_drops s line rest :
  s_loop s = LScan → s_input s = line :: rest → f_closed (run_of s) = true →
  ∃ s', loop_step s s' ∧
    s_loop s' = LStop ∧ s_dropped s' = s_dropped s ++ [line] ∧ s_requests s' = s_requests s ∧ output s' = output s.
Proof. intros Hl Hi Hc. eexists. split; [by eapply StepClosed|]. by split_and!. Qed.

(** C23: Every request that is handled is answered once. In any interleaving of the loop, the
    goroutines of requests, what the machine answers and what its commands do: input is not
    answered, any other request gets at most one response, which bears its id; once the run is
    over it has got it, unless a write of the output failed. The requests that are handled are
    the lines read, but for at most one: the line the loop reads last, when the handler has been
    closed, is dropped without an answer. *)
Theorem rpc_answered_once lines s t r :
  run lines s → s_requests s !! t = Some r →
  (answered r = false → responses t (output s) = [])
  ∧ (responses t (output s) = [] ∨ ∃ resp, responses t (output s) = [resp] ∧ rp_ID resp = request_id r)
  ∧ (s_loop s = LDone → lost s = false → answered r = true →
      ∃ resp, responses t (output s) = [resp] ∧ rp_ID resp = request_id r)
  ∧ reading lines s.
Proof.
  intros Hrun Hr. assert (Hinv : output_inv s).
  { apply (run_ind output_inv lines); [apply output_inv_init|apply output_inv_step|exact Hrun]. }
  pose proof (oi_status _ Hinv t r Hr) as Hs.
  assert (Hres : (responses t (output s) = [] ∧ answered r = true ∧ is_Some (prog_of s t)) ∨ answered_once (lost s) (responses t (output s)) r).
  { destruct (prog_of s t); [|by right]. destruct Hs as [(? & _ & ?)|[_ ?]]; [left|by right]. by split_and!. }
  clear Hs. split_and!; [| | |by apply reading_run].
  - intros Ha. destruct Hres as [(-> & _)|Ho]; [done|]. unfold answered_once in Ho. by rewrite Ha in Ho.
  - destruct Hres as [(-> & _)|Ho]; [by left|]. unfold answered_once in Ho. destruct (answered r); [|by left].
    destruct Ho as [?|[? _]]; [by right|by left].
  - intros Hdone Hlost Ha. destruct Hres as [(_ & _ & [p Hp])|Ho].
    + unfold prog_of in Hp. rewrite Hdone, (run_done _ _ Hrun Hdone) in Hp. done.
    + unfold answered_once in Ho. rewrite Ha in Ho. destruct Ho as [?|[_ ?]]; [done|congruence].
Qed.
End runs.
