(* ===== verification/RpcMachine.v ===== *)
(** * The machine of the JSON-RPC handler

    Requests run on a machine that is there, and no other while create and close run; and only
    the current machine is ever closed. *)

From S2P Require Import Prelude GoStrings GoStd GoJson GoJsonSpec GoNet Api ApiConfig Wire Exec Rpc RpcSpec.

(** ** The machine *)

Section machine.
Context {V : Type} (cls : vm_class V).
Context (config_of_json : json → option Config) (unmarshal_error : option json → string) (error_text : api_error → string).
Context (shellquote_Join : list string → string) (logPathForVM : string → string).

Abbreviation handle := (handleRequest cls config_of_json unmarshal_error error_text shellquote_Join logPathForVM).
Abbreviation step := (rpc_step cls config_of_json unmarshal_error error_text shellquote_Join logPathForVM).
Abbreviation run := (rpc_run cls config_of_json unmarshal_error error_text shellquote_Join logPathForVM).

Definition job_vm (j : job V) : option V := match j with JobExec v _ _ _ => Some v | JobTTY v _ _ _ _ _ => Some v | JobLog _ => None end.

(** The machine that an action of a request uses. *)
Definition used_vm (a : action V) : option V :=
  match a with
  | ARun j _ => job_vm j
  | AWriteFile v _ _ _ => Some v | AReadFile v _ => Some v | AListFiles v _ => Some v
  | AUpdateHosts v _ _ => Some v | AAllowedHosts v => Some v | AResetNetwork v => Some v | APfStart v _ _ => Some v
  | _ => None
  end.

(** The actions of create and close only. *)
Definition exclusive (a : action V) : bool :=
  match a with
  | AInstall _ _ | ATake | AFactory _ | AStart _ | AClose _ _ | AStateRemove _ | AStartEntry _ _ => true
  | _ => false
  end.

(** A program that uses the machine [vm] and no other, and leaves the choice of it alone. *)
Fixpoint confined {A} (vm : option V) (p : prog V A) : Prop :=
  match p with
  | Ret _ => True
  | Act a k =>
      exclusive a = false ∧ (∀ v, used_vm a = Some v → vm = Some v)
      ∧ ∀ x, (match a return answer a → Prop with AGetVM => λ x, x = vm | _ => λ _, True end x) → confined vm (k x)
  end.

Lemma confined_bind {A B} vm (p : prog V A) (f : A → prog V B) :
  confined vm p → (∀ a, confined vm (f a)) → confined vm (p ≫= f).
Proof.
  intros Hp Hf. unfold mbind, prog_mbind. induction p as [a|a k IH]; [apply Hf|]. destruct Hp as (Hx & Hu & Hk).
  split_and!; [done..|]. intros x Hx'. by apply IH, Hk.
Qed.

Lemma confined_act vm a (k : answer a → prog V (option Response)) :
  exclusive a = false → used_vm a = None → (∀ x, confined vm (k x)) → confined vm (Act a k).
Proof. intros Hx Hu Hk. split_and!; [done|congruence|]. intros x _. apply Hk. Qed.

Lemma confined_fail vm req code e : confined vm (fail (V := V) req code e).
Proof. done. Qed.
Lemma confined_succeed vm req l : confined vm (succeed (V := V) req l).
Proof. done. Qed.

Lemma with_vm_confined vm req (k : V → prog V (option Response)) :
  (∀ v, vm = Some v → confined vm (k v)) → confined vm (with_vm req k).
Proof. intros Hk. split_and!; [done|done|]. intros x ->. cbn. destruct vm; [by apply Hk|done]. Qed.

Lemma with_params_confined {T} vm dec req (k : T → prog V (option Response)) :
  (∀ params, confined vm (k params)) → confined vm (with_params unmarshal_error dec req k).
Proof. intros Hk. unfold with_params. by destruct (decode _ _). Qed.

Ltac confined_step :=
  first [done | apply with_vm_confined; intros ? -> | apply with_params_confined; intros ?
        | match goal with
          | |- confined _ (act _ ≫= _) => split_and!; [done|by intros ? [= ->]|intros ? _; unfold prog_mbind; cbn [prog_bind]]
          | |- confined _ (act _) => split_and!; [done|by intros ? [= ->]|intros ? _]
          | |- confined _ (Act _ _) => split_and!; [done|by intros ? [= ->]|intros ? _]
          | |- confined _ (prog_bind _ (Ret _)) => cbn [prog_bind]
          | |- confined _ (prog_bind ?f ?p) => change (prog_bind f p) with (p ≫= f)
          | |- confined _ (match ?x with _ => _ end) => destruct x
          | |- confined _ (if ?x then _ else _) => destruct x
          | |- confined _ (_ ≫= _) => apply confined_bind; [|intros ?]
          end].
Ltac confine := repeat confined_step.

(** What is not create or close is confined, whatever the machine is. *)
Lemma handle_confined vm req : rq_Method req ≠ "create" → rq_Method req ≠ "close" → confined vm (handle req).
Proof.
  intros H1 H2. unfold handleRequest.
  repeat (match goal with |- confined _ (if decide (rq_Method req = ?m) then _ else _) => destruct (decide (rq_Method req = m)) as [?|_] end;
    [first [contradiction|clear H1 H2]|]); [..|done].
  - unfold handleExec, job_failed. confine.
  - unfold handleExecStream, streamed_result, send_rest, job_failed. confine.
  - unfold handleExecPipe, streamed_result, send_rest, job_failed. confine.
  - unfold handleExecTTY, job_failed. confine.
  - unfold handleExecPipeStdin. confine.
  - unfold handleExecPipeStdinEOF. confine.
  - unfold handleExecTTYStdin. confine.
  - unfold handleExecTTYStdinEOF. confine.
  - unfold handleExecTTYResize. confine.
  - unfold handleWriteFile. confine.
  - unfold handleReadFile. confine.
  - unfold handleListFiles. confine.
  - unfold handleLog. confine.
  - unfold handleLogStream, job_failed. confine.
  - unfold handleAllowListAdd, handleAllowListUpdate. confine.
  - unfold handleAllowListDelete, handleAllowListUpdate. confine.
  - unfold handlePortForward. confine.
  - unfold handleNetworkReset. confine.
Qed.

Lemma respond_confined vm (p : prog V (option Response)) : confined vm p → confined vm (respond p).
Proof. intros Hp. unfold respond. apply confined_bind; [done|]. intros r. confine. Qed.

Lemma handle_line_confined vm line t req x :
  handle_line cls config_of_json unmarshal_error error_text shellquote_Join logPathForVM line t = (req, x) →
  match x with
  | inl (LHandle _ p) => confined vm p
  | inl (LWait _ r) => rq_Method r = "create" ∨ rq_Method r = "close"
  | inl _ => False
  | inr g => confined vm (g_prog g)
  end.
Proof.
  unfold handle_line. destruct (parse_request _) as [r|]; [|intros [= <- <-]; cbn; confine].
  intros [= <- <-]. destruct (decide (rq_Method r = "cancel")) as [Hc|_].
  - apply respond_confined. unfold handleCancel. confine.
  - destruct (decide _) as [|Hno]; [done|].
    assert (Hh : confined vm (handle r)) by (apply handle_confined; naive_solver). destruct (isExecInputMethod _).
    + by apply respond_confined.
    + cbn [start g_prog]. unfold request_goroutine. destruct (rq_ID r); [|by apply respond_confined].
      confined_step. apply confined_bind; [by apply respond_confined|]. intros _. confine.
Qed.

(** What holds before each action of a program that runs alone, from these fields on. *)
Fixpoint alone {A} (pre : vm_fields V → action V → Prop) (t : nat) (f : vm_fields V) (p : prog V A) : Prop :=
  match p with
  | Ret _ => True
  | Act a k =>
      pre f a ∧ ∀ h used x h', h_vm h = f → do_action cls t used a h x h' → alone pre t (h_vm h') (k x)
  end.

Lemma emit_vm l (h h' : Handler V) : emit l h h' → h_vm h' = h_vm h.
Proof. by intros [-> | ->]. Qed.

(** Who is not to choose the machine leaves it as it is. *)
Lemma do_action_keeps t used a h x h' :
  exclusive a = false → do_action cls t used a h x h' →
  f_vm (h_vm h') = f_vm (h_vm h) ∧ f_made (h_vm h') = f_made (h_vm h) ∧ f_dead (h_vm h') = f_dead (h_vm h).
Proof.
  destruct a; intros Hx Hdo; try done; cbn [do_action] in Hdo; try (by apply emit_vm in Hdo as ->);
    action_cases; by simplify_eq.
Qed.

Lemma do_action_getvm t used (a : action V) h x h' :
  do_action cls t used a h x h' →
  match a return answer a → Prop with AGetVM => λ x, x = f_vm (h_vm h) | _ => λ _, True end x.
Proof. destruct a; try done. by intros [? _]. Qed.

(** The machines that may be put in place and closed: any, or all but one. *)
Context (P : V → Prop).

(** The machine is one that was made and is not closed; nothing else is used, closed, or put in
    its place. *)
Definition alive (f : vm_fields V) (v : V) : Prop := v ∈ f_made f ∧ v ∉ f_dead f.

Record machine_ok (f : vm_fields V) : Prop := {
  mo_vm : ∀ v, f_vm f = Some v → alive f v;
  mo_dead : ∀ v, v ∈ f_dead f → v ∈ f_made f ∧ P v;
  mo_current : ∀ v, f_vm f = Some v → P v;
  mo_new : ∀ v, v ∉ f_made f → P v }.

Definition action_ok (f : vm_fields V) (a : action V) : Prop :=
  match a with
  | AStart v | AStartEntry v _ => alive f v
  | AInstall v _ => alive f v ∧ P v
  | AClose v _ => alive f v ∧ f_vm f ≠ Some v ∧ P v
  | a => ∀ v, used_vm a = Some v → f_vm f = Some v ∧ alive f v
  end.

Lemma machine_ok_act t used a h x h' :
  machine_ok (h_vm h) → action_ok (h_vm h) a → do_action cls t used a h x h' → machine_ok (h_vm h').
Proof.
  intros [Hvm Hdead Hcur Hnew] Ha Hdo. destruct (exclusive a) eqn:Hx.
  - destruct a; try done; cbn [do_action] in Hdo; cbn [action_ok] in Ha; action_cases; subst; try done; split; cbn; try done.
    + by intros v' [= <-].
    + by intros v' [= <-].
    + intros v' Hv'. destruct (Hvm v' Hv') as [? ?]. split; cbn; [by apply list_elem_of_further|done].
    + intros v' Hv'. split; [apply list_elem_of_further|]; by apply Hdead.
    + intros v' [_ Hv']%not_elem_of_cons. auto.
    + intros v' Hv'. destruct (Hvm v' Hv') as [? ?]. split; cbn; [done|]. apply not_elem_of_cons. split; [congruence|done].
    + intros v' [->|Hv']%elem_of_cons; [|auto]. split; [by match goal with H : alive _ _ |- _ => apply H end|done].
  - destruct (do_action_keeps _ _ _ _ _ _ Hx Hdo) as (Hv & Hm & Hd). split; unfold alive; rewrite ?Hv, ?Hm, ?Hd; auto.
Qed.

(** The bind of a program that runs alone. *)
Lemma alone_act {A} pre t f (a : action V) (k : answer a → prog V A) :
  pre f a → (∀ h used x h', h_vm h = f → do_action cls t used a h x h' → alone pre t (h_vm h') (k x)) → alone pre t f (Act a k).
Proof. by split. Qed.

Ltac alone_step :=
  match goal with
  | |- alone _ _ _ (?p ≫= _) => match p with act _ => idtac end; apply alone_act; [|intros ? ? ? ? ?Hh ?Hdo; cbn [prog_bind]]
  | |- alone _ _ _ (Act _ _) => apply alone_act; [|intros ? ? ? ? ?Hh ?Hdo]
  | |- alone _ _ _ (act _) => apply alone_act; [|intros ? ? ? ? ?Hh ?Hdo]
  end.

Lemma action_ok_other f (a : action V) : exclusive a = false → used_vm a = None → action_ok f a.
Proof. intros Hx Hu. destruct a; try done; by intros v; rewrite Hu. Qed.

Lemma alone_bind {A B} pre t f (p : prog V A) (g : A → prog V B) :
  alone pre t f p → (∀ a f', alone pre t f' (g a)) → alone pre t f (p ≫= g).
Proof.
  intros Hp Hg. unfold mbind, prog_mbind. revert f Hp. induction p as [a|a k IH]; intros f Hp; [apply Hg|].
  destruct Hp as [Ha Hk]. split; [exact Ha|]. intros. apply IH. by eapply Hk.
Qed.

Lemma alone_respond t f (p : prog V (option Response)) : alone action_ok t f p → alone action_ok t f (respond p).
Proof. intros Hp. unfold respond. apply alone_bind; [exact Hp|]. intros [r|] f'; [|done]. by apply alone_act. Qed.

(** A machine that was just made. *)
Definition fresh_vm (f : vm_fields V) (v : V) : Prop := alive f v ∧ f_vm f ≠ Some v ∧ P v.

Lemma fresh_made f v : machine_ok f → v ∉ f_made f → fresh_vm (made v f) v.
Proof.
  intros [Hvm Hdead Hcur Hnew] Hv. split_and!; [split|..|auto].
  - apply list_elem_of_here.
  - cbn. intros Hd. by apply Hv, Hdead.
  - cbn. intros Hf. by apply Hv, (Hvm v Hf).
Qed.

Lemma discard_alone t f req v e : fresh_vm f v → alone action_ok t f (discard cls req v e).
Proof. intros Ha. unfold discard. alone_step; [exact Ha|]. alone_step; [done|]. done. Qed.

Lemma startImageEntrypoint_alone {A} t f v (k : result string bool → prog V A) :
  fresh_vm f v → (∀ r, alone action_ok t f (k r)) → alone action_ok t f (startImageEntrypoint cls shellquote_Join v ≫= k).
Proof.
  intros (Ha & _) Hk. unfold startImageEntrypoint. destruct (entrypoint_command _ _); [|apply Hk].
  apply alone_act; [exact Ha|]. intros h used x h' <- Hdo. cbn in Hdo. subst h'. destruct x; apply Hk.
Qed.

Lemma handleCreate_alone t f req :
  machine_ok f → alone action_ok t f (handleCreate cls config_of_json unmarshal_error error_text shellquote_Join req).
Proof.
  intros Hok. unfold handleCreate. destruct (match rq_Params req with None => _ | Some j => _ end) as [params|]; [|done].
  destruct (decide _); [done|]. destruct (decide _); [done|]. destruct (NetworkConfig_Validate _); [done|].
  destruct (Config_ValidateVFS _); [done|]. apply alone_act; [done|].
  intros h used x h' <- Hdo. cbn [do_action] in Hdo. destruct x as [vm|e]; [|done]. destruct Hdo as [Hv ->]. apply (fresh_made _ _ Hok) in Hv. cbn [h_vm set_vm].
  apply alone_act; [apply Hv|]. intros h0 used0 x h1 Hh Hdo. cbn in Hdo. subst h1. rewrite Hh.
  destruct x; [by apply discard_alone|]. apply startImageEntrypoint_alone; [exact Hv|].
  intros [entry|e]; [|by apply discard_alone]. alone_step; [split; apply Hv|]. done.
Qed.

Lemma handleClose_alone t f req : machine_ok f → alone action_ok t f (handleClose req).
Proof.
  intros [Hvm Hdead Hcur _]. unfold handleClose. apply alone_act; [done|]. intros h used x h' <- Hdo. cbn in Hdo. subst h'.
  apply alone_act; [done|]. intros h0 used0 x0 h1 Hh [-> ->]. cbn [h_vm set_vm set_run] in *. rewrite Hh.
  set (f := h_vm h) in *.
  assert (Hclose : ∀ f', (∀ v, f_vm f = Some v → alive f' v) → f_vm f' = None →
    alone action_ok t f' (r ← (match f_vm f with Some vm => act (AClose vm (close_timeout (rq_Params req))) | None => Ret (None, false) end);
      match r with
      | (Some e, expired) => fail req (if expired : bool then ErrCodeCancelled else ErrCodeVMFailed) e
      | (None, _) => succeed (V := V) req []
      end)).
  { intros f' Hal Hf'. destruct (f_vm f) as [v|]; [|done]. apply alone_act; [split_and!; [by apply Hal|by rewrite Hf'|by apply Hcur]|].
    by intros h2 ? [[] ?] h3 _ _. }
  assert (Hpf : ∀ f', (∀ v, f_vm f = Some v → alive f' v) → f_vm f' = None →
    alone action_ok t f' (pfErr ← (match f_pfManager f with Some p => act (APfClose p) | None => Ret None end);
      match pfErr with
      | Some e => fail req ErrCodeVMFailed e
      | None => r ← (match f_vm f with Some vm => act (AClose vm (close_timeout (rq_Params req))) | None => Ret (None, false) end);
          match r with
          | (Some e, expired) => fail req (if expired : bool then ErrCodeCancelled else ErrCodeVMFailed) e
          | (None, _) => succeed (V := V) req []
          end
      end)).
  { intros f' Hal Hf'. destruct (f_pfManager f) as [p|]; [|by apply Hclose].
    apply alone_act; [done|]. intros h2 ? x2 h3 <- Hdo. cbn in Hdo. subst h3. destruct x2; [done|]. by apply Hclose. }
  destruct (f_entry f); [|by apply Hpf].
  apply alone_act; [done|]. intros h2 ? x2 h3 Hh2 Hdo. cbn in Hdo. subst h3. rewrite Hh2. by apply Hpf.
Qed.

(** Create and close, in one. *)
Lemma waited_alone t f req :
  machine_ok f → rq_Method req = "create" ∨ rq_Method req = "close" → alone action_ok t f (respond (handle req)).
Proof.
  intros Hok Hm. apply alone_respond. unfold handleRequest. destruct Hm as [Hm|Hm]; rewrite Hm.
  - rewrite decide_True by done. by apply handleCreate_alone.
  - repeat (rewrite decide_False by done). rewrite decide_True by done. by apply handleClose_alone.
Qed.

Record machine_inv (s : sys V) : Prop := {
  mi_ok : machine_ok (h_vm (s_handler s));
  mi_goroutines : ∀ t g, s_goroutines s !! t = Some g → confined (f_vm (h_vm (s_handler s))) (g_prog g);
  mi_wait : ∀ t req, s_loop s = LWait t req → rq_Method req = "create" ∨ rq_Method req = "close";
  mi_loop : ∀ t p, s_loop s = LHandle t p →
    confined (f_vm (h_vm (s_handler s))) p ∨ s_goroutines s = ∅ ∧ alone action_ok t (h_vm (s_handler s)) p }.

Lemma confined_action_ok f a (k : answer a → prog V unit) : machine_ok f → confined (f_vm f) (Act a k) → action_ok f a.
Proof.
  intros [Hvm _ _ _] (Hx & Hu & _). destruct a; try done; intros v' Hv; (split; [by apply Hu|]); by apply Hvm, Hu.
Qed.

(** An action of a confined program. *)
Lemma confined_acts t used a (k : answer a → prog V unit) h x h' :
  machine_ok (h_vm h) → confined (f_vm (h_vm h)) (Act a k) → do_action cls t used a h x h' →
  machine_ok (h_vm h') ∧ f_vm (h_vm h') = f_vm (h_vm h) ∧ confined (f_vm (h_vm h)) (k x).
Proof.
  intros Hok Hc Hdo. pose proof (confined_action_ok _ _ _ Hok Hc) as Ha. split; [by eapply machine_ok_act|].
  destruct Hc as (Hx & _ & Hk). split; [by eapply do_action_keeps|]. apply Hk. by eapply do_action_getvm.
Qed.

(** A step that leaves the machine alone and moves goroutines within their confines. *)
Lemma machine_inv_frame s s' :
  machine_inv s → h_vm (s_handler s') = h_vm (s_handler s) → s_loop s' = s_loop s ∨ loop_prog cls config_of_json unmarshal_error error_text shellquote_Join logPathForVM (s_loop s') = None →
  (∀ t g, s_goroutines s' !! t = Some g → ∃ g0, s_goroutines s !! t = Some g0 ∧ g_prog g = g_prog g0) → machine_inv s'.
Proof.
  intros [Hok Hg Hw Hl] Hvm Hloop Hgs. split; rewrite ?Hvm; [done|..].
  - intros t g Ht. destruct (Hgs t g Ht) as (g0 & Hg0 & ->). eauto.
  - intros t req Ht. destruct Hloop as [Hloop|Hloop]; [rewrite Hloop in Ht; eauto|by rewrite Ht in Hloop].
  - intros t p Ht. destruct Hloop as [Hloop|Hloop]; [|by rewrite Ht in Hloop]. rewrite Hloop in Ht.
    destruct (Hl t p Ht) as [?|[He Ha]]; [by left|right]. split; [|done]. apply map_eq. intros u. rewrite lookup_empty.
    destruct (s_goroutines s' !! u) as [g|] eqn:Hu; [|done]. destruct (Hgs u g Hu) as (g0 & Hg0 & _). by rewrite He in Hg0.
Qed.

Lemma machine_inv_act s s' t used a (k : answer a → prog V unit) x g g' :
  machine_inv s → s_goroutines s !! t = Some g → g_prog g = Act a k → do_action cls t used a (s_handler s) x s' → g_prog g' = k x →
  machine_inv (with_handler s' (with_goroutine t g' s)).
Proof.
  intros [Hok Hg Hw Hl] Hgt Hp Hdo Hg'. pose proof (Hg _ _ Hgt) as Hc. rewrite Hp in Hc.
  destruct (confined_acts _ _ _ _ _ _ _ Hok Hc Hdo) as (Hok' & Hvm & Hk). split; cbn; rewrite ?Hvm; [done|..].
  - intros u gu [[<- <-]|[_ Hu]]%lookup_insert_Some; [by rewrite Hg'|eauto].
  - done.
  - intros u p Hu. destruct (Hl u p Hu) as [?|[He _]]; [by left|]. by rewrite He in Hgt.
Qed.

Lemma machine_inv_step s s' : machine_inv s → step s s' → machine_inv s'.
Proof.
  intros Hinv [Hstep|[[t Hstep]|Hstep]].
  - destruct Hstep as [s Hl _|s line lines Hl _ _|s lines Hl _ _|s line lines req l Hl _ _ _ Hh
      |s line lines req g Hl _ _ _ Hh|s t req Hl Hg|s t a k x h' Hl Hdo|s t Hl|s Hl _].
    1-3, 8-9: apply (machine_inv_frame s); [done|done|by (right; done) || (left; done)|by eauto].
    + apply (handle_line_confined (f_vm (h_vm (s_handler s)))) in Hh. destruct Hinv as [Hok Hg Hw Hlp].
      split; cbn; [done|done|..].
      * intros t r ->. by apply Hh.
      * intros t p ->. left. exact Hh.
    + apply (handle_line_confined (f_vm (h_vm (s_handler s)))) in Hh. destruct Hinv as [Hok Hg Hw Hlp].
      split; cbn; [done|..|done|done]. intros t g' [[<- <-]|[_ Ht]]%lookup_insert_Some; eauto.
    + destruct Hinv as [Hok Hgs Hw Hlp]. split; cbn; [done|done|done|]. intros u p [= <- <-]. right. split; [done|].
      apply waited_alone; eauto.
    + destruct (mi_loop _ Hinv _ _ Hl) as [Hc|[He [Ha Hk]]]; destruct Hinv as [Hok Hgs Hw Hlp].
      * destruct (confined_acts _ _ _ _ _ _ _ Hok Hc Hdo) as (Hok' & Hvm & Hkx). split; cbn; rewrite ?Hvm; [done|done|done|].
        intros u p [= <- <-]. by left.
      * split; cbn; [by eapply machine_ok_act| |done|]; [rewrite He; by intros ? ?; rewrite lookup_empty|].
        intros u p [= <- <-]. right. split; [done|]. by eapply Hk.
  - destruct Hstep as [s g a k x h' Hg Hp Hdo|s g j io k err method data id h' Hg Hp _ _ Hemit
      |s g j io k ch cn n out buf queue Hg Hp _ _ _ _|s g j io k ch Hg Hp _ _ _|s g j io k rch q closed size Hg _ _ _|s g Hg Hp].
    + by eapply machine_inv_act.
    + apply (machine_inv_frame s); [done|by eapply emit_vm|by left|].
      intros u gu. cbn. intros [[<- <-]|[_ Hu]]%lookup_insert_Some; eauto.
    + apply (machine_inv_frame s); [done|done|by left|]. intros u gu. cbn. intros [[<- <-]|[_ Hu]]%lookup_insert_Some; eauto.
    + apply (machine_inv_frame s); [done|done|by left|]. intros u gu. cbn. intros [[<- <-]|[_ Hu]]%lookup_insert_Some; eauto.
    + apply (machine_inv_frame s); [done|done|by left|]. eauto.
    + apply (machine_inv_frame s); [done|done|by left|]. intros u gu. cbn. intros [_ Hu]%lookup_delete_Some. eauto.
  - destruct Hstep as [s event h' _ Hemit]. apply (machine_inv_frame s); [done|by eapply emit_vm|by left|eauto].
Qed.
End machine.

Section machine_runs.
Context {V : Type} (cls : vm_class V).
Context (config_of_json : json → option Config) (unmarshal_error : option json → string) (error_text : api_error → string).
Context (shellquote_Join : list string → string) (logPathForVM : string → string).

Abbreviation step := (rpc_step cls config_of_json unmarshal_error error_text shellquote_Join logPathForVM).
Abbreviation run := (rpc_run cls config_of_json unmarshal_error error_text shellquote_Join logPathForVM).

(** What is about to happen for request [t]. *)
Definition acts (s : sys V) (t : nat) (a : action V) : Prop :=
  (∃ k, s_loop s = LHandle t (Act a k)) ∨ (∃ g k, s_goroutines s !! t = Some g ∧ g_prog g = Act a k).

Lemma machine_inv_init lines : machine_inv cls (λ _, True) (rpc_init lines).
Proof. split; cbn; [|done..]. by split. Qed.

(** C24: Requests have a machine, and it is theirs while they run. However requests run
    concurrently: whatever a request is about to do with a machine, it is the one that was
    created last and it was not closed; and what creates, installs or closes a machine happens
    while no other request is under way. *)
Theorem rpc_machine_safe lines s t a :
  run lines s → acts s t a →
  (∀ v, used_vm a = Some v → f_vm (h_vm (s_handler s)) = Some v ∧ v ∉ f_dead (h_vm (s_handler s)))
  ∧ (∀ v timeout, a = AClose v timeout → v ∉ f_dead (h_vm (s_handler s)))
  ∧ (exclusive a = true → s_goroutines s = ∅).
Proof.
  intros Hrun Ha. assert (Hinv : machine_inv cls (λ _, True) s).
  { eapply (run_ind _ _ _ _ _ _ (machine_inv cls (λ _, True)) lines); [apply machine_inv_init| |exact Hrun].
    intros s1 s2. apply machine_inv_step. }
  assert (Hok : action_ok (λ _, True) (h_vm (s_handler s)) a ∧ (exclusive a = true → s_goroutines s = ∅)).
  { pose proof (mi_ok _ _ _ Hinv) as Hm. destruct Ha as [(k & Hl)|(g & k & Hg & Hp)].
    - destruct (mi_loop _ _ _ Hinv _ _ Hl) as [Hc|[He [Ha _]]]; [|by split].
      split; [by eapply confined_action_ok|]. destruct Hc as (Hx & _). by rewrite Hx.
    - pose proof (mi_goroutines _ _ _ Hinv _ _ Hg) as Hc. rewrite Hp in Hc.
      split; [by eapply confined_action_ok|]. destruct Hc as (Hx & _). by rewrite Hx. }
  destruct Hok as [Hok Hx]. split_and!; [|by intros v timeout ->; apply Hok|done].
  intros v Hv. destruct a; try done; cbn [action_ok] in Hok; destruct (Hok v Hv) as (? & ? & ?); done.
Qed.

(** Only the current machine is ever closed. A machine that is not the current one when the
    loop reads its next line, as the first of two that were created, is not closed then and
    will not be, whatever follows. *)
Theorem rpc_replaced_machine_stays lines s s' v :
  run lines s → s_loop s = LScan → v ∈ f_made (h_vm (s_handler s)) → f_vm (h_vm (s_handler s)) ≠ Some v →
  v ∉ f_dead (h_vm (s_handler s)) → rtc step s s' → v ∉ f_dead (h_vm (s_handler s')).
Proof.
  intros Hrun Hscan Hmade Hcur Hdead Hsteps.
  assert (Hinv : machine_inv cls (λ _, True) s).
  { eapply (run_ind _ _ _ _ _ _ (machine_inv cls (λ _, True)) lines); [apply machine_inv_init| |exact Hrun].
    intros s1 s2. apply machine_inv_step. }
  assert (Hinv' : machine_inv cls (λ v', v' ≠ v) s).
  { destruct Hinv as [[Hvm Hd _ _] Hg _ _]. split; [|done|by rewrite Hscan..].
    split; [done| |by intros v' Hv' ->|by intros v' Hv' ->]. intros v' Hv'. split; [by apply Hd|by intros ->]. }
  clear Hinv Hrun Hscan Hmade Hcur Hdead. assert (Hend : machine_inv cls (λ v', v' ≠ v) s').
  { induction Hsteps as [|s1 s2 s3 Hs _ IH]; [done|]. apply IH. by eapply machine_inv_step. }
  intros Hd. by apply (mo_dead _ _ (mi_ok _ _ _ Hend)) in Hd as [_ Hne].
Qed.
End machine_runs.
