(* ===== verification/RpcInput.v ===== *)
(** * The input of commands of the JSON-RPC handler

    What a command reads is what was sent for it; and what can keep the handler from reading a
    request to cancel. *)

From S2P Require Import Prelude GoStrings GoStd GoJson GoJsonSpec GoNet Api ApiConfig Wire Exec Rpc RpcSpec.

(** ** The input of commands *)

Definition chunk_data (l : list execInputChunk) : bytes := concat (ck_Data <$> l).

(** The chunks before the first that ends the input. *)
Fixpoint before_eof (l : list execInputChunk) : list execInputChunk :=
  match l with [] => [] | c :: l' => if ck_EOF c then [] else c :: before_eof l' end.
Definition no_eof (l : list execInputChunk) : Prop := before_eof l = l.

Lemma no_eof_cons c l : no_eof (c :: l) ↔ ck_EOF c = false ∧ no_eof l.
Proof. unfold no_eof. cbn. destruct (ck_EOF c); [split; [done|by intros [? _]]|]. split; [by intros [= H]|by intros [_ ->]]. Qed.

Lemma before_eof_app l1 l2 : no_eof l1 → before_eof (l1 ++ l2) = l1 ++ before_eof l2.
Proof. induction l1 as [|c l1 IH]; [done|]. intros [Hc Hl]%no_eof_cons. cbn. rewrite Hc. by rewrite IH. Qed.

Lemma no_eof_app l1 l2 : no_eof l1 → no_eof l2 → no_eof (l1 ++ l2).
Proof. intros H1 H2. unfold no_eof. by rewrite before_eof_app, H2. Qed.

(** Whether the end is among the chunks: then what follows them does not matter. *)
Lemma before_eof_snoc l c : ¬ no_eof l → before_eof (l ++ [c]) = before_eof l.
Proof.
  induction l as [|d l IH]; intros Hn; [by destruct Hn|]. cbn. destruct (ck_EOF d) eqn:Hd; [done|]. f_equal. apply IH.
  intros Hl. apply Hn. by apply no_eof_cons.
Qed.

Lemma before_eof_not l c l' : ck_EOF c = true → ¬ no_eof (l ++ c :: l').
Proof. intros Hc. induction l as [|d l IH]; cbn; intros [H1 H2]%no_eof_cons; [congruence|auto]. Qed.

Lemma chunk_data_app l1 l2 : chunk_data (l1 ++ l2) = chunk_data l1 ++ chunk_data l2.
Proof. unfold chunk_data. by rewrite fmap_app, concat_app. Qed.

(** One read: it takes chunks from the front of the queue, and gives what they hold. *)
Lemma execInputReader_Read_spec n closed buf queue out buf' queue' :
  execInputReader_Read n closed buf queue = (out, buf', queue') →
  ∃ taken, queue = taken ++ queue' ∧
    match out with
    | ReadEOF => buf = [] ∧ buf' = [] ∧ chunk_data (before_eof taken) = [] ∧ (¬ no_eof taken ∨ closed = true ∧ queue' = [] ∧ no_eof taken)
    | ReadData d => no_eof taken ∧ buf ++ chunk_data taken = d ++ buf'
    | ReadBlocked => no_eof taken ∧ buf ++ chunk_data taken = buf'
    end.
Proof.
  destruct buf as [|b buf].
  - induction queue as [|c queue IH]; cbn [execInputReader_Read].
    + intros [= <- <- <-]. exists []. split; [done|]. destruct closed; [split_and!; [done..|by right]|by split].
    + destruct (ck_EOF c) eqn:Hc.
      * intros [= <- <- <-]. exists [c]. cbn. rewrite Hc. split_and!; try done. left. by apply (before_eof_not []).
      * destruct (ck_Data c) as [|b d] eqn:Hd.
        -- intros (taken & -> & Hout)%IH. exists (c :: taken). split; [done|].
           assert (Hdata : chunk_data (c :: taken) = chunk_data taken) by (unfold chunk_data; cbn; by rewrite Hd).
           assert (Hno : no_eof taken → no_eof (c :: taken)) by (intros; by apply no_eof_cons).
           destruct out; rewrite ?Hdata; [naive_solver| |naive_solver].
           destruct Hout as (_ & -> & H1 & H2). split_and!; [done..| |].
           ++ cbn. rewrite Hc. unfold chunk_data in *. cbn. by rewrite Hd.
           ++ destruct H2 as [H2|(? & ? & ?)]; [left; intros [_ ?]%no_eof_cons; auto|right; auto].
        -- intros [= <- <- <-]. exists [c]. split; [done|]. rewrite no_eof_cons. split; [done|].
           unfold chunk_data. cbn [fmap list_fmap concat]. rewrite app_nil_r, Hd. by rewrite take_drop.
  - assert (H : execInputReader_Read n closed (b :: buf) queue = (ReadData (take n (b :: buf)), drop n (b :: buf), queue)) by (by destruct queue).
    rewrite H. intros [= <- <- <-]. exists []. split; [done|]. split; [done|]. cbn [chunk_data fmap list_fmap concat].
    rewrite app_nil_r. by rewrite take_drop.
Qed.

(** What a goroutine has read of its channel: all that was taken out of it, in order; at the end,
    all there was before the end was sent, unless its context was cancelled. *)
Definition stream {V} (cancelled : bool) (cn : channel) (g : goroutine V) : Prop :=
  ∃ taken, cn_sent cn = taken ++ cn_queue cn ∧
    if g_eof g
    then (g_read g = chunk_data (before_eof (cn_sent cn)) ∧ (¬ no_eof (cn_sent cn) ∨ cn_closed cn = true))
         ∨ (cancelled = true ∧ g_read g `prefix_of` chunk_data (before_eof (cn_sent cn)))
    else no_eof taken ∧ chunk_data taken = g_read g ++ g_buf g.

Section streams.
Context {V : Type}.
Implicit Types (g : goroutine V) (cn : channel).

Lemma stream_prefix c cn g : stream c cn g → g_read g `prefix_of` chunk_data (before_eof (cn_sent cn)).
Proof.
  intros (taken & Hs & Hg). destruct (g_eof g); [destruct Hg as [[-> _]|[_ ?]]; done|]. destruct Hg as [Hno Hd].
  rewrite Hs, before_eof_app, chunk_data_app, Hd by done. rewrite <- app_assoc. by apply prefix_app_r.
Qed.

Lemma stream_ext c c' cn g g' :
  stream c cn g → (c = true → c' = true) → g_read g' = g_read g → g_buf g' = g_buf g → g_eof g' = g_eof g → stream c' cn g'.
Proof.
  intros (taken & Hs & Hg) Hc Hr Hb He. exists taken. split; [done|]. rewrite He, Hr, Hb. destruct (g_eof g); [|done].
  destruct Hg as [?|[? ?]]; [by left|right]. auto.
Qed.

Lemma stream_push c cn cn' ck g : stream c cn g → push_chunk ck cn cn' → stream c cn' g.
Proof.
  intros (taken & Hs & Hg) Hp. unfold push_chunk in Hp. destruct (cn_closed cn) eqn:Hcl; [subst cn'; exists taken; by rewrite Hcl|].
  destruct Hp as [_ ->]. exists taken. cbn. split; [by rewrite Hs, app_assoc|]. destruct (g_eof g); [|done].
  destruct Hg as [[Hr [He|?]]|[Hc Hr]]; [left|congruence|right].
  - split; [by rewrite before_eof_snoc|left]. intros Hno. apply He. clear -Hno. induction (cn_sent cn) as [|d l IH]; [done|].
    apply no_eof_cons in Hno as [? ?]. apply no_eof_cons. auto.
  - split; [done|]. etrans; [exact Hr|]. clear. induction (cn_sent cn) as [|d l IH]; [apply prefix_nil|]. cbn.
    destruct (ck_EOF d); [done|]. unfold chunk_data in *. cbn. by apply prefix_app.
Qed.

Lemma stream_close c cn g : stream c cn g → stream c (close_channel cn) g.
Proof.
  intros (taken & Hs & Hg). exists taken. cbn. split; [done|]. destruct (g_eof g); [|done].
  destruct Hg as [[Hr _]|?]; [left|by right]. auto.
Qed.

Lemma stream_cancel cn g g' : stream true cn g → g_read g' = g_read g → g_eof g' = true → stream true cn g'.
Proof.
  intros Hg Hr He. pose proof (stream_prefix _ _ _ Hg) as Hp. destruct Hg as (taken & Hs & _). exists taken. split; [done|].
  rewrite He, Hr. by right.
Qed.

Lemma stream_read c cn g n out buf queue g' :
  stream c cn g → g_eof g = false → execInputReader_Read n (cn_closed cn) (g_buf g) (cn_queue cn) = (out, buf, queue) →
  g_read g' = g_read g ++ (match out with ReadData d => d | _ => [] end) → g_buf g' = buf →
  g_eof g' = (match out with ReadEOF => true | _ => false end) →
  stream c {| cn_queue := queue; cn_closed := cn_closed cn; cn_sent := cn_sent cn |} g'.
Proof.
  intros (taken & Hs & Hg) He Hread Hr Hb Heof. rewrite He in Hg. destruct Hg as [Hno Hd].
  apply execInputReader_Read_spec in Hread as (took & Hq & Hout). exists (taken ++ took). cbn [cn_sent cn_queue cn_closed].
  split; [by rewrite Hs, Hq, app_assoc|]. rewrite Heof, Hr, Hb. destruct out as [| |d].
  - destruct Hout as [Hn Hbuf]. split; [by apply no_eof_app|]. by rewrite chunk_data_app, Hd, app_nil_r, <- app_assoc, Hbuf.
  - destruct Hout as (Hbuf & -> & Hdata & Hend). left. rewrite app_nil_r. rewrite Hbuf, app_nil_r in Hd. rewrite Hs, Hq, <- Hd.
    destruct Hend as [He'|(Hcl & -> & Hn)].
    + split.
      * rewrite before_eof_app, chunk_data_app by done. rewrite <- (app_nil_r (chunk_data taken)) at 1. f_equal.
        rewrite <- Hdata. f_equal. clear -He'. induction took as [|x took IH]; [by destruct He'|]. cbn. destruct (ck_EOF x) eqn:Hx; [done|].
        f_equal. apply IH. intros Hn. apply He'. by apply no_eof_cons.
      * left. rewrite app_assoc. intros Hn. apply He'. clear -Hn. revert Hn. induction taken as [|y taken IH].
        -- cbn. induction took as [|x took IH2]; [done|]. intros [? ?]%no_eof_cons. apply no_eof_cons. auto.
        -- intros [_ ?]%no_eof_cons. auto.
    + split; [|by right]. rewrite app_nil_r, before_eof_app, Hn, chunk_data_app by done.
      unfold no_eof in Hn. rewrite Hn in Hdata. by rewrite Hdata, app_nil_r.
  - destruct Hout as [Hn Hbuf]. split; [by apply no_eof_app|]. by rewrite chunk_data_app, Hd, <- !app_assoc, Hbuf.
Qed.
End streams.

Section input.
Context {V : Type} (cls : vm_class V).
Context (config_of_json : json → option Config) (unmarshal_error : option json → string) (error_text : api_error → string).
Context (shellquote_Join : list string → string) (logPathForVM : string → string).

Abbreviation handle := (handleRequest cls config_of_json unmarshal_error error_text shellquote_Join logPathForVM).
Abbreviation step := (rpc_step cls config_of_json unmarshal_error error_text shellquote_Join logPathForVM).
Abbreviation run := (rpc_run cls config_of_json unmarshal_error error_text shellquote_Join logPathForVM).
Abbreviation goroutine_of := (request_goroutine cls config_of_json unmarshal_error error_text shellquote_Join logPathForVM).

(** The channel an action opens. *)
Definition opens (a : action V) : answer a → option nat :=
  match a return answer a → option nat with AOpenPipe _ => λ ch, Some ch | AOpenTTY _ => λ chs, Some chs.1 | _ => λ _, None end.

(** A program that opens at most one channel and reads no other; [o] is the one it has. *)
Fixpoint inputs {A} (o : option nat) (p : prog V A) : Prop :=
  match p with
  | Ret _ => True
  | Act a k =>
      match a with
      | ARun _ io => jo_stdin io = None ∨ jo_stdin io = o
      | AOpenPipe _ | AOpenTTY _ => o = None
      | _ => True
      end ∧ ∀ x, inputs (match opens a x with Some ch => Some ch | None => o end) (k x)
  end.

Lemma inputs_bind {A B} o (p : prog V A) (f : A → prog V B) :
  inputs o p → (∀ a o', inputs o' (f a)) → inputs o (p ≫= f).
Proof.
  intros Hp Hf. unfold mbind, prog_mbind. revert o Hp. induction p as [a|a k IH]; intros o Hp; [apply Hf|].
  destruct Hp as [Ha Hk]. split; [exact Ha|]. intros x. apply IH, Hk.
Qed.

Lemma inputs_with_vm o req (k : V → prog V (option Response)) : (∀ v, inputs o (k v)) → inputs o (with_vm req k).
Proof. intros Hk. split; [done|]. intros [v|]; [apply Hk|done]. Qed.
Lemma inputs_with_params {T} o dec req (k : T → prog V (option Response)) :
  (∀ params, inputs o (k params)) → inputs o (with_params unmarshal_error dec req k).
Proof. intros Hk. unfold with_params. by destruct (decode _ _). Qed.

Ltac inputs_step :=
  first [done | apply inputs_with_vm; intros ? | apply inputs_with_params; intros ?
        | match goal with
          | |- inputs _ (?p ≫= _) =>
              match p with act _ => idtac end; split; [first [done|by left|by right]|intros ?; unfold prog_mbind; cbn [opens prog_bind]]
          | |- inputs _ (act _) => split; [first [done|by left|by right]|intros ?; cbn [opens]]
          | |- inputs _ (Act _ _) => split; [first [done|by left|by right]|intros ?; cbn [opens]]
          | |- inputs _ (prog_bind _ (Ret _)) => cbn [prog_bind]
          | |- inputs _ (prog_bind ?f ?p) => change (prog_bind f p) with (p ≫= f)
          | |- inputs _ (match ?x with _ => _ end) => destruct x
          | |- inputs _ (if ?x then _ else _) => destruct x
          | |- inputs _ (_ ≫= _) => apply inputs_bind; [|intros ? ?]
          end].
Ltac input := repeat inputs_step.

Lemma handle_inputs req : inputs None (handle req).
Proof.
  unfold handleRequest.
  repeat (match goal with |- inputs _ (if decide (rq_Method req = ?m) then _ else _) => destruct (decide (rq_Method req = m)) as [_|_] end; [|]);
    [..|done].
  - unfold handleCreate, invalid_params, discard, startImageEntrypoint. input.
  - unfold handleExec, job_failed. input.
  - unfold handleExecStream, streamed_result, send_rest, job_failed. input.
  - unfold handleExecPipe, streamed_result, send_rest, job_failed. input.
  - unfold handleExecTTY, job_failed. input.
  - unfold handleExecPipeStdin. input.
  - unfold handleExecPipeStdinEOF. input.
  - unfold handleExecTTYStdin. input.
  - unfold handleExecTTYStdinEOF. input.
  - unfold handleExecTTYResize. input.
  - unfold handleWriteFile. input.
  - unfold handleReadFile. input.
  - unfold handleListFiles. input.
  - unfold handleLog. input.
  - unfold handleLogStream, job_failed. input.
  - unfold handleAllowListAdd, handleAllowListUpdate. input.
  - unfold handleAllowListDelete, handleAllowListUpdate. input.
  - unfold handlePortForward. input.
  - unfold handleNetworkReset. input.
  - unfold handleClose. input.
Qed.

Lemma goroutine_inputs req : inputs None (goroutine_of req).
Proof.
  assert (Hr : inputs None (respond (handle req))).
  { unfold respond. apply inputs_bind; [apply handle_inputs|]. intros [r|] o; input. }
  unfold request_goroutine. destruct (rq_ID req); [|done]. inputs_step. apply inputs_bind; [done|]. intros _ o. input.
Qed.

Definition channels (s : sys V) : gmap nat channel := f_channels (h_exec (s_handler s)).
Definition is_cancelled (r : run_fields) (t : nat) : bool := f_stopped r || bool_decide (t ∈ f_cancelled r).

(** A channel that evolves keeps what its reader knows. *)
Definition evolves (m m' : gmap nat channel) : Prop :=
  ∀ ch cn, m !! ch = Some cn → ∃ cn', m' !! ch = Some cn' ∧ ∀ c (g : goroutine V), stream c cn g → stream c cn' g.

Lemma evolves_refl m : evolves m m.
Proof. intros ch cn H. eauto. Qed.

Lemma evolves_insert m ch cn cn' :
  m !! ch = Some cn → (∀ c (g : goroutine V), stream c cn g → stream c cn' g) → evolves m (<[ch := cn']> m).
Proof.
  intros Hch Hs ch' cn0 H0. destruct (decide (ch = ch')) as [<-|Hne].
  - exists cn'. rewrite lookup_insert_eq. split; [done|]. rewrite Hch in H0. by injection H0 as <-.
  - exists cn0. by rewrite lookup_insert_ne.
Qed.

Lemma evolves_new m ch cn : m !! ch = None → evolves m (<[ch := cn]> m).
Proof. intros Hn ch' cn0 H0. exists cn0. rewrite lookup_insert_ne by congruence. auto. Qed.

(** More cancelled, and no less. *)
Definition run_mono (r r' : run_fields) : Prop := ∀ t, is_cancelled r t = true → is_cancelled r' t = true.

Lemma run_mono_refl r : run_mono r r.
Proof. by intros t. Qed.

Lemma emit_run l (h h' : Handler V) : emit l h h' → run_mono (h_run h) (h_run h') ∧ h_exec h' = h_exec h.
Proof. intros [-> | ->]; (split; [|done]); by intros t. Qed.

Lemma do_action_channels t used a h x h' :
  do_action cls t used a h x h' →
  evolves (f_channels (h_exec h)) (f_channels (h_exec h')) ∧ run_mono (h_run h) (h_run h')
  ∧ ∀ ch, opens a x = Some ch →
      f_channels (h_exec h) !! ch = None ∧ f_channels (h_exec h') !! ch = Some {| cn_queue := []; cn_closed := false; cn_sent := [] |}.
Proof.
  assert (Hsame : f_channels (h_exec h') = f_channels (h_exec h) → run_mono (h_run h) (h_run h') → opens a x = None →
    evolves (f_channels (h_exec h)) (f_channels (h_exec h')) ∧ run_mono (h_run h) (h_run h')
    ∧ ∀ ch, opens a x = Some ch →
        f_channels (h_exec h) !! ch = None ∧ f_channels (h_exec h') !! ch = Some {| cn_queue := []; cn_closed := false; cn_sent := [] |}).
  { intros -> Hr ->. split_and!; [apply evolves_refl|done|done]. }
  destruct a; cbn [do_action]; intros Hdo;
    try (apply Hsame; [..|reflexivity]; apply emit_run in Hdo as [Hr Hexec]; [by rewrite Hexec|exact Hr]);
    try (apply Hsame; [..|reflexivity]; action_cases; simplify_eq; first [reflexivity|apply run_mono_refl
          |intros u; unfold is_cancelled; cbn; rewrite ?orb_true_iff, ?bool_decide_eq_true; set_solver]; fail).
  - destruct Hdo as [Hn ->]. cbn. split_and!; [by apply evolves_new|apply run_mono_refl|]. intros ch [= <-]. by rewrite lookup_insert_eq.
  - destruct Hdo as (cn & Hcn & ->). cbn. split_and!; [|apply run_mono_refl|done].
    eapply evolves_insert; [exact Hcn|]. intros. by apply stream_close.
  - destruct Hdo as (Hn & Hn2 & ->). cbn. split_and!; [by apply evolves_new|apply run_mono_refl|].
    intros ch [= <-]. by rewrite lookup_insert_eq.
  - destruct Hdo as (cn & q & b & Hcn & Hq & ->). cbn. split_and!; [|apply run_mono_refl|done].
    eapply evolves_insert; [exact Hcn|]. intros. by apply stream_close.
  - destruct Hdo as (cn & cn' & Hcn & Hp & ->). cbn. split_and!; [|apply run_mono_refl|done].
    eapply evolves_insert; [exact Hcn|]. intros. by eapply stream_push.
Qed.

(** What a goroutine with channel [o] has read. *)
Definition goroutine_input (c : bool) (o : option nat) (g : goroutine V) (m : gmap nat channel) : Prop :=
  match o with
  | None => g_buf g = [] ∧ g_read g = [] ∧ g_eof g = false
  | Some ch => ∃ cn, m !! ch = Some cn ∧ stream c cn g
  end.

Definition same_input (g g' : goroutine V) : Prop := g_read g' = g_read g ∧ g_buf g' = g_buf g ∧ g_eof g' = g_eof g.

Lemma goroutine_input_evolves c c' o g g' m m' :
  goroutine_input c o g m → (c = true → c' = true) → evolves m m' → same_input g g' → goroutine_input c' o g' m'.
Proof.
  intros Hg Hc Hm (Hr & Hb & He). destruct o as [ch|]; [|cbn in *; by rewrite Hr, Hb, He].
  destruct Hg as (cn & Hcn & Hs). destruct (Hm _ _ Hcn) as (cn' & Hcn' & Hs'). exists cn'. split; [done|]. eapply stream_ext; eauto.
Qed.

Record input_inv (owner : nat → option nat) (s : sys V) : Prop := {
  ii_prog : ∀ t g, s_goroutines s !! t = Some g →
    inputs (owner t) (g_prog g) ∧ goroutine_input (is_cancelled (run_of s) t) (owner t) g (channels s);
  ii_unique : ∀ t t' g g' ch, s_goroutines s !! t = Some g → s_goroutines s !! t' = Some g' →
    owner t = Some ch → owner t' = Some ch → t = t' }.

(** Channels evolve, more is cancelled, and goroutines read nothing. *)
Lemma input_inv_frame owner s s' :
  input_inv owner s → evolves (channels s) (channels s') → run_mono (run_of s) (run_of s') →
  (∀ t g', s_goroutines s' !! t = Some g' → ∃ g, s_goroutines s !! t = Some g ∧ g_prog g' = g_prog g ∧ same_input g g') →
  input_inv owner s'.
Proof.
  intros [Hp Hu] Hev Hr Hgs. split.
  - intros t g' Hg'. destruct (Hgs _ _ Hg') as (g & Hg & -> & Hsame). destruct (Hp _ _ Hg) as [Hi Hin]. split; [done|].
    eapply goroutine_input_evolves; eauto.
  - intros t t' g g' ch Hg Hg'. destruct (Hgs _ _ Hg) as (? & ? & _). destruct (Hgs _ _ Hg') as (? & ? & _). eauto.
Qed.

Lemma input_inv_act owner s t g a k x h' :
  input_inv owner s → s_goroutines s !! t = Some g → g_prog g = Act a k → do_action cls t (g_used g) a (s_handler s) x h' →
  ∃ owner', input_inv owner' (with_handler h' (with_goroutine t
    {| g_prog := k x; g_buf := g_buf g; g_read := g_read g; g_eof := g_eof g; g_used := g_used g |} s)).
Proof.
  intros [Hp Hu] Hg Hprog Hdo. destruct (do_action_channels _ _ _ _ _ _ Hdo) as (Hev & Hr & Hopen).
  destruct (Hp _ _ Hg) as [Hi Hin]. rewrite Hprog in Hi. destruct Hi as [Ha Hk]. specialize (Hk x).
  set (o' := match opens a x with Some ch => Some ch | None => owner t end) in *.
  assert (Hfresh : ∀ ch, opens a x = Some ch → owner t = None).
  { intros ch Hch. destruct a; try done. }
  exists (λ u, if decide (u = t) then o' else owner u). split.
  - intros u gu. cbn. intros [[<- <-]|[Hne Hgu]]%lookup_insert_Some.
    + rewrite decide_True by done. split; [exact Hk|]. unfold o'. destruct (opens a x) as [ch|] eqn:Hch.
      * rewrite (Hfresh _ eq_refl) in Hin. destruct Hin as (Hb & Hrd & He). destruct (Hopen _ eq_refl) as [_ Hnew].
        eexists. split; [exact Hnew|]. exists []. cbn. rewrite He, Hb, Hrd. by split.
      * eapply goroutine_input_evolves; [exact Hin|apply Hr|exact Hev|done].
    + rewrite decide_False by done. destruct (Hp _ _ Hgu) as [Hiu Hinu]. split; [exact Hiu|].
      eapply goroutine_input_evolves; [exact Hinu|apply Hr|exact Hev|done].
  - assert (Hold : ∀ u gu ch, u ≠ t → s_goroutines s !! u = Some gu → owner u = Some ch → o' = Some ch → False).
    { intros u gu ch Hne Hgu Ho Ho'. unfold o' in Ho'. destruct (opens a x) as [ch'|] eqn:Hch; [|by eapply Hne, Hu].
      injection Ho' as ->. destruct (Hp _ _ Hgu) as [_ Hinu]. rewrite Ho in Hinu. destruct Hinu as (cn & Hcn & _).
      destruct (Hopen _ eq_refl) as [Hnone _]. unfold channels in Hcn. congruence. }
    intros u u' gu gu' ch. cbn. intros [[<- _]|[Hne Hgu]]%lookup_insert_Some [[<- _]|[Hne' Hgu']]%lookup_insert_Some; [done|..].
    + rewrite decide_True, decide_False by done. intros H1 H2. by destruct (Hold u' gu' ch).
    + rewrite decide_False, decide_True by done. intros H1 H2. by destruct (Hold u gu ch).
    + rewrite !decide_False by done. eauto.
Qed.

Lemma input_inv_read owner s t g g' j io k ch cn n out buf queue :
  input_inv owner s → s_goroutines s !! t = Some g → g_prog g = Act (ARun j io) k → jo_stdin io = Some ch →
  channels s !! ch = Some cn → g_eof g = false →
  execInputReader_Read n (cn_closed cn) (g_buf g) (cn_queue cn) = (out, buf, queue) →
  g_prog g' = g_prog g → g_read g' = g_read g ++ (match out with ReadData d => d | _ => [] end) → g_buf g' = buf →
  g_eof g' = (match out with ReadEOF => true | _ => false end) →
  input_inv owner (with_handler
    (set_exec (set_channel ch {| cn_queue := queue; cn_closed := cn_closed cn; cn_sent := cn_sent cn |} (h_exec (s_handler s))) (s_handler s))
    (with_goroutine t g' s)).
Proof.
  intros [Hp Hu] Hg Hprog Hio Hcn He Hread Hp' Hr' Hb' He'. destruct (Hp _ _ Hg) as [Hi Hin].
  assert (Ho : owner t = Some ch). { rewrite Hprog in Hi. destruct Hi as [[Hi|Hi] _]; congruence. }
  split.
  - intros u gu. cbn. intros [[<- <-]|[Hne Hgu]]%lookup_insert_Some.
    + rewrite Hp'. split; [exact Hi|]. rewrite Ho in Hin |- *. destruct Hin as (cn0 & Hcn0 & Hs).
      assert (cn0 = cn) as -> by congruence. eexists. unfold channels. cbn. rewrite lookup_insert_eq. split; [done|].
      by eapply stream_read.
    + destruct (Hp _ _ Hgu) as [Hiu Hinu]. split; [exact Hiu|]. destruct (owner u) as [ch'|] eqn:Hou; [|done].
      destruct Hinu as (cn' & Hcn' & Hs'). exists cn'. split; [|done]. unfold channels. cbn.
      rewrite lookup_insert_ne; [done|]. intros ->. apply Hne. eapply Hu; eauto.
  - intros u u' gu gu' c. cbn. intros [[<- _]|[_ Hgu]]%lookup_insert_Some [[<- _]|[_ Hgu']]%lookup_insert_Some; eauto.
Qed.

Lemma handle_line_inputs line t req g :
  handle_line cls config_of_json unmarshal_error error_text shellquote_Join logPathForVM line t = (req, inr g) →
  inputs None (g_prog g) ∧ g_buf g = [] ∧ g_read g = [] ∧ g_eof g = false.
Proof.
  unfold handle_line. destruct (parse_request _) as [r|]; [|done]. destruct (decide _); [done|]. destruct (decide _); [done|].
  destruct (isExecInputMethod _); [done|]. intros [= _ <-]. split; [apply goroutine_inputs|done].
Qed.

Lemma input_inv_step owner s s' : input_inv owner s → step s s' → ∃ owner', input_inv owner' s'.
Proof.
  intros Hinv [Hstep|[[t Hstep]|Hstep]].
  - destruct Hstep as [s Hl _|s line lines Hl _ _|s lines Hl _ _|s line lines req l Hl _ _ _ Hh
      |s line lines req g Hl _ _ _ Hh|s t req Hl Hg|s t a k x h' Hl Hdo|s t Hl|s Hl _].
    1-4, 6, 8-9: exists owner; apply (input_inv_frame owner s); [done|apply evolves_refl|by intros t0|];
      intros t0 g0 Hg0; exists g0; by split_and!.
    + destruct (handle_line_inputs _ _ _ _ Hh) as (Hi & Hb & Hr & He). destruct Hinv as [Hp Hu].
      set (n := length (s_requests s)) in *. exists (λ u, if decide (u = n) then None else owner u). split.
      * intros u gu. cbn. intros [[<- <-]|[Hne Hgu]]%lookup_insert_Some; [by rewrite decide_True|].
        rewrite decide_False by done. exact (Hp _ _ Hgu).
      * intros u u' gu gu' ch. cbn. intros [[<- _]|[Hne Hgu]]%lookup_insert_Some; [by rewrite decide_True|].
        intros [[<- _]|[Hne' Hgu']]%lookup_insert_Some; [by rewrite (decide_True (P := n = n))|].
        rewrite !decide_False by done. eauto.
    + destruct (do_action_channels _ _ _ _ _ _ Hdo) as (Hev & Hr & _). exists owner.
      apply (input_inv_frame owner s); [done|exact Hev|exact Hr|]. intros t0 g0 Hg0. exists g0. by split_and!.
  - destruct Hstep as [s g a k x h' Hg Hp Hdo|s g j io k err method data id h' Hg Hp _ _ Hemit
      |s g j io k ch cn n out buf queue Hg Hp Hio Hcn He Hread|s g j io k ch Hg Hp Hio Hb Hc|s g j io k rch q closed size Hg _ _ _|s g Hg Hp].
    + by eapply input_inv_act.
    + exists owner. destruct (emit_run _ _ _ Hemit) as [Hr Hexec]. apply (input_inv_frame owner s); [done| |exact Hr|].
      * unfold channels. cbn. rewrite Hexec. apply evolves_refl.
      * intros u gu. cbn. intros [[<- <-]|[_ Hu]]%lookup_insert_Some; [by exists g|by exists gu].
    + exists owner. by eapply (input_inv_read owner s t g).
    + exists owner. destruct Hinv as [Hpr Hu]. split.
      * intros u gu. cbn. intros [[<- <-]|[_ Hgu]]%lookup_insert_Some; [|by apply Hpr]. destruct (Hpr _ _ Hg) as [Hi Hin].
        split; [exact Hi|]. assert (Ho : owner t = Some ch). { rewrite Hp in Hi. destruct Hi as [[Hi|Hi] _]; congruence. }
        rewrite Ho in Hin |- *. destruct Hin as (cn & Hcn & Hs). exists cn. split; [done|].
        unfold is_cancelled in *. cbn in *. unfold run_of in *. cbn. rewrite Hc in *. by eapply stream_cancel.
      * intros u u' gu gu' c. cbn. intros [[<- _]|[_ Hgu]]%lookup_insert_Some [[<- _]|[_ Hgu']]%lookup_insert_Some; eauto.
    + exists owner. apply (input_inv_frame owner s); [done|apply evolves_refl|by intros u|]. intros u gu Hu. exists gu. by split_and!.
    + exists owner. apply (input_inv_frame owner s); [done|apply evolves_refl|by intros u|].
      intros u gu. cbn. intros [_ Hu]%lookup_delete_Some. exists gu. by split_and!.
  - destruct Hstep as [s event h' _ Hemit]. destruct (emit_run _ _ _ Hemit) as [Hr Hexec]. exists owner.
    apply (input_inv_frame owner s); [done| |exact Hr|].
    + unfold channels. cbn. rewrite Hexec. apply evolves_refl.
    + intros u gu Hu. exists gu. by split_and!.
Qed.

(** C25: A command reads its input exactly. What it has read is the start of the data that was sent to
    its channel, in order, up to the end that was sent; when it is told that its input has
    ended, it has read all of that, unless its request was cancelled. *)
Theorem rpc_input_exact lines s t g j io k ch :
  run lines s → s_goroutines s !! t = Some g → g_prog g = Act (ARun j io) k → jo_stdin io = Some ch →
  ∃ cn, channels s !! ch = Some cn
    ∧ g_read g `prefix_of` chunk_data (before_eof (cn_sent cn))
    ∧ (g_eof g = true → is_cancelled (run_of s) t = false → g_read g = chunk_data (before_eof (cn_sent cn))).
Proof.
  intros Hrun Hg Hp Hio. assert (Hinv : ∃ owner, input_inv owner s).
  { eapply (run_ind _ _ _ _ _ _ (λ s, ∃ owner, input_inv owner s) lines); [|..|exact Hrun].
    - exists (λ _, None). by split.
    - intros s1 s2 [owner Ho] Hs. by eapply input_inv_step. }
  destruct Hinv as [owner [Hpr _]]. destruct (Hpr _ _ Hg) as [Hi Hin]. rewrite Hp in Hi.
  assert (Ho : owner t = Some ch) by (destruct Hi as [[Hi|Hi] _]; congruence).
  rewrite Ho in Hin. destruct Hin as (cn & Hcn & Hs). exists cn. split; [done|]. split; [by eapply stream_prefix|].
  intros He Hc. destruct Hs as (taken & _ & Hs). rewrite He in Hs. destruct Hs as [[? _]|[? _]]; [done|congruence].
Qed.
End input.

(** ** What is not read *)

Section waiting.
Context {V : Type} (cls : vm_class V).
Context (config_of_json : json → option Config) (unmarshal_error : option json → string) (error_text : api_error → string).
Context (shellquote_Join : list string → string) (logPathForVM : string → string).

Abbreviation loop_step := (loop_step cls config_of_json unmarshal_error error_text shellquote_Join logPathForVM).

(** The steps that are not of the goroutine of request [u]. *)
Definition step_without (u : nat) (s s' : sys V) : Prop :=
  loop_step s s' ∨ (∃ t, t ≠ u ∧ goroutine_step cls t s s') ∨ event_step s s'.

(** Request [u] is the only one under way, and the loop waits: with create or close for its end,
    or with input for room in a full channel. *)
Definition waits_for (u : nat) (s : sys V) : Prop :=
  (∃ g, s_goroutines s = {[u := g]})
  ∧ ((∃ t req, s_loop s = LWait t req)
     ∨ ∃ t ch c k cn, s_loop s = LHandle t (Act (APush ch c) k) ∧ channels s !! ch = Some cn
         ∧ cn_closed cn = false ∧ (pipe_buffer <= length (cn_queue cn))%nat).

Lemma waits_for_step u s s' : waits_for u s → step_without u s s' → waits_for u s' ∧ s_loop s' = s_loop s ∧ s_input s' = s_input s.
Proof.
  intros [[g Hg] Hw] [Hs|[(t & Hne & Hs)|Hs]].
  - exfalso. destruct Hw as [(t & req & Hl)|(t & ch & c & k & cn & Hl & Hcn & Hcl & Hlen)].
    + destruct Hs; try congruence. match goal with H : s_goroutines _ = ∅ |- _ => rewrite Hg in H; rename H into H0 end.
      exact (map_non_empty_singleton u g H0).
    + destruct Hs as [s| | | | | |s t' a k' x h' Hl' Hdo|s|s]; try congruence. rewrite Hl in Hl'. injection Hl' as <- Ha Hk.
      subst a. cbn [do_action] in Hdo. destruct Hdo as (cn0 & cn' & Hcn0 & Hp & _). unfold channels in Hcn.
      assert (cn0 = cn) as -> by congruence. unfold push_chunk in Hp. rewrite Hcl in Hp. lia.
  - exfalso. destruct Hs as [s g' ? ? ? ? Hg'|s g' ? ? ? ? ? ? ? ? Hg'|s g' ? ? ? ? ? ? ? ? ? Hg'|s g' ? ? ? ? Hg'|s g' ? ? ? ? ? ? ? Hg'|s g' Hg'];
      rewrite Hg in Hg'; by rewrite lookup_singleton_ne in Hg'.
  - destruct Hs as [s event h' _ Hemit]. split; [|done]. split; [by exists g|]. destruct Hw as [Hw|(t & ch & c & k & cn & Hl & Hcn & Hcl & Hlen)].
    + by left.
    + right. exists t, ch, c, k, cn. split_and!; try done. unfold channels. cbn. by destruct (emit_run _ _ _ Hemit) as [_ ->].
Qed.

(** A request to cancel is not read while the loop waits. If the loop waits for request [u],
    either to create or close a machine or for room for its input, then, whatever else happens,
    it reads no further line, a cancel of [u] included, until [u] itself moves: its command
    reads or ends. *)
Theorem rpc_cancel_unread u s s' :
  waits_for u s → rtc (step_without u) s s' → s_loop s' = s_loop s ∧ s_input s' = s_input s.
Proof.
  intros Hw Hsteps. induction Hsteps as [|s1 s2 s3 Hs _ IH]; [done|].
  destruct (waits_for_step _ _ _ Hw Hs) as (Hw' & Hl & Hi). destruct (IH Hw') as [-> ->]. by split.
Qed.
End waiting.
