(* ===== verification/RpcExamples.v ===== *)
(** * Runs of the JSON-RPC handler

    Concrete runs, which show that the hypotheses of the properties of [RpcSpec], [RpcMachine]
    and [RpcInput] hold of them. Machines are numbers. *)

From S2P Require Import Prelude GoStrings GoStd GoJson GoNet Api ApiConfig Wire Exec Rpc RpcSpec RpcMachine RpcInput.

Definition ex_cls : vm_class nat := {|
  vm_ID := λ v, "vm-" +:+ Itoa (Z.of_nat v); vm_Config := λ _, None; vm_portForward := λ _, true;
  vm_interactive := λ _, true; vm_networkReset := λ _, true |}.

(** A configuration is decoded by its image alone. *)
Definition ex_config (j : json) : option Config :=
  of_struct (λ l, image ← field "image" dec_string "" l;
    Some {| cfg_ID := ""; cfg_Image := image; cfg_Privileged := false; cfg_Kernel := None; cfg_LaunchEntrypoint := false;
            cfg_Resources := None; cfg_Network := None; cfg_VFS := None; cfg_Env := None; cfg_ExtraDisks := [];
            cfg_VirtioFS := []; cfg_VirtioFSMask := []; cfg_ImageCfg := None |}) j.

Abbreviation ex_step := (rpc_step ex_cls ex_config (λ _, "unmarshal") (λ _, "error") (λ l, String.concat " " l) (λ id, id)).
Abbreviation ex_loop_step := (loop_step ex_cls ex_config (λ _, "unmarshal") (λ _, "error") (λ l, String.concat " " l) (λ id, id)).
Abbreviation ex_run := (rpc_run ex_cls ex_config (λ _, "unmarshal") (λ _, "error") (λ l, String.concat " " l) (λ id, id)).
Abbreviation ex_handle := (handleRequest ex_cls ex_config (λ _, "unmarshal") (λ _, "error") (λ l, String.concat " " l) (λ id, id)).
Abbreviation ex_goroutine := (request_goroutine ex_cls ex_config (λ _, "unmarshal") (λ _, "error") (λ l, String.concat " " l) (λ id, id)).

Definition ex_request (method : string) (id : Z) (params : list (string * json)) : Request :=
  {| rq_JSONRPC := "2.0"; rq_Method := method; rq_Params := Some (JObj params); rq_ID := Some id |}.
Definition request_line (r : Request) : string :=
  json_print (JObj [("jsonrpc", JStr (rq_JSONRPC r)); ("method", JStr (rq_Method r)); ("params", default JNull (rq_Params r));
                    ("id", id_json (rq_ID r))]).

(** ** A cancel *)

Definition cancel7 : Request := ex_request "cancel" 1 [("id", JInt 7)].

Example cancel7_line t :
  handle_line ex_cls ex_config (λ _, "unmarshal") (λ _, "error") (λ l, String.concat " " l) (λ id, id) (request_line cancel7) t
  = (Some cancel7, inl (LHandle t (respond (handleCancel (λ _, "unmarshal") cancel7)))).
Proof. vm_compute. reflexivity. Qed.

(** ** Creating machines *)

Definition create (id : Z) : Request := ex_request "create" id [("image", JStr "alpine")].

Example create_line id t :
  id = 1 ∨ id = 2 →
  handle_line ex_cls ex_config (λ _, "unmarshal") (λ _, "error") (λ l, String.concat " " l) (λ id, id) (request_line (create id)) t
  = (Some (create id), inl (LWait t (create id))).
Proof. intros [->| ->]; vm_compute; reflexivity. Qed.

(** A request to create a machine that is served, the machine starting: the handler has it. *)
Definition served (r : Request) (lines : list string) (v : nat) (s : sys nat) : sys nat := {|
  s_handler := add_out (OutResponse (length (s_requests s)) (result_response (rq_ID r) [("id", JStr (vm_ID ex_cls v))]))
    (set_vm (install v (vm_ID ex_cls v) false (made v (h_vm (s_handler s)))) (s_handler s));
  s_input := lines; s_loop := LScan; s_goroutines := s_goroutines s; s_requests := s_requests s ++ [Some r]; s_dropped := s_dropped s |}.

Ltac loop_steps := eapply rtc_l; [left|].
Ltac answers x := match goal with |- do_action _ _ _ _ _ ?y _ => unify y x end.

Lemma create_served id lines v s :
  id = 1 ∨ id = 2 → s_loop s = LScan → s_input s = request_line (create id) :: lines → f_closed (run_of s) = false →
  s_goroutines s = ∅ → v ∉ f_made (h_vm (s_handler s)) → rtc ex_step s (served (create id) lines v s).
Proof.
  intros Hid Hloop Hinput Hclosed Hg Hv.
  loop_steps. { eapply StepLine; [done|exact Hinput|by destruct Hid as [->| ->]|done|by apply create_line]. }
  loop_steps. { eapply StepWaited; [reflexivity|done]. }
  loop_steps. { eapply StepHandle; [reflexivity|]. answers (@Ok string nat v). split; [exact Hv|reflexivity]. }
  loop_steps. { eapply StepHandle; [reflexivity|]. answers (@None string). reflexivity. }
  loop_steps. { eapply StepHandle; [reflexivity|]. reflexivity. }
  loop_steps. { eapply StepHandle; [reflexivity|]. answers tt. left. reflexivity. }
  loop_steps. { eapply StepHandled. reflexivity. }
  reflexivity.
  Unshelve. all: exact tt.
Qed.

(** ** The witnesses *)

Lemma cancel7_run :
  ∃ s, ex_run [request_line cancel7] s ∧ s_requests s !! 0%nat = Some (Some cancel7) ∧ s_loop s = LDone ∧ lost s = false.
Proof.
  eexists. split.
  - loop_steps. { eapply StepLine; [done|done|done|done|apply cancel7_line]. }
    loop_steps. { eapply StepHandle; [reflexivity|]. answers false. vm_compute. by split. }
    loop_steps. { eapply StepHandle; [reflexivity|]. answers tt. left. reflexivity. }
    loop_steps. { eapply StepHandled. reflexivity. }
    loop_steps. { eapply StepEOF; [reflexivity|by left]. }
    loop_steps. { eapply StepAllDone; reflexivity. }
    apply rtc_refl.
  - by split_and!.
  Unshelve. all: exact tt.
Qed.

Lemma rpc_answered_once_witness :
  ∃ s resp, ex_run [request_line cancel7] s ∧ s_loop s = LDone ∧ responses 0 (output s) = [resp] ∧ rp_ID resp = Some 1.
Proof.
  destruct cancel7_run as (s & Hrun & Hr & Hl & Hlost).
  destruct (rpc_answered_once _ _ _ _ _ _ _ _ _ _ Hrun Hr) as (_ & _ & H & _).
  destruct (H Hl Hlost eq_refl) as (resp & Hresp & Hid). by exists s, resp.
Defined.

(** Two machines are created: the second replaces the first. *)
Definition two_creates : list string := [request_line (create 1); request_line (create 2)].
Definition created_one : sys nat := served (create 1) [request_line (create 2)] 1 (rpc_init two_creates).
Definition created_two : sys nat := served (create 2) [] 2 created_one.

Lemma created_one_run : ex_run two_creates created_one.
Proof. apply create_served; try done; [by left|cbn; apply not_elem_of_nil]. Qed.

Lemma created_two_run : ex_run two_creates created_two.
Proof.
  unfold rpc_run. etrans; [apply created_one_run|]. apply create_served; try done; [by right|].
  intros H%list_elem_of_singleton. done.
Qed.

Lemma rpc_replaced_machine_stays_witness :
  1%nat ∈ f_made (h_vm (s_handler created_two)) ∧ 1%nat ∉ f_dead (h_vm (s_handler (stop created_two))).
Proof.
  split; [right; left|].
  apply (rpc_replaced_machine_stays ex_cls ex_config (λ _, "unmarshal") (λ _, "error") (λ l, String.concat " " l) (λ id, id)
           two_creates created_two).
  - apply created_two_run.
  - reflexivity.
  - right; left.
  - done.
  - apply not_elem_of_nil.
  - eapply rtc_l; [|apply rtc_refl]. left. apply StepEOF; [reflexivity|by left].
Defined.

(** A command runs in a machine, and is sent input. *)
Definition exec_pipe : Request := ex_request "exec_pipe" 3 [("command", JStr "cat")].
Definition stdin : Request := ex_request "exec_pipe.stdin" 4 [("id", JInt 3); ("data", JStr "aGk=")].
Definition close : Request := ex_request "close" 5 [].

Example exec_pipe_line t :
  handle_line ex_cls ex_config (λ _, "unmarshal") (λ _, "error") (λ l, String.concat " " l) (λ id, id) (request_line exec_pipe) t
  = (Some exec_pipe, inr (start (ex_goroutine exec_pipe))).
Proof. vm_compute. reflexivity. Qed.

Example stdin_line t :
  handle_line ex_cls ex_config (λ _, "unmarshal") (λ _, "error") (λ l, String.concat " " l) (λ id, id) (request_line stdin) t
  = (Some stdin, inl (LHandle t (respond (ex_handle stdin)))).
Proof. vm_compute. reflexivity. Qed.

Example close_line t :
  handle_line ex_cls ex_config (λ _, "unmarshal") (λ _, "error") (λ l, String.concat " " l) (λ id, id) (request_line close) t
  = (Some close, inl (LWait t close)).
Proof. vm_compute. reflexivity. Qed.

Ltac goroutine_acts b := eapply rtc_l; [right; left; eexists; eapply StepAct with (a := b); [cbn; apply lookup_insert_eq|reflexivity|]|].

(** The command of a goroutine that reads channel 0. *)
Definition runs_cat (g : goroutine nat) : Prop :=
  g_buf g = [] ∧ g_eof g = false
  ∧ ∃ (io : job_io) (k : job_result → prog nat unit), g_prog g = Act (ARun (JobExec 1%nat "cat" "" "") io) k ∧ jo_stdin io = Some 0%nat.

(** The loop is at its next line, and one command runs, of which the input is [ch]. *)
Definition running (t : nat) (g : goroutine nat) (ch : channel) (lines : list string) (s : sys nat) : Prop :=
  s_loop s = LScan ∧ s_input s = lines ∧ f_closed (run_of s) = false ∧ s_goroutines s = {[t := g]} ∧ runs_cat g
  ∧ f_execPipes (h_exec (s_handler s)) !! 3 = Some 0%nat ∧ channels s !! 0%nat = Some ch.

Lemma exec_pipe_started lines s :
  s_loop s = LScan → s_input s = request_line exec_pipe :: lines → f_closed (run_of s) = false → s_goroutines s = ∅ →
  f_vm (h_vm (s_handler s)) = Some 1%nat → channels s = ∅ →
  ∃ g s', rtc ex_step s s'
    ∧ running (length (s_requests s)) g {| cn_queue := []; cn_closed := false; cn_sent := [] |} lines s' ∧ g_read g = [].
Proof.
  intros Hloop Hinput Hclosed Hg Hvm Hch. eexists _, _. split.
  - loop_steps. { eapply StepSpawn; [done|exact Hinput|done|done|apply exec_pipe_line]. }
    goroutine_acts (ARegister (V:=nat) 3). { answers tt. reflexivity. }
    goroutine_acts (@AGetVM nat). { answers (Some 1%nat). by split. }
    goroutine_acts (AOpenPipe (V:=nat) 3). { answers 0%nat. split; [|reflexivity]. cbn. unfold channels in Hch. by rewrite Hch. }
    goroutine_acts (ANotify (V:=nat) (Some 3) "exec_pipe.ready" None). { answers tt. left. reflexivity. }
    apply rtc_refl.
  - unfold running, channels. cbn. rewrite Hg, !insert_insert_eq. split_and!; try done; [|by rewrite lookup_insert_eq..].
    split_and!; [done|done|]. by eexists _, _.
  Unshelve. all: exact tt.
Qed.

Definition hi : execInputChunk := {| ck_Data := String.list_ascii_of_string "hi"; ck_EOF := false |}.

Lemma stdin_sent t g lines s :
  running t g {| cn_queue := []; cn_closed := false; cn_sent := [] |} (request_line stdin :: lines) s →
  ∃ s', rtc ex_step s s' ∧ running t g {| cn_queue := [hi]; cn_closed := false; cn_sent := [hi] |} lines s'.
Proof.
  intros (Hloop & Hinput & Hclosed & Hg & Hcat & Hpipe & Hch). eexists. split.
  - loop_steps. { eapply StepLine; [done|exact Hinput|done|done|apply stdin_line]. }
    loop_steps. { eapply StepHandle with (a := ALookupPipe (V:=nat) 3); [reflexivity|]. answers (Some 0%nat). by split. }
    loop_steps.
    { eapply StepHandle with (a := APush (V:=nat) 0 hi); [reflexivity|]. answers tt. eexists _, _.
      split_and!; [exact Hch|split; [unfold pipe_buffer; cbn; lia|reflexivity]|reflexivity]. }
    loop_steps. { eapply StepHandled. reflexivity. }
    apply rtc_refl.
  - unfold running, channels. cbn. rewrite lookup_insert_eq. by split_and!.
  Unshelve. all: exact tt.
Qed.

(** The command reads while close waits for it, a cancel behind that. *)
Lemma close_waits t g lines s :
  running t g {| cn_queue := [hi]; cn_closed := false; cn_sent := [hi] |} (request_line close :: lines) s →
  ∃ g' s', rtc ex_step s s' ∧ waits_for t s' ∧ s_input s' = lines ∧ s_goroutines s' !! t = Some g'
    ∧ g_read g' = g_read g ++ String.list_ascii_of_string "hi"
    ∧ ∃ (io : job_io) (k : job_result → prog nat unit), g_prog g' = Act (ARun (JobExec 1%nat "cat" "" "") io) k ∧ jo_stdin io = Some 0%nat.
Proof.
  intros (Hloop & Hinput & Hclosed & Hg & (Hbuf & Heof & io & k & Hp & Hio) & Hpipe & Hch). eexists _, _. split.
  - loop_steps. { eapply StepLine; [done|exact Hinput|done|done|apply close_line]. }
    eapply rtc_l; [right; left; exists t|apply rtc_refl].
    eapply StepRead with (n := 10%nat); [cbn; rewrite Hg; apply lookup_singleton_eq|exact Hp|exact Hio|exact Hch|exact Heof|].
    rewrite Hbuf. reflexivity.
  - split_and!; [|done|cbn; by rewrite lookup_insert_eq|done|by exists io, k].
    split; [|by left; eexists _, _]. eexists. cbn. by rewrite Hg, insert_singleton_eq.
Qed.

Definition pipe_lines : list string := [request_line (create 1); request_line exec_pipe; request_line stdin; request_line close; request_line cancel7].

Lemma exec_pipe_run :
  ∃ g s, ex_run pipe_lines s ∧ waits_for 1 s ∧ s_input s = [request_line cancel7] ∧ s_goroutines s !! 1%nat = Some g
    ∧ g_read g = String.list_ascii_of_string "hi"
    ∧ ∃ (io : job_io) (k : job_result → prog nat unit), g_prog g = Act (ARun (JobExec 1%nat "cat" "" "") io) k ∧ jo_stdin io = Some 0%nat.
Proof.
  assert (H1 : ex_run pipe_lines (served (create 1) (tail pipe_lines) 1 (rpc_init pipe_lines))).
  { apply create_served; try done; [by left|apply not_elem_of_nil]. }
  destruct (exec_pipe_started (tail (tail pipe_lines)) (served (create 1) (tail pipe_lines) 1 (rpc_init pipe_lines)))
    as (g & s2 & H2 & Hr & Hread); try done.
  destruct (stdin_sent _ _ _ _ Hr) as (s3 & H3 & Hr').
  destruct (close_waits _ _ _ _ Hr') as (g' & s4 & H4 & Hw & Hi & Hg & Hread' & Hio).
  exists g', s4. split_and!; try done; [|by rewrite Hread', Hread].
  unfold rpc_run. etrans; [apply H1|]. etrans; [apply H2|]. by etrans.
Qed.

Lemma rpc_machine_safe_witness :
  ∃ s g, ex_run pipe_lines s ∧ s_goroutines s !! 1%nat = Some g
    ∧ f_vm (h_vm (s_handler s)) = Some 1%nat ∧ 1%nat ∉ f_dead (h_vm (s_handler s)).
Proof.
  destruct exec_pipe_run as (g & s & Hrun & _ & _ & Hg & _ & io & k & Hp & _).
  destruct (rpc_machine_safe ex_cls ex_config (λ _, "unmarshal") (λ _, "error") (λ l, String.concat " " l) (λ id, id)
              pipe_lines s 1 (ARun (JobExec 1%nat "cat" "" "") io)) as (Hvm & _).
  - exact Hrun.
  - right. by exists g, k.
  - destruct (Hvm 1%nat eq_refl). by exists s, g.
Defined.

Lemma rpc_input_exact_witness :
  ∃ s g cn, ex_run pipe_lines s ∧ s_goroutines s !! 1%nat = Some g ∧ g_read g = String.list_ascii_of_string "hi"
    ∧ channels s !! 0%nat = Some cn ∧ g_read g `prefix_of` chunk_data (before_eof (cn_sent cn)).
Proof.
  destruct exec_pipe_run as (g & s & Hrun & _ & _ & Hg & Hread & io & k & Hp & Hio).
  destruct (rpc_input_exact ex_cls ex_config (λ _, "unmarshal") (λ _, "error") (λ l, String.concat " " l) (λ id, id)
              pipe_lines s 1 g _ io k 0 Hrun Hg Hp Hio) as (cn & Hcn & Hpre & _).
  by exists s, g, cn.
Defined.

Lemma rpc_cancel_unread_witness :
  ∃ s, ex_run pipe_lines s ∧ waits_for 1 s ∧ s_input s = [request_line cancel7]
    ∧ ∀ s', rtc (step_without ex_cls ex_config (λ _, "unmarshal") (λ _, "error") (λ l, String.concat " " l) (λ id, id) 1) s s' →
        s_input s' = [request_line cancel7].
Proof.
  destruct exec_pipe_run as (g & s & Hrun & Hw & Hi & _).
  exists s. split_and!; [done..|]. intros s' Hs.
  destruct (rpc_cancel_unread ex_cls ex_config (λ _, "unmarshal") (λ _, "error") (λ l, String.concat " " l) (λ id, id) 1 s s' Hw Hs)
    as [_ ->]. exact Hi.
Defined.
