(* ===== verification/Fused.v ===== *)
(** * The guest's FUSE daemon: internal/guestruntime/fused

    The daemon turns what the guest's kernel asks of a mounted directory into requests of the
    VFS server of the host, one at a time over one connection, and keeps with every inode the
    path it stands for. github.com/hanwen/go-fuse calls it and keeps the tree of inodes; the
    connection and its codec are parameters. Requests and responses have the fields of
    [VfsServer]'s; how the daemon's declaration of them and the server's are encoded is in
    FusedCodec. *)

From S2P Require Import Prelude GoStrings GoPath VfsBase VfsServer Wire.

(** ** The client *)

Section client.
(** [cbor.Marshal] and [cbor.Unmarshal]. *)
Context (Marshal : VFSRequest → option bytes) (Unmarshal : bytes → option VFSResponse).

(** What [VFSClient.Request] sends. *)
Definition Request_frame (req : VFSRequest) : option bytes :=
  data ← Marshal req; Some (be32 (uint32 (blen data)) ++ data).

(** What it makes of what the connection then delivers. A read of no bytes is its end. *)
Definition Request_response (c : conn) : option (VFSResponse * conn) :=
  let '(lenBuf, ok, c) := agent_readFull 4 c in
  if negb ok then None
  else
    let '(respData, ok, c) := agent_readFull (u32 lenBuf) c in
    if negb ok then None else resp ← Unmarshal respData; Some (resp, c).

(** Requests, one after the other: the client's lock. *)
Fixpoint Request_responses (n : nat) (c : conn) : option (list VFSResponse * conn) :=
  match n with
  | O => Some ([], c)
  | S n' => '(resp, c) ← Request_response c; '(resps, c) ← Request_responses n' c; Some (resp :: resps, c)
  end.
End client.

(** ** Attributes *)

Definition S_IFDIR : Z := 0x4000.
Definition S_IFREG : Z := 0x8000.

Record Attr := {
  a_Ino : Z; a_Size : Z; a_Blocks : Z; a_Atime : Z; a_Mtime : Z; a_Ctime : Z;
  a_Mode : Z; a_Nlink : Z; a_Uid : Z; a_Gid : Z; a_Blksize : Z }.

Definition zero_attr : Attr := {|
  a_Ino := 0; a_Size := 0; a_Blocks := 0; a_Atime := 0; a_Mtime := 0; a_Ctime := 0;
  a_Mode := 0; a_Nlink := 0; a_Uid := 0; a_Gid := 0; a_Blksize := 0 |}.

Definition with_ino (ino : Z) (a : Attr) : Attr := {|
  a_Ino := ino; a_Size := a_Size a; a_Blocks := a_Blocks a; a_Atime := a_Atime a; a_Mtime := a_Mtime a; a_Ctime := a_Ctime a;
  a_Mode := a_Mode a; a_Nlink := a_Nlink a; a_Uid := a_Uid a; a_Gid := a_Gid a; a_Blksize := a_Blksize a |}.

Definition fillAttr (attr : Attr) (stat : option VFSStat) : Attr :=
  match stat with
  | None => attr
  | Some st => {|
      a_Ino := vs_Ino st; a_Size := uint64 (vs_Size st); a_Blocks := uint64 (uint64 (vs_Size st) + 511) / 512;
      a_Atime := uint64 (vs_ModTime st); a_Mtime := uint64 (vs_ModTime st); a_Ctime := uint64 (vs_ModTime st);
      a_Mode := Z.lor (if vs_IsDir st then S_IFDIR else S_IFREG) (Z.land (vs_Mode st) 0x1FF);
      a_Nlink := if vs_IsDir st then 2 else 1; a_Uid := vs_UID st; a_Gid := vs_GID st; a_Blksize := 4096 |}
  end.

Record entryAttrDefaults := { ed_mode : Z; ed_ino : Z; ed_isDir : bool }.

(** [out.Ino] is [out.Attr.Ino]. *)
Definition fillEntryAttr (out : Attr) (stat : option VFSStat) (defaults : entryAttrDefaults) : Attr :=
  match stat with
  | Some _ => fillAttr out stat
  | None => {|
      a_Ino := ed_ino defaults; a_Size := a_Size out; a_Blocks := a_Blocks out; a_Atime := a_Atime out;
      a_Mtime := a_Mtime out; a_Ctime := a_Ctime out; a_Mode := ed_mode defaults;
      a_Nlink := if ed_isDir defaults then 2 else 1; a_Uid := a_Uid out; a_Gid := a_Gid out; a_Blksize := 4096 |}
  end.

Definition inodeForPath (path : string) (isDir : bool) : Z :=
  let clean := Clean path in
  if decide (clean = "/") then 1
  else
    let ino := fnv1a (fnv1a fnv_offset (string_codes clean)) [code (if isDir then "d" else "f")%char] in
    if (ino =? 0) || (ino =? 1) then ino + 2 else ino.

(** ** Nodes *)

Record VFSRoot := { root_basePath : string }.
Record VFSNode := { vn_path : string; vn_isDir : bool }.
Record VFSFileHandle := { vh_handle : Z; vh_path : string }.

(** A directory is the root or a node; go-fuse may hand over something else as a new parent. *)
Inductive InodeEmbedder := EmbedRoot (r : VFSRoot) | EmbedNode (n : VFSNode) | EmbedOther.

(** [NewInode]: the daemon's part, and the stable attributes. *)
Record new_inode := { ni_node : VFSNode; ni_Mode : Z; ni_Ino : Z }.

Record dir_entry := { den_Name : string; den_Mode : Z; den_Ino : Z }.

(** The parts of a SETATTR that are there. *)
Record SetAttrIn := { sa_mode : option Z; sa_atime : option Z; sa_mtime : option Z; sa_size : option Z }.

(** What the kernel knows of a caller. *)
Record Caller := { caller_Uid : Z; caller_Gid : Z }.

Definition request0 (op : OpCode) (path : string) : VFSRequest := {|
  rq_Op := op; rq_Path := path; rq_NewPath := ""; rq_Handle := 0; rq_Offset := 0; rq_Size := 0; rq_Data := [];
  rq_Flags := 0; rq_Mode := 0; rq_UID := 0; rq_GID := 0; rq_AtimeNS := None; rq_MtimeNS := None |}.

Definition EIO_ : Z := 5.
Definition EINVAL_ : Z := 22.

(** *** Paths after a renaming *)

Definition rebasePathForRename (path oldPath newPath : string) : string :=
  if decide (path = oldPath) then newPath
  else if HasPrefix path (oldPath +:+ "/") then newPath +:+ TrimPrefix path oldPath
  else path.

(** An inode as the daemon sees it: its operations, and its children. *)
Inductive Inode := MkInode (ops : InodeEmbedder) (children : list (string * Inode)).

(** What [updateCachedPathsAfterRename] makes of an inode and all below it. *)
Fixpoint updateCachedPathsAfterRename (inode : Inode) (oldPath newPath : string) : Inode :=
  match inode with
  | MkInode ops children =>
      MkInode match ops with
              | EmbedNode n => EmbedNode {| vn_path := rebasePathForRename (vn_path n) oldPath newPath; vn_isDir := vn_isDir n |}
              | _ => ops
              end
              ((λ c, (c.1, updateCachedPathsAfterRename c.2 oldPath newPath)) <$> children)
  end.

Section nodes.
Context {W : Type}.
(** [VFSClient.Request]: [None] is an error. *)
Context (Request : VFSRequest → M W (option VFSResponse)).

Definition RequestCtx (ctx : option Caller) (req : VFSRequest) : M W (option VFSResponse) :=
  Request match ctx with
          | Some c => {| rq_Op := rq_Op req; rq_Path := rq_Path req; rq_NewPath := rq_NewPath req; rq_Handle := rq_Handle req;
                         rq_Offset := rq_Offset req; rq_Size := rq_Size req; rq_Data := rq_Data req; rq_Flags := rq_Flags req;
                         rq_Mode := rq_Mode req; rq_UID := caller_Uid c; rq_GID := caller_Gid c;
                         rq_AtimeNS := rq_AtimeNS req; rq_MtimeNS := rq_MtimeNS req |}
          | None => req
          end.

(** [syscall.Errno] is an unsigned word. *)
Definition Errno_of (e : Z) : Z := uint64 (int32 (- e)).

(** The answer, or an error number. *)
Definition ask (ctx : option Caller) (req : VFSRequest) : M W (result Z VFSResponse) :=
  resp ← RequestCtx ctx req;
  mret match resp with
       | None => Err EIO_
       | Some resp => if negb (int32 (rs_Err resp) =? 0) then Err (Errno_of (rs_Err resp)) else Ok resp
       end.

(** An operation of which the answer says only whether it was done: 0 or an error number. *)
Definition ask_done (ctx : option Caller) (req : VFSRequest) : M W Z :=
  r ← ask ctx req; mret match r with Ok _ => 0 | Err e => e end.

Section at_path.
Context (ctx : option Caller) (path : string).

Definition getattr_at (out : Attr) : M W (result Z Attr) :=
  r ← ask ctx (request0 OpGetattr path);
  mret match r with Ok resp => Ok (fillAttr out (rs_Stat resp)) | Err e => Err e end.

(** A nil [resp.Stat] is dereferenced for [isDir]. *)
Definition lookup_at (name : string) (out : Attr) : M W (result Z (new_inode * Attr)) :=
  let child := PathJoin [path; name] in
  r ← ask ctx (request0 OpLookup child);
  match r with
  | Err e => mret (Err e)
  | Ok resp =>
      let out := fillAttr out (rs_Stat resp) in
      let isDir := match rs_Stat resp with Some st => vs_IsDir st | None => false end in
      let out := if a_Ino out =? 0 then with_ino (inodeForPath child isDir) out else out in
      st ← liftp (rs_Stat resp);
      mret (Ok ({| ni_node := {| vn_path := child; vn_isDir := vs_IsDir st |}; ni_Mode := a_Mode out; ni_Ino := a_Ino out |}, out))
  end.

Definition readdir_at : M W (result Z (list dir_entry)) :=
  r ← ask ctx (request0 OpReaddir path);
  mret match r with
       | Err e => Err e
       | Ok resp =>
           Ok ((λ e, {| den_Name := vd_Name e; den_Mode := if vd_IsDir e then S_IFDIR else S_IFREG;
                        den_Ino := if vd_Ino e =? 0 then inodeForPath (PathJoin [path; vd_Name e]) (vd_IsDir e) else vd_Ino e |})
                 <$> rs_Entries resp)
       end.

Definition mkdir_at (name : string) (mode : Z) (out : Attr) : M W (result Z (new_inode * Attr)) :=
  let child := PathJoin [path; name] in
  r ← ask ctx {| rq_Op := OpMkdir; rq_Path := child; rq_NewPath := ""; rq_Handle := 0; rq_Offset := 0; rq_Size := 0; rq_Data := [];
                 rq_Flags := 0; rq_Mode := mode; rq_UID := 0; rq_GID := 0; rq_AtimeNS := None; rq_MtimeNS := None |};
  mret match r with
       | Err e => Err e
       | Ok resp =>
           let out := fillEntryAttr out (rs_Stat resp)
                        {| ed_mode := Z.lor S_IFDIR mode; ed_ino := inodeForPath child true; ed_isDir := true |} in
           Ok ({| ni_node := {| vn_path := child; vn_isDir := true |}; ni_Mode := a_Mode out; ni_Ino := a_Ino out |}, out)
       end.

Definition create_at (name : string) (flags mode : Z) (out : Attr) : M W (result Z (new_inode * VFSFileHandle * Attr)) :=
  let child := PathJoin [path; name] in
  r ← ask ctx {| rq_Op := OpCreate; rq_Path := child; rq_NewPath := ""; rq_Handle := 0; rq_Offset := 0; rq_Size := 0; rq_Data := [];
                 rq_Flags := flags; rq_Mode := mode; rq_UID := 0; rq_GID := 0; rq_AtimeNS := None; rq_MtimeNS := None |};
  mret match r with
       | Err e => Err e
       | Ok resp =>
           let out := fillEntryAttr out (rs_Stat resp)
                        {| ed_mode := Z.lor S_IFREG mode; ed_ino := inodeForPath child false; ed_isDir := false |} in
           Ok ({| ni_node := {| vn_path := child; vn_isDir := false |}; ni_Mode := a_Mode out; ni_Ino := a_Ino out |},
               {| vh_handle := rs_Handle resp; vh_path := child |}, out)
       end.

Definition unlink_at (name : string) : M W Z := ask_done ctx (request0 OpUnlink (PathJoin [path; name])).
Definition rmdir_at (name : string) : M W Z := ask_done ctx (request0 OpRmdir (PathJoin [path; name])).

(** [flags] is not looked at. [child] is [GetChild(name)], which is returned as it is then. *)
Definition rename_at (name : string) (newParent : InodeEmbedder) (newName : string) (flags : Z) (child : option Inode)
    : M W (Z * option Inode) :=
  let oldPath := PathJoin [path; name] in
  match (match newParent with
         | EmbedRoot p => Some (PathJoin [root_basePath p; newName])
         | EmbedNode p => Some (PathJoin [vn_path p; newName])
         | EmbedOther => None
         end) with
  | None => mret (EINVAL_, child)
  | Some newPath =>
      r ← ask ctx {| rq_Op := OpRename; rq_Path := oldPath; rq_NewPath := newPath; rq_Handle := 0; rq_Offset := 0; rq_Size := 0;
                     rq_Data := []; rq_Flags := 0; rq_Mode := 0; rq_UID := 0; rq_GID := 0; rq_AtimeNS := None; rq_MtimeNS := None |};
      mret match r with
           | Err e => (e, child)
           | Ok _ => (0, (λ c, updateCachedPathsAfterRename c oldPath newPath) <$> child)
           end
  end.
End at_path.

(** *** The root *)

Definition VFSRoot_Getattr ctx (r : VFSRoot) := getattr_at ctx (root_basePath r).
Definition VFSRoot_Lookup ctx (r : VFSRoot) := lookup_at ctx (root_basePath r).
Definition VFSRoot_Readdir ctx (r : VFSRoot) := readdir_at ctx (root_basePath r).
Definition VFSRoot_Mkdir ctx (r : VFSRoot) := mkdir_at ctx (root_basePath r).
Definition VFSRoot_Create ctx (r : VFSRoot) := create_at ctx (root_basePath r).
Definition VFSRoot_Unlink ctx (r : VFSRoot) := unlink_at ctx (root_basePath r).
Definition VFSRoot_Rmdir ctx (r : VFSRoot) := rmdir_at ctx (root_basePath r).
Definition VFSRoot_Rename ctx (r : VFSRoot) := rename_at ctx (root_basePath r).

(** *** Nodes *)

Definition VFSNode_Getattr ctx (n : VFSNode) := getattr_at ctx (vn_path n).
Definition VFSNode_Lookup ctx (n : VFSNode) := lookup_at ctx (vn_path n).
Definition VFSNode_Readdir ctx (n : VFSNode) := readdir_at ctx (vn_path n).
Definition VFSNode_Mkdir ctx (n : VFSNode) := mkdir_at ctx (vn_path n).
Definition VFSNode_Create ctx (n : VFSNode) := create_at ctx (vn_path n).
Definition VFSNode_Unlink ctx (n : VFSNode) := unlink_at ctx (vn_path n).
Definition VFSNode_Rmdir ctx (n : VFSNode) := rmdir_at ctx (vn_path n).
Definition VFSNode_Rename ctx (n : VFSNode) := rename_at ctx (vn_path n).

Definition VFSNode_Open ctx (n : VFSNode) (flags : Z) : M W (result Z VFSFileHandle) :=
  r ← ask ctx {| rq_Op := OpOpen; rq_Path := vn_path n; rq_NewPath := ""; rq_Handle := 0; rq_Offset := 0; rq_Size := 0; rq_Data := [];
                 rq_Flags := flags; rq_Mode := 0; rq_UID := 0; rq_GID := 0; rq_AtimeNS := None; rq_MtimeNS := None |};
  mret match r with Err e => Err e | Ok resp => Ok {| vh_handle := rs_Handle resp; vh_path := vn_path n |} end.

(** What is there is done in this order; the first failure ends it, and what was done stays. *)
Definition VFSNode_Setattr ctx (n : VFSNode) (fh : option VFSFileHandle) (inp : SetAttrIn) (out : Attr) : M W (result Z Attr) :=
  e ← match sa_mode inp with
      | None => mret 0
      | Some mode =>
          ask_done ctx {| rq_Op := OpSetattr; rq_Path := vn_path n; rq_NewPath := ""; rq_Handle := 0; rq_Offset := 0; rq_Size := 0;
                          rq_Data := []; rq_Flags := 0; rq_Mode := mode; rq_UID := 0; rq_GID := 0; rq_AtimeNS := None; rq_MtimeNS := None |}
      end;
  if negb (e =? 0) then mret (Err e) else
  e ← match sa_atime inp, sa_mtime inp with
      | None, None => mret 0
      | atime, mtime =>
          ask_done ctx {| rq_Op := OpChtimes; rq_Path := vn_path n; rq_NewPath := ""; rq_Handle := 0; rq_Offset := 0; rq_Size := 0;
                          rq_Data := []; rq_Flags := 0; rq_Mode := 0; rq_UID := 0; rq_GID := 0; rq_AtimeNS := atime; rq_MtimeNS := mtime |}
      end;
  if negb (e =? 0) then mret (Err e) else
  e ← match sa_size inp with
      | None => mret 0
      | Some sz =>
          ask_done ctx {| rq_Op := OpTruncate; rq_Path := vn_path n; rq_NewPath := "";
                          rq_Handle := match fh with Some h => vh_handle h | None => 0 end; rq_Offset := int64 sz; rq_Size := 0;
                          rq_Data := []; rq_Flags := 0; rq_Mode := 0; rq_UID := 0; rq_GID := 0; rq_AtimeNS := None; rq_MtimeNS := None |}
      end;
  if negb (e =? 0) then mret (Err e) else VFSNode_Getattr ctx n out.

(** *** Handles *)

Definition handle_request (op : OpCode) (h : VFSFileHandle) (off size : Z) (data : bytes) : VFSRequest := {|
  rq_Op := op; rq_Path := ""; rq_NewPath := ""; rq_Handle := vh_handle h; rq_Offset := off; rq_Size := size; rq_Data := data;
  rq_Flags := 0; rq_Mode := 0; rq_UID := 0; rq_GID := 0; rq_AtimeNS := None; rq_MtimeNS := None |}.

(** [size] is the length of the kernel's buffer. *)
Definition VFSFileHandle_Read ctx (h : VFSFileHandle) (size off : Z) : M W (result Z bytes) :=
  r ← ask ctx (handle_request OpRead h off (uint32 size) []);
  mret match r with Err e => Err e | Ok resp => Ok (rs_Data resp) end.

Definition VFSFileHandle_Write ctx (h : VFSFileHandle) (data : bytes) (off : Z) : M W (result Z Z) :=
  r ← ask ctx (handle_request OpWrite h off 0 data);
  mret match r with Err e => Err e | Ok resp => Ok (rs_Written resp) end.

Definition VFSFileHandle_Fsync ctx (h : VFSFileHandle) : M W Z := ask_done ctx (handle_request OpFsync h 0 0 []).

(** Whatever the answer is. *)
Definition VFSFileHandle_Release ctx (h : VFSFileHandle) : M W Z :=
  _ ← RequestCtx ctx (handle_request OpRelease h 0 0 []); mret 0.

Definition VFSFileHandle_Getattr ctx (h : VFSFileHandle) := getattr_at ctx (vh_path h).

Definition VFSNode_Fsync ctx (n : VFSNode) (f : option VFSFileHandle) : M W Z :=
  match f with
  | Some fh => VFSFileHandle_Fsync ctx fh
  | None => ask_done ctx (request0 OpFsyncPath (vn_path n))
  end.
End nodes.

(** ** Where it mounts *)

Definition workspace_param : string := "matchlock.workspace=".

Fixpoint find_workspace (fields : list string) : string :=
  match fields with
  | [] => ""
  | part :: rest => if HasPrefix part workspace_param then TrimPrefix part workspace_param else find_workspace rest
  end.

(** [/proc/cmdline], if it can be read. *)
Definition getWorkspaceFromCmdline (cmdline : option string) : string :=
  match cmdline with Some data => find_workspace (Fields data) | None => "" end.
