(* ===== verification/FusedCodec.v ===== *)
(** * The two copies of the VFS protocol: internal/guestruntime/fused and pkg/vfs

    The daemon and the server each declare the requests and responses, with the same fields
    ([VFSRequest], [VFSResponse] of [VfsServer]) but each with its own operation numbers and
    CBOR names. Here each side encodes and decodes by its own declaration, to and from data
    items, the library's [cbor.Marshal] and [cbor.Unmarshal] of which are parameters. *)

From S2P Require Import Prelude GoStrings GoPath GoJson GoJsonSpec VfsBase VfsServer Wire Fused.

(** ** Data items *)

Inductive cbor :=
| CInt (n : Z) | CBytes (b : bytes) | CText (s : string) | CBool (b : bool) | CNull
| CArr (l : list cbor) | CMap (l : list (string * cbor)).

Fixpoint text_ok (v : cbor) : bool :=
  match v with
  | CText s => ValidString s
  | CArr l => forallb text_ok l
  | CMap l => forallb (λ kv, ValidString kv.1 && text_ok kv.2) l
  | _ => true
  end.

Fixpoint ints_ok (v : cbor) : bool :=
  match v with
  | CInt n => (- 2 ^ 64 <=? n) && (n <? 2 ^ 64)
  | CArr l => forallb ints_ok l
  | CMap l => forallb (λ kv, ints_ok kv.2) l
  | _ => true
  end.

(** A member of a struct: left out when it is empty and its tag says so. *)
Definition member (name : string) (omitempty empty : bool) (v : cbor) : list (string * cbor) :=
  if omitempty && empty then [] else [(name, v)].

Fixpoint item (name : string) (l : list (string * cbor)) : option cbor :=
  match l with [] => None | (n, v) :: l' => if decide (n = name) then Some v else item name l' end.

(** What a field of a struct becomes: what is absent or null leaves it [zero]. *)
Definition field {A} (zero : A) (dec : cbor → option A) (name : string) (l : list (string * cbor)) : option A :=
  match item name l with None | Some CNull => Some zero | Some v => dec v end.

(** An integer must fit the type of its field. *)
Definition in_range (lo hi n : Z) : bool := (lo <=? n) && (n <? hi).
Definition dec_int (lo hi : Z) (v : cbor) : option Z :=
  match v with CInt n => if in_range lo hi n then Some n else None | _ => None end.
Abbreviation dec_uint8 := (dec_int 0 (2 ^ 8)).
Abbreviation dec_uint32 := (dec_int 0 (2 ^ 32)).
Abbreviation dec_uint64 := (dec_int 0 (2 ^ 64)).
Abbreviation dec_int32 := (dec_int (- 2 ^ 31) (2 ^ 31)).
Abbreviation dec_int64 := (dec_int (- 2 ^ 63) (2 ^ 63)).

Definition dec_text (v : cbor) : option string := match v with CText s => Some s | _ => None end.
Definition dec_bytes (v : cbor) : option bytes := match v with CBytes b => Some b | _ => None end.
Definition dec_bool (v : cbor) : option bool := match v with CBool b => Some b | _ => None end.
Definition dec_ptr {A} (dec : cbor → option A) (v : cbor) : option (option A) := Some <$> dec v.
Definition dec_list {A} (dec : cbor → option A) (v : cbor) : option (list A) := match v with CArr l => mapM dec l | _ => None end.
Definition dec_struct {A} (dec : list (string * cbor) → option A) (v : cbor) : option A := match v with CMap l => dec l | _ => None end.

Definition empty_text (s : string) : bool := bool_decide (s = "").
Definition absent {A} (o : option A) : bool := match o with Some _ => false | None => true end.
Definition ptr_item {A} (enc : A → cbor) (o : option A) : cbor := match o with Some a => enc a | None => CNull end.

(** ** The daemon's copy *)

(** The constants of its [OpCode]. *)
Definition client_op (op : OpCode) : Z :=
  match op with
  | OpLookup => 0 | OpGetattr => 1 | OpSetattr => 2 | OpRead => 3 | OpWrite => 4 | OpCreate => 5 | OpMkdir => 6
  | OpUnlink => 7 | OpRmdir => 8 | OpRename => 9 | OpOpen => 10 | OpRelease => 11 | OpReaddir => 12 | OpFsync => 13
  | OpMkdirAll => 14 | OpTruncate => 15 | OpSymlink => 16 | OpReadlink => 17 | OpLink => 18 | OpFsyncPath => 19
  | OpChtimes => 20 | OpUnknown code => code
  end.

Definition client_request (r : VFSRequest) : cbor := CMap (
  member "op" false false (CInt (client_op (rq_Op r))) ++
  member "path" true (empty_text (rq_Path r)) (CText (rq_Path r)) ++
  member "new_path" true (empty_text (rq_NewPath r)) (CText (rq_NewPath r)) ++
  member "fh" true (rq_Handle r =? 0) (CInt (rq_Handle r)) ++
  member "off" true (rq_Offset r =? 0) (CInt (rq_Offset r)) ++
  member "sz" true (rq_Size r =? 0) (CInt (rq_Size r)) ++
  member "data" true (is_empty (rq_Data r)) (CBytes (rq_Data r)) ++
  member "flags" true (rq_Flags r =? 0) (CInt (rq_Flags r)) ++
  member "mode" true (rq_Mode r =? 0) (CInt (rq_Mode r)) ++
  member "uid" true (rq_UID r =? 0) (CInt (rq_UID r)) ++
  member "gid" true (rq_GID r =? 0) (CInt (rq_GID r)) ++
  member "atime_ns" true (absent (rq_AtimeNS r)) (ptr_item CInt (rq_AtimeNS r)) ++
  member "mtime_ns" true (absent (rq_MtimeNS r)) (ptr_item CInt (rq_MtimeNS r)) ++ []).

Definition client_stat (l : list (string * cbor)) : option VFSStat :=
  size ← field 0 dec_int64 "size" l;
  mode ← field 0 dec_uint32 "mode" l;
  mtime ← field 0 dec_int64 "mtime" l;
  is_dir ← field false dec_bool "is_dir" l;
  ino ← field 0 dec_uint64 "ino" l;
  uid ← field 0 dec_uint32 "uid" l;
  gid ← field 0 dec_uint32 "gid" l;
  Some {| vs_Size := size; vs_Mode := mode; vs_ModTime := mtime; vs_IsDir := is_dir; vs_Ino := ino; vs_UID := uid; vs_GID := gid |}.

Definition client_entry (l : list (string * cbor)) : option VFSDirEntry :=
  name ← field "" dec_text "name" l;
  is_dir ← field false dec_bool "is_dir" l;
  mode ← field 0 dec_uint32 "mode" l;
  size ← field 0 dec_int64 "size" l;
  ino ← field 0 dec_uint64 "ino" l;
  Some {| vd_Name := name; vd_IsDir := is_dir; vd_Mode := mode; vd_Size := size; vd_Ino := ino |}.

Definition client_response : cbor → option VFSResponse := dec_struct (λ l,
  e ← field 0 dec_int32 "err" l;
  stat ← field None (dec_ptr (dec_struct client_stat)) "stat" l;
  data ← field [] dec_bytes "data" l;
  written ← field 0 dec_uint32 "written" l;
  fh ← field 0 dec_uint64 "fh" l;
  entries ← field [] (dec_list (dec_struct client_entry)) "entries" l;
  Some {| rs_Err := e; rs_Stat := stat; rs_Data := data; rs_Written := written; rs_Handle := fh; rs_Entries := entries |}).

(** ** The server's copy *)

Definition server_op (n : Z) : OpCode :=
  match n with
  | 0 => OpLookup | 1 => OpGetattr | 2 => OpSetattr | 3 => OpRead | 4 => OpWrite | 5 => OpCreate | 6 => OpMkdir
  | 7 => OpUnlink | 8 => OpRmdir | 9 => OpRename | 10 => OpOpen | 11 => OpRelease | 12 => OpReaddir | 13 => OpFsync
  | 14 => OpMkdirAll | 15 => OpTruncate | 16 => OpSymlink | 17 => OpReadlink | 18 => OpLink | 19 => OpFsyncPath
  | 20 => OpChtimes | n => OpUnknown n
  end.

Definition server_request : cbor → option VFSRequest := dec_struct (λ l,
  op ← field 0 dec_uint8 "op" l;
  path ← field "" dec_text "path" l;
  new_path ← field "" dec_text "new_path" l;
  fh ← field 0 dec_uint64 "fh" l;
  off ← field 0 dec_int64 "off" l;
  sz ← field 0 dec_uint32 "sz" l;
  data ← field [] dec_bytes "data" l;
  flags ← field 0 dec_uint32 "flags" l;
  mode ← field 0 dec_uint32 "mode" l;
  uid ← field 0 dec_uint32 "uid" l;
  gid ← field 0 dec_uint32 "gid" l;
  atime ← field None (dec_ptr dec_int64) "atime_ns" l;
  mtime ← field None (dec_ptr dec_int64) "mtime_ns" l;
  Some {| rq_Op := server_op op; rq_Path := path; rq_NewPath := new_path; rq_Handle := fh; rq_Offset := off; rq_Size := sz;
          rq_Data := data; rq_Flags := flags; rq_Mode := mode; rq_UID := uid; rq_GID := gid; rq_AtimeNS := atime; rq_MtimeNS := mtime |}).

Definition server_stat (s : VFSStat) : cbor := CMap (
  member "size" false false (CInt (vs_Size s)) ++
  member "mode" false false (CInt (vs_Mode s)) ++
  member "mtime" false false (CInt (vs_ModTime s)) ++
  member "is_dir" false false (CBool (vs_IsDir s)) ++
  member "ino" true (vs_Ino s =? 0) (CInt (vs_Ino s)) ++
  member "uid" true (vs_UID s =? 0) (CInt (vs_UID s)) ++
  member "gid" true (vs_GID s =? 0) (CInt (vs_GID s)) ++ []).

Definition server_entry (e : VFSDirEntry) : cbor := CMap (
  member "name" false false (CText (vd_Name e)) ++
  member "is_dir" false false (CBool (vd_IsDir e)) ++
  member "mode" false false (CInt (vd_Mode e)) ++
  member "size" false false (CInt (vd_Size e)) ++
  member "ino" true (vd_Ino e =? 0) (CInt (vd_Ino e)) ++ []).

Definition server_response (r : VFSResponse) : cbor := CMap (
  member "err" false false (CInt (rs_Err r)) ++
  member "stat" true (absent (rs_Stat r)) (ptr_item server_stat (rs_Stat r)) ++
  member "data" true (is_empty (rs_Data r)) (CBytes (rs_Data r)) ++
  member "written" true (rs_Written r =? 0) (CInt (rs_Written r)) ++
  member "fh" true (rs_Handle r =? 0) (CInt (rs_Handle r)) ++
  member "entries" true (is_empty (rs_Entries r)) (CArr (server_entry <$> rs_Entries r)) ++ []).

(** ** They agree *)

(** What fits the types of the fields, with text that is UTF-8. *)
Record request_ok (r : VFSRequest) : Prop := {
  qo_op : 0 <= client_op (rq_Op r) < 2 ^ 8 ∧ server_op (client_op (rq_Op r)) = rq_Op r;
  qo_path : ValidString (rq_Path r) = true; qo_new_path : ValidString (rq_NewPath r) = true;
  qo_handle : 0 <= rq_Handle r < 2 ^ 64; qo_offset : is_int64 (rq_Offset r); qo_size : 0 <= rq_Size r < 2 ^ 32;
  qo_flags : 0 <= rq_Flags r < 2 ^ 32; qo_mode : 0 <= rq_Mode r < 2 ^ 32;
  qo_uid : 0 <= rq_UID r < 2 ^ 32; qo_gid : 0 <= rq_GID r < 2 ^ 32;
  qo_atime : ∀ t, rq_AtimeNS r = Some t → is_int64 t; qo_mtime : ∀ t, rq_MtimeNS r = Some t → is_int64 t }.

Record stat_ok (s : VFSStat) : Prop := {
  so_size : is_int64 (vs_Size s); so_mode : 0 <= vs_Mode s < 2 ^ 32; so_mtime : is_int64 (vs_ModTime s);
  so_ino : 0 <= vs_Ino s < 2 ^ 64; so_uid : 0 <= vs_UID s < 2 ^ 32; so_gid : 0 <= vs_GID s < 2 ^ 32 }.

Record entry_ok (e : VFSDirEntry) : Prop := {
  eo_name : ValidString (vd_Name e) = true; eo_mode : 0 <= vd_Mode e < 2 ^ 32; eo_size : is_int64 (vd_Size e);
  eo_ino : 0 <= vd_Ino e < 2 ^ 64 }.

Record response_ok (r : VFSResponse) : Prop := {
  ro_err : - 2 ^ 31 <= rs_Err r < 2 ^ 31; ro_stat : ∀ s, rs_Stat r = Some s → stat_ok s;
  ro_written : 0 <= rs_Written r < 2 ^ 32; ro_handle : 0 <= rs_Handle r < 2 ^ 64;
  ro_entries : Forall entry_ok (rs_Entries r) }.

Lemma item_skip n m o e v l : n ≠ m → item n (member m o e v ++ l) = item n l.
Proof. intros Hne. unfold member. destruct (o && e); [done|]. cbn. by rewrite decide_False by congruence. Qed.

Lemma field_skip {A} (zero : A) dec n m o e v l : n ≠ m → field zero dec n (member m o e v ++ l) = field zero dec n l.
Proof. intros Hne. unfold field. by rewrite item_skip. Qed.

Lemma field_here {A} (zero : A) dec n o e v l x :
  (e = true → x = zero) → (o = true → item n l = None) → (o && e = false → v ≠ CNull ∧ dec v = Some x) →
  field zero dec n (member n o e v ++ l) = Some x.
Proof.
  intros Hz Hl Hv. unfold field, member. destruct (o && e) eqn:E; cbn.
  - apply andb_true_iff in E as [-> ->]. by rewrite Hl, Hz.
  - rewrite decide_True by done. destruct Hv as [Hn Hd]; [done|]. by destruct v.
Qed.

Lemma dec_int_ok lo hi n : lo <= n < hi → dec_int lo hi (CInt n) = Some n.
Proof. intros [H1 H2]. unfold dec_int, in_range. by rewrite (proj2 (Z.leb_le _ _) H1), (proj2 (Z.ltb_lt _ _) H2). Qed.

(** The next field of a struct that was encoded: it is skipped to, and what it holds is decoded. *)
Ltac next_field x :=
  apply (option_bind_step _ _ x);
  [repeat (rewrite field_skip by discriminate); apply field_here;
     [try discriminate|intros _; repeat (rewrite item_skip by discriminate); reflexivity|]|];
  cbv beta.
Ltac zero_int := by intros ?%Z.eqb_eq.
Ltac whole_int := intros _; split; [done|]; apply dec_int_ok; unfold is_int64 in *; lia.

Lemma server_op_client op : match op with OpUnknown c => 21 <= c < 2 ^ 8 | _ => True end →
  0 <= client_op op < 2 ^ 8 ∧ server_op (client_op op) = op.
Proof.
  destruct op; cbn [client_op]; try done. intros Hc. split; [lia|]. unfold server_op.
  do 5 (destruct code as [|code|code]; try lia; try done; destruct code as [code|code|]; try lia; try done).
Qed.

Lemma ptr_ok (o : option Z) : (∀ t, o = Some t → is_int64 t) →
  true && absent o = false → ptr_item CInt o ≠ CNull ∧ dec_ptr dec_int64 (ptr_item CInt o) = Some o.
Proof.
  intros Ho. destruct o as [t|]; [|done]. intros _. split; [done|]. cbn [ptr_item]. unfold dec_ptr. specialize (Ho t eq_refl).
  rewrite dec_int_ok; [done|unfold is_int64 in *; lia].
Qed.

Theorem request_agrees r : request_ok r → server_request (client_request r) = Some r.
Proof.
  intros [[Hop Hop'] _ _ Hh Ho Hs Hf Hm Hu Hg Ha Ht]. unfold server_request, client_request. cbn [dec_struct].
  next_field (client_op (rq_Op r)); [whole_int|].
  next_field (rq_Path r); [by intros ?%bool_decide_eq_true|done|].
  next_field (rq_NewPath r); [by intros ?%bool_decide_eq_true|done|].
  next_field (rq_Handle r); [zero_int|whole_int|]. next_field (rq_Offset r); [zero_int|whole_int|].
  next_field (rq_Size r); [zero_int|whole_int|]. next_field (rq_Data r); [by destruct (rq_Data r)|done|].
  next_field (rq_Flags r); [zero_int|whole_int|]. next_field (rq_Mode r); [zero_int|whole_int|].
  next_field (rq_UID r); [zero_int|whole_int|]. next_field (rq_GID r); [zero_int|whole_int|].
  next_field (rq_AtimeNS r); [by destruct (rq_AtimeNS r)|by apply ptr_ok|].
  next_field (rq_MtimeNS r); [by destruct (rq_MtimeNS r)|by apply ptr_ok|].
  rewrite Hop'. by destruct r.
Qed.

Lemma stat_agrees s : stat_ok s → dec_struct client_stat (server_stat s) = Some s.
Proof.
  intros [Hs Hm Ht Hi Hu Hg]. unfold server_stat, client_stat. cbn [dec_struct].
  next_field (vs_Size s); [whole_int|]. next_field (vs_Mode s); [whole_int|]. next_field (vs_ModTime s); [whole_int|].
  next_field (vs_IsDir s); [done|]. next_field (vs_Ino s); [zero_int|whole_int|].
  next_field (vs_UID s); [zero_int|whole_int|]. next_field (vs_GID s); [zero_int|whole_int|]. by destruct s.
Qed.

Lemma entry_agrees e : entry_ok e → dec_struct client_entry (server_entry e) = Some e.
Proof.
  intros [_ Hm Hs Hi]. unfold server_entry, client_entry. cbn [dec_struct].
  next_field (vd_Name e); [done|]. next_field (vd_IsDir e); [done|]. next_field (vd_Mode e); [whole_int|].
  next_field (vd_Size e); [whole_int|]. next_field (vd_Ino e); [zero_int|whole_int|]. by destruct e.
Qed.

Theorem response_agrees r : response_ok r → client_response (server_response r) = Some r.
Proof.
  intros [He Hs Hw Hh Hent]. unfold client_response, server_response. cbn [dec_struct].
  next_field (rs_Err r); [whole_int|].
  next_field (rs_Stat r); [by destruct (rs_Stat r)| |].
  { destruct (rs_Stat r) as [s|]; [|done]. intros _. split; [done|]. cbn [ptr_item]. unfold dec_ptr. by rewrite stat_agrees by auto. }
  next_field (rs_Data r); [by destruct (rs_Data r)|done|].
  next_field (rs_Written r); [zero_int|whole_int|]. next_field (rs_Handle r); [zero_int|whole_int|].
  next_field (rs_Entries r); [by destruct (rs_Entries r)| |].
  { intros _. split; [done|]. cbn [dec_list]. apply mapM_Some, Forall2_fmap_l, Forall2_same_length_lookup_2; [done|].
    intros k e e' H1 H2. simplify_eq. apply entry_agrees. by eapply Forall_lookup_1. }
  by destruct r.
Qed.

(** The text of a message is its paths, or its names. *)
Lemma members_text n o e v l : ValidString n = true →
  forallb (λ kv, ValidString kv.1 && text_ok kv.2) (member n o e v ++ l)
  = ((o && e) || text_ok v) && forallb (λ kv, ValidString kv.1 && text_ok kv.2) l.
Proof. intros Hn. unfold member. destruct (o && e); [done|]. cbn [forallb fst snd app orb]. by rewrite Hn. Qed.

Lemma request_text r : text_ok (client_request r) = ValidString (rq_Path r) && ValidString (rq_NewPath r).
Proof.
  unfold client_request. cbn [text_ok]. repeat (rewrite members_text by done). cbn [text_ok forallb andb orb].
  assert (Ht : ∀ s, empty_text s || ValidString s = ValidString s).
  { intros s. unfold empty_text. by case_bool_decide as Hs; [rewrite Hs|]. }
  assert (Hp : ∀ o : option Z, text_ok (ptr_item CInt o) = true) by (by intros []).
  by rewrite !Ht, !Hp, !orb_true_r, !andb_true_r.
Qed.

Lemma response_text r : response_ok r → text_ok (server_response r) = true.
Proof.
  intros [_ _ _ _ He]. unfold server_response. cbn [text_ok]. repeat (rewrite members_text by done). cbn [text_ok forallb andb orb].
  assert (Hs : text_ok (ptr_item server_stat (rs_Stat r)) = true).
  { destruct (rs_Stat r) as [s|]; [|done]. cbn [ptr_item]. unfold server_stat. cbn [text_ok].
    repeat (rewrite members_text by done). cbn [text_ok forallb]. by rewrite !orb_true_r. }
  assert (Hl : forallb text_ok (server_entry <$> rs_Entries r) = true).
  { apply forallb_forall. intros v Hv. apply list_elem_of_In, list_elem_of_fmap in Hv as (e & -> & Hin).
    rewrite Forall_forall in He. destruct (He e Hin) as [Hn _ _ _]. unfold server_entry. cbn [text_ok].
    repeat (rewrite members_text by done). cbn [text_ok forallb]. by rewrite Hn, !orb_true_r. }
  by rewrite Hs, Hl, !orb_true_r.
Qed.

(** And its integers are integers of the format. *)
Lemma members_ints n o e v l :
  ints_ok v = true → forallb (λ kv, ints_ok kv.2) l = true → forallb (λ kv, ints_ok kv.2) (member n o e v ++ l) = true.
Proof. intros Hv Hl. unfold member. destruct (o && e); [done|]. cbn [app forallb snd]. by rewrite Hv. Qed.

Lemma int_ints n : - 2 ^ 63 <= n < 2 ^ 64 → ints_ok (CInt n) = true.
Proof. intros Hn. cbn [ints_ok]. apply andb_true_iff. split; [apply Z.leb_le|apply Z.ltb_lt]; lia. Qed.

Lemma request_ints r : request_ok r → ints_ok (client_request r) = true.
Proof.
  intros [[Hop _] _ _ Hh Ho Hs Hf Hm Hu Hg Ha Ht]. unfold client_request. cbn [ints_ok].
  assert (Hp : ∀ o : option Z, (∀ t, o = Some t → is_int64 t) → ints_ok (ptr_item CInt o) = true).
  { intros [t|] Ht'; [|done]. apply int_ints. specialize (Ht' t eq_refl). unfold is_int64 in *. lia. }
  repeat (apply members_ints; [first [done|by apply Hp|apply int_ints; unfold is_int64 in *; lia]|]). done.
Qed.

Lemma response_ints r : response_ok r → ints_ok (server_response r) = true.
Proof.
  intros [He Hs Hw Hh Hent]. unfold server_response. cbn [ints_ok].
  assert (Hstat : ints_ok (ptr_item server_stat (rs_Stat r)) = true).
  { destruct (rs_Stat r) as [s|]; [|done]. destruct (Hs s eq_refl) as [? ? ? ? ? ?]. cbn [ptr_item]. unfold server_stat. cbn [ints_ok].
    repeat (apply members_ints; [first [done|apply int_ints; unfold is_int64 in *; lia]|]). done. }
  assert (Hl : ints_ok (CArr (server_entry <$> rs_Entries r)) = true).
  { cbn [ints_ok]. apply forallb_forall. intros v Hv. apply list_elem_of_In, list_elem_of_fmap in Hv as (e & -> & Hin).
    rewrite Forall_forall in Hent. destruct (Hent e Hin) as [_ ? ? ?]. unfold server_entry. cbn [ints_ok].
    repeat (apply members_ints; [first [done|apply int_ints; unfold is_int64 in *; lia]|]). done. }
  repeat (apply members_ints; [first [done|apply int_ints; unfold is_int64 in *; lia]|]). done.
Qed.
