(* ===== verification/FusedSpec.v ===== *)
(** * What the FUSE daemon keeps right

    The paths of the inodes, however files are made, removed and renamed; and the requests and
    answers over the connection, up to the provider that serves them. go-fuse's tree of inodes
    is an interface, [FsTree]. *)

From S2P Require Import Prelude GoStrings GoPath GoJson VfsBase VfsServer Wire WireSpec Fused FusedCodec.

(** ** The tree of inodes

    What go-fuse documents of it. An inode that an operation returns is added to the tree where
    the operation found or made it, but if go-fuse knows an inode of the same number and mode,
    in the tree or still remembered by the kernel, then that one is added instead. What was
    removed or renamed is so in the tree too. Positions are names from the root; the laws of the
    positions are for a tree in which no inode is found twice ([Single]). *)

Definition inode_ops (i : Inode) : InodeEmbedder := match i with MkInode o _ => o end.
Definition inode_children (i : Inode) : list (string * Inode) := match i with MkInode _ c => c end.

(** The inode some names below another one: [GetChild], repeatedly. *)
Fixpoint find_child (name : string) (l : list (string * Inode)) : option Inode :=
  match l with
  | [] => None
  | (n, i) :: l' => if decide (n = name) then Some i else find_child name l'
  end.
Fixpoint below (i : Inode) (names : list string) : option Inode :=
  match names with [] => Some i | n :: names' => find_child n (inode_children i) ≫= λ c, below c names' end.

Class FsTree (T : Type) := {
  InodeAt : T → list string → option Inode;
  Known : T → new_inode → option Inode;  (* by its number and mode *)
  Single : T → Prop;
  Attach : T → list string → new_inode → T;
  Detach : T → list string → T;
  Move : T → list string → Inode → list string → T;  (* with what the daemon wrote to the nodes there *)
  ops_at (t : T) (p : list string) : option InodeEmbedder := inode_ops <$> InodeAt t p;
  (* What is known after a change was known before it, or is in the tree. *)
  recalls (t t' : T) : Prop := ∀ ni i, Known t' ni = Some i → (∃ ni', Known t ni' = Some i) ∨ ∃ q, InodeAt t' q = Some i;
  InodeAt_below t p i r o : InodeAt t p = Some i → inode_ops <$> below i r = Some o → ops_at t (p ++ r) = Some o;
  Attach_ops t p ni r o :
    Single t → ops_at (Attach t p ni) r = Some o →
    (∃ s, r = p ++ s ∧ match Known t ni with
                       | None => s = [] ∧ o = EmbedNode (ni_node ni)
                       | Some i => inode_ops <$> below i s = Some o
                       end) ∨ ops_at t r = Some o;
  Detach_ops t p r o : ops_at (Detach t p) r = Some o → ops_at t r = Some o;
  Move_ops t p i q r o :
    Single t → p ≠ [] → q ≠ [] → ops_at (Move t p i q) r = Some o →
    (∃ s, r = q ++ s ∧ inode_ops <$> below i s = Some o) ∨ ops_at t r = Some o ∧ ¬ p `prefix_of` r;
  Attach_single t p ni : Single t → (∀ i q, Known t ni = Some i → InodeAt t q = Some i → q = p) → Single (Attach t p ni);
  Detach_single t p : Single t → Single (Detach t p);
  Move_single t p i q : Single t → Single (Move t p i q);
  Attach_recalls t p ni : recalls t (Attach t p ni);
  Detach_recalls t p : recalls t (Detach t p);
  Move_recalls t p i q : recalls t (Move t p i q) }.

(** ** Renaming *)

Definition rebase_ops (old new : string) (o : InodeEmbedder) : InodeEmbedder :=
  match o with
  | EmbedNode n => EmbedNode {| vn_path := rebasePathForRename (vn_path n) old new; vn_isDir := vn_isDir n |}
  | _ => o
  end.

Lemma find_child_fmap f name l :
  find_child name ((λ c : string * Inode, (c.1, f c.2)) <$> l) = f <$> find_child name l.
Proof. induction l as [|[n i] l IH]; [done|]. cbn. by case_decide. Qed.

Lemma updated_ops i old new :
  inode_ops (updateCachedPathsAfterRename i old new) = rebase_ops old new (inode_ops i)
  ∧ inode_children (updateCachedPathsAfterRename i old new)
    = (λ c, (c.1, updateCachedPathsAfterRename c.2 old new)) <$> inode_children i.
Proof. by destruct i as [[] ?]. Qed.

(** Everything below is rebased. *)
Lemma updated_below i old new names :
  inode_ops <$> below (updateCachedPathsAfterRename i old new) names
  = rebase_ops old new <$> (inode_ops <$> below i names).
Proof.
  revert i. induction names as [|n names IH]; intros i; cbn [below].
  - cbn. by rewrite (proj1 (updated_ops i old new)).
  - rewrite (proj2 (updated_ops i old new)).
    rewrite (find_child_fmap (λ c, updateCachedPathsAfterRename c old new)). destruct (find_child n _); [apply IH|done].
Qed.

(** A path below the renamed one moves with it. *)
Lemma rebase_below old new k :
  Forall normal (old ++ k) → old ≠ [] →
  rebasePathForRename (abs_path (old ++ k)) (abs_path old) (abs_path new)
  = if decide (k = []) then abs_path new else abs_path new +:+ abs_path k.
Proof.
  intros Hn Hold. pose proof (proj1 (proj1 (Forall_app _ _ _) Hn)) as Ho. unfold rebasePathForRename.
  destruct (decide (k = [])) as [->|Hk].
  - rewrite app_nil_r. by rewrite decide_True.
  - rewrite decide_False.
    2:{ intros He%abs_path_inj; [|done|done]. apply Hk, (app_inv_head old). by rewrite app_nil_r. }
    assert (Hp : HasPrefix (abs_path (old ++ k)) (abs_path old +:+ "/") = true) by (apply HasPrefix_dir; eauto).
    rewrite Hp. by rewrite abs_path_app, TrimPrefix_app.
Qed.

Lemma rebase_position base p q s :
  Forall normal (base ++ p ++ s) → p ≠ [] → q ≠ [] →
  rebasePathForRename (abs_path (base ++ p ++ s)) (abs_path (base ++ p)) (abs_path (base ++ q)) = abs_path (base ++ q ++ s).
Proof.
  intros Hn Hp Hq. rewrite app_assoc in Hn. rewrite (app_assoc base p), (app_assoc base q).
  assert (base ++ p ≠ []) by (by destruct base, p). assert (base ++ q ≠ []) by (by destruct base, q).
  rewrite rebase_below by done. destruct (decide (s = [])) as [->|Hs]; [by rewrite app_nil_r|]. by rewrite (abs_path_app (base ++ q)) by done.
Qed.

(** ** Paths *)

Section paths.
Context {T W : Type} `{FsTree T} (Request : VFSRequest → M W (option VFSResponse)).
(** The mounted directory, of which the daemon was told. *)
Context (base : list string).

Definition dir_path (o : InodeEmbedder) : option string :=
  match o with EmbedRoot r => Some (root_basePath r) | EmbedNode n => Some (vn_path n) | EmbedOther => None end.

(** What the kernel asks of the daemon, and what becomes of the tree. Names are single elements.
    [ok] is what we ask of an inode that is to be attached. *)
Inductive fuse_step (ok : T → new_inode → Prop) : T * W → T * W → Prop :=
| FuseLookup t w p o path ctx name out ni attr w' :
    ops_at t p = Some o → dir_path o = Some path → normal name →
    lookup_at Request ctx path name out w = Some (Ok (ni, attr), w') → ok t ni →
    fuse_step ok (t, w) (Attach t (p ++ [name]) ni, w')
| FuseMkdir t w p o path ctx name mode out ni attr w' :
    ops_at t p = Some o → dir_path o = Some path → normal name →
    mkdir_at Request ctx path name mode out w = Some (Ok (ni, attr), w') → ok t ni →
    fuse_step ok (t, w) (Attach t (p ++ [name]) ni, w')
| FuseCreate t w p o path ctx name flags mode out ni h attr w' :
    ops_at t p = Some o → dir_path o = Some path → normal name →
    create_at Request ctx path name flags mode out w = Some (Ok (ni, h, attr), w') → ok t ni →
    fuse_step ok (t, w) (Attach t (p ++ [name]) ni, w')
| FuseUnlink t w p o path ctx name w' :
    ops_at t p = Some o → dir_path o = Some path → normal name →
    unlink_at Request ctx path name w = Some (0, w') ∨ rmdir_at Request ctx path name w = Some (0, w') →
    fuse_step ok (t, w) (Detach t (p ++ [name]), w')
| FuseRename t w p o path ctx name q newParent newName flags child child' w' :
    ops_at t p = Some o → dir_path o = Some path → normal name →
    ops_at t q = Some newParent → normal newName → InodeAt t (p ++ [name]) = Some child →
    rename_at Request ctx path name newParent newName flags (Some child) w = Some ((0, Some child'), w') →
    fuse_step ok (t, w) (Move t (p ++ [name]) child' (q ++ [newName]), w')
(* everything else: an operation that fails, or does not concern the tree *)
| FuseOther t w w' : fuse_step ok (t, w) (t, w').

(** An inode stands for the path from the root to it. *)
Definition path_ok (r : list string) (o : InodeEmbedder) : Prop :=
  Forall normal (base ++ r) ∧
  match o with
  | EmbedRoot root => r = [] ∧ root_basePath root = abs_path base
  | EmbedNode n => vn_path n = abs_path (base ++ r)
  | EmbedOther => False
  end.

Definition paths_ok (t : T) : Prop := ∀ r o, ops_at t r = Some o → path_ok r o.

(** All below an inode go-fuse knows stands for paths below one position, in the tree or once there. *)
Definition coherent (i : Inode) : Prop := ∃ l, ∀ s o, inode_ops <$> below i s = Some o → path_ok (l ++ s) o.

Record tree_ok (t : T) : Prop := {
  to_paths : paths_ok t;
  to_single : Single t;
  to_known : ∀ ni i, Known t ni = Some i → coherent i }.

(** An inode go-fuse knows by the number and mode of a new one stands for the same path. *)
Definition known_alike (t : T) (ni : new_inode) : Prop := ∀ i, Known t ni = Some i →
  ∃ n, inode_ops i = EmbedNode n ∧ vn_path n = vn_path (ni_node ni).

Lemma recalled_ok t t' : tree_ok t → recalls t t' → paths_ok t' → Single t' → tree_ok t'.
Proof.
  intros Ht Hr Hp Hs. split; [done|done|]. intros ni i Hk. destruct (Hr ni i Hk) as [[ni' Hk']|[q Hq]]; [by eapply to_known|].
  exists q. intros s o Ho. by eapply Hp, InodeAt_below.
Qed.

Lemma dir_path_ok r o path : path_ok r o → dir_path o = Some path → Forall normal (base ++ r) ∧ path = abs_path (base ++ r).
Proof.
  intros [Hn Ho] Hd. split; [done|]. destruct o; cbn in *; simplify_eq; [|done].
  destruct Ho as [-> ->]. by rewrite app_nil_r.
Qed.

Lemma child_path r name : Forall normal (base ++ r) → normal name →
  PathJoin [abs_path (base ++ r); name] = abs_path (base ++ r ++ [name]) ∧ Forall normal (base ++ r ++ [name]).
Proof.
  intros Hr Hname. split; [|rewrite app_assoc; by apply Forall_app; split; [|by apply Forall_singleton]].
  rewrite PathJoin_child by done. by rewrite app_assoc.
Qed.
(** The inode an operation returns stands for the child it was asked for. *)
Lemma lookup_node ctx path name out w ni attr w' :
  lookup_at Request ctx path name out w = Some (Ok (ni, attr), w') → vn_path (ni_node ni) = PathJoin [path; name].
Proof.
  unfold lookup_at. intros (r & w1 & _ & Hr)%M_bind_Some. destruct r as [resp|e].
  - apply M_bind_Some in Hr as (st & w2 & _ & Hr). apply M_ret_Some in Hr as [Hr _]. by simplify_eq.
  - by apply M_ret_Some in Hr as [? _].
Qed.

Lemma mkdir_node ctx path name mode out w ni attr w' :
  mkdir_at Request ctx path name mode out w = Some (Ok (ni, attr), w') → vn_path (ni_node ni) = PathJoin [path; name].
Proof. unfold mkdir_at. intros ([resp|e] & w1 & _ & [Hr _]%M_ret_Some)%M_bind_Some; by simplify_eq. Qed.

Lemma create_node ctx path name flags mode out w ni h attr w' :
  create_at Request ctx path name flags mode out w = Some (Ok (ni, h, attr), w') → vn_path (ni_node ni) = PathJoin [path; name].
Proof. unfold create_at. intros ([resp|e] & w1 & _ & [Hr _]%M_ret_Some)%M_bind_Some; by simplify_eq. Qed.

(** An error number is not zero. *)
Lemma ask_error ctx req w e w' : ask Request ctx req w = Some (Err e, w') → e ≠ 0.
Proof.
  unfold ask. intros ([resp|] & w1 & _ & [Hr _]%M_ret_Some)%M_bind_Some; [|by simplify_eq].
  destruct (int32 (rs_Err resp) =? 0) eqn:He; cbn in Hr; [done|]. injection Hr as ->. apply Z.eqb_neq in He.
  intros H0. apply He. unfold Errno_of, uint64, int32 in *.  Z.to_euclidean_division_equations. lia.
Qed.

(** A renaming that succeeds rebases the inode. *)
Lemma rename_updates ctx path name newParent newName flags child child' w w' :
  rename_at Request ctx path name newParent newName flags (Some child) w = Some ((0, Some child'), w') →
  ∃ dir, dir_path newParent = Some dir
    ∧ child' = updateCachedPathsAfterRename child (PathJoin [path; name]) (PathJoin [dir; newName]).
Proof.
  unfold rename_at. intros Hr.
  destruct newParent as [[b]|[p' d]|]; cbn [dir_path root_basePath vn_path] in *;
    [..|apply M_ret_Some in Hr as [Hr _]; by simplify_eq];
    apply M_bind_Some in Hr as ([resp|e] & w1 & Ha & Hr); apply M_ret_Some in Hr as [Hr _]; cbn in Hr; simplify_eq; try (by apply ask_error in Ha); eauto.
Qed.

Lemma attach_ok t p o path name ni :
  tree_ok t → ops_at t p = Some o → dir_path o = Some path → normal name → vn_path (ni_node ni) = PathJoin [path; name] →
  known_alike t ni → tree_ok (Attach t (p ++ [name]) ni).
Proof.
  intros Ht Hp Hpath Hname Hn Halike. pose proof (to_paths _ Ht) as Hpaths.
  destruct (dir_path_ok _ _ _ (Hpaths _ _ Hp) Hpath) as [Hnorm ->].
  destruct (child_path p name Hnorm Hname) as [Hc Hcn]. rewrite Hc in Hn.
  (* a position with that path is the new one *)
  assert (Hpos : ∀ l n, path_ok l (EmbedNode n) → vn_path n = vn_path (ni_node ni) → l = p ++ [name]).
  { intros l n [Hl Hln] Heq. rewrite Hn, Hln in Heq. apply abs_path_inj in Heq; [|done|done]. by apply app_inv_head in Heq. }
  apply (recalled_ok t); [done|apply Attach_recalls| |].
  - intros r o' [(s & -> & Ho)|Hr]%Attach_ops; [|by apply Hpaths|by apply to_single].
    destruct (Known t ni) as [i|] eqn:Hk.
    + destruct (to_known _ Ht _ _ Hk) as [l Hl]. destruct (Halike i Hk) as (n & Hi & Heq).
      assert (l = p ++ [name]) as ->; [|by apply Hl]. apply (Hpos l n); [|done].
      rewrite <- (app_nil_r l). apply Hl. cbn. by rewrite Hi.
    + destruct Ho as [-> ->]. rewrite app_nil_r. by split.
  - apply Attach_single; [by apply to_single|]. intros i q Hk Hq. destruct (Halike i Hk) as (n & Hi & Heq).
    apply (Hpos q n); [|done]. apply Hpaths. unfold ops_at. by rewrite Hq, <- Hi.
Qed.

Lemma rename_ok t p o path name q newParent dir newName child :
  tree_ok t → ops_at t p = Some o → dir_path o = Some path → normal name → ops_at t q = Some newParent →
  dir_path newParent = Some dir → normal newName → InodeAt t (p ++ [name]) = Some child →
  tree_ok (Move t (p ++ [name]) (updateCachedPathsAfterRename child (PathJoin [path; name]) (PathJoin [dir; newName]))
             (q ++ [newName])).
Proof.
  intros Hok Hp Hpath Hname Hq Hdir Hnew Hchild. pose proof (to_paths _ Hok) as Ht. pose proof (to_single _ Hok) as Hsingle.
  destruct (dir_path_ok _ _ _ (Ht _ _ Hp) Hpath) as [Hnp ->]. destruct (dir_path_ok _ _ _ (Ht _ _ Hq) Hdir) as [Hnq ->].
  destruct (child_path p name Hnp Hname) as [-> Hcp]. destruct (child_path q newName Hnq Hnew) as [-> Hcq].
  set (a := p ++ [name]) in *. set (b := q ++ [newName]) in *.
  assert (Ha : a ≠ []) by (by destruct p). assert (Hb : b ≠ []) by (by destruct q).
  assert (Hmoved : ∀ s o', inode_ops <$> below (updateCachedPathsAfterRename child (abs_path (base ++ a)) (abs_path (base ++ b))) s
            = Some o' → path_ok (b ++ s) o').
  { intros s o'. rewrite updated_below. intros (o0 & Ho0 & ->)%fmap_Some.
    destruct (Ht _ _ (InodeAt_below t a child s o0 Hchild Ho0)) as [Hn Ho]. split.
    - apply Forall_app in Hn as [Hnb [_ Hs]%Forall_app]. rewrite app_assoc. by apply Forall_app.
    - destruct o0 as [root|n|]; cbn in *; [destruct Ho as [[? _]%app_eq_nil _]; done| |done].
      rewrite Ho. by apply rebase_position. }
  apply (recalled_ok t); [done|apply Move_recalls| |by apply Move_single].
  intros r o' [(s & -> & Ho)|[Hr _]]%Move_ops; [by apply Hmoved|by apply Ht|done..].
Qed.

Lemma fuse_step_ok s s' : tree_ok s.1 → fuse_step known_alike s s' → tree_ok s'.1.
Proof.
  intros Ht Hs. destruct Hs; cbn [fst] in *; [..|done].
  - eapply attach_ok; eauto using lookup_node.
  - eapply attach_ok; eauto using mkdir_node.
  - eapply attach_ok; eauto using create_node.
  - apply (recalled_ok t); [done|apply Detach_recalls| |apply Detach_single; by apply to_single].
    intros r o' Hr%Detach_ops. by apply (to_paths _ Ht).
  - match goal with H : rename_at _ _ _ _ _ _ _ _ _ = _ |- _ => apply rename_updates in H as (dir & Hdir & ->) end.
    by eapply rename_ok.
Qed.

End paths.

(** *** A tree

    The tree as a value: a name leads to one inode. *)
Definition set_child (name : string) (new : option Inode) (l : list (string * Inode)) : list (string * Inode) :=
  match new with Some c => [(name, c)] | None => [] end ++ filter (λ c, c.1 ≠ name) l.

Lemma find_set_child y x new l : find_child y (set_child x new l) = if decide (y = x) then new else find_child y l.
Proof.
  assert (Hf : find_child y (filter (λ c, c.1 ≠ x) l) = if decide (y = x) then None else find_child y l).
  { induction l as [|[n c] l IH]; [by case_decide|]. rewrite filter_cons. cbn.
    destruct (decide (n ≠ x)) as [Hn|Hn]; cbn; rewrite IH.
    - destruct (decide (n = y)) as [->|]; [|done]. by rewrite decide_False.
    - apply dec_stable in Hn as ->. destruct (decide (y = x)) as [->|]; [done|]. by rewrite (decide_False (P := x = y)). }
  unfold set_child. destruct new as [c|]; cbn; rewrite Hf.
  - destruct (decide (x = y)) as [->|]; [by rewrite decide_True|by rewrite !decide_False].
  - done.
Qed.

(** The inode at a position is replaced or removed, if its parent is there. *)
Fixpoint put (i : Inode) (p : list string) (new : option Inode) : Inode :=
  match p with
  | [] => i
  | x :: p' =>
      match p', find_child x (inode_children i) with
      | [], _ => MkInode (inode_ops i) (set_child x new (inode_children i))
      | _, Some c => MkInode (inode_ops i) (set_child x (Some (put c p' new)) (inode_children i))
      | _, None => i
      end
  end.

Lemma below_put i p new r o :
  p ≠ [] → inode_ops <$> below (put i p new) r = Some o →
  (∃ s c, r = p ++ s ∧ new = Some c ∧ inode_ops <$> below c s = Some o) ∨ inode_ops <$> below i r = Some o ∧ ¬ p `prefix_of` r.
Proof.
  revert i r. induction p as [|x p IH]; [done|]. intros i r _ Hr.
  assert (Hnil : r = [] → inode_ops <$> below (put i (x :: p) new) r = inode_ops <$> below i r).
  { intros ->. cbn. destruct p; [done|]. by destruct (find_child x _). }
  destruct r as [|y r]; [right; rewrite Hnil in Hr by done; split; [done|by intros [? ?]]|]. clear Hnil.
  cbn [put] in Hr. destruct p as [|z p]; [|destruct (find_child x (inode_children i)) as [c|] eqn:Hc];
    cbn [below inode_children] in Hr |- *.
  - rewrite find_set_child in Hr. destruct (decide (y = x)) as [->|Hne].
    + destruct new as [c|]; [|done]. left. by exists r, c.
    + right. split; [done|]. by intros [? [= ]].
  - rewrite find_set_child in Hr. destruct (decide (y = x)) as [->|Hne]; cbn in Hr.
    + apply IH in Hr as [(s & c' & -> & -> & Hs)|[Hr Hp]]; [left; by exists s, c'| |done].
      right. rewrite Hc. split; [done|]. intros [s Heq]. apply Hp. exists s. by injection Heq.
    + right. split; [done|]. by intros [? [= ]].
  - right. split; [done|]. intros [? [= -> ?]]. by rewrite Hc in Hr.
Qed.

Lemma below_app i p r : below i (p ++ r) = below i p ≫= λ j, below j r.
Proof. revert i. induction p as [|x p IH]; intros i; [done|]. cbn. destruct (find_child x _); [apply IH|done]. Qed.

(** With it, where the inode of each number and type is. *)
Record node_tree := { nt_root : Inode; nt_numbers : list ((Z * Z) * list string) }.

Definition inode_key (ni : new_inode) : Z * Z := (Z.land (ni_Mode ni) 0xF000, ni_Ino ni).

Definition known_position (t : node_tree) (ni : new_inode) : option (list string) :=
  snd <$> List.find (λ e, bool_decide (e.1 = inode_key ni)) (nt_numbers t).

Definition not_under (p : list string) (e : (Z * Z) * list string) : Prop := ¬ p `prefix_of` e.2.
#[local] Instance not_under_dec p e : Decision (not_under p e).
Proof. unfold not_under. apply _. Defined.

Definition attach (t : node_tree) (p : list string) (ni : new_inode) : node_tree :=
  match (q ← known_position t ni; i ← below (nt_root t) q; Some (q, i)) with
  | Some (q, i) => {| nt_root := put (nt_root t) p (Some i);
                      nt_numbers := if decide (q = p) then nt_numbers t else filter (not_under p) (nt_numbers t) |}
  | None => {| nt_root := put (nt_root t) p (Some (MkInode (EmbedNode (ni_node ni)) []));
               nt_numbers := (inode_key ni, p) :: filter (not_under p) (nt_numbers t) |}
  end.

Definition move (t : node_tree) (p : list string) (i : Inode) (q : list string) : node_tree := {|
  nt_root := put (put (nt_root t) p None) q (Some i);
  nt_numbers := (λ e, (e.1, if decide (p `prefix_of` e.2) then q ++ drop (length p) e.2 else e.2))
                  <$> filter (λ e, p `prefix_of` e.2 ∨ not_under q e) (nt_numbers t) |}.

Definition known_inode (t : node_tree) (ni : new_inode) : option Inode := known_position t ni ≫= below (nt_root t).

Lemma known_inode_at t ni i : known_inode t ni = Some i → ∃ q, below (nt_root t) q = Some i.
Proof. unfold known_inode. intros (q & _ & Hq)%bind_Some. by exists q. Qed.

#[export, refine] Instance node_tree_FsTree : FsTree node_tree := {|
  InodeAt t := below (nt_root t);
  Known := known_inode;
  Single _ := True;  (* a value is in one place *)
  Attach := attach;
  Detach t p := {| nt_root := put (nt_root t) p None; nt_numbers := filter (not_under p) (nt_numbers t) |};
  Move := move |}.
Proof.
  5-7: by intros.
  5-7: intros; right; by eapply known_inode_at.
  - intros t p i r o Hi Ho. by rewrite below_app, Hi.
  - intros t p ni r o _ Ho. destruct p as [|x p].
    { right. unfold attach in Ho. by repeat case_match. }
    unfold attach, known_inode in *. destruct (known_position t ni) as [q|]; cbn [mbind option_bind] in *;
      [destruct (below (nt_root t) q) as [i|]; cbn [mbind option_bind] in *|]; cbn [nt_root] in Ho;
      (apply below_put in Ho as [(s & c & -> & [= <-] & Hs)|[Ho _]]; [left; exists s|by right|done]); [done|..];
      (destruct s as [|y s]; [|done]; cbn in Hs; split_and!; [done|done|congruence]).
  - intros t p r o Ho. destruct p as [|x p]; [done|]. by apply below_put in Ho as [(s & c & _ & ? & _)|[Ho _]].
  - intros t p i q r o _ Hp Hq Ho. apply below_put in Ho as [(s & c & -> & [= <-] & Hs)|[Ho _]]; [left; by exists s| |done].
    right. by apply below_put in Ho as [(s & c & _ & ? & _)|[Ho Hpre]].
Defined.

(** A directory is made, a file in it, and the directory is renamed, by a server that does it all. *)
Definition demo_request (req : VFSRequest) : M unit (option VFSResponse) := mret (Some resp_ok).

Definition demo_root : node_tree := {| nt_root := MkInode (EmbedRoot {| root_basePath := "/ws" |}) []; nt_numbers := [] |}.

Definition demo_tree : node_tree := {|
  nt_root := MkInode (EmbedRoot {| root_basePath := "/ws" |})
    [("e", MkInode (EmbedNode {| vn_path := "/ws/e"; vn_isDir := true |})
             [("f", MkInode (EmbedNode {| vn_path := "/ws/e/f"; vn_isDir := false |}) [])])];
  nt_numbers := [((S_IFREG, inodeForPath "/ws/d/f" false), ["e"; "f"]); ((S_IFDIR, inodeForPath "/ws/d" true), ["e"])] |}.

Lemma demo_fuse_run : rtc (fuse_step demo_request known_alike) (demo_root, tt) (demo_tree, tt).
Proof.
  eapply rtc_l. { eapply (FuseMkdir demo_request _ demo_root tt [] _ _ None "d" 493 zero_attr); [reflexivity|reflexivity|done|reflexivity|]. intros i Hi. vm_compute in Hi. discriminate. }
  eapply rtc_l. { eapply (FuseCreate demo_request _ _ tt ["d"] _ _ None "f" 0 420 zero_attr); [reflexivity|reflexivity|done|reflexivity|]. intros i Hi. vm_compute in Hi. discriminate. }
  eapply rtc_l. { eapply (FuseRename demo_request _ _ tt [] _ _ None "d" [] _ "e" 0); [reflexivity|reflexivity|done|reflexivity|done|vm_compute; reflexivity|vm_compute; reflexivity]. }
  match goal with |- rtc _ ?x ?y => assert (x = y) as -> by (vm_compute; reflexivity) end. apply rtc_refl.
Qed.


(** Without that condition the daemon asks for the wrong file: a file is made, renamed and made
    again, go-fuse takes the renamed inode for the new one, and what stands for the new file has
    the path of the other. *)
Lemma fused_paths_collide : ∃ t,
  rtc (fuse_step demo_request (λ _ _, True)) (demo_root, tt) (t, tt)
  ∧ ops_at t ["a"] = Some (EmbedNode {| vn_path := "/ws/b"; vn_isDir := false |}).
Proof.
  eexists. split.
  { eapply rtc_l. { eapply (FuseCreate demo_request _ demo_root tt [] _ _ None "a" 0 420 zero_attr); [reflexivity|reflexivity|done|reflexivity|done]. }
    eapply rtc_l. { eapply (FuseRename demo_request _ _ tt [] _ _ None "a" [] _ "b" 0); [reflexivity|reflexivity|done|reflexivity|done|vm_compute; reflexivity|vm_compute; reflexivity]. }
    eapply rtc_l. { eapply (FuseCreate demo_request _ _ tt [] _ _ None "a" 0 420 zero_attr); [reflexivity|reflexivity|done|reflexivity|done]. }
    apply rtc_refl. }
  vm_compute. reflexivity.
Qed.

(** ** The connection *)

Section connection.
Context (Marshal : VFSRequest → option bytes) (Unmarshal : bytes → option VFSResponse).

(** A response that was framed is read, however its bytes arrive. *)
Lemma Request_response_frame buf resp c rest :
  Unmarshal buf = Some resp → blen buf < 2 ^ 32 → no_empty_reads c → concat c = frame buf ++ rest →
  ∃ c', Request_response Unmarshal c = Some (resp, c') ∧ concat c' = rest ∧ no_empty_reads c'.
Proof.
  intros Hbuf Hlen Hc Heq. pose proof (blen_nonneg buf). pose proof (blen_nonneg rest). unfold Request_response.
  change agent_readFull with (reader_of true). unfold frame in Heq. rewrite <- app_assoc in Heq.
  assert (H4 : length (be32 (blen buf)) = 4%nat) by done.
  pose proof (reader_of_spec true 4 c (or_intror Hc) ltac:(lia)) as H1. rewrite Heq, !blen_app in H1.
  assert (4 <=? blen (be32 (blen buf)) + (blen buf + blen rest) = true) as E by (apply Z.leb_le; unfold blen at 1; rewrite H4; lia).
  rewrite E in H1. destruct H1 as (c1 & -> & Hc1 & Hne1). specialize (Hne1 Hc). change (Z.to_nat 4) with 4%nat in *.
  rewrite take_app_length' by done. rewrite drop_app_length' in Hc1 by done. cbn [negb].
  rewrite u32_be32 by lia.
  pose proof (reader_of_spec true (blen buf) c1 (or_intror Hne1) ltac:(lia)) as H2. rewrite Hc1, blen_app in H2.
  rewrite (proj2 (Z.leb_le _ _)) in H2 by lia. destruct H2 as (c2 & -> & Hc2 & Hne2). specialize (Hne2 Hne1).
  assert (Z.to_nat (blen buf) = length buf) as Hn by (unfold blen; lia). rewrite Hn in *.
  rewrite take_app_length. rewrite drop_app_length in Hc2. cbn [negb]. rewrite Hbuf. exists c2. by split_and!.
Qed.

Lemma Request_responses_frames bufs rs c rest :
  Forall2 (λ buf r, Unmarshal buf = Some r ∧ blen buf < 2 ^ 32) bufs rs → no_empty_reads c →
  concat c = concat (frame <$> bufs) ++ rest →
  ∃ c', Request_responses Unmarshal (length rs) c = Some (rs, c') ∧ concat c' = rest.
Proof.
  intros Hall. revert c. induction Hall as [|buf r bufs rs [Hb Hl] _ IH]; intros c Hc Heq; [by exists c|].
  rewrite fmap_cons in Heq. cbn [concat] in Heq. rewrite <- app_assoc in Heq.
  destruct (Request_response_frame buf r c _ Hb Hl Hc Heq) as (c1 & H1 & Heq1 & Hc1).
  destruct (IH c1 Hc1 Heq1) as (c2 & H2 & Heq2). exists c2. split; [|done]. cbn. rewrite H1. cbn. by rewrite H2.
Qed.

Lemma Request_frames reqs msgs :
  Forall2 (λ req m, Marshal req = Some m ∧ blen m < 2 ^ 32) reqs msgs → mapM (Request_frame Marshal) reqs = Some (frame <$> msgs).
Proof.
  intros Hall. apply mapM_Some. induction Hall as [|req m reqs msgs [Hm Hl] _ IH]; [constructor|]. rewrite fmap_cons.
  constructor; [|done]. unfold Request_frame. rewrite Hm. cbn. unfold frame. by rewrite uint32_id by (pose proof (blen_nonneg m); lia).
Qed.
End connection.

(** Of any codecs that decode what they encoded. *)
Lemma connection_exact `{HostABI} {W} (i : Iface W) sv w reqs rs sv' w'
    (Marshal : VFSRequest → option bytes) (Unmarshal : bytes → option VFSRequest)
    (rMarshal : VFSResponse → option bytes) (rUnmarshal : bytes → option VFSResponse) :
  (∀ req, req ∈ reqs → ∃ m, Marshal req = Some m ∧ Unmarshal m = Some req ∧ blen m < 2 ^ 32) →
  (∀ r, r ∈ rs → ∃ m, rMarshal r = Some m ∧ rUnmarshal m = Some r ∧ blen m < 2 ^ 32) →
  dispatch_all i sv reqs w = Some ((rs, sv'), w') →
  ∃ sent answered, mapM (Request_frame Marshal) reqs = Some sent
    ∧ VFSServer_HandleConnection Unmarshal rMarshal i sv (concat sent) w = Some ((answered, sv'), w')
    ∧ ∀ c, no_empty_reads c → concat c = answered →
        ∃ c', Request_responses rUnmarshal (length reqs) c = Some (rs, c') ∧ concat c' = [].
Proof.
  intros Hreq Hresp Hrun.
  assert (Hmsgs : ∃ msgs, Forall2 (λ req m, Marshal req = Some m ∧ Unmarshal m = Some req ∧ blen m < 2 ^ 32) reqs msgs).
  { apply Forall_exists_Forall2_l. by apply Forall_forall. }
  assert (Hbufs : ∃ bufs, Forall2 (λ r m, rMarshal r = Some m ∧ rUnmarshal m = Some r ∧ blen m < 2 ^ 32) rs bufs).
  { apply Forall_exists_Forall2_l. by apply Forall_forall. }
  destruct Hmsgs as [msgs Hmsgs], Hbufs as [bufs Hbufs].
  exists (frame <$> msgs), (concat (frame <$> bufs)). split_and!.
  - apply Request_frames. eapply Forall2_impl; [exact Hmsgs|naive_solver].
  - unfold VFSServer_HandleConnection. eapply connection_loop_frames; [|..|exact Hrun|].
    + assert (∀ l : list bytes, (length l <= length (concat (frame <$> l)))%nat) as Hl.
      { induction l as [|m l IH]; [done|]. cbn. rewrite !length_app. cbn. lia. }
      specialize (Hl msgs). lia.
    + apply Forall2_flip. eapply Forall2_impl; [exact Hmsgs|]. naive_solver.
    + eapply Forall2_impl; [exact Hbufs|naive_solver].
  - intros c Hc Heq. assert (length reqs = length rs) as ->.
    { clear -Hrun. revert sv w rs Hrun. induction reqs as [|req reqs IH]; intros sv w rs Hr; cbn in Hr.
      - apply M_ret_Some in Hr as [Hr _]. by simplify_eq.
      - apply M_bind_Some in Hr as ([r sv1] & w1 & _ & Hr). apply M_bind_Some in Hr as ([rs1 sv2] & w2 & H2 & Hr).
        apply M_ret_Some in Hr as [Hr ?]. simplify_eq. cbn. f_equal. by eapply IH. }
    apply (Request_responses_frames rUnmarshal bufs); [|done|by rewrite app_nil_r].
    apply Forall2_flip. eapply Forall2_impl; [exact Hbufs|naive_solver].
Qed.

Section wire.
(** [cbor.Marshal] and [cbor.Unmarshal], on data items. *)
Context (Marshal : cbor → option bytes) (Unmarshal : bytes → option cbor).

Definition fused_Marshal (r : VFSRequest) : option bytes := Marshal (client_request r).
Definition vfs_Unmarshal (m : bytes) : option VFSRequest := Unmarshal m ≫= server_request.
Definition vfs_Marshal (r : VFSResponse) : option bytes := Marshal (server_response r).
Definition fused_Unmarshal (m : bytes) : option VFSResponse := Unmarshal m ≫= client_response.

(** What the library does with an item of UTF-8 text, if it fits a message; decoding refuses
    other text. *)
Definition carries (v : cbor) : Prop :=
  text_ok v = true → ints_ok v = true → ∃ m, Marshal v = Some m ∧ Unmarshal m = Some v ∧ blen m < 2 ^ 32.
Definition refuses_text (v : cbor) : Prop := ∀ m, text_ok v = false → Marshal v = Some m → Unmarshal m = None.
End wire.

(** C22: The daemon and the server understand each other, each by its own declaration of the
    messages. Requests that the daemon sends over its connection, with paths in UTF-8, are
    dispatched in order, and it reads the responses, names in UTF-8, each to its request,
    however their bytes are cut; given that the CBOR library decodes the items it encoded, and
    that each fits a message. *)
Theorem fused_connection_exact `{HostABI} {W} (Marshal : cbor → option bytes) (Unmarshal : bytes → option cbor)
    (i : Iface W) sv w reqs rs sv' w' :
  (∀ v, v ∈ (client_request <$> reqs) ++ (server_response <$> rs) → carries Marshal Unmarshal v) →
  Forall request_ok reqs → Forall response_ok rs →
  dispatch_all i sv reqs w = Some ((rs, sv'), w') →
  ∃ sent answered, mapM (Request_frame (fused_Marshal Marshal)) reqs = Some sent
    ∧ VFSServer_HandleConnection (vfs_Unmarshal Unmarshal) (vfs_Marshal Marshal) i sv (concat sent) w = Some ((answered, sv'), w')
    ∧ ∀ c, no_empty_reads c → concat c = answered →
        ∃ c', Request_responses (fused_Unmarshal Unmarshal) (length reqs) c = Some (rs, c') ∧ concat c' = [].
Proof.
  intros Hlib Hreqs Hrs. rewrite Forall_forall in Hreqs. rewrite Forall_forall in Hrs. apply connection_exact.
  - intros req Hin. specialize (Hreqs req Hin). destruct (Hlib (client_request req)) as (m & Hm & Hu & Hl).
    + apply elem_of_app. left. by apply list_elem_of_fmap_2.
    + rewrite request_text. by rewrite (qo_path _ Hreqs), (qo_new_path _ Hreqs).
    + by apply request_ints.
    + exists m. split_and!; [done| |done]. unfold vfs_Unmarshal. rewrite Hu. cbn. by apply request_agrees.
  - intros r Hin. specialize (Hrs r Hin). destruct (Hlib (server_response r)) as (m & Hm & Hu & Hl).
    + apply elem_of_app. right. by apply list_elem_of_fmap_2.
    + by apply response_text.
    + by apply response_ints.
    + exists m. split_and!; [done| |done]. unfold fused_Unmarshal. rewrite Hu. cbn. by apply response_agrees.
Qed.

(** A name that is not UTF-8 ends the mount: the daemon sends it, the server cannot decode it and
    closes the connection, whatever comes after. *)
Lemma bad_name_closes `{HostABI} {W} Marshal Unmarshal (i : Iface W) sv w req m rest :
  refuses_text Marshal Unmarshal (client_request req) →
  ValidString (rq_Path req) && ValidString (rq_NewPath req) = false →
  fused_Marshal Marshal req = Some m → blen m < 2 ^ 32 →
  VFSServer_HandleConnection (vfs_Unmarshal Unmarshal) (vfs_Marshal Marshal) i sv (frame m ++ rest) w = Some (([], sv), w).
Proof.
  intros Hbad Htext Hm Hlen. pose proof (blen_nonneg m). pose proof (blen_nonneg rest).
  unfold VFSServer_HandleConnection. cbn [connection_loop]. unfold frame. rewrite <- app_assoc.
  assert (length (be32 (blen m)) = 4%nat) as H4 by done.
  assert (blen (be32 (blen m) ++ m ++ rest) <? 4 = false) as ->.
  { apply Z.ltb_ge. unfold blen at 1. rewrite length_app, H4. lia. }
  rewrite take_app_length', drop_app_length' by done. rewrite u32_be32 by lia.
  assert (blen (m ++ rest) <? blen m = false) as -> by (apply Z.ltb_ge; rewrite blen_app; lia).
  assert (Z.to_nat (blen m) = length m) as -> by (unfold blen; lia). rewrite take_app_length.
  unfold vfs_Unmarshal. by rewrite (Hbad m) by (rewrite ?request_text; done).
Qed.
