(* ===== verification/FusedFiles.v ===== *)
(** * Files of memory mounts, through the FUSE daemon

    The daemon of the guest, the server of the host, its table of handles and the in-memory
    provider together: what is written to an open file is read from it, whatever becomes of its
    path. And what the daemon gets wrong where the host has no inode numbers of its own. *)

From S2P Require Import Prelude GoStrings GoPath VfsBase VfsMemory VfsMemorySpec VfsServer Wire WireSpec Fused FusedCodec FusedSpec.

(** The server as the daemon's peer: its table of handles and the world are the state. *)
Definition served `{HostABI} {W} (i : Iface W) (req : VFSRequest) : M (VFSServer W * W) (option VFSResponse) := λ s,
  match VFSServer_dispatch i s.1 req s.2 with Some ((r, sv), w) => Some (Some r, (sv, w)) | None => None end.

Section files.
Context `{HostABI} {W : Type} `{!Has memstore W} (p : N).

(** The request is of a handle of the file [a], or of a path that names it. *)
Definition by_handle (a : N) (s : VFSServer W * W) (req : VFSRequest) : Prop :=
  ∃ mh, sv_handles s.1 !! rq_Handle req = Some (mem_handle mh) ∧ mh_file mh = a.
Definition by_path (a : N) (s : VFSServer W * W) (req : VFSRequest) : Prop := names a (get_st s.2) p (rq_Path req).

(** The handle [fh] stays open, and the file [a] is not written, truncated or created over. *)
Definition spares (fh : Z) (a : N) (s : VFSServer W * W) (req : VFSRequest) : Prop :=
  match rq_Op req with
  | OpWrite => ¬ by_handle a s req
  | OpTruncate => if rq_Handle req =? 0 then ¬ by_path a s req else ¬ by_handle a s req
  | OpCreate => ¬ by_path a s req
  | OpOpen => has_flag (hostOpenFlags (rq_Flags req)) O_TRUNC = true → ¬ by_path a s req
  | OpRelease => rq_Handle req ≠ fh
  | _ => True
  end.

(** Any process asks; fewer than 2^64 handles were opened. *)
Definition asked (fh : Z) (a : N) (s s' : VFSServer W * W) : Prop :=
  ∃ req r, spares fh a s req ∧ sv_nextFH s.1 < 2 ^ 64 - 1 ∧ served (mem_iface p) req s = Some (r, s').

(** Every handle is one of an in-memory file. *)
Definition mem_table (sv : VFSServer W) : Prop := ∀ fh h, sv_handles sv !! fh = Some h → ∃ mh, h = mem_handle mh.

(** Only quiet steps for the file object [a]. *)
Definition quiet (a : N) (w w' : W) : Prop := rtc (quiet_step a) (get_st w) (get_st w').

#[local] Instance quiet_preorder a : PreOrder (quiet a).
Proof. split; [intros w; apply rtc_refl|]. intros w1 w2 w3 H1 H2. unfold quiet in *. by etrans. Qed.

Lemma quiet_lift a {A} (m : M memstore A) : quiet_op a A m → respects (quiet a) (lift m).
Proof. intros Hm w x w' (s' & Hr & ->)%lift_Some. unfold quiet. rewrite get_put_st. eapply rtc_once, qs_op; eauto. Qed.

Lemma quiet_lift_ret a {A} (x : A) : respects (quiet a) (lift (mret x)).
Proof. intros w y w' (s' & [= <- <-] & ->)%lift_Some. unfold quiet. by rewrite get_put_st. Qed.

(** An opening of another file, or one that does not truncate. *)
Lemma quiet_Open a path fl mode w r w' :
  (has_flag fl O_TRUNC = true → ¬ names a (get_st w) p path) → Open (mem_provider p) path fl mode w = Some (r, w') → quiet a w w'.
Proof.
  intros Hfl (r' & w1 & H1 & [_ ->]%M_ret_Some)%M_bind_Some. apply lift_Some in H1 as (s' & Hr & ->).
  unfold quiet. rewrite get_put_st. apply rtc_once. destruct (has_flag fl O_TRUNC) eqn:E.
  - eapply qs_open; [by apply Hfl|exact Hr].
  - eapply qs_op; [by apply q_open|exact Hr].
Qed.

Lemma quiet_Create a path mode w r w' :
  ¬ names a (get_st w) p path → Create (mem_provider p) path mode w = Some (r, w') → quiet a w w'.
Proof. intros Hn Hr. apply (quiet_Open a path (Z.lor (Z.lor O_CREATE O_RDWR) O_TRUNC) mode w r w'); [done|exact Hr]. Qed.

Lemma mem_Open_handle path fl mode w h w' :
  Open (mem_provider p) path fl mode w = Some (Ok h, w') → ∃ mh, h = mem_handle mh.
Proof. cbn. intros ([mh|e] & w1 & _ & [Hr _]%M_ret_Some)%M_bind_Some; cbn in Hr; simplify_eq; by exists mh. Qed.

(** What is opened is what the path names, or new. *)
Lemma mem_Open_names path fl mode w h w' :
  Open (mem_provider p) path fl mode w = Some (Ok h, w') →
  ∃ mh, h = mem_handle mh ∧ (names (mh_file mh) (get_st w) p path ∨ mh_file mh = ms_next (get_st w)).
Proof.
  intros (r & w1 & H1 & [Hr _]%M_ret_Some)%M_bind_Some. destruct r as [mh|e]; cbn in Hr; [|done]. injection Hr as ->.
  exists mh. split; [done|]. apply lift_Some in H1 as (s' & Hr & _). unfold names.
  mem_run Hr; simplify_map_eq; simplify_eq/=; first [by right|left; by eexists].
Qed.

(** What such a request does to the table of handles. *)
Inductive table_change (fh : Z) (sv : VFSServer W) : VFSServer W → Prop :=
| tc_same : table_change fh sv sv
| tc_release k : k ≠ fh → table_change fh sv (delete_handle sv k)
| tc_open mh : table_change fh sv (snd (store_handle sv (mem_handle mh))).

Definition keeps (a : N) (fh : Z) (sv : VFSServer W) (w : W) (m : M W (VFSResponse * VFSServer W)) : Prop :=
  ∀ r sv' w', m w = Some ((r, sv'), w') → quiet a w w' ∧ table_change fh sv sv'.

Lemma keeps_reply a fh sv w sv' r : table_change fh sv sv' → keeps a fh sv w (reply sv' r).
Proof. intros Hc r' sv'' w' [Hr ->]%M_ret_Some. simplify_eq. by split. Qed.

Lemma keeps_then a fh sv w {A} (m : M W A) f :
  (∀ x w1, m w = Some (x, w1) → quiet a w w1 ∧ keeps a fh sv w1 (f x)) → keeps a fh sv w (m ≫= f).
Proof.
  intros Hm r sv' w' (x & w1 & H1 & H2)%M_bind_Some. destruct (Hm x w1 H1) as [Hq Hk].
  destruct (Hk r sv' w' H2) as [Hq' Hc]. split; [by transitivity w1|done].
Qed.

Lemma keeps_bind a fh sv w {A} (m : M W A) f :
  respects (quiet a) m → (∀ x w', m w = Some (x, w') → keeps a fh sv w' (f x)) → keeps a fh sv w (m ≫= f).
Proof. intros Hm Hf. apply keeps_then. intros x w1 H1. split; [by eapply Hm|by apply Hf]. Qed.

Lemma keeps_unit a fh sv w m : respects (quiet a) m → keeps a fh sv w (reply_unit sv m).
Proof. intros Hm. apply keeps_bind; [done|]. intros [e|] w' _; apply keeps_reply, tc_same. Qed.

Lemma keeps_stat a fh sv w path : keeps a fh sv w (reply_stat sv (mem_provider p) path).
Proof.
  apply keeps_bind; [apply quiet_lift; constructor|]. intros [info|e] w' _; apply keeps_reply, tc_same.
Qed.

Hint Constructors quiet_op : core.
Hint Resolve quiet_lift keeps_reply tc_same tc_release : core.

(** Closing and syncing do nothing. *)
Lemma quiet_none a : respects (quiet a) (lift (mret (M := M memstore) (None : option err))).
Proof. apply quiet_lift_ret. Qed.

Lemma opened_elsewhere a fh sv w1 r (k : Handle W → M W (VFSResponse * VFSServer W)) :
  (∀ h, r = Ok h → keeps a fh sv w1 (k h)) →
  keeps a fh sv w1 (match r with Err e => reply_err sv e | Ok h => k h end).
Proof. intros Hk. destruct r as [h|e]; [by apply Hk|by apply keeps_reply, tc_same]. Qed.

Lemma created_keeps a fh sv w path mh :
  keeps a fh sv w (
    st ← h_Stat (mem_handle mh);
    match st with
    | Err e => _ ← h_Close (mem_handle mh); reply_err sv e
    | Ok info => let '(fh, sv') := store_handle sv (mem_handle mh) in reply sv' (resp_stat fh (statFromInfo path info))
    end).
Proof.
  apply keeps_bind; [cbn; auto|]. intros [info|e] w1 _.
  - apply (keeps_reply _ _ _ _ (snd (store_handle sv (mem_handle mh)))), tc_open.
  - apply keeps_bind; [apply quiet_none|]. intros x w2 _. by apply keeps_reply, tc_same.
Qed.

Lemma spares_keeps a fh sv w req :
  spares fh a (sv, w) req → mem_table sv → (a < ms_next (get_st w))%N → keeps a fh sv w (VFSServer_dispatch (mem_iface p) sv req).
Proof.
  intros Hs Ht Ha. unfold VFSServer_dispatch, spares, by_handle, by_path in *. cbn [fst snd] in *.
  change (request_provider (mem_iface p) req) with (mem_provider (W := W) p).
  destruct (rq_Op req); try done; try (by apply keeps_stat); try (by apply keeps_unit; cbn; auto);
    try (by apply keeps_reply, tc_same).
  - apply keeps_bind; [cbn; auto|]. intros [e|] w' _; [by apply keeps_reply, tc_same|by apply keeps_stat].
  - destruct (sv_handles sv !! _) as [h|] eqn:Hh; [|by apply keeps_reply, tc_same]. destruct (Ht _ _ Hh) as [mh ->].
    apply keeps_bind; [cbn; auto|]. intros [d [e|]] w' _; [case_decide|]; by apply keeps_reply, tc_same.
  - destruct (sv_handles sv !! _) as [h|] eqn:Hh; [|by apply keeps_reply, tc_same]. destruct (Ht _ _ Hh) as [mh ->].
    apply keeps_bind; [cbn; apply quiet_lift, q_writeat; intros He; apply Hs; by exists mh|].
    intros [n [e|]] w' _; by apply keeps_reply, tc_same.
  - apply keeps_then. intros r w1 Hr. split; [destruct (negb _); [eapply quiet_Open|eapply quiet_Create]; eauto|].
    apply opened_elsewhere. intros h ->. assert (∃ mh, h = mem_handle mh) as [mh ->]; [|by apply created_keeps].
    destruct (negb _); [by eapply mem_Open_handle|].
    exact (mem_Open_handle _ (Z.lor (Z.lor O_CREATE O_RDWR) O_TRUNC) _ _ _ _ Hr).
  - apply keeps_bind; [cbn; auto|]. intros [e|] w' _; [by apply keeps_reply, tc_same|].
    apply keeps_bind; [cbn; auto|]. intros [i|e] w1' _; by apply keeps_reply, tc_same.
  - apply keeps_then. intros r w1 Hr. split; [eapply quiet_Open; eauto|]. apply opened_elsewhere. intros h ->.
    destruct (mem_Open_handle _ _ _ _ _ _ Hr) as [mh ->]. apply (keeps_reply _ _ _ _ (snd (store_handle sv (mem_handle mh)))), tc_open.
  - destruct (sv_handles sv !! _) as [h|] eqn:Hh; [|by apply keeps_reply, tc_same]. destruct (Ht _ _ Hh) as [mh ->].
    apply keeps_bind; [apply quiet_none|]. intros x w' _. by apply keeps_reply, tc_release.
  - apply keeps_bind; [cbn; auto|]. intros [es|e] w' _; by apply keeps_reply, tc_same.
  - destruct (sv_handles sv !! _) as [h|] eqn:Hh; [|by apply keeps_reply, tc_same]. destruct (Ht _ _ Hh) as [mh ->].
    apply keeps_bind; [apply quiet_none|]. intros x w' _. by apply keeps_reply, tc_same.
  - destruct (rq_Handle req =? 0); cbn [negb].
    + apply keeps_then. intros r w1 Hr. split; [eapply quiet_Open; eauto|]. apply opened_elsewhere. intros h ->.
      destruct (mem_Open_names _ _ _ _ _ _ Hr) as (mh & -> & Hn).
      apply keeps_bind; [cbn; apply quiet_lift, q_truncate; intros <-; destruct Hn; [by apply Hs|lia]|]. intros e w2 _.
      apply keeps_bind; [apply quiet_none|]. intros x w3 _. destruct e; by apply keeps_reply, tc_same.
    + destruct (sv_handles sv !! _) as [h|] eqn:Hh; [|by apply keeps_reply, tc_same]. destruct (Ht _ _ Hh) as [mh ->].
      apply keeps_unit. cbn. apply quiet_lift, q_truncate. intros He. apply Hs. by exists mh.
  - apply keeps_unit, quiet_none.
Qed.

(** The invariant of the table: memory handles, numbered below the counter. *)
Lemma table_change_ok fh sv sv' :
  sv_nextFH sv < 2 ^ 64 - 1 → mem_table sv → table_wf sv → is_Some (sv_handles sv !! fh) → table_change fh sv sv' →
  mem_table sv' ∧ table_wf sv' ∧ sv_handles sv' !! fh = sv_handles sv !! fh.
Proof.
  intros Hmax Ht [Hpos Hdom] Hfh Hc. assert (Hid : uint64 (sv_nextFH sv + 1) = sv_nextFH sv + 1) by (apply uint64_id; lia).
  destruct Hc as [|k Hk|mh]; [by split_and!|..]; split_and!; cbn; rewrite ?Hid.
  - intros fh' h. cbn. intros [_ Hh]%lookup_delete_Some. by apply (Ht fh').
  - split; [done|]. intros fh'. cbn. intros Hf. apply Hdom. apply lookup_delete_is_Some in Hf. tauto.
  - by rewrite lookup_delete_ne.
  - intros fh' h. cbn. rewrite ?Hid. intros [[_ <-]|[_ Hh]]%lookup_insert_Some; [by exists mh|by apply (Ht fh')].
  - split; cbn; rewrite ?Hid; [lia|]. intros fh' [<-|[_ Hs]]%lookup_insert_is_Some; [lia|]. specialize (Hdom _ Hs). lia.
  - rewrite lookup_insert_ne; [done|]. specialize (Hdom _ Hfh). lia.
Qed.

Lemma asked_keeps a fh s s' :
  rtc (asked fh a) s s' → mem_table s.1 → table_wf s.1 → is_Some (sv_handles s.1 !! fh) →
  store_wf (get_st s.2) → is_Some (data_at a (get_st s.2)) →
  quiet a s.2 s'.2 ∧ sv_handles s'.1 !! fh = sv_handles s.1 !! fh.
Proof.
  induction 1 as [s|s s1 s2 (req & r & Hs & Hmax & Hr) _ IH]; intros Ht Hwf Hfh Hst Hd; [by split|].
  unfold served in Hr. destruct (VFSServer_dispatch _ _ _ _) as [[[r' sv'] w']|] eqn:E; [|done]. simplify_eq.
  destruct s as [sv w]. cbn [fst snd] in *.
  assert (Ha : (a < ms_next (get_st w))%N).
  { apply (wf_heap _ Hst). unfold data_at in Hd. by destruct (ms_heap (get_st w) !! a), Hd. }
  destruct (spares_keeps a fh sv w req Hs Ht Ha _ _ _ E) as [Hq Hc].
  destruct (table_change_ok fh sv sv' Hmax Ht Hwf Hfh Hc) as (Ht' & Hwf' & Heq).
  destruct (quiet_steps_data a _ _ Hst Hd Hq) as [Hst' Hd'].
  destruct IH as [Hq' Heq']; [done|done|by rewrite Heq|done|by rewrite Hd'|]. split; [by transitivity w'|congruence].
Qed.

(** Requests with a handle of a memory file. *)
Lemma served_write ctx h mh data off sv w n s' :
  sv_handles sv !! vh_handle h = Some (mem_handle mh) → memHandle_WriteAt mh data off (get_st w) = Some ((n, None), s') →
  VFSFileHandle_Write (served (mem_iface p)) ctx h data off (sv, w) = Some (Ok (uint32 n), (sv, put_st s' w)).
Proof.
  intros Hh Hw. unfold VFSFileHandle_Write, ask, RequestCtx, served. cbv [mbind M_bind]. cbn [fst snd].
  unfold VFSServer_dispatch. destruct ctx as [c|]; cbn [rq_Op handle_request rq_Handle]; rewrite Hh;
    cbv [mbind M_bind mem_handle h_WriteAt lift]; cbn [rq_Data rq_Offset handle_request]; by rewrite Hw.
Qed.

Lemma served_read ctx h mh data off sv w :
  sv_handles sv !! vh_handle h = Some (mem_handle mh) → blen data < 2 ^ 32 →
  memHandle_ReadAt mh (blen data) off (get_st w) = Some ((data, None), get_st w) →
  VFSFileHandle_Read (served (mem_iface p)) ctx h (blen data) off (sv, w) = Some (Ok data, (sv, w)).
Proof.
  intros Hh Hlen Hr. unfold VFSFileHandle_Read, ask, RequestCtx, served. cbv [mbind M_bind]. cbn [fst snd].
  rewrite uint32_id by (pose proof (blen_nonneg data); lia).
  unfold VFSServer_dispatch. destruct ctx as [c|]; cbn [rq_Op handle_request rq_Handle]; rewrite Hh;
    cbv [mbind M_bind mem_handle h_ReadAt lift]; cbn [rq_Size rq_Offset handle_request]; rewrite Hr; by rewrite put_get_st.
Qed.

Lemma dispatch_unlink req sv w s' :
  rq_Op req = OpUnlink → MemoryProvider_Remove p (rq_Path req) (get_st w) = Some (None, s') →
  served (mem_iface p) req (sv, w) = Some (Some resp_ok, (sv, put_st s' w)).
Proof.
  intros Hop Hr. unfold served, VFSServer_dispatch. cbn [fst snd]. rewrite Hop. unfold reply_unit.
  cbv [mbind M_bind]. cbn [Remove request_provider mem_iface iface_withCaller iface_ops mem_provider]. unfold lift. by rewrite Hr.
Qed.

(** C19: An open file keeps what was written to it. In a memory mount, a write through the daemon
    succeeds, and a later read of the same place gives the bytes written, whatever any process
    of the guest asks in between that does not write to this file, truncate it or create over
    it, and does not close the handle: the path may be renamed, unlinked, or renamed over, its
    whole tree removed, and other files made, written and truncated. *)
Theorem fused_file_survives ctx h mh data off sv w :
  mem_reachable (get_st w) → mem_table sv → table_wf sv →
  sv_handles sv !! vh_handle h = Some (mem_handle mh) → handle_wf (get_st w) mh →
  0 <= off → off + blen data <= maxAlloc → data ≠ [] → blen data < 2 ^ 32 →
  ∃ s1, VFSFileHandle_Write (served (mem_iface p)) ctx h data off (sv, w) = Some (Ok (blen data), s1)
    ∧ ∀ s2, rtc (asked (vh_handle h) (mh_file mh)) s1 s2 →
        VFSFileHandle_Read (served (mem_iface p)) ctx h (blen data) off s2 = Some (Ok data, s2).
Proof.
  intros Hreach Ht Hwf Hh [[f Hf] _] Hoff Hmax Hne Hlen.
  destruct (memHandle_WriteAt_run mh _ f Hf data off Hoff Hmax) as (d' & Hd' & Hrun).
  destruct (memHandle_WriteAt_data mh data off _ _ _ (reachable_wf _ Hreach) ltac:(unfold data_at; by rewrite Hf) Hoff Hmax Hrun)
    as (_ & Hwf1 & d & d1 & Hd1 & Hdata).
  eexists. split.
  { erewrite served_write by done. rewrite uint32_id by (pose proof (blen_nonneg data); lia). done. }
  intros [sv2 w2] Hasked. destruct (asked_keeps (mh_file mh) _ _ _ Hasked Ht Hwf) as [Hq Heq]; cbn [fst snd] in *;
    [by eexists|by rewrite get_put_st|by rewrite get_put_st, Hdata|].
  unfold quiet in Hq. rewrite get_put_st in Hq. destruct (quiet_steps_data (mh_file mh) _ _ Hwf1 ltac:(by rewrite Hdata) Hq) as [_ Hd2].
  apply (served_read ctx h mh); [by rewrite Heq|done|]. eapply memHandle_ReadAt_written; [done|done|exact Hd1|by rewrite Hd2].
Qed.
End files.

(** ** Concrete files *)

#[local] Existing Instance linux_abi.
Abbreviation demo_served := (served (mem_iface (W := memstore) 0)).

(** [/f] was created, and is open. *)
Definition demo_server : VFSServer memstore := snd (store_handle NewVFSServer (mem_handle demo_handle)).
Definition demo_open : VFSFileHandle := {| vh_handle := 1; vh_path := "/f" |}.
Definition hi_bytes : bytes := ["h"; "i"]%char.

Lemma demo_store_reachable : mem_reachable demo_store.
Proof.
  unfold mem_reachable. etrans; [apply fresh_store_reachable|].
  apply rtc_once, (step_op _ (result err memHandle) demo_create (Ok demo_handle)); [apply op_create|vm_compute; reflexivity].
Qed.

(** Written, unlinked, read. *)
Lemma fused_file_survives_witness :
  ∃ s1 s2, VFSFileHandle_Write demo_served None demo_open hi_bytes 3 (demo_server, demo_store) = Some (Ok 2, s1)
    ∧ unlink_at demo_served None "/" "f" s1 = Some (0, s2)
    ∧ VFSFileHandle_Read demo_served None demo_open 2 3 s2 = Some (Ok hi_bytes, s2).
Proof.
  destruct (fused_file_survives 0 None demo_open demo_handle hi_bytes 3 demo_server demo_store) as (s1 & Hw & Hr).
  - apply demo_store_reachable.
  - intros fh h. cbn. intros [[_ <-]|[_ Hh]]%lookup_insert_Some; [by exists demo_handle|by rewrite lookup_empty in Hh].
  - split; [done|]. cbn. intros fh [<-|[_ Hh]]%lookup_insert_is_Some; [done|]. rewrite lookup_empty in Hh. by destruct Hh.
  - reflexivity.
  - split; vm_compute; by eexists.
  - done.
  - done.
  - done.
  - done.
  - set (written := snd (run_to (0, None) (memHandle_WriteAt demo_handle hi_bytes 3) demo_store)).
    assert (Hs1 : VFSFileHandle_Write demo_served None demo_open hi_bytes 3 (demo_server, demo_store)
                  = Some (Ok (uint32 2), (demo_server, put_st written demo_store))).
    { apply (served_write 0 None demo_open demo_handle); [reflexivity|vm_compute; reflexivity]. }
    rewrite Hs1 in Hw. injection Hw as <-.
    set (unlinked := snd (run_to None (MemoryProvider_Remove 0 "/f") written)).
    assert (Hu : demo_served (request0 OpUnlink "/f") (demo_server, written) = Some (Some resp_ok, (demo_server, unlinked))).
    { exact (dispatch_unlink (W := memstore) (Has0 := Has_refl memstore) 0 (request0 OpUnlink "/f") demo_server written unlinked eq_refl
        ltac:(vm_compute; reflexivity)). }
    exists (demo_server, written), (demo_server, unlinked). split; [exact Hs1|]. split.
    + unfold unlink_at, ask_done, ask, RequestCtx. cbv [mbind M_bind].
      change (PathJoin ["/"; "f"]) with "/f". by rewrite Hu.
    + apply Hr, rtc_once. exists (request0 OpUnlink "/f"), (Some resp_ok). split; [exact I|]. by split.
Defined.

(** ** Inode numbers

    go-fuse takes an inode it knows for the one an operation returns, if their numbers and modes
    are equal. In a memory mount the number is computed from the path, and stays with the inode
    when it is renamed: a new file at the old path gets the number of the renamed one. *)
Definition demo_root_dir : VFSRoot := {| root_basePath := "/" |}.
Definition demo_fresh : VFSServer memstore * memstore := (NewVFSServer, fresh_store).

(** A file is made, renamed, and made again: both inodes, and what became of the first. *)
Definition make_rename_make : M (VFSServer memstore * memstore) (option (new_inode * option Inode * new_inode)) :=
  r1 ← VFSRoot_Create demo_served None demo_root_dir "a" 0 420 zero_attr;
  match r1 with
  | Err _ => mret None
  | Ok (ni1, _, _) =>
      r ← VFSRoot_Rename demo_served None demo_root_dir "a" (EmbedRoot demo_root_dir) "b" 0 (Some (MkInode (EmbedNode (ni_node ni1)) []));
      r2 ← VFSRoot_Create demo_served None demo_root_dir "a" 0 420 zero_attr;
      mret match r2 with Err _ => None | Ok (ni2, _, _) => Some (ni1, r.2, ni2) end
  end.

Lemma renamed_inode_collides :
  ∃ mode ino, fst <$> make_rename_make demo_fresh = Some (Some
    ({| ni_node := {| vn_path := "/a"; vn_isDir := false |}; ni_Mode := mode; ni_Ino := ino |},
     Some (MkInode (EmbedNode {| vn_path := "/b"; vn_isDir := false |}) []),
     {| ni_node := {| vn_path := "/a"; vn_isDir := false |}; ni_Mode := mode; ni_Ino := ino |})).
Proof. do 2 eexists. vm_compute. reflexivity. Qed.

(** The flags of a renaming are not looked at: an exchange overwrites. *)
Lemma rename_flags_ignored `{HostABI} {W} (request : VFSRequest → M W (option VFSResponse)) ctx r name p newName flags child :
  VFSRoot_Rename request ctx r name p newName flags child = VFSRoot_Rename request ctx r name p newName 0 child.
Proof. done. Qed.

(** ** A connection

    Two files are created. The codec of the example knows the one request and the two responses. *)
Definition create_request : VFSRequest := {|
  rq_Op := OpCreate; rq_Path := "/f"; rq_NewPath := ""; rq_Handle := 0; rq_Offset := 0; rq_Size := 0; rq_Data := [];
  rq_Flags := 0; rq_Mode := 420; rq_UID := 0; rq_GID := 0; rq_AtimeNS := None; rq_MtimeNS := None |}.

Abbreviation demo_iface := (mem_iface (W := memstore) 0).

Definition created (fh : Z) : VFSResponse := resp_stat fh {|
  vs_Size := 0; vs_Mode := 420; vs_ModTime := 0; vs_IsDir := false; vs_Ino := 17154874088816157994; vs_UID := 0; vs_GID := 0 |}.

Definition demo_Marshal (v : cbor) : option bytes :=
  match v with
  | CMap l => match item "op" l, item "fh" l with
              | Some _, _ => Some ["o"%char]
              | None, Some (CInt n) => Some [chr n]
              | None, _ => None
              end
  | _ => None
  end.
Definition demo_Unmarshal (m : bytes) : option cbor :=
  if decide (m = ["o"%char]) then Some (client_request create_request)
  else if decide (m = [chr 1]) then Some (server_response (created 1)) else Some (server_response (created 2)).

Definition fst3 {A B C} (r : option (A * B * C)) : option A := match r with Some (a, _, _) => Some a | None => None end.

Lemma fused_connection_exact_witness :
  ∃ sv w' sent answered c c',
    VFSServer_HandleConnection (vfs_Unmarshal demo_Unmarshal) (vfs_Marshal demo_Marshal) demo_iface NewVFSServer sent fresh_store
      = Some ((answered, sv), w')
    ∧ concat c = answered ∧ Request_responses (fused_Unmarshal demo_Unmarshal) 2 c = Some ([created 1; created 2], c').
Proof.
  assert (Hrs : fst3 (dispatch_all demo_iface NewVFSServer [create_request; create_request] fresh_store) = Some [created 1; created 2])
    by (vm_compute; reflexivity).
  destruct (dispatch_all _ _ _ _) as [[[rs sv] w']|] eqn:E; [|discriminate]. cbn [fst3] in Hrs. injection Hrs as ->.
  destruct (fused_connection_exact demo_Marshal demo_Unmarshal demo_iface NewVFSServer fresh_store [create_request; create_request]
    [created 1; created 2] sv w') as (sent & answered & Hsent & Hrun & Hans).
  - intros v Hv _ _. cbn [fmap list_fmap app] in Hv. rewrite !elem_of_cons in Hv.
    assert (Hreq : ∃ m, demo_Marshal (client_request create_request) = Some m ∧ demo_Unmarshal m = Some (client_request create_request) ∧ blen m < 2 ^ 32)
      by (exists ["o"%char]; split_and!; vm_compute; reflexivity).
    destruct Hv as [->|[->|[->|[->|Hv]]]]; [exact Hreq|exact Hreq| | |by apply not_elem_of_nil in Hv].
    + exists [chr 1]. split_and!; vm_compute; reflexivity.
    + exists [chr 2]. split_and!; vm_compute; reflexivity.
  - assert (request_ok create_request).
    { split; cbn [create_request rq_Op rq_Path rq_NewPath rq_Handle rq_Offset rq_Size rq_Flags rq_Mode rq_UID rq_GID rq_AtimeNS rq_MtimeNS];
        unfold is_int64; first [reflexivity|lia|by intros t [=]|by apply (server_op_client OpCreate)]. }
    by repeat constructor.
  - assert (Hst : ∀ fh s, rs_Stat (created fh) = Some s → stat_ok s) by (intros fh s [= <-]; split; cbn; unfold is_int64; lia).
    apply Forall_cons. split; [|apply Forall_singleton]; (split; [cbn; lia|apply Hst|cbn; lia|cbn; lia|constructor]).
  - exact E.
  - set (c := match answered with [] => [] | _ => [answered] end).
    assert (Hc : no_empty_reads c ∧ concat c = answered).
    { unfold c. destruct answered; [split; [constructor|done]|]. split; [by apply Forall_singleton|apply app_nil_r]. }
    destruct (Hans c) as (c' & Hc' & _); [apply Hc..|].
    exists sv, w', (concat sent), answered, c, c'. split; [exact Hrun|]. split; [apply Hc|exact Hc'].
Defined.
