(* ===== verification/Sdk.v ===== *)
(** * The Go client: pkg/sdk

    A client starts a process that speaks JSON-RPC ([Rpc]) and calls it: any number of callers
    at once, whose requests have numbers of their own, and one goroutine that reads the
    responses and hands each to its caller. The callers, the reader, their lock and the lines in
    both directions are a step relation; what each method sends and makes of its response are
    functions. *)

From S2P Require Import Prelude GoStrings GoStd GoJson GoNet Api Wire Exec Rpc.

(** ** Messages: protocol.go *)

Definition request_json (method : string) (params : option json) (id : Z) : json :=
  JObj (member "jsonrpc" (JStr "2.0") ++ member "method" (JStr method)
        ++ (match params with Some p => member "params" p | None => [] end) ++ member "id" (JInt id)).

Definition notificationRequest_json (method : string) (params : option json) : json :=
  JObj (member "jsonrpc" (JStr "2.0") ++ member "method" (JStr method)
        ++ (match params with Some p => member "params" p | None => [] end)).

Record rpcError := { re_Code : Z; re_Message : string }.

Definition rpcError_of_json : json → option rpcError := of_struct (λ l,
  c ← field "code" dec_int 0 l; m ← field "message" dec_string "" l; Some {| re_Code := c; re_Message := m |}).

Record response := { rs_Result : option json; rs_Error : option rpcError; rs_ID : option Z }.

(** A pointer to a struct: [null] is nil. *)
Definition dec_error (_ : option rpcError) (j : json) : option (option rpcError) :=
  match j with JNull => Some None | _ => Some <$> rpcError_of_json j end.

Definition response_of_json : json → option response := of_struct (λ l,
  _ ← field "jsonrpc" dec_string "" l; r ← field "result" dec_raw None l; e ← field "error" dec_error None l;
  id ← field "id" dec_id None l; Some {| rs_Result := r; rs_Error := e; rs_ID := id |}).

Record notification := { nt_Method : string; nt_Params : option json }.

Definition notification_of_json : json → option notification := of_struct (λ l,
  m ← field "method" dec_string "" l; p ← field "params" dec_raw None l; Some {| nt_Method := m; nt_Params := p |}).

(** [RPCError] *)
Definition IsVMError (e : rpcError) : bool := re_Code e =? ErrCodeVMFailed.
Definition IsExecError (e : rpcError) : bool := re_Code e =? ErrCodeExecFailed.
Definition IsFileError (e : rpcError) : bool := re_Code e =? ErrCodeFileFailed.

(** What a call returns. *)
Inductive call_error := ErrClientClosed | ErrWriteRequest | ErrConnectionClose | ErrContext | ErrRPC (e : rpcError).
Definition pendingResult : Type := result call_error (option json).

Definition result_of (resp : response) : pendingResult :=
  match rs_Error resp with Some e => Err (ErrRPC e) | None => Ok (rs_Result resp) end.

(** ** The client's state

    A caller has the number it drew; the channel of its pending request holds at most one
    result. *)

Inductive caller :=
| CRegister (id : Z) (line : string)      (* before it takes the lock *)
| CWrite (id : Z) (line : string)         (* registered *)
| CWait (id : Z)                          (* in the select *)
| CCancel (id : Z)                        (* its context is done *)
| CUnregister (id : Z) (r : pendingResult)    (* before the deferred section *)
| CDone (id : Z) (r : pendingResult).

Inductive reader :=
| RRead
| RNotify (n : notification)
| RResponse (id : Z) (r : pendingResult)
| RSend (t : nat) (r : pendingResult)
| RFail (todo : list nat)                 (* the connection broke: with the lock *)
| RGone.

Record Client := {
  cl_requestID : Z;
  cl_pending : option (gmap Z nat);       (* of each number its caller; nil in the end *)
  cl_chans : gmap nat pendingResult;      (* the channels that are full *)
  cl_locked : bool;                       (* pendingMu, while the reader holds it *)
  cl_callers : gmap nat caller;
  cl_reader : reader;
  cl_in : list string;                    (* lines of the server not yet read *)
  cl_closed : bool;                       (* no more will come *)
  cl_seen : list string;                  (* those that were read *)
  cl_out : list string;                   (* lines to the server *)
  cl_notified : list (nat * notification) }.  (* calls of onNotification *)

Definition set_caller (t : nat) (a : caller) (c : Client) : Client := {|
  cl_requestID := cl_requestID c; cl_pending := cl_pending c; cl_chans := cl_chans c; cl_locked := cl_locked c;
  cl_callers := <[t := a]> (cl_callers c); cl_reader := cl_reader c; cl_in := cl_in c; cl_closed := cl_closed c;
  cl_seen := cl_seen c; cl_out := cl_out c; cl_notified := cl_notified c |}.
Definition set_reader (r : reader) (c : Client) : Client := {|
  cl_requestID := cl_requestID c; cl_pending := cl_pending c; cl_chans := cl_chans c; cl_locked := cl_locked c;
  cl_callers := cl_callers c; cl_reader := r; cl_in := cl_in c; cl_closed := cl_closed c;
  cl_seen := cl_seen c; cl_out := cl_out c; cl_notified := cl_notified c |}.
Definition set_pending (p : option (gmap Z nat)) (c : Client) : Client := {|
  cl_requestID := cl_requestID c; cl_pending := p; cl_chans := cl_chans c; cl_locked := cl_locked c;
  cl_callers := cl_callers c; cl_reader := cl_reader c; cl_in := cl_in c; cl_closed := cl_closed c;
  cl_seen := cl_seen c; cl_out := cl_out c; cl_notified := cl_notified c |}.
Definition set_chans (m : gmap nat pendingResult) (c : Client) : Client := {|
  cl_requestID := cl_requestID c; cl_pending := cl_pending c; cl_chans := m; cl_locked := cl_locked c;
  cl_callers := cl_callers c; cl_reader := cl_reader c; cl_in := cl_in c; cl_closed := cl_closed c;
  cl_seen := cl_seen c; cl_out := cl_out c; cl_notified := cl_notified c |}.
Definition set_locked (b : bool) (c : Client) : Client := {|
  cl_requestID := cl_requestID c; cl_pending := cl_pending c; cl_chans := cl_chans c; cl_locked := b;
  cl_callers := cl_callers c; cl_reader := cl_reader c; cl_in := cl_in c; cl_closed := cl_closed c;
  cl_seen := cl_seen c; cl_out := cl_out c; cl_notified := cl_notified c |}.
Definition set_requestID (n : Z) (c : Client) : Client := {|
  cl_requestID := n; cl_pending := cl_pending c; cl_chans := cl_chans c; cl_locked := cl_locked c;
  cl_callers := cl_callers c; cl_reader := cl_reader c; cl_in := cl_in c; cl_closed := cl_closed c;
  cl_seen := cl_seen c; cl_out := cl_out c; cl_notified := cl_notified c |}.
Definition add_out (line : string) (c : Client) : Client := {|
  cl_requestID := cl_requestID c; cl_pending := cl_pending c; cl_chans := cl_chans c; cl_locked := cl_locked c;
  cl_callers := cl_callers c; cl_reader := cl_reader c; cl_in := cl_in c; cl_closed := cl_closed c;
  cl_seen := cl_seen c; cl_out := cl_out c ++ [line]; cl_notified := cl_notified c |}.
Definition set_input (l : list string) (closed : bool) (c : Client) : Client := {|
  cl_requestID := cl_requestID c; cl_pending := cl_pending c; cl_chans := cl_chans c; cl_locked := cl_locked c;
  cl_callers := cl_callers c; cl_reader := cl_reader c; cl_in := l; cl_closed := closed;
  cl_seen := cl_seen c; cl_out := cl_out c; cl_notified := cl_notified c |}.
Definition take_line (line : string) (l : list string) (r : reader) (c : Client) : Client := {|
  cl_requestID := cl_requestID c; cl_pending := cl_pending c; cl_chans := cl_chans c; cl_locked := cl_locked c;
  cl_callers := cl_callers c; cl_reader := r; cl_in := l; cl_closed := cl_closed c;
  cl_seen := cl_seen c ++ [line]; cl_out := cl_out c; cl_notified := cl_notified c |}.
Definition add_notified (t : nat) (n : notification) (c : Client) : Client := {|
  cl_requestID := cl_requestID c; cl_pending := cl_pending c; cl_chans := cl_chans c; cl_locked := cl_locked c;
  cl_callers := cl_callers c; cl_reader := cl_reader c; cl_in := cl_in c; cl_closed := cl_closed c;
  cl_seen := cl_seen c; cl_out := cl_out c; cl_notified := cl_notified c ++ [(t, n)] |}.

(** A new client. *)
Definition NewClient : Client := {|
  cl_requestID := 0; cl_pending := Some ∅; cl_chans := ∅; cl_locked := false; cl_callers := ∅; cl_reader := RRead;
  cl_in := []; cl_closed := false; cl_seen := []; cl_out := []; cl_notified := [] |}.

Definition cancel_line (target id : Z) : string :=
  json_print (request_json "cancel" (Some (JObj (member "id" (JInt target)))) id).

(** ** The reader *)

(** The notifications that belong to a request. *)
Definition request_scoped (method : string) : bool :=
  bool_decide (method ∈ ["exec_stream.stdout"; "exec_stream.stderr"; "exec_pipe.ready"; "exec_pipe.stdout"; "exec_pipe.stderr";
                         "exec_tty.ready"; "exec_tty.stdout"; "log_stream.data"]).

Definition notification_id (n : notification) : option Z :=
  default None (nt_Params n ≫= of_struct (λ l, field "id" dec_id None l)).

(** What a line makes of the reader. *)
Definition read_response (line : string) : reader :=
  match json_parse line ≫= response_of_json with
  | None => RRead
  | Some resp =>
      match rs_ID resp with
      | None =>
          match json_parse line ≫= notification_of_json with
          | Some n => if request_scoped (nt_Method n) then RNotify n else RRead  (* "event" is for the hooks *)
          | None => RRead
          end
      | Some id => RResponse id (result_of resp)
      end
  end.

(** ** Steps

    The parameters the client puts into a request are maps of strings, numbers and lists of them,
    and configurations, which [json.Marshal] does not refuse: the return of [ErrMarshalRequest]
    has no step. *)

Inductive client_step (c : Client) : Client → Prop :=
(* callers: sendRequestWithIDCtx *)
| CallStarts t method params :
    cl_callers c !! t = None →
    let id := uint64 (cl_requestID c + 1) in
    client_step c (set_caller t (CRegister id (json_print (request_json method params id))) (set_requestID id c))
| CallRegisters t id line m :
    cl_callers c !! t = Some (CRegister id line) → cl_locked c = false → cl_pending c = Some m →
    client_step c (set_caller t (CWrite id line) (set_pending (Some (<[id := t]> m)) c))
| CallRefused t id line :
    cl_callers c !! t = Some (CRegister id line) → cl_locked c = false → cl_pending c = None →
    client_step c (set_caller t (CDone id (Err ErrClientClosed)) c)
| CallWrites t id line :
    cl_callers c !! t = Some (CWrite id line) → client_step c (set_caller t (CWait id) (add_out line c))
| CallWriteFails t id line :
    cl_callers c !! t = Some (CWrite id line) → client_step c (set_caller t (CUnregister id (Err ErrWriteRequest)) c)
| CallReceives t id r :
    cl_callers c !! t = Some (CWait id) → cl_chans c !! t = Some r →
    client_step c (set_caller t (CUnregister id r) (set_chans (delete t (cl_chans c)) c))
| CallContextDone t id :
    cl_callers c !! t = Some (CWait id) → client_step c (set_caller t (CCancel id) c)
| CallCancels t id (written : bool) :
    cl_callers c !! t = Some (CCancel id) →
    let cancelID := uint64 (cl_requestID c + 1) in
    let c' := set_requestID cancelID c in
    client_step c (set_caller t (CUnregister id (Err ErrContext))
      (if written then add_out (cancel_line id cancelID) c' else c'))
| CallUnregisters t id r :
    cl_callers c !! t = Some (CUnregister id r) → cl_locked c = false →
    client_step c (set_caller t (CDone id r) (set_pending (delete id <$> cl_pending c) c))
(* the reader: startReader *)
| ReaderReads line l :
    cl_reader c = RRead → cl_in c = line :: l → client_step c (take_line line l (read_response line) c)
| ReaderFails m ts :
    cl_reader c = RRead → cl_in c = [] → cl_closed c = true → cl_locked c = false → cl_pending c = Some m →
    ts ≡ₚ (map_to_list m).*2 →  (* in the order of the range *)
    client_step c (set_reader (RFail ts) (set_locked true c))
| ReaderFailsOne t ts :
    cl_reader c = RFail (t :: ts) → cl_chans c !! t = None →
    client_step c (set_reader (RFail ts) (set_chans (<[t := Err ErrConnectionClose]> (cl_chans c)) c))
| ReaderEnds :
    cl_reader c = RFail [] → client_step c (set_reader RGone (set_pending None (set_locked false c)))
| ReaderDelivers id r t :
    cl_reader c = RResponse id r → cl_locked c = false → (cl_pending c ≫= λ m, m !! id) = Some t →
    client_step c (set_reader (RSend t r) c)
| ReaderDrops id r :
    cl_reader c = RResponse id r → cl_locked c = false → (cl_pending c ≫= λ m, m !! id) = None →
    client_step c (set_reader RRead c)
| ReaderSends t r :
    cl_reader c = RSend t r → cl_chans c !! t = None →
    client_step c (set_reader RRead (set_chans (<[t := r]> (cl_chans c)) c))
| ReaderNotifies n id t :
    cl_reader c = RNotify n → cl_locked c = false → notification_id n = Some id →
    (cl_pending c ≫= λ m, m !! id) = Some t → client_step c (set_reader RRead (add_notified t n c))
| ReaderIgnores n :
    cl_reader c = RNotify n → cl_locked c = false →
    (notification_id n ≫= λ id, cl_pending c ≫= λ m, m !! id) = None → client_step c (set_reader RRead c)
(* the server *)
| ServerWrites line :
    cl_closed c = false → client_step c (set_input (cl_in c ++ [line]) false c)
| ServerCloses : client_step c (set_input (cl_in c) true c).

Definition client_run : Client → Prop := rtc client_step NewClient.

(** ** What methods send, and make of the answer

    A call's result is a raw message, absent if the response had none; [None] in the end is a
    parse error. *)

(** [base64.StdEncoding.DecodeString]: what it gives with its error is a parameter. *)
Definition DecodeString (partial : string → string) (s : string) : bytes * bool :=
  match b64_decode_std s with
  | Some d => (String.list_ascii_of_string d, true)
  | None => (String.list_ascii_of_string (partial s), false)
  end.

(** *** exec.go *)

Record ExecResult := { xr_ExitCode : Z; xr_Stdout : bytes; xr_Stderr : bytes; xr_DurationMS : Z }.

Definition exec_request_params (command workingDir : string) : json :=
  json_object ([("command", JStr command)] ++ omitempty (bool_decide (workingDir = "")) "working_dir" (JStr workingDir)).

Definition dec_exec_result (l : list (string * json)) : option (Z * string * string * Z) :=
  c ← field "exit_code" dec_int 0 l; o ← field "stdout" dec_string "" l; e ← field "stderr" dec_string "" l;
  d ← field "duration_ms" dec_int 0 l; Some (c, o, e, d).

(** Output that is not base64 is taken as far as it is. *)
Definition Exec_result (partial : string → string) (result : option json) : option ExecResult :=
  '(c, o, e, d) ← decode dec_exec_result result;
  Some {| xr_ExitCode := c; xr_Stdout := (DecodeString partial o).1; xr_Stderr := (DecodeString partial e).1; xr_DurationMS := d |}.

(** [ExecStreamResult], [ExecPipeResult] and [ExecInteractiveResult]. *)
Record ExecStreamResult := { xs_ExitCode : Z; xs_DurationMS : Z }.

Definition dec_stream_result (l : list (string * json)) : option ExecStreamResult :=
  c ← field "exit_code" dec_int 0 l; d ← field "duration_ms" dec_int 0 l; Some {| xs_ExitCode := c; xs_DurationMS := d |}.
Definition stream_result : option json → option ExecStreamResult := decode dec_stream_result.

(** What a notification makes a method do: write to a writer, or learn that its input is read. *)
Inductive notified := WriteStdout (d : bytes) | WriteStderr (d : bytes) | MarkReady.

Definition chunk_of (params : option json) : option bytes :=
  data ← decode (λ l, field "data" dec_string "" l) params; String.list_ascii_of_string <$> b64_decode_std data.

(** A writer that is nil discards. *)
Definition write_chunk (present : bool) (w : bytes → notified) (params : option json) : list notified :=
  match chunk_of params with Some d => if present then [w d] else [] | None => [] end.

Definition ExecStream_onNotification (stdout stderr : bool) (method : string) (params : option json) : list notified :=
  if decide (method = "exec_stream.stdout") then write_chunk stdout WriteStdout params
  else if decide (method = "exec_stream.stderr") then write_chunk stderr WriteStderr params
  else [].

Definition ExecPipe_onNotification (stdout stderr : bool) (method : string) (params : option json) : list notified :=
  if decide (method = "exec_pipe.ready") then [MarkReady]
  else if decide (method = "exec_pipe.stdout") then write_chunk stdout WriteStdout params
  else if decide (method = "exec_pipe.stderr") then write_chunk stderr WriteStderr params
  else [].

Definition ExecInteractive_onNotification (stdout : bool) (method : string) (params : option json) : list notified :=
  if decide (method = "exec_tty.ready") then [MarkReady]
  else if decide (method = "exec_tty.stdout") then write_chunk stdout WriteStdout params
  else [].

Definition exec_tty_params (command workingDir user : string) (rows cols : Z) : json :=
  let rows := if rows =? 0 then 24 else rows in
  let cols := if cols =? 0 then 80 else cols in
  json_object ([("command", JStr command); ("rows", JInt rows); ("cols", JInt cols)]
               ++ omitempty (bool_decide (workingDir = "")) "working_dir" (JStr workingDir)
               ++ omitempty (bool_decide (user = "")) "user" (JStr user)).

(** One round of the loop that pumps input: whether the call was seen to be over, what was read,
    whether with an error, and whether the notification could be sent. *)
Record pump_round := { pr_done : bool; pr_data : bytes; pr_err : bool; pr_sent : bool }.

Definition input_notification (method : string) (reqID : Z) (data : option bytes) : json :=
  notificationRequest_json method (Some (json_object (("id", JInt reqID) ::
    match data with Some d => [("data", JStr (b64_encode (String.string_of_list_ascii d)))] | None => [] end))).

Fixpoint pump_loop (reqID : Z) (chunkMethod eofMethod : string) (rounds : list pump_round) : list json :=
  match rounds with
  | [] => []
  | r :: rounds' =>
      if pr_done r then []
      else
        let chunk := if is_empty (pr_data r) then [] else [input_notification chunkMethod reqID (Some (pr_data r))] in
        if negb (is_empty (pr_data r)) && negb (pr_sent r) then []
        else if pr_err r then chunk ++ [input_notification eofMethod reqID None]
        else chunk ++ pump_loop reqID chunkMethod eofMethod rounds'
  end.

(** What [pumpExecInput] sends. Nothing before the command is ready; a nil reader is at its end. *)
Definition pumpExecInput (ready : bool) (reqID : Z) (stdin : option (list pump_round)) (chunkMethod eofMethod : string) : list json :=
  if negb ready then []
  else match stdin with
       | None => [input_notification eofMethod reqID None]
       | Some rounds => pump_loop reqID chunkMethod eofMethod rounds
       end.

(** The notifications of [pumpTTYResize]. *)
Definition pumpTTYResize (ready : bool) (reqID : Z) (sizes : list (Z * Z)) : list json :=
  if negb ready then []
  else (λ s, notificationRequest_json "exec_tty.resize"
               (Some (json_object [("id", JInt reqID); ("rows", JInt s.1); ("cols", JInt s.2)]))) <$> sizes.

(** *** log.go, files.go, allow_list.go, port_forward.go *)

Definition content_result (result : option json) : option bytes :=
  c ← decode (λ l, field "content" dec_string "" l) result; String.list_ascii_of_string <$> b64_decode_std c.

Definition Log_result : option json → option bytes := content_result.
Definition ReadFile_result : option json → option bytes := content_result.

Definition LogStream_onNotification (stdout : bool) (method : string) (params : option json) : list notified :=
  if decide (method = "log_stream.data") then write_chunk stdout WriteStdout params else [].

Definition write_file_params (path : string) (content : bytes) (mode : Z) : json :=
  json_object [("path", JStr path); ("content", JStr (b64_encode (String.string_of_list_ascii content))); ("mode", JInt mode)].
Definition path_params (path : string) : json := json_object [("path", JStr path)].

Record FileInfo := { fl_Name : string; fl_Size : Z; fl_Mode : Z; fl_IsDir : bool }.

Definition FileInfo_of_json : json → option FileInfo := of_struct (λ l,
  n ← field "name" dec_string "" l; s ← field "size" dec_int 0 l; m ← field "mode" (dec_uint 32) 0 l; d ← field "is_dir" dec_bool false l;
  Some {| fl_Name := n; fl_Size := s; fl_Mode := m; fl_IsDir := d |}).

Definition ListFiles_result (result : option json) : option (list FileInfo) :=
  decode (λ l, field "files" (dec_list FileInfo_of_json) [] l) result.

(** The tokens of all hosts, each once, in the order they first occur. *)
Fixpoint normalize_tokens (seen : list string) (tokens : list string) : list string :=
  match tokens with
  | [] => []
  | token :: tokens' =>
      let token := TrimSpace token in
      if decide (token = "") then normalize_tokens seen tokens'
      else if bool_decide (token ∈ seen) then normalize_tokens seen tokens'
      else token :: normalize_tokens (token :: seen) tokens'
  end.

(** [None] is [ErrAllowListHosts]. *)
Definition normalizeAllowListHosts (hosts : list string) : option (list string) :=
  match normalize_tokens [] (concat ((λ h, Split h ","%char) <$> hosts)) with [] => None | l => Some l end.

Record AllowListUpdate := { au_Added : list string; au_Removed : list string; au_AllowedHosts : list string }.

Definition allow_list_params (hosts : list string) : json := json_object [("hosts", enc_strings hosts)].

Definition AllowListAdd_result (result : option json) : option AllowListUpdate :=
  decode (λ l, a ← field "added" dec_strings [] l; h ← field "allowed_hosts" dec_strings [] l;
               Some {| au_Added := a; au_Removed := []; au_AllowedHosts := h |}) result.
Definition AllowListDelete_result (result : option json) : option AllowListUpdate :=
  decode (λ l, r ← field "removed" dec_strings [] l; h ← field "allowed_hosts" dec_strings [] l;
               Some {| au_Added := []; au_Removed := r; au_AllowedHosts := h |}) result.

Record PortForwardBinding := { pb_Address : string; pb_LocalPort : Z; pb_RemotePort : Z }.

Definition PortForwardBinding_of_json : json → option PortForwardBinding := of_struct (λ l,
  a ← field "address" dec_string "" l; p ← field "local_port" dec_int 0 l; r ← field "remote_port" dec_int 0 l;
  Some {| pb_Address := a; pb_LocalPort := p; pb_RemotePort := r |}).

(** [None]: nothing to forward, and no call. *)
Definition port_forward_params (addresses : list string) (forwards : list PortForward) : option json :=
  if bool_decide (forwards = []) then None
  else
    let addresses := if bool_decide (addresses = []) then ["127.0.0.1"] else addresses in
    Some (json_object [("forwards", JArr ((λ f, JObj (member "local_port" (JInt (pf_LocalPort f))
                                                       ++ member "remote_port" (JInt (pf_RemotePort f)))) <$> forwards));
                       ("addresses", enc_strings addresses)]).

Definition PortForward_result (result : option json) : option (list PortForwardBinding) :=
  decode (λ l, field "bindings" (dec_list PortForwardBinding_of_json) [] l) result.
