(* ===== verification/SdkSpec.v ===== *)
(** * What the Go client promises its callers

    Each call gets the answer to its own request. The lock, though, can be held for ever: a call
    whose context ends while its response is there, when the connection then breaks. *)

From S2P Require Import Prelude GoStrings GoStd GoJson GoNet Api Wire Exec Rpc Sdk.

(** ** Answers *)

Definition caller_id (a : caller) : Z :=
  match a with
  | CRegister id _ | CWrite id _ | CWait id | CCancel id | CUnregister id _ | CDone id _ => id
  end.

(** A result that came over the connection for number [id]. *)
Definition answer_read (c : Client) (id : Z) (r : pendingResult) : Prop :=
  ∃ line, line ∈ cl_seen c ∧ read_response line = RResponse id r.

(** What a call can return. *)
Definition own_result (c : Client) (id : Z) (r : pendingResult) : Prop :=
  r ∈ [Err ErrClientClosed; Err ErrWriteRequest; Err ErrConnectionClose; Err ErrContext] ∨ answer_read c id r.

Definition id_of (c : Client) (t : nat) : option Z := caller_id <$> cl_callers c !! t.

Record answers_inv (n : Z) (c : Client) : Prop := {
  ai_count : 0 <= cl_requestID c <= n;
  ai_range t id : id_of c t = Some id → 1 <= id <= cl_requestID c;
  ai_inj t t' id : id_of c t = Some id → id_of c t' = Some id → t = t';
  ai_pending m id t : cl_pending c = Some m → m !! id = Some t → id_of c t = Some id;
  ai_chan t r : cl_chans c !! t = Some r → ∃ id, id_of c t = Some id ∧ own_result c id r;
  ai_caller t id r : cl_callers c !! t = Some (CUnregister id r) ∨ cl_callers c !! t = Some (CDone id r) → own_result c id r;
  ai_reader : match cl_reader c with
              | RResponse id r => answer_read c id r
              | RSend t r => ∃ id, id_of c t = Some id ∧ answer_read c id r
              | RFail ts => ∀ t, t ∈ ts → is_Some (id_of c t)
              | _ => True
              end }.

Lemma answers_inv_init : answers_inv 0 NewClient.
Proof. by split; cbn; try (intros; simplify_map_eq); try naive_solver. Qed.

(** The state of a caller changes, not its number. *)
Lemma id_of_set t a c u id : cl_callers c !! t = Some a → ∀ b, caller_id b = caller_id a →
  (caller_id <$> <[t := b]> (cl_callers c) !! u) = Some id ↔ id_of c u = Some id.
Proof.
  intros Ha b Hb. unfold id_of. destruct (decide (u = t)) as [->|Hne]; [|by rewrite lookup_insert_ne].
  rewrite lookup_insert_eq, Ha. cbn. by rewrite Hb.
Qed.

(** What a step that leaves the lines read alone keeps. *)
Lemma own_result_seen c c' id r : cl_seen c' = cl_seen c → own_result c' id r ↔ own_result c id r.
Proof. intros Hs. unfold own_result, answer_read. by rewrite Hs. Qed.

Definition finishing (c : Client) (t : nat) (id : Z) (r : pendingResult) : Prop :=
  cl_callers c !! t = Some (CUnregister id r) ∨ cl_callers c !! t = Some (CDone id r).

Definition reader_ok (c : Client) : Prop :=
  match cl_reader c with
  | RResponse id r => answer_read c id r
  | RSend t r => ∃ id, id_of c t = Some id ∧ answer_read c id r
  | RFail ts => ∀ t, t ∈ ts → is_Some (id_of c t)
  | _ => True
  end.

Lemma answer_read_mono c c' id r : (∀ l, l ∈ cl_seen c → l ∈ cl_seen c') → answer_read c id r → answer_read c' id r.
Proof. intros Hs (l & Hl & Hr). exists l. split; [by apply Hs|done]. Qed.

Lemma own_result_mono c c' id r : (∀ l, l ∈ cl_seen c → l ∈ cl_seen c') → own_result c id r → own_result c' id r.
Proof. intros Hs [?|Ha]; [by left|right; by eapply answer_read_mono]. Qed.

(** A step in which nobody draws a number of its own. *)
Lemma answers_frame n n' c c' :
  answers_inv n c → (∀ l, l ∈ cl_seen c → l ∈ cl_seen c') → (∀ t id, id_of c' t = Some id ↔ id_of c t = Some id) →
  cl_requestID c <= cl_requestID c' <= n' →
  (∀ m id t, cl_pending c' = Some m → m !! id = Some t →
     (∃ m0, cl_pending c = Some m0 ∧ m0 !! id = Some t) ∨ id_of c t = Some id) →
  (∀ t r, cl_chans c' !! t = Some r → cl_chans c !! t = Some r ∨ ∃ id, id_of c t = Some id ∧ own_result c id r) →
  (∀ t id r, finishing c' t id r → finishing c t id r ∨ own_result c id r) → reader_ok c' → answers_inv n' c'.
Proof.
  intros [H1 H2 H3 H4 H5 H6 H7] Hseen Hid Hn Hpend Hchan Hfin Hreader. split.
  - lia.
  - intros t id Ht%Hid. specialize (H2 _ _ Ht). lia.
  - intros t t' id Ht%Hid Ht'%Hid. by eapply H3.
  - intros m id t Hm Ht. apply Hid. destruct (Hpend _ _ _ Hm Ht) as [(m0 & ? & ?)|?]; [by eapply H4|done].
  - intros t r Ht. destruct (Hchan _ _ Ht) as [Ho|Ho].
    + destruct (H5 _ _ Ho) as (id & ? & ?). exists id. split; [by apply Hid|by eapply own_result_mono].
    + destruct Ho as (id & ? & ?). exists id. split; [by apply Hid|by eapply own_result_mono].
  - intros t id r Ht. eapply own_result_mono; [done|]. destruct (Hfin _ _ _ Ht) as [Ho|Ho]; [by eapply H6|done].
  - done.
Qed.

(** A caller goes on: to what it was about to return, or to [r]. *)
Lemma caller_moves (c c' : Client) t a b :
  cl_callers c !! t = Some a → cl_callers c' = <[t := b]> (cl_callers c) → caller_id b = caller_id a →
  (∀ u id, id_of c' u = Some id ↔ id_of c u = Some id)
  ∧ (∀ P : nat → Z → pendingResult → Prop,
       (∀ id r, b = CUnregister id r ∨ b = CDone id r → P t id r) →
       ∀ u id r, finishing c' u id r → finishing c u id r ∨ P u id r).
Proof.
  intros Ha Hc' Hb. split.
  - intros u id. unfold id_of at 1. rewrite Hc'. by eapply id_of_set.
  - intros P HP u id r Hf. unfold finishing in *. rewrite Hc' in Hf. destruct (decide (u = t)) as [->|Hne].
    + rewrite lookup_insert_eq in Hf. right. apply HP. naive_solver.
    + rewrite lookup_insert_ne in Hf by done. by left.
Qed.

Lemma reader_ok_same c c' :
  cl_reader c' = cl_reader c → (∀ l, l ∈ cl_seen c → l ∈ cl_seen c') → (∀ t id, id_of c' t = Some id ↔ id_of c t = Some id) →
  reader_ok c → reader_ok c'.
Proof.
  intros Hr Hs Hid Hok. unfold reader_ok in *. rewrite Hr. destruct (cl_reader c); try done.
  - by eapply answer_read_mono.
  - destruct Hok as (id & ? & ?). exists id. split; [by apply Hid|by eapply answer_read_mono].
  - intros t Ht. destruct (Hok t Ht) as [id Hi]. exists id. by apply Hid.
Qed.

(** A step of a caller. *)
Lemma caller_step n n' c c' t a b :
  answers_inv n c → cl_callers c !! t = Some a → cl_callers c' = <[t := b]> (cl_callers c) → caller_id b = caller_id a →
  cl_seen c' = cl_seen c → cl_reader c' = cl_reader c → cl_requestID c <= cl_requestID c' <= n' →
  (∀ m id u, cl_pending c' = Some m → m !! id = Some u →
     (∃ m0, cl_pending c = Some m0 ∧ m0 !! id = Some u) ∨ id_of c u = Some id) →
  (∀ u r, cl_chans c' !! u = Some r → cl_chans c !! u = Some r) →
  (∀ id r, b = CUnregister id r ∨ b = CDone id r → own_result c id r) → answers_inv n' c'.
Proof.
  intros Hinv Ha Hc' Hb Hseen Hreader Hn Hpend Hchan Hres. destruct (caller_moves c c' t a b Ha Hc' Hb) as [Hid Hfin].
  apply (answers_frame n n' c); try done.
  - by rewrite Hseen.
  - intros u r Hu. left. by apply Hchan.
  - by apply (Hfin (λ _, own_result c)).
  - apply (reader_ok_same c); [done|by rewrite Hseen|done|apply (ai_reader _ _ Hinv)].
Qed.

(** A step of the reader. *)
Lemma reader_step n c c' :
  answers_inv n c → cl_callers c' = cl_callers c → (∀ l, l ∈ cl_seen c → l ∈ cl_seen c') → cl_requestID c' = cl_requestID c →
  cl_pending c' = cl_pending c ∨ cl_pending c' = None →
  (∀ t r, cl_chans c' !! t = Some r → cl_chans c !! t = Some r ∨ ∃ id, id_of c t = Some id ∧ own_result c id r) →
  reader_ok c' → answers_inv n c'.
Proof.
  intros Hinv Hc Hseen Hn Hpend Hchan Hok. apply (answers_frame n n c); try done.
  - intros t id. unfold id_of. by rewrite Hc.
  - rewrite Hn. split; [lia|apply (ai_count _ _ Hinv)].
  - intros m id t Hm Ht. left. destruct Hpend as [Hp|Hp]; rewrite Hp in Hm; [by exists m|done].
  - intros t id r Hf. left. unfold finishing in *. by rewrite Hc in Hf.
Qed.

Lemma read_response_ok c line l : (reader_ok (take_line line l (read_response line) c)).
Proof.
  unfold reader_ok. cbn. destruct (read_response line) as [|n|id r|t r|ts|] eqn:Hr; try done.
  - exists line. split; [cbn; apply elem_of_app; right; by left|done].
  - exfalso. unfold read_response in Hr. repeat case_match; done.
  - exfalso. unfold read_response in Hr. repeat case_match; done.
Qed.

(** A new caller: its number is new. *)
Lemma caller_starts n c t a :
  answers_inv n c → cl_callers c !! t = None → caller_id a = cl_requestID c + 1 →
  (∀ id r, a ≠ CUnregister id r ∧ a ≠ CDone id r) → answers_inv (n + 1) (set_caller t a (set_requestID (cl_requestID c + 1) c)).
Proof.
  intros [H1 H2 H3 H4 H5 H6 H7] Hnew Ha Hna. set (c' := set_caller _ _ _).
  assert (Hid : ∀ u id, id_of c' u = Some id ↔ u = t ∧ id = cl_requestID c + 1 ∨ id_of c u = Some id).
  { intros u id. unfold id_of, c'. cbn. destruct (decide (u = t)) as [->|Hne].
    - rewrite lookup_insert_eq, Hnew. cbn. rewrite Ha. naive_solver.
    - rewrite lookup_insert_ne by done. naive_solver. }
  assert (Hold : ∀ u id, id_of c u = Some id → id_of c' u = Some id) by (intros; apply Hid; by right).
  split.
  - cbn. lia.
  - intros u id [[-> ->]|Hu]%Hid; cbn; [lia|]. specialize (H2 _ _ Hu). lia.
  - intros u u' id [[-> ->]|Hu]%Hid [[-> Hi]|Hu']%Hid; try done.
    + specialize (H2 _ _ Hu'). lia.
    + specialize (H2 _ _ Hu). lia.
    + by eapply H3.
  - intros m id u Hm Hu. eapply Hold, H4; eauto.
  - intros u r Hu. destruct (H5 _ _ Hu) as (id & Hi & Ho). exists id. split; [by apply Hold|done].
  - intros u id r Hu. unfold c' in Hu. cbn in Hu. destruct (decide (u = t)) as [->|Hne].
    + rewrite lookup_insert_eq in Hu. exfalso. destruct (Hna id r). destruct Hu; congruence.
    + rewrite lookup_insert_ne in Hu by done. by eapply H6.
  - destruct (cl_reader c) as [| | |u r|ts|] eqn:Hr; unfold c'; cbn; rewrite Hr; try done.
    + destruct H7 as (id & Hi & Ho). exists id. split; [by apply Hold|done].
    + intros u Hu. destruct (H7 u Hu) as [id Hi]. exists id. by apply Hold.
Qed.

Lemma client_step_inv n c c' : n < 2 ^ 64 - 1 → answers_inv n c → client_step c c' → answers_inv (n + 1) c'.
Proof.
  intros Hn Hinv Hs. pose proof (ai_count _ _ Hinv) as Hc. pose proof (ai_reader _ _ Hinv) as Hrd.
  assert (Hmono : ∀ c', answers_inv n c' → answers_inv (n + 1) c').
  { intros c0 [? ? ? ? ? ? ?]. split; [lia|done..]. }
  assert (Hu : uint64 (cl_requestID c + 1) = cl_requestID c + 1) by (apply uint64_id; lia).
  destruct Hs as [t method params Hnew id|t id line m Ha Hl Hp|t id line Ha Hl Hp|t id line Ha|t id line Ha|t id r Ha Hr|t id Ha
    |t id written Ha cancelID c'|t id r Ha Hl|line l Hr Hi|m ts Hr Hi Hcl Hl Hp Hts|t ts Hr Hch|Hr|id r t Hr Hl Hp|id r Hr Hl Hp
    |t r Hr Hch|m id t Hr Hl Hid Hp|m Hr Hl Hid|line Hcl|].
  - unfold id. rewrite Hu. by apply caller_starts.
  - eapply caller_step; [done|exact Ha|done|done|done|done|cbn; lia| |done|naive_solver].
    cbn. intros m' id' u [= <-] [[<- <-]|[_ Hm]]%lookup_insert_Some; [right; unfold id_of; by rewrite Ha|left; by exists m].
  - eapply caller_step; [done|exact Ha|done|done|done|done|cbn; lia| |done|].
    + cbn. intros m' id' u Hm ?. left. by exists m'.
    + intros id' r [?|[= <- <-]]; [done|]. left. set_solver.
  - eapply caller_step; [done|exact Ha|done|done|done|done|cbn; lia| |done|naive_solver]. cbn. intros m' id' u ? ?. left. by exists m'.
  - eapply caller_step; [done|exact Ha|done|done|done|done|cbn; lia| |done|].
    + cbn. intros m' id' u Hm ?. left. by exists m'.
    + intros id' r [[= <- <-]|?]; [|done]. left. set_solver.
  - eapply caller_step; [done|exact Ha|done|done|done|done|cbn; lia| | |].
    + cbn. intros m' id' u Hm ?. left. by exists m'.
    + cbn. by intros u r' [_ ?]%lookup_delete_Some.
    + intros id' r' [[= <- <-]|?]; [|done]. destruct (ai_chan _ _ Hinv _ _ Hr) as (id0 & Hid0 & Ho).
      unfold id_of in Hid0. rewrite Ha in Hid0. by injection Hid0 as <-.
  - eapply caller_step; [done|exact Ha|done|done|done|done|cbn; lia| |done|naive_solver]. cbn. intros m' id' u ? ?. left. by exists m'.
  - eapply (caller_step n (n + 1) c _ t); [done|exact Ha|by destruct written|done|by destruct written|by destruct written| | | |].
    + destruct written; cbn; unfold cancelID; rewrite Hu; lia.
    + intros m' id' u Hm Hi. left. exists m'. split; [|done]. by destruct written.
    + by destruct written.
    + intros id' r [[= <- <-]|?]; [|done]. left. set_solver.
  - eapply caller_step; [done|exact Ha|done|done|done|done|cbn; lia| |done|].
    + cbn. intros m' id' u Hm Hi. destruct (cl_pending c) as [m|]; [|done]. injection Hm as <-.
      apply lookup_delete_Some in Hi as [_ Hi]. left. by exists m.
    + intros id' r' [?|[= <- <-]]; [done|]. eapply (ai_caller _ _ Hinv). by left.
  - apply Hmono, (reader_step n c); try done; [|by left|by intros ? ? ?; left|apply read_response_ok].
    cbn. intros l' ?. apply elem_of_app. by left.
  - apply Hmono, (reader_step n c); try done; [by left|by intros ? ? ?; left|].
    unfold reader_ok. cbn. intros t Ht. rewrite Hts in Ht. apply list_elem_of_fmap in Ht as ([id' t'] & -> & Hin%elem_of_map_to_list).
    exists id'. by eapply (ai_pending _ _ Hinv).
  - rewrite Hr in Hrd. apply Hmono, (reader_step n c); try done; [by left| |].
    + cbn. intros u r [[<- <-]|[_ ?]]%lookup_insert_Some; [right|by left]. destruct (Hrd t) as [id Hid]; [by left|].
      exists id. split; [done|]. left. set_solver.
    + unfold reader_ok. cbn. intros u Hin. apply Hrd. by right.
  - apply Hmono, (reader_step n c); try done; [by right|by intros ? ? ?; left].
  - rewrite Hr in Hrd. apply Hmono, (reader_step n c); try done; [by left|by intros ? ? ?; left|].
    unfold reader_ok. cbn. exists id. split; [|done]. destruct (cl_pending c) as [m|] eqn:Hm; [|done]. by eapply (ai_pending _ _ Hinv).
  - apply Hmono, (reader_step n c); try done; [by left|by intros ? ? ?; left].
  - rewrite Hr in Hrd. destruct Hrd as (id & Hid & Hans). apply Hmono, (reader_step n c); try done; [by left|].
    cbn. intros u r' [[<- <-]|[_ ?]]%lookup_insert_Some; [right|by left]. exists id. split; [done|by right].
  - apply Hmono, (reader_step n c); try done; [by left|by intros ? ? ?; left].
  - apply Hmono, (reader_step n c); try done; [by left|by intros ? ? ?; left].
  - apply Hmono, (reader_step n c); try done; [by left|by intros ? ? ?; left].
  - apply Hmono, (reader_step n c); try done; [by left|by intros ? ? ?; left].
Qed.

Lemma client_run_inv k c : Z.of_nat k < 2 ^ 64 → nsteps client_step k NewClient c → answers_inv (Z.of_nat k) c.
Proof.
  revert c. induction k as [|k IH]; intros c Hk Hs.
  - inversion Hs; subst. apply answers_inv_init.
  - apply nsteps_inv_r in Hs as (c1 & Hs & Hstep). rewrite Nat2Z.inj_succ, <- Z.add_1_r.
    apply (client_step_inv _ c1); [lia|apply IH; [lia|done]|done].
Qed.

(** C28: Each call gets its own answer. However calls, the reader and the server interleave, a call
    that returns has the result of a response with its number, or one of the four errors of the
    client itself; and no other call has that number. (Fewer than 2^64 numbers were drawn.) *)
Theorem sdk_own_answer k c t id r :
  Z.of_nat k < 2 ^ 64 → nsteps client_step k NewClient c → cl_callers c !! t = Some (CDone id r) →
  (r ∈ [Err ErrClientClosed; Err ErrWriteRequest; Err ErrConnectionClose; Err ErrContext]
   ∨ ∃ line, line ∈ cl_seen c ∧ read_response line = RResponse id r)
  ∧ ∀ t' a, cl_callers c !! t' = Some a → caller_id a = id → t' = t.
Proof.
  intros Hk Hs Ht. pose proof (client_run_inv k c Hk Hs) as Hinv. split.
  - eapply (ai_caller _ _ Hinv). by right.
  - intros t' a Ha Hid. apply (ai_inj _ _ Hinv t' t id); unfold id_of; [rewrite Ha; cbn; by rewrite Hid|by rewrite Ht].
Qed.

(** ** A client that is stuck *)

(** The reader, with the lock, has an error for a call that has taken no result, but has one. *)
Definition stuck (t : nat) (c : Client) : Prop :=
  cl_locked c = true ∧ (∃ ts, cl_reader c = RFail (t :: ts)) ∧ is_Some (cl_chans c !! t)
  ∧ ∃ id r, cl_callers c !! t = Some (CUnregister id r).

Definition returned (c : Client) (u : nat) : Prop := ∃ id r, cl_callers c !! u = Some (CDone id r).

(** What only moves callers that are not at their end, and not [t], keeps it. *)
Lemma stuck_frame t c c' :
  stuck t c → cl_locked c' = true → cl_reader c' = cl_reader c → cl_chans c' !! t = cl_chans c !! t →
  (∃ u a, u ≠ t ∧ cl_callers c' = <[u := a]> (cl_callers c) ∧ ∀ id r, a ≠ CDone id r) ∨ cl_callers c' = cl_callers c →
  stuck t c' ∧ ∀ u, returned c' u → returned c u.
Proof.
  intros (Hlock & Hreader & Hchan & id & r & Ht) Hl Hr Hch Hcallers. unfold stuck, returned. rewrite Hl, Hr, Hch.
  destruct Hcallers as [(u & a & Hne & -> & Ha)| ->].
  - split; [split_and!; try done; exists id, r; by rewrite lookup_insert_ne|].
    intros v (id' & r' & Hv). apply lookup_insert_Some in Hv as [[<- ->]|[_ Hv]]; [by destruct (Ha id' r')|by exists id', r'].
  - split; [split_and!; eauto|done].
Qed.

Lemma stuck_step t c c' : stuck t c → client_step c c' → stuck t c' ∧ ∀ u, returned c' u → returned c u.
Proof.
  intros Hst Hs. pose proof Hst as (Hlock & (ts & Hreader) & [r0 Hchan] & id0 & r' & Ht).
  destruct Hs as [u method params Hnew id|u id line m Ha Hl Hp|u id line Ha Hl Hp|u id line Ha|u id line Ha|u id r Ha Hr|u id Ha
    |u id written Ha cancelID c'|u id r Ha Hl|line l Hr Hi|m us Hr Hi Hcl Hl Hp Hts|u us Hr Hch|Hr|id r u Hr Hl Hp|id r Hr Hl Hp
    |u r Hr Hch|m id u Hr Hl Hid Hp|m Hr Hl Hid|line Hcl|]; try congruence.
  - apply (stuck_frame _ c); try done. left. eexists u, _. split_and!; [congruence|done|done].
  - apply (stuck_frame _ c); try done. left. eexists u, _. split_and!; [congruence|done|done].
  - apply (stuck_frame _ c); try done. left. eexists u, _. split_and!; [congruence|done|done].
  - apply (stuck_frame _ c); try done.
    + apply lookup_delete_ne. congruence.
    + left. eexists u, _. split_and!; [congruence|done|done].
  - apply (stuck_frame _ c); try done. left. eexists u, _. split_and!; [congruence|done|done].
  - apply (stuck_frame _ c); [done|by destruct written|by destruct written|by destruct written|].
    left. eexists u, _. split_and!; [congruence|by destruct written|done].
  - by apply (stuck_frame _ c); try right.
  - by apply (stuck_frame _ c); try right.
Qed.

(** The lock is never released. When the connection breaks, the reader takes the lock and puts
    an error on the channel of each pending call. If one of them has its response already, and
    its context ended before it took it, the channel is full: the reader waits for the call to
    take a result, and the call for the lock to be removed from the pending ones. From then on
    no call returns, whatever happens: not this one, no other that is under way, and none that
    begins. *)
Theorem sdk_stuck t c c' :
  stuck t c → rtc client_step c c' → stuck t c' ∧ ∀ u, returned c' u → returned c u.
Proof.
  intros Hst Hs. induction Hs as [c|c c1 c2 Hstep Hs IH]; [done|].
  destruct (stuck_step t c c1 Hst Hstep) as [Hst1 Hret1]. destruct (IH Hst1) as [Hst2 Hret2]. eauto.
Qed.
