(* ===== verification/SdkRpc.v ===== *)
(** * The Go client and the handler it talks to

    What the client sends is what the handler does, and what the handler answers is what the
    client's methods return: the two ends of the same lines, [Sdk] and [Rpc]. *)

From S2P Require Import Prelude GoStrings GoStd GoJson GoJsonSpec GoNet Api ApiConfig Wire Exec Rpc RpcInput Sdk.

(** ** What a program does, given the answers to its actions *)

Fixpoint prog_value {V A} (o : ∀ a : action V, answer a) (p : prog V A) : A :=
  match p with Ret x => x | Act a k => prog_value o (k (o a)) end.

(** The chunks it puts into channels. *)
Fixpoint prog_pushes {V A} (o : ∀ a : action V, answer a) (p : prog V A) : list (nat * execInputChunk) :=
  match p with
  | Ret _ => []
  | Act a k => (match a with APush ch c => [(ch, c)] | _ => [] end) ++ prog_pushes o (k (o a))
  end.

(** ** Lines *)

Definition is_id (n : Z) : Prop := 0 <= n < 2 ^ 63.

Lemma is_id_int64 n : is_id n → is_int64 n.
Proof. unfold is_id, is_int64. lia. Qed.

Lemma dec_id_FormatInt a n : is_id n → dec_id a (JNum (FormatInt n)) = Some (Some n).
Proof.
  intros Hn. cbn [dec_id]. assert (H : ParseUint (FormatInt n) 64 = Some n); [|by rewrite H].
  apply (dec_uint_FormatInt 64 0). unfold is_id in Hn. lia.
Qed.

(** The parameters of a request: small, so that with the request around them they are parsed. *)
Definition params_ok (p : json) : Prop := small 8 p.

Lemma small_parse d j : d <= maxNestingDepth → small d j → json_parse (json_print j) = Some j.
Proof. intros Hd [Hok Hj]. apply json_parse_print; [done|lia]. Qed.

Lemma depth_ok : 9 <= maxNestingDepth.
Proof. done. Qed.

Ltac small_members := repeat first
  [ apply small_member; [reflexivity| |] | apply small_member_end; [reflexivity|]
  | apply small_omitempty; [reflexivity| |] | apply small_omitempty_end; [reflexivity|] ].

Lemma object_ok l : Forall (member_small 7) l → params_ok (json_object l).
Proof.
  intros Hl. unfold params_ok, json_object. change 8 with (7 + 1). apply small_obj; [done|].
  apply Forall_forall. intros kv Hkv. rewrite sort_by_perm in Hkv. revert kv Hkv. by apply Forall_forall.
Qed.

(** The members of an object with literal keys in the order they are printed in. *)
Ltac sort_keys :=
  cbn [sort_by foldr insert_sorted fst];
  repeat (match goal with |- context [string_leb ?a ?b] =>
            let v := eval vm_compute in (string_leb a b) in change (string_leb a b) with v end;
          cbn [insert_sorted fst]).

(** One member of an object: skipped, or decoded. *)
Ltac read_member := first
  [ rewrite field_miss by reflexivity
  | rewrite field_hit by reflexivity;
    first [ rewrite dec_id_FormatInt by done | rewrite dec_int_FormatInt by done | cbn [dec_string dec_raw] ]; cbn [mbind option_bind] 
  | progress cbn [field mbind option_bind] ].

(** A request of the client as the handler reads it. *)
Lemma request_line_read method params id :
  ValidString method = true → params_ok params → is_id id →
  json_parse (json_print (request_json method (Some params) id)) ≫= Request_of_json
  = Some {| rq_JSONRPC := "2.0"; rq_Method := method; rq_Params := Some params; rq_ID := Some id |}.
Proof.
  intros Hm Hp Hid. rewrite (small_parse 9 _ depth_ok).
  - unfold request_json, Request_of_json, of_struct, member, JInt. cbn [mbind option_bind app]. by repeat read_member.
  - change 9 with (8 + 1). apply small_obj; [done|]. small_members; try done; try by apply small_str.
    apply small_int; [done|by apply is_id_int64].
Qed.

(** The same of a notification, which has no number. *)
Lemma notification_line_read method params :
  ValidString method = true → params_ok params →
  json_parse (json_print (notificationRequest_json method (Some params))) ≫= Request_of_json
  = Some {| rq_JSONRPC := "2.0"; rq_Method := method; rq_Params := Some params; rq_ID := None |}.
Proof.
  intros Hm Hp. rewrite (small_parse 9 _ depth_ok).
  - unfold notificationRequest_json, Request_of_json, of_struct, member. cbn [mbind option_bind app]. by repeat read_member.
  - change 9 with (8 + 1). apply small_obj; [done|]. small_members; try done; by apply small_str.
Qed.

(** A response of the handler as the client reads it. *)
Lemma result_line_read id result :
  is_id id → params_ok result →
  read_response (json_print (Response_json {| rp_Result := Some result; rp_Error := None; rp_ID := Some id |}))
  = RResponse id (Ok (Some result)).
Proof.
  intros Hid Hr. unfold read_response. rewrite (small_parse 9 _ depth_ok).
  - unfold Response_json, response_of_json, of_struct, member, JInt. cbn [mbind option_bind app rp_Result rp_Error rp_ID].
    by repeat read_member.
  - change 9 with (8 + 1). apply small_obj; [done|]. small_members; try done; try by apply small_str.
    apply small_int; [done|by apply is_id_int64].
Qed.

Lemma error_line_read id code message :
  is_id id → is_int64 code → ValidString message = true →
  read_response (json_print (Response_json (error_response (Some id) code message)))
  = RResponse id (Err (ErrRPC {| re_Code := code; re_Message := message |})).
Proof.
  intros Hid Hc Hm. unfold read_response. rewrite (small_parse 9 _ depth_ok).
  - unfold Response_json, error_response, response_of_json, of_struct, member, JInt. cbn [mbind option_bind app rp_Result rp_Error rp_ID].
    repeat read_member. cbn [dec_error]. unfold rpcError_of_json, of_struct. by repeat read_member.
  - change 9 with (8 + 1). apply small_obj; [done|]. cbn [error_response rp_Result rp_Error rp_ID app]. small_members; try done; try by apply small_str.
    + change 8 with (7 + 1). apply small_obj; [done|].
      small_members; first [done|by apply small_int|by apply small_str].
    + apply small_int; [done|by apply is_id_int64].
Qed.

(** ** Calls *)

Section calls.
Context {V : Type} (cls : vm_class V).
Context (config_of_json : json → option Config) (unmarshal_error : option json → string) (error_text : api_error → string).
Context (shellquote_Join : list string → string) (logPathForVM : string → string).

Abbreviation handle := (handleRequest cls config_of_json unmarshal_error error_text shellquote_Join logPathForVM).

(** [handleRequest] on a method it knows. *)
Ltac dispatch :=
  unfold handleRequest; cbn [rq_Method];
  repeat (rewrite decide_False by done); rewrite decide_True by done.

Lemma exec_params_ok command workingDir :
  ValidString command = true → ValidString workingDir = true → params_ok (exec_request_params command workingDir).
Proof.
  intros Hc Hw. apply object_ok. constructor; [by split; [|apply small_str]|].
  apply small_omitempty_end; [done|intros _; by apply small_str].
Qed.

Lemma exec_params_read command workingDir :
  decode dec_exec (Some (exec_request_params command workingDir))
  = Some {| xp_Command := command; xp_WorkingDir := workingDir; xp_User := "" |}.
Proof.
  unfold decode, exec_request_params, json_object, dec_exec. cbn [mbind option_bind of_struct].
  destruct (bool_decide_reflect (workingDir = "")) as [->|Hne]; cbn [omitempty app]; sort_keys; by repeat read_member.
Qed.

Lemma exec_result_ok code out err ms :
  is_int64 code → is_int64 ms →
  params_ok (json_object [("exit_code", JInt code); ("stdout", b64 out); ("stderr", b64 err); ("duration_ms", JInt ms)]).
Proof.
  intros Hc Hm. apply object_ok. repeat (constructor; [split; [done|first [by apply small_int|by apply small_bytes]]|]). constructor.
Qed.

Lemma DecodeString_encode partial b : (DecodeString partial (b64_encode (String.string_of_list_ascii b))).1 = b.
Proof. unfold DecodeString. rewrite b64_roundtrip. cbn. by rewrite String.list_ascii_of_string_of_list_ascii. Qed.

Lemma exec_result_read partial code out err ms :
  is_int64 code → is_int64 ms →
  Exec_result partial (Some (json_object
    [("exit_code", JInt code); ("stdout", b64 out); ("stderr", b64 err); ("duration_ms", JInt ms)]))
  = Some {| xr_ExitCode := code; xr_Stdout := out; xr_Stderr := err; xr_DurationMS := ms |}.
Proof.
  intros Hc Hm. unfold Exec_result, decode, json_object, dec_exec_result, b64, JInt. sort_keys. cbn [mbind option_bind of_struct].
  repeat read_member. by rewrite !DecodeString_encode.
Qed.

(** C29: A command that is run through the client. Of a command and a working directory in UTF-8
    the handler reads the request the client writes as an exec with this command and working
    directory and runs them, and the client reads the answer as the exit code, the output and
    the duration that the machine gave, every byte of the output as it was, UTF-8 or not. *)
Theorem sdk_exec_exact partial (o : ∀ a : action V, answer a) vm id command workingDir result ms :
  is_id id → ValidString command = true → ValidString workingDir = true → is_int64 (res_ExitCode result) → is_int64 ms →
  o AGetVM = Some vm → jr_result (o (ARun (JobExec vm command workingDir "") no_io)) = Ok (result, ms) →
  ∃ req resp raw,
    json_parse (json_print (request_json "exec" (Some (exec_request_params command workingDir)) id)) ≫= Request_of_json = Some req
    ∧ prog_value o (handle req) = Some resp
    ∧ read_response (json_print (Response_json resp)) = RResponse id (Ok raw)
    ∧ Exec_result partial raw = Some {| xr_ExitCode := res_ExitCode result; xr_Stdout := res_Stdout result;
                                        xr_Stderr := res_Stderr result; xr_DurationMS := ms |}.
Proof.
  intros Hid Hcmd Hwd Hcode Hms Hvm Hrun. eexists _, _, _. split_and!.
  - apply request_line_read; [done|by apply exec_params_ok|done].
  - dispatch. unfold handleExec, with_vm, with_params, act. cbn [mbind prog_mbind prog_bind prog_value rq_Params rq_ID].
    rewrite Hvm. cbn [prog_bind prog_value]. rewrite exec_params_read.
    cbn [prog_mbind prog_bind prog_value xp_Command xp_WorkingDir xp_User]. rewrite Hrun. reflexivity.
  - apply result_line_read; [done|]. by apply exec_result_ok.
  - by apply exec_result_read.
Qed.

(** *** Input *)

(** The chunks that the loop puts into channels when it reads a line. *)
Definition line_pushes (o : ∀ a : action V, answer a) (line : string) : list (nat * execInputChunk) :=
  match (handle_line cls config_of_json unmarshal_error error_text shellquote_Join logPathForVM line 0).2 with
  | inl (LHandle _ p) => prog_pushes o p
  | _ => []
  end.

(** The two kinds of commands with input. *)
Definition chunk_method (tty : bool) : string := if tty then "exec_tty.stdin" else "exec_pipe.stdin".
Definition eof_method (tty : bool) : string := if tty then "exec_tty.stdin_eof" else "exec_pipe.stdin_eof".
Definition input_channel (o : ∀ a : action V, answer a) (tty : bool) (id : Z) : option nat :=
  if tty then fst <$> (o (ALookupTTY id) : option (nat * nat)) else o (ALookupPipe id).

Definition chunk_params (id : Z) (data : bytes) : json := json_object [("id", JInt id); ("data", b64 data)].
Definition eof_params (id : Z) : json := json_object [("id", JInt id)].

Lemma chunk_params_ok id data : is_id id → params_ok (chunk_params id data).
Proof.
  intros Hid. apply object_ok. constructor; [split; [done|by apply small_int, is_id_int64]|].
  constructor; [by split; [|apply small_bytes]|constructor].
Qed.

Lemma eof_params_ok id : is_id id → params_ok (eof_params id).
Proof. intros Hid. apply object_ok. constructor; [split; [done|by apply small_int, is_id_int64]|constructor]. Qed.

Lemma chunk_params_read id data :
  is_id id → decode dec_stdin (Some (chunk_params id data)) = Some (Some id, b64_encode (String.string_of_list_ascii data)).
Proof.
  intros Hid. unfold decode, chunk_params, json_object, dec_stdin, b64, JInt. sort_keys. cbn [mbind option_bind of_struct].
  by repeat read_member.
Qed.

Lemma eof_params_read id : is_id id → decode dec_eof (Some (eof_params id)) = Some (Some id).
Proof.
  intros Hid. unfold decode, eof_params, json_object, dec_eof, JInt. sort_keys. cbn [mbind option_bind of_struct].
  by repeat read_member.
Qed.

(** A line of input, in the loop. *)
Lemma line_pushes_input o method params :
  isExecInputMethod method = true → ValidString method = true → params_ok params →
  line_pushes o (json_print (notificationRequest_json method (Some params)))
  = prog_pushes o (respond (handle {| rq_JSONRPC := "2.0"; rq_Method := method; rq_Params := Some params; rq_ID := None |})).
Proof.
  intros Hm Hv Hp. unfold line_pushes, handle_line, parse_request. rewrite notification_line_read by done. cbn [snd rq_Method].
  rewrite decide_False by (by intros ->). rewrite decide_False by (by intros [->| ->]). by rewrite Hm.
Qed.

Lemma chunk_line_pushes o tty id ch data :
  is_id id → input_channel o tty id = Some ch →
  line_pushes o (json_print (input_notification (chunk_method tty) id (Some data))) = [(ch, {| ck_Data := data; ck_EOF := false |})].
Proof.
  intros Hid Hch. unfold input_notification. rewrite line_pushes_input by (destruct tty; first [done|by apply chunk_params_ok]).
  change (json_object _) with (chunk_params id data).
  destruct tty; cbn [chunk_method input_channel] in *; dispatch;
    unfold handleExecTTYStdin, handleExecPipeStdin, respond; cbn [rq_Params];
    rewrite chunk_params_read, b64_roundtrip by done; unfold act; cbn [mbind prog_mbind prog_bind prog_pushes app].
  - destruct (o (ALookupTTY id)) as [[ch' rch]|]; [|done]. injection Hch as ->. cbn. by rewrite String.list_ascii_of_string_of_list_ascii.
  - rewrite Hch. cbn. by rewrite String.list_ascii_of_string_of_list_ascii.
Qed.

Lemma eof_line_pushes o tty id ch :
  is_id id → input_channel o tty id = Some ch →
  line_pushes o (json_print (input_notification (eof_method tty) id None)) = [(ch, {| ck_Data := []; ck_EOF := true |})].
Proof.
  intros Hid Hch. unfold input_notification. rewrite line_pushes_input by (destruct tty; first [done|by apply eof_params_ok]).
  change (json_object _) with (eof_params id).
  destruct tty; cbn [eof_method input_channel] in *; dispatch;
    unfold handleExecTTYStdinEOF, handleExecPipeStdinEOF, respond; cbn [rq_Params];
    rewrite eof_params_read by done; unfold act; cbn [mbind prog_mbind prog_bind prog_pushes app].
  - destruct (o (ALookupTTY id)) as [[ch' rch]|]; [|done]. by injection Hch as ->.
  - by rewrite Hch.
Qed.

(** What the pump has read of its reader: up to the first error, the end of the file included. *)
Fixpoint input_read (rounds : list pump_round) : bytes :=
  match rounds with [] => [] | r :: rounds' => pr_data r ++ (if pr_err r then [] else input_read rounds') end.

Definition undisturbed (rounds : list pump_round) : Prop := Forall (λ r, pr_done r = false ∧ pr_sent r = true) rounds.

Lemma chunk_data_cons c l : chunk_data (c :: l) = ck_Data c ++ chunk_data l.
Proof. done. Qed.

Lemma pump_loop_pushes o tty id ch rounds :
  is_id id → input_channel o tty id = Some ch → undisturbed rounds →
  ∃ chunks, concat (line_pushes o ∘ json_print <$> pump_loop id (chunk_method tty) (eof_method tty) rounds) = (ch,.) <$> chunks
    ∧ chunk_data (before_eof chunks) = input_read rounds ∧ (no_eof chunks ↔ existsb pr_err rounds = false).
Proof.
  intros Hid Hch Hr. induction Hr as [|r rounds [Hdone Hsent] _ IH]; [by exists []|].
  cbn [pump_loop]. rewrite Hdone, Hsent, andb_false_r.
  assert (Hchunk : ∃ first, concat (line_pushes o ∘ json_print <$>
             (if is_empty (pr_data r) then [] else [input_notification (chunk_method tty) id (Some (pr_data r))])) = (ch,.) <$> first
           ∧ no_eof first ∧ chunk_data first = pr_data r).
  { destruct (pr_data r) as [|b data] eqn:Hd; [by exists []|]. eexists [_]. cbn [is_empty fmap list_fmap concat].
    unfold compose. rewrite (chunk_line_pushes _ _ _ ch), app_nil_r by done. split_and!; [done|done|]. by rewrite chunk_data_cons, app_nil_r. }
  destruct Hchunk as (first & Hf & Hno & Hdata). cbn [existsb input_read]. destruct (pr_err r).
  - exists (first ++ [{| ck_Data := []; ck_EOF := true |}]). rewrite !fmap_app, concat_app, Hf. cbn [fmap list_fmap concat].
    unfold compose. rewrite (eof_line_pushes _ _ _ ch), app_nil_r by done. split_and!; [done| |].
    + rewrite before_eof_app, chunk_data_app, Hdata by done. cbn. done.
    + split; [|done]. intros Hn. by destruct (before_eof_not first {| ck_Data := []; ck_EOF := true |} []).
  - destruct IH as (chunks & Hc & Hcd & Hend). exists (first ++ chunks). rewrite !fmap_app, concat_app, Hf, Hc. split_and!; [done| |].
    + by rewrite before_eof_app, chunk_data_app, Hdata, Hcd.
    + rewrite <- Hend. split; [|by apply no_eof_app]. clear -Hno. intros H. induction first as [|x first IH]; [done|].
      apply no_eof_cons in Hno as [_ Hno]. apply no_eof_cons in H as [_ H]. auto.
Qed.

(** The input of a command that is run through the client, with or without a terminal. While
    the call is under way and its notifications can be sent, the handler's loop puts into the
    command's channel, and no other, exactly the bytes that the client read of the caller's
    reader, in order; and the end of the input after them if and only if the reader came to
    its end. *)
Theorem sdk_input_exact (o : ∀ a : action V, answer a) tty id ch rounds :
  is_id id → input_channel o tty id = Some ch → undisturbed rounds →
  ∃ chunks, concat (line_pushes o ∘ json_print <$> pumpExecInput true id (Some rounds) (chunk_method tty) (eof_method tty)) = (ch,.) <$> chunks
    ∧ chunk_data (before_eof chunks) = input_read rounds ∧ (no_eof chunks ↔ existsb pr_err rounds = false).
Proof. apply pump_loop_pushes. Qed.
End calls.
