(* ===== verification/SdkExamples.v ===== *)
(** * Runs of the Go client

    Concrete runs, which show that the hypotheses of the properties of [SdkSpec] and [SdkRpc]
    hold of them. Machines are numbers. *)

From S2P Require Import Prelude GoStrings GoStd GoJson GoNet Api ApiConfig Wire Exec Rpc RpcInput RpcExamples Sdk SdkSpec SdkRpc.

(** ** A call, answered, whose context ends, before the connection breaks *)

Definition ok_line : string := json_print (Response_json {| rp_Result := Some (JObj []); rp_Error := None; rp_ID := Some 1 |}).
Definition exec_line : string := json_print (request_json "exec" None 1).

Lemma ok_line_read : read_response ok_line = RResponse 1 (Ok (Some (JObj []))).
Proof. vm_compute. reflexivity. Qed.

(** The request has been written, and its answer read. *)
Definition answered (chans : gmap nat pendingResult) (r : reader) (a : caller) : Client := {|
  cl_requestID := 1; cl_pending := Some {[1 := 0%nat]}; cl_chans := chans; cl_locked := false; cl_callers := {[0%nat := a]};
  cl_reader := r; cl_in := []; cl_closed := false; cl_seen := [ok_line]; cl_out := [exec_line]; cl_notified := [] |}.

Definition ok_result : pendingResult := Ok (Some (JObj [])).

Ltac client_steps := eapply nsteps_l.

Lemma answered_run : nsteps client_step 7 NewClient (answered {[0%nat := ok_result]} RRead (CWait 1)).
Proof.
  client_steps. { apply (CallStarts _ 0 "exec" None). reflexivity. }
  client_steps. { eapply (CallRegisters _ 0); reflexivity. }
  client_steps. { eapply (CallWrites _ 0); reflexivity. }
  client_steps. { apply (ServerWrites _ ok_line). reflexivity. }
  client_steps. { apply (ReaderReads _ ok_line []); reflexivity. }
  rewrite ok_line_read.
  client_steps. { eapply (ReaderDelivers _ 1); reflexivity. }
  client_steps. { eapply (ReaderSends _ 0); reflexivity. }
  apply nsteps_O.
Qed.

Definition done_client : Client := set_pending (Some ∅) (set_caller 0 (CDone 1 ok_result) (answered ∅ RRead (CWait 1))).

Lemma done_run : nsteps client_step 9 NewClient done_client.
Proof.
  change 9%nat with (7 + 2)%nat. eapply nsteps_trans; [apply answered_run|].
  client_steps. { eapply (CallReceives _ 0); reflexivity. }
  client_steps. { eapply (CallUnregisters _ 0); reflexivity. }
  apply nsteps_O.
Qed.

Lemma sdk_own_answer_witness :
  cl_callers done_client !! 0%nat = Some (CDone 1 ok_result) ∧ ∃ line, line ∈ cl_seen done_client ∧ read_response line = RResponse 1 ok_result.
Proof.
  assert (H : cl_callers done_client !! 0%nat = Some (CDone 1 ok_result)) by reflexivity. split; [exact H|].
  destruct (sdk_own_answer 9 done_client 0 1 ok_result ltac:(lia) done_run H) as [[Hr|Hr] _]; [|exact Hr].
  exfalso. repeat (apply elem_of_cons in Hr as [Hr|Hr]; [discriminate|]). by apply elem_of_nil in Hr.
Defined.

(** The call's context ended, and the connection breaks. *)
Definition stuck_client : Client :=
  set_reader (RFail [0%nat]) (set_locked true (set_input [] true
    (add_out (cancel_line 1 2) (set_requestID 2 (answered {[0%nat := ok_result]} RRead (CUnregister 1 (Err ErrContext))))))).

Lemma stuck_run : client_run stuck_client.
Proof.
  unfold client_run. etrans; [eapply rtc_nsteps_2, answered_run|].
  eapply rtc_l. { eapply (CallContextDone _ 0). reflexivity. }
  eapply rtc_l. { eapply (CallCancels _ 0 1 true). reflexivity. }
  eapply rtc_l. { apply ServerCloses. }
  eapply rtc_l. { eapply (ReaderFails _ _ [0%nat]); reflexivity. }
  apply rtc_refl.
Qed.

Lemma sdk_stuck_witness :
  client_run stuck_client ∧ ∀ c', rtc client_step stuck_client c' → stuck 0 c' ∧ ∀ u, ¬ returned c' u.
Proof.
  split; [apply stuck_run|]. intros c' Hs.
  assert (Hst : stuck 0 stuck_client) by (split_and!; [done|by exists []|by eexists|by eexists _, _]).
  destruct (sdk_stuck 0 stuck_client c' Hst Hs) as [H1 H2]. split; [exact H1|].
  intros u Hu. destruct (H2 u Hu) as (id & r & H). unfold stuck_client, answered in H. cbn [cl_callers set_reader set_locked set_input set_requestID add_out] in H.
  apply lookup_singleton_Some in H as [_ H]. done.
Defined.

(** ** A command and its input *)

Definition ex_result : Exec.ExecResult := {| res_ExitCode := 3; res_Stdout := ["a"; "255"]%char; res_Stderr := [] |}.

Definition ex_answer (a : action nat) : answer a :=
  match a return answer a with
  | AGetVM => Some 5%nat
  | ACurrentVMID => "vm-5"
  | ATake => (None, None, false)
  | ACtxErr | ACancel _ => false
  | AFactory _ => Ok 5%nat
  | AStart _ | AWriteFile _ _ _ _ | AResetNetwork _ | APfClose _ => None
  | AClose _ _ => (None, true)
  | AStartEntry _ _ => EntryRunning
  | ARun _ _ => {| jr_result := Ok (ex_result, 12); jr_out_used := false; jr_err_used := false |}
  | AReadFile _ _ | AReadLog _ => Ok []
  | AListFiles _ _ => Ok None
  | AUpdateHosts _ _ _ | AAllowedHosts _ => Ok None
  | APfTake => None
  | APfStart _ _ _ => Err ""
  | AOpenPipe _ => 0%nat
  | AOpenTTY _ => (0, 1)%nat
  | ALookupPipe _ => Some 2%nat
  | ALookupTTY _ => None
  | _ => tt
  end.

Lemma sdk_exec_exact_witness :
  ∃ req resp raw,
    prog_value ex_answer (ex_handle req) = Some resp
    ∧ read_response (json_print (Response_json resp)) = RResponse 7 (Ok raw)
    ∧ Exec_result (λ s, s) raw = Some {| xr_ExitCode := 3; xr_Stdout := ["a"; "255"]%char; xr_Stderr := []; xr_DurationMS := 12 |}.
Proof.
  destruct (sdk_exec_exact ex_cls ex_config (λ _, "unmarshal") (λ _, "error") (λ l, String.concat " " l) (λ id, id)
              (λ s, s) ex_answer 5%nat 7 "ls -l" "/tmp" ex_result 12) as (req & resp & raw & _ & H1 & H2 & H3);
    [done|reflexivity|reflexivity|done|done|reflexivity|reflexivity|].
  exists req, resp, raw. split_and!; [exact H1|exact H2|exact H3].
Defined.

Definition ex_rounds : list pump_round := [
  {| pr_done := false; pr_data := ["a"; "b"]%char; pr_err := false; pr_sent := true |};
  {| pr_done := false; pr_data := []; pr_err := false; pr_sent := true |};
  {| pr_done := false; pr_data := ["c"]%char; pr_err := true; pr_sent := true |} ].

Lemma sdk_input_exact_witness : ∃ chunks, chunk_data (before_eof chunks) = ["a"; "b"; "c"]%char ∧ ¬ no_eof chunks.
Proof.
  destruct (sdk_input_exact ex_cls ex_config (λ _, "unmarshal") (λ _, "error") (λ l, String.concat " " l) (λ id, id)
              ex_answer false 7 2 ex_rounds) as (chunks & _ & H1 & H2); [done|reflexivity|repeat constructor|].
  exists chunks. split; [exact H1|]. intros H. apply H2 in H. discriminate.
Defined.
