(* ===== verification/Boot.v ===== *)
(** * How a machine is started: pkg/vm/backend.go, the back ends, and guest-init's command line

    The back ends describe a machine to the hypervisor: its drives in order, and the kernel's
    command line, from which the guest's init ([parseBootConfig]) learns which drive to mount
    where, and the rest of its configuration. *)

From Stdlib Require Import Floats.SpecFloat.
From S2P Require Import Prelude GoStrings GoStd GoJson GoNet Api ApiConfig.

(** ** pkg/vm/backend.go *)

Record DiskConfig := { dc_HostPath : string; dc_GuestMount : string; dc_ReadOnly : bool }.
Record VirtioFSShare := { vs_Tag : string; vs_HostPath : string; vs_GuestMount : string; vs_ReadOnly : bool }.

(** The fields that the back ends read; [NetworkFD] and [Env] are not among them, and [PrebuiltRootfs],
    which the one of darwin reads, is [RootfsPath] there. *)
Record VMConfig := {
  vc_ID : string; vc_KernelPath : string; vc_RootfsPath : string; vc_OverlayEnabled : bool;
  vc_OverlayLowerPaths : list string; vc_OverlayLowerFSTypes : list string; vc_OverlayUpperPath : string;
  vc_CPUs : spec_float; vc_MemoryMB : Z; vc_VsockCID : Z; vc_VsockPath : string; vc_SocketPath : string; vc_LogPath : string;
  vc_KernelArgs : string; vc_GatewayIP : string; vc_GuestIP : string; vc_SubnetCIDR : string; vc_Workspace : string;
  vc_UseInterception : bool; vc_Privileged : bool; vc_DNSServers : list string; vc_Hostname : string;
  vc_AddHosts : list HostIPMapping; vc_MTU : Z; vc_NoNetwork : bool; vc_ExtraDisks : list DiskConfig; vc_SwapPath : string;
  vc_EncryptSwap : bool; vc_ZramPct : Z; vc_VirtioFSShares : list VirtioFSShare; vc_VirtioFSMaskPaths : list string }.

Fixpoint KernelIPDNSSuffix_loop (n : nat) (dnsServers : list string) : string :=
  match n, dnsServers with
  | S n', s :: l => ":" +:+ s +:+ KernelIPDNSSuffix_loop n' l
  | _, _ => ""
  end.
Definition KernelIPDNSSuffix : list string → string := KernelIPDNSSuffix_loop 2.
Definition KernelDNSParam (dnsServers : list string) : string := Join dnsServers ",".

Definition effectiveMTU (mtu : Z) : Z := if 0 <? mtu then mtu else DefaultNetworkMTU.

(** ** Kernel arguments *)

Section kernel_args.
(** [fmt]'s [%g] *)
Context (format_g : spec_float → string).

(** [fmt.Sprintf("vd%c", devLetter)] *)
Definition device_name (letter : Z) : string := "vd" +:+ EncodeRune letter.
Definition firstLetter : Z := 98.  (* 'b': vda is the root *)

(** The devices and types of the lower images, and the next letter. *)
Fixpoint lower_args (letter : Z) (i : nat) (paths fsTypes : list string) : list string * list string * Z :=
  match paths with
  | [] => ([], [], letter)
  | _ :: paths' =>
      let fsType := match fsTypes !! i with Some t => if decide (t = "") then "erofs" else t | None => "erofs" end in
      let r := lower_args (letter + 1) (S i) paths' fsTypes in
      (device_name letter :: r.1.1, fsType :: r.1.2, r.2)
  end.

Definition overlay_args (letter : Z) (c : VMConfig) : string * Z :=
  if vc_OverlayEnabled c then
    let r := lower_args letter 0 (vc_OverlayLowerPaths c) (vc_OverlayLowerFSTypes c) in
    (" matchlock.overlay=1" +:+ (" matchlock.overlay.lower=" +:+ Join r.1.1 ",")
       +:+ (" matchlock.overlay.lowerfs=" +:+ Join r.1.2 ",") +:+ (" matchlock.overlay.upper=" +:+ device_name r.2), r.2 + 1)
  else ("", letter).

Fixpoint disk_args (letter : Z) (disks : list DiskConfig) : string * Z :=
  match disks with
  | [] => ("", letter)
  | disk :: disks' =>
      let diskMount := if dc_ReadOnly disk then dc_GuestMount disk +:+ ",ro" else dc_GuestMount disk in
      let r := disk_args (letter + 1) disks' in
      ((" matchlock.disk." +:+ device_name letter +:+ "=" +:+ diskMount) +:+ r.1, r.2)
  end.

Definition swap_args (letter : Z) (c : VMConfig) : string :=
  if decide (vc_SwapPath c = "") then ""
  else (" matchlock.swap=" +:+ device_name letter) +:+ (if vc_EncryptSwap c then " matchlock.encrypt_swap=1" else "").

Definition zram_args (c : VMConfig) : string :=
  if 0 <? vc_ZramPct c then " matchlock.zram_pct=" +:+ FormatInt (vc_ZramPct c) else "".

Fixpoint add_host_args (i : Z) (mappings : list HostIPMapping) : string :=
  match mappings with
  | [] => ""
  | m :: l => (" matchlock.add_host." +:+ FormatInt i +:+ "=" +:+ him_Host m +:+ "," +:+ him_IP m) +:+ add_host_args (i + 1) l
  end.

Definition workspace_arg (c : VMConfig) : string :=
  if decide (vc_Workspace c = "") then "" else " matchlock.workspace=" +:+ vc_Workspace c.
Definition privileged_arg (c : VMConfig) : string := if vc_Privileged c then " matchlock.privileged=1" else "".
Definition boot_hostname (c : VMConfig) : string := if decide (vc_Hostname c = "") then vc_ID c else vc_Hostname c.
Definition ip_or (ip dflt : string) : string := if decide (ip = "") then dflt else ip.

(** The [ip=] argument of a static configuration. *)
Definition ip_arg (c : VMConfig) : string :=
  " ip=" +:+ ip_or (vc_GuestIP c) "192.168.100.2" +:+ "::" +:+ ip_or (vc_GatewayIP c) "192.168.100.1"
    +:+ ":255.255.255.0::eth0:off" +:+ KernelIPDNSSuffix (vc_DNSServers c).

(** The arguments of [generateFirecrackerConfig]. *)
Definition linux_kernel_args (c : VMConfig) : string :=
  if decide (vc_KernelArgs c ≠ "") then vc_KernelArgs c
  else
    let overlay := overlay_args firstLetter c in
    let disks := disk_args overlay.2 (vc_ExtraDisks c) in
    "console=ttyS0 reboot=k panic=1 acpi=off init=/init"
      +:+ (" hostname=" +:+ boot_hostname c) +:+ workspace_arg c +:+ (" matchlock.dns=" +:+ KernelDNSParam (vc_DNSServers c))
      +:+ (if vc_NoNetwork c then " ip=off" +:+ " matchlock.no_network=1"
           else ip_arg c +:+ (" matchlock.mtu=" +:+ FormatInt (effectiveMTU (vc_MTU c))))
      +:+ privileged_arg c +:+ (" matchlock.cpus=" +:+ format_g (vc_CPUs c))
      +:+ overlay.1 +:+ disks.1 +:+ swap_args disks.2 c +:+ zram_args c +:+ add_host_args 0 (vc_AddHosts c).

Fixpoint share_args (shares : list VirtioFSShare) : string :=
  match shares with
  | [] => ""
  | s :: l =>
      let mount := if vs_ReadOnly s then vs_GuestMount s +:+ ",ro" else vs_GuestMount s in
      (" matchlock.virtiofs." +:+ vs_Tag s +:+ "=" +:+ mount) +:+ share_args l
  end.
Definition mask_args (paths : list string) : string :=
  match paths with [] => "" | _ => " matchlock.virtiofs_mask=" +:+ Join paths "," end.

(** [DarwinBackend.buildKernelArgs] *)
Definition darwin_kernel_args (c : VMConfig) : string :=
  if decide (vc_KernelArgs c ≠ "") then vc_KernelArgs c
  else
    let overlay := overlay_args firstLetter c in
    let disks := disk_args overlay.2 (vc_ExtraDisks c) in
    let diskArgs := overlay.1 +:+ disks.1 +:+ swap_args disks.2 c +:+ share_args (vc_VirtioFSShares c)
                      +:+ mask_args (vc_VirtioFSMaskPaths c) +:+ zram_args c in
    let names := (" hostname=" +:+ boot_hostname c) +:+ workspace_arg c +:+ (" matchlock.dns=" +:+ KernelDNSParam (vc_DNSServers c)) in
    let rest := privileged_arg c +:+ diskArgs +:+ add_host_args 0 (vc_AddHosts c) +:+ (" matchlock.cpus=" +:+ format_g (vc_CPUs c)) in
    let mtu := " matchlock.mtu=" +:+ FormatInt (effectiveMTU (vc_MTU c)) in
    "console=hvc0 root=/dev/vda rw init=/init reboot=k panic=1"
      +:+ (if vc_NoNetwork c then " ip=off" +:+ names +:+ " matchlock.no_network=1" +:+ rest
           else if vc_UseInterception c then ip_arg c +:+ names +:+ mtu +:+ rest
           else " ip=dhcp" +:+ names +:+ mtu +:+ rest).
End kernel_args.

(** ** Drives *)

Record fcDrive := { fd_DriveID : string; fd_PathOnHost : string; fd_IsRootDevice : bool; fd_IsReadOnly : bool }.

Definition numbered_drives (prefix : string) (disks : list (string * bool)) : list fcDrive :=
  imap (λ i d, {| fd_DriveID := prefix +:+ FormatInt (Z.of_nat i); fd_PathOnHost := d.1; fd_IsRootDevice := false; fd_IsReadOnly := d.2 |}) disks.

Definition fc_drives (c : VMConfig) : list fcDrive :=
  [{| fd_DriveID := "rootfs"; fd_PathOnHost := vc_RootfsPath c; fd_IsRootDevice := true; fd_IsReadOnly := false |}]
  ++ (if vc_OverlayEnabled c then
        numbered_drives "overlay-lower-" ((λ p, (p, true)) <$> vc_OverlayLowerPaths c)
        ++ [{| fd_DriveID := "overlay-upper"; fd_PathOnHost := vc_OverlayUpperPath c; fd_IsRootDevice := false; fd_IsReadOnly := false |}]
      else [])
  ++ numbered_drives "disk" ((λ d, (dc_HostPath d, dc_ReadOnly d)) <$> vc_ExtraDisks c)
  ++ (if decide (vc_SwapPath c = "") then []
      else [{| fd_DriveID := "swap"; fd_PathOnHost := vc_SwapPath c; fd_IsRootDevice := false; fd_IsReadOnly := false |}]).

(** [DarwinBackend.configureStorage]: the path and the read-only flag of each attachment. *)
Definition storage_devices (c : VMConfig) : list (string * bool) :=
  [(vc_RootfsPath c, false)]
  ++ (if vc_OverlayEnabled c then ((λ p, (p, true)) <$> vc_OverlayLowerPaths c) ++ [(vc_OverlayUpperPath c, false)] else [])
  ++ ((λ d, (dc_HostPath d, dc_ReadOnly d)) <$> vc_ExtraDisks c)
  ++ (if decide (vc_SwapPath c = "") then [] else [(vc_SwapPath c, false)]).

(** The rest of Firecracker's configuration. *)
Record fcConfig := {
  fc_KernelImagePath : string; fc_BootArgs : string; fc_Drives : list fcDrive; fc_VCPUCount : Z; fc_MemSizeMiB : Z;
  fc_NetworkInterfaces : list (string * string * string); fc_Vsock : option (Z * string) }.

(** [int(math.Ceil(cpus))] of a number that [Create] has put to [VCPUCount]. *)
Definition generateFirecrackerConfig (format_g : spec_float → string) (macAddress tapName : string) (c : VMConfig) : fcConfig := {|
  fc_KernelImagePath := vc_KernelPath c; fc_BootArgs := linux_kernel_args format_g c; fc_Drives := fc_drives c;
  fc_VCPUCount := (VCPUCount (vc_CPUs c)).1; fc_MemSizeMiB := vc_MemoryMB c;
  fc_NetworkInterfaces := if vc_NoNetwork c then [] else [("eth0", macAddress, tapName)];
  fc_Vsock := if 0 <? vc_VsockCID c then Some (vc_VsockCID c, vc_VsockPath c) else None |}.

(** pkg/sandbox/overlay_limits.go *)
Inductive layout_error := ErrOverlayLayerLimit | ErrOverlayDiskLimit.
Definition maxOverlayBlockDevices : Z := 24.
Definition maxOverlayLowerLayers : Z := 20.

Definition validateOverlayDiskLayout (lowerCount extraCount : Z) : option layout_error :=
  if maxOverlayLowerLayers <? lowerCount then Some ErrOverlayLayerLimit
  else if maxOverlayBlockDevices <? 1 + lowerCount + 1 + extraCount then Some ErrOverlayDiskLimit
  else None.

Definition normalizeOverlayLowerFSTypes (lowerPaths fsTypes : list string) : list string :=
  imap (λ i _, match fsTypes !! i with Some t => if decide (t = "") then "erofs" else t | None => "erofs" end) lowerPaths.
