(* ===== verification/BootConfig.v ===== *)
(** * The configuration of the guest: parseBootConfig in cmd/guest-init/main.go

    The guest's init reads its configuration from the kernel's command line. *)

From Stdlib Require Import Floats.SpecFloat.
From S2P Require Import Prelude GoStrings GoStd GoJson GoNet Api ApiConfig.

Record diskMount := { dm_Device : string; dm_Path : string; dm_ReadOnly : bool }.
Record hostIPMapping := { hm_Host : string; hm_IP : string }.
Record virtioFSMount := { vm_Tag : string; vm_Path : string; vm_ReadOnly : bool }.
Record overlayBootConfig := {
  ov_Enabled : bool; ov_LowerDevices : list string; ov_LowerFSTypes : list string; ov_UpperDevice : string }.

Record bootConfig := {
  bc_DNSServers : list string; bc_Hostname : string; bc_AddHosts : list hostIPMapping; bc_Workspace : string;
  bc_CPUs : spec_float; bc_MTU : Z; bc_NoNetwork : bool; bc_Disks : list diskMount; bc_SwapDevice : string;
  bc_EncryptSwap : bool; bc_ZramPct : Z; bc_Overlay : overlayBootConfig; bc_VirtioFS : list virtioFSMount;
  bc_VirtioFSMask : list string }.

Inductive boot_error :=
| ErrReadCmdline | ErrInvalidMTU | ErrInvalidCPUs | ErrInvalidAddHost | ErrInvalidDiskMount | ErrMissingDNS
| ErrInvalidOverlayCfg | ErrOverlaySetup | ErrWriteHostname | ErrWriteHosts | ErrWriteResolvConf | ErrMountExtraDisk
| ErrStartGuestFused | ErrWorkspaceMountWait | ErrMountVirtioFS | ErrExecGuestAgent.

Definition defaultNetworkMTU : Z := 1500.

(** The configuration before the first field. *)
Definition boot_defaults : bootConfig := {|
  bc_DNSServers := []; bc_Hostname := ""; bc_AddHosts := []; bc_Workspace := ""; bc_CPUs := DefaultCPUs;
  bc_MTU := defaultNetworkMTU; bc_NoNetwork := false; bc_Disks := []; bc_SwapDevice := ""; bc_EncryptSwap := false;
  bc_ZramPct := 0;
  bc_Overlay := {| ov_Enabled := false; ov_LowerDevices := []; ov_LowerFSTypes := []; ov_UpperDevice := "" |};
  bc_VirtioFS := []; bc_VirtioFSMask := [] |}.

(** ** Fields of several parts *)

Definition parseAddHostField (value : string) : result boot_error hostIPMapping :=
  match SplitN 2 value ","%char with
  | [host; ip] =>
      let host := TrimSpace host in
      let ip := TrimSpace ip in
      if decide (host = "") then Err ErrInvalidAddHost
      else if decide (ip = "") then Err ErrInvalidAddHost
      else if has_whitespace host then Err ErrInvalidAddHost
      else if contains_byte ":"%char host then Err ErrInvalidAddHost
      else match ParseIP ip with
           | None => Err ErrInvalidAddHost
           | Some _ => Ok {| hm_Host := host; hm_IP := ip |}
           end
  | _ => Err ErrInvalidAddHost
  end.

(** The options after the path: the last of [ro] and [rw] counts. *)
Fixpoint disk_options (readonly : bool) (opts : list string) : result boot_error bool :=
  match opts with
  | [] => Ok readonly
  | opt :: opts' =>
      let opt := TrimSpace (ToLower opt) in
      if decide (opt = "") then disk_options readonly opts'
      else if decide (opt = "ro" ∨ opt = "readonly") then disk_options true opts'
      else if decide (opt = "rw") then disk_options false opts'
      else Err ErrInvalidDiskMount
  end.

Definition parseDiskMountSpec (value : string) : result boot_error (string * bool) :=
  match Split value ","%char with
  | [] => Err ErrInvalidDiskMount
  | p :: opts =>
      let path := TrimSpace p in
      if decide (path = "") then Err ErrInvalidDiskMount
      else if negb (HasPrefix path "/") then Err ErrInvalidDiskMount
      else readonly ← disk_options false opts; Ok (path, readonly)
  end.

(** ** One field *)

(** What follows a prefix. *)
Definition value_of (prefix field : string) : option string :=
  if HasPrefix field prefix then Some (TrimPrefix field prefix) else None.

(** [name=value], neither of them empty. *)
Definition named_value (spec : string) : option (string * string) :=
  match Cut spec "="%char with
  | Some (name, value) => if decide (name = "" ∨ value = "") then None else Some (name, value)
  | None => None
  end.

Definition boot_true (v : string) : bool := bool_decide (v = "1") || EqualFold v "true".
Definition nonempty_parts (f : string → string) (v : string) : list string :=
  filter (λ s, s ≠ "") ((TrimSpace ∘ f) <$> Split v ","%char).

Definition set_dns l (c : bootConfig) : bootConfig := {|
  bc_DNSServers := l; bc_Hostname := bc_Hostname c; bc_AddHosts := bc_AddHosts c; bc_Workspace := bc_Workspace c;
  bc_CPUs := bc_CPUs c; bc_MTU := bc_MTU c; bc_NoNetwork := bc_NoNetwork c; bc_Disks := bc_Disks c;
  bc_SwapDevice := bc_SwapDevice c; bc_EncryptSwap := bc_EncryptSwap c; bc_ZramPct := bc_ZramPct c;
  bc_Overlay := bc_Overlay c; bc_VirtioFS := bc_VirtioFS c; bc_VirtioFSMask := bc_VirtioFSMask c |}.
Definition set_hostname h (c : bootConfig) : bootConfig := {|
  bc_DNSServers := bc_DNSServers c; bc_Hostname := h; bc_AddHosts := bc_AddHosts c; bc_Workspace := bc_Workspace c;
  bc_CPUs := bc_CPUs c; bc_MTU := bc_MTU c; bc_NoNetwork := bc_NoNetwork c; bc_Disks := bc_Disks c;
  bc_SwapDevice := bc_SwapDevice c; bc_EncryptSwap := bc_EncryptSwap c; bc_ZramPct := bc_ZramPct c;
  bc_Overlay := bc_Overlay c; bc_VirtioFS := bc_VirtioFS c; bc_VirtioFSMask := bc_VirtioFSMask c |}.
Definition set_add_hosts l (c : bootConfig) : bootConfig := {|
  bc_DNSServers := bc_DNSServers c; bc_Hostname := bc_Hostname c; bc_AddHosts := l; bc_Workspace := bc_Workspace c;
  bc_CPUs := bc_CPUs c; bc_MTU := bc_MTU c; bc_NoNetwork := bc_NoNetwork c; bc_Disks := bc_Disks c;
  bc_SwapDevice := bc_SwapDevice c; bc_EncryptSwap := bc_EncryptSwap c; bc_ZramPct := bc_ZramPct c;
  bc_Overlay := bc_Overlay c; bc_VirtioFS := bc_VirtioFS c; bc_VirtioFSMask := bc_VirtioFSMask c |}.
Definition set_workspace w (c : bootConfig) : bootConfig := {|
  bc_DNSServers := bc_DNSServers c; bc_Hostname := bc_Hostname c; bc_AddHosts := bc_AddHosts c; bc_Workspace := w;
  bc_CPUs := bc_CPUs c; bc_MTU := bc_MTU c; bc_NoNetwork := bc_NoNetwork c; bc_Disks := bc_Disks c;
  bc_SwapDevice := bc_SwapDevice c; bc_EncryptSwap := bc_EncryptSwap c; bc_ZramPct := bc_ZramPct c;
  bc_Overlay := bc_Overlay c; bc_VirtioFS := bc_VirtioFS c; bc_VirtioFSMask := bc_VirtioFSMask c |}.
Definition set_cpus f (c : bootConfig) : bootConfig := {|
  bc_DNSServers := bc_DNSServers c; bc_Hostname := bc_Hostname c; bc_AddHosts := bc_AddHosts c; bc_Workspace := bc_Workspace c;
  bc_CPUs := f; bc_MTU := bc_MTU c; bc_NoNetwork := bc_NoNetwork c; bc_Disks := bc_Disks c;
  bc_SwapDevice := bc_SwapDevice c; bc_EncryptSwap := bc_EncryptSwap c; bc_ZramPct := bc_ZramPct c;
  bc_Overlay := bc_Overlay c; bc_VirtioFS := bc_VirtioFS c; bc_VirtioFSMask := bc_VirtioFSMask c |}.
Definition set_mtu n (c : bootConfig) : bootConfig := {|
  bc_DNSServers := bc_DNSServers c; bc_Hostname := bc_Hostname c; bc_AddHosts := bc_AddHosts c; bc_Workspace := bc_Workspace c;
  bc_CPUs := bc_CPUs c; bc_MTU := n; bc_NoNetwork := bc_NoNetwork c; bc_Disks := bc_Disks c;
  bc_SwapDevice := bc_SwapDevice c; bc_EncryptSwap := bc_EncryptSwap c; bc_ZramPct := bc_ZramPct c;
  bc_Overlay := bc_Overlay c; bc_VirtioFS := bc_VirtioFS c; bc_VirtioFSMask := bc_VirtioFSMask c |}.
Definition set_no_network b (c : bootConfig) : bootConfig := {|
  bc_DNSServers := bc_DNSServers c; bc_Hostname := bc_Hostname c; bc_AddHosts := bc_AddHosts c; bc_Workspace := bc_Workspace c;
  bc_CPUs := bc_CPUs c; bc_MTU := bc_MTU c; bc_NoNetwork := b; bc_Disks := bc_Disks c;
  bc_SwapDevice := bc_SwapDevice c; bc_EncryptSwap := bc_EncryptSwap c; bc_ZramPct := bc_ZramPct c;
  bc_Overlay := bc_Overlay c; bc_VirtioFS := bc_VirtioFS c; bc_VirtioFSMask := bc_VirtioFSMask c |}.
Definition set_disks l (c : bootConfig) : bootConfig := {|
  bc_DNSServers := bc_DNSServers c; bc_Hostname := bc_Hostname c; bc_AddHosts := bc_AddHosts c; bc_Workspace := bc_Workspace c;
  bc_CPUs := bc_CPUs c; bc_MTU := bc_MTU c; bc_NoNetwork := bc_NoNetwork c; bc_Disks := l;
  bc_SwapDevice := bc_SwapDevice c; bc_EncryptSwap := bc_EncryptSwap c; bc_ZramPct := bc_ZramPct c;
  bc_Overlay := bc_Overlay c; bc_VirtioFS := bc_VirtioFS c; bc_VirtioFSMask := bc_VirtioFSMask c |}.
Definition set_swap d (c : bootConfig) : bootConfig := {|
  bc_DNSServers := bc_DNSServers c; bc_Hostname := bc_Hostname c; bc_AddHosts := bc_AddHosts c; bc_Workspace := bc_Workspace c;
  bc_CPUs := bc_CPUs c; bc_MTU := bc_MTU c; bc_NoNetwork := bc_NoNetwork c; bc_Disks := bc_Disks c;
  bc_SwapDevice := d; bc_EncryptSwap := bc_EncryptSwap c; bc_ZramPct := bc_ZramPct c;
  bc_Overlay := bc_Overlay c; bc_VirtioFS := bc_VirtioFS c; bc_VirtioFSMask := bc_VirtioFSMask c |}.
Definition set_encrypt b (c : bootConfig) : bootConfig := {|
  bc_DNSServers := bc_DNSServers c; bc_Hostname := bc_Hostname c; bc_AddHosts := bc_AddHosts c; bc_Workspace := bc_Workspace c;
  bc_CPUs := bc_CPUs c; bc_MTU := bc_MTU c; bc_NoNetwork := bc_NoNetwork c; bc_Disks := bc_Disks c;
  bc_SwapDevice := bc_SwapDevice c; bc_EncryptSwap := b; bc_ZramPct := bc_ZramPct c;
  bc_Overlay := bc_Overlay c; bc_VirtioFS := bc_VirtioFS c; bc_VirtioFSMask := bc_VirtioFSMask c |}.
Definition set_zram n (c : bootConfig) : bootConfig := {|
  bc_DNSServers := bc_DNSServers c; bc_Hostname := bc_Hostname c; bc_AddHosts := bc_AddHosts c; bc_Workspace := bc_Workspace c;
  bc_CPUs := bc_CPUs c; bc_MTU := bc_MTU c; bc_NoNetwork := bc_NoNetwork c; bc_Disks := bc_Disks c;
  bc_SwapDevice := bc_SwapDevice c; bc_EncryptSwap := bc_EncryptSwap c; bc_ZramPct := n;
  bc_Overlay := bc_Overlay c; bc_VirtioFS := bc_VirtioFS c; bc_VirtioFSMask := bc_VirtioFSMask c |}.
Definition set_overlay o (c : bootConfig) : bootConfig := {|
  bc_DNSServers := bc_DNSServers c; bc_Hostname := bc_Hostname c; bc_AddHosts := bc_AddHosts c; bc_Workspace := bc_Workspace c;
  bc_CPUs := bc_CPUs c; bc_MTU := bc_MTU c; bc_NoNetwork := bc_NoNetwork c; bc_Disks := bc_Disks c;
  bc_SwapDevice := bc_SwapDevice c; bc_EncryptSwap := bc_EncryptSwap c; bc_ZramPct := bc_ZramPct c;
  bc_Overlay := o; bc_VirtioFS := bc_VirtioFS c; bc_VirtioFSMask := bc_VirtioFSMask c |}.
Definition set_virtiofs l (c : bootConfig) : bootConfig := {|
  bc_DNSServers := bc_DNSServers c; bc_Hostname := bc_Hostname c; bc_AddHosts := bc_AddHosts c; bc_Workspace := bc_Workspace c;
  bc_CPUs := bc_CPUs c; bc_MTU := bc_MTU c; bc_NoNetwork := bc_NoNetwork c; bc_Disks := bc_Disks c;
  bc_SwapDevice := bc_SwapDevice c; bc_EncryptSwap := bc_EncryptSwap c; bc_ZramPct := bc_ZramPct c;
  bc_Overlay := bc_Overlay c; bc_VirtioFS := l; bc_VirtioFSMask := bc_VirtioFSMask c |}.
Definition set_mask l (c : bootConfig) : bootConfig := {|
  bc_DNSServers := bc_DNSServers c; bc_Hostname := bc_Hostname c; bc_AddHosts := bc_AddHosts c; bc_Workspace := bc_Workspace c;
  bc_CPUs := bc_CPUs c; bc_MTU := bc_MTU c; bc_NoNetwork := bc_NoNetwork c; bc_Disks := bc_Disks c;
  bc_SwapDevice := bc_SwapDevice c; bc_EncryptSwap := bc_EncryptSwap c; bc_ZramPct := bc_ZramPct c;
  bc_Overlay := bc_Overlay c; bc_VirtioFS := bc_VirtioFS c; bc_VirtioFSMask := l |}.

Section parse.
(** [strconv.ParseFloat] *)
Context (ParseFloat : string → option spec_float).

(** One case of the switch: the prefix, and what is done with what follows it. *)
Definition boot_cases : list (string * (string → bootConfig → result boot_error bootConfig)) := [
  ("matchlock.dns=", λ v c, Ok (set_dns (bc_DNSServers c ++ nonempty_parts id v) c));
  ("hostname=", λ v c, Ok (if decide (v = "") then c else set_hostname v c));
  ("matchlock.workspace=", λ v c, Ok (if decide (v = "") then c else set_workspace v c));
  ("matchlock.mtu=", λ v c,
     match Atoi v with
     | Some mtu => if (0 <? mtu) && (mtu <=? 65535) then Ok (set_mtu mtu c) else Err ErrInvalidMTU
     | None => Err ErrInvalidMTU
     end);
  ("matchlock.cpus=", λ v c,
     match ParseFloat v with
     | Some cpus => if IsValidCPUCount cpus then Ok (set_cpus cpus c) else Err ErrInvalidCPUs
     | None => Err ErrInvalidCPUs
     end);
  ("matchlock.no_network=", λ v c, Ok (set_no_network (boot_true v) c));
  ("matchlock.swap=", λ v c, Ok (if decide (v = "") then c else set_swap v c));
  ("matchlock.encrypt_swap=", λ v c, Ok (set_encrypt (boot_true v) c));
  ("matchlock.zram_pct=", λ v c,
     Ok match Atoi v with Some pct => if (0 <? pct) && (pct <=? 100) then set_zram pct c else c | None => c end);
  ("matchlock.disk.", λ spec c,
     match named_value spec with
     | None => Ok c
     | Some (device, value) =>
         m ← parseDiskMountSpec value;
         Ok (set_disks (bc_Disks c ++ [{| dm_Device := device; dm_Path := m.1; dm_ReadOnly := m.2 |}]) c)
     end);
  ("matchlock.virtiofs.", λ spec c,
     match named_value spec with
     | None => Ok c
     | Some (tag, value) =>
         m ← parseDiskMountSpec value;
         Ok (set_virtiofs (bc_VirtioFS c ++ [{| vm_Tag := tag; vm_Path := m.1; vm_ReadOnly := m.2 |}]) c)
     end);
  ("matchlock.virtiofs_mask=", λ v c, Ok (set_mask (bc_VirtioFSMask c ++ nonempty_parts id v) c));
  ("matchlock.overlay=", λ v c,
     let o := bc_Overlay c in
     Ok (set_overlay {| ov_Enabled := boot_true v; ov_LowerDevices := ov_LowerDevices o; ov_LowerFSTypes := ov_LowerFSTypes o;
                        ov_UpperDevice := ov_UpperDevice o |} c));
  ("matchlock.overlay.lower=", λ v c,
     let o := bc_Overlay c in
     Ok (set_overlay {| ov_Enabled := true; ov_LowerDevices := nonempty_parts id v; ov_LowerFSTypes := ov_LowerFSTypes o;
                        ov_UpperDevice := ov_UpperDevice o |} c));
  ("matchlock.overlay.lowerfs=", λ v c,
     let o := bc_Overlay c in
     Ok (set_overlay {| ov_Enabled := true; ov_LowerDevices := ov_LowerDevices o; ov_LowerFSTypes := nonempty_parts ToLower v;
                        ov_UpperDevice := ov_UpperDevice o |} c));
  ("matchlock.overlay.upper=", λ v c,
     let o := bc_Overlay c in
     Ok (set_overlay {| ov_Enabled := true; ov_LowerDevices := ov_LowerDevices o; ov_LowerFSTypes := ov_LowerFSTypes o;
                        ov_UpperDevice := v |} c));
  ("matchlock.add_host.", λ spec c,
     match named_value spec with
     | None => Err ErrInvalidAddHost
     | Some (_, value) => m ← parseAddHostField value; Ok (set_add_hosts (bc_AddHosts c ++ [m]) c)
     end) ].

(** The first case whose prefix a field has; other fields are for others. *)
Fixpoint boot_field_in (cases : list (string * (string → bootConfig → result boot_error bootConfig))) (field : string)
    (c : bootConfig) : result boot_error bootConfig :=
  match cases with
  | [] => Ok c
  | (prefix, f) :: cases' => match value_of prefix field with Some v => f v c | None => boot_field_in cases' field c end
  end.
Definition boot_field : string → bootConfig → result boot_error bootConfig := boot_field_in boot_cases.

Fixpoint boot_fields (fields : list string) (c : bootConfig) : result boot_error bootConfig :=
  match fields with [] => Ok c | f :: l => c ← boot_field f c; boot_fields l c end.

Definition check_boot (c : bootConfig) : result boot_error bootConfig :=
  if bool_decide (bc_DNSServers c = []) then Err ErrMissingDNS
  else
    let o := bc_Overlay c in
    if ov_Enabled o && (bool_decide (ov_LowerDevices o = []) || bool_decide (ov_UpperDevice o = "")) then Err ErrInvalidOverlayCfg
    else if ov_Enabled o && negb (bool_decide (ov_LowerFSTypes o = []))
              && negb (bool_decide (length (ov_LowerFSTypes o) = length (ov_LowerDevices o)))
    then Err ErrInvalidOverlayCfg
    else Ok c.

(** [data]: what the command line's file holds; [None] is an error. *)
Definition parseBootConfig (data : option string) : result boot_error bootConfig :=
  match data with
  | None => Err ErrReadCmdline
  | Some data => c ← boot_fields (Fields data) boot_defaults; check_boot c
  end.
End parse.
