(* ===== verification/BootSpec.v ===== *)
(** * What the guest makes of its command line

    The two ends of the kernel's command line agree: the guest's init reads the configuration
    that the back end wrote, and the devices it mounts are the drives that were meant. *)

From Stdlib Require Import Floats.SpecFloat.
From S2P Require Import Prelude GoStrings GoStd GoPath GoJson GoJsonSpec GoNet Api ApiConfig Boot BootConfig.

(** ** Arguments and fields *)

(** [s] adds the fields [l] to a command line. *)
Definition args_are (s : string) (l : list string) : Prop := ∀ pre, Fields (pre +:+ s) = Fields pre ++ l.

Definition word (s : string) : Prop := all_plain s = true ∧ s ≠ "".

Lemma args_nil : args_are "" [].
Proof. intros pre. by rewrite sapp_nil_r, app_nil_r. Qed.

Lemma args_one w : word w → args_are (String " " w) [w].
Proof. intros [Hp Hne] pre. rewrite Fields_space, (Fields_word w Hp Hne). reflexivity. Qed.

Lemma args_app s t l k : args_are s l → args_are t k → args_are (s +:+ t) (l ++ k).
Proof. intros Hs Ht pre. by rewrite <- sapp_assoc, Ht, Hs, app_assoc. Qed.

Lemma args_if {P} `{Decision P} s l : (¬ P → args_are s l) → args_are (if decide P then "" else s) (if decide P then [] else l).
Proof. intros Hs. destruct (decide P); [apply args_nil|by apply Hs]. Qed.

Lemma args_bool (b : bool) s l : (b = true → args_are s l) → args_are (if b then s else "") (if b then l else []).
Proof. intros Hs. destruct b; [by apply Hs|apply args_nil]. Qed.

Lemma word_app p s : all_plain p = true → p ≠ "" → all_plain s = true → word (p +:+ s).
Proof. intros Hp Hne Hs. split; [by rewrite all_plain_app, Hp, Hs|]. intros H%sapp_eq_nil. by destruct H. Qed.

(** A part of a list in a field. *)
Definition part (s : string) : Prop := all_plain s = true ∧ contains_byte "," s = false ∧ s ≠ "".

Lemma part_plain s : part s → all_plain s = true.
Proof. by intros []. Qed.

Lemma Join_plain l : Forall part l → all_plain (Join l ",") = true.
Proof.
  induction 1 as [|x l [Hx _] _ IH]; [done|]. destruct l as [|y l]; [done|].
  rewrite Join_cons, !all_plain_app, IH, Hx. done.
Qed.

Lemma nonempty_parts_Join f l :
  l ≠ [] → Forall part l → Forall (λ s, f s = s) l → nonempty_parts f (Join l ",") = l.
Proof.
  intros Hne Hl Hf. unfold nonempty_parts. change "," with (String ","%char "").
  rewrite Split_Join; [|done|eapply Forall_impl; [exact Hl|by intros s (_ & ? & _)]].
  clear Hne. induction Hl as [|x l (Hp & Hc & Hne) _ IH]; [done|]. inversion_clear Hf as [|? ? Hx Hf']. rewrite fmap_cons. cbn [compose].
  rewrite Hx, TrimSpace_plain by done. rewrite filter_cons_True by done. by rewrite IH.
Qed.

(** Devices. *)
Definition is_letter (n : Z) : Prop := 97 <= n <= 122.

Lemma device_letter n : is_letter n → device_name n = "vd" +:+ String (chr n) "".
Proof.
  intros Hn. unfold device_name, EncodeRune, is_letter in *. by rewrite (proj2 (Z.leb_le _ _)), (proj2 (Z.ltb_lt _ _)) by lia.
Qed.

Lemma device_part n : is_letter n → part (device_name n) ∧ contains_byte "=" (device_name n) = false.
Proof.
  intros Hn. rewrite device_letter by done. unfold is_letter in Hn. assert (Hc : code (chr n) = n) by (apply code_chr; lia).
  assert (Hne : ∀ c, code c ≠ n → contains_byte c (String (chr n) "") = false).
  { intros c Hcn. cbn [contains_byte]. rewrite bool_decide_eq_false_2; [done|]. intros <-. congruence. }
  assert (Hp : plain_byte (chr n) = true).
  { unfold plain_byte, ascii_space. rewrite Hc. rewrite (proj2 (Z.ltb_lt _ _)), (proj2 (Z.leb_gt _ 13)), (proj2 (Z.eqb_neq _ _)) by lia.
    by rewrite andb_false_r. }
  split; [split_and!|].
  - rewrite all_plain_app. change (all_plain "vd") with true. cbn [all_plain andb]. by rewrite Hp.
  - rewrite contains_byte_app, Hne; [done|]. change (code ",") with 44. lia.
  - done.
  - rewrite contains_byte_app, Hne; [done|]. change (code "=") with 61. lia.
Qed.

(** ** What a piece of a command line sets *)

Section boot.
Context (format_g : spec_float → string) (ParseFloat : string → option spec_float).

Abbreviation boot_field := (boot_field ParseFloat).
Abbreviation boot_fields := (boot_fields ParseFloat).
Abbreviation parseBootConfig := (parseBootConfig ParseFloat).

(** The field of case [i] of the switch. *)
Lemma boot_field_in_at cases i p f v c :
  cases !! i = Some (p, f) → Forall (λ q, HasPrefix (p +:+ v) q.1 = false) (take i cases) → boot_field_in cases (p +:+ v) c = f v c.
Proof.
  revert i. induction cases as [|[q g] cases IH]; intros i; [done|]. destruct i as [|i]; cbn [lookup list_lookup take boot_field_in].
  - intros [= -> ->] _. unfold value_of. by rewrite HasPrefix_app, TrimPrefix_app.
  - intros Hi Hall. inversion_clear Hall as [|? ? Hq Hall']. cbn [fst] in Hq. unfold value_of. rewrite Hq. by apply (IH i).
Qed.

Lemma boot_field_at i p f v c :
  boot_cases ParseFloat !! i = Some (p, f) → Forall (λ q, HasPrefix (p +:+ v) q.1 = false) (take i (boot_cases ParseFloat)) →
  boot_field (p +:+ v) c = f v c.
Proof. apply boot_field_in_at. Qed.

Definition writes (s : string) (f : bootConfig → bootConfig) : Prop :=
  ∃ l, args_are s l ∧ ∀ c, boot_fields l c = Ok (f c).

Lemma boot_fields_cons x l c : boot_fields (x :: l) c = (c' ← boot_field x c; boot_fields l c').
Proof. reflexivity. Qed.

Lemma boot_fields_app l k c : boot_fields (l ++ k) c = (c' ← boot_fields l c; boot_fields k c').
Proof.
  revert c. induction l as [|x l IH]; intros c; [reflexivity|]. rewrite <- app_comm_cons, !boot_fields_cons.
  destruct (boot_field x c) as [b|e]; [apply IH|reflexivity].
Qed.

Lemma writes_nil : writes "" id.
Proof. exists []. split; [apply args_nil|done]. Qed.

Lemma writes_one w f : word w → (∀ c, boot_field w c = Ok (f c)) → writes (String " " w) f.
Proof. intros Hw Hf. exists [w]. split; [by apply args_one|]. intros c. rewrite boot_fields_cons, Hf. reflexivity. Qed.

Lemma writes_app s t f g : writes s f → writes t g → writes (s +:+ t) (g ∘ f).
Proof.
  intros (l & Hs & Hf) (k & Ht & Hg). exists (l ++ k). split; [by apply args_app|]. intros c.
  rewrite boot_fields_app, Hf. apply Hg.
Qed.

Lemma writes_ext s f g : writes s f → (∀ c, f c = g c) → writes s g.
Proof. intros (l & Hs & Hf) Hg. exists l. split; [done|]. intros c. by rewrite Hf, Hg. Qed.

Lemma writes_if {P} `{Decision P} s f : (¬ P → writes s f) → writes (if decide P then "" else s) (if decide P then id else f).
Proof. intros Hs. destruct (decide P); [apply writes_nil|by apply Hs]. Qed.

Lemma writes_bool (b : bool) s t f g :
  (b = true → writes s f) → (b = false → writes t g) → writes (if b then s else t) (if b then f else g).
Proof. intros Hs Ht. destruct b; auto. Qed.

Lemma boot_of_args head s f :
  boot_fields (Fields head) boot_defaults = Ok boot_defaults → writes s f →
  parseBootConfig (Some (head +:+ s)) = check_boot (f boot_defaults).
Proof. intros Hh (l & Hs & Hf). unfold BootConfig.parseBootConfig. rewrite Hs, boot_fields_app, Hh. unfold mbind at 2, result_bind at 2. rewrite Hf. reflexivity. Qed.

Ltac at_case i p := rewrite (boot_field_at i p _ _ _ eq_refl) by (repeat (constructor; [reflexivity|]); constructor).

(** *** Mounts *)

Lemma guest_path_plain s : all_chars guest_path_char s = true → all_plain s = true ∧ contains_byte "," s = false.
Proof.
  assert (Hc : ∀ c, negb (guest_path_char c) || (plain_byte c && negb (bool_decide (c = ","%char))) = true)
    by (apply all_bytes; vm_compute; reflexivity).
  induction s as [|c s IH]; [done|]. cbn [all_chars all_plain contains_byte]. intros [H1 H2]%andb_true_iff.
  specialize (Hc c). rewrite H1 in Hc. apply andb_true_iff in Hc as [-> Hc%negb_true_iff]. rewrite Hc. by apply IH.
Qed.

Lemma valid_mount p : ValidateGuestMount p = None → part p ∧ HasPrefix p "/" = true.
Proof.
  unfold ValidateGuestMount. destruct p as [|c p]; [done|]. destruct (bool_decide_reflect (c = slash)) as [->|]; [|done].
  destruct (bool_decide_reflect (p = "")); [done|]. destruct (all_chars guest_path_char p) eqn:Hp; [|done]. intros _.
  destruct (guest_path_plain p Hp) as [H1 H2]. split; [|by destruct p]. unfold part. split_and!; [|cbn [contains_byte]; by rewrite H2|done].
  cbn [all_plain]. by rewrite H1.
Qed.

Definition mount_text (p : string) (ro : bool) : string := if ro then p +:+ ",ro" else p.

Lemma mount_text_word p ro : ValidateGuestMount p = None → word (mount_text p ro).
Proof.
  intros [(Hp & _ & Hne) _]%valid_mount. unfold mount_text, word. destruct ro; [|done]. split; [by rewrite all_plain_app, Hp|].
  intros H%sapp_eq_nil. by destruct H.
Qed.

Lemma parse_mount_text p ro : ValidateGuestMount p = None → parseDiskMountSpec (mount_text p ro) = Ok (p, ro).
Proof.
  intros [(Hp & Hc & Hne) Hs]%valid_mount. unfold parseDiskMountSpec. destruct ro; cbn [mount_text].
  - change (p +:+ ",ro") with (p +:+ String ","%char "ro"). rewrite Split_app_sep by done.
    change (Split "ro" ",") with ["ro"]. rewrite TrimSpace_plain, decide_False by done. rewrite Hs. reflexivity.
  - rewrite Split_single, TrimSpace_plain, decide_False by done. rewrite Hs. reflexivity.
Qed.

Lemma named_value_hit name value : contains_byte "=" name = false → name ≠ "" → value ≠ "" → named_value (name +:+ "=" +:+ value) = Some (name, value).
Proof.
  intros Hc Hn Hv. unfold named_value. change ("=" +:+ value) with (String "="%char value). rewrite Cut_app by done.
  by rewrite decide_False by (intros [?|?]; congruence).
Qed.

(** *** Disks *)

Definition guest_disks (letter : Z) (disks : list DiskConfig) : list diskMount :=
  imap (λ i d, {| dm_Device := device_name (letter + Z.of_nat i); dm_Path := dc_GuestMount d; dm_ReadOnly := dc_ReadOnly d |}) disks.

Lemma guest_disks_cons letter d disks :
  guest_disks letter (d :: disks)
  = {| dm_Device := device_name letter; dm_Path := dc_GuestMount d; dm_ReadOnly := dc_ReadOnly d |} :: guest_disks (letter + 1) disks.
Proof.
  unfold guest_disks. rewrite imap_cons. rewrite Z.add_0_r. f_equal. apply imap_ext. intros i x _. cbn. do 2 f_equal. lia.
Qed.

Lemma writes_disks letter disks :
  97 <= letter → letter + Z.of_nat (length disks) <= 123 → Forall (λ d, ValidateGuestMount (dc_GuestMount d) = None) disks →
  writes (disk_args letter disks).1 (λ c, set_disks (bc_Disks c ++ guest_disks letter disks) c)
  ∧ (disk_args letter disks).2 = letter + Z.of_nat (length disks).
Proof.
  revert letter. induction disks as [|d disks IH]; intros letter Hl Hlen Hv.
  - cbn. split; [|lia]. eapply writes_ext; [apply writes_nil|]. intros []. cbn. unfold set_disks. cbn. by rewrite app_nil_r.
  - inversion_clear Hv as [|? ? Hd Hv']. cbn [length] in Hlen. destruct (IH (letter + 1)) as [Hw Hn]; [lia|lia|done|].
    cbn [disk_args fst snd length]. split; [|rewrite Hn; lia].
    destruct (device_part letter) as [(Hdp & _ & Hdne) Hde]; [split; lia|].
    destruct (mount_text_word (dc_GuestMount d) (dc_ReadOnly d) Hd) as [Hmp Hmne].
    eapply writes_ext.
    + eapply writes_app; [|exact Hw]. apply (writes_one ("matchlock.disk." +:+ device_name letter +:+ "=" +:+ mount_text (dc_GuestMount d) (dc_ReadOnly d))
        (λ c, set_disks (bc_Disks c ++ [{| dm_Device := device_name letter; dm_Path := dc_GuestMount d; dm_ReadOnly := dc_ReadOnly d |}]) c)).
      * apply word_app; [done|done|]. by rewrite !all_plain_app, Hdp, Hmp.
      * intros c. at_case 9%nat "matchlock.disk.". rewrite named_value_hit by done. by rewrite parse_mount_text.
    + intros c. cbn [compose]. rewrite guest_disks_cons. destruct c. unfold set_disks. cbn. by rewrite <- app_assoc.
Qed.
(** *** Other lists *)

Lemma digits_plain s : all_digits s = true → all_plain s = true ∧ contains_byte "=" s = false.
Proof.
  assert (Hc : ∀ c, negb (is_digit c) || (plain_byte c && negb (bool_decide (c = "="%char))) = true)
    by (apply all_bytes; vm_compute; reflexivity).
  induction s as [|c s IH]; [done|]. cbn [all_digits all_plain contains_byte]. intros [H1 H2]%andb_true_iff.
  specialize (Hc c). rewrite H1 in Hc. apply andb_true_iff in Hc as [-> Hc%negb_true_iff]. rewrite Hc. by apply IH.
Qed.

Lemma number_plain n : 0 <= n → all_plain (FormatInt n) = true ∧ contains_byte "=" (FormatInt n) = false ∧ FormatInt n ≠ "".
Proof.
  intros Hn. unfold FormatInt. rewrite (proj2 (Z.ltb_ge _ _)) by lia. destruct (Itoa_spec n Hn) as (c & d & -> & Hd & _).
  destruct (digits_plain _ Hd). by split_and!.
Qed.

(** An accepted alias without a comma in its name. *)
Definition boot_alias (m : HostIPMapping) : Prop :=
  ValidateAddHost m = None ∧ part (him_Host m) ∧ all_plain (him_IP m) = true.

Definition guest_alias (m : HostIPMapping) : hostIPMapping := {| hm_Host := him_Host m; hm_IP := him_IP m |}.

Lemma parse_alias m : boot_alias m → parseAddHostField (him_Host m +:+ "," +:+ him_IP m) = Ok (guest_alias m).
Proof.
  intros (Hv & (Hp & Hc & Hne) & Hip). unfold parseAddHostField. change ("," +:+ him_IP m) with (String ","%char (him_IP m)).
  cbn [SplitN]. rewrite Cut_app by done. rewrite !TrimSpace_plain by done. unfold ValidateAddHost in Hv.
  destruct (decide (him_Host m = "")); [done|]. destruct (has_whitespace _); [done|]. destruct (contains_byte ":" _); [done|].
  destruct (decide (him_IP m = "")); [done|]. destruct (ParseIP _); done.
Qed.

Lemma writes_add_hosts i l :
  0 <= i → Forall boot_alias l → writes (add_host_args i l) (λ c, set_add_hosts (bc_AddHosts c ++ (guest_alias <$> l)) c).
Proof.
  revert i. induction l as [|m l IH]; intros i Hi Hl.
  - cbn. eapply writes_ext; [apply writes_nil|]. intros []. unfold set_add_hosts. cbn. by rewrite app_nil_r.
  - inversion_clear Hl as [|? ? Hm Hl']. cbn [add_host_args]. destruct (number_plain i Hi) as (Hip & Hie & Hine).
    eapply writes_ext.
    + eapply writes_app; [|apply (IH (i + 1)); [lia|done]].
      apply (writes_one ("matchlock.add_host." +:+ FormatInt i +:+ "=" +:+ (him_Host m +:+ "," +:+ him_IP m))
        (λ c, set_add_hosts (bc_AddHosts c ++ [guest_alias m]) c)).
      * destruct Hm as (_ & (Hp & _) & Hp2). apply word_app; [done|done|]. by rewrite !all_plain_app, Hip, Hp, Hp2.
      * intros c. at_case 16%nat "matchlock.add_host.". rewrite named_value_hit; [|done|done|by destruct (him_Host m)].
        by rewrite parse_alias.
    + intros c. cbn [compose]. destruct c. unfold set_add_hosts. cbn. by rewrite <- app_assoc.
Qed.

Definition boot_share (s : VirtioFSShare) : Prop :=
  word (vs_Tag s) ∧ contains_byte "=" (vs_Tag s) = false ∧ ValidateGuestMount (vs_GuestMount s) = None.

Definition guest_share (s : VirtioFSShare) : virtioFSMount :=
  {| vm_Tag := vs_Tag s; vm_Path := vs_GuestMount s; vm_ReadOnly := vs_ReadOnly s |}.

Lemma writes_shares l :
  Forall boot_share l → writes (share_args l) (λ c, set_virtiofs (bc_VirtioFS c ++ (guest_share <$> l)) c).
Proof.
  induction 1 as [|s l ([Htp Htne] & Hte & Hm) _ IH].
  - cbn. eapply writes_ext; [apply writes_nil|]. intros []. unfold set_virtiofs. cbn. by rewrite app_nil_r.
  - cbn [share_args]. destruct (mount_text_word (vs_GuestMount s) (vs_ReadOnly s) Hm) as [Hmp Hmne].
    eapply writes_ext.
    + eapply writes_app; [|exact IH].
      apply (writes_one ("matchlock.virtiofs." +:+ vs_Tag s +:+ "=" +:+ mount_text (vs_GuestMount s) (vs_ReadOnly s))
        (λ c, set_virtiofs (bc_VirtioFS c ++ [guest_share s]) c)).
      * apply word_app; [done|done|]. by rewrite !all_plain_app, Htp, Hmp.
      * intros c. at_case 10%nat "matchlock.virtiofs.". rewrite named_value_hit by done. by rewrite parse_mount_text.
    + intros c. cbn [compose]. destruct c. unfold set_virtiofs. cbn. by rewrite <- app_assoc.
Qed.

(** *** The overlay *)

Definition lower_type (fsTypes : list string) (i : nat) : string :=
  match fsTypes !! i with Some t => if decide (t = "") then "erofs" else t | None => "erofs" end.

Definition lower_devices (letter : Z) (paths : list string) : list string :=
  imap (λ i _, device_name (letter + Z.of_nat i)) paths.

Lemma lower_args_spec letter i paths fsTypes :
  lower_args letter i paths fsTypes
  = (lower_devices letter paths, imap (λ k _, lower_type fsTypes (i + k)) paths, letter + Z.of_nat (length paths)).
Proof.
  revert letter i. induction paths as [|p paths IH]; intros letter i; cbn [lower_args].
  - cbn. by rewrite Z.add_0_r.
  - rewrite IH. unfold lower_devices. rewrite !imap_cons. cbn [fst snd length]. rewrite Z.add_0_r, Nat.add_0_r.
    f_equal; [f_equal; f_equal|lia]; apply imap_ext; intros k x _; cbn; [f_equal; lia|f_equal; lia].
Qed.

Lemma lower_devices_parts letter paths :
  97 <= letter → letter + Z.of_nat (length paths) <= 123 → Forall part (lower_devices letter paths).
Proof.
  intros Hl Hn. apply Forall_forall. intros d (k & x & -> & Hk)%elem_of_lookup_imap_1. apply lookup_lt_Some in Hk.
  apply device_part. split; lia.
Qed.

Definition boot_fs_type (t : string) : Prop := t = "" ∨ part t ∧ ToLower t = t.

Lemma lower_type_ok fsTypes i : Forall boot_fs_type fsTypes → part (lower_type fsTypes i) ∧ ToLower (lower_type fsTypes i) = lower_type fsTypes i.
Proof.
  intros Ht. unfold lower_type. destruct (fsTypes !! i) as [t|] eqn:Hi; [|done].
  destruct (decide (t = "")) as [->|Hne]; [done|]. eapply Forall_lookup_1 in Ht; [|done]. by destruct Ht as [?|?].
Qed.

Definition guest_overlay (c : VMConfig) : overlayBootConfig :=
  if vc_OverlayEnabled c then
    {| ov_Enabled := true; ov_LowerDevices := lower_devices firstLetter (vc_OverlayLowerPaths c);
       ov_LowerFSTypes := imap (λ k _, lower_type (vc_OverlayLowerFSTypes c) k) (vc_OverlayLowerPaths c);
       ov_UpperDevice := device_name (firstLetter + Z.of_nat (length (vc_OverlayLowerPaths c))) |}
  else bc_Overlay boot_defaults.

Definition disk_letter (c : VMConfig) : Z :=
  if vc_OverlayEnabled c then firstLetter + Z.of_nat (length (vc_OverlayLowerPaths c)) + 1 else firstLetter.
(** *** The configuration that is meant *)

(** What [guest-init] should make of a configuration; Firecracker has no shares. *)
Definition guest_config (shares : bool) (c : VMConfig) : bootConfig := {|
  bc_DNSServers := vc_DNSServers c; bc_Hostname := boot_hostname c; bc_AddHosts := guest_alias <$> vc_AddHosts c;
  bc_Workspace := vc_Workspace c; bc_CPUs := vc_CPUs c;
  bc_MTU := if vc_NoNetwork c then defaultNetworkMTU else effectiveMTU (vc_MTU c);
  bc_NoNetwork := vc_NoNetwork c; bc_Disks := guest_disks (disk_letter c) (vc_ExtraDisks c);
  bc_SwapDevice := if decide (vc_SwapPath c = "") then "" else device_name (disk_letter c + Z.of_nat (length (vc_ExtraDisks c)));
  bc_EncryptSwap := if decide (vc_SwapPath c = "") then false else vc_EncryptSwap c;
  bc_ZramPct := if (0 <? vc_ZramPct c) && (vc_ZramPct c <=? 100) then vc_ZramPct c else 0;
  bc_Overlay := guest_overlay c; bc_VirtioFS := if shares then guest_share <$> vc_VirtioFSShares c else [];
  bc_VirtioFSMask := if shares then vc_VirtioFSMaskPaths c else [] |}.

(** Configurations whose values survive a command line. *)
Record bootable (c : VMConfig) : Prop := {
  bt_args : vc_KernelArgs c = "";
  bt_hostname : word (boot_hostname c);
  bt_workspace : all_plain (vc_Workspace c) = true;
  bt_dns : vc_DNSServers c ≠ [] ∧ Forall part (vc_DNSServers c);
  bt_ip : all_plain (vc_GuestIP c) = true ∧ all_plain (vc_GatewayIP c) = true;
  bt_cpus : IsValidCPUCount (vc_CPUs c) = true ∧ ParseFloat (format_g (vc_CPUs c)) = Some (vc_CPUs c) ∧ all_plain (format_g (vc_CPUs c)) = true;
  bt_mtu : effectiveMTU (vc_MTU c) <= 65535;
  bt_zram : is_int64 (vc_ZramPct c);
  bt_drives : (length (fc_drives c) <= 26)%nat;
  bt_overlay : vc_OverlayEnabled c = true → vc_OverlayLowerPaths c ≠ [];
  bt_fs_types : Forall boot_fs_type (vc_OverlayLowerFSTypes c);
  bt_disks : Forall (λ d, ValidateGuestMount (dc_GuestMount d) = None) (vc_ExtraDisks c);
  bt_aliases : Forall boot_alias (vc_AddHosts c);
  bt_shares : Forall boot_share (vc_VirtioFSShares c);
  bt_masks : Forall part (vc_VirtioFSMaskPaths c) }.

Lemma numbered_length prefix l : length (numbered_drives prefix l) = length l.
Proof. unfold numbered_drives. apply length_imap. Qed.

(** The letters of the drives. *)
Lemma bootable_letters c :
  bootable c →
  98 <= disk_letter c ∧ disk_letter c + Z.of_nat (length (vc_ExtraDisks c)) + (if decide (vc_SwapPath c = "") then 0 else 1) <= 123
  ∧ (vc_OverlayEnabled c = true → disk_letter c = firstLetter + Z.of_nat (length (vc_OverlayLowerPaths c)) + 1).
Proof.
  intros Hb. pose proof (bt_drives c Hb) as Hn. unfold fc_drives, disk_letter, firstLetter in *.
  rewrite !length_app, numbered_length, length_fmap in Hn. cbn [length] in Hn.
  destruct (vc_OverlayEnabled c); [rewrite length_app, numbered_length, length_fmap in Hn; cbn [length] in Hn|cbn [length] in Hn];
    destruct (decide (vc_SwapPath c = "")); cbn [length] in Hn; split_and!; try done; try lia.
Qed.

Lemma writes_overlay c :
  bootable c → writes (overlay_args firstLetter c).1 (if vc_OverlayEnabled c then set_overlay (guest_overlay c) else id)
  ∧ (overlay_args firstLetter c).2 = disk_letter c.
Proof.
  intros Hb. destruct (bootable_letters c Hb) as (Hl1 & Hl2 & Hl3). unfold overlay_args, disk_letter.
  destruct (vc_OverlayEnabled c) eqn:He; [|by split; [apply writes_nil|]]. specialize (Hl3 eq_refl).
  rewrite lower_args_spec. cbn [fst snd]. split; [|done]. unfold disk_letter in *. rewrite He in *. unfold firstLetter in *.
  assert (Hext : Z.of_nat (length (vc_ExtraDisks c)) + (if decide (vc_SwapPath c = "") then 0 else 1) >= 0) by (destruct (decide _); lia).
  set (n := length (vc_OverlayLowerPaths c)) in *.
  assert (Hdev : Forall part (lower_devices 98 (vc_OverlayLowerPaths c))) by (apply lower_devices_parts; unfold n in *; lia).
  assert (Hfs : Forall part (imap (λ k _, lower_type (vc_OverlayLowerFSTypes c) (0 + k)) (vc_OverlayLowerPaths c))
    ∧ Forall (λ s, ToLower s = s) (imap (λ k _, lower_type (vc_OverlayLowerFSTypes c) (0 + k)) (vc_OverlayLowerPaths c))).
  { split; apply Forall_forall; intros t (k & x & -> & _)%elem_of_lookup_imap_1; apply lower_type_ok, (bt_fs_types c Hb). }
  destruct Hfs as [Hfp Hfl]. pose proof (bt_overlay c Hb He) as Hne.
  assert (Hup : all_plain (device_name (98 + Z.of_nat n)) = true) by (apply part_plain, device_part; split; lia).
  eapply writes_ext.
  - eapply writes_app; [|eapply writes_app; [|eapply writes_app]].
    + apply (writes_one "matchlock.overlay=1"); [done|]. intros b. apply (boot_field_at 12 "matchlock.overlay=" _ "1" b eq_refl).
      repeat (constructor; [reflexivity|]); constructor.
    + apply (writes_one ("matchlock.overlay.lower=" +:+ Join (lower_devices 98 (vc_OverlayLowerPaths c)) ",")).
      * apply word_app; [done|done|by apply Join_plain].
      * intros b. at_case 13%nat "matchlock.overlay.lower=". cbv beta zeta. rewrite nonempty_parts_Join; [reflexivity| |done|by apply Forall_true].
        intros Hnil. by destruct (vc_OverlayLowerPaths c).
    + apply (writes_one ("matchlock.overlay.lowerfs=" +:+
        Join (imap (λ k _, lower_type (vc_OverlayLowerFSTypes c) (0 + k)) (vc_OverlayLowerPaths c)) ",")).
      * apply word_app; [done|done|by apply Join_plain].
      * intros b. at_case 14%nat "matchlock.overlay.lowerfs=". cbv beta zeta. rewrite nonempty_parts_Join; [reflexivity| |done|done].
        intros Hnil. by destruct (vc_OverlayLowerPaths c).
    + apply (writes_one ("matchlock.overlay.upper=" +:+ device_name (98 + Z.of_nat n))); [by apply word_app|].
      intros b. at_case 15%nat "matchlock.overlay.upper=". reflexivity.
  - intros b. unfold compose, guest_overlay. rewrite He. by destruct b.
Qed.

Lemma writes_swap letter c :
  vc_SwapPath c ≠ "" → is_letter letter ∨ vc_SwapPath c = "" →
  writes (swap_args letter c) (λ b, (if vc_EncryptSwap c then set_encrypt true else id) (set_swap (device_name letter) b)).
Proof.
  intros Hs [Hl|?]; [|done]. unfold swap_args. rewrite decide_False by done. destruct (device_part letter Hl) as [(Hp & _ & Hne) _].
  eapply writes_ext.
  - eapply writes_app.
    + apply (writes_one ("matchlock.swap=" +:+ device_name letter) (set_swap (device_name letter))); [by apply word_app|].
      intros b. at_case 6%nat "matchlock.swap=". by rewrite decide_False.
    + apply writes_bool; [intros _|intros _; apply writes_nil].
      apply (writes_one "matchlock.encrypt_swap=1" (set_encrypt true)); [done|]. intros b.
      apply (boot_field_at 7 "matchlock.encrypt_swap=" _ "1" b eq_refl). repeat (constructor; [reflexivity|]); constructor.
  - intros b. reflexivity.
Qed.

Definition zram_set (c : VMConfig) (b : bootConfig) : bootConfig :=
  if (0 <? vc_ZramPct c) && (vc_ZramPct c <=? 100) then set_zram (vc_ZramPct c) b else b.

Lemma writes_zram c : bootable c → writes (zram_args c) (zram_set c).
Proof.
  intros Hb. unfold zram_args, zram_set. destruct (0 <? vc_ZramPct c) eqn:Hz; [|apply writes_nil]. apply Z.ltb_lt in Hz.
  destruct (number_plain (vc_ZramPct c)) as (Hp & _ & Hne); [lia|].
  apply (writes_one ("matchlock.zram_pct=" +:+ FormatInt (vc_ZramPct c))); [by apply word_app|].
  intros b. at_case 8%nat "matchlock.zram_pct=". rewrite Atoi_FormatInt by apply (bt_zram c Hb).
  by rewrite (proj2 (Z.ltb_lt _ _)) by lia.
Qed.
(** *** Single values *)

Lemma writes_ignored w : word w → Forall (λ q, HasPrefix w q.1 = false) (boot_cases ParseFloat) → writes (String " " w) id.
Proof.
  intros Hw Hall. apply writes_one; [done|]. intros b. unfold BootConfig.boot_field.
  induction Hall as [|[q f] cases Hq _ IH]; [done|]. cbn [boot_field_in]. unfold value_of. cbn [fst] in Hq. by rewrite Hq.
Qed.

Lemma writes_hostname c : bootable c → writes (" hostname=" +:+ boot_hostname c) (set_hostname (boot_hostname c)).
Proof.
  intros Hb. destruct (bt_hostname c Hb) as [Hp Hne]. apply (writes_one ("hostname=" +:+ boot_hostname c)); [by apply word_app|].
  intros b. at_case 1%nat "hostname=". by rewrite decide_False.
Qed.

Lemma writes_workspace c :
  bootable c → writes (workspace_arg c) (if decide (vc_Workspace c = "") then id else set_workspace (vc_Workspace c)).
Proof.
  intros Hb. unfold workspace_arg. apply writes_if. intros Hne.
  apply (writes_one ("matchlock.workspace=" +:+ vc_Workspace c)); [apply word_app; [done|done|apply (bt_workspace c Hb)]|].
  intros b. at_case 2%nat "matchlock.workspace=". by rewrite decide_False.
Qed.

Lemma writes_dns c :
  bootable c → writes (" matchlock.dns=" +:+ KernelDNSParam (vc_DNSServers c)) (λ b, set_dns (bc_DNSServers b ++ vc_DNSServers c) b).
Proof.
  intros Hb. destruct (bt_dns c Hb) as [Hne Hp]. apply (writes_one ("matchlock.dns=" +:+ KernelDNSParam (vc_DNSServers c))).
  - apply word_app; [done|done|by apply Join_plain].
  - intros b. at_case 0%nat "matchlock.dns=". unfold KernelDNSParam. rewrite nonempty_parts_Join; [done|done|done|by apply Forall_true].
Qed.

Lemma writes_mtu c :
  bootable c → writes (" matchlock.mtu=" +:+ FormatInt (effectiveMTU (vc_MTU c))) (set_mtu (effectiveMTU (vc_MTU c))).
Proof.
  intros Hb. pose proof (bt_mtu c Hb) as Hm. assert (Hpos : 0 < effectiveMTU (vc_MTU c)).
  { unfold effectiveMTU. destruct (0 <? vc_MTU c) eqn:H; [by apply Z.ltb_lt|done]. }
  destruct (number_plain (effectiveMTU (vc_MTU c))) as (Hp & _ & Hne); [lia|].
  apply (writes_one ("matchlock.mtu=" +:+ FormatInt (effectiveMTU (vc_MTU c)))); [by apply word_app|].
  intros b. at_case 3%nat "matchlock.mtu=". rewrite Atoi_FormatInt by (unfold is_int64; lia).
  by rewrite (proj2 (Z.ltb_lt _ _)), (proj2 (Z.leb_le _ _)) by lia.
Qed.

Lemma writes_cpus c : bootable c → writes (" matchlock.cpus=" +:+ format_g (vc_CPUs c)) (set_cpus (vc_CPUs c)).
Proof.
  intros Hb. destruct (bt_cpus c Hb) as (Hv & Hpf & Hp).
  apply (writes_one ("matchlock.cpus=" +:+ format_g (vc_CPUs c))); [by apply word_app|].
  intros b. at_case 4%nat "matchlock.cpus=". by rewrite Hpf, Hv.
Qed.

Lemma writes_no_network : writes " matchlock.no_network=1" (set_no_network true).
Proof.
  apply (writes_one "matchlock.no_network=1"); [done|]. intros b. apply (boot_field_at 5 "matchlock.no_network=" _ "1" b eq_refl).
  repeat (constructor; [reflexivity|]); constructor.
Qed.

Ltac ignored := repeat (constructor; [reflexivity|]); constructor.

Lemma writes_privileged c : writes (privileged_arg c) id.
Proof.
  unfold privileged_arg. destruct (vc_Privileged c); [|apply writes_nil]. apply (writes_ignored "matchlock.privileged=1"); [done|ignored].
Qed.

Lemma KernelIPDNSSuffix_plain n l : Forall part l → all_plain (KernelIPDNSSuffix_loop n l) = true.
Proof.
  intros Hl. revert n. induction Hl as [|s l Hs _ IH]; intros [|n]; [done..|]. cbn [KernelIPDNSSuffix_loop].
  by rewrite !all_plain_app, (part_plain s Hs), IH.
Qed.

Lemma writes_ip c : bootable c → writes (ip_arg c) id.
Proof.
  intros Hb. destruct (bt_ip c Hb) as [H1 H2]. unfold ip_arg.
  assert (Hor : ∀ ip d, all_plain ip = true → all_plain d = true → all_plain (ip_or ip d) = true).
  { intros ip d Hip Hd. unfold ip_or. by destruct (decide (ip = "")). }
  apply (writes_ignored ("ip=" +:+ ip_or (vc_GuestIP c) "192.168.100.2" +:+ "::" +:+ ip_or (vc_GatewayIP c) "192.168.100.1"
    +:+ ":255.255.255.0::eth0:off" +:+ KernelIPDNSSuffix (vc_DNSServers c))); [|ignored].
  apply word_app; [done|done|]. rewrite !all_plain_app, !Hor by done. unfold KernelIPDNSSuffix.
  by rewrite KernelIPDNSSuffix_plain by apply (bt_dns c Hb).
Qed.

Lemma writes_masks c :
  bootable c → writes (mask_args (vc_VirtioFSMaskPaths c)) (λ b, set_mask (bc_VirtioFSMask b ++ vc_VirtioFSMaskPaths c) b).
Proof.
  intros Hb. pose proof (bt_masks c Hb) as Hm. unfold mask_args. destruct (vc_VirtioFSMaskPaths c) as [|p l] eqn:Hl.
  - eapply writes_ext; [apply writes_nil|]. intros []. unfold set_mask. cbn. by rewrite app_nil_r.
  - apply (writes_one ("matchlock.virtiofs_mask=" +:+ Join (p :: l) ",")); [apply word_app; [done|done|by apply Join_plain]|].
    intros b. at_case 11%nat "matchlock.virtiofs_mask=". rewrite nonempty_parts_Join; [done|done|done|by apply Forall_true].
Qed.

Definition swap_set (c : VMConfig) (b : bootConfig) : bootConfig :=
  if decide (vc_SwapPath c = "") then b
  else (if vc_EncryptSwap c then set_encrypt true else id) (set_swap (device_name (disk_letter c + Z.of_nat (length (vc_ExtraDisks c)))) b).

(** Overlay, disks and swap. *)
Lemma writes_drives c :
  bootable c →
  let overlay := overlay_args firstLetter c in
  let disks := disk_args overlay.2 (vc_ExtraDisks c) in
  writes overlay.1 (if vc_OverlayEnabled c then set_overlay (guest_overlay c) else id)
  ∧ writes disks.1 (λ b, set_disks (bc_Disks b ++ guest_disks (disk_letter c) (vc_ExtraDisks c)) b)
  ∧ writes (swap_args disks.2 c) (swap_set c).
Proof.
  intros Hb overlay disks. destruct (bootable_letters c Hb) as (Hl1 & Hl2 & _). destruct (writes_overlay c Hb) as [Ho Hn].
  assert (Hdl : disk_letter c + Z.of_nat (length (vc_ExtraDisks c)) <= 123) by (destruct (decide (vc_SwapPath c = "")); lia).
  destruct (writes_disks (disk_letter c) (vc_ExtraDisks c)) as [Hd Hdn]; [lia|done|apply (bt_disks c Hb)|].
  split; [exact Ho|]. unfold disks, overlay. rewrite Hn, Hdn. split; [exact Hd|]. unfold swap_set.
  destruct (decide (vc_SwapPath c = "")) as [He|Hne].
  - unfold swap_args. rewrite decide_True by done. apply writes_nil.
  - apply writes_swap; [done|]. left. split; lia.
Qed.

Lemma check_guest_config shares c : bootable c → check_boot (guest_config shares c) = Ok (guest_config shares c).
Proof.
  intros Hb. destruct (bt_dns c Hb) as [Hne _]. unfold check_boot. cbn [bc_DNSServers bc_Overlay guest_config].
  rewrite bool_decide_eq_false_2 by done. unfold guest_overlay. destruct (vc_OverlayEnabled c) eqn:He; [|done].
  pose proof (bt_overlay c Hb He) as Hl.
  cbn [ov_Enabled ov_LowerDevices ov_UpperDevice ov_LowerFSTypes andb].
  assert (Hup : device_name (firstLetter + Z.of_nat (length (vc_OverlayLowerPaths c))) ≠ "").
  { unfold device_name. intros H%sapp_eq_nil. by destruct H. }
  rewrite (bool_decide_eq_false_2 (device_name _ = "")), bool_decide_eq_false_2; [|by destruct (vc_OverlayLowerPaths c)|done].
  rewrite (bool_decide_eq_true_2 (length _ = length _)) by (unfold lower_devices; by rewrite !length_imap).
  by rewrite andb_false_r.
Qed.
(** ** The theorems *)

(** Each value of the configuration, case by case. *)
Ltac all_values c :=
  f_equal; unfold guest_config, swap_set, zram_set, guest_overlay, compose;
  repeat match goal with H : vc_NoNetwork c = _ |- _ => rewrite H; clear H end;
  destruct (decide (vc_Workspace c = "")) as [->|], (vc_OverlayEnabled c), (decide (vc_SwapPath c = "")),
    (vc_EncryptSwap c), ((0 <? vc_ZramPct c) && (vc_ZramPct c <=? 100)); reflexivity.

Lemma linux_config c : bootable c → parseBootConfig (Some (linux_kernel_args format_g c)) = Ok (guest_config false c).
Proof.
  intros Hb.
  assert (Hhead : boot_fields (Fields "console=ttyS0 reboot=k panic=1 acpi=off init=/init") boot_defaults = Ok boot_defaults) by reflexivity.
  unfold linux_kernel_args. rewrite decide_False by (intros H; by apply H, bt_args).
  destruct (writes_drives c Hb) as (Ho & Hd & Hs).
  assert (Hnet : writes (if vc_NoNetwork c then " ip=off" +:+ " matchlock.no_network=1"
      else ip_arg c +:+ (" matchlock.mtu=" +:+ FormatInt (effectiveMTU (vc_MTU c))))
      (if vc_NoNetwork c then set_no_network true ∘ id else set_mtu (effectiveMTU (vc_MTU c)) ∘ id)).
  { apply writes_bool; intros _; apply writes_app; [by apply (writes_ignored "ip=off"); [|ignored]|apply writes_no_network
      |by apply writes_ip|by apply writes_mtu]. }
  rewrite (boot_of_args _ _ _ Hhead (writes_app _ _ _ _ (writes_hostname c Hb) (writes_app _ _ _ _ (writes_workspace c Hb)
    (writes_app _ _ _ _ (writes_dns c Hb) (writes_app _ _ _ _ Hnet (writes_app _ _ _ _ (writes_privileged c)
    (writes_app _ _ _ _ (writes_cpus c Hb) (writes_app _ _ _ _ Ho (writes_app _ _ _ _ Hd (writes_app _ _ _ _ Hs
    (writes_app _ _ _ _ (writes_zram c Hb) (writes_add_hosts 0 (vc_AddHosts c) ltac:(lia) (bt_aliases c Hb))))))))))))).
  rewrite <- (check_guest_config false c Hb). destruct (vc_NoNetwork c) eqn:Hn; all_values c.
Qed.
Lemma darwin_config c : bootable c → parseBootConfig (Some (darwin_kernel_args format_g c)) = Ok (guest_config true c).
Proof.
  intros Hb.
  assert (Hhead : boot_fields (Fields "console=hvc0 root=/dev/vda rw init=/init reboot=k panic=1") boot_defaults = Ok boot_defaults) by reflexivity.
  unfold darwin_kernel_args. rewrite decide_False by (intros H; by apply H, bt_args).
  destruct (writes_drives c Hb) as (Ho & Hd & Hs).
  pose proof (writes_app _ _ _ _ (writes_hostname c Hb) (writes_app _ _ _ _ (writes_workspace c Hb) (writes_dns c Hb))) as Hnames.
  pose proof (writes_app _ _ _ _ (writes_privileged c) (writes_app _ _ _ _
    (writes_app _ _ _ _ Ho (writes_app _ _ _ _ Hd (writes_app _ _ _ _ Hs (writes_app _ _ _ _ (writes_shares _ (bt_shares c Hb))
      (writes_app _ _ _ _ (writes_masks c Hb) (writes_zram c Hb))))))
    (writes_app _ _ _ _ (writes_add_hosts 0 (vc_AddHosts c) ltac:(lia) (bt_aliases c Hb)) (writes_cpus c Hb)))) as Hrest.
  pose proof (writes_ignored "ip=off" ltac:(done) ltac:(ignored)) as Hoff.
  pose proof (writes_ignored "ip=dhcp" ltac:(done) ltac:(ignored)) as Hdhcp.
  cbv zeta. rewrite <- (check_guest_config true c Hb). destruct (vc_NoNetwork c) eqn:Hnet; [|destruct (vc_UseInterception c)].
  - rewrite (boot_of_args _ _ _ Hhead (writes_app _ _ _ _ Hoff (writes_app _ _ _ _ Hnames (writes_app _ _ _ _ writes_no_network Hrest)))).
    all_values c.
  - rewrite (boot_of_args _ _ _ Hhead (writes_app _ _ _ _ (writes_ip c Hb) (writes_app _ _ _ _ Hnames (writes_app _ _ _ _ (writes_mtu c Hb) Hrest)))).
    all_values c.
  - rewrite (boot_of_args _ _ _ Hhead (writes_app _ _ _ _ Hdhcp (writes_app _ _ _ _ Hnames (writes_app _ _ _ _ (writes_mtu c Hb) Hrest)))).
    all_values c.
Qed.

(** C20: The guest reads what the host wrote. From the command line of either back end the guest's
    init has the names, the servers, the aliases, the processors, the devices and mount points,
    the swap, the shares and the masks of the configuration, unless a value has white space or
    commas, the MTU is above 65535, or there are more than 26 drives. *)
Theorem boot_config_exact c :
  bootable c →
  parseBootConfig (Some (linux_kernel_args format_g c)) = Ok (guest_config false c)
  ∧ parseBootConfig (Some (darwin_kernel_args format_g c)) = Ok (guest_config true c).
Proof. split; [by apply linux_config|by apply darwin_config]. Qed.

(** *** Devices are drives *)

(** The drive behind a device of the guest: the kernel names the drives vda, vdb, ... in order. *)
Definition drive_of (c : VMConfig) (device : string) (d : fcDrive) : Prop :=
  ∃ k, (k < 26)%nat ∧ device = device_name (97 + Z.of_nat k) ∧ fc_drives c !! k = Some d.

Lemma numbered_lookup prefix l k p ro :
  l !! k = Some (p, ro) → ∃ d, numbered_drives prefix l !! k = Some d ∧ fd_PathOnHost d = p ∧ fd_IsReadOnly d = ro.
Proof. intros Hk. unfold numbered_drives. rewrite list_lookup_imap, Hk. cbn. eexists. by split. Qed.

Lemma drive_intro c k d : bootable c → fc_drives c !! k = Some d → drive_of c (device_name (97 + Z.of_nat k)) d.
Proof.
  intros Hb Hk. exists k. split_and!; [|done|done]. pose proof (lookup_lt_Some _ _ _ Hk). pose proof (bt_drives c Hb). lia.
Qed.

(** The number of drives before the disks. *)
Definition before_disks (c : VMConfig) : nat := if vc_OverlayEnabled c then length (vc_OverlayLowerPaths c) + 2 else 1.

Lemma disk_letter_before c : disk_letter c = 97 + Z.of_nat (before_disks c).
Proof. unfold disk_letter, before_disks, firstLetter. destruct (vc_OverlayEnabled c); lia. Qed.

Definition swap_drive (c : VMConfig) : list fcDrive :=
  if decide (vc_SwapPath c = "") then []
  else [{| fd_DriveID := "swap"; fd_PathOnHost := vc_SwapPath c; fd_IsRootDevice := false; fd_IsReadOnly := false |}].

Definition overlay_drives (c : VMConfig) : list fcDrive :=
  if vc_OverlayEnabled c then
    numbered_drives "overlay-lower-" ((λ p, (p, true)) <$> vc_OverlayLowerPaths c)
    ++ [{| fd_DriveID := "overlay-upper"; fd_PathOnHost := vc_OverlayUpperPath c; fd_IsRootDevice := false; fd_IsReadOnly := false |}]
  else [].

Lemma overlay_drives_length c : S (length (overlay_drives c)) = before_disks c.
Proof.
  unfold overlay_drives, before_disks. destruct (vc_OverlayEnabled c); [|done].
  rewrite length_app, numbered_length, length_fmap. cbn [length]. lia.
Qed.

Lemma drives_overlay c i d : overlay_drives c !! i = Some d → fc_drives c !! S i = Some d.
Proof. intros Hi. unfold fc_drives. fold (overlay_drives c). cbn [app lookup list_lookup]. by apply lookup_app_l_Some. Qed.

Lemma drives_after c i d :
  (numbered_drives "disk" ((λ d, (dc_HostPath d, dc_ReadOnly d)) <$> vc_ExtraDisks c) ++ swap_drive c) !! i = Some d →
  fc_drives c !! (before_disks c + i)%nat = Some d.
Proof.
  intros Hi. rewrite <- overlay_drives_length. unfold fc_drives. fold (overlay_drives c) (swap_drive c). rewrite app_assoc.
  rewrite lookup_app_r; cbn [app length]; [|lia]. rewrite <- Hi. f_equal. lia.
Qed.

Lemma numbered_attached prefix l : (λ d, (fd_PathOnHost d, fd_IsReadOnly d)) <$> numbered_drives prefix l = l.
Proof.
  unfold numbered_drives. rewrite fmap_imap. apply list_eq. intros i. rewrite list_lookup_imap. by destruct (l !! i) as [[]|].
Qed.

Lemma storage_drives c : storage_devices c = (λ d, (fd_PathOnHost d, fd_IsReadOnly d)) <$> fc_drives c.
Proof.
  unfold storage_devices, fc_drives. rewrite !fmap_app, numbered_attached.
  destruct (vc_OverlayEnabled c); [rewrite fmap_app, numbered_attached|]; by destruct (decide _).
Qed.

Lemma disk_drive c i disk :
  bootable c → vc_ExtraDisks c !! i = Some disk →
  ∃ d, drive_of c (device_name (disk_letter c + Z.of_nat i)) d ∧ fd_PathOnHost d = dc_HostPath disk ∧ fd_IsReadOnly d = dc_ReadOnly disk.
Proof.
  intros Hb Hi. destruct (numbered_lookup "disk" ((λ d, (dc_HostPath d, dc_ReadOnly d)) <$> vc_ExtraDisks c) i (dc_HostPath disk) (dc_ReadOnly disk))
    as (d & Hd & Hp & Hr); [by rewrite list_lookup_fmap, Hi|].
  exists d. split_and!; [|done|done]. rewrite disk_letter_before, <- Z.add_assoc, <- Nat2Z.inj_add.
  apply drive_intro; [done|]. apply drives_after. by apply lookup_app_l_Some.
Qed.

Lemma swap_drive_of c :
  bootable c → vc_SwapPath c ≠ "" →
  ∃ d, drive_of c (device_name (disk_letter c + Z.of_nat (length (vc_ExtraDisks c)))) d ∧ fd_PathOnHost d = vc_SwapPath c ∧ fd_IsReadOnly d = false.
Proof.
  intros Hb Hs. eexists. split; [|split; [|]].
  - rewrite disk_letter_before, <- Z.add_assoc, <- Nat2Z.inj_add. apply drive_intro; [done|]. apply drives_after.
    rewrite lookup_app_r by (by rewrite numbered_length, length_fmap). unfold swap_drive.
    rewrite decide_False, numbered_length, length_fmap, Nat.sub_diag by done. reflexivity.
  - reflexivity.
  - reflexivity.
Qed.

Lemma lower_drive c i p :
  bootable c → vc_OverlayEnabled c = true → vc_OverlayLowerPaths c !! i = Some p →
  ∃ d, drive_of c (device_name (firstLetter + Z.of_nat i)) d ∧ fd_PathOnHost d = p ∧ fd_IsReadOnly d = true.
Proof.
  intros Hb He Hi. destruct (numbered_lookup "overlay-lower-" ((λ p, (p, true)) <$> vc_OverlayLowerPaths c) i p true)
    as (d & Hd & Hp & Hr); [by rewrite list_lookup_fmap, Hi|].
  exists d. split_and!; [|done|done]. replace (firstLetter + Z.of_nat i) with (97 + Z.of_nat (S i)) by (unfold firstLetter; lia).
  apply drive_intro; [done|]. apply drives_overlay. unfold overlay_drives. rewrite He. by apply lookup_app_l_Some.
Qed.

Lemma upper_drive c :
  bootable c → vc_OverlayEnabled c = true →
  ∃ d, drive_of c (device_name (firstLetter + Z.of_nat (length (vc_OverlayLowerPaths c)))) d
    ∧ fd_PathOnHost d = vc_OverlayUpperPath c ∧ fd_IsReadOnly d = false.
Proof.
  intros Hb He. eexists. split; [|split].
  - replace (firstLetter + Z.of_nat _) with (97 + Z.of_nat (S (length (vc_OverlayLowerPaths c)))) by (unfold firstLetter; lia).
    apply drive_intro; [done|]. apply drives_overlay. unfold overlay_drives. rewrite He.
    rewrite lookup_app_r by (by rewrite numbered_length, length_fmap). rewrite numbered_length, length_fmap, Nat.sub_diag. reflexivity.
  - reflexivity.
  - reflexivity.
Qed.

(** The device the guest uses is the drive with this path, with this access. *)
Definition backed_by (c : VMConfig) (device path : string) (ro : bool) : Prop :=
  ∃ d, drive_of c device d ∧ fd_PathOnHost d = path ∧ fd_IsReadOnly d = ro.

(** C31: What the guest mounts is what was attached. Under Firecracker, of the configuration that the
    guest's init reads: the i-th extra disk is mounted from the drive whose file is that disk's,
    at its mount point, read-only exactly when the drive is; the i-th lower image of the overlay
    is the i-th lower file, attached read-only; the upper image and the swap device are theirs,
    attached writable; and there are no other disks. Apple's framework is given the same files
    in the same order, with the same access. *)
Theorem boot_drives_exact c g :
  bootable c → parseBootConfig (Some (linux_kernel_args format_g c)) = Ok g →
  length (bc_Disks g) = length (vc_ExtraDisks c)
  ∧ (∀ i disk, vc_ExtraDisks c !! i = Some disk →
      ∃ m, bc_Disks g !! i = Some m ∧ dm_Path m = dc_GuestMount disk ∧ dm_ReadOnly m = dc_ReadOnly disk
        ∧ backed_by c (dm_Device m) (dc_HostPath disk) (dc_ReadOnly disk))
  ∧ (vc_OverlayEnabled c = true →
      length (ov_LowerDevices (bc_Overlay g)) = length (vc_OverlayLowerPaths c)
      ∧ (∀ i p, vc_OverlayLowerPaths c !! i = Some p →
          ∃ dev, ov_LowerDevices (bc_Overlay g) !! i = Some dev ∧ backed_by c dev p true)
      ∧ backed_by c (ov_UpperDevice (bc_Overlay g)) (vc_OverlayUpperPath c) false)
  ∧ (if decide (vc_SwapPath c = "") then bc_SwapDevice g = "" else backed_by c (bc_SwapDevice g) (vc_SwapPath c) false)
  ∧ storage_devices c = (λ d, (fd_PathOnHost d, fd_IsReadOnly d)) <$> fc_drives c.
Proof.
  intros Hb Hg. rewrite linux_config in Hg by done. injection Hg as <-. cbn [bc_Disks bc_Overlay bc_SwapDevice guest_config].
  split_and!.
  - apply length_imap.
  - intros i disk Hi. eexists. unfold guest_disks. rewrite list_lookup_imap, Hi. split_and!; [done..|]. by apply disk_drive.
  - intros He. unfold guest_overlay. rewrite He. cbn [ov_LowerDevices ov_UpperDevice]. split_and!.
    + apply length_imap.
    + intros i p Hi. exists (device_name (firstLetter + Z.of_nat i)). split; [|by apply lower_drive].
      unfold lower_devices. by rewrite list_lookup_imap, Hi.
    + by apply upper_drive.
  - destruct (decide _); [done|]. by apply swap_drive_of.
  - apply storage_drives.
Qed.
End boot.

(** ** A machine *)

Section examples.

Definition example_config : VMConfig := {|
  vc_ID := "vm-0a1b2c3d"; vc_KernelPath := "/k"; vc_RootfsPath := "/vm/rootfs.ext4"; vc_OverlayEnabled := true;
  vc_OverlayLowerPaths := ["/img/a.erofs"; "/img/b.erofs"]; vc_OverlayLowerFSTypes := ["erofs"]; vc_OverlayUpperPath := "/vm/upper.ext4";
  vc_CPUs := DefaultCPUs; vc_MemoryMB := 512; vc_VsockCID := 3; vc_VsockPath := "/vm/vsock.sock"; vc_SocketPath := "/vm/fc.sock";
  vc_LogPath := "/vm/log"; vc_KernelArgs := ""; vc_GatewayIP := "192.168.107.1"; vc_GuestIP := "192.168.107.2";
  vc_SubnetCIDR := "192.168.107.1/24"; vc_Workspace := "/workspace"; vc_UseInterception := true; vc_Privileged := false;
  vc_DNSServers := ["8.8.8.8"; "8.8.4.4"; "1.1.1.1"]; vc_Hostname := "";
  vc_AddHosts := [{| him_Host := "db.internal"; him_IP := "10.0.0.5" |}]; vc_MTU := 0; vc_NoNetwork := false;
  vc_ExtraDisks := [{| dc_HostPath := "/data/a.ext4"; dc_GuestMount := "/var/cache"; dc_ReadOnly := false |};
                    {| dc_HostPath := "/data/b.ext4"; dc_GuestMount := "/opt/models"; dc_ReadOnly := true |}];
  vc_SwapPath := "/vm/swap"; vc_EncryptSwap := true; vc_ZramPct := 50;
  vc_VirtioFSShares := [{| vs_Tag := "ws0"; vs_HostPath := "/src"; vs_GuestMount := "/workspace/src"; vs_ReadOnly := true |}];
  vc_VirtioFSMaskPaths := ["/workspace/src/.env"] |}.

Definition example_g (_ : spec_float) : string := "1".
Definition example_parse (s : string) : option spec_float := if decide (s = "1") then Some DefaultCPUs else None.

Lemma example_bootable : bootable example_g example_parse example_config.
Proof.
  constructor; unfold word, part; cbn [example_config vc_DNSServers vc_OverlayLowerFSTypes vc_ExtraDisks vc_AddHosts vc_VirtioFSShares
    vc_VirtioFSMaskPaths]; repeat lazymatch goal with
    | |- Forall _ _ => constructor | |- _ ∧ _ => split | |- boot_alias _ => unfold boot_alias, part | |- part _ => unfold part
    | |- boot_fs_type _ => right | |- boot_share _ => unfold boot_share, word
    | |- _ ≠ _ => vm_compute; discriminate | |- _ = _ => vm_compute; reflexivity | |- _ → _ => discriminate
    | |- is_int64 _ => unfold is_int64 | |- _ => vm_compute; repeat constructor; discriminate end.
Qed.

Lemma boot_config_exact_witness :
  parseBootConfig example_parse (Some (linux_kernel_args example_g example_config)) = Ok (guest_config false example_config)
  ∧ parseBootConfig example_parse (Some (darwin_kernel_args example_g example_config)) = Ok (guest_config true example_config).
Proof. apply (boot_config_exact example_g example_parse example_config), example_bootable. Defined.

Lemma boot_drives_exact_witness :
  length (bc_Disks (guest_config false example_config)) = 2%nat
  ∧ backed_by example_config "vdf" "/data/b.ext4" true ∧ backed_by example_config "vdg" "/vm/swap" false.
Proof.
  destruct (boot_drives_exact example_g example_parse example_config (guest_config false example_config) example_bootable)
    as (Hn & Hd & _ & Hs & _); [vm_compute; reflexivity|].
  split; [exact Hn|]. split; [|exact Hs].
  destruct (Hd 1%nat {| dc_HostPath := "/data/b.ext4"; dc_GuestMount := "/opt/models"; dc_ReadOnly := true |} eq_refl) as (m & Hm & _ & _ & Hb).
  injection Hm as <-. exact Hb.
Defined.

(** An alias whose name has a comma is accepted, and the guest's init then refuses its command
    line: the machine does not boot. *)
Lemma comma_alias_stops_boot :
  let m := {| him_Host := "a,b"; him_IP := "10.0.0.5" |} in
  ValidateAddHost m = None ∧ match parseAddHostField (him_Host m +:+ "," +:+ him_IP m) with Ok _ => false | Err _ => true end = true.
Proof. split; vm_compute; reflexivity. Qed.

(** An MTU that the configuration accepts and the guest refuses. *)
Lemma large_mtu_stops_boot : match parseBootConfig example_parse (Some "matchlock.dns=8.8.8.8 matchlock.mtu=65536") with Ok _ => false | Err _ => true end = true.
Proof. vm_compute. reflexivity. Qed.

(** The budget of drives leaves out the swap drive. *)
Lemma swap_not_counted :
  let c := {| vc_ID := "vm-0a1b2c3d"; vc_KernelPath := "/k"; vc_RootfsPath := "/r"; vc_OverlayEnabled := true;
    vc_OverlayLowerPaths := replicate 20 "/l"; vc_OverlayLowerFSTypes := []; vc_OverlayUpperPath := "/u"; vc_CPUs := DefaultCPUs;
    vc_MemoryMB := 512; vc_VsockCID := 3; vc_VsockPath := ""; vc_SocketPath := ""; vc_LogPath := ""; vc_KernelArgs := "";
    vc_GatewayIP := ""; vc_GuestIP := ""; vc_SubnetCIDR := ""; vc_Workspace := ""; vc_UseInterception := false; vc_Privileged := false;
    vc_DNSServers := ["8.8.8.8"]; vc_Hostname := ""; vc_AddHosts := []; vc_MTU := 0; vc_NoNetwork := false;
    vc_ExtraDisks := replicate 2 {| dc_HostPath := "/d"; dc_GuestMount := "/mnt/d"; dc_ReadOnly := false |}; vc_SwapPath := "/s";
    vc_EncryptSwap := false; vc_ZramPct := 0; vc_VirtioFSShares := []; vc_VirtioFSMaskPaths := [] |} in
  validateOverlayDiskLayout 20 2 = None ∧ Z.of_nat (length (fc_drives c)) = maxOverlayBlockDevices + 1.
Proof. split; vm_compute; reflexivity. Qed.
End examples.
