(* ===== verification/GuestInit.v ===== *)
(** * The guest's init: cmd/guest-init/main.go

    What the first process of a machine does before it becomes the agent. It is a program of
    system calls ([prog]) whose answers are the kernel's; a run ([runs]) is the calls it made,
    with their answers, and how it ended. Nothing is assumed of the answers. *)

From Stdlib Require Import Floats.SpecFloat.
From S2P Require Import Prelude GoStrings GoStd GoPath GoJson GoNet Api ApiConfig Boot BootConfig.

(** ** Calls *)

Inductive os_error := ENOENT | OSError (what : string).

(** An address of an interface, as its dynamic type. *)
Inductive if_addr := AddrIPNet (ip : IP) | AddrIPAddr (ip : IP) | AddrOther.

Inductive call :=
| Mount (source target fstype : string) (flags : Z) (data : string)
| PivotRoot (new old : string) | Chdir (p : string)
| MkdirAll (p : string) (mode : Z) | Stat (p : string) | Remove (p : string)
| ReadFile (p : string) | WriteFile (p data : string) (mode : Z)
| OpenFile (p : string) (flags : Z) | ReadAll (fd : Z) | ReadFull (fd n : Z) | WriteAt (fd : Z) (data : bytes) (off : Z) | Close (fd : Z)
| BlkGetSize64 (fd : Z) | DmIoctl (fd cmd : Z) (buf : bytes) | Swapon (p : string) (flags : Z)
| Socket | SetIfMTU (fd : Z) (ifr : bytes) | NewIfreq (name : string) | GetIfFlags (fd : Z) (name : string)
| SetIfFlags (fd : Z) (name : string) (flags : Z) | InterfaceByName (name : string) | Addrs (name : string)
| Sethostname (name : string) | Setenv (k v : string) | Environ | Getpid | Sysinfo | Statfs (p : string)
| LookPath (name : string) | Start (p : string) (args : list string)
| Now | Sleep (d : Z) | Warnf (format : string)
| Exec (p : string) (argv env : list string).

(** What a call answers. [ReadAll] is what a scanner gets: the bytes before the end or an error.
    [Exec] answers only when it fails. *)
Definition answer (c : call) : Type :=
  match c with
  | Mount _ _ _ _ _ | PivotRoot _ _ | Chdir _ | MkdirAll _ _ | Stat _ | Remove _ | WriteFile _ _ _ | WriteAt _ _ _ | Swapon _ _
  | SetIfMTU _ _ | NewIfreq _ | SetIfFlags _ _ _ | InterfaceByName _ | Sethostname _ | Start _ _ | Exec _ _ _ => option os_error
  | ReadFile _ | LookPath _ => result os_error string
  | OpenFile _ _ | BlkGetSize64 _ | Socket | GetIfFlags _ _ | Statfs _ => result os_error Z
  | ReadAll _ => string * option os_error
  | ReadFull _ _ | DmIoctl _ _ _ => result os_error bytes
  | Addrs _ => result os_error (list if_addr)
  | Environ => list string
  | Getpid | Now => Z
  | Sysinfo => result os_error (Z * Z)
  | Setenv _ _ | Close _ | Sleep _ | Warnf _ => unit
  end.

Record event := Ev { ev_call : call; ev_answer : answer ev_call }.

(** ** Programs *)

(** How init ends but by returning: [os.Exit], a panic, as another program, or with no round of
    the wait for the workspace left. *)
Inductive halt := Exited (e : boot_error) | Panicked | Replaced | OutOfRounds.

Inductive prog (A : Type) :=
| Ret (a : A)
| Halt (h : halt)
| Act (c : call) (k : answer c → prog A).
Arguments Ret {A} a.
Arguments Halt {A} h.
Arguments Act {A} c k.

Fixpoint prog_bind {A B} (f : A → prog B) (p : prog A) : prog B :=
  match p with Ret a => f a | Halt h => Halt h | Act c k => Act c (λ x, prog_bind f (k x)) end.
#[export] Instance prog_mret : MRet prog := λ A, Ret.
#[export] Instance prog_mbind : MBind prog := λ A B, prog_bind.

Definition act (c : call) : prog (answer c) := Act c Ret.

(** The calls a run makes, with their answers, and its end. *)
Fixpoint runs {A} (p : prog A) (t : list event) (r : result halt A) : Prop :=
  match p with
  | Ret a => t = [] ∧ r = Ok a
  | Halt h => t = [] ∧ r = Err h
  | Act c k => ∃ x t', t = Ev c x :: t' ∧ runs (k x) t' r
  end.

(** The run on a kernel, which answers from its state. *)
Fixpoint run {A S} (kernel : ∀ c, S → answer c * S) (p : prog A) (s : S) : list event * result halt A * S :=
  match p with
  | Ret a => ([], Ok a, s)
  | Halt h => ([], Err h, s)
  | Act c k =>
      let x := kernel c s in
      let r := run kernel (k x.1) x.2 in
      (Ev c x.1 :: r.1.1, r.1.2, r.2)
  end.

(** [if err := p; err != nil { return e }] *)
Definition check {E} (e : E) (p : prog (option os_error)) (k : prog (option E)) : prog (option E) :=
  p ≫= λ r, match r with Some _ => Ret (Some e) | None => k end.
(** [if err := p; err != nil { fatal(err) }] *)
Definition must (p : prog (option boot_error)) : prog unit :=
  p ≫= λ r, match r with Some e => Halt (Exited e) | None => Ret tt end.
Definition ignore {A} (p : prog A) : prog unit := p ≫= λ _, Ret tt.
(** [if err := p; err != nil { warnf(format) }] *)
Definition warn_if (format : string) (p : prog (option os_error)) : prog unit :=
  p ≫= λ r, match r with Some _ => act (Warnf format) | None => Ret tt end.
(** [defer f.Close()] around [p]. *)
Definition closing {A} (fd : Z) (p : prog A) : prog A := p ≫= λ a, act (Close fd) ≫= λ _, Ret a.

(** ** Constants *)

Definition procCmdlinePath := "/proc/cmdline".
Definition procMountsPath := "/proc/mounts".
Definition etcHostnamePath := "/etc/hostname".
Definition etcHostsPath := "/etc/hosts".
Definition etcResolvConfPath := "/etc/resolv.conf".
Definition guestFusedPath := "/opt/matchlock/guest-fused".
Definition guestAgentPath := "/opt/matchlock/guest-agent".
Definition defaultPATH := "/usr/local/sbin:/usr/local/bin:/usr/sbin:/usr/bin:/sbin:/bin".
Definition networkInterface := "eth0".
(** Durations in nanoseconds. *)
Definition workspaceWaitStep : Z := 100000000.
Definition workspaceWaitMax : Z := 30000000000.
Definition fuseSuperMagic : Z := 0x65735546.
Definition overlayLowerMount := "/run/matchlock/lower".
Definition overlayUpperMount := "/run/matchlock/upperfs".
Definition overlayMergedRoot := "/run/matchlock/merged".
Definition overlayPutOldDir := ".old-root".
Definition cpuMaxPaths : list string := ["/sys/fs/cgroup/init/cpu.max"; "/sys/fs/cgroup/cpu.max"].

Definition MS_RDONLY : Z := 1.
Definition MS_REMOUNT : Z := 32.
Definition MS_BIND : Z := 4096.
Definition mode_0555 : Z := 365.
Definition mode_0644 : Z := 420.
Definition mode_0755 : Z := 493.
Definition mode_1777 : Z := 1023.
Definition eol : string := String newline "".

(** ** Mounts *)

Definition mountIgnore (source target fstype : string) (flags : Z) (data : string) : prog unit :=
  ignore (act (Mount source target fstype flags data)).
Definition mkdir_ignore (p : string) (mode : Z) : prog unit := ignore (act (MkdirAll p mode)).

Fixpoint in_order (l : list (prog unit)) : prog unit :=
  match l with [] => Ret tt | p :: l' => p ≫= λ _, in_order l' end.

Definition prepareEarlyFilesystems : prog unit := in_order [
  mountIgnore "" "/" "" MS_REMOUNT "rw"; mkdir_ignore "/proc" mode_0555; mkdir_ignore "/dev" mode_0755;
  mountIgnore "proc" "/proc" "proc" 0 ""; mountIgnore "dev" "/dev" "devtmpfs" 0 ""].

Definition prepareBaseFilesystems : prog unit := in_order [
  mountIgnore "" "/" "" MS_REMOUNT "rw";
  mkdir_ignore "/proc" mode_0555; mkdir_ignore "/sys" mode_0555; mkdir_ignore "/dev" mode_0755; mkdir_ignore "/run" mode_0755;
  mkdir_ignore "/tmp" mode_1777; mkdir_ignore "/sys/fs/bpf" mode_0755; mkdir_ignore "/sys/fs/cgroup" mode_0755;
  mountIgnore "proc" "/proc" "proc" 0 ""; mountIgnore "sys" "/sys" "sysfs" 0 ""; mountIgnore "dev" "/dev" "devtmpfs" 0 "";
  mkdir_ignore "/dev/pts" mode_0755; mkdir_ignore "/dev/shm" mode_1777; mkdir_ignore "/dev/mqueue" mode_0755;
  mountIgnore "devpts" "/dev/pts" "devpts" 0 ""; mountIgnore "tmpfs" "/dev/shm" "tmpfs" 0 "";
  mountIgnore "mqueue" "/dev/mqueue" "mqueue" 0 ""; mountIgnore "tmpfs" "/run" "tmpfs" 0 ""; mountIgnore "tmpfs" "/tmp" "tmpfs" 0 "";
  mountIgnore "bpf" "/sys/fs/bpf" "bpf" 0 ""; mountIgnore "cgroup2" "/sys/fs/cgroup" "cgroup2" 0 ""].

Definition ro_flags (ro : bool) : Z := if ro then MS_RDONLY else 0.

Fixpoint mountVirtioFS (mounts : list virtioFSMount) : prog (option boot_error) :=
  match mounts with
  | [] => Ret None
  | m :: mounts' =>
      check ErrMountVirtioFS (act (MkdirAll (vm_Path m) mode_0755))
        (check ErrMountVirtioFS (act (Mount (vm_Tag m) (vm_Path m) "virtiofs" (ro_flags (vm_ReadOnly m)) "")) (mountVirtioFS mounts'))
  end.

Fixpoint maskVirtioFSPaths (paths : list string) : prog (option boot_error) :=
  match paths with
  | [] => Ret None
  | p :: paths' =>
      act (Stat p) ≫= λ err, match err with
        | Some _ => maskVirtioFSPaths paths'
        | None => check ErrMountVirtioFS (act (Mount "/dev/null" p "" MS_BIND "")) (maskVirtioFSPaths paths')
        end
  end.

Fixpoint mountExtraDisks (disks : list diskMount) : prog (option boot_error) :=
  match disks with
  | [] => Ret None
  | d :: disks' =>
      if decide (dm_Device d = "" ∨ dm_Path d = "") then mountExtraDisks disks'
      else check ErrMountExtraDisk (act (MkdirAll (dm_Path d) mode_0755))
             (check ErrMountExtraDisk (act (Mount (PathJoin ["/dev"; dm_Device d]) (dm_Path d) "ext4" (ro_flags (dm_ReadOnly d)) ""))
               (mountExtraDisks disks'))
  end.

(** *** The root *)

Fixpoint mkdirs (dirs : list string) (k : prog (option boot_error)) : prog (option boot_error) :=
  match dirs with [] => k | dir :: dirs' => check ErrOverlaySetup (act (MkdirAll dir mode_0755)) (mkdirs dirs' k) end.

Definition lower_dir (i : nat) : string := PathJoin [overlayLowerMount; Itoa (Z.of_nat i)].

(** The lower images from the [i]-th, then [k]. Only erofs is taken. *)
Fixpoint mount_lowers (i : nat) (devices fsTypes : list string) (k : prog (option boot_error)) : prog (option boot_error) :=
  match devices with
  | [] => k
  | dev :: devices' =>
      if match fsTypes !! i with Some t => negb (bool_decide (t = "")) && negb (bool_decide (t = "erofs")) | None => false end
      then Ret (Some ErrInvalidOverlayCfg)
      else check ErrOverlaySetup (act (MkdirAll (lower_dir i) mode_0755))
             (check ErrOverlaySetup (act (Mount (PathJoin ["/dev"; dev]) (lower_dir i) "erofs" MS_RDONLY ""))
               (mount_lowers (S i) devices' fsTypes k))
  end.

Definition overlayUpperDir : string := PathJoin [overlayUpperMount; "upper"].
Definition overlayWorkDir : string := PathJoin [overlayUpperMount; "work"].
Definition putOld : string := PathJoin [overlayMergedRoot; overlayPutOldDir].

(** The last image is the top one. *)
Definition overlay_opts (n : nat) : string :=
  "lowerdir=" +:+ Join (rev (lower_dir <$> List.seq 0 n)) ":" +:+ ",upperdir=" +:+ overlayUpperDir +:+ ",workdir=" +:+ overlayWorkDir.

Definition setupOverlayRoot (cfg : overlayBootConfig) : prog (option boot_error) :=
  if decide (ov_LowerDevices cfg = [] ∨ ov_UpperDevice cfg = "") then Ret (Some ErrInvalidOverlayCfg)
  else
    mkdirs [overlayLowerMount; overlayUpperMount; overlayMergedRoot] (mount_lowers 0 (ov_LowerDevices cfg) (ov_LowerFSTypes cfg) (
    check ErrOverlaySetup (act (Mount (PathJoin ["/dev"; ov_UpperDevice cfg]) overlayUpperMount "ext4" 0 "")) (
    mkdirs [overlayUpperDir; overlayWorkDir] (
    check ErrOverlaySetup (act (Mount "overlay" overlayMergedRoot "overlay" 0 (overlay_opts (length (ov_LowerDevices cfg))))) (
    mkdirs [putOld] (
    check ErrOverlaySetup (act (PivotRoot overlayMergedRoot putOld)) (
    check ErrOverlaySetup (act (Chdir "/")) (Ret None)))))))).

(** ** Processors *)

Definition pathExists (p : string) : prog bool := act (Stat p) ≫= λ err, Ret (bool_decide (err = None)).

Definition configureCgroupDelegation : prog unit :=
  let subtree := "/sys/fs/cgroup/cgroup.subtree_control" in
  let controllers := "/sys/fs/cgroup/cgroup.controllers" in
  pathExists subtree ≫= λ has_subtree : bool,
  (if has_subtree then pathExists controllers else Ret false) ≫= λ delegated : bool,
  if negb delegated then Ret tt
  else
    mkdir_ignore "/sys/fs/cgroup/init" mode_0755 ≫= λ _,
    act Getpid ≫= λ pid,
    warn_if "move PID to /sys/fs/cgroup/init failed: %v"
      (act (WriteFile "/sys/fs/cgroup/init/cgroup.procs" (FormatInt pid +:+ eol) mode_0644)) ≫= λ _,
    act (ReadFile controllers) ≫= λ data,
    match data with
    | Err _ => act (Warnf "read cgroup controllers failed: %v")
    | Ok data => in_order ((λ c, ignore (act (WriteFile subtree ("+" +:+ c) mode_0644))) <$> Fields data)
    end.

Section init.
(** What Go leaves to the machine, and to the library: the [int] that a float out of its range
    becomes, [unix.Minor], and [strconv.ParseFloat]. *)
Context (int_out_of_range : Z) (Minor : Z → Z) (ParseFloat : string → option spec_float).

(** [int(f)] *)
Definition int_of_float (f : spec_float) : Z :=
  match f with
  | S754_zero _ => 0
  | S754_finite s m e =>
      let n := Z.quot (Z.pos m * 2 ^ Z.max 0 e) (2 ^ Z.max 0 (- e)) in
      let n := if s then - n else n in
      if (- 2 ^ 63 <=? n) && (n <? 2 ^ 63) then n else int_out_of_range
  | _ => int_out_of_range
  end.

(** 100000.0 *)
Definition cpu_period : spec_float := S754_finite false 6871947673600000 (-36).

Fixpoint write_first (paths : list string) (data : string) (otherwise : prog unit) : prog unit :=
  match paths with
  | [] => otherwise
  | p :: paths' => act (WriteFile p data mode_0644) ≫= λ err, match err with None => Ret tt | Some _ => write_first paths' data otherwise end
  end.

Definition cpu_quota (cpus : spec_float) : Z := Z.max 1000 (int_of_float (SFmul 53 1024 cpus cpu_period)).

Definition configureCPULimit (cpus : spec_float) : prog unit :=
  if negb (IsValidCPUCount cpus) then Ret tt
  else write_first cpuMaxPaths (FormatInt (cpu_quota cpus) +:+ " 100000") (act (Warnf "apply cpu quota failed: %s")).

(** ** Names *)

Fixpoint hosts_lines (addHosts : list hostIPMapping) : string :=
  match addHosts with
  | [] => ""
  | m :: l => (if decide (hm_Host m = "" ∨ hm_IP m = "") then "" else hm_IP m +:+ " " +:+ hm_Host m +:+ eol) +:+ hosts_lines l
  end.

Definition renderEtcHosts (hostname : string) (addHosts : list hostIPMapping) : string :=
  "127.0.0.1 localhost localhost.localdomain " +:+ hostname +:+ eol +:+ hosts_lines addHosts
  +:+ "::1 localhost ip6-localhost ip6-loopback" +:+ eol +:+ "ff02::1 ip6-allnodes" +:+ eol +:+ "ff02::2 ip6-allrouters" +:+ eol.

Definition init_hostname (hostname : string) : string := if decide (hostname = "") then "matchlock" else hostname.

Definition configureHostname (hostname : string) (addHosts : list hostIPMapping) : prog (option boot_error) :=
  let hostname := init_hostname hostname in
  warn_if "set hostname failed: %v" (act (Sethostname hostname)) ≫= λ _,
  check ErrWriteHostname (act (WriteFile etcHostnamePath (hostname +:+ eol) mode_0644))
    (check ErrWriteHosts (act (WriteFile etcHostsPath (renderEtcHosts hostname addHosts) mode_0644)) (Ret None)).

Fixpoint nameserver_lines (servers : list string) : string :=
  match servers with
  | [] => ""
  | ns :: l => (if decide (ns = "") then "" else "nameserver " +:+ ns +:+ eol) +:+ nameserver_lines l
  end.

Definition writeResolvConf (path : string) (servers : list string) : prog (option boot_error) :=
  act (Remove path) ≫= λ err, match err with
  | Some (OSError _) => Ret (Some ErrWriteResolvConf)
  | _ => check ErrWriteResolvConf (act (WriteFile path (nameserver_lines servers) mode_0644)) (Ret None)
  end.

(** ** Little-endian numbers and buffers *)

Fixpoint le (n : nat) (v : Z) : bytes := match n with O => [] | S n' => chr (v mod 256) :: le n' (v / 256) end.
Fixpoint un_le (b : bytes) : Z := match b with [] => 0 | c :: b' => code c + 256 * un_le b' end.

(** [copy(buf[off:], data)] *)
Definition copy_at (off : nat) (data buf : bytes) : bytes :=
  let data := take (length buf - off) data in take off buf ++ data ++ drop (off + length data) buf.

Definition string_bytes : string → bytes := String.list_ascii_of_string.

(** ** The network *)

Definition ifreq_mtu (name : string) (mtu : Z) : bytes :=
  copy_at 0 (string_bytes name) (replicate 16 zero_byte) ++ le 4 (uint32 mtu) ++ replicate 20 zero_byte.

Definition setInterfaceMTU (name : string) (mtu : Z) : prog (option os_error) :=
  act Socket ≫= λ fd, match fd with
  | Err e => Ret (Some e)
  | Ok fd => closing fd (act (SetIfMTU fd (ifreq_mtu name mtu)))
  end.

Definition IFF_UP : Z := 1.

Definition setInterfaceUp (name : string) : prog (option os_error) :=
  act Socket ≫= λ fd, match fd with
  | Err e => Ret (Some e)
  | Ok fd => closing fd (
      act (NewIfreq name) ≫= λ err, match err with
      | Some e => Ret (Some e)
      | None => act (GetIfFlags fd name) ≫= λ flags, match flags with
          | Err e => Ret (Some e)
          | Ok flags => if negb (Z.land flags IFF_UP =? 0) then Ret None else act (SetIfFlags fd name (Z.lor flags IFF_UP))
          end
      end)
  end.

Definition has_ipv4 (a : if_addr) : bool :=
  match a with AddrIPNet ip | AddrIPAddr ip => bool_decide (is_Some (To4 ip)) | AddrOther => false end.

Definition interfaceHasIPv4 (name : string) : prog (result os_error bool) :=
  act (InterfaceByName name) ≫= λ err, match err with
  | Some e => Ret (Err e)
  | None => act (Addrs name) ≫= λ addrs, Ret (match addrs with Ok l => Ok (existsb has_ipv4 l) | Err e => Err e end)
  end.

Definition start_dhcp (path : string) (args : list string) (warning : string) : prog bool :=
  act (Start path args) ≫= λ err, match err with Some _ => ignore (act (Warnf warning)) ≫= λ _, Ret false | None => Ret true end.

Definition bringUpNetwork (iface : string) (mtu : Z) : prog unit :=
  let mtu := if mtu <=? 0 then defaultNetworkMTU else mtu in
  warn_if "%v" (setInterfaceMTU iface mtu) ≫= λ _,
  warn_if "%v" (setInterfaceUp iface) ≫= λ _,
  interfaceHasIPv4 iface ≫= λ r,
  (match r with Err _ => act (Warnf "check interface %s address: %v") | Ok _ => Ret tt end) ≫= λ _,
  match r with
  | Ok true => Ret tt
  | _ =>
      (act (LookPath "udhcpc") ≫= λ path, match path with
       | Ok path => start_dhcp path ["-i"; iface; "-n"; "-q"] "start udhcpc failed: %v"
       | Err _ => act (LookPath "dhclient") ≫= λ path, match path with
           | Ok path => start_dhcp path [iface] "start dhclient failed: %v"
           | Err _ => Ret false
           end
       end) ≫= λ started : bool, if started then act (Sleep 2000000000) else Ret tt
  end.

(** ** Swap *)

Definition pageSize : Z := 4096.

(** The first page of a swap device whose last page is [lastPage]. *)
Definition swap_header (lastPage : Z) : bytes :=
  copy_at 4086 (string_bytes "SWAPSPACE2") (copy_at 1028 (le 4 lastPage) (copy_at 1024 (le 4 1) (replicate 4096 zero_byte))).

(** The last page, for a device of [devSize] bytes, an unsigned number. *)
Definition swap_last_page (devSize : Z) : option Z :=
  let totalPages := Z.quot (int64 devSize) pageSize in
  if totalPages <? 10 then None else Some (uint32 (totalPages - 1)).

Definition O_RDONLY : Z := 0.
Definition O_RDWR : Z := 2.

Definition writeSwapHeader (devPath : string) : prog (option os_error) :=
  act (OpenFile devPath O_RDWR) ≫= λ f, match f with
  | Err e => Ret (Some e)
  | Ok fd => closing fd (
      act (BlkGetSize64 fd) ≫= λ devSize, match devSize with
      | Err _ => Ret (Some (OSError "BLKGETSIZE64: %v"))
      | Ok devSize => match swap_last_page devSize with
          | None => Ret (Some (OSError "swap device too small: %d bytes"))
          | Some lastPage => act (WriteAt fd (swap_header lastPage) 0)
          end
      end)
  end.

(** *** Device mapper *)

Definition dm_buffer (name : string) (payload : bytes) : bytes :=
  let bufSize := Nat.max (Z.to_nat 16384) (312 + length payload) in
  let buf := copy_at 0 [chr 4] (replicate bufSize zero_byte) in
  let buf := copy_at 12 (le 4 (uint32 (Z.of_nat bufSize))) buf in
  let buf := copy_at 16 (le 4 312) buf in
  let buf := copy_at 48 (string_bytes name) buf in
  match payload with [] => buf | _ => copy_at 20 (le 4 1) (copy_at 312 payload buf) end.

Definition dmIoctl (ctrl cmd : Z) (name : string) (payload : bytes) : prog (result os_error Z) :=
  act (DmIoctl ctrl cmd (dm_buffer name payload)) ≫= λ r,
  Ret (match r with Ok buf => Ok (un_le (take 8 (drop 40 buf))) | Err e => Err e end).

Definition dmTargetSpec (startSector lengthSectors : Z) (targetType params : string) : bytes :=
  let paramBytes := string_bytes params ++ [zero_byte] in
  let total := (40 + length paramBytes)%nat in
  let total := if (total mod 8 =? 0)%nat then total else (total + (8 - total mod 8))%nat in
  let buf := copy_at 0 (le 8 startSector) (replicate total zero_byte) in
  let buf := copy_at 8 (le 8 lengthSectors) buf in
  let buf := copy_at 24 (string_bytes targetType) buf in
  copy_at 40 paramBytes buf.

Definition DM_DEV_CREATE : Z := 0xc138fd03.
Definition DM_DEV_REMOVE : Z := 0xc138fd04.
Definition DM_DEV_SUSPEND : Z := 0xc138fd06.
Definition DM_TABLE_LOAD : Z := 0xc138fd09.
Definition dmName := "swap-crypt".

(** The rounds of the wait for a device node. *)
Fixpoint wait_node (rounds : nat) (p : string) : prog unit :=
  match rounds with
  | O => Ret tt
  | S rounds' => act (Stat p) ≫= λ err, match err with None => Ret tt | Some _ => act (Sleep 50000000) ≫= λ _, wait_node rounds' p end
  end.

Definition target_params (key : bytes) (devPath : string) : string :=
  "aes-xts-plain64 " +:+ hex_EncodeToString (String.string_of_list_ascii key) +:+ " 0 " +:+ devPath +:+ " 0".

(** What follows the opening of the control device. *)
Definition map_swap (ctrl : Z) (devPath : string) (sectors : Z) (key : bytes) : prog (result os_error string) :=
  let removeDM (e : os_error) : prog (result os_error string) := dmIoctl ctrl DM_DEV_REMOVE dmName [] ≫= λ _, Ret (Err e) in
  dmIoctl ctrl DM_DEV_CREATE dmName [] ≫= λ r, match r with
  | Err e => Ret (Err e)
  | Ok dmDev =>
      dmIoctl ctrl DM_TABLE_LOAD dmName (dmTargetSpec 0 sectors "crypt" (target_params key devPath)) ≫= λ r, match r with
      | Err e => removeDM e
      | Ok _ => dmIoctl ctrl DM_DEV_SUSPEND dmName [] ≫= λ r, match r with
          | Err e => removeDM e
          | Ok _ =>
              let mapperDev := "/dev/dm-" +:+ FormatInt (Minor dmDev) in
              wait_node 20 mapperDev ≫= λ _,
              writeSwapHeader mapperDev ≫= λ err, match err with Some e => removeDM e | None => Ret (Ok mapperDev) end
          end
      end
  end.

Definition setupEncryptedSwap (devPath : string) : prog (result os_error string) :=
  act (OpenFile devPath O_RDONLY) ≫= λ f, match f with
  | Err e => Ret (Err e)
  | Ok fd =>
      act (BlkGetSize64 fd) ≫= λ devSize, act (Close fd) ≫= λ _, match devSize with
      | Err _ => Ret (Err (OSError "BLKGETSIZE64: %v"))
      | Ok devSize =>
          act (OpenFile "/dev/urandom" O_RDONLY) ≫= λ f, match f with
          | Err _ => Halt Panicked
          | Ok rd => act (ReadFull rd 32) ≫= λ key, match key with
              | Err e => Ret (Err e)
              | Ok key => act (OpenFile "/dev/mapper/control" O_RDWR) ≫= λ f, match f with
                  | Err e => Ret (Err e)
                  | Ok ctrl => closing ctrl (map_swap ctrl devPath (devSize / 512) key)
                  end
              end
          end
      end
  end.

Definition swapon (what dev : string) (flags : Z) : prog unit :=
  if contains_byte (chr 0) dev then act (Warnf "swapon %s: invalid path: %v")
  else warn_if what (act (Swapon dev flags)).

Definition enableSwap (device : string) (encrypt : bool) : prog unit :=
  let devPath := PathJoin ["/dev"; device] in
  (if encrypt then
     setupEncryptedSwap devPath ≫= λ r, match r with
     | Ok dev => Ret dev
     | Err _ => act (Warnf "encrypted swap setup failed, using unencrypted: %v") ≫= λ _, Ret devPath
     end
   else Ret devPath) ≫= λ swapDev,
  (if decide (swapDev = devPath) then writeSwapHeader swapDev else Ret None) ≫= λ err, match err with
  | Some _ => act (Warnf "format swap %s: %v")
  | None => swapon "swapon %s failed: %v" swapDev 0
  end.

Definition enableZram (pct : Z) : prog unit :=
  pathExists "/sys/class/zram-control" ≫= λ has_zram : bool, if negb has_zram then Ret tt else
  pathExists "/dev/zram0" ≫= λ has_node : bool, if negb has_node then Ret tt else
  ignore (act (WriteFile "/sys/block/zram0/comp_algorithm" ("lzo" +:+ eol) mode_0644)) ≫= λ _,
  act Sysinfo ≫= λ info, match info with
  | Err _ => act (Warnf "zram: sysinfo failed: %v")
  | Ok (totalram, unit) =>
      let totalRAM := uint64 (totalram * unit) in
      let zramSize := uint64 (totalRAM * pct) / 100 in
      act (WriteFile "/sys/block/zram0/disksize" (Itoa zramSize +:+ eol) mode_0644) ≫= λ err, match err with
      | Some _ => act (Warnf "zram: set disksize: %v")
      | None => writeSwapHeader "/dev/zram0" ≫= λ err, match err with
          | Some _ => act (Warnf "zram: write swap header: %v")
          | None => warn_if "zram: swapon failed: %v" (act (Swapon "/dev/zram0" (Z.lor 0x8000 100)))
          end
      end
  end.

(** ** The workspace *)

Definition startGuestFused (path : string) : prog (option boot_error) := check ErrStartGuestFused (act (Start path [])) (Ret None).

(** The longest line [bufio.Scanner] takes. *)
Definition maxScanTokenSize : Z := 65536.

Definition is_workspace_line (workspace line : string) : bool :=
  match Fields line with
  | source :: target :: fstype :: _ =>
      bool_decide (target = workspace) && bool_decide (source = "matchlock") && HasPrefix fstype "fuse."
  | _ => false
  end.

(** The loop over the lines; [rest] is what the scanner ends with. *)
Fixpoint scan_mounts (workspace : string) (lines : list string) (rest : option os_error) : result os_error bool :=
  match lines with
  | [] => match rest with Some e => Err e | None => Ok false end
  | line :: lines' =>
      if maxScanTokenSize <=? Z.of_nat (slen line) then Err (OSError "token too long")
      else if is_workspace_line workspace (drop_cr line) then Ok true
      else scan_mounts workspace lines' rest
  end.

Definition workspaceMounted (mountsPath workspace : string) : prog (result os_error bool) :=
  act (OpenFile mountsPath O_RDONLY) ≫= λ f, match f with
  | Err e => Ret (Err e)
  | Ok fd => closing fd (act (ReadAll fd) ≫= λ r, Ret (scan_mounts workspace (raw_lines r.1) r.2))
  end.

Definition workspaceIsFUSE (workspace : string) : prog (result os_error bool) :=
  act (Statfs workspace) ≫= λ r, Ret (match r with Ok type => Ok (uint64 type =? fuseSuperMagic) | Err e => Err e end).

(** One round: whether the workspace is there. *)
Definition workspace_ready (mountsPath workspace : string) : prog bool :=
  workspaceMounted mountsPath workspace ≫= λ r, match r with
  | Err _ => act (Warnf "workspace mount check failed: %v") ≫= λ _, Ret false
  | Ok false => Ret false
  | Ok true =>
      workspaceIsFUSE workspace ≫= λ r, match r with
      | Err _ => act (Warnf "workspace fs type check failed: %v") ≫= λ _, Ret false
      | Ok ready => Ret ready
      end
  end.

Fixpoint wait_rounds (rounds : nat) (mountsPath workspace : string) (deadline : Z) : prog (option boot_error) :=
  match rounds with
  | O => Halt OutOfRounds
  | S rounds' =>
      workspace_ready mountsPath workspace ≫= λ ready : bool, if ready then Ret None
      else act Now ≫= λ now, if deadline <? now then Ret (Some ErrWorkspaceMountWait)
           else act (Sleep workspaceWaitStep) ≫= λ _, wait_rounds rounds' mountsPath workspace deadline
  end.

(** A round takes at least a step, and one more sees that the deadline is over. *)
Definition wait_fuel (timeout : Z) : nat := S (S (Z.to_nat (timeout / workspaceWaitStep))).

Definition waitForWorkspaceMount (mountsPath workspace : string) (timeout : Z) : prog (option boot_error) :=
  act Now ≫= λ now, wait_rounds (wait_fuel timeout) mountsPath workspace (now + timeout).

(** ** The whole *)

Definition boot_config : prog bootConfig :=
  act (ReadFile procCmdlinePath) ≫= λ data,
  match parseBootConfig ParseFloat (match data with Ok s => Some s | Err _ => None end) with
  | Ok cfg => Ret cfg
  | Err e => Halt (Exited e)
  end.

(** Everything before the agent. *)
Definition prepare : prog unit :=
  prepareEarlyFilesystems ≫= λ _,
  boot_config ≫= λ cfg,
  (if ov_Enabled (bc_Overlay cfg) then must (setupOverlayRoot (bc_Overlay cfg)) else Ret tt) ≫= λ _,
  prepareBaseFilesystems ≫= λ _,
  act (Setenv "PATH" defaultPATH) ≫= λ _,
  configureCgroupDelegation ≫= λ _,
  configureCPULimit (bc_CPUs cfg) ≫= λ _,
  must (configureHostname (bc_Hostname cfg) (bc_AddHosts cfg)) ≫= λ _,
  must (writeResolvConf etcResolvConfPath (bc_DNSServers cfg)) ≫= λ _,
  (if bc_NoNetwork cfg then Ret tt else bringUpNetwork networkInterface (bc_MTU cfg)) ≫= λ _,
  must (mountExtraDisks (bc_Disks cfg)) ≫= λ _,
  (if 0 <? bc_ZramPct cfg then enableZram (bc_ZramPct cfg) else Ret tt) ≫= λ _,
  (if decide (bc_SwapDevice cfg = "") then Ret tt else enableSwap (bc_SwapDevice cfg) (bc_EncryptSwap cfg)) ≫= λ _,
  (if decide (bc_Workspace cfg = "") then Ret tt
   else must (startGuestFused guestFusedPath) ≫= λ _, must (waitForWorkspaceMount procMountsPath (bc_Workspace cfg) workspaceWaitMax)) ≫= λ _,
  must (mountVirtioFS (bc_VirtioFS cfg)) ≫= λ _,
  must (maskVirtioFSPaths (bc_VirtioFSMask cfg)).

Definition runInit : prog unit :=
  prepare ≫= λ _,
  act Environ ≫= λ env,
  act (Exec guestAgentPath [guestAgentPath] env) ≫= λ err,
  match err with Some _ => Halt (Exited ErrExecGuestAgent) | None => Halt Replaced end.

(** [main]: what the binary is, by the name it is run as. *)
Definition runtimeRole (arg0 : string) : string :=
  let name := Base arg0 in
  if decide (name = "guest-agent" ∨ name = "guest-fused") then name else "init".
End init.
