(* ===== verification/GuestInitSpec.v ===== *)
(** * What the guest's init does

    In every run: the agent is started only over the root, the disks, the workspace, the shares
    and the masks of the configuration, in that order; and init ends. *)

From Stdlib Require Import Floats.SpecFloat.
From S2P Require Import Prelude GoStrings GoStd GoPath GoJson GoNet Api ApiConfig Boot BootConfig BootSpec GuestInit.

(** ** Runs *)

Lemma runs_bind {A B} (p : prog A) (f : A → prog B) t r :
  runs (p ≫= f) t r ↔
  (∃ h, r = Err h ∧ runs p t (Err h)) ∨ (∃ a t1 t2, t = t1 ++ t2 ∧ runs p t1 (Ok a) ∧ runs (f a) t2 r).
Proof.
  revert t. unfold mbind, prog_mbind. induction p as [a|h|c k IH]; intros t; cbn [prog_bind runs].
  - split; [intros H; right; by exists a, [], t|]. intros [(h & _ & _ & ?)|(a' & t1 & t2 & -> & [-> [= ->]] & Hr)]; [done|exact Hr].
  - split; [intros [-> ->]; left; by exists h|]. intros [(h' & -> & -> & [= ->])|(a' & t1 & t2 & _ & [_ ?] & _)]; done.
  - split.
    + intros (x & t' & -> & [(h & -> & H)|(a & t1 & t2 & -> & H1 & H2)]%IH).
      * left. exists h. split; [done|]. by exists x, t'.
      * right. exists a, (Ev c x :: t1), t2. split_and!; [done| |done]. by exists x, t1.
    + intros [(h & -> & x & t' & -> & H)|(a & t1 & t2 & -> & (x & t' & -> & H1) & H2)]; exists x; eexists.
      * split; [done|]. apply IH. left. by exists h.
      * split; [by rewrite <- app_comm_cons|]. apply IH. right. by exists a, t', t2.
Qed.

Lemma runs_act c t r : runs (act c) t r ↔ ∃ x, t = [Ev c x] ∧ r = Ok x.
Proof. unfold act. cbn [runs]. split; [intros (x & t' & -> & -> & ->)|intros (x & -> & ->)]; naive_solver. Qed.

Lemma run_runs {A S} (kernel : ∀ c, S → answer c * S) (p : prog A) s :
  runs p (run kernel p s).1.1 (run kernel p s).1.2.
Proof.
  revert s. induction p as [a|h|c k IH]; intros s; cbn [run runs fst snd]; [done|done|].
  eexists _, _. split; [done|]. apply IH.
Qed.

(** A run that goes on has made each step. *)
Lemma runs_bind_Ok {A B} (p : prog A) (f : A → prog B) t b :
  runs (p ≫= f) t (Ok b) → ∃ a t1 t2, t = t1 ++ t2 ∧ runs p t1 (Ok a) ∧ runs (f a) t2 (Ok b).
Proof. intros [(h & ? & _)|H]%runs_bind; [done|exact H]. Qed.

Lemma runs_must p t u : runs (must p) t (Ok u) → runs p t (Ok None).
Proof.
  intros (e & t1 & t2 & -> & H1 & H2)%runs_bind_Ok. destruct e as [e|]; cbn [runs] in H2; destruct H2 as [-> H2]; [done|].
  by rewrite app_nil_r.
Qed.

Lemma runs_check {E} (e : E) (k : prog (option E)) (p : prog (option os_error)) t :
  runs (check e p k) t (Ok None) → ∃ t1 t2, t = t1 ++ t2 ∧ runs p t1 (Ok None) ∧ runs k t2 (Ok None).
Proof.
  intros (x & t1 & t2 & -> & H1 & H2)%runs_bind_Ok. destruct x as [x|]; cbn [runs] in H2; [by destruct H2|].
  by exists t1, t2.
Qed.

(** What a program calls, and how it may halt. *)
Fixpoint within {A} (P : call → Prop) (H : halt → Prop) (p : prog A) : Prop :=
  match p with Ret _ => True | Halt h => H h | Act c k => P c ∧ ∀ x, within P H (k x) end.

Lemma within_bind {A B} P H (p : prog A) (f : A → prog B) : within P H p → (∀ a, within P H (f a)) → within P H (p ≫= f).
Proof.
  intros Hp Hf. unfold mbind, prog_mbind. induction p as [a|h|c k IH]; cbn [prog_bind within] in *; [apply Hf|done|].
  destruct Hp as [Hc Hk]. split; [done|]. intros x. by apply IH.
Qed.

Lemma within_runs {A} P H (p : prog A) t r :
  within P H p → runs p t r → Forall (λ e, P (ev_call e)) t ∧ (∀ h, r = Err h → H h).
Proof.
  revert t. induction p as [a|h|c k IH]; intros t; cbn [within runs].
  - intros _ [-> ->]. by split.
  - intros Hh [-> ->]. split; [done|]. by intros h' [= <-].
  - intros [Hc Hk] (x & t' & -> & Hr). destruct (IH x t' (Hk x) Hr). split; [by constructor|done].
Qed.

Lemma within_in_order P H l : Forall (within P H) l → within P H (in_order l).
Proof. induction 1 as [|p l Hp _ IH]; cbn [in_order]; [done|]. by apply within_bind. Qed.

(** Steps through a program, call by call. *)
Ltac within_step :=
  lazymatch goal with
  | |- within _ _ (Ret _) => exact I
  | |- within _ _ (Halt _) => cbn [within]
  | |- within _ _ (act _) => unfold act; split; [|intros ?; exact I]
  | |- within _ _ (_ ≫= _) => apply within_bind; [|intros ?]
  | |- within _ _ (if ?b then _ else _) => destruct b
  | |- within _ _ (match ?x with _ => _ end) => destruct x
  | |- within _ _ (check _ _ _) => unfold check
  | |- within _ _ (must _) => unfold must
  | |- within _ _ (ignore _) => unfold ignore
  | |- within _ _ (warn_if _ _) => unfold warn_if
  | |- within _ _ (closing _ _) => unfold closing
  | |- within _ _ (dmIoctl _ _ _ _) => unfold dmIoctl
  | |- within _ _ (pathExists _) => unfold pathExists
  | |- within _ _ (start_dhcp _ _ _) => unfold start_dhcp
  | |- within _ _ (swapon _ _ _) => unfold swapon
  | |- within _ _ (in_order _) => apply within_in_order
  end.
Ltac within := repeat within_step.

Lemma within_weaken {A} (P Q : call → Prop) (H K : halt → Prop) (p : prog A) :
  (∀ c, P c → Q c) → (∀ h, H h → K h) → within P H p → within Q K p.
Proof. intros HP HH. induction p as [a|h|c k IH]; cbn [within]; [done|auto|]. intros [? ?]. split; auto. Qed.

(** *** Calls that count *)

Definition is_mount (c : call) : bool := match c with Mount _ _ _ _ _ | PivotRoot _ _ => true | _ => false end.
Definition is_exec (c : call) : bool := match c with Exec _ _ _ => true | _ => false end.

Definition mounts (t : list event) : list call := filter (λ c, is_mount c = true) (ev_call <$> t).
(** The agent, or anything else, was executed in init's place. *)
Definition executes (t : list event) : Prop := Exists (λ e, is_exec (ev_call e) = true) t.

(** Neither mounts nor executes. *)
Definition quiet (c : call) : Prop := is_mount c = false ∧ is_exec c = false.
Definition in_time (h : halt) : Prop := h ≠ OutOfRounds.

Lemma mounts_app t u : mounts (t ++ u) = mounts t ++ mounts u.
Proof. unfold mounts. by rewrite fmap_app, filter_app. Qed.

Lemma quiet_mounts t : Forall (λ e, quiet (ev_call e)) t → mounts t = [].
Proof.
  intros Ht. apply list_filter_none. intros c (e & -> & He)%list_elem_of_fmap. rewrite Forall_forall in Ht. destruct (Ht e He) as [-> _]. done.
Qed.

Lemma quiet_run {A} H (p : prog A) t r : within quiet H p → runs p t r → mounts t = [].
Proof. intros Hp Hr. apply quiet_mounts. by apply (within_runs _ _ _ _ _ Hp) in Hr as [? _]. Qed.

Lemma cgroup_quiet : within quiet in_time configureCgroupDelegation.
Proof.
  unfold configureCgroupDelegation, mkdir_ignore. within; try done. apply Forall_forall. intros p (c & -> & _)%list_elem_of_fmap. within; done.
Qed.

Lemma cpu_quiet z cpus : within quiet in_time (configureCPULimit z cpus).
Proof. unfold configureCPULimit. cbn [cpuMaxPaths write_first]. within; done. Qed.

Lemma hostname_quiet h l : within quiet in_time (configureHostname h l).
Proof. unfold configureHostname. within; done. Qed.

Lemma resolv_quiet p l : within quiet in_time (writeResolvConf p l).
Proof. unfold writeResolvConf. within; done. Qed.

Lemma network_quiet i m : within quiet in_time (bringUpNetwork i m).
Proof. unfold bringUpNetwork, setInterfaceMTU, setInterfaceUp, interfaceHasIPv4. within; done. Qed.

Lemma swap_header_quiet p : within quiet in_time (writeSwapHeader p).
Proof. unfold writeSwapHeader. within; done. Qed.

Lemma wait_node_quiet n p : within quiet in_time (wait_node n p).
Proof. induction n as [|n IH]; cbn [wait_node]; within; done. Qed.

Lemma map_swap_quiet minor c d n k : within quiet in_time (map_swap minor c d n k).
Proof. unfold map_swap. within; try done; first [apply wait_node_quiet|apply swap_header_quiet]. Qed.

Lemma swap_quiet minor d e : within quiet in_time (enableSwap minor d e).
Proof.
  unfold enableSwap, setupEncryptedSwap. within; try done; first [apply map_swap_quiet|apply swap_header_quiet].
Qed.

Lemma zram_quiet n : within quiet in_time (enableZram n).
Proof. unfold enableZram. within; try done; apply swap_header_quiet. Qed.

Lemma ready_quiet m w : within quiet in_time (workspace_ready m w).
Proof. unfold workspace_ready, workspaceMounted, workspaceIsFUSE. within; done. Qed.

Lemma fused_quiet p : within quiet in_time (startGuestFused p).
Proof. unfold startGuestFused. within; done. Qed.

Lemma wait_quiet m w d : within quiet (λ _, True) (waitForWorkspaceMount m w d).
Proof.
  unfold waitForWorkspaceMount. within; [done|]. generalize (wait_fuel d). intros n. set (dl := _ + d). induction n as [|n IH]; cbn [wait_rounds].
  - done.
  - within; try done. eapply within_weaken; [| |apply ready_quiet]; done.
Qed.

(** ** What a successful step did *)

Definition disk_events (disks : list diskMount) : list event :=
  d ← disks; if decide (dm_Device d = "" ∨ dm_Path d = "") then []
             else [Ev (MkdirAll (dm_Path d) mode_0755) None;
                   Ev (Mount (PathJoin ["/dev"; dm_Device d]) (dm_Path d) "ext4" (ro_flags (dm_ReadOnly d)) "") None].

Definition share_events (mounts : list virtioFSMount) : list event :=
  m ← mounts; [Ev (MkdirAll (vm_Path m) mode_0755) None;
               Ev (Mount (vm_Tag m) (vm_Path m) "virtiofs" (ro_flags (vm_ReadOnly m)) "") None].

(** Each path is absent, or has [/dev/null] over it. *)
Inductive masked : list string → list event → Prop :=
| masked_nil : masked [] []
| masked_absent p e paths t : masked paths t → masked (p :: paths) (Ev (Stat p) (Some e) :: t)
| masked_over p paths t : masked paths t → masked (p :: paths) (Ev (Stat p) None :: Ev (Mount "/dev/null" p "" MS_BIND "") None :: t).

Definition mkdir_events (dirs : list string) : list event := (λ d, Ev (MkdirAll d mode_0755) None) <$> dirs.

Fixpoint lower_events (i : nat) (devices : list string) : list event :=
  match devices with
  | [] => []
  | dev :: devices' =>
      Ev (MkdirAll (lower_dir i) mode_0755) None :: Ev (Mount (PathJoin ["/dev"; dev]) (lower_dir i) "erofs" MS_RDONLY "") None
        :: lower_events (S i) devices'
  end.

(** The lower images read-only, the upper one, the overlay of them all, and that as the root. *)
Definition overlay_events (cfg : overlayBootConfig) : list event :=
  mkdir_events [overlayLowerMount; overlayUpperMount; overlayMergedRoot] ++ lower_events 0 (ov_LowerDevices cfg)
  ++ [Ev (Mount (PathJoin ["/dev"; ov_UpperDevice cfg]) overlayUpperMount "ext4" 0 "") None]
  ++ mkdir_events [overlayUpperDir; overlayWorkDir]
  ++ [Ev (Mount "overlay" overlayMergedRoot "overlay" 0 (overlay_opts (length (ov_LowerDevices cfg)))) None]
  ++ mkdir_events [putOld] ++ [Ev (PivotRoot overlayMergedRoot putOld) None; Ev (Chdir "/") None].

(** A call whose error ends the step. *)
Ltac checked H :=
  apply runs_check in H as (? & ? & -> & [? [-> [= <-]]]%runs_act & H).

Lemma disks_did disks t : runs (mountExtraDisks disks) t (Ok None) → t = disk_events disks.
Proof.
  revert t. induction disks as [|d disks IH]; intros t; cbn [mountExtraDisks]; [by intros [-> _]|]. unfold disk_events. rewrite bind_cons. fold (disk_events disks).
  destruct (decide _); [apply IH|]. intros H. checked H. checked H. by rewrite (IH _ H).
Qed.

Lemma shares_did l t : runs (mountVirtioFS l) t (Ok None) → t = share_events l.
Proof.
  revert t. induction l as [|m l IH]; intros t; cbn [mountVirtioFS]; [by intros [-> _]|]. unfold share_events. rewrite bind_cons. fold (share_events l).
  intros H. checked H. checked H. by rewrite (IH _ H).
Qed.

Lemma masks_did l t : runs (maskVirtioFSPaths l) t (Ok None) → masked l t.
Proof.
  revert t. induction l as [|p l IH]; intros t; cbn [maskVirtioFSPaths]; [intros [-> _]; constructor|].
  intros (x & t1 & t2 & -> & (y & -> & [= <-])%runs_act & H)%runs_bind_Ok. destruct x as [e|].
  - apply masked_absent. by apply IH.
  - checked H. apply masked_over. by apply IH.
Qed.

Lemma mkdirs_did dirs k t : runs (mkdirs dirs k) t (Ok None) → ∃ u, t = mkdir_events dirs ++ u ∧ runs k u (Ok None).
Proof.
  revert t. induction dirs as [|d dirs IH]; intros t; cbn [mkdirs]; [by exists t|]. intros H. checked H.
  destruct (IH _ H) as (u & -> & Hu). by exists u.
Qed.

Lemma lowers_did i devices fsTypes k t :
  runs (mount_lowers i devices fsTypes k) t (Ok None) → ∃ u, t = lower_events i devices ++ u ∧ runs k u (Ok None).
Proof.
  revert i t. induction devices as [|d devices IH]; intros i t; cbn [mount_lowers]; [by exists t|].
  destruct (match fsTypes !! i with Some t0 => _ | None => _ end); [by intros [_ ?]|]. intros H. checked H. checked H.
  destruct (IH _ _ H) as (u & -> & Hu). by exists u.
Qed.

Lemma overlay_did cfg t : runs (setupOverlayRoot cfg) t (Ok None) → t = overlay_events cfg.
Proof.
  unfold setupOverlayRoot, overlay_events. destruct (decide _); [by intros [_ ?]|].
  intros (u & -> & (v & -> & H)%lowers_did)%mkdirs_did. checked H. apply mkdirs_did in H as (w & -> & H). checked H.
  apply mkdirs_did in H as (z & -> & H). checked H. checked H. by destruct H as [-> _].
Qed.

(** *** Files, and the workspace *)

Definition wrote (p data : string) (t : list event) : Prop := Ev (WriteFile p data mode_0644) None ∈ t.

Lemma hostname_did h l t :
  runs (configureHostname h l) t (Ok None) →
  wrote etcHostnamePath (init_hostname h +:+ eol) t ∧ wrote etcHostsPath (renderEtcHosts (init_hostname h) l) t.
Proof.
  unfold configureHostname. intros (u & t1 & t2 & -> & _ & H)%runs_bind_Ok. checked H. checked H. destruct H as [-> _].
  unfold wrote. split; apply elem_of_app; right; set_solver.
Qed.

Lemma resolv_did p l t : runs (writeResolvConf p l) t (Ok None) → wrote p (nameserver_lines l) t.
Proof.
  unfold writeResolvConf. intros (x & t1 & t2 & -> & _ & H)%runs_bind_Ok. unfold wrote. apply elem_of_app. right.
  destruct x as [[|e]|]; [|by destruct H|]; checked H; destruct H as [-> _]; set_solver.
Qed.

(** The kernel's list of mounts has the workspace's. *)
Definition listed (workspace content : string) : Prop :=
  ∃ line, line ∈ raw_lines content ∧ is_workspace_line workspace (drop_cr line) = true.

(** The last thing seen is the workspace, in the list of mounts and as a FUSE file system. *)
Definition workspace_up (workspace : string) (t : list event) : Prop :=
  ∃ t0 fd content err type, t = t0 ++ [Ev (ReadAll fd) (content, err); Ev (Close fd) tt; Ev (Statfs workspace) (Ok type)]
    ∧ uint64 type = fuseSuperMagic ∧ listed workspace content.

Lemma workspace_up_app w t u : workspace_up w u → workspace_up w (t ++ u).
Proof. intros (t0 & fd & ct & e & ty & -> & H). exists (t ++ t0), fd, ct, e, ty. by rewrite <- app_assoc. Qed.

Lemma scan_listed w lines rest : scan_mounts w lines rest = Ok true → ∃ line, line ∈ lines ∧ is_workspace_line w (drop_cr line) = true.
Proof.
  induction lines as [|l lines IH]; cbn [scan_mounts]; [by destruct rest|]. destruct (_ <=? _); [done|].
  destruct (is_workspace_line w (drop_cr l)) eqn:Hl; [intros _; exists l; set_solver|]. intros (x & Hx & Hw)%IH. exists x. set_solver.
Qed.

Lemma mounted_did m w t :
  runs (workspaceMounted m w) t (Ok (Ok true)) →
  ∃ t0 fd content err, t = t0 ++ [Ev (ReadAll fd) (content, err); Ev (Close fd) tt] ∧ listed w content.
Proof.
  unfold workspaceMounted, closing. intros (f & t1 & t2 & -> & _ & H)%runs_bind_Ok. destruct f as [fd|e]; [|by destruct H].
  apply runs_bind_Ok in H as (a & t3 & t4 & -> & H & (c & t5 & t6 & -> & (? & -> & _)%runs_act & [-> [= <-]])%runs_bind_Ok).
  apply runs_bind_Ok in H as ([content err] & t7 & t8 & -> & (? & -> & [= <-])%runs_act & [-> [= Hs]]). rewrite app_nil_r.
  destruct x. exists t1, fd, content, err. split; [done|]. symmetry in Hs. by apply scan_listed in Hs.
Qed.

Lemma ready_did m w t : runs (workspace_ready m w) t (Ok true) → workspace_up w t.
Proof.
  unfold workspace_ready. intros (r & t1 & t2 & -> & H1 & H)%runs_bind_Ok. destruct r as [[|]|e]; [|by destruct H|].
  - apply mounted_did in H1 as (t0 & fd & content & err & -> & Hl).
    apply runs_bind_Ok in H as (r & t3 & t4 & -> & H2 & H3). unfold workspaceIsFUSE in H2.
    apply runs_bind_Ok in H2 as (ty & t5 & t6 & -> & (? & -> & [= <-])%runs_act & [-> [= ->]]). destruct ty as [ty|e].
    + destruct H3 as [-> [= Ht]]. exists t0, fd, content, err, ty. split_and!; [by rewrite <- app_assoc| |done]. by apply Z.eqb_eq.
    + apply runs_bind_Ok in H3 as (? & ? & ? & _ & _ & [_ ?]). done.
  - apply runs_bind_Ok in H as (? & ? & ? & _ & _ & [_ ?]). done.
Qed.

Lemma wait_did m w d t : runs (waitForWorkspaceMount m w d) t (Ok None) → workspace_up w t.
Proof.
  unfold waitForWorkspaceMount. intros (now & t1 & t2 & -> & _ & H)%runs_bind_Ok. apply workspace_up_app. revert t2 H.
  generalize (wait_fuel d). intros n. induction n as [|n IH]; intros t; cbn [wait_rounds]; [by intros [_ ?]|].
  intros (ready & t3 & t4 & -> & H1 & H)%runs_bind_Ok. destruct ready.
  - destruct H as [-> _]. rewrite app_nil_r. by apply ready_did in H1.
  - apply workspace_up_app. apply runs_bind_Ok in H as (z & t5 & t6 & -> & _ & H). apply workspace_up_app.
    destruct (_ <? z); [by destruct H|]. apply runs_bind_Ok in H as (u & t7 & t8 & -> & _ & H). apply workspace_up_app. by apply IH.
Qed.

(** *** Mounts that may fail *)

Definition early_calls : list call :=
  [Mount "" "/" "" MS_REMOUNT "rw"; MkdirAll "/proc" mode_0555; MkdirAll "/dev" mode_0755;
   Mount "proc" "/proc" "proc" 0 ""; Mount "dev" "/dev" "devtmpfs" 0 ""].

Definition base_calls : list call :=
  [Mount "" "/" "" MS_REMOUNT "rw"; MkdirAll "/proc" mode_0555; MkdirAll "/sys" mode_0555; MkdirAll "/dev" mode_0755;
   MkdirAll "/run" mode_0755; MkdirAll "/tmp" mode_1777; MkdirAll "/sys/fs/bpf" mode_0755; MkdirAll "/sys/fs/cgroup" mode_0755;
   Mount "proc" "/proc" "proc" 0 ""; Mount "sys" "/sys" "sysfs" 0 ""; Mount "dev" "/dev" "devtmpfs" 0 "";
   MkdirAll "/dev/pts" mode_0755; MkdirAll "/dev/shm" mode_1777; MkdirAll "/dev/mqueue" mode_0755;
   Mount "devpts" "/dev/pts" "devpts" 0 ""; Mount "tmpfs" "/dev/shm" "tmpfs" 0 ""; Mount "mqueue" "/dev/mqueue" "mqueue" 0 "";
   Mount "tmpfs" "/run" "tmpfs" 0 ""; Mount "tmpfs" "/tmp" "tmpfs" 0 ""; Mount "bpf" "/sys/fs/bpf" "bpf" 0 "";
   Mount "cgroup2" "/sys/fs/cgroup" "cgroup2" 0 ""].

Lemma in_order_did (l : list call) t u : runs (in_order ((λ c, ignore (act c)) <$> l)) t (Ok u) → ev_call <$> t = l.
Proof.
  revert t. induction l as [|c l IH]; intros t; [by intros [-> _]|]. rewrite fmap_cons. cbn [in_order].
  intros (a & t1 & t2 & -> & (x & t3 & t4 & -> & (y & -> & _)%runs_act & [-> _])%runs_bind_Ok & H)%runs_bind_Ok.
  cbn. f_equal. by apply IH.
Qed.

Lemma early_did t u : runs prepareEarlyFilesystems t (Ok u) → ev_call <$> t = early_calls.
Proof. apply (in_order_did early_calls). Qed.
Lemma base_did t u : runs prepareBaseFilesystems t (Ok u) → ev_call <$> t = base_calls.
Proof. apply (in_order_did base_calls). Qed.

Lemma calls_within P H (l : list call) : Forall P l → within P H (in_order ((λ c, ignore (act c)) <$> l)).
Proof. intros Hl. apply within_in_order. induction Hl; constructor; [within; done|done]. Qed.

Lemma early_within P H : Forall P early_calls → within P H prepareEarlyFilesystems.
Proof. apply (calls_within P H early_calls). Qed.
Lemma base_within P H : Forall P base_calls → within P H prepareBaseFilesystems.
Proof. apply (calls_within P H base_calls). Qed.

(** *** The agent comes last *)

Definition stays (c : call) : Prop := is_exec c = false.

Lemma quiet_stays {A} H (p : prog A) : within quiet H p → within stays (λ _, True) p.
Proof. apply within_weaken; [by intros c []|done]. Qed.

Lemma disks_stay disks : within stays (λ _, True) (mountExtraDisks disks).
Proof. induction disks as [|d disks IH]; cbn [mountExtraDisks]; within; done. Qed.
Lemma shares_stay l : within stays (λ _, True) (mountVirtioFS l).
Proof. induction l as [|m l IH]; cbn [mountVirtioFS]; within; done. Qed.
Lemma masks_stay l : within stays (λ _, True) (maskVirtioFSPaths l).
Proof. induction l as [|p l IH]; cbn [maskVirtioFSPaths]; within; done. Qed.

Lemma mkdirs_stay dirs k : within stays (λ _, True) k → within stays (λ _, True) (mkdirs dirs k).
Proof. intros Hk. induction dirs as [|d dirs IH]; cbn [mkdirs]; within; done. Qed.
Lemma lowers_stay i devices fsTypes k : within stays (λ _, True) k → within stays (λ _, True) (mount_lowers i devices fsTypes k).
Proof. intros Hk. revert i. induction devices as [|d devices IH]; intros i; cbn [mount_lowers]; within; try done; apply IH. Qed.
Lemma overlay_stays cfg : within stays (λ _, True) (setupOverlayRoot cfg).
Proof.
  unfold setupOverlayRoot. destruct (decide _); [done|]. apply mkdirs_stay, lowers_stay.
  repeat first [done | apply mkdirs_stay | progress within].
Qed.

Section init.
Context (int_out_of_range : Z) (Minor : Z → Z) (ParseFloat : string → option spec_float).

Abbreviation prepare := (prepare int_out_of_range Minor ParseFloat).
Abbreviation runInit := (runInit int_out_of_range Minor ParseFloat).
Abbreviation parseBootConfig := (parseBootConfig ParseFloat).

Lemma prepare_stays : within stays (λ _, True) prepare.
Proof.
  unfold GuestInit.prepare, boot_config. within; try done;
    first [apply early_within; by repeat constructor|apply base_within; by repeat constructor
      |apply overlay_stays|eapply quiet_stays, cgroup_quiet|eapply quiet_stays, cpu_quiet|eapply quiet_stays, hostname_quiet
      |eapply quiet_stays, resolv_quiet|eapply quiet_stays, network_quiet|apply disks_stay|eapply quiet_stays, zram_quiet
      |eapply quiet_stays, swap_quiet|eapply quiet_stays, fused_quiet|eapply quiet_stays, wait_quiet|apply shares_stay|apply masks_stay].
Qed.

(** What was done, in this order, when the agent is started with configuration [cfg]. *)
Definition prepared (cfg : bootConfig) (t : list event) : Prop :=
  ∃ t1 t2 t3 masks,
    t = t1 ++ (if ov_Enabled (bc_Overlay cfg) then overlay_events (bc_Overlay cfg) else []) ++ t2 ++ disk_events (bc_Disks cfg)
          ++ t3 ++ share_events (bc_VirtioFS cfg) ++ masks
    ∧ (∃ data, parseBootConfig (Some data) = Ok cfg ∧ Ev (ReadFile procCmdlinePath) (Ok data) ∈ t1)
    ∧ mounts t1 = filter (λ c, is_mount c = true) early_calls
    ∧ mounts t2 = filter (λ c, is_mount c = true) base_calls
    ∧ mounts t3 = []
    ∧ wrote etcHostnamePath (init_hostname (bc_Hostname cfg) +:+ eol) t2
    ∧ wrote etcHostsPath (renderEtcHosts (init_hostname (bc_Hostname cfg)) (bc_AddHosts cfg)) t2
    ∧ wrote etcResolvConfPath (nameserver_lines (bc_DNSServers cfg)) t2
    ∧ (bc_Workspace cfg ≠ "" → workspace_up (bc_Workspace cfg) t3)
    ∧ masked (bc_VirtioFSMask cfg) masks.

Lemma config_did t cfg :
  runs (boot_config ParseFloat) t (Ok cfg) →
  mounts t = [] ∧ ∃ data, parseBootConfig (Some data) = Ok cfg ∧ Ev (ReadFile procCmdlinePath) (Ok data) ∈ t.
Proof.
  unfold boot_config. intros (x & t1 & t2 & -> & (y & -> & [= <-])%runs_act & H)%runs_bind_Ok. destruct x as [data|e].
  - destruct (parseBootConfig (Some data)) as [c|e] eqn:Hp; destruct H as [-> [= ->]]. split; [done|]. exists data. split; [done|]. by left.
  - by destruct H as [_ ?].
Qed.

(** A step that only waits, between others. *)
Ltac stepped H t u := apply runs_bind_Ok in H as (? & t & u & -> & ? & H).

Lemma overlay_part o t u :
  runs (if ov_Enabled o then must (setupOverlayRoot o) else Ret tt) t (Ok u) → t = if ov_Enabled o then overlay_events o else [].
Proof. destruct (ov_Enabled o); [intros H%runs_must; by apply overlay_did|by intros [-> _]]. Qed.

Lemma workspace_did cfg t :
  runs (if decide (bc_Workspace cfg = "") then Ret tt
        else must (startGuestFused guestFusedPath) ≫= λ _, must (waitForWorkspaceMount procMountsPath (bc_Workspace cfg) workspaceWaitMax)) t (Ok tt) →
  mounts t = [] ∧ (bc_Workspace cfg ≠ "" → workspace_up (bc_Workspace cfg) t).
Proof.
  destruct (decide _) as [He|Hne]; [intros [-> _]; by split|].
  intros (u & t1 & t2 & -> & H1%runs_must & H2%runs_must)%runs_bind_Ok. split.
  - by rewrite mounts_app, (quiet_run _ _ _ _ (fused_quiet _) H1), (quiet_run _ _ _ _ (wait_quiet _ _ _) H2).
  - intros _. apply workspace_up_app. by apply wait_did in H2.
Qed.

Lemma quiet_when {A} H (b : bool) (p q : prog A) t r :
  within quiet H p → within quiet H q → runs (if b then p else q) t r → mounts t = [].
Proof. intros Hp Hq. destruct b; by eapply quiet_run. Qed.

Lemma quiet_swap cfg t u :
  runs (if decide (bc_SwapDevice cfg = "") then Ret tt else enableSwap Minor (bc_SwapDevice cfg) (bc_EncryptSwap cfg)) t (Ok u) → mounts t = [].
Proof. destruct (decide _); [by intros [-> _]|]. apply quiet_run with in_time, swap_quiet. Qed.

Lemma mounts_calls t l : ev_call <$> t = l → mounts t = filter (λ c, is_mount c = true) l.
Proof. by intros <-. Qed.

Lemma wrote_in p d t u v : wrote p d u → wrote p d (t ++ u ++ v).
Proof. unfold wrote. rewrite !elem_of_app. tauto. Qed.

Lemma prepare_did t : runs prepare t (Ok tt) → ∃ cfg, prepared cfg t.
Proof.
  unfold GuestInit.prepare. intros H.
  apply runs_bind_Ok in H as (u1 & e1 & t1 & -> & He1%early_did%mounts_calls & H).
  apply runs_bind_Ok in H as (cfg & e2 & t2 & -> & [Hm2 (data & Hp & Hr)]%config_did & H).
  apply runs_bind_Ok in H as (u3 & e3 & t3 & -> & ->%overlay_part & H).
  apply runs_bind_Ok in H as (u4 & e4 & t4 & -> & He4%base_did%mounts_calls & H).
  apply runs_bind_Ok in H as (u5 & e5 & t5 & -> & (x & -> & _)%runs_act & H).
  apply runs_bind_Ok in H as (u6 & e6 & t6 & -> & He6%(quiet_run _ _ _ _ cgroup_quiet) & H).
  apply runs_bind_Ok in H as (u7 & e7 & t7 & -> & He7%(quiet_run _ _ _ _ (cpu_quiet _ _)) & H).
  apply runs_bind_Ok in H as (u8 & e8 & t8 & -> & He8%runs_must & H).
  apply runs_bind_Ok in H as (u9 & e9 & t9 & -> & He9%runs_must & H).
  apply runs_bind_Ok in H as (u10 & e10 & t10 & -> & He10%(quiet_when _ _ (Ret tt) _ _ _ I (network_quiet _ _)) & H).
  apply runs_bind_Ok in H as (u11 & e11 & t11 & -> & ->%runs_must%disks_did & H).
  apply runs_bind_Ok in H as (u12 & e12 & t12 & -> & He12%(quiet_when _ _ _ (Ret tt) _ _ (zram_quiet _) I) & H).
  apply runs_bind_Ok in H as (u13 & e13 & t13 & -> & He13%(quiet_swap cfg) & H).
  apply runs_bind_Ok in H as ([] & e14 & t14 & -> & [He14 Hw]%workspace_did & H).
  apply runs_bind_Ok in H as (u15 & e15 & t15 & -> & ->%runs_must%shares_did & H%runs_must%masks_did).
  pose proof (quiet_run _ _ _ _ (hostname_quiet _ _) He8) as Hm8. pose proof (quiet_run _ _ _ _ (resolv_quiet _ _) He9) as Hm9.
  apply hostname_did in He8 as [Hn Hh]. apply resolv_did in He9.
  exists cfg, (e1 ++ e2), ((e4 ++ [Ev (Setenv "PATH" defaultPATH) x] ++ e6 ++ e7) ++ (e8 ++ e9) ++ e10), (e12 ++ e13 ++ e14), t15.
  split; [by rewrite <- !app_assoc|]. split; [exists data; split; [done|]; apply elem_of_app; by right|].
  split; [by rewrite mounts_app, He1, Hm2, app_nil_r|].
  split; [by rewrite !mounts_app, He4, He6, He7, Hm8, Hm9, He10|].
  split; [by rewrite !mounts_app, He12, He13, He14|].
  split_and!; [apply wrote_in, (wrote_in _ _ []); exact Hn|apply wrote_in, (wrote_in _ _ []); exact Hh| | |exact H].
  - apply wrote_in. rewrite <- (app_nil_r (e8 ++ e9)), <- app_assoc. by apply wrote_in.
  - intros Hne. rewrite app_assoc. by apply workspace_up_app, Hw.
Qed.

(** The agent is started last. *)
Lemma agent_last t r :
  runs runInit t r → executes t →
  ∃ t0 env x, runs prepare t0 (Ok tt) ∧ ¬ executes t0
    ∧ t = t0 ++ [Ev Environ env; Ev (Exec guestAgentPath [guestAgentPath] env) x]
    ∧ r = Err (match x with Some _ => Exited ErrExecGuestAgent | None => Replaced end).
Proof.
  unfold GuestInit.runInit. intros Hr He.
  assert (Hstay : ∀ t r, runs prepare t r → ¬ executes t).
  { intros t' r' [Hs _]%(within_runs _ _ _ _ _ prepare_stays). unfold executes. rewrite Exists_exists. intros (e & Hin & Hx).
    rewrite Forall_forall in Hs. specialize (Hs e Hin). unfold stays in Hs. congruence. }
  apply runs_bind in Hr as [(h & -> & Hr)|([] & t1 & t2 & -> & Hr & H)]; [by destruct (Hstay _ _ Hr)|].
  apply runs_bind in H as [(h & _ & (x & _ & ?)%runs_act)|(env & t3 & t4 & -> & (? & -> & [= <-])%runs_act & H)]; [done|].
  apply runs_bind in H as [(h & _ & (x & _ & ?)%runs_act)|(err & t5 & t6 & -> & (? & -> & [= <-])%runs_act & H)]; [done|].
  exists t1, env, err. split; [done|]. split; [by apply (Hstay _ _ Hr)|]. destruct err; by destruct H as [-> ->].
Qed.

(** *** Members of the events *)

Lemma disk_event disks i d :
  disks !! i = Some d → dm_Device d ≠ "" → dm_Path d ≠ "" →
  Ev (Mount (PathJoin ["/dev"; dm_Device d]) (dm_Path d) "ext4" (ro_flags (dm_ReadOnly d)) "") None ∈ disk_events disks.
Proof.
  intros Hi H1 H2. unfold disk_events. apply list_elem_of_bind. exists d. rewrite decide_False by tauto.
  split; [by right; left|]. by eapply list_elem_of_lookup_2.
Qed.

Lemma share_event l m :
  m ∈ l → Ev (Mount (vm_Tag m) (vm_Path m) "virtiofs" (ro_flags (vm_ReadOnly m)) "") None ∈ share_events l.
Proof. intros Hm. unfold share_events. apply list_elem_of_bind. exists m. split; [by right; left|done]. Qed.

Lemma mask_event l t p :
  masked l t → p ∈ l → (∃ e, Ev (Stat p) (Some e) ∈ t) ∨ Ev (Mount "/dev/null" p "" MS_BIND "") None ∈ t.
Proof.
  intros Ht. revert p. induction Ht as [|q e l t _ IH|q l t _ IH]; intros p; [by intros ?%elem_of_nil| |]; intros [->|Hp]%elem_of_cons.
  - left. exists e. by left.
  - destruct (IH p Hp) as [[e' He]|He]; [left; exists e'; by right|right; by right].
  - right. by right; left.
  - destruct (IH p Hp) as [[e' He]|He]; [left; exists e'; by do 2 right|right; by do 2 right].
Qed.

(** ** The theorems *)

(** C14: The agent is started last. In every run in which anything is executed in init's place, it is
    the agent, once, after all of this succeeded in this order: the command line was read; the
    overlay's images were mounted, the lower ones read-only, and made the root; the host's name,
    the aliases and the name servers were written; the disks were mounted, read-only as
    configured; the workspace was seen mounted, as FUSE; the shares were mounted, over it; every
    mask that exists was covered. In between, nothing else is mounted but the system's file
    systems. Otherwise init ended with an error, or panicked. *)
Theorem init_exact t r :
  runs runInit t r → executes t →
  ∃ cfg t0 env x,
    prepared cfg t0 ∧ ¬ executes t0
    ∧ t = t0 ++ [Ev Environ env; Ev (Exec guestAgentPath [guestAgentPath] env) x]
    ∧ r = Err (match x with Some _ => Exited ErrExecGuestAgent | None => Replaced end).
Proof.
  intros Hr He. destruct (agent_last t r Hr He) as (t0 & env & x & Hp & H). apply prepare_did in Hp as [cfg Hc]. by exists cfg, t0, env, x.
Qed.

(** C4: From the host's configuration to the guest's mounts. When the command line is the one that a
    back end wrote for [c] and the agent was started, every extra disk of [c] is mounted from the
    drive that holds its file, at its mount point, read-only if it is; and, where there are
    shares, every share is mounted with its access and every masked path is absent or covered. *)
Theorem machine_mounts_exact format_g (shares : bool) c t r :
  bootable format_g ParseFloat c → runs runInit t r → executes t →
  (∀ x, Ev (ReadFile procCmdlinePath) x ∈ t → x = Ok (if shares then darwin_kernel_args format_g c else linux_kernel_args format_g c)) →
  (∀ i disk, vc_ExtraDisks c !! i = Some disk →
    ∃ device, backed_by c device (dc_HostPath disk) (dc_ReadOnly disk)
      ∧ Ev (Mount (PathJoin ["/dev"; device]) (dc_GuestMount disk) "ext4" (ro_flags (dc_ReadOnly disk)) "") None ∈ t)
  ∧ (shares = true → (∀ s, s ∈ vc_VirtioFSShares c →
        Ev (Mount (vs_Tag s) (vs_GuestMount s) "virtiofs" (ro_flags (vs_ReadOnly s)) "") None ∈ t)
      ∧ (∀ p, p ∈ vc_VirtioFSMaskPaths c →
        (∃ e, Ev (Stat p) (Some e) ∈ t) ∨ Ev (Mount "/dev/null" p "" MS_BIND "") None ∈ t)).
Proof.
  intros Hb Hr He Hx. destruct (agent_last t r Hr He) as (t0 & env & x & Hp & _ & -> & _).
  apply prepare_did in Hp as (cfg & t1 & t2 & t3 & masks & -> & (data & Hd & Hin) & _ & _ & _ & _ & _ & _ & _ & Hm).
  specialize (Hx (Ok data)). rewrite !elem_of_app in Hx. specialize (Hx (or_introl (or_introl Hin))). injection Hx as ->.
  assert (Hcfg : cfg = guest_config shares c).
  { destruct shares; [rewrite darwin_config in Hd by done|rewrite linux_config in Hd by done]; by injection Hd. }
  subst cfg. cbn [guest_config bc_Disks bc_VirtioFS bc_VirtioFSMask] in *. split.
  - intros i disk Hi. exists (device_name (disk_letter c + Z.of_nat i)). split; [by eapply disk_drive|]. rewrite !elem_of_app.
    left; right; right; right; left.
    apply (disk_event _ i {| dm_Device := device_name (disk_letter c + Z.of_nat i); dm_Path := dc_GuestMount disk; dm_ReadOnly := dc_ReadOnly disk |}).
    + unfold guest_disks. by rewrite list_lookup_imap, Hi.
    + unfold device_name. by intros [? _]%sapp_eq_nil.
    + pose proof (bt_disks _ _ _ Hb) as Hv. eapply Forall_lookup_1 in Hv; [|exact Hi]. by apply valid_mount in Hv as [(_ & _ & ?) _].
  - intros ->. split.
    + intros s Hs. rewrite !elem_of_app. left; do 5 right; left. apply (share_event _ (guest_share s)).
      apply list_elem_of_fmap. by exists s.
    + intros p Hin'. destruct (mask_event _ _ p Hm Hin') as [[e Hev]|Hev]; [left; exists e|right]; rewrite !elem_of_app; left; by do 6 right.
Qed.

Definition file_text (x : result os_error string) : option string := match x with Ok s => Some s | Err _ => None end.

(** Every run reads the command line, after its first mounts, and a command line that cannot be
    read or parsed is the end: nothing else is called, and the error is the parser's. *)
Theorem refused_boot t r :
  runs runInit t r →
  ∃ t1 x t2, t = t1 ++ Ev (ReadFile procCmdlinePath) x :: t2 ∧ ev_call <$> t1 = early_calls
    ∧ ∀ e, parseBootConfig (file_text x) = Err e → t2 = [] ∧ r = Err (Exited e).
Proof.
  unfold GuestInit.runInit, GuestInit.prepare. intros Hr.
  assert (Hnh : ∀ h t, ¬ runs prepareEarlyFilesystems t (Err h)).
  { intros h t' H. apply (within_runs (λ _, True) (λ _, False)) in H as [_ H]; [by apply (H h)|]. apply early_within. by repeat constructor. }
  assert (Hc : ∀ t r, runs (boot_config ParseFloat) t r → ∃ x, t = [Ev (ReadFile procCmdlinePath) x]
    ∧ r = match parseBootConfig (file_text x) with Ok c => Ok c | Err e => Err (Exited e) end).
  { unfold boot_config, act. cbn [mbind prog_mbind prog_bind runs]. intros t' r' (x & t'' & -> & H). exists x. unfold file_text.
    destruct (parseBootConfig _); by destruct H as [-> ->]. }
  apply runs_bind in Hr as [(h & -> & Hr)|(u & t1 & t2 & -> & Hr & _)].
  - apply runs_bind in Hr as [(h' & _ & H)|(u & t1 & t2 & -> & He%early_did & H)]; [by apply Hnh in H|].
    exists t1. apply runs_bind in H as [(h' & [= <-] & H)|(cfg & t3 & t4 & -> & (x & -> & Hx)%Hc & _)].
    + apply Hc in H as (x & -> & Hx). exists x, []. split_and!; [done|done|]. intros e He'. rewrite He' in Hx. by injection Hx as ->.
    + exists x, t4. split_and!; [done|done|]. intros e He'. by rewrite He' in Hx.
  - apply runs_bind_Ok in Hr as (u' & t3 & t4 & -> & He%early_did & H).
    apply runs_bind_Ok in H as (cfg & t5 & t6 & -> & (x & -> & Hx)%Hc & _).
    exists t3, x, (t6 ++ t2). split_and!; [by rewrite <- !app_assoc|done|]. intros e He'. by rewrite He' in Hx.
Qed.

End init.

(** *** Time *)

(** The monotonic clock of a kernel: it never goes back, and a sleep takes its time. *)
Class Clock {S} (kernel : ∀ c, S → answer c * S) (clock : S → Z) := {
  clock_now : ∀ s, (kernel Now s).1 = clock s;
  clock_monotone : ∀ c s, clock s <= clock (kernel c s).2;
  clock_sleep : ∀ d s, clock s + d <= clock (kernel (Sleep d) s).2 }.

Section time.
Context {S : Type} (kernel : ∀ c, S → answer c * S) (clock : S → Z) `{!Clock kernel clock}.

Lemma run_bind {A B} (p : prog A) (f : A → prog B) s :
  run kernel (p ≫= f) s =
  let r := run kernel p s in
  match r.1.2 with
  | Ok a => let q := run kernel (f a) r.2 in (r.1.1 ++ q.1.1, q.1.2, q.2)
  | Err h => (r.1.1, Err h, r.2)
  end.
Proof.
  unfold mbind, prog_mbind. revert s. induction p as [a|h|c k IH]; intros s; cbn [prog_bind run fst snd].
  - by destruct (run kernel (f a) s) as [[]].
  - done.
  - rewrite IH. destruct (run kernel (k _) _) as [[t [a|h]] s']; reflexivity.
Qed.

Lemma run_clock {A} (p : prog A) s : clock s <= clock (run kernel p s).2.
Proof.
  revert s. induction p as [a|h|c k IH]; intros s; cbn [run snd]; [lia|lia|].
  pose proof (clock_monotone c s). pose proof (IH (kernel c s).1 (kernel c s).2). lia.
Qed.

(** [p] does not run out of rounds. *)
Definition ends {A} (p : prog A) : Prop := ∀ s, (run kernel p s).1.2 ≠ Err OutOfRounds.

Lemma ends_bind {A B} (p : prog A) (f : A → prog B) : ends p → (∀ a, ends (f a)) → ends (p ≫= f).
Proof.
  intros Hp Hf s. rewrite run_bind. specialize (Hp s). destruct (run kernel p s) as [[t [a|h]] s']; [apply Hf|].
  cbn in *. intros [= ->]. by apply Hp.
Qed.

Lemma ends_within {A} P (p : prog A) : within P in_time p → ends p.
Proof.
  intros Hp s Hr. destruct (within_runs _ _ _ _ _ Hp (run_runs kernel p s)) as [_ H]. by destruct (H _ Hr).
Qed.

Lemma ends_rounds n mountsPath workspace deadline s :
  deadline < clock s + (Z.of_nat n - 1) * workspaceWaitStep → (0 < n)%nat →
  (run kernel (wait_rounds n mountsPath workspace deadline) s).1.2 ≠ Err OutOfRounds.
Proof.
  revert s. induction n as [|n IH]; intros s Hd Hn; [lia|]. cbn [wait_rounds]. rewrite run_bind. cbv zeta.
  pose proof (ends_within _ _ (ready_quiet mountsPath workspace) s) as Hr.
  pose proof (run_clock (workspace_ready mountsPath workspace) s) as Hc1.
  destruct (run kernel (workspace_ready _ _) s) as [[t1 [[]|h]] s1]; [done| |cbn in *; intros [= ->]; by apply Hr]. cbn [fst snd] in *.
  rewrite run_bind. cbn [run act fst snd]. rewrite clock_now. pose proof (clock_monotone Now s1) as Hc2.
  set (s2 := (kernel Now s1).2) in *. destruct (Z.ltb_spec deadline (clock s1)) as [Hlt|Hge]; [done|].
  rewrite run_bind. cbn [run act fst snd]. pose proof (clock_sleep workspaceWaitStep s2) as Hc3.
  apply IH; [|destruct n; [lia|lia]]. lia.
Qed.

Lemma ends_wait mountsPath workspace timeout : 0 <= timeout → ends (waitForWorkspaceMount mountsPath workspace timeout).
Proof.
  intros Ht s. unfold waitForWorkspaceMount. rewrite run_bind. cbn [run act fst snd]. rewrite clock_now.
  apply ends_rounds; [|unfold wait_fuel; lia]. pose proof (clock_monotone Now s). unfold wait_fuel.
  assert (Hs : 0 < workspaceWaitStep) by done. pose proof (Z.mul_succ_div_gt timeout workspaceWaitStep Hs).
  assert (0 <= timeout / workspaceWaitStep) by (apply Z.div_pos; lia). nia.
Qed.

Lemma ends_when {A} (b : bool) (p q : prog A) : ends p → ends q → ends (if b then p else q).
Proof. by destruct b. Qed.

Lemma ends_must p : ends p → ends (must p).
Proof. intros Hp. unfold must. apply ends_bind; [done|]. by intros [e|] s. Qed.

Lemma in_time_steps {A} (p : prog A) : within (λ _, True) in_time p → ends p.
Proof. apply ends_within. Qed.

Lemma ends_disks disks : ends (mountExtraDisks disks).
Proof. apply in_time_steps. induction disks as [|d disks IH]; cbn [mountExtraDisks]; within; done. Qed.
Lemma ends_shares l : ends (mountVirtioFS l).
Proof. apply in_time_steps. induction l as [|m l IH]; cbn [mountVirtioFS]; within; done. Qed.
Lemma ends_masks l : ends (maskVirtioFSPaths l).
Proof. apply in_time_steps. induction l as [|p l IH]; cbn [maskVirtioFSPaths]; within; done. Qed.

Lemma ends_overlay cfg : ends (setupOverlayRoot cfg).
Proof.
  apply in_time_steps. assert (Hd : ∀ l k, within (λ _, True) in_time k → within (λ _, True) in_time (mkdirs l k)).
  { intros l k Hk. induction l as [|d l IH]; cbn [mkdirs]; within; done. }
  assert (Hl : ∀ l i f k, within (λ _, True) in_time k → within (λ _, True) in_time (mount_lowers i l f k)).
  { intros l. induction l as [|d l IH]; intros i f k Hk; cbn [mount_lowers]; within; try done; by apply IH. }
  unfold setupOverlayRoot. destruct (decide _); [done|]. apply Hd, Hl. repeat first [done | apply Hd | progress within].
Qed.

Lemma ends_prepare z minor pf : ends (prepare z minor pf).
Proof.
  unfold prepare, boot_config.
  repeat lazymatch goal with
    | |- ends (_ ≫= _) => apply ends_bind; [|intros ?]
    | |- ends (if decide _ then _ else _) => case_decide
    | |- ends (if _ then _ else _) => apply ends_when
    | |- ends (must _) => apply ends_must
    | |- ends (match _ with _ => _ end) => case_match
    | |- ends (Ret _) => by intros ?
    | |- ends (Halt _) => by intros ?
    | |- ends (act _) => apply in_time_steps; by within
    | |- ends (mountExtraDisks _) => apply ends_disks
    | |- ends (mountVirtioFS _) => apply ends_shares
    | |- ends (maskVirtioFSPaths _) => apply ends_masks
    | |- ends (setupOverlayRoot _) => apply ends_overlay
    | |- ends (waitForWorkspaceMount _ _ _) => by apply ends_wait
    | |- ends prepareEarlyFilesystems => by apply in_time_steps, early_within; repeat constructor
    | |- ends prepareBaseFilesystems => by apply in_time_steps, base_within; repeat constructor
    end; eauto using ends_within, cgroup_quiet, cpu_quiet, hostname_quiet, resolv_quiet, network_quiet, zram_quiet, swap_quiet, fused_quiet.
Qed.

(** C26: Init ends: whatever the kernel answers, if only its clock goes on. It exits with an error,
    panics, or is replaced by the agent; the wait for the workspace, which is a loop without a
    bound of its own, is over by the round after the one at its deadline. *)
Theorem init_ends z minor pf s :
  ∃ h, (run kernel (runInit z minor pf) s).1.2 = Err h ∧ h ≠ OutOfRounds.
Proof.
  assert (Hend : ends (runInit z minor pf)).
  { unfold runInit. apply ends_bind; [apply ends_prepare|intros _]. apply in_time_steps. within; done. }
  assert (Herr : ∀ t u, ¬ runs (runInit z minor pf) t (Ok u)).
  { intros t u H. unfold runInit in H. apply runs_bind_Ok in H as (? & ? & ? & _ & _ & H).
    apply runs_bind_Ok in H as (? & ? & ? & _ & _ & H). apply runs_bind_Ok in H as (err & ? & ? & _ & _ & H).
    destruct err; by destruct H as [_ ?]. }
  pose proof (run_runs kernel (runInit z minor pf) s) as Hr. specialize (Hend s).
  destruct (run kernel (runInit z minor pf) s) as [[t [u|h]] s']; [by destruct (Herr _ _ Hr)|]. exists h. split; [done|]. intros ->. by apply Hend.
Qed.
End time.
