(* ===== verification/GuestFiles.v ===== *)
(** * What the guest's init writes: tables of names, swap headers, device-mapper requests

    The files and buffers of [GuestInit], against readers written from the formats they are in:
    hosts(5), resolv.conf(5), the kernel's swap header and its device-mapper ioctls. *)

From Stdlib Require Import Floats.SpecFloat.
From S2P Require Import Prelude GoStrings GoStd GoPath GoJson GoNet Api ApiConfig Boot BootConfig BootSpec GuestInit.

(** ** Lines *)

Lemma raw_lines_line l s : contains_byte newline l = false → raw_lines (l +:+ eol +:+ s) = l :: raw_lines s.
Proof.
  intros Hl. unfold raw_lines, eol. change (String newline "" +:+ s) with (String newline s). rewrite Split_app_sep by done.
  pose proof (Split_nonempty s newline) as Hne. destruct (Split s newline) as [|x parts]; [done|].
  change (last (l :: x :: parts)) with (last (x :: parts)). destruct (last (x :: parts)) as [[|? ?]|]; done.
Qed.

Lemma plain_line s : all_plain s = true → contains_byte newline s = false.
Proof.
  assert (Hc : ∀ c, negb (plain_byte c) || negb (bool_decide (c = newline)) = true) by (apply all_bytes; vm_compute; reflexivity).
  induction s as [|c s IH]; [done|]. cbn [all_plain contains_byte]. intros [H1 H2]%andb_true_iff. specialize (Hc c).
  rewrite H1 in Hc. change (negb (bool_decide (c = newline)) = true) in Hc. apply negb_true_iff in Hc. rewrite Hc. by apply IH.
Qed.

(** ** hosts(5): an address and its names; the rest after a [#] is a comment. *)

Definition without_comment (line : string) : string := match Cut line "#"%char with Some (before, _) => before | None => line end.

Definition hosts_entry (line : string) : option (string * list string) :=
  match Fields (without_comment line) with
  | address :: name :: names => Some (address, name :: names)
  | _ => None
  end.
Definition hosts_table (content : string) : list (string * list string) := omap hosts_entry (raw_lines content).

(** A word that is not cut by a comment. *)
Definition table_word (s : string) : Prop := word s ∧ contains_byte "#" s = false.

Lemma without_comment_id s : contains_byte "#" s = false → without_comment s = s.
Proof. intros Hs. unfold without_comment. destruct (Cut s "#"%char) as [[a b]|] eqn:Hc; [|done].
  apply Cut_Some in Hc as [-> _]. rewrite contains_byte_app in Hs. cbn [contains_byte] in Hs. rewrite bool_decide_eq_true_2 in Hs by done.
  by rewrite orb_true_r in Hs. Qed.

Lemma Fields_words l : Forall word l → Fields (Join l " ") = l.
Proof.
  induction 1 as [|w l [Hp Hne] _ IH]; [done|]. destruct l as [|x l]; [by apply Fields_word|].
  rewrite Join_cons. change (" " +:+ Join (x :: l) " ") with (String " " (Join (x :: l) " ")). by rewrite Fields_space, (Fields_word w), IH.
Qed.

Lemma Join_table l c :
  c ≠ " "%char → Forall (λ s, contains_byte c s = false) l → contains_byte c (Join l " ") = false.
Proof.
  intros Hc. induction 1 as [|s l Hs _ IH]; [done|]. destruct l as [|x l]; [done|].
  rewrite Join_cons, !contains_byte_app, Hs, IH. cbn [contains_byte]. by rewrite bool_decide_eq_false_2.
Qed.

Lemma entry_of_words a n l : Forall table_word (a :: n :: l) → hosts_entry (Join (a :: n :: l) " ") = Some (a, n :: l).
Proof.
  intros Hl. unfold hosts_entry. rewrite without_comment_id.
  - rewrite Fields_words; [done|]. eapply Forall_impl; [exact Hl|]. by intros s [].
  - apply Join_table; [done|]. eapply Forall_impl; [exact Hl|]. by intros s [].
Qed.

Lemma line_of_words l : Forall word l → contains_byte newline (Join l " ") = false.
Proof.
  intros Hl. apply Join_table; [done|]. eapply Forall_impl; [exact Hl|]. intros s [Hs _]. by apply plain_line.
Qed.

(** Words that are given, and those of the source. *)
Ltac words := repeat lazymatch goal with
  | |- Forall _ _ => constructor
  | |- table_word (String _ _) => split; [split|]; done
  | |- table_word _ => assumption
  end.

(** One line of a table. *)
Lemma table_line a n l s :
  Forall table_word (a :: n :: l) → hosts_table (Join (a :: n :: l) " " +:+ eol +:+ s) = (a, n :: l) :: hosts_table s.
Proof.
  intros Hl. unfold hosts_table. rewrite raw_lines_line.
  - cbn [omap list_omap]. by rewrite entry_of_words.
  - apply line_of_words. eapply Forall_impl; [exact Hl|]. by intros w [].
Qed.

Definition named (m : HostIPMapping) : Prop := table_word (him_Host m) ∧ table_word (him_IP m).

Lemma hosts_lines_table l s :
  Forall named l →
  hosts_table (hosts_lines (guest_alias <$> l) +:+ s) = ((λ m, (him_IP m, [him_Host m])) <$> l) ++ hosts_table s.
Proof.
  induction 1 as [|m l [Hh Hi] _ IH]; [done|]. rewrite !fmap_cons. cbn [hosts_lines guest_alias hm_Host hm_IP].
  rewrite decide_False by (destruct Hh as [[] _], Hi as [[] _]; tauto). rewrite !sapp_assoc.
  rewrite <- (sapp_assoc " ").
  rewrite <- (sapp_assoc (him_IP m)). change (him_IP m +:+ " " +:+ him_Host m) with (Join [him_IP m; him_Host m] " ").
  rewrite table_line by words. by rewrite IH.
Qed.

(** ** resolv.conf(5) *)

Definition nameserver_of (line : string) : option string :=
  match Fields line with ["nameserver"; server] => Some server | _ => None end.
Definition nameservers (content : string) : list string := omap nameserver_of (raw_lines content).

Lemma nameserver_table l : Forall word l → nameservers (nameserver_lines l) = l.
Proof.
  induction 1 as [|w l [Hp Hne] _ IH]; [done|]. cbn [nameserver_lines]. rewrite decide_False, !sapp_assoc by done. unfold nameservers in *.
  rewrite <- (sapp_assoc "nameserver " w). rewrite raw_lines_line.
  - cbn [omap list_omap]. unfold nameserver_of at 1. change ("nameserver " +:+ w) with ("nameserver" +:+ String " " w).
    by rewrite Fields_space, (Fields_word w), IH.
  - rewrite contains_byte_app, (plain_line w) by done. done.
Qed.

Section boot.
Context (format_g : spec_float → string) (ParseFloat : string → option spec_float).

(** The names of the guest are those of the configuration. Its table of hosts gives each alias
    its address, the guest's own name the loopback address, and nothing more but the constant
    lines; its resolver asks the configured servers, in order. *)
Theorem guest_names_exact c g :
  bootable format_g ParseFloat c → table_word (boot_hostname c) → Forall named (vc_AddHosts c) →
  parseBootConfig ParseFloat (Some (linux_kernel_args format_g c)) = Ok g →
  hosts_table (renderEtcHosts (init_hostname (bc_Hostname g)) (bc_AddHosts g))
  = [("127.0.0.1", ["localhost"; "localhost.localdomain"; boot_hostname c])]
    ++ ((λ m, (him_IP m, [him_Host m])) <$> vc_AddHosts c)
    ++ [("::1", ["localhost"; "ip6-localhost"; "ip6-loopback"]); ("ff02::1", ["ip6-allnodes"]); ("ff02::2", ["ip6-allrouters"])]
  ∧ nameservers (nameserver_lines (bc_DNSServers g)) = vc_DNSServers c.
Proof.
  intros Hb Hh Ha Hg. rewrite linux_config in Hg by done. injection Hg as <-. cbn [bc_Hostname bc_AddHosts bc_DNSServers guest_config]. split.
  - unfold init_hostname. rewrite decide_False by (by destruct Hh as [[]]). unfold renderEtcHosts.
    rewrite <- (sapp_assoc _ (boot_hostname c)).
    change ("127.0.0.1 localhost localhost.localdomain " +:+ boot_hostname c)
      with (Join ["127.0.0.1"; "localhost"; "localhost.localdomain"; boot_hostname c] " ").
    rewrite table_line by words. by rewrite hosts_lines_table.
  - apply nameserver_table. destruct (bt_dns _ _ _ Hb) as [_ Hd]. eapply Forall_impl; [exact Hd|]. by intros s (? & _ & ?).
Qed.
End boot.

(** ** Buffers *)

Definition read_at (off n : nat) (buf : bytes) : bytes := take n (drop off buf).
Definition u_at (off n : nat) (buf : bytes) : Z := un_le (read_at off n buf).
(** A string that ends at the first zero byte. *)
Fixpoint cstring (b : bytes) : bytes := match b with [] => [] | c :: b' => if decide (c = zero_byte) then [] else c :: cstring b' end.

Lemma le_length n v : length (le n v) = n.
Proof. revert v. induction n as [|n IH]; intros v; cbn [le length]; [done|by rewrite IH]. Qed.

Lemma un_le_le n v : 0 <= v < 2 ^ (8 * Z.of_nat n) → un_le (le n v) = v.
Proof.
  revert v. induction n as [|n IH]; intros v Hv; cbn [le un_le]; [cbn in Hv; lia|].
  pose proof (Z.mod_pos_bound v 256 ltac:(lia)). rewrite code_chr by lia. rewrite IH; [pose proof (Z.div_mod v 256); lia|].
  replace (8 * Z.of_nat (S n)) with (8 + 8 * Z.of_nat n) in Hv by lia. rewrite Z.pow_add_r in Hv by lia. change (2 ^ 8) with 256 in Hv.
  split; [apply Z.div_pos; lia|]. apply Z.div_lt_upper_bound; lia.
Qed.

Lemma copy_at_in off data buf : (off + length data <= length buf)%nat → copy_at off data buf = take off buf ++ data ++ drop (off + length data) buf.
Proof. intros Hl. unfold copy_at. by rewrite (take_ge data) by lia. Qed.

Lemma copy_at_length off data buf : length (copy_at off data buf) = length buf.
Proof. unfold copy_at. rewrite !length_app, !length_take, length_drop. lia. Qed.

Lemma read_copy off n data buf : length data = n → (off + n <= length buf)%nat → read_at off n (copy_at off data buf) = data.
Proof.
  intros <- Hl. rewrite copy_at_in by done. unfold read_at. rewrite drop_app_length' by (rewrite length_take; lia). by rewrite take_app_length.
Qed.

Lemma read_copy_before off data buf o n :
  (off + length data <= length buf)%nat → (o + n <= off)%nat → read_at o n (copy_at off data buf) = read_at o n buf.
Proof.
  intros Hl Hn. rewrite copy_at_in by done. unfold read_at. rewrite drop_app_le by (rewrite length_take; lia).
  rewrite take_app_le by (rewrite length_drop, length_take; lia). rewrite skipn_firstn_comm, take_take. f_equal. lia.
Qed.

Lemma read_copy_after off data buf o n :
  (off + length data <= length buf)%nat → (off + length data <= o)%nat → read_at o n (copy_at off data buf) = read_at o n buf.
Proof.
  intros Hl Ho. rewrite copy_at_in by done. unfold read_at. f_equal.
  rewrite app_assoc, drop_app_ge by (rewrite length_app, length_take; lia). rewrite length_app, length_take, drop_drop. f_equal. lia.
Qed.

Lemma read_zeros o n k : (o + n <= k)%nat → read_at o n (replicate k zero_byte) = replicate n zero_byte.
Proof. intros Hk. unfold read_at. rewrite drop_replicate, take_replicate. f_equal. lia. Qed.

Lemma un_le_zeros n : un_le (replicate n zero_byte) = 0.
Proof. induction n as [|n IH]; [done|]. cbn [replicate un_le]. by rewrite IH. Qed.

(** Lengths of buffers. *)
Ltac size := rewrite ?copy_at_length, ?length_replicate, ?le_length; cbn [length]; lia.

(** Past the copies made elsewhere. *)
Ltac aside := repeat first [rewrite read_copy_after by size | rewrite read_copy_before by size].

(** *** The swap header: the kernel's [union swap_header] *)

Lemma swap_header_fields last :
  0 <= last < 2 ^ 32 →
  let h := swap_header last in
  length h = 4096%nat ∧ read_at 4086 10 h = string_bytes "SWAPSPACE2" ∧ u_at 1024 4 h = 1 ∧ u_at 1028 4 h = last ∧ u_at 1032 4 h = 0.
Proof.
  intros Hl h. assert (Hm : length (string_bytes "SWAPSPACE2") = 10%nat) by reflexivity. unfold h, swap_header, u_at. split_and!.
  - by rewrite !copy_at_length, length_replicate.
  - apply read_copy; [done|size].
  - rewrite read_copy_before, read_copy_before, read_copy by size. reflexivity.
  - rewrite read_copy_before, read_copy by size. by apply un_le_le.
  - rewrite read_copy_before, read_copy_after, read_copy_after, read_zeros by size. reflexivity.
Qed.

(** C40: A swap device is formatted within its bounds: its header is the kernel's, version 1 with no
    bad pages, and the last page that it names is the last whole page of the device, which has
    at least ten. Devices of 16 TiB and more are taken for smaller ones, never larger. *)
Theorem swap_header_exact devSize last :
  0 <= devSize < 2 ^ 63 → swap_last_page devSize = Some last →
  let h := swap_header last in
  length h = 4096%nat ∧ read_at 4086 10 h = string_bytes "SWAPSPACE2" ∧ u_at 1024 4 h = 1 ∧ u_at 1032 4 h = 0
  ∧ (last + 1) * pageSize <= devSize
  ∧ u_at 1028 4 h = last
  ∧ (devSize < 2 ^ 44 → 9 <= last ∧ devSize < (last + 2) * pageSize).
Proof.
  intros Hd Hs h. unfold swap_last_page in Hs. rewrite int64_id in Hs by (unfold is_int64; lia).
  rewrite Z.quot_div_nonneg in Hs by (unfold pageSize; lia). destruct (Z.ltb_spec (devSize / pageSize) 10) as [|Hge]; [done|].
  injection Hs as <-. set (q := devSize / pageSize) in *.
  assert (Hq : q * pageSize <= devSize < (q + 1) * pageSize).
  { pose proof (Z.div_mod devSize pageSize ltac:(done)). pose proof (Z.mod_pos_bound devSize pageSize ltac:(done)). unfold q. lia. }
  assert (Hr : 0 <= uint32 (q - 1) < 2 ^ 32) by (apply Z.mod_pos_bound; lia).
  assert (Hle : uint32 (q - 1) <= q - 1) by (apply Z.mod_le; lia).
  destruct (swap_header_fields _ Hr) as (H1 & H2 & H3 & H4 & H5). unfold pageSize in *.
  split_and!; [done|done|done|done|lia|done|]. intros Hlt. rewrite uint32_id in * by lia. lia.
Qed.

(** *** Device mapper: the kernel's [struct dm_ioctl] and [struct dm_target_spec] *)

Record dm_target := { dt_start : Z; dt_length : Z; dt_next : Z; dt_type : bytes; dt_params : bytes }.

Definition read_target (off : nat) (buf : bytes) : dm_target := {|
  dt_start := u_at off 8 buf; dt_length := u_at (off + 8) 8 buf; dt_next := u_at (off + 20) 4 buf;
  dt_type := cstring (read_at (off + 24) 16 buf); dt_params := cstring (drop (off + 40) buf) |}.

Record dm_request := { dq_version : bytes; dq_size : Z; dq_start : Z; dq_count : Z; dq_flags : Z; dq_name : bytes }.

Definition read_request (buf : bytes) : dm_request := {|
  dq_version := read_at 0 12 buf; dq_size := u_at 12 4 buf; dq_start := u_at 16 4 buf; dq_count := u_at 20 4 buf;
  dq_flags := u_at 28 4 buf; dq_name := cstring (read_at 48 128 buf) |}.

Definition no_zero (b : bytes) : Prop := Forall (λ c, c ≠ zero_byte) b.

Lemma cstring_zeros n : cstring (replicate n zero_byte) = [].
Proof. by destruct n. Qed.

Lemma cstring_app b c : no_zero b → cstring (b ++ zero_byte :: c) = b.
Proof. induction 1 as [|x b Hx _ IH]; [done|]. cbn [app cstring]. rewrite decide_False by done. by rewrite IH. Qed.

(** A name in a field of zeros. *)
Lemma read_name off n data buf :
  no_zero data → (length data < n)%nat → (off + n <= length buf)%nat → read_at off n buf = replicate n zero_byte →
  cstring (read_at off n (copy_at off data buf)) = data.
Proof.
  intros Hz Hn Hl Hr. assert (Hd : read_at off n (copy_at off data buf) = data ++ replicate (n - length data) zero_byte).
  { rewrite copy_at_in by lia. unfold read_at in *. rewrite drop_app_length' by (rewrite length_take; lia).
    rewrite take_app, take_ge by lia. f_equal.
    rewrite <- drop_drop, <- skipn_firstn_comm, Hr. by rewrite drop_replicate. }
  rewrite Hd. destruct (n - length data)%nat as [|k] eqn:Hk; [lia|]. by apply cstring_app.
Qed.

Lemma drop_copy off data buf o : (off + length data <= length buf)%nat → (off + length data <= o)%nat → drop o (copy_at off data buf) = drop o buf.
Proof.
  intros Hl Ho. rewrite copy_at_in by done. rewrite app_assoc, drop_app_ge by (rewrite length_app, length_take; lia).
  rewrite length_app, length_take, drop_drop. f_equal. lia.
Qed.

Lemma drop_copy_in off data buf k :
  (off + length data <= length buf)%nat → (k <= length data)%nat →
  drop (off + k) (copy_at off data buf) = drop k data ++ drop (off + length data) buf.
Proof.
  intros Hl Hk. rewrite copy_at_in by done. rewrite drop_app_ge by (rewrite length_take; lia). rewrite length_take.
  replace (off + k - off `min` length buf)%nat with k by lia. by rewrite drop_app_le by lia.
Qed.

Lemma read_copy_in off data buf k n :
  (off + length data <= length buf)%nat → (k + n <= length data)%nat → read_at (off + k) n (copy_at off data buf) = read_at k n data.
Proof. intros Hl Hk. unfold read_at. rewrite drop_copy_in by lia. apply take_app_le. rewrite length_drop. lia. Qed.

(** One target, as [dmTargetSpec] lays it out. *)
Lemma target_spec_fields start len type params :
  0 <= start < 2 ^ 64 → 0 <= len < 2 ^ 64 → no_zero (string_bytes type) → (length (string_bytes type) < 16)%nat →
  let b := dmTargetSpec start len type params in
  (41 + length (string_bytes params) <= length b < 49 + length (string_bytes params))%nat
  ∧ u_at 0 8 b = start ∧ u_at 8 8 b = len ∧ u_at 20 4 b = 0 ∧ cstring (read_at 24 16 b) = string_bytes type
  ∧ ∃ pad, drop 40 b = string_bytes params ++ zero_byte :: pad.
Proof.
  intros Hs Hl Hz Ht b. unfold b, dmTargetSpec. set (p := string_bytes params). set (ty := string_bytes type) in *.
  rewrite length_app. cbn [length]. set (total := (40 + (length p + 1))%nat).
  set (size := if (total mod 8 =? 0)%nat then total else (total + (8 - total mod 8))%nat).
  assert (Hsize : (total <= size < total + 8)%nat).
  { unfold size. pose proof (Nat.mod_upper_bound total 8 ltac:(lia)). destruct (Nat.eqb_spec (total mod 8) 0); lia. }
  assert (Hb : (41 + length p <= size < 49 + length p)%nat) by (unfold total in Hsize; lia). clearbody size. unfold u_at.
  assert (Hpl : length (p ++ [zero_byte]) = S (length p)) by (rewrite length_app; cbn; lia).
  split_and!.
  - size.
  - size.
  - rewrite 3!read_copy_before, read_copy by (rewrite ?Hpl; size). by apply un_le_le.
  - rewrite 2!read_copy_before, read_copy by (rewrite ?Hpl; size). by apply un_le_le.
  - rewrite 2!read_copy_before, 2!read_copy_after, read_zeros by (rewrite ?Hpl; size). reflexivity.
  - rewrite read_copy_before by (rewrite ?Hpl; size). apply read_name; [done|done|size|].
    rewrite 2!read_copy_after, read_zeros by size. reflexivity.
  - rewrite copy_at_in by (rewrite Hpl; size). eexists. rewrite drop_app_length' by (rewrite length_take; size).
    by rewrite <- app_assoc.
Qed.

(** A table as the kernel reads it. The request that loads it is well formed — version 4.0.0, its
    own size, one target, the device's name — and its target is the one that was given, with its
    extent, type and parameters, and no other after it. *)
Theorem dm_table_exact name start len type params :
  0 <= start < 2 ^ 64 → 0 <= len < 2 ^ 64 → no_zero (string_bytes type) → (length (string_bytes type) < 16)%nat →
  no_zero (string_bytes params) → no_zero (string_bytes name) → (length (string_bytes name) < 128)%nat →
  Z.of_nat (length (string_bytes params)) < 2 ^ 31 →
  let b := dm_buffer name (dmTargetSpec start len type params) in
  read_request b = {| dq_version := chr 4 :: replicate 11 zero_byte; dq_size := Z.of_nat (length b); dq_start := 312; dq_count := 1;
                      dq_flags := 0; dq_name := string_bytes name |}
  ∧ read_target 312 b = {| dt_start := start; dt_length := len; dt_next := 0; dt_type := string_bytes type; dt_params := string_bytes params |}.
Proof.
  intros Hs Hl Htz Ht Hpz Hnz Hn Hp b.
  destruct (target_spec_fields start len type params Hs Hl Htz Ht) as (Hlen & H1 & H2 & H3 & H4 & pad & H5).
  unfold b, dm_buffer. set (payload := dmTargetSpec start len type params) in *. clearbody payload. clear b.
  set (size := Nat.max (Z.to_nat 16384) (312 + length payload)).
  assert (Hsize : (Z.to_nat 16384 <= size)%nat ∧ (312 + length payload <= size)%nat) by (unfold size; lia).
  assert (H32 : 0 <= Z.of_nat size < 2 ^ 32) by (unfold size; lia). clearbody size. destruct Hsize as [Hs1 Hs2].
  destruct payload as [|c payload'] eqn:Hpay; [cbn in Hlen; lia|]. rewrite <- Hpay in *. clear Hpay.
  unfold read_request, read_target. rewrite !copy_at_length, length_replicate. unfold u_at. split; f_equal.
  - aside. rewrite copy_at_in by size. rewrite take_0, drop_replicate. cbn [app length Nat.add].
    unfold read_at. rewrite drop_0, firstn_cons, take_replicate. do 2 f_equal. lia.
  - aside. rewrite read_copy by size. rewrite uint32_id by lia. by apply un_le_le.
  - aside. rewrite read_copy by size. reflexivity.
  - aside. rewrite read_copy by size. reflexivity.
  - aside. rewrite read_zeros by size. reflexivity.
  - aside. apply read_name; [done|done|size|]. aside. rewrite read_zeros by size. reflexivity.
  - aside. change 312%nat with (312 + 0)%nat at 1. rewrite read_copy_in by size. exact H1.
  - aside. rewrite read_copy_in by size. exact H2.
  - aside. rewrite read_copy_in by size. exact H3.
  - aside. rewrite read_copy_in by size. exact H4.
  - rewrite drop_copy, drop_copy_in by size. rewrite H5, <- app_assoc. by apply cstring_app.
Qed.
