(* ===== verification/GuestExamples.v ===== *)
(** * A machine that boots

    A kernel on which the example of BootSpec boots, and the theorems about the guest's init
    there. *)

From Stdlib Require Import Floats.SpecFloat.
From S2P Require Import Prelude GoStrings GoStd GoPath GoJson GoNet Api ApiConfig Boot BootConfig BootSpec GuestInit GuestInitSpec GuestFiles.

(** Everything succeeds; the state is the clock, which only sleeps move. *)
Definition example_kernel (cmdline : string) (c : call) (s : Z) : answer c * Z :=
  match c return answer c * Z with
  | ReadFile p => (Ok (if decide (p = procCmdlinePath) then cmdline else "cpu memory"), s)
  | ReadAll _ => (("proc /proc proc rw 0 0" +:+ eol +:+ "matchlock /workspace fuse.matchlock rw 0 0" +:+ eol, None), s)
  | LookPath p => (Ok ("/sbin/" +:+ p), s)
  | OpenFile _ _ | Socket | GetIfFlags _ _ => (Ok 3, s)
  | BlkGetSize64 _ => (Ok 1073741824, s)
  | Statfs _ => (Ok fuseSuperMagic, s)
  | ReadFull _ n => (Ok (replicate (Z.to_nat n) zero_byte), s)
  | DmIoctl _ _ buf => (Ok buf, s)
  | Addrs _ => (Ok [AddrIPNet [192; 168; 107; 2]], s)
  | Environ => (["PATH=" +:+ defaultPATH], s)
  | Sysinfo => (Ok (536870912, 1), s)
  | Getpid => (1, s)
  | Now => (s, s)
  | Sleep d => (tt, s + Z.max 0 d)
  | Close _ | Setenv _ _ | Warnf _ => (tt, s)
  | Mount _ _ _ _ _ | PivotRoot _ _ | Chdir _ | MkdirAll _ _ | Stat _ | Remove _ | WriteFile _ _ _ | WriteAt _ _ _ | Swapon _ _
  | SetIfMTU _ _ | NewIfreq _ | SetIfFlags _ _ _ | InterfaceByName _ | Sethostname _ | Start _ _ | Exec _ _ _ => (None, s)
  end.

#[export] Instance example_clock cmdline : Clock (example_kernel cmdline) id.
Proof. split; [done| |]; [intros []|]; cbn; intros; lia. Qed.

Definition example_cmdline : string := darwin_kernel_args example_g example_config.
Definition example_init : prog unit := runInit 0 id example_parse.
Definition example_run : list event * result halt unit * Z := run (example_kernel example_cmdline) example_init 0.

Lemma executes_bool t : existsb (λ e, is_exec (ev_call e)) t = true → executes t.
Proof. intros (e & Hin & He)%existsb_exists. apply Exists_exists. exists e. split; [by apply list_elem_of_In|done]. Qed.

Lemma example_executes : executes example_run.1.1.
Proof. apply executes_bool. vm_compute. reflexivity. Qed.

Lemma example_runs : runs example_init example_run.1.1 example_run.1.2.
Proof. unfold example_run. exact (run_runs (example_kernel example_cmdline) example_init 0). Qed.

(** Every answer to the reading of the command line is the command line. *)
Lemma example_reads x : Ev (ReadFile procCmdlinePath) x ∈ example_run.1.1 → x = Ok example_cmdline.
Proof.
  assert (H : ∀ {A} (p : prog A) s, Forall (λ e, match e with Ev (ReadFile p) y => p = procCmdlinePath → y = Ok example_cmdline | _ => True end)
    (run (example_kernel example_cmdline) p s).1.1).
  { intros A p. induction p as [a|h|c k IH]; intros s; cbn [run fst snd]; [constructor|constructor|]. constructor; [|apply IH].
    destruct c; try done. intros ->. reflexivity. }
  intros Hin. pose proof (H _ example_init 0) as Hall. rewrite Forall_forall in Hall. by apply (Hall _ Hin).
Qed.

Lemma init_exact_witness :
  example_run.1.2 = Err Replaced
  ∧ ∃ cfg t0 env x, prepared example_parse cfg t0 ∧ ¬ executes t0
      ∧ example_run.1.1 = t0 ++ [Ev Environ env; Ev (Exec guestAgentPath [guestAgentPath] env) x].
Proof.
  destruct (init_exact 0 id example_parse _ _ example_runs example_executes) as (cfg & t0 & env & x & H1 & H2 & H3 & _).
  split; [vm_compute; reflexivity|]. by exists cfg, t0, env, x.
Defined.

Lemma refused_boot_witness :
  let r := run (example_kernel "matchlock.dns=8.8.8.8 matchlock.mtu=70000") example_init 0 in
  r.1.2 = Err (Exited ErrInvalidMTU) ∧ length r.1.1 = 6%nat.
Proof.
  destruct (refused_boot 0 id example_parse _ _ (run_runs (example_kernel "matchlock.dns=8.8.8.8 matchlock.mtu=70000") example_init 0))
    as (t1 & x & t2 & _ & _ & _).
  split; vm_compute; reflexivity.
Defined.

Lemma machine_mounts_exact_witness :
  (∃ device, backed_by example_config device "/data/b.ext4" true
    ∧ Ev (Mount (PathJoin ["/dev"; device]) "/opt/models" "ext4" MS_RDONLY "") None ∈ example_run.1.1)
  ∧ Ev (Mount "ws0" "/workspace/src" "virtiofs" MS_RDONLY "") None ∈ example_run.1.1.
Proof.
  destruct (machine_mounts_exact 0 id example_parse example_g true example_config _ _ example_bootable example_runs example_executes example_reads)
    as [Hd Hs].
  destruct (Hs eq_refl) as [Hs' _]. split.
  - apply (Hd 1%nat {| dc_HostPath := "/data/b.ext4"; dc_GuestMount := "/opt/models"; dc_ReadOnly := true |} eq_refl).
  - apply (Hs' {| vs_Tag := "ws0"; vs_HostPath := "/src"; vs_GuestMount := "/workspace/src"; vs_ReadOnly := true |}). by left.
Defined.

Lemma init_ends_witness : ∃ h, example_run.1.2 = Err h ∧ h ≠ OutOfRounds.
Proof. apply (init_ends (example_kernel example_cmdline) id 0 id example_parse 0). Defined.

Lemma guest_names_exact_witness :
  hosts_table (renderEtcHosts "vm-0a1b2c3d" [{| hm_Host := "db.internal"; hm_IP := "10.0.0.5" |}])
  = [("127.0.0.1", ["localhost"; "localhost.localdomain"; "vm-0a1b2c3d"]); ("10.0.0.5", ["db.internal"]);
     ("::1", ["localhost"; "ip6-localhost"; "ip6-loopback"]); ("ff02::1", ["ip6-allnodes"]); ("ff02::2", ["ip6-allrouters"])].
Proof.
  apply (guest_names_exact example_g example_parse example_config (guest_config false example_config)).
  - apply example_bootable.
  - split; [split|]; done.
  - repeat constructor; done.
  - vm_compute. reflexivity.
Defined.

Lemma swap_header_exact_witness : swap_last_page 1073741824 = Some 262143 ∧ u_at 1028 4 (swap_header 262143) = 262143.
Proof.
  split; [vm_compute; reflexivity|].
  destruct (swap_header_exact 1073741824 262143 ltac:(lia) eq_refl) as (_ & _ & _ & _ & _ & H & _). exact H.
Defined.

Lemma dm_table_exact_witness :
  let b := dm_buffer dmName (dmTargetSpec 0 2097152 "crypt" "aes-xts-plain64 00 0 /dev/vdg 0") in
  read_target 312 b = {| dt_start := 0; dt_length := 2097152; dt_next := 0; dt_type := string_bytes "crypt";
                         dt_params := string_bytes "aes-xts-plain64 00 0 /dev/vdg 0" |}.
Proof.
  apply (dm_table_exact dmName 0 2097152 "crypt" "aes-xts-plain64 00 0 /dev/vdg 0"); first [lia | cbn; lia | repeat constructor; discriminate].
Defined.
