(* ===== verification/Firewall.v ===== *)
(** * Firewall rules: pkg/net/nftables.go

    The tables that send a guest's traffic to the proxy and to the DNS forwarder: every rule as
    the list of expressions that the source builds, and what is done with the connection to
    nftables. How the kernel evaluates expressions is the interface [Nftables]. *)

From S2P Require Import Prelude GoStrings GoStd GoNet.

(** ** What the sources use of github.com/google/nftables *)

Inductive meta_key := MetaKeyIIFNAME | MetaKeyOIFNAME | MetaKeyL4PROTO.
Inductive payload_base := PayloadBaseNetworkHeader | PayloadBaseTransportHeader.
Inductive cmp_op := CmpOpEq | CmpOpNeq.
Inductive verdict_kind := VerdictAccept | VerdictDrop.

Inductive expr :=
| Meta (key : meta_key) (register : Z)
| Cmp (op : cmp_op) (register : Z) (data : bytes)
| Payload (register : Z) (base : payload_base) (offset len : nat)
| Immediate (register : Z) (data : bytes)
| NAT (dest : bool) (regAddrMin regProtoMin : Z)
| Verdict (kind : verdict_kind)
| Masq.

Inductive chain_hook := HookPrerouting | HookInput | HookForward | HookOutput | HookPostrouting.
Inductive chain_type := ChainTypeNAT | ChainTypeFilter.
Inductive chain_priority := PriorityNATDest | PriorityFilter | PriorityNATSource.

Record nft_chain := { ch_Name : string; ch_Type : chain_type; ch_Hook : chain_hook; ch_Priority : chain_priority; ch_Rules : list (list expr) }.
Record nft_table := { tb_Name : string; tb_Chains : list nft_chain }.

(** [AddRule] on a chain of the table, by name. *)
Definition add_rule (chain : string) (r : list expr) (chains : list nft_chain) : list nft_chain :=
  (λ c, if decide (ch_Name c = chain)
        then {| ch_Name := ch_Name c; ch_Type := ch_Type c; ch_Hook := ch_Hook c; ch_Priority := ch_Priority c; ch_Rules := ch_Rules c ++ [r] |}
        else c) <$> chains.

(** The rules of a list of addresses. *)
Definition add_rules (f : list Z → list expr) (ips : list (list Z)) (chain : string) (chains : list nft_chain) : list nft_chain :=
  foldl (λ chains ip, add_rule chain (f ip) chains) chains ips.

(** ** Rules *)

Definition tableName := "matchlock".
Definition chainPreNAT := "prerouting".
Definition chainFwd := "forward".
Definition chainInput := "input".
Definition chainOutput := "output".

(** Addresses are nil or four bytes. *)
Record NFTablesRules := {
  nf_tapInterface : string; nf_gatewayIP : option IP; nf_httpPort : Z; nf_httpsPort : Z; nf_passthroughPort : Z;
  nf_dnsForwarderPort : Z; nf_dnsServers : list IP }.

Definition uint16 (z : Z) : Z := z mod 2 ^ 16.
Definition ip_bytes (ip : IP) : bytes := chr <$> ip.
Definition gateway_bytes (r : NFTablesRules) : bytes := match nf_gatewayIP r with Some ip => ip_bytes ip | None => [] end.

Definition parseDNSIPv4 (server : string) : option IP :=
  match ParseIP server ≫= To4 with
  | Some ip => Some ip
  | None => hp ← SplitHostPort server; ip ← ParseIP hp.1; To4 ip
  end.

Definition NewNFTablesRules (tapInterface gatewayIP : string) (httpPort httpsPort passthroughPort : Z) (dnsServers : list string) : NFTablesRules := {|
  nf_tapInterface := tapInterface; nf_gatewayIP := ParseIP gatewayIP ≫= To4; nf_httpPort := uint16 httpPort; nf_httpsPort := uint16 httpsPort;
  nf_passthroughPort := uint16 passthroughPort; nf_dnsForwarderPort := 0; nf_dnsServers := omap parseDNSIPv4 dnsServers |}.

Definition SetDNSForwarderPort (port : Z) (r : NFTablesRules) : NFTablesRules := {|
  nf_tapInterface := nf_tapInterface r; nf_gatewayIP := nf_gatewayIP r; nf_httpPort := nf_httpPort r; nf_httpsPort := nf_httpsPort r;
  nf_passthroughPort := nf_passthroughPort r; nf_dnsForwarderPort := uint16 port; nf_dnsServers := nf_dnsServers r |}.

(** [binaryutil.BigEndian.PutUint16] *)
Definition be16 (v : Z) : bytes := [chr (v / 256 mod 256); chr (v mod 256)].

(** A name in sixteen bytes. *)
Definition ifname (n : string) : bytes :=
  let b := take 16 (String.list_ascii_of_string n) in b ++ replicate (16 - length b) zero_byte.

Definition IPPROTO_TCP : Z := 6.
Definition IPPROTO_UDP : Z := 17.

(** The beginnings that rules share. *)
Definition from_tap (key : meta_key) (tap : string) : list expr := [Meta key 1; Cmp CmpOpEq 1 (ifname tap)].
Definition proto_is (proto : Z) : list expr := [Meta MetaKeyL4PROTO 1; Cmp CmpOpEq 1 [chr proto]].
Definition daddr_is (ip : bytes) : list expr := [Payload 1 PayloadBaseNetworkHeader 16 4; Cmp CmpOpEq 1 ip].
Definition dport_is (port : Z) : list expr := [Payload 1 PayloadBaseTransportHeader 2 2; Cmp CmpOpEq 1 (be16 port)].
Definition dnat_to (ip : bytes) (port : Z) : list expr := [Immediate 1 ip; Immediate 2 (be16 port); NAT true 1 2].

Definition buildDNATRule (r : NFTablesRules) (srcPort dstPort : Z) : list expr :=
  from_tap MetaKeyIIFNAME (nf_tapInterface r) ++ proto_is IPPROTO_TCP ++ dport_is srcPort ++ dnat_to (gateway_bytes r) dstPort.

Definition buildCatchAllDNATRule (r : NFTablesRules) (dstPort : Z) : list expr :=
  from_tap MetaKeyIIFNAME (nf_tapInterface r) ++ proto_is IPPROTO_TCP ++ dnat_to (gateway_bytes r) dstPort.

Definition buildForwardRule (r : NFTablesRules) (isInput : bool) : list expr :=
  from_tap (if isInput then MetaKeyIIFNAME else MetaKeyOIFNAME) (nf_tapInterface r) ++ [Verdict VerdictAccept].

Definition buildUDPDNSAcceptRule (r : NFTablesRules) (dstIP : IP) : list expr :=
  from_tap MetaKeyIIFNAME (nf_tapInterface r) ++ proto_is IPPROTO_UDP ++ daddr_is (ip_bytes dstIP) ++ dport_is 53 ++ [Verdict VerdictAccept].

Definition buildDNSForwarderDNATRule (r : NFTablesRules) (dstPort : Z) : list expr :=
  from_tap MetaKeyIIFNAME (nf_tapInterface r) ++ proto_is IPPROTO_UDP ++ dport_is 53 ++ dnat_to (gateway_bytes r) dstPort.

Definition buildDNSForwarderInputAcceptRule (r : NFTablesRules) (dstPort : Z) : list expr :=
  from_tap MetaKeyIIFNAME (nf_tapInterface r) ++ proto_is IPPROTO_UDP ++ daddr_is (gateway_bytes r) ++ dport_is dstPort ++ [Verdict VerdictAccept].

Definition buildDNSForwarderOutputAcceptRule (dstIP : IP) : list expr :=
  proto_is IPPROTO_UDP ++ daddr_is (ip_bytes dstIP) ++ dport_is 53 ++ [Verdict VerdictAccept].

Definition buildUDPDropRule (r : NFTablesRules) : list expr :=
  from_tap MetaKeyIIFNAME (nf_tapInterface r) ++ proto_is IPPROTO_UDP ++ [Verdict VerdictDrop].

(** ** Setup *)

Definition new_chain (name : string) (t : chain_type) (h : chain_hook) (p : chain_priority) : nft_chain :=
  {| ch_Name := name; ch_Type := t; ch_Hook := h; ch_Priority := p; ch_Rules := [] |}.

Definition rules_table (r : NFTablesRules) : nft_table :=
  let forwards := 0 <? nf_dnsForwarderPort r in
  let chains := [new_chain chainPreNAT ChainTypeNAT HookPrerouting PriorityNATDest; new_chain chainFwd ChainTypeFilter HookForward PriorityFilter]
    ++ (if forwards then [new_chain chainInput ChainTypeFilter HookInput PriorityFilter; new_chain chainOutput ChainTypeFilter HookOutput PriorityFilter] else []) in
  let chains := add_rule chainPreNAT (buildDNATRule r 80 (nf_httpPort r)) chains in
  let chains := add_rule chainPreNAT (buildDNATRule r 443 (nf_httpsPort r)) chains in
  let chains := if 0 <? nf_passthroughPort r then add_rule chainPreNAT (buildCatchAllDNATRule r (nf_passthroughPort r)) chains else chains in
  let chains := if forwards then
      let chains := add_rule chainPreNAT (buildDNSForwarderDNATRule r (nf_dnsForwarderPort r)) chains in
      let chains := add_rule chainInput (buildDNSForwarderInputAcceptRule r (nf_dnsForwarderPort r)) chains in
      add_rules buildDNSForwarderOutputAcceptRule (nf_dnsServers r) chainOutput chains
    else chains in
  let chains := add_rules (buildUDPDNSAcceptRule r) (nf_dnsServers r) chainFwd chains in
  let chains := add_rule chainFwd (buildUDPDropRule r) chains in
  let chains := add_rule chainFwd (buildForwardRule r true) chains in
  let chains := add_rule chainFwd (buildForwardRule r false) chains in
  {| tb_Name := tableName +:+ "_" +:+ nf_tapInterface r; tb_Chains := chains |}.

Inductive nft_error := ErrNFTablesConn | ErrNFTablesApply | NFTablesError.

(** [AddTable], [AddChain] and [AddRule] of what may be there already: rules go behind those of
    the chain of that name. *)
Fixpoint merge_chain (c : nft_chain) (chains : list nft_chain) : list nft_chain :=
  match chains with
  | [] => [c]
  | d :: chains' =>
      if decide (ch_Name d = ch_Name c)
      then {| ch_Name := ch_Name d; ch_Type := ch_Type d; ch_Hook := ch_Hook d; ch_Priority := ch_Priority d; ch_Rules := ch_Rules d ++ ch_Rules c |} :: chains'
      else d :: merge_chain c chains'
  end.

Fixpoint merge_table (t : nft_table) (tables : list nft_table) : list nft_table :=
  match tables with
  | [] => [t]
  | u :: tables' =>
      if decide (tb_Name u = tb_Name t)
      then {| tb_Name := tb_Name u; tb_Chains := foldl (λ chains c, merge_chain c chains) (tb_Chains u) (tb_Chains t) |} :: tables'
      else u :: merge_table t tables'
  end.

(** What [Setup] does to the kernel's IPv4 tables, given whether there is a connection and whether
    the kernel takes the batch, which is all or nothing. *)
Definition setup_table (t : nft_table) (connects flushes : bool) (tables : list nft_table) : option nft_error * list nft_table :=
  if negb connects then (Some ErrNFTablesConn, tables)
  else if negb flushes then (Some ErrNFTablesApply, tables)
  else (None, merge_table t tables).

Definition NFTablesRules_Setup (r : NFTablesRules) := setup_table (rules_table r).

(** *** Masquerading *)

Definition NFTablesNAT_table (tapInterface : string) : nft_table := {|
  tb_Name := "matchlock_nat_" +:+ tapInterface;
  tb_Chains :=
    let chains := [new_chain "postrouting" ChainTypeNAT HookPostrouting PriorityNATSource; new_chain "forward" ChainTypeFilter HookForward PriorityFilter] in
    let chains := add_rule "postrouting" ([Meta MetaKeyOIFNAME 1; Cmp CmpOpNeq 1 (ifname tapInterface)]
                    ++ from_tap MetaKeyIIFNAME tapInterface ++ [Masq]) chains in
    let chains := add_rule "forward" (from_tap MetaKeyIIFNAME tapInterface ++ [Verdict VerdictAccept]) chains in
    add_rule "forward" (from_tap MetaKeyOIFNAME tapInterface ++ [Verdict VerdictAccept]) chains |}.

Definition NFTablesNAT_Setup (tapInterface : string) := setup_table (NFTablesNAT_table tapInterface).

(** ** Cleanup *)

(** The first table of this name goes. *)
Fixpoint delete_table (name : string) (tables : list nft_table) : list nft_table :=
  match tables with
  | [] => []
  | t :: tables' => if decide (tb_Name t = name) then tables' else t :: delete_table name tables'
  end.

Definition cleanup_table (name : string) (has_conn connects lists flushes : bool) (tables : list nft_table) : option nft_error * list nft_table :=
  if negb (has_conn || connects) then (Some NFTablesError, tables)
  else if negb lists then (Some NFTablesError, tables)
  else if negb flushes then (Some NFTablesError, tables)
  else (None, delete_table name tables).

Definition NFTablesRules_Cleanup (r : NFTablesRules) := cleanup_table (tableName +:+ "_" +:+ nf_tapInterface r).
Definition NFTablesNAT_Cleanup (tapInterface : string) := cleanup_table ("matchlock_nat_" +:+ tapInterface).
