(* ===== verification/FirewallSpec.v ===== *)
(** * What the firewall lets through

    The promises of nftables that the rules rely on are the class [Nftables]; what the rules do
    to packets is proved against it, and the evaluator at the end is an instance. *)

From S2P Require Import Prelude GoStrings GoStd GoNet Firewall.

(** ** nftables *)

(** A packet at a hook: its interfaces, where it has them, its protocol, and its headers. *)
Record packet := { pk_iif : option string; pk_oif : option string; pk_l4 : Z; pk_network : bytes; pk_transport : bytes }.

Inductive outcome := NoMatch | Accept | Drop | Translate (ip port : bytes) | Masquerade.

Definition meta_value (key : meta_key) (p : packet) : option bytes :=
  match key with
  | MetaKeyIIFNAME => ifname <$> pk_iif p
  | MetaKeyOIFNAME => ifname <$> pk_oif p
  | MetaKeyL4PROTO => Some [chr (pk_l4 p)]
  end.

Definition header (base : payload_base) (p : packet) : bytes :=
  match base with PayloadBaseNetworkHeader => pk_network p | PayloadBaseTransportHeader => pk_transport p end.

Definition registers := Z → bytes.
Definition load (r : Z) (v : bytes) (regs : registers) : registers := λ q, if decide (q = r) then v else regs q.

Lemma load_hit r v regs : load r v regs r = v.
Proof. unfold load. by rewrite decide_True. Qed.

Definition compares (op : cmp_op) (v data : bytes) : bool :=
  let eq := bool_decide (take (length data) v = data) in match op with CmpOpEq => eq | CmpOpNeq => negb eq end.

(** The expressions of a rule run in order over the registers; one that has nothing to load, or
    compares false, ends the rule without a match. The rules of a chain run in order until one
    gives a verdict or changes the address. *)
Class Nftables (rule : list expr → registers → packet → outcome) (chain : list (list expr) → packet → outcome) := {
  nft_end : ∀ regs p, rule [] regs p = NoMatch;
  nft_meta : ∀ key r es regs p, rule (Meta key r :: es) regs p =
    match meta_value key p with Some v => rule es (load r v regs) p | None => NoMatch end;
  nft_payload : ∀ r base o n es regs p, rule (Payload r base o n :: es) regs p =
    if decide (o + n <= length (header base p))%nat then rule es (load r (take n (drop o (header base p))) regs) p else NoMatch;
  nft_cmp : ∀ op r data es regs p, rule (Cmp op r data :: es) regs p = if compares op (regs r) data then rule es regs p else NoMatch;
  nft_immediate : ∀ r data es regs p, rule (Immediate r data :: es) regs p = rule es (load r data regs) p;
  nft_accept : ∀ es regs p, rule (Verdict VerdictAccept :: es) regs p = Accept;
  nft_drop : ∀ es regs p, rule (Verdict VerdictDrop :: es) regs p = Drop;
  nft_nat : ∀ a b es regs p, rule (NAT true a b :: es) regs p = Translate (regs a) (regs b);
  nft_masq : ∀ es regs p, rule (Masq :: es) regs p = Masquerade;
  nft_chain_end : ∀ p, chain [] p = NoMatch;
  nft_chain_rule : ∀ r rs p, chain (r :: rs) p = match rule r (λ _, []) p with NoMatch => chain rs p | v => v end }.

(** ** Packets of the guest *)

Definition num16 (b : bytes) : Z := match b with [x; y] => code x * 256 + code y | _ => -1 end.
Definition dport (p : packet) : Z := num16 (take 2 (drop 2 (pk_transport p))).
Definition daddr (p : packet) : bytes := take 4 (drop 16 (pk_network p)).

Definition has_headers (p : packet) : Prop :=
  0 <= pk_l4 p < 256 ∧ (20 <= length (pk_network p))%nat ∧ (pk_l4 p = IPPROTO_TCP ∨ pk_l4 p = IPPROTO_UDP → (4 <= length (pk_transport p))%nat).

(** The rules of the chain of this name. *)
Definition rules_of (name : string) (t : nft_table) : list (list expr) :=
  match list_find (λ c, ch_Name c = name) (tb_Chains t) with Some (_, c) => ch_Rules c | None => [] end.

(** ** The rules of a table *)

Definition chain_of (name : string) (t : chain_type) (h : chain_hook) (pr : chain_priority) (rules : list (list expr)) : nft_chain :=
  {| ch_Name := name; ch_Type := t; ch_Hook := h; ch_Priority := pr; ch_Rules := rules |}.

Lemma add_rule_hit name t h pr rules r l : add_rule name r (chain_of name t h pr rules :: l) = chain_of name t h pr (rules ++ [r]) :: add_rule name r l.
Proof. unfold add_rule. rewrite fmap_cons. cbn [chain_of ch_Name]. by rewrite decide_True. Qed.

Lemma add_rule_miss name name' t h pr rules r l :
  name' ≠ name → add_rule name r (chain_of name' t h pr rules :: l) = chain_of name' t h pr rules :: add_rule name r l.
Proof. intros Hn. unfold add_rule. rewrite fmap_cons. cbn [chain_of ch_Name]. by rewrite decide_False. Qed.

Lemma add_rules_hit f ips name t h pr rules l :
  add_rules f ips name (chain_of name t h pr rules :: l) = chain_of name t h pr (rules ++ (f <$> ips)) :: add_rules f ips name l.
Proof.
  unfold add_rules. revert rules l. induction ips as [|ip ips IH]; intros rules l; cbn [foldl]; [by rewrite app_nil_r|].
  rewrite add_rule_hit, IH. by rewrite <- app_assoc.
Qed.

Lemma add_rules_miss f ips name name' t h pr rules l :
  name' ≠ name → add_rules f ips name (chain_of name' t h pr rules :: l) = chain_of name' t h pr rules :: add_rules f ips name l.
Proof.
  intros Hn. unfold add_rules. revert l. induction ips as [|ip ips IH]; intros l; cbn [foldl]; [done|]. by rewrite add_rule_miss, IH.
Qed.

Lemma add_rules_nil f ips name : add_rules f ips name [] = [].
Proof. unfold add_rules. induction ips as [|ip ips IH]; [done|]. exact IH. Qed.

Ltac chains :=
  repeat first [rewrite add_rule_hit | rewrite add_rule_miss by done | rewrite add_rules_hit | rewrite add_rules_miss by done | rewrite add_rules_nil
    | progress change (add_rule ?n ?r []) with (@nil nft_chain)].

Definition pre_rules (r : NFTablesRules) : list (list expr) :=
  [buildDNATRule r 80 (nf_httpPort r); buildDNATRule r 443 (nf_httpsPort r)]
  ++ (if 0 <? nf_passthroughPort r then [buildCatchAllDNATRule r (nf_passthroughPort r)] else [])
  ++ (if 0 <? nf_dnsForwarderPort r then [buildDNSForwarderDNATRule r (nf_dnsForwarderPort r)] else []).

Definition fwd_rules (r : NFTablesRules) : list (list expr) :=
  (buildUDPDNSAcceptRule r <$> nf_dnsServers r) ++ [buildUDPDropRule r; buildForwardRule r true; buildForwardRule r false].

(** The table, chain by chain. *)
Lemma rules_table_chains r :
  tb_Chains (rules_table r)
  = [chain_of chainPreNAT ChainTypeNAT HookPrerouting PriorityNATDest (pre_rules r);
     chain_of chainFwd ChainTypeFilter HookForward PriorityFilter (fwd_rules r)]
    ++ (if 0 <? nf_dnsForwarderPort r then
          [chain_of chainInput ChainTypeFilter HookInput PriorityFilter [buildDNSForwarderInputAcceptRule r (nf_dnsForwarderPort r)];
           chain_of chainOutput ChainTypeFilter HookOutput PriorityFilter (buildDNSForwarderOutputAcceptRule <$> nf_dnsServers r)]
        else []).
Proof.
  unfold rules_table, pre_rules, fwd_rules. cbv zeta. cbn [tb_Chains].
  change new_chain with (λ n t h p, chain_of n t h p []). cbv beta.
  destruct (0 <? nf_dnsForwarderPort r), (0 <? nf_passthroughPort r); cbn [app]; chains; cbn [app]; by rewrite <- ?app_assoc.
Qed.

Section nftables.
Context (rule : list expr → registers → packet → outcome) (chain : list (list expr) → packet → outcome) `{!Nftables rule chain}.

(** ** Conditions *)

Lemma ifname_length n : length (ifname n) = 16%nat.
Proof. unfold ifname. rewrite length_app, length_replicate, length_take. lia. Qed.

Lemma rule_from_tap tap n es regs p :
  pk_iif p = Some n →
  rule (from_tap MetaKeyIIFNAME tap ++ es) regs p
  = if bool_decide (ifname n = ifname tap) then rule es (load 1 (ifname n) regs) p else NoMatch.
Proof.
  intros Hn. unfold from_tap. cbn [app]. rewrite nft_meta. cbn [meta_value]. rewrite Hn. cbn [fmap option_fmap option_map].
  rewrite nft_cmp. rewrite load_hit. unfold compares. by rewrite take_ge by (by rewrite !ifname_length).
Qed.

Lemma byte_eq a b : 0 <= a < 256 → 0 <= b < 256 → bool_decide ([chr a] = [chr b]) = (a =? b).
Proof.
  intros Ha Hb. destruct (Z.eqb_spec a b) as [->|Hne]; [by apply bool_decide_eq_true_2|]. apply bool_decide_eq_false_2.
  intros [= H]. apply Hne. by rewrite <- (code_chr a), <- (code_chr b), H by done.
Qed.

Lemma rule_proto k es regs p :
  0 <= pk_l4 p < 256 → 0 <= k < 256 →
  rule (proto_is k ++ es) regs p = if pk_l4 p =? k then rule es (load 1 [chr (pk_l4 p)] regs) p else NoMatch.
Proof.
  intros Hp Hk. unfold proto_is. cbn [app]. rewrite nft_meta. cbn [meta_value]. rewrite nft_cmp, load_hit. unfold compares.
  cbn [length take firstn]. by rewrite byte_eq.
Qed.

Lemma rule_daddr ip es regs p :
  (20 <= length (pk_network p))%nat → length ip = 4%nat →
  rule (daddr_is ip ++ es) regs p = if bool_decide (daddr p = ip) then rule es (load 1 (daddr p) regs) p else NoMatch.
Proof.
  intros Hn Hl. unfold daddr_is. cbn [app]. rewrite nft_payload. cbn [header]. rewrite decide_True by lia. rewrite nft_cmp, load_hit.
  unfold compares. fold (daddr p).
  by rewrite take_ge by (unfold daddr; rewrite Hl, length_take, length_drop; lia).
Qed.

Lemma be16_num b k : length b = 2%nat → 0 <= k < 65536 → bool_decide (b = be16 k) = (num16 b =? k).
Proof.
  intros Hl Hk. destruct b as [|x [|y [|]]]; try done. unfold be16. cbn [num16].
  pose proof (code_range x). pose proof (code_range y). pose proof (Z.mod_pos_bound k 256 ltac:(lia)).
  rewrite (Z.mod_small (k / 256)) by (split; [apply Z.div_pos; lia|apply Z.div_lt_upper_bound; lia]).
  pose proof (Z.div_mod k 256 ltac:(lia)). assert (0 <= k / 256 < 256) by (split; [apply Z.div_pos; lia|apply Z.div_lt_upper_bound; lia]).
  destruct (Z.eqb_spec (code x * 256 + code y) k) as [He|Hne].
  - apply bool_decide_eq_true_2. rewrite <- (chr_code x), <- (chr_code y). repeat f_equal; lia.
  - apply bool_decide_eq_false_2. intros [= -> ->]. apply Hne. rewrite !code_chr by lia. lia.
Qed.

Lemma rule_dport k es regs p :
  (4 <= length (pk_transport p))%nat → 0 <= k < 65536 →
  rule (dport_is k ++ es) regs p = if dport p =? k then rule es (load 1 (take 2 (drop 2 (pk_transport p))) regs) p else NoMatch.
Proof.
  intros Hn Hk. unfold dport_is. cbn [app]. rewrite nft_payload. cbn [header]. rewrite decide_True by lia. rewrite nft_cmp, load_hit.
  unfold compares. change (length (be16 k)) with 2%nat. rewrite take_take.
  unfold dport. rewrite be16_num; [done| |done]. rewrite length_take, length_drop. lia.
Qed.

Lemma rule_dnat ip port regs p : rule (dnat_to ip port) regs p = Translate ip (be16 port).
Proof. unfold dnat_to. by rewrite !nft_immediate, nft_nat. Qed.

(** ** The table *)

Record rules_ok (r : NFTablesRules) : Prop := {
  ro_servers : Forall (λ ip, length ip = 4%nat) (nf_dnsServers r);
  ro_passthrough : 0 < nf_passthroughPort r;
  ro_dns : 0 <= nf_dnsForwarderPort r < 65536 }.

Definition proxy_port (r : NFTablesRules) (p : packet) : Z :=
  if dport p =? 80 then nf_httpPort r else if dport p =? 443 then nf_httpsPort r else nf_passthroughPort r.

Definition to_dns_server (r : NFTablesRules) (p : packet) : bool :=
  (dport p =? 53) && existsb (λ ip, bool_decide (daddr p = ip_bytes ip)) (nf_dnsServers r).

Lemma pre_of_table r : rules_of chainPreNAT (rules_table r) = pre_rules r.
Proof. unfold rules_of. by rewrite rules_table_chains. Qed.
Lemma fwd_of_table r : rules_of chainFwd (rules_table r) = fwd_rules r.
Proof. unfold rules_of. by rewrite rules_table_chains. Qed.

Lemma chain_skips rs rs' p : Forall (λ r, rule r (λ _, []) p = NoMatch) rs → chain (rs ++ rs') p = chain rs' p.
Proof. induction 1 as [|r rs Hr _ IH]; [done|]. cbn [app]. by rewrite nft_chain_rule, Hr. Qed.

Lemma accept_rules r p rest :
  rules_ok r → has_headers p → pk_iif p = Some (nf_tapInterface r) →
  chain ((buildUDPDNSAcceptRule r <$> nf_dnsServers r) ++ rest) p
  = if (pk_l4 p =? IPPROTO_UDP) && to_dns_server r p then Accept else chain rest p.
Proof.
  intros [Hs _ _] (Hl4 & Hn & Ht) Htap. unfold to_dns_server. induction Hs as [|ip ips Hip _ IH]; cbn [existsb fmap list_fmap app].
  - by rewrite !andb_false_r.
  - rewrite nft_chain_rule. unfold buildUDPDNSAcceptRule at 1. rewrite (rule_from_tap _ _ _ _ _ Htap), bool_decide_eq_true_2 by done.
    rewrite rule_proto by done. destruct (Z.eqb_spec (pk_l4 p) IPPROTO_UDP) as [Hu|Hu]; [|exact IH]. cbn [andb] in *.
    rewrite rule_daddr by (try done; unfold ip_bytes; by rewrite length_fmap).
    destruct (bool_decide_reflect (daddr p = ip_bytes ip)); cbn [orb]; [|exact IH].
    rewrite rule_dport by (try done; apply Ht; by right). destruct (Z.eqb_spec (dport p) 53); cbn [andb] in *; [by rewrite nft_accept|exact IH].
Qed.

Lemma from_tap_other tap n es regs p : pk_iif p = Some n → ifname n ≠ ifname tap → rule (from_tap MetaKeyIIFNAME tap ++ es) regs p = NoMatch.
Proof. intros Hn Hne. rewrite (rule_from_tap tap n) by done. by rewrite bool_decide_eq_false_2. Qed.

(** No chain at the hook drops the packet: a verdict to drop is final, one to accept is not. *)
Definition hook_passes (h : chain_hook) (tables : list nft_table) (p : packet) : Prop :=
  ∀ t c, t ∈ tables → c ∈ tb_Chains t → ch_Hook c = h → chain (ch_Rules c) p ≠ Drop.

(** The packets that are for the host itself: none is dropped. *)
Lemma host_udp_passes r p : has_headers p → pk_iif p = Some (nf_tapInterface r) → rules_ok r → length (gateway_bytes r) = 4%nat → hook_passes HookInput [rules_table r] p.
Proof.
  intros (Hl4 & Hn & Ht) Htap Hok Hg t c ->%list_elem_of_singleton Hc Hhook. rewrite rules_table_chains in Hc.
  destruct (0 <? nf_dnsForwarderPort r); cbn [app] in Hc; rewrite ?elem_of_cons, elem_of_nil in Hc; destruct_or! Hc; subst; try done.
  cbn [chain_of ch_Rules]. rewrite nft_chain_rule. unfold buildDNSForwarderInputAcceptRule.
  rewrite (rule_from_tap _ _ _ _ _ Htap), bool_decide_eq_true_2, rule_proto by done.
  destruct (Z.eqb_spec (pk_l4 p) IPPROTO_UDP); [|by rewrite nft_chain_end]. rewrite rule_daddr by done.
  destruct (bool_decide _); [|by rewrite nft_chain_end]. rewrite rule_dport by (first [apply Ht; by right|apply (ro_dns r Hok)]).
  destruct (_ =? _); [by rewrite nft_accept|by rewrite nft_chain_end].
Qed.
(** C27: What the sandbox's table does with a packet of the guest whose headers are whole. At the
    prerouting hook TCP goes to the proxy, to the listener of its port, DNS over UDP to the
    forwarder, and nothing else is translated. Of what is forwarded, UDP is accepted if it is DNS to
    a configured server and dropped if not, and the rest is accepted. What is for the host itself is
    dropped by no chain, UDP included. Packets of other interfaces are not translated. *)
Theorem firewall_exact r p :
  rules_ok r → has_headers p →
  (pk_iif p = Some (nf_tapInterface r) →
    chain (rules_of chainPreNAT (rules_table r)) p
    = (if pk_l4 p =? IPPROTO_TCP then Translate (gateway_bytes r) (be16 (proxy_port r p))
       else if (pk_l4 p =? IPPROTO_UDP) && (dport p =? 53) && (0 <? nf_dnsForwarderPort r) then Translate (gateway_bytes r) (be16 (nf_dnsForwarderPort r))
       else NoMatch)
    ∧ chain (rules_of chainFwd (rules_table r)) p
      = (if pk_l4 p =? IPPROTO_UDP then if to_dns_server r p then Accept else Drop else Accept))
  ∧ (∀ n, pk_iif p = Some n → ifname n ≠ ifname (nf_tapInterface r) → chain (rules_of chainPreNAT (rules_table r)) p = NoMatch)
  ∧ (pk_iif p = Some (nf_tapInterface r) → length (gateway_bytes r) = 4%nat → hook_passes HookInput [rules_table r] p).
Proof.
  intros Hok Hh. split; [|split]; [| |intros Htap Hg; by apply host_udp_passes].
  all: pose proof Hh as (Hl4 & Hn & Ht); pose proof (ro_passthrough r Hok) as Hpass; rewrite pre_of_table, ?fwd_of_table;
    unfold pre_rules; rewrite (proj2 (Z.ltb_lt _ _) Hpass).
  1: intros Htap; split.
  - cbn [app]. unfold proxy_port. rewrite !nft_chain_rule. unfold buildDNATRule, buildCatchAllDNATRule.
    rewrite !(rule_from_tap _ _ _ _ _ Htap), bool_decide_eq_true_2 by done. rewrite !rule_proto by done.
    destruct (Z.eqb_spec (pk_l4 p) IPPROTO_TCP) as [Htcp|Hntcp].
    + rewrite !rule_dport by (try done; apply Ht; by left). destruct (dport p =? 80); [by rewrite rule_dnat|].
      destruct (dport p =? 443); by rewrite rule_dnat.
    + destruct (Z.ltb_spec 0 (nf_dnsForwarderPort r)); [|by rewrite nft_chain_end, !andb_false_r].
      rewrite nft_chain_rule. unfold buildDNSForwarderDNATRule. rewrite (rule_from_tap _ _ _ _ _ Htap), bool_decide_eq_true_2, rule_proto by done.
      destruct (Z.eqb_spec (pk_l4 p) IPPROTO_UDP); cbn [andb]; [|by rewrite nft_chain_end].
      rewrite rule_dport by (try done; apply Ht; by right). destruct (dport p =? 53); cbn [andb]; [by rewrite rule_dnat|by rewrite nft_chain_end].
  - unfold fwd_rules. rewrite accept_rules by done. destruct (Z.eqb_spec (pk_l4 p) IPPROTO_UDP) as [Hu|Hu]; cbn [andb].
    + destruct (to_dns_server r p); [done|]. rewrite nft_chain_rule. unfold buildUDPDropRule.
      rewrite (rule_from_tap _ _ _ _ _ Htap), bool_decide_eq_true_2, rule_proto by done. rewrite (proj2 (Z.eqb_eq _ _) Hu). by rewrite nft_drop.
    + rewrite !nft_chain_rule. unfold buildUDPDropRule, buildForwardRule at 1.
      rewrite !(rule_from_tap _ _ _ _ _ Htap), bool_decide_eq_true_2, rule_proto by done. rewrite (proj2 (Z.eqb_neq _ _) Hu). by rewrite nft_accept.
  - intros n Hn' Hne. rewrite <- (app_nil_r (_ ++ _)), chain_skips; [apply nft_chain_end|].
    destruct (0 <? nf_dnsForwarderPort r); repeat constructor; by apply (from_tap_other _ n).
Qed.

(** ** The kernel's tables *)

Definition fresh (name : string) (tables : list nft_table) : Prop := Forall (λ t, tb_Name t ≠ name) tables.

Lemma merge_fresh t tables : fresh (tb_Name t) tables → merge_table t tables = tables ++ [t].
Proof. induction 1 as [|u tables Hu _ IH]; cbn [merge_table]; [done|]. by rewrite decide_False, IH. Qed.

Lemma merge_keeps t u tables : u ∈ tables → tb_Name u ≠ tb_Name t → u ∈ merge_table t tables.
Proof.
  intros Hin Hne. induction tables as [|v tables IH]; cbn [merge_table]; [by apply elem_of_nil in Hin|].
  apply elem_of_cons in Hin as [<-|Hin].
  - rewrite decide_False by done. by left.
  - case_decide; right; [done|by apply IH].
Qed.

Lemma delete_fresh t tables : fresh (tb_Name t) tables → delete_table (tb_Name t) (tables ++ [t]) = tables.
Proof.
  induction 1 as [|u tables Hu _ IH]; cbn [app delete_table]; [by rewrite decide_True|]. by rewrite decide_False, IH.
Qed.

Lemma setup_Ok t c f tables tables' : setup_table t c f tables = (None, tables') → tables' = merge_table t tables.
Proof. unfold setup_table. destruct c, f; cbn; congruence. Qed.

Lemma To4_length ip a : To4 ip = Some a → length a = 4%nat.
Proof.
  unfold To4. destruct (Nat.eqb_spec (length ip) 4); [by intros [= <-]|].
  destruct (Nat.eqb_spec (length ip) 16) as [Hl|]; cbn [andb]; [|done]. destruct (bool_decide _); [|done]. intros [= <-]. by rewrite length_drop, Hl.
Qed.

Lemma parseDNSIPv4_length s a : parseDNSIPv4 s = Some a → length a = 4%nat.
Proof.
  unfold parseDNSIPv4. destruct (ParseIP s ≫= To4) as [ip|] eqn:Hip.
  - intros [= <-]. apply bind_Some in Hip as (? & _ & H). by apply To4_length in H.
  - intros (hp & _ & (ip & _ & H)%bind_Some)%bind_Some. by apply To4_length in H.
Qed.

Lemma new_rules_ok tap gw http https pass dns servers :
  0 < pass < 65536 → rules_ok (SetDNSForwarderPort dns (NewNFTablesRules tap gw http https pass servers)).
Proof.
  intros Hp. split; cbn [SetDNSForwarderPort NewNFTablesRules nf_dnsServers nf_passthroughPort nf_dnsForwarderPort].
  - apply Forall_forall. intros ip (s & _ & Hs)%list_elem_of_omap. by apply parseDNSIPv4_length in Hs.
  - unfold uint16. rewrite Z.mod_small; lia.
  - apply Z.mod_pos_bound. lia.
Qed.

Lemma nat_name_differs tap : ("matchlock_" +:+ tap) ≠ ("matchlock_nat_" +:+ tap).
Proof.
  intros H. change ("matchlock_nat_" +:+ tap) with ("matchlock_" +:+ ("nat_" +:+ tap)) in H. apply sapp_inj_l in H.
  apply (f_equal slen) in H. rewrite slen_app in H. cbn in H. lia.
Qed.


(** Cleaning up takes away what setting up added. *)
Lemma setup_cleanup r c f has_conn c' tables tables1 :
  fresh (tb_Name (rules_table r)) tables → NFTablesRules_Setup r c f tables = (None, tables1) →
  has_conn || c' = true → NFTablesRules_Cleanup r has_conn c' true true tables1 = (None, tables).
Proof.
  intros Hf ->%setup_Ok Hc. rewrite merge_fresh by done. unfold NFTablesRules_Cleanup, cleanup_table. rewrite Hc. cbn [negb].
  f_equal. exact (delete_fresh (rules_table r) tables Hf).
Qed.

End nftables.

(** ** An evaluator *)

Fixpoint eval_rule (es : list expr) (regs : registers) (p : packet) : outcome :=
  match es with
  | [] => NoMatch
  | Meta key r :: es' => match meta_value key p with Some v => eval_rule es' (load r v regs) p | None => NoMatch end
  | Payload r base o n :: es' =>
      if decide (o + n <= length (header base p))%nat then eval_rule es' (load r (take n (drop o (header base p))) regs) p else NoMatch
  | Cmp op r data :: es' => if compares op (regs r) data then eval_rule es' regs p else NoMatch
  | Immediate r data :: es' => eval_rule es' (load r data regs) p
  | Verdict VerdictAccept :: _ => Accept
  | Verdict VerdictDrop :: _ => Drop
  | NAT true a b :: _ => Translate (regs a) (regs b)
  | NAT false _ _ :: es' => eval_rule es' regs p
  | Masq :: _ => Masquerade
  end.

Fixpoint eval_chain (rs : list (list expr)) (p : packet) : outcome :=
  match rs with [] => NoMatch | r :: rs' => match eval_rule r (λ _, []) p with NoMatch => eval_chain rs' p | v => v end end.

#[export] Instance eval_nftables : Nftables eval_rule eval_chain.
Proof. by split. Qed.

Definition example_rules : NFTablesRules :=
  SetDNSForwarderPort 5300 (NewNFTablesRules "tap0" "192.168.107.1" 8080 8443 9000 ["8.8.8.8"; "1.1.1.1:53"]).

(** A packet of the guest to this address and port. *)
Definition guest_packet (l4 : Z) (dst : IP) (port : Z) : packet := {|
  pk_iif := Some "tap0"; pk_oif := Some "eth0"; pk_l4 := l4;
  pk_network := replicate 16 zero_byte ++ ip_bytes dst; pk_transport := be16 40000 ++ be16 port |}.

Lemma example_headers l4 a b c d port : 0 <= l4 < 256 → has_headers (guest_packet l4 [a; b; c; d] port).
Proof. intros Hl. split; [done|]. split; [cbn; lia|intros _; cbn; lia]. Qed.

Lemma firewall_exact_witness :
  eval_chain (rules_of chainPreNAT (rules_table example_rules)) (guest_packet IPPROTO_TCP [93; 184; 216; 34] 443)
    = Translate (ip_bytes [192; 168; 107; 1]) (be16 8443)
  ∧ eval_chain (rules_of chainFwd (rules_table example_rules)) (guest_packet IPPROTO_UDP [93; 184; 216; 34] 443) = Drop
  ∧ eval_chain (rules_of chainFwd (rules_table example_rules)) (guest_packet IPPROTO_UDP [1; 1; 1; 1] 53) = Accept.
Proof.
  assert (Hok : rules_ok example_rules) by (apply new_rules_ok; lia).
  split; [|split].
  - rewrite (proj1 (proj1 (firewall_exact eval_rule eval_chain example_rules (guest_packet IPPROTO_TCP [93; 184; 216; 34] 443) Hok
      (example_headers IPPROTO_TCP _ _ _ _ _ (ltac:(done) : 0 <= IPPROTO_TCP < 256))) eq_refl)). vm_compute. reflexivity.
  - rewrite (proj2 (proj1 (firewall_exact eval_rule eval_chain example_rules (guest_packet IPPROTO_UDP [93; 184; 216; 34] 443) Hok
      (example_headers IPPROTO_UDP _ _ _ _ _ (ltac:(done) : 0 <= IPPROTO_UDP < 256))) eq_refl)). vm_compute. reflexivity.
  - rewrite (proj2 (proj1 (firewall_exact eval_rule eval_chain example_rules (guest_packet IPPROTO_UDP [1; 1; 1; 1] 53) Hok
      (example_headers IPPROTO_UDP _ _ _ _ _ (ltac:(done) : 0 <= IPPROTO_UDP < 256))) eq_refl)). vm_compute. reflexivity.
Defined.

Definition example_tables : list nft_table := [rules_table example_rules; NFTablesNAT_table "tap0"].

Definition drops (v : outcome) : bool := match v with Drop => true | _ => false end.
Definition at_forward (c : nft_chain) : bool := match ch_Hook c with HookForward => true | _ => false end.

Lemma passes_bool tables p :
  forallb (λ t, forallb (λ c, negb (at_forward c && drops (eval_chain (ch_Rules c) p))) (tb_Chains t)) tables = true →
  hook_passes eval_chain HookForward tables p.
Proof.
  rewrite forallb_forall. intros H t c Ht Hc Hh Hd. apply list_elem_of_In in Ht, Hc. specialize (H t Ht).
  rewrite forallb_forall in H. specialize (H c Hc). unfold at_forward in H. by rewrite Hh, Hd in H.
Qed.

Lemma example_passes : hook_passes eval_chain HookForward example_tables (guest_packet IPPROTO_UDP [1; 1; 1; 1] 53).
Proof. apply passes_bool. vm_compute. reflexivity. Qed.

