(* ===== verification/DnsForwarder.v ===== *)
(** * The DNS forwarder: pkg/net/dns_forwarder.go

    The goroutine that reads the guest's queries, the workers that put them to the configured
    servers, and [Close], as a step relation. The network may do anything: a datagram of any size
    may come at any time, of which a read takes what the buffer holds; any dial, write or read
    may fail. *)

From S2P Require Import Prelude GoStrings GoStd GoNet.

(** A query, with its place among those that were read. *)
Record dnsRequest := { dr_number : nat; dr_query : bytes; dr_clientAddr : string }.

Definition dnsPacketBufSize : nat := 4096.
Definition dnsWorkerCount : nat := 32.
Definition dnsQueueSize : nat := 128.

Definition dnsServerAddr (server : string) : string :=
  match SplitHostPort server with Some _ => server | None => JoinHostPort server "53" end.

(** Where [serve] is: in [ReadFromUDP], at the select that queues a request, or returned. *)
Inductive serve_state := SReading | SQueueing (r : dnsRequest) | SReturned.

(** Where a worker is: at its select; in [forward] before a server, with those after it; in
    [exchange] before the dial, with a connection, with one that is tracked, with the result and
    the deferred calls to make; in [forward] with an answer, or about to send it; returned. *)
Inductive worker_state :=
| WIdle
| WForward (r : dnsRequest) (servers : list string)
| WExchange (r : dnsRequest) (server : string) (servers : list string)
| WDialled (r : dnsRequest) (server : string) (servers : list string) (conn : nat)
| WTracked (r : dnsRequest) (server : string) (servers : list string) (conn : nat)
| WClosing (r : dnsRequest) (servers : list string) (conn : nat) (resp : option bytes)
| WUntracking (r : dnsRequest) (servers : list string) (conn : nat) (resp : option bytes)
| WAnswered (r : dnsRequest) (resp : bytes)
| WSending (r : dnsRequest) (resp : bytes)
| WReturned.

(** Where [Close] is. *)
Inductive close_state := COpen | CStopped | CSocketClosed | CClosing (upstreams : gset nat) | CWaiting | CReturned.

(** What can be seen on the network. *)
Inductive dns_event :=
| EvQuery (r : dnsRequest)
| EvAnswer (server : string) (query resp : bytes)
| EvReply (clientAddr : string) (resp : bytes).

Record forwarder := {
  df_serve : serve_state; df_queue : list dnsRequest; df_workers : list worker_state; df_close : close_state;
  df_stopping : bool; df_socket : bool; df_upstreams : gset nat; df_open : gset nat; df_next : nat; df_events : list dns_event }.

(** [NewDNSForwarder], which refuses to run without servers. *)
Definition NewDNSForwarder (dnsServers : list string) : option forwarder :=
  match dnsServers with
  | [] => None
  | _ => Some {| df_serve := SReading; df_queue := []; df_workers := replicate dnsWorkerCount WIdle; df_close := COpen; df_stopping := false;
                 df_socket := true; df_upstreams := ∅; df_open := ∅; df_next := 0; df_events := [] |}
  end.

Definition set_serve s (d : forwarder) : forwarder := {|
  df_serve := s; df_queue := df_queue d; df_workers := df_workers d; df_close := df_close d; df_stopping := df_stopping d;
  df_socket := df_socket d; df_upstreams := df_upstreams d; df_open := df_open d; df_next := df_next d; df_events := df_events d |}.
Definition set_queue q (d : forwarder) : forwarder := {|
  df_serve := df_serve d; df_queue := q; df_workers := df_workers d; df_close := df_close d; df_stopping := df_stopping d;
  df_socket := df_socket d; df_upstreams := df_upstreams d; df_open := df_open d; df_next := df_next d; df_events := df_events d |}.
Definition set_worker i w (d : forwarder) : forwarder := {|
  df_serve := df_serve d; df_queue := df_queue d; df_workers := <[i := w]> (df_workers d); df_close := df_close d; df_stopping := df_stopping d;
  df_socket := df_socket d; df_upstreams := df_upstreams d; df_open := df_open d; df_next := df_next d; df_events := df_events d |}.
Definition set_close c stopping socket (d : forwarder) : forwarder := {|
  df_serve := df_serve d; df_queue := df_queue d; df_workers := df_workers d; df_close := c; df_stopping := stopping;
  df_socket := socket; df_upstreams := df_upstreams d; df_open := df_open d; df_next := df_next d; df_events := df_events d |}.
Definition set_conns upstreams open (d : forwarder) : forwarder := {|
  df_serve := df_serve d; df_queue := df_queue d; df_workers := df_workers d; df_close := df_close d; df_stopping := df_stopping d;
  df_socket := df_socket d; df_upstreams := upstreams; df_open := open; df_next := df_next d; df_events := df_events d |}.
(** The next number, and what was seen. *)
Definition seen es (d : forwarder) : forwarder := {|
  df_serve := df_serve d; df_queue := df_queue d; df_workers := df_workers d; df_close := df_close d; df_stopping := df_stopping d;
  df_socket := df_socket d; df_upstreams := df_upstreams d; df_open := df_open d; df_next := S (df_next d); df_events := df_events d ++ es |}.

Section steps.
Context (dnsServers : list string).

(** [serve] *)
Inductive serve_step (d : forwarder) : forwarder → Prop :=
| serve_read datagram addr :
    df_serve d = SReading → df_socket d = true →
    let r := {| dr_number := df_next d; dr_query := take dnsPacketBufSize datagram; dr_clientAddr := addr |} in
    serve_step d (set_serve (SQueueing r) (seen [EvQuery r] d))
| serve_error : df_serve d = SReading → df_stopping d = false → serve_step d d
| serve_error_stop : df_serve d = SReading → df_stopping d = true → serve_step d (set_serve SReturned d)
| serve_queue r :
    df_serve d = SQueueing r → (length (df_queue d) < dnsQueueSize)%nat →
    serve_step d (set_serve SReading (set_queue (df_queue d ++ [r]) d))
| serve_stop r : df_serve d = SQueueing r → df_stopping d = true → serve_step d (set_serve SReturned d).

(** A worker: [worker], [forward], [exchange], [trackUpstream] and [untrackUpstream]. *)
Inductive worker_step (i : nat) (d : forwarder) : forwarder → Prop :=
| worker_take r q :
    df_workers d !! i = Some WIdle → df_queue d = r :: q → worker_step i d (set_worker i (WForward r dnsServers) (set_queue q d))
| worker_stop : df_workers d !! i = Some WIdle → df_stopping d = true → worker_step i d (set_worker i WReturned d)
| forward_end r : df_workers d !! i = Some (WForward r []) → worker_step i d (set_worker i WIdle d)
| forward_stop r s l : df_workers d !! i = Some (WForward r (s :: l)) → df_stopping d = true → worker_step i d (set_worker i WIdle d)
| forward_next r s l :
    df_workers d !! i = Some (WForward r (s :: l)) → df_stopping d = false → worker_step i d (set_worker i (WExchange r s l) d)
| exchange_stop r s l : df_workers d !! i = Some (WExchange r s l) → df_stopping d = true → worker_step i d (set_worker i (WForward r l) d)
| exchange_dial_error r s l : df_workers d !! i = Some (WExchange r s l) → worker_step i d (set_worker i (WForward r l) d)
| exchange_dial r s l :
    df_workers d !! i = Some (WExchange r s l) →
    worker_step i d (set_worker i (WDialled r s l (df_next d)) (set_conns (df_upstreams d) (df_open d ∪ {[df_next d]}) (seen [] d)))
| track_refused r s l c :
    df_workers d !! i = Some (WDialled r s l c) → df_stopping d = true →
    worker_step i d (set_worker i (WForward r l) (set_conns (df_upstreams d) (df_open d ∖ {[c]}) d))
| track r s l c :
    df_workers d !! i = Some (WDialled r s l c) → df_stopping d = false →
    worker_step i d (set_worker i (WTracked r s l c) (set_conns (df_upstreams d ∪ {[c]}) (df_open d) d))
| exchange_error r s l c : df_workers d !! i = Some (WTracked r s l c) → worker_step i d (set_worker i (WClosing r l c None) d)
| exchange_read r s l c datagram :
    df_workers d !! i = Some (WTracked r s l c) → c ∈ df_open d →
    let resp := take dnsPacketBufSize datagram in
    worker_step i d (set_worker i (WClosing r l c (Some resp)) (seen [EvAnswer (dnsServerAddr s) (dr_query r) resp] d))
| exchange_close r l c resp :
    df_workers d !! i = Some (WClosing r l c resp) →
    worker_step i d (set_worker i (WUntracking r l c resp) (set_conns (df_upstreams d) (df_open d ∖ {[c]}) d))
| untrack r l c resp :
    df_workers d !! i = Some (WUntracking r l c resp) →
    worker_step i d (set_worker i (match resp with Some b => WAnswered r b | None => WForward r l end)
      (set_conns (df_upstreams d ∖ {[c]}) (df_open d) d))
| answer_stop r b : df_workers d !! i = Some (WAnswered r b) → df_stopping d = true → worker_step i d (set_worker i WIdle d)
| answer r b : df_workers d !! i = Some (WAnswered r b) → df_stopping d = false → worker_step i d (set_worker i (WSending r b) d)
| answer_send r b :
    df_workers d !! i = Some (WSending r b) → df_socket d = true →
    worker_step i d (set_worker i WIdle (seen [EvReply (dr_clientAddr r) b] d))
| answer_error r b : df_workers d !! i = Some (WSending r b) → worker_step i d (set_worker i WIdle d).

Definition all_returned (d : forwarder) : Prop := df_serve d = SReturned ∧ Forall (λ w, w = WReturned) (df_workers d).

(** [Close], with [closeUpstreams]: the connections are closed after the lock was released. *)
Inductive close_step (d : forwarder) : forwarder → Prop :=
| close_stop : df_close d = COpen → close_step d (set_close CStopped true (df_socket d) d)
| close_socket : df_close d = CStopped → close_step d (set_close CSocketClosed (df_stopping d) false d)
| close_snapshot : df_close d = CSocketClosed → close_step d (set_close (CClosing (df_upstreams d)) (df_stopping d) (df_socket d) d)
| close_upstreams cs :
    df_close d = CClosing cs → close_step d (set_close CWaiting (df_stopping d) (df_socket d) (set_conns (df_upstreams d) (df_open d ∖ cs) d))
| close_wait : df_close d = CWaiting → all_returned d → close_step d (set_close CReturned (df_stopping d) (df_socket d) d).

Inductive dns_step (d d' : forwarder) : Prop :=
| step_serve : serve_step d d' → dns_step d d'
| step_worker i : worker_step i d d' → dns_step d d'
| step_close : close_step d d' → dns_step d d'.
End steps.

(** ** What holds in every run *)

Definition known (d : forwarder) (r : dnsRequest) : Prop := EvQuery r ∈ df_events d.

Section runs.
Context (dnsServers : list string).

Definition dns_run : relation forwarder := rtc (dns_step dnsServers).

(** A configured server answered this query so. *)
Definition answered (es : list dns_event) (r : dnsRequest) (resp : bytes) : Prop :=
  ∃ s, s ∈ dnsServers ∧ EvAnswer (dnsServerAddr s) (dr_query r) resp ∈ es.

Definition worker_ok (es : list dns_event) (w : worker_state) : Prop :=
  match w with
  | WIdle | WReturned => True
  | WForward r l => EvQuery r ∈ es ∧ l ⊆ dnsServers
  | WExchange r s l | WDialled r s l _ | WTracked r s l _ => EvQuery r ∈ es ∧ s ∈ dnsServers ∧ l ⊆ dnsServers
  | WClosing r l _ resp | WUntracking r l _ resp => EvQuery r ∈ es ∧ l ⊆ dnsServers ∧ ∀ b, resp = Some b → answered es r b
  | WAnswered r b | WSending r b => EvQuery r ∈ es ∧ answered es r b
  end.

Definition reply_ok (es : list dns_event) : Prop :=
  ∀ a b, EvReply a b ∈ es → ∃ r, EvQuery r ∈ es ∧ dr_clientAddr r = a ∧ answered es r b.

(** The open connection a worker has, and the one it keeps tracked. *)
Definition holds (w : worker_state) : option nat :=
  match w with WDialled _ _ _ c | WTracked _ _ _ c | WClosing _ _ c _ => Some c | _ => None end.
Definition tracks (w : worker_state) : option nat :=
  match w with WTracked _ _ _ c | WClosing _ _ c _ | WUntracking _ _ c _ => Some c | _ => None end.

Definition owned (f : worker_state → option nat) (ws : list worker_state) (conns : gset nat) : Prop :=
  ∀ c, c ∈ conns → ∃ i w, ws !! i = Some w ∧ f w = Some c.

Record dns_inv (d : forwarder) : Prop := {
  di_workers : length (df_workers d) = dnsWorkerCount;
  di_queue : (length (df_queue d) <= dnsQueueSize)%nat;
  di_queued : Forall (known d) (df_queue d);
  di_serve : ∀ r, df_serve d = SQueueing r → known d r;
  di_ok : Forall (worker_ok (df_events d)) (df_workers d);
  di_replies : reply_ok (df_events d);
  di_open : owned holds (df_workers d) (df_open d);
  di_tracked : owned tracks (df_workers d) (df_upstreams d) }.

Lemma answered_mono es es' r b : es ⊆ es' → answered es r b → answered es' r b.
Proof. intros Hs (s & Hin & H). exists s. auto. Qed.

Lemma worker_ok_mono es es' w : es ⊆ es' → worker_ok es w → worker_ok es' w.
Proof. intros Hs. destruct w; cbn; naive_solver eauto using answered_mono. Qed.

(** A worker moves on: what it gives up is no longer there, and what it gets is. *)
Lemma owned_insert f ws conns conns' i w w' :
  owned f ws conns → ws !! i = Some w → (∀ c, c ∈ conns' → c ∈ conns ∨ f w' = Some c) →
  (∀ c, f w = Some c → c ∈ conns' → f w' = Some c) → owned f (<[i:=w']> ws) conns'.
Proof.
  intros Ho Hw Hin Hkeep c Hc. assert (Hlt : (i < length ws)%nat) by (by eapply lookup_lt_Some).
  assert (Hnew : f w' = Some c → ∃ j u, <[i:=w']> ws !! j = Some u ∧ f u = Some c).
  { intros H. exists i, w'. by rewrite list_lookup_insert_eq. }
  destruct (Hin c Hc) as [Hold|Hf]; [|by apply Hnew]. destruct (Ho c Hold) as (j & u & Hj & Hu).
  destruct (decide (j = i)) as [->|Hne].
  - apply Hnew, Hkeep; [|done]. by assert (u = w) as <- by congruence.
  - exists j, u. by rewrite list_lookup_insert_ne.
Qed.

Lemma owned_subset f ws conns conns' : owned f ws conns → conns' ⊆ conns → owned f ws conns'.
Proof. intros Ho Hs c Hc. apply Ho. set_solver. Qed.

Lemma init_inv d : NewDNSForwarder dnsServers = Some d → dns_inv d.
Proof.
  unfold NewDNSForwarder. destruct dnsServers; [done|]. intros [= <-]. split; try done; cbn [df_workers df_queue df_events df_open df_upstreams].
  - cbn. lia.
  - by repeat constructor.
  - intros a b Hin. by apply elem_of_nil in Hin.
Qed.

Lemma answered_in es s r b : s ∈ dnsServers → answered (es ++ [EvAnswer (dnsServerAddr s) (dr_query r) b]) r b.
Proof. intros Hs. exists s. split; [done|]. apply elem_of_app. right. by left. Qed.

Lemma reply_ok_app es e : reply_ok es → (∀ a b, e = EvReply a b → ∃ r, EvQuery r ∈ es ∧ dr_clientAddr r = a ∧ answered es r b) → reply_ok (es ++ [e]).
Proof.
  intros Hr He a b [Hin|Hin%list_elem_of_singleton]%elem_of_app.
  - destruct (Hr a b Hin) as (r & Hq & Ha & Han). exists r. split; [set_solver|]. split; [done|]. eapply answered_mono; [|exact Han]. set_solver.
  - destruct (He a b (eq_sym Hin)) as (r & Hq & Ha & Han). exists r. split; [set_solver|]. split; [done|]. eapply answered_mono; [|exact Han]. set_solver.
Qed.

(** A step of a worker, given what it does to each part. *)
Lemma worker_moves i w w' d d' :
  dns_inv d → df_workers d !! i = Some w →
  df_workers d' = <[i:=w']> (df_workers d) → df_serve d' = df_serve d →
  df_events d ⊆ df_events d' → reply_ok (df_events d') → worker_ok (df_events d') w' →
  (length (df_queue d') <= dnsQueueSize)%nat → df_queue d' ⊆ df_queue d →
  (∀ c, c ∈ df_open d' → (c ∈ df_open d ∨ holds w' = Some c) ∧ (holds w = Some c → holds w' = Some c)) →
  (∀ c, c ∈ df_upstreams d' → (c ∈ df_upstreams d ∨ tracks w' = Some c) ∧ (tracks w = Some c → tracks w' = Some c)) →
  dns_inv d'.
Proof.
  intros [H1 H2 H3 H4 H5 H6 H7 H8] Hw Hws Hs He Hr Hok Hql Hq Ho Hu. split.
  - by rewrite Hws, length_insert.
  - done.
  - apply Forall_forall. intros r Hin. unfold known. rewrite Forall_forall in H3. apply He, H3, Hq, Hin.
  - intros r Hsr. rewrite Hs in Hsr. apply He, H4, Hsr.
  - rewrite Hws. apply Forall_insert; [|done]. eapply Forall_impl; [exact H5|]. intros u. by apply worker_ok_mono.
  - done.
  - rewrite Hws. eapply owned_insert; [exact H7|exact Hw| |]; intros c; [intros Hc; by apply Ho|intros Hh Hc; by apply (proj2 (Ho c Hc))].
  - rewrite Hws. eapply owned_insert; [exact H8|exact Hw| |]; intros c; [intros Hc; by apply Hu|intros Hh Hc; by apply (proj2 (Hu c Hc))].
Qed.

Lemma ok_at d i w : dns_inv d → df_workers d !! i = Some w → worker_ok (df_events d) w.
Proof. intros Hi Hw. pose proof (di_ok d Hi) as H. by eapply Forall_lookup_1 in H. Qed.

Lemma worker_inv i d d' : dns_inv d → worker_step dnsServers i d d' → dns_inv d'.
Proof.
  intros Hi Hs. destruct Hs;
    match goal with H : df_workers d !! i = Some _ |- _ => pose proof (ok_at d i _ Hi H) as Hok; eapply (worker_moves i _ _ d); [exact Hi|exact H|reflexivity|reflexivity|..] end;
    cbn [set_worker set_conns set_queue seen df_events df_queue df_open df_upstreams worker_ok holds tracks] in *;
    try (set_solver); try (apply Hi); try (destruct Hi; lia).
  - split; [|done]. pose proof (di_queued d Hi) as Hq. match goal with H : df_queue d = _ |- _ => rewrite H in Hq end. by inversion Hq.
  - pose proof (di_queue d Hi) as Hq. match goal with H : df_queue d = _ |- _ => rewrite H in Hq end. cbn [length] in Hq. lia.
  - match goal with H : df_queue d = _ |- _ => rewrite H end. set_solver.
  - rewrite app_nil_r. apply Hi.
  - apply reply_ok_app; [apply Hi|done].
  - destruct Hok as (Hq & Hl & Hb). destruct resp as [b|]; [split; [done|by apply Hb]|done].
  - apply reply_ok_app; [apply Hi|]. intros a b' [= <- <-]. exists r. by destruct Hok.
Qed.

Lemma serve_inv d d' : dns_inv d → serve_step d d' → dns_inv d'.
Proof.
  intros [H1 H2 H3 H4 H5 H6 H7 H8] Hs. destruct Hs as [q addr Hr Hsock Hl r|Hr Hst|Hr Hst|r Hr Hl|r Hr Hst].
  - split; cbn [set_serve seen df_workers df_queue df_serve df_events df_open df_upstreams]; try done.
    + eapply Forall_impl; [exact H3|]. intros u Hu. unfold known in *. cbn. set_solver.
    + intros u [= <-]. unfold known. cbn. set_solver.
    + eapply Forall_impl; [exact H5|]. intros w. apply worker_ok_mono. set_solver.
    + by apply reply_ok_app.
  - by split.
  - split; try done.
  - split; cbn [set_serve set_queue df_workers df_queue df_serve df_events df_open df_upstreams]; try done.
    + rewrite length_app. cbn [length]. lia.
    + apply Forall_app. split; [done|]. constructor; [by apply (H4 r)|constructor].
  - split; try done.
Qed.

Lemma close_inv d d' : dns_inv d → close_step d d' → dns_inv d'.
Proof.
  intros [H1 H2 H3 H4 H5 H6 H7 H8] Hs. destruct Hs; split; try done. eapply owned_subset; [exact H7|]. cbn. set_solver.
Qed.

Lemma run_inv d d' : dns_inv d → dns_run d d' → dns_inv d'.
Proof.
  intros Hi Hr. induction Hr as [|d d1 d2 [Hs|i Hs|Hs] _ IH]; [done|..]; apply IH; [by eapply serve_inv|by eapply worker_inv|by eapply close_inv].
Qed.

(** Connections that have an owner are no more than the owners. *)
Lemma owned_size f ws conns : owned f ws conns → (size conns <= length ws)%nat.
Proof.
  intros Ho. unfold size, set_size. cbn [compose]. transitivity (length (omap f ws)); [|clear; induction ws as [|w ws IH]; cbn; [lia|destruct (f w); cbn; lia]].
  apply submseteq_length, NoDup_submseteq; [apply NoDup_elements|]. intros c Hc%elem_of_elements.
  destruct (Ho c Hc) as (i & w & Hi & Hw). apply list_elem_of_omap. exists w. split; [by eapply list_elem_of_lookup_2|done].
Qed.

Lemma owned_returned f ws conns : owned f ws conns → Forall (λ w, w = WReturned) ws → f WReturned = None → conns = ∅.
Proof.
  intros Ho Hw Hf. apply set_eq. intros c. split; [|by intros ?%elem_of_empty]. intros Hc. destruct (Ho c Hc) as (i & w & Hi & He).
  eapply Forall_lookup_1 in Hw; [|exact Hi]. cbn in Hw. subst w. congruence.
Qed.

(** [Close] returns after everything else. *)
Definition closed_ok (d : forwarder) : Prop := df_close d = CReturned → all_returned d.

Lemma closed_step d d' : closed_ok d → dns_step dnsServers d d' → closed_ok d'.
Proof.
  intros Hc Hs. unfold closed_ok, all_returned in *. destruct Hs as [Hs|i Hs|Hs].
  - destruct Hs; cbn; intros H'; destruct (Hc H') as [? ?]; congruence || done.
  - intros H'. assert (Hcl : df_close d = CReturned) by (destruct Hs; exact H'). destruct (Hc Hcl) as [_ Hw].
    exfalso. destruct Hs; match goal with H : df_workers d !! i = Some _ |- _ => eapply Forall_lookup_1 in Hw; [|exact H]; discriminate Hw end.
  - destruct Hs; cbn; try done. 
Qed.

(** C21: The forwarder answers what it was asked. However queries come, servers answer and fail, and
    [Close] interferes: every datagram it sends to a client is what one of the configured servers
    answered to a query that this client had sent; at most 32 connections to servers are open
    and at most 128 queries wait; and once [Close] has returned no connection is left. Of a datagram
    longer than 4096 bytes the first 4096 are what was asked or answered. *)
Theorem dns_forwarder_exact d0 d :
  NewDNSForwarder dnsServers = Some d0 → dns_run d0 d →
  (∀ addr resp, EvReply addr resp ∈ df_events d →
    ∃ r s, EvQuery r ∈ df_events d ∧ dr_clientAddr r = addr ∧ s ∈ dnsServers ∧ EvAnswer (dnsServerAddr s) (dr_query r) resp ∈ df_events d)
  ∧ (size (df_open d) <= dnsWorkerCount)%nat ∧ (length (df_queue d) <= dnsQueueSize)%nat
  ∧ (df_close d = CReturned → df_open d = ∅ ∧ df_upstreams d = ∅).
Proof.
  intros H0 Hrun. assert (Hi : dns_inv d) by (eapply run_inv; [by apply init_inv|exact Hrun]).
  assert (Hc : closed_ok d).
  { assert (Hc0 : closed_ok d0) by (unfold NewDNSForwarder in H0; destruct dnsServers; [done|]; by injection H0 as <-).
    clear -Hrun Hc0. induction Hrun; [done|]. apply IHHrun. by eapply closed_step. }
  split_and!.
  - intros addr resp Hin. destruct (di_replies d Hi addr resp Hin) as (r & Hq & Ha & s & Hs & Han). by exists r, s.
  - rewrite <- (di_workers d Hi). apply owned_size with holds, Hi.
  - apply Hi.
  - intros Hcl. destruct (Hc Hcl) as [_ Hw]. split; [by eapply (owned_returned holds); [apply Hi|..]|by eapply (owned_returned tracks); [apply Hi|..]].
Qed.
End runs.

(** ** One query *)

Definition example_query : bytes := String.list_ascii_of_string "example.com?".
Definition example_answer : bytes := String.list_ascii_of_string "93.184.216.34".

Ltac takes c := eapply rtc_l; [first [apply step_serve; c | apply (step_worker _ _ _ 0%nat); c | apply step_close; c]|].

Lemma example_forwarder :
  ∃ d0 d, NewDNSForwarder ["8.8.8.8"] = Some d0 ∧ dns_run ["8.8.8.8"] d0 d
    ∧ EvReply "192.168.107.2:40000" example_answer ∈ df_events d.
Proof.
  eexists _, _. split; [reflexivity|]. split.
  - takes ltac:(apply (serve_read _ example_query "192.168.107.2:40000"); done).
    takes ltac:(eapply serve_queue; [reflexivity|cbv; lia]).
    takes ltac:(eapply worker_take; reflexivity).
    takes ltac:(eapply forward_next; reflexivity).
    takes ltac:(eapply exchange_dial; reflexivity).
    takes ltac:(eapply track; reflexivity).
    takes ltac:(eapply (exchange_read _ _ _ _ _ _ _ example_answer); [reflexivity|cbn; set_solver]).
    takes ltac:(eapply exchange_close; reflexivity).
    takes ltac:(eapply untrack; reflexivity).
    takes ltac:(eapply answer; reflexivity).
    takes ltac:(eapply answer_send; reflexivity).
    apply rtc_refl.
  - cbn. set_solver.
Qed.

Lemma dns_forwarder_exact_witness :
  ∃ d r s, EvReply "192.168.107.2:40000" example_answer ∈ df_events d ∧ dr_clientAddr r = "192.168.107.2:40000"
    ∧ EvAnswer (dnsServerAddr s) (dr_query r) example_answer ∈ df_events d ∧ s ∈ ["8.8.8.8"].
Proof.
  destruct example_forwarder as (d0 & d & H0 & Hrun & Hin).
  destruct (dns_forwarder_exact ["8.8.8.8"] d0 d H0 Hrun) as [Hr _]. destruct (Hr _ _ Hin) as (r & s & _ & Ha & Hs & Han).
  exists d, r, s. auto.
Defined.
