(* ===== verification/SandboxHost.v ===== *)
(** * The host of a sandbox: what pkg/sandbox asks of it; rootfs.go, overlay_snapshot.go

    A sandbox takes things outside its process: disk images, a machine, listeners, tables,
    goroutines. Each request is a [call], and the host [env] answers it from all that was asked
    before; nothing is assumed of the answers. What a sandbox holds is read off the trace of the
    calls ([holds]): an answered acquisition holds its [resource], and a release gives it back
    unless the host answers with an error; then it is held still, and [stuck]. *)

From S2P Require Import Prelude GoStrings GoStd GoPath VfsBase VfsMemory VfsRouter VfsHooks Api ApiConfig Db Lifecycle State Boot Firewall.

(** ** Calls *)

(** Where the VFS server listens: at a socket of the host, or on the machine's own listener. *)
Inductive vfs_socket := UnixSocket (path : string) | MachineListener.

Inductive call :=
| OsMkdirAll (p : string) | OsRemoveAll (p : string) | OsRemove (p : string) | OsStat (p : string)
| OsSignal (pid sig : Z) | OsReadFile (p : string) | OsPsStat (pid : string)
| CreateFile (p : string) | Truncate (p : string) (size : Z) | CloseFile (p : string)
| CreateTemp (pattern : string) | WriteTemp (p content : string)
| LookPath (tool : string) | RunTool (tool : string) (args : list string) (stdin : string)
| CopySnapshot (src dst : string)
| NewCAPool | ResolveKernelPath | ResolveKernelRef (ref : string)
| CreateMachine (c : VMConfig) | MachineStart | MachineStop | MachineExec (cmd : string) | MachineClose
| ListenProxy (gateway : string) | StartProxy | CloseProxy
| ListenDNS (gateway : string) (servers : list string) | CloseDNS
| SetupFirewall (r : NFTablesRules) | CleanupFirewall (r : NFTablesRules)
| SetupNAT (tap : string) | CleanupNAT (tap : string)
| HasNetworkFile | ListenStack (gateway guest : string) (mtu : Z) (servers : list string) | CloseStack | ResetStack
| StartHooks | CloseHooks | ServeVFS (s : vfs_socket) | StopVFS | MakeEvents | CloseEvents
| Warn (what : string).

(** A machine answers with the name of its TAP device (the empty one on darwin), the proxy with its ports, the CA pool with
    its certificate. *)
Definition answer (c : call) : Type :=
  match c with
  | OsReadFile _ | OsPsStat _ | CreateTemp _ | LookPath _ | NewCAPool | ResolveKernelPath | ResolveKernelRef _
  | CreateMachine _ => result os_error string
  | ListenProxy _ => result os_error (Z * Z * Z)
  | ListenDNS _ _ => result os_error Z
  | HasNetworkFile => bool
  | StartProxy | StartHooks | CloseHooks | CloseDNS | StopVFS | MakeEvents | CloseEvents | MachineExec _ | Warn _ => unit
  | _ => option os_error
  end.

Record event := Ev { ev_call : call; ev_answer : answer ev_call }.

(** ** Resources *)

Inductive resource :=
| RMachine | RRunning | REvents | RStack | RProxy | RDns | RFirewall | RNat | RHooks | RVfs | RImage (p : string) | RSnapshot (p : string).

#[export] Instance resource_eq_dec : EqDecision resource.
Proof. solve_decision. Defined.

Definition got {E A} (r : result E A) : option bool := match r with Ok _ => Some true | Err _ => None end.
Definition done_ok {E} (r : option E) : option bool := match r with None => Some true | Some _ => None end.
Definition only (b : bool) (x : option bool) : option bool := if b then x else None.

(** What an event says of a resource, if anything: that it is taken, or that it is asked to be
    given back. A copy that fails may leave a part, a start that fails may have started the guest. *)
Definition settle (e : event) (r : resource) : option bool :=
  match e with
  | Ev c x =>
      match c return answer c → option bool with
      | CreateMachine _ => λ x, only (bool_decide (r = RMachine)) (got x)
      | MachineStart => λ _, only (bool_decide (r = RRunning)) (Some true)
      | MachineStop => λ _, only (bool_decide (r = RRunning)) (Some false)
      | MachineClose => λ _, only (bool_decide (r = RMachine ∨ r = RRunning)) (Some false)
      | MakeEvents => λ _, only (bool_decide (r = REvents)) (Some true)
      | CloseEvents => λ _, only (bool_decide (r = REvents)) (Some false)
      | ListenProxy _ => λ x, only (bool_decide (r = RProxy)) (got x)
      | CloseProxy => λ _, only (bool_decide (r = RProxy)) (Some false)
      | ListenDNS _ _ => λ x, only (bool_decide (r = RDns)) (got x)
      | CloseDNS => λ _, only (bool_decide (r = RDns)) (Some false)
      | ListenStack _ _ _ _ => λ x, only (bool_decide (r = RStack)) (done_ok x)
      | CloseStack => λ _, only (bool_decide (r = RStack)) (Some false)
      | SetupFirewall _ => λ x, only (bool_decide (r = RFirewall)) (done_ok x)
      | CleanupFirewall _ => λ _, only (bool_decide (r = RFirewall)) (Some false)
      | SetupNAT _ => λ x, only (bool_decide (r = RNat)) (done_ok x)
      | CleanupNAT _ => λ _, only (bool_decide (r = RNat)) (Some false)
      | StartHooks => λ _, only (bool_decide (r = RHooks)) (Some true)
      | CloseHooks => λ _, only (bool_decide (r = RHooks)) (Some false)
      | ServeVFS _ => λ x, only (bool_decide (r = RVfs)) (done_ok x)
      | StopVFS => λ _, only (bool_decide (r = RVfs)) (Some false)
      | CreateFile p => λ x, only (bool_decide (r = RImage p)) (done_ok x)
      | OsRemove p => λ _, only (bool_decide (r = RImage p)) (Some false)
      | CopySnapshot _ p => λ _, only (bool_decide (r = RSnapshot p)) (Some true)
      | OsRemoveAll p => λ _, only (bool_decide (r = RSnapshot p)) (Some false)
      | _ => λ _, None
      end x
  end.

(** The host refuses to take something back: the release answers with an error. A file that is
    not there is not refused. *)
Definition refuses (e : event) : bool :=
  match e with
  | Ev c x =>
      match c return answer c → bool with
      | MachineStop | MachineClose | CloseProxy | CloseStack | CleanupFirewall _ | CleanupNAT _ | OsRemoveAll _ =>
          λ x, match x with Some _ => true | None => false end
      | OsRemove _ => λ x, match x with Some e => negb (oe_not_exist e) | None => false end
      | _ => λ _, false
      end x
  end.

(** A resource is free, held, or stuck: still held, since the host refused to take it back. *)
Inductive standing := Free | Held | Stuck.

#[export] Instance standing_eq_dec : EqDecision standing.
Proof. solve_decision. Defined.

Definition change (e : event) (r : resource) (s : standing) : standing :=
  match settle e r with
  | Some true => Held
  | Some false => if refuses e then match s with Free => Free | _ => Stuck end else Free
  | None => s
  end.

Definition stands (t : list event) (r : resource) : standing := foldl (λ s e, change e r s) Free t.

(** What is held; what is held and was not asked to be given back; what the host keeps. *)
Definition holds (t : list event) (r : resource) : bool := bool_decide (stands t r ≠ Free).
Definition owes (t : list event) (r : resource) : bool := bool_decide (stands t r = Held).
Definition stuck (t : list event) (r : resource) : bool := bool_decide (stands t r = Stuck).

Lemma stands_snoc t e r : stands (t ++ [e]) r = change e r (stands t r).
Proof. unfold stands. by rewrite foldl_app. Qed.

Lemma owes_snoc t e r : owes (t ++ [e]) r = default (owes t r) (settle e r).
Proof.
  unfold owes. rewrite stands_snoc. unfold change. destruct (settle e r) as [[]|]; cbn [default]; [by case_bool_decide| |done].
  destruct (refuses e), (stands t r); by case_bool_decide.
Qed.

Lemma holds_owes t r : holds t r = true ↔ owes t r = true ∨ stuck t r = true.
Proof. unfold holds, owes, stuck. rewrite !bool_decide_eq_true. destruct (stands t r); naive_solver. Qed.

(** No release of the event channel fails. *)
Lemma events_owed t : holds t REvents = owes t REvents.
Proof.
  assert (Hs : stands t REvents ≠ Stuck).
  { induction t as [|e t IH] using rev_ind; [done|]. rewrite stands_snoc. unfold change.
    destruct e as [[] x]; cbn [settle refuses]; unfold only, got, done_ok; repeat case_match; try done;
      repeat case_bool_decide; naive_solver. }
  unfold holds, owes. destruct (stands t REvents); [by case_bool_decide..|done].
Qed.

(** ** The state of the process *)

(** The calls so far; the objects of the VFS; the lifecycle store of the sandbox. *)
Record world := {
  w_trace : list event; w_mem : memstore; w_engine : engine_state; w_now : Z; w_store : Store }.

Definition log (e : event) (w : world) : world := {|
  w_trace := w_trace w ++ [e]; w_mem := w_mem w; w_engine := w_engine w; w_now := w_now w; w_store := w_store w |}.
Definition set_store (s : Store) (w : world) : world := {|
  w_trace := w_trace w; w_mem := w_mem w; w_engine := w_engine w; w_now := w_now w; w_store := s |}.

#[export] Instance world_memstore : Has memstore world.
Proof.
  refine {| get_st := w_mem; put_st := λ s w, {|
    w_trace := w_trace w; w_mem := s; w_engine := w_engine w; w_now := w_now w; w_store := w_store w |} |}; by intros; try destruct w.
Defined.
#[export] Instance world_engine : Has engine_state world.
Proof.
  refine {| get_st := w_engine; put_st := λ s w, {|
    w_trace := w_trace w; w_mem := w_mem w; w_engine := s; w_now := w_now w; w_store := w_store w |} |}; by intros; try destruct w.
Defined.
#[export] Instance world_clock : Clock world := w_now.

Abbreviation hst := (host world) (only parsing).
Definition trace (h : host world) : list event := w_trace (h_os h).

Definition on_world {A} (m : M world A) : M (host world) A := λ h,
  match m (h_os h) with Some (a, w) => Some (a, Build_host (h_db h) w) | None => None end.

(** An operation on the store of the sandbox. *)
Definition life (f : Store → M storage (option life_error * Store)) : M (host world) (option life_error) := λ h,
  match f (w_store (h_os h)) (h_db h) with
  | Some (e, st, s) => Some (e, Build_host s (set_store st (h_os h)))
  | None => None
  end.

Section host.
Context (env : list event → ∀ c, answer c).

Definition ask_host {A} (c : call) (f : answer c → A) : world → A * world := λ w,
  let x := env (w_trace w) c in (f x, log (Ev c x) w).
Definition host_call (c : call) : M (host world) (answer c) := on_os (ask_host c id).
Definition do (c : call) : M (host world) unit := _ ← host_call c; mret tt.

(** The host of the registry, for the process [pid]. *)
Definition linux_ops (pid : Z) : host_ops world := {|
  os_GOOS := "linux"; os_Getpid := pid;
  os_MkdirAll p := ask_host (OsMkdirAll p) id; os_RemoveAll p := ask_host (OsRemoveAll p) id; os_Remove p := ask_host (OsRemove p) id;
  os_Signal p s := ask_host (OsSignal p s) id; os_ReadFile p := ask_host (OsReadFile p) id; os_ps_stat p := ask_host (OsPsStat p) id |}.

(** ** rootfs.go *)

Inductive disk_error :=
| BadSize (mb : Z) | DiskOs (e : os_error) | NoTool | NoGuestInit (e : os_error).

Definition defaultBootstrapRootfsMB : Z := 64.

(** [f.Truncate] and [f.Close] of a file just created, which is removed when one fails. *)
Definition sized_file (path : string) (sizeMB : Z) (k : M (host world) (option disk_error)) : M (host world) (option disk_error) :=
  e ← host_call (CreateFile path);
  match e with
  | Some e => mret (Some (DiskOs e))
  | None =>
      e ← host_call (Truncate path (int64 (sizeMB * 1024 * 1024)));
      match e with
      | Some e => _ ← do (CloseFile path); _ ← do (OsRemove path); mret (Some (DiskOs e))
      | None =>
          e ← host_call (CloseFile path);
          match e with
          | Some e => _ ← do (OsRemove path); mret (Some (DiskOs e))
          | None => k
          end
      end
  end.

Definition run_mke2fs (path tool : string) : M (host world) (option disk_error) :=
  e ← host_call (RunTool tool ["-t"; "ext4"; "-F"; "-q"; path] "");
  match e with Some e => _ ← do (OsRemove path); mret (Some (DiskOs e)) | None => mret None end.

Definition createExt4Image (path : string) (sizeMB : Z) : M (host world) (option disk_error) :=
  if sizeMB <=? 0 then mret (Some (BadSize sizeMB))
  else sized_file path sizeMB (
    r ← host_call (LookPath "mke2fs");
    match r with
    | Ok tool => run_mke2fs path tool
    | Err _ =>
        r ← host_call (LookPath "mkfs.ext4");
        match r with
        | Ok tool => run_mke2fs path tool
        | Err _ => _ ← do (OsRemove path); mret (Some NoTool)
        end
    end).

Definition createSwapImage (path : string) (sizeMB : Z) : M (host world) (option disk_error) :=
  if sizeMB <=? 0 then mret (Some (BadSize sizeMB)) else sized_file path sizeMB (mret None).

Definition newline : string := String (chr 10) "".

Definition debugfs (image : string) (commands : list string) : M (host world) (option disk_error) :=
  e ← host_call (RunTool "debugfs" ["-w"; image] (Join commands newline));
  mret (DiskOs <$> e).

(** The directories from the root to [dir], [n] at most. *)
Fixpoint ancestors (n : nat) (dir : string) : list string :=
  match n with
  | O => []
  | S n' => if bool_decide (dir = "/") || bool_decide (dir = ".") then [] else ancestors n' (Dir dir) ++ [dir]
  end.

(** What debugfs is told to put a file of the host in an image. *)
Definition inject_commands (hostPath guestPath mode : string) : list string :=
  [ "rm " +:+ guestPath; "write " +:+ hostPath +:+ " " +:+ guestPath;
    "set_inode_field " +:+ guestPath +:+ " mode " +:+ mode ].
Definition mkdir_commands (dirs : list string) : list string := (λ d, "mkdir " +:+ d) <$> dirs.
Definition parents (guestPath : string) : list string :=
  let dir := Dir guestPath in ancestors (S (String.length dir)) dir.

Definition injectHostBinaryIntoRootfs (rootfsPath hostPath guestPath : string) : M (host world) (option disk_error) :=
  debugfs rootfsPath (mkdir_commands (parents guestPath) ++ inject_commands hostPath guestPath "0100755").

(** [guestInit] is DefaultGuestInitPath(). *)
Definition createBootstrapRootfs (guestInit path : string) : M (host world) (option disk_error) :=
  e ← createExt4Image path defaultBootstrapRootfsMB;
  match e with
  | Some e => mret (Some e)
  | None =>
      e ← host_call (OsStat guestInit);
      match e with
      | Some e => _ ← do (OsRemove path); mret (Some (NoGuestInit e))
      | None =>
          e ← injectHostBinaryIntoRootfs path guestInit "/init";
          match e with Some e => _ ← do (OsRemove path); mret (Some e) | None => mret None end
      end
  end.

Definition upper_commands (guestInit : string) : list string :=
  mkdir_commands ["/upper"; "/upper/opt"; "/upper/opt/matchlock"; "/work"]
  ++ concat ((λ p, inject_commands guestInit p "0100755") <$>
       ["/upper/opt/matchlock/guest-init"; "/upper/opt/matchlock/guest-agent"; "/upper/opt/matchlock/guest-fused"; "/upper/init"]).

Definition prepareOverlayUpperRootfs (guestInit rootfsPath : string) : M (host world) (option disk_error) :=
  e ← host_call (OsStat guestInit);
  match e with
  | Some e => mret (Some (NoGuestInit e))
  | None => debugfs rootfsPath (upper_commands guestInit)
  end.

(** The deferred removal of the temporary file is last. *)
Definition injectConfigFileIntoRootfs (rootfsPath guestPath content : string) : M (host world) (option disk_error) :=
  r ← host_call (CreateTemp "inject-*");
  match r with
  | Err e => mret (Some (DiskOs e))
  | Ok tmpPath =>
      e ← host_call (WriteTemp tmpPath content);
      _ ← do (CloseFile tmpPath);
      r ← match e with
          | Some e => mret (Some (DiskOs e))
          | None => debugfs rootfsPath (mkdir_commands (parents guestPath) ++ inject_commands tmpPath guestPath "0100644")
          end;
      _ ← do (OsRemove tmpPath);
      mret r
  end.

(** ** overlay_snapshot.go *)

Inductive snapshot_error := ErrPrepareOverlayMount (guestPath : string) | ErrSnapshotDir (e : os_error) | ErrCopyOverlaySource (e : os_error).

(** [fmt.Sprintf("mount-%03d", index)] *)
Definition mount_name (index : nat) : string :=
  let d := Itoa (Z.of_nat index) in
  "mount-" +:+ (match String.length d with 1%nat => "00" | 2%nat => "0" | _ => "" end) +:+ d.

Fixpoint cleanupSnapshotPaths (paths : list string) : M (host world) unit :=
  match paths with [] => mret tt | p :: paths' => _ ← do (OsRemoveAll p); cleanupSnapshotPaths paths' end.

Definition snapshot_mount (dst : string) (m : MountConfig) : MountConfig := {|
  mc_Type := MountTypeHostFS; mc_HostPath := dst; mc_Readonly := false; mc_Upper := None; mc_Lower := None;
  mc_OwnerUID := mc_OwnerUID m; mc_OwnerGID := mc_OwnerGID m |}.

(** The loop over the mounts still to see, with the snapshots made: theirs, and the mounts as
    they become. *)
Fixpoint snapshot_loop (root : string) (snapshots : list string) (mounts : list (string * MountConfig))
    : M (host world) (result snapshot_error (list string * list (string * MountConfig))) :=
  match mounts with
  | [] => mret (Ok (snapshots, []))
  | (guestPath, m) :: mounts' =>
      if negb (bool_decide (mc_Type m = MountTypeOverlay)) then
        r ← snapshot_loop root snapshots mounts';
        mret (match r with Ok (s, ms) => Ok (s, (guestPath, m) :: ms) | Err e => Err e end)
      else if bool_decide (mc_HostPath m = "") || (if mc_Upper m then true else false) || (if mc_Lower m then true else false) then
        _ ← cleanupSnapshotPaths snapshots; mret (Err (ErrPrepareOverlayMount guestPath))
      else
        e ← host_call (OsMkdirAll root);
        match e with
        | Some e => _ ← cleanupSnapshotPaths snapshots; mret (Err (ErrSnapshotDir e))
        | None =>
            let dst := PathJoin [root; mount_name (length snapshots)] in
            e ← host_call (CopySnapshot (mc_HostPath m) dst);
            match e with
            | Some e => _ ← cleanupSnapshotPaths (snapshots ++ [dst]); mret (Err (ErrCopyOverlaySource e))
            | None =>
                r ← snapshot_loop root (snapshots ++ [dst]) mounts';
                mret (match r with Ok (s, ms) => Ok (s, (guestPath, snapshot_mount dst m) :: ms) | Err e => Err e end)
            end
        end
  end.

Definition with_Mounts (ms : list (string * MountConfig)) (v : VFSConfig) : VFSConfig := {|
  vfs_Workspace := vfs_Workspace v; vfs_DirectMounts := vfs_DirectMounts v; vfs_Mounts := ms; vfs_Interception := vfs_Interception v |}.

Definition prepareOverlaySnapshots (v : option VFSConfig) (stateDir : string)
    : M (host world) (result snapshot_error (list string * option VFSConfig)) :=
  match v with
  | None => mret (Ok ([], None))
  | Some vfs =>
      if bool_decide (vfs_Mounts vfs = []) then mret (Ok ([], v)) else
      r ← snapshot_loop (PathJoin [stateDir; "overlay"]) [] (vfs_Mounts vfs);
      mret (match r with Ok (s, ms) => Ok (s, Some (with_Mounts ms vfs)) | Err e => Err e end)
  end.
End host.
