(* ===== verification/SandboxLife.v ===== *)
(** * The life of a sandbox: pkg/sandbox/sandbox_linux.go, kernel.go

    [New] acquires the parts of a sandbox in order and gives back what it has when a later one
    fails; [Start] and [Stop] drive the machine; [Close] gives everything back. The registry, the
    subnets, the lifecycle records, the policy engine and the VFS are their own components; the rest is asked of the
    host ([SandboxHost]). *)

From Stdlib Require Import Floats.SpecFloat.
From S2P Require Import Prelude GoStrings GoStd GoPath VfsBase VfsMemory VfsRealFS VfsRouter VfsHooks VfsIntercept Api ApiConfig SandboxVfs PolicyRules PolicyEngine Db Lifecycle State Subnets Boot Firewall SandboxHost.

(** ** Data *)

Record Options := { op_KernelPath : string; op_RootfsPaths : list string; op_RootfsFSTypes : list string }.

Inductive new_error :=
| ErrRootfsRequired
| ErrInvalidVFS (e : api_error)
| ErrRegisterState (e : state_error)
| ErrLifecycleInit (e : life_error)
| ErrPrepareBootstrapRoot (e : disk_error)
| ErrCreateRootfs (e : disk_error)
| ErrPrepareRootfs (e : disk_error)
| ErrInvalidNetwork (e : api_error)
| ErrBadCPUs
| ErrHostCPUs
| ErrCreateCAPool (e : os_error)
| ErrInjectCACert (e : disk_error)
| ErrAllocateSubnet (e : state_error)
| ErrKernel (e : os_error)
| ErrInvalidDiskCfg (e : api_error)
| ErrDiskLayout (e : layout_error)
| ErrSwap (e : disk_error)
| ErrCreateVM (e : os_error)
| ErrSnapshots (e : snapshot_error)
| ErrMissingGateway
| ErrCreateProxy (e : os_error)
| ErrCreateDNS (e : os_error)
| ErrFirewallSetup (e : os_error)
| ErrVFSProviders (e : err)
| ErrVFSServer (e : os_error)
| ErrVFSListener (e : os_error)
| ErrNetworkFile
| ErrNetworkStack (e : os_error)
| ErrLifecycleUpdate (e : life_error).

(** What Close reports. *)
Inductive close_error :=
| CloseLifecycle (e : life_error)
| CloseFirewall (e : os_error)
| CloseNAT (e : os_error)
| CloseProxyErr (e : os_error)
| CloseNetStack (e : os_error)
| CloseSubnet (e : state_error)
| CloseUnregister (e : state_error)
| CloseMachine (e : os_error)
| CloseSnapshot (p : string) (e : os_error)
| CloseRootfs (e : os_error).

(** A sandbox that [New] returns: [lifecycle], [stateMgr], [machine], [events] and [policy] are never nil. *)
Record Sandbox := {
  sb_id : string; sb_config : Config; sb_proxy : option (Z * Z * Z); sb_dnsForwarder : option Z;
  sb_fwRules : option NFTablesRules; sb_natRules : option string; sb_policy : Engine world;
  sb_vfsRoot : option (Iface world); sb_vfsHooks : bool; sb_vfsServer : bool; sb_tapName : string; sb_caPool : option string;
  sb_subnetInfo : option SubnetInfo; sb_subnetAlloc : bool; sb_workspace : string;
  sb_rootfsPath : string; sb_bootstrapPath : string; sb_overlaySnapshots : list string }.

Definition with_Network (n : option NetworkConfig) (c : Config) : Config := {|
  cfg_ID := cfg_ID c; cfg_Image := cfg_Image c; cfg_Privileged := cfg_Privileged c; cfg_Kernel := cfg_Kernel c;
  cfg_LaunchEntrypoint := cfg_LaunchEntrypoint c; cfg_Resources := cfg_Resources c; cfg_Network := n;
  cfg_VFS := cfg_VFS c; cfg_Env := cfg_Env c; cfg_ExtraDisks := cfg_ExtraDisks c; cfg_VirtioFS := cfg_VirtioFS c;
  cfg_VirtioFSMask := cfg_VirtioFSMask c; cfg_ImageCfg := cfg_ImageCfg c |}.
Definition with_VFS (v : option VFSConfig) (c : Config) : Config := {|
  cfg_ID := cfg_ID c; cfg_Image := cfg_Image c; cfg_Privileged := cfg_Privileged c; cfg_Kernel := cfg_Kernel c;
  cfg_LaunchEntrypoint := cfg_LaunchEntrypoint c; cfg_Resources := cfg_Resources c; cfg_Network := cfg_Network c;
  cfg_VFS := v; cfg_Env := cfg_Env c; cfg_ExtraDisks := cfg_ExtraDisks c; cfg_VirtioFS := cfg_VirtioFS c;
  cfg_VirtioFSMask := cfg_VirtioFSMask c; cfg_ImageCfg := cfg_ImageCfg c |}.
Definition with_ApiResources (r : ApiConfig.Resources) (c : Config) : Config := {|
  cfg_ID := cfg_ID c; cfg_Image := cfg_Image c; cfg_Privileged := cfg_Privileged c; cfg_Kernel := cfg_Kernel c;
  cfg_LaunchEntrypoint := cfg_LaunchEntrypoint c; cfg_Resources := Some r; cfg_Network := cfg_Network c;
  cfg_VFS := cfg_VFS c; cfg_Env := cfg_Env c; cfg_ExtraDisks := cfg_ExtraDisks c; cfg_VirtioFS := cfg_VirtioFS c;
  cfg_VirtioFSMask := cfg_VirtioFSMask c; cfg_ImageCfg := cfg_ImageCfg c |}.
Definition with_Allowed (l : list string) (n : NetworkConfig) : NetworkConfig := {|
  nc_AllowedHosts := l; nc_AddHosts := nc_AddHosts n; nc_BlockPrivateIPs := nc_BlockPrivateIPs n; nc_NoNetwork := nc_NoNetwork n;
  nc_Intercept := nc_Intercept n; nc_Interception := nc_Interception n; nc_Secrets := nc_Secrets n; nc_PathAllow := nc_PathAllow n;
  nc_PolicyScript := nc_PolicyScript n; nc_DNSServers := nc_DNSServers n; nc_Hostname := nc_Hostname n; nc_MTU := nc_MTU n |}.

Definition zero_network : NetworkConfig := {|
  nc_AllowedHosts := []; nc_AddHosts := []; nc_BlockPrivateIPs := false; nc_NoNetwork := false; nc_Intercept := false;
  nc_Interception := None; nc_Secrets := []; nc_PathAllow := []; nc_PolicyScript := ""; nc_DNSServers := []; nc_Hostname := ""; nc_MTU := 0 |}.

(** ** What the configuration says *)

Definition noNetwork (c : Config) : bool := match cfg_Network c with Some n => nc_NoNetwork n | None => false end.

Definition needsProxy (c : Config) : bool :=
  negb (noNetwork c) && match cfg_Network c with
  | Some n => nc_Intercept n || (if nc_Interception n then true else false)
              || negb (bool_decide (nc_AllowedHosts n = [])) || negb (bool_decide (nc_Secrets n = []))
  | None => false
  end.

Definition vcpus_error (numCPU : Z) (c : Config) : option new_error :=
  match cfg_Resources c with
  | None => None
  | Some r =>
      let (vcpus, ok) := VCPUCount (ApiConfig.rs_CPUs r) in
      if negb ok then Some ErrBadCPUs else if numCPU <? vcpus then Some ErrHostCPUs else None
  end.

Definition disk_size (c : Config) : Z :=
  match cfg_Resources c with Some r => if 0 <? rs_DiskSizeMB r then rs_DiskSizeMB r else DefaultDiskSizeMB | None => DefaultDiskSizeMB end.
Definition swap_size (c : Config) : Z := match cfg_Resources c with Some r => rs_SwapSizeMB r | None => 0 end.
Definition zramPct (c : Config) : Z := match cfg_Resources c with Some r => rs_ZramPct r | None => 0 end.

Fixpoint extra_disks (l : list DiskMount) : result api_error (list DiskConfig) :=
  match l with
  | [] => Ok []
  | d :: l' =>
      match ValidateGuestMount (disk_GuestMount d) with
      | Some e => Err e
      | None =>
          rest ← extra_disks l';
          Ok ({| dc_HostPath := disk_HostPath d; dc_GuestMount := disk_GuestMount d; dc_ReadOnly := disk_ReadOnly d |} :: rest)
      end
  end.

(** One host of a secret, given the allow list and its set. *)
Definition allow_host (acc : list string * gset string) (h : string) : list string * gset string :=
  if decide (h ∈ acc.2) then acc else (acc.1 ++ [h], {[h]} ∪ acc.2).

(** The hosts of the secrets join the allow list. *)
Definition allow_secret_hosts (n : NetworkConfig) : NetworkConfig :=
  if decide (nc_Secrets n = []) then n
  else with_Allowed (foldl allow_host (nc_AllowedHosts n, list_to_set (nc_AllowedHosts n)) (concat ((secret_Hosts ∘ snd) <$> nc_Secrets n))).1 n.

(** ** The programs *)

Section life.
Context `{HostABI} (vos : OsFS world) (env : list event → ∀ c, answer c).
(** The process and the files of matchlock on the host. *)
Context (pid numCPU euid egid : Z) (guestInit baseDir subnetDir : string) (openErr : option db_error).
(** A new identifier, the texts of errors, the JSON of a configuration, the default kernel. *)
Context (uuid8 : string) (new_text : new_error → string) (close_text : list close_error → string)
  (state_text : state_error → string) (to_json : Config → option vm_config) (defaultKernelRef : string).
Context (exchange : string → Z → NetworkHookCallbackRequest → M world (result policy_error NetworkHookCallbackResponse))
  (random : string → string).

Notation host_call := (host_call env).
Notation do := (do env).
Notation run := (M (host world)).

Definition stateMgr : Manager := {| mg_baseDir := baseDir; mg_initErr := openErr |}.
Definition subnetAllocator : SubnetAllocator := NewSubnetAllocatorWithDir openErr subnetDir.
Definition vm_dir (id : string) : string := Manager_Dir stateMgr id.
Definition bootstrap_path (id : string) : string := vm_dir id +:+ "/bootstrap.ext4".
Definition upper_path (id : string) : string := vm_dir id +:+ "/upper.ext4".
Definition swap_path (id : string) : string := PathJoin [vm_dir id; "swap.img"].

Definition SetPhase (p : string) : run (option life_error) := life (λ st, Store_SetPhase st p).
Definition SetLastError (e : option string) : run (option life_error) := life (λ st, Store_SetLastError st e).
Definition SetResource (f : Db.Resources → Db.Resources) : run unit := _ ← life (λ st, Store_SetResource st f); mret tt.

Definition unregister (id : string) : run unit := _ ← Manager_Unregister stateMgr id; mret tt.
(** [alloc] is whether the allocator was made. *)
Definition releaseSubnet (alloc : bool) (id : string) : run unit :=
  if alloc then _ ← on_db (Subnet_Release subnetAllocator id); mret tt else mret tt.
Definition cleanupRootDisks (id : string) : run unit := _ ← do (OsRemove (bootstrap_path id)); do (OsRemove (upper_path id)).
Definition closeMachine : run unit := do MachineClose.

Definition failing {A} (cleanup : run unit) (e : new_error) : run (result new_error A) := _ ← cleanup; mret (Err e).
(** [if err := p; err != nil { cleanup; return err }] *)
Definition or_fail {E A} (p : run (option E)) (cleanup : run unit) (wrap : E → new_error) (k : run (result new_error A)) : run (result new_error A) :=
  r ← p; match r with Some e => failing cleanup (wrap e) | None => k end.
Definition or_fail_with {E A B} (p : run (result E B)) (cleanup : run unit) (wrap : E → new_error) (k : B → run (result new_error A)) : run (result new_error A) :=
  r ← p; match r with Err e => failing cleanup (wrap e) | Ok b => k b end.
Definition seq (p q : run unit) : run unit := _ ← p; q.

(** *** The disks *)

Definition record_disks (id : string) (r : Db.Resources) : Db.Resources := {|
  Db.rs_StateDir := Db.rs_StateDir r; Db.rs_Workspace := Db.rs_Workspace r; Db.rs_KernelRef := Db.rs_KernelRef r;
  Db.rs_KernelPath := Db.rs_KernelPath r; Db.rs_RootfsPath := upper_path id; Db.rs_SubnetFile := Db.rs_SubnetFile r;
  Db.rs_GatewayIP := Db.rs_GatewayIP r; Db.rs_GuestIP := Db.rs_GuestIP r; Db.rs_SubnetCIDR := Db.rs_SubnetCIDR r;
  Db.rs_VsockPath := vm_dir id +:+ "/vsock.sock"; Db.rs_TAPName := Db.rs_TAPName r; Db.rs_FirewallTable := Db.rs_FirewallTable r;
  Db.rs_NATTable := Db.rs_NATTable r |}.

Definition default_resources : ApiConfig.Resources := {|
  ApiConfig.rs_CPUs := DefaultCPUs; rs_MemoryMB := DefaultMemoryMB; rs_DiskSizeMB := 0; rs_SwapSizeMB := 0; rs_EncryptSwap := false;
  rs_ZramPct := 0; rs_TimeoutSeconds := 0; rs_Timeout := 0 |}.
Definition fill_resources (c : Config) : Config := match cfg_Resources c with None => with_ApiResources default_resources c | Some _ => c end.

Definition none {A} : option A → result A unit := λ o, match o with Some e => Err e | None => Ok tt end.

(** The certificate of the CA, when the proxy needs one. *)
Definition New_disks (id : string) (config : Config) : run (result new_error (Config * option string)) :=
  let undo := seq (cleanupRootDisks id) (unregister id) in
  or_fail (createBootstrapRootfs env guestInit (bootstrap_path id)) undo ErrPrepareBootstrapRoot (
  or_fail (createExt4Image env (upper_path id) (int64 (disk_size config))) undo ErrCreateRootfs (
  or_fail (prepareOverlayUpperRootfs env guestInit (upper_path id)) undo ErrPrepareRootfs (
  _ ← SetResource (record_disks id);
  or_fail (mret (NetworkConfig_Validate (cfg_Network config))) (unregister id) ErrInvalidNetwork (
  let config := fill_resources config in
  or_fail (mret (vcpus_error numCPU config)) (unregister id) (λ e, e) (
  if needsProxy config then
    or_fail_with (host_call NewCAPool) undo ErrCreateCAPool (λ cert,
    or_fail (injectConfigFileIntoRootfs env (upper_path id) "/upper/etc/ssl/certs/matchlock-ca.crt" cert) undo ErrInjectCACert
      (mret (Ok (config, Some cert))))
  else mret (Ok (config, None))))))).

(** *** The machine *)

Definition record_net (i : SubnetInfo) (r : Db.Resources) : Db.Resources := {|
  Db.rs_StateDir := Db.rs_StateDir r; Db.rs_Workspace := Db.rs_Workspace r; Db.rs_KernelRef := Db.rs_KernelRef r;
  Db.rs_KernelPath := Db.rs_KernelPath r; Db.rs_RootfsPath := Db.rs_RootfsPath r; Db.rs_SubnetFile := Db.rs_SubnetFile r;
  Db.rs_GatewayIP := si_GatewayIP i; Db.rs_GuestIP := si_GuestIP i; Db.rs_SubnetCIDR := si_Subnet i;
  Db.rs_VsockPath := Db.rs_VsockPath r; Db.rs_TAPName := Db.rs_TAPName r; Db.rs_FirewallTable := Db.rs_FirewallTable r;
  Db.rs_NATTable := Db.rs_NATTable r |}.
Definition record_kernel (ref path : string) (r : Db.Resources) : Db.Resources := {|
  Db.rs_StateDir := Db.rs_StateDir r; Db.rs_Workspace := Db.rs_Workspace r; Db.rs_KernelRef := ref;
  Db.rs_KernelPath := path; Db.rs_RootfsPath := Db.rs_RootfsPath r; Db.rs_SubnetFile := Db.rs_SubnetFile r;
  Db.rs_GatewayIP := Db.rs_GatewayIP r; Db.rs_GuestIP := Db.rs_GuestIP r; Db.rs_SubnetCIDR := Db.rs_SubnetCIDR r;
  Db.rs_VsockPath := Db.rs_VsockPath r; Db.rs_TAPName := Db.rs_TAPName r; Db.rs_FirewallTable := Db.rs_FirewallTable r;
  Db.rs_NATTable := Db.rs_NATTable r |}.
Definition record_tap (tap : string) (r : Db.Resources) : Db.Resources := {|
  Db.rs_StateDir := Db.rs_StateDir r; Db.rs_Workspace := Db.rs_Workspace r; Db.rs_KernelRef := Db.rs_KernelRef r;
  Db.rs_KernelPath := Db.rs_KernelPath r; Db.rs_RootfsPath := Db.rs_RootfsPath r; Db.rs_SubnetFile := Db.rs_SubnetFile r;
  Db.rs_GatewayIP := Db.rs_GatewayIP r; Db.rs_GuestIP := Db.rs_GuestIP r; Db.rs_SubnetCIDR := Db.rs_SubnetCIDR r;
  Db.rs_VsockPath := Db.rs_VsockPath r; Db.rs_TAPName := tap; Db.rs_FirewallTable := "matchlock_" +:+ tap;
  Db.rs_NATTable := "matchlock_nat_" +:+ tap |}.
Definition record_workspace (dir ws : string) (r : Db.Resources) : Db.Resources := {|
  Db.rs_StateDir := dir; Db.rs_Workspace := ws; Db.rs_KernelRef := Db.rs_KernelRef r;
  Db.rs_KernelPath := Db.rs_KernelPath r; Db.rs_RootfsPath := Db.rs_RootfsPath r; Db.rs_SubnetFile := Db.rs_SubnetFile r;
  Db.rs_GatewayIP := Db.rs_GatewayIP r; Db.rs_GuestIP := Db.rs_GuestIP r; Db.rs_SubnetCIDR := Db.rs_SubnetCIDR r;
  Db.rs_VsockPath := Db.rs_VsockPath r; Db.rs_TAPName := Db.rs_TAPName r; Db.rs_FirewallTable := Db.rs_FirewallTable r;
  Db.rs_NATTable := Db.rs_NATTable r |}.

Definition resolveKernelForConfig (config : Config) (opts : Options) : run (result os_error string) :=
  if negb (bool_decide (op_KernelPath opts = "")) then
    _ ← SetResource (record_kernel "internal:options" (op_KernelPath opts)); mret (Ok (op_KernelPath opts))
  else
    let ref := match cfg_Kernel config with Some k => kc_Ref k | None => "" end in
    r ← (if decide (ref = "") then host_call ResolveKernelPath else host_call (ResolveKernelRef ref));
    match r with
    | Err e => mret (Err e)
    | Ok path => _ ← SetResource (record_kernel (if decide (ref = "") then defaultKernelRef else ref) path); mret (Ok path)
    end.

Definition allocateSubnet (config : Config) (id : string) : run (result state_error (option SubnetInfo)) :=
  if noNetwork config then mret (Ok None)
  else
    r ← on_db (Subnet_Allocate subnetAllocator id);
    match r with Err e => mret (Err e) | Ok info => _ ← SetResource (record_net info); mret (Ok (Some info)) end.

(** [None] when the configuration has no network part: its hosts are read without a test. *)
Definition vm_config_of (id hostname workspace kernelPath : string) (fsTypes : list string) (extraDisks : list DiskConfig)
    (subnet : option SubnetInfo) (opts : Options) (config : Config) : option VMConfig :=
  n ← cfg_Network config;
  r ← cfg_Resources config;
  Some {|
    vc_ID := id; vc_KernelPath := kernelPath; vc_RootfsPath := bootstrap_path id; vc_OverlayEnabled := true;
    vc_OverlayLowerPaths := op_RootfsPaths opts; vc_OverlayLowerFSTypes := fsTypes; vc_OverlayUpperPath := upper_path id;
    vc_CPUs := ApiConfig.rs_CPUs r; vc_MemoryMB := rs_MemoryMB r; vc_VsockCID := 3; vc_VsockPath := vm_dir id +:+ "/vsock.sock";
    vc_SocketPath := Manager_SocketPath stateMgr id +:+ ".sock"; vc_LogPath := Manager_LogPath stateMgr id; vc_KernelArgs := "";
    vc_GatewayIP := match subnet with Some i => si_GatewayIP i | None => "" end;
    vc_GuestIP := match subnet with Some i => si_GuestIP i | None => "" end;
    vc_SubnetCIDR := match subnet with Some i => si_GatewayIP i +:+ "/24" | None => "" end;
    vc_Workspace := workspace; vc_UseInterception := false; vc_Privileged := cfg_Privileged config;
    vc_DNSServers := GetDNSServers (Some n); vc_Hostname := hostname; vc_AddHosts := nc_AddHosts n; vc_MTU := GetMTU (Some n);
    vc_NoNetwork := noNetwork config; vc_ExtraDisks := extraDisks;
    vc_SwapPath := if 0 <? swap_size config then swap_path id else ""; vc_EncryptSwap := rs_EncryptSwap r; vc_ZramPct := zramPct config;
    vc_VirtioFSShares := []; vc_VirtioFSMaskPaths := [] |}.

(** The configuration, the subnet, the machine's device and the snapshots. *)
Definition New_machine (id hostname workspace : string) (opts : Options) (config : Config)
    : run (result new_error (Config * option SubnetInfo * string * list string)) :=
  let alloc := negb (noNetwork config) in
  let release := seq (releaseSubnet alloc id) (unregister id) in
  or_fail_with (allocateSubnet config id) (seq (cleanupRootDisks id) (unregister id)) ErrAllocateSubnet (λ subnet,
  or_fail_with (resolveKernelForConfig config opts)
    (seq (releaseSubnet alloc id) (seq (cleanupRootDisks id) (unregister id))) ErrKernel (λ kernelPath,
  or_fail_with (mret (extra_disks (cfg_ExtraDisks config))) release ErrInvalidDiskCfg (λ extraDisks,
  or_fail (mret (validateOverlayDiskLayout (Z.of_nat (length (op_RootfsPaths opts))) (Z.of_nat (length extraDisks)))) release ErrDiskLayout (
  or_fail (if 0 <? swap_size config then createSwapImage env (swap_path id) (swap_size config) else mret None) release ErrSwap (
  let config := with_Network (allow_secret_hosts <$> cfg_Network config) config in
  vmConfig ← liftp (vm_config_of id hostname workspace kernelPath (normalizeOverlayLowerFSTypes (op_RootfsPaths opts) (op_RootfsFSTypes opts))
                      extraDisks subnet opts config);
  let undo := seq (cleanupRootDisks id) release in
  or_fail_with (host_call (CreateMachine vmConfig)) undo ErrCreateVM (λ tap,
  _ ← (if decide (tap = "") then mret tt else SetResource (record_tap tap));
  or_fail_with (prepareOverlaySnapshots env (cfg_VFS config) (vm_dir id)) (seq closeMachine undo) ErrSnapshots (λ '(snapshots, vfs),
  mret (Ok (with_VFS vfs config, subnet, tap, snapshots))))))))).

(** *** The network *)

(** The NAT, without which the sandbox does. *)
Definition setupNAT (alloc : bool) (tap : string) : run (option string) :=
  if alloc then
    e ← host_call (SetupNAT tap);
    match e with
    | Some _ => _ ← do (Warn "failed to setup NAT"); mret None
    | None => mret (Some tap)
    end
  else mret None.

Definition New_network (id tap : string) (subnet : option SubnetInfo) (config : Config)
    : run (result new_error (option (Z * Z * Z) * option Z * option NFTablesRules * option string)) :=
  let alloc := negb (noNetwork config) in
  let gatewayIP := match subnet with Some i => si_GatewayIP i | None => "" end in
  let dns := GetDNSServers (cfg_Network config) in
  let undo := seq closeMachine (seq (releaseSubnet alloc id) (unregister id)) in
  if needsProxy config then
    if decide (gatewayIP = "") then failing undo ErrMissingGateway else
    or_fail_with (host_call (ListenProxy gatewayIP)) undo ErrCreateProxy (λ ports,
    _ ← do StartProxy;
    or_fail_with (host_call (ListenDNS gatewayIP dns)) (seq (do CloseProxy) undo) ErrCreateDNS (λ dnsPort,
    let '(http, https, passthrough) := ports in
    let rules := SetDNSForwarderPort dnsPort (NewNFTablesRules tap gatewayIP http https passthrough dns) in
    or_fail (host_call (SetupFirewall rules)) (seq (do CloseDNS) (seq (do CloseProxy) undo)) ErrFirewallSetup (
    n ← setupNAT alloc tap; mret (Ok (Some ports, Some dnsPort, Some rules, n)))))
  else n ← setupNAT alloc tap; mret (Ok (None, None, None, n)).

(** *** The VFS *)

Definition present {A} (o : option A) : bool := if o then true else false.
Definition when (b : bool) (p : run unit) : run unit := if b then p else mret tt.
Definition when_some {A} (o : option A) (p : A → run unit) : run unit := match o with Some a => p a | None => mret tt end.

(** The non-blocking send on the event channel, which panics when the channel is closed. *)
Definition send_event (ev : FileEvent) : M world unit := λ w, if holds (w_trace w) REvents then Some (tt, w) else None.

Definition hooks_of (vfs : option VFSConfig) : bool := present (buildVFSHookEngine (W := world) vfs).

(** The error of a server that does not start: by the system of its socket. *)
Definition vfs_error (socket : vfs_socket) : os_error → new_error := match socket with UnixSocket _ => ErrVFSServer | MachineListener => ErrVFSListener end.

(** The root and whether there are hooks. *)
Definition New_vfs (socket : vfs_socket) (vfs : option VFSConfig) (cleanupVM : run unit) : run (result new_error (option (Iface world) * bool)) :=
  match vfs with
  | None => mret (Ok (None, false))
  | Some v =>
      or_fail_with (on_world (buildVFSRoot vos send_event euid egid v)) cleanupVM ErrVFSProviders (λ root,
      _ ← when (hooks_of vfs) (do StartHooks);
      or_fail (host_call (ServeVFS socket)) cleanupVM (vfs_error socket) (
      mret (Ok (Some root, hooks_of vfs))))
  end.

(** *** Closing *)

Definition markCleanup (name : string) (opErr : option string) (errs : list close_error) : run (list close_error) :=
  e ← life (λ st, Store_MarkCleanup st name opErr);
  mret (match e with Some e => errs ++ [CloseLifecycle e] | None => errs end).

Definition set_phase_errs (p : string) (errs : list close_error) : run (list close_error) :=
  e ← SetPhase p; mret (match e with Some e => errs ++ [CloseLifecycle e] | None => errs end).

(** One cleanup: run when there is something to clean, and recorded either way. *)
Definition cleanup_step {E} (name : string) (op : option (run (option E))) (wrap : E → close_error) (text : E → string)
    (errs : list close_error) : run (list close_error) :=
  match op with
  | None => markCleanup name None errs
  | Some p =>
      e ← p;
      match e with
      | Some e => markCleanup name (Some (text e)) (errs ++ [wrap e])
      | None => markCleanup name None errs
      end
  end.
Definition quietly (p : run unit) : run (option os_error) := _ ← p; mret None.

(** The errors, and the last one: the snapshots are one cleanup. *)
Fixpoint remove_snapshots (paths : list string) (errs : list close_error) (last : option os_error) : run (list close_error * option os_error) :=
  match paths with
  | [] => mret (errs, last)
  | p :: paths' =>
      e ← host_call (OsRemoveAll p);
      match e with
      | Some e => remove_snapshots paths' (errs ++ [CloseSnapshot p e]) (Some e)
      | None => remove_snapshots paths' errs last
      end
  end.

(** [os.Remove] of a file that may not be there. *)
Definition remove_root_disk (p : string) : run (option os_error) :=
  e ← host_call (OsRemove p);
  mret (match e with Some e => if oe_not_exist e then None else Some e | None => None end).

(** Closing a closed channel panics. *)
Definition close_events : run unit := λ h, if holds (trace h) REvents then do CloseEvents h else None.

Definition flushGuestDisks : run unit := do (MachineExec "sync").

Definition sync_step (errs : list close_error) : run (list close_error) := cleanup_step "guest_sync" (Some (quietly flushGuestDisks)) CloseMachine oe_text errs.

(** What both systems begin Close with: the phases, the VFS server and the hooks. *)
Definition Close_begin (vfs hooks : bool) : run (list close_error) :=
  errs ← set_phase_errs PhaseStopping [];
  errs ← set_phase_errs PhaseCleaning errs;
  errs ← cleanup_step "vfs_stop" (if vfs then Some (quietly (do StopVFS)) else None) CloseMachine oe_text errs;
  cleanup_step "vfs_hooks" (if hooks then Some (quietly (do CloseHooks)) else None) CloseMachine oe_text errs.

(** What both go on with after the network: the lease, the events, the registry, the machine, its
    files. *)
Definition Close_machine (id : string) (alloc : bool) (snapshots : list string) (rootfs bootstrap : string) (errs : list close_error)
    : run (list close_error) :=
  errs ← cleanup_step "subnet_release" (if alloc then Some (on_db (Subnet_Release subnetAllocator id)) else None) CloseSubnet state_text errs;
  _ ← close_events;
  errs ← markCleanup "events_close" None errs;
  errs ← sync_step errs;
  errs ← cleanup_step "state_unregister" (Some (Manager_Unregister stateMgr id)) CloseUnregister state_text errs;
  errs ← cleanup_step "machine_close" (Some (host_call MachineClose : run (option os_error))) CloseMachine oe_text errs;
  '(errs, last) ← remove_snapshots snapshots errs None;
  errs ← markCleanup "overlay_snapshot_remove" (oe_text <$> last) errs;
  errs ← cleanup_step "rootfs_remove" (Some (remove_root_disk rootfs)) CloseRootfs oe_text errs;
  cleanup_step "bootstrap_remove" (Some (remove_root_disk bootstrap)) CloseRootfs oe_text errs.

(** The record of the end. *)
Definition Close_end (errs : list close_error) : run (list close_error) :=
  if decide (errs = []) then
    e ← SetPhase PhaseCleaned;
    match e with
    | Some e => mret [CloseLifecycle e]
    | None => e ← SetLastError None; mret (match e with Some e => [CloseLifecycle e] | None => [] end)
    end
  else
    _ ← SetLastError (Some (close_text errs));
    _ ← SetPhase PhaseCleanupFailed;
    mret errs.

Definition Close (sb : Sandbox) : run (list close_error) :=
  errs ← Close_begin (sb_vfsServer sb) (sb_vfsHooks sb);
  errs ← cleanup_step "firewall_cleanup" ((λ r, host_call (CleanupFirewall r) : run (option os_error)) <$> sb_fwRules sb) CloseFirewall oe_text errs;
  errs ← cleanup_step "nat_cleanup" ((λ t, host_call (CleanupNAT t) : run (option os_error)) <$> sb_natRules sb) CloseNAT oe_text errs;
  errs ← cleanup_step "proxy_close" ((λ _, host_call CloseProxy : run (option os_error)) <$> sb_proxy sb) CloseProxyErr oe_text errs;
  _ ← when (present (sb_dnsForwarder sb)) (do CloseDNS);
  errs ← Close_machine (sb_id sb) (sb_subnetAlloc sb) (sb_overlaySnapshots sb) (sb_rootfsPath sb) (sb_bootstrapPath sb) errs;
  Close_end errs.

(** *** Starting and stopping *)

Inductive phase_error := PhaseUpdate (e : life_error) | PhaseMachine (e : os_error).

(** A machine operation between two phases. *)
Definition transit (from : string) (op : run (option os_error)) (failed to : string) : run (option phase_error) :=
  e ← SetPhase from;
  match e with
  | Some e => mret (Some (PhaseUpdate e))
  | None =>
      e ← op;
      match e with
      | Some e => _ ← SetLastError (Some (oe_text e)); _ ← SetPhase failed; mret (Some (PhaseMachine e))
      | None =>
          e ← SetPhase to;
          match e with
          | Some e => mret (Some (PhaseUpdate e))
          | None => e ← SetLastError None; mret (PhaseUpdate <$> e)
          end
      end
  end.

Definition Start : run (option phase_error) := transit PhaseStarting (host_call MachineStart) PhaseStartFailed PhaseRunning.
Definition Stop : run (option phase_error) := transit PhaseStopping (host_call MachineStop) PhaseStopFailed PhaseStopped.

(** *** New *)

Definition cleanupVM (id tap : string) (alloc : bool) (net : option (Z * Z * Z) * option Z * option NFTablesRules * option string) : run unit :=
  let '(proxy, dns, fw, nat) := net in
  _ ← when_some proxy (λ _, do CloseProxy);
  _ ← when_some dns (λ _, do CloseDNS);
  _ ← when_some fw (λ r, do (CleanupFirewall r));
  _ ← when_some nat (λ t, do (CleanupNAT t));
  _ ← closeMachine;
  _ ← releaseSubnet alloc id;
  unregister id.

(** The last step: the phase, or everything closed. *)
Definition New_finish {S} (close : run (list close_error)) (sb : S) : run (result new_error S) :=
  e ← SetPhase PhaseCreated;
  match e with
  | Some e => _ ← close; mret (Err (ErrLifecycleUpdate e))
  | None =>
      e ← SetLastError None;
      match e with
      | Some e => _ ← close; mret (Err (ErrLifecycleUpdate e))
      | None => mret (Ok sb)
      end
  end.

Definition bind_ok {A B} (p : run (result new_error A)) (k : A → run (result new_error B)) : run (result new_error B) :=
  r ← p; match r with Err e => mret (Err e) | Ok a => k a end.

Definition New_parts (id hostname workspace : string) (opts : Options) (config : Config) : run (result new_error Sandbox) :=
  let alloc := negb (noNetwork config) in
  bind_ok (New_disks id config) (λ '(config, ca),
  bind_ok (New_machine id hostname workspace opts config) (λ '(config, subnet, tap, snapshots),
  let engine := NewEngine exchange random (match cfg_Network config with Some n => n | None => zero_network end) in
  let config := with_Network ((λ _, eng_config engine) <$> cfg_Network config) config in
  _ ← do MakeEvents;
  bind_ok (New_network id tap subnet config) (λ net,
  bind_ok (New_vfs (UnixSocket (vm_dir id +:+ "/vsock.sock_5001")) (if HasVFSMounts (Some config) then cfg_VFS config else None) (cleanupVM id tap alloc net)) (λ '(root, hooks),
  let sb := {|
    sb_id := id; sb_config := config; sb_proxy := net.1.1.1; sb_dnsForwarder := net.1.1.2; sb_fwRules := net.1.2; sb_natRules := net.2;
    sb_policy := engine; sb_vfsRoot := root; sb_vfsHooks := hooks; sb_vfsServer := present root; sb_tapName := tap; sb_caPool := ca;
    sb_subnetInfo := subnet; sb_subnetAlloc := alloc; sb_workspace := workspace;
    sb_rootfsPath := upper_path id; sb_bootstrapPath := bootstrap_path id; sb_overlaySnapshots := snapshots |} in
  New_finish (Close sb) sb)))).

(** The functions deferred, of which the last is run first. *)
Definition defer_record {S} (r : result new_error S) : run (result new_error S) :=
  match r with
  | Ok _ => mret r
  | Err e => _ ← SetLastError (Some (new_text e)); _ ← SetPhase PhaseCreateFailed; mret r
  end.
Definition defer_disks {S} (cleanup : run unit) (r : result new_error S) : run (result new_error S) :=
  match r with Ok _ => mret r | Err _ => _ ← cleanup; mret r end.

Definition new_store (id : string) : run unit := λ h, Some (tt, Build_host (h_db h) (set_store (NewStore openErr (vm_dir id)) (h_os h))).

Definition New (opts : Options) (config : Config) : run (result new_error Sandbox) :=
  if decide (op_RootfsPaths opts = []) then mret (Err ErrRootfsRequired)
  else match Config_ValidateVFS (Some config) with
  | Some e => mret (Err (ErrInvalidVFS e))
  | None =>
      let (id, config) := GetID uuid8 config in
      let hostname := (GetHostname uuid8 config).1 in
      let workspace := VFSConfig_GetWorkspace (cfg_VFS config) in
      or_fail (Manager_Register (linux_ops env pid) stateMgr id (to_json config)) (mret tt) ErrRegisterState (
      _ ← new_store id;
      or_fail (life (λ st, Store_Init st id "firecracker" (vm_dir id))) (unregister id) ErrLifecycleInit (
      _ ← SetResource (record_workspace (vm_dir id) workspace);
      r ← New_parts id hostname workspace opts config;
      r ← defer_disks (cleanupRootDisks id) r;
      defer_record r))
  end.
End life.
