(* ===== verification/SandboxRun.v ===== *)
(** * Running the programs of a sandbox

    A program of [SandboxLife] is run from a state to what it returns ([wp]); of the database
    only the tables of the VMs and the subnets matter to what follows. *)

From S2P Require Import Prelude GoStrings GoStd VfsBase VfsMemory VfsRealFS VfsHooks Api Db Lifecycle State Subnets SandboxVfs SandboxHost SandboxLife.

Abbreviation hst := (host world) (only parsing).

(** ** The program returns, with a result and a state that satisfy [Q] *)

Definition wp {W A} (m : M W A) (Q : A → W → Prop) (h : W) : Prop :=
  match m h with Some (a, h') => Q a h' | None => False end.

Lemma wp_run {W A} (m : M W A) Q h : wp m Q h → ∃ a h', m h = Some (a, h') ∧ Q a h'.
Proof. unfold wp. destruct (m h) as [[a h']|]; [eauto|done]. Qed.

Lemma wp_mono {W A} (m : M W A) (Q R : A → W → Prop) h : (∀ a h', Q a h' → R a h') → wp m Q h → wp m R h.
Proof. unfold wp. destruct (m h) as [[a h']|]; eauto. Qed.

Lemma wp_ret {W A} (a : A) (Q : A → W → Prop) h : Q a h → wp (mret a) Q h.
Proof. done. Qed.

Lemma wp_bind {W A B} (m : M W A) (f : A → M W B) Q h : wp m (λ a, wp (f a) Q) h → wp (m ≫= f) Q h.
Proof. unfold wp, mbind, M_bind. by destruct (m h) as [[a h']|]. Qed.

Section host.
Context (env : list event → ∀ c, answer c).

(** Whatever the host answers. *)
Lemma wp_sys c (Q : answer c → host world → Prop) h :
  (∀ x, Q x (Build_host (h_db h) (log (Ev c x) (h_os h)))) → wp (host_call env c) Q h.
Proof. intros HQ. exact (HQ (env (w_trace (h_os h)) c)). Qed.

Lemma wp_do c (Q : unit → host world → Prop) h :
  (∀ x, Q tt (Build_host (h_db h) (log (Ev c x) (h_os h)))) → wp (do env c) Q h.
Proof. intros HQ. exact (HQ (env (w_trace (h_os h)) c)). Qed.

Lemma wp_ask c (Q : answer c → host world → Prop) h :
  (∀ x, Q x (Build_host (h_db h) (log (Ev c x) (h_os h)))) → wp (on_os (ask_host env c id)) Q h.
Proof. intros HQ. exact (HQ (env (w_trace (h_os h)) c)). Qed.
End host.

(** ** Operations of the database *)

Definition calm (s s' : storage) : Prop := sg_faults s = [] → sg_faults s' = [].

(** The lifecycle records are the only ones that change. *)
Definition quiet (s s' : storage) : Prop := sg_vms s' = sg_vms s ∧ sg_subnets s' = sg_subnets s ∧ calm s s'.

#[export] Instance quiet_preorder : PreOrder quiet.
Proof.
  unfold quiet, calm. split; [done|]. intros s t u (? & ? & Hs) (? & ? & Ht). split_and!; [congruence..|]. auto.
Qed.

Definition runs_in (R : relation storage) {A} (m : M storage A) : Prop := ∀ s, ∃ a s', m s = Some (a, s') ∧ R s s'.

Section runs_in.
Context (R : relation storage) `{!PreOrder R}.

Lemma runs_in_ret {A} (a : A) : runs_in R (mret a).
Proof. intros s. by exists a, s. Qed.

Lemma runs_in_bind {A B} (m : M storage A) (f : A → M storage B) :
  runs_in R m → (∀ a, runs_in R (f a)) → runs_in R (m ≫= f).
Proof.
  intros Hm Hf s. destruct (Hm s) as (a & s1 & H1 & R1). destruct (Hf a s1) as (b & s2 & H2 & R2).
  exists b, s2. split; [by rewrite (M_bind_step _ _ _ _ _ H1)|by trans s1].
Qed.

Lemma runs_in_stmt {A} (f : storage → result db_error (A * storage)) :
  (∀ s r s', stmt f s = Some (r, s') → R s s') → runs_in R (stmt f).
Proof.
  intros HR s. destruct (stmt f s) as [[r s']|] eqn:E; [by exists r, s'; eauto|].
  exfalso. revert E. unfold stmt. destruct (sg_faults s) as [|[e|] rest]; [|done|]; by destruct (f _) as [[? ?]|?].
Qed.
End runs_in.

(** A statement whose effect is [R] and that leaves the faults be. *)
Lemma stmt_faults {A} (f : storage → result db_error (A * storage)) (P : storage → storage → Prop) s r s' :
  (∀ t, P s (with_faults t s)) → (∀ t a t', f (with_faults t s) = Ok (a, t') → P s t') → stmt f s = Some (r, s') → P s s'.
Proof.
  intros H0 Hf. unfold stmt. destruct (sg_faults s) as [|[e|] rest].
  - destruct (f _) as [[a s1]|e] eqn:E; intros [= <- <-]; [by eapply Hf|apply H0].
  - intros [= <- <-]. apply H0.
  - destruct (f _) as [[a s1]|e] eqn:E; intros [= <- <-]; [by eapply Hf|apply H0].
Qed.

(** The faults that are left. *)
Lemma stmt_calm {A} (f : storage → result db_error (A * storage)) s r s' :
  (∀ t a t', f t = Ok (a, t') → sg_faults t' = sg_faults t) → stmt f s = Some (r, s') → calm s s'.
Proof.
  intros Hf. unfold stmt, calm. intros Hrun Hs. rewrite Hs in Hrun. cbn [tail] in Hrun.
  destruct (f _) as [[a s1]|e] eqn:E; injection Hrun as <- <-; [by rewrite (Hf _ _ _ E)|done].
Qed.

Lemma stmt_quiet {A} (f : storage → result db_error (A * storage)) :
  (∀ t a t', f t = Ok (a, t') → sg_vms t' = sg_vms t ∧ sg_subnets t' = sg_subnets t ∧ sg_faults t' = sg_faults t) →
  runs_in quiet (stmt f).
Proof.
  intros Hf. apply runs_in_stmt. intros s r s' Hrun. split_and!.
  - eapply (stmt_faults f (λ s s', sg_vms s' = sg_vms s)); [done| |done]. by intros t a t' (-> & _)%Hf.
  - eapply (stmt_faults f (λ s s', sg_subnets s' = sg_subnets s)); [done| |done]. by intros t a t' (_ & -> & _)%Hf.
  - eapply stmt_calm; [|done]. by intros t a t' (_ & _ & ->)%Hf.
Qed.

Lemma quiet_exec : runs_in quiet (exec id).
Proof. apply stmt_quiet. by intros t a t' [= <- <-]. Qed.

Lemma quiet_transaction {A} (body : db_M A) : runs_in quiet body → runs_in quiet (transaction body).
Proof.
  intros Hb s. unfold transaction, mbind at 1, M_bind, getw.
  destruct (quiet_exec s) as (b & s1 & H1 & R1). rewrite (M_bind_step _ _ _ _ _ H1). destruct b as [u|e]; [|by exists (Err e), s1].
  destruct (Hb s1) as (r & s2 & H2 & R2). rewrite (M_bind_step _ _ _ _ _ H2).
  assert (R12 : quiet s s2) by (by trans s1). assert (Hback : ∀ e t, quiet s t →
    ∃ (a : result db_error A) s', (_ ← rollback s; mret (Err e) : M storage (result db_error A)) t = Some (a, s') ∧ quiet s s').
  { intros e t (_ & _ & Hc). eexists _, _. split; [done|]. by split_and!. }
  destruct r as [a|e]; [|by apply Hback].
  destruct (quiet_exec s2) as (c & s3 & H3 & R3). rewrite (M_bind_step _ _ _ _ _ H3).
  assert (R13 : quiet s s3) by (by trans s2). destruct c as [u'|e]; [by exists (Ok a), s3|by apply Hback].
Qed.

Create HintDb quiet.
#[export] Hint Resolve quiet_exec quiet_transaction : quiet.
#[export] Hint Extern 1 (PreOrder quiet) => apply quiet_preorder : quiet.

(** Statement by statement. *)
Ltac db_steps :=
  repeat (intros; lazymatch goal with
  | |- runs_in _ (mret _) => apply runs_in_ret; eauto with quiet
  | |- runs_in _ (transaction _) => apply quiet_transaction
  | |- runs_in _ (mbind _ _) => apply runs_in_bind; [eauto with quiet| |]
  | |- runs_in _ (if ?b then _ else _) => destruct b
  | |- runs_in _ (match ?x with _ => _ end) => destruct x
  | |- runs_in _ _ => solve [eauto with quiet]
  end).

Lemma quiet_save_attempt rec : runs_in quiet (saveAttemptNoLock rec).
Proof.
  assert (H1 : ∀ id, runs_in quiet (nextLifecycleVersion id)) by (intros id; apply stmt_quiet; by intros t a t' [= <- <-]).
  assert (H2 : ∀ row, runs_in quiet (insert_row row)).
  { intros row. apply stmt_quiet. intros t a t'. cbn. case_match; [done|]. by intros [= <- <-]. }
  unfold saveAttemptNoLock. db_steps.
Qed.

Lemma quiet_save_attempts n last rec : runs_in quiet (save_attempts n last rec).
Proof. revert last. induction n; intros; cbn [save_attempts]; pose proof quiet_save_attempt; db_steps. Qed.

Lemma quiet_now : runs_in quiet time_Now.
Proof. intros s. by exists (sg_now s), s. Qed.
#[export] Hint Resolve quiet_save_attempts quiet_now : quiet.

Lemma quiet_save st rec : runs_in quiet (saveNoLock st rec).
Proof. unfold saveNoLock. db_steps. Qed.

Lemma quiet_load st : runs_in quiet (loadNoLock st).
Proof.
  assert (H : runs_in quiet (query (λ s, latest (vm_history (resolveVMIDNoLock st) (sg_lifecycle s))))) by (apply stmt_quiet; by intros t a t' [= <- <-]).
  unfold loadNoLock. db_steps.
Qed.
#[export] Hint Resolve quiet_save quiet_load : quiet.

Lemma quiet_update st f : runs_in quiet (Store_Update st f).
Proof. unfold Store_Update. db_steps. Qed.
#[export] Hint Resolve quiet_update : quiet.

Lemma quiet_init st id b d : runs_in quiet (Store_Init st id b d).
Proof. unfold Store_Init. db_steps. Qed.

Lemma quiet_cleanup st n e : runs_in quiet (Store_MarkCleanup st n e).
Proof. unfold Store_MarkCleanup. db_steps. Qed.
#[export] Hint Resolve quiet_init quiet_cleanup : quiet.

(** An operation on the records. *)
Lemma wp_life f (Q : option life_error → host world → Prop) h :
  (∀ st, runs_in quiet (f st)) →
  (∀ e s st, quiet (h_db h) s → Q e (Build_host s (set_store st (h_os h)))) → wp (life f) Q h.
Proof.
  intros Hf HQ. unfold wp, life. destruct (Hf (w_store (h_os h)) (h_db h)) as ([e st] & s & -> & Hs). by apply HQ.
Qed.

Lemma wp_SetPhase p (Q : option life_error → host world → Prop) h :
  (∀ e s st, quiet (h_db h) s → Q e (Build_host s (set_store st (h_os h)))) → wp (SetPhase p) Q h.
Proof. apply wp_life. intros st. unfold Store_SetPhase. auto with quiet. Qed.

Lemma wp_SetLastError p (Q : option life_error → host world → Prop) h :
  (∀ e s st, quiet (h_db h) s → Q e (Build_host s (set_store st (h_os h)))) → wp (SetLastError p) Q h.
Proof. apply wp_life. intros st. unfold Store_SetLastError. auto with quiet. Qed.

Lemma wp_SetResource f (Q : unit → host world → Prop) h :
  (∀ s st, quiet (h_db h) s → Q tt (Build_host s (set_store st (h_os h)))) → wp (SetResource f) Q h.
Proof.
  intros HQ. apply wp_bind, wp_life; [intros st; unfold Store_SetResource; auto with quiet|]. intros e s st Hs. by apply HQ.
Qed.

(** ** What the tables say of a sandbox *)

(** It holds no subnet; its VM, if it is there, does not run. *)
Definition unleased (id : string) (s : storage) : Prop := ∀ r, r ∈ sg_subnets s → sr_vm_id r ≠ id.
Definition idle (id : string) (s : storage) : Prop := ∀ r, r ∈ sg_vms s → vr_id r = id → vr_status r ≠ "running".

(** No statement to come fails, and what is known of the tables, provided [P]. *)
Record known (P : Prop) (id : string) (un id' : bool) (s : storage) : Prop := {
  known_calm : P → sg_faults s = [];
  known_unleased : un = true → P → unleased id s;
  known_idle : id' = true → P → idle id s }.

Lemma known_quiet P id un i s s' : quiet s s' → known P id un i s → known P id un i s'.
Proof. intros (Hv & Hu & Hc) [H1 H2 H3]. split; [auto|unfold unleased; rewrite Hu; auto|unfold idle; rewrite Hv; auto]. Qed.

(** *** The subnets *)

Definition lease (s s' : storage) : Prop := sg_vms s' = sg_vms s ∧ calm s s'.
#[export] Instance lease_preorder : PreOrder lease.
Proof. unfold lease, calm. split; [done|]. intros s t u (? & Hs) (? & Ht). split; [congruence|auto]. Qed.

Lemma stmt_lease {A} (f : storage → result db_error (A * storage)) :
  (∀ t a t', f t = Ok (a, t') → sg_vms t' = sg_vms t ∧ sg_faults t' = sg_faults t) → runs_in lease (stmt f).
Proof.
  intros Hf. apply runs_in_stmt. intros s r s' Hrun. split.
  - eapply (stmt_faults f (λ s s', sg_vms s' = sg_vms s)); [done| |done]. by intros t a t' (-> & _)%Hf.
  - eapply stmt_calm; [|done]. by intros t a t' (_ & ->)%Hf.
Qed.
#[export] Hint Extern 1 (PreOrder lease) => apply lease_preorder : quiet.

Lemma lease_allocate a id : runs_in lease (Subnet_Allocate a id).
Proof.
  assert (Hq : ∀ B (f : storage → B), runs_in lease (query f)) by (intros B f; apply stmt_lease; by intros t b t' [= <- <-]).
  assert (Hi : ∀ row, runs_in lease (insert_subnet row)).
  { intros row. apply stmt_lease. intros t b t'. cbn. case_match; [done|]. by intros [= <- <-]. }
  unfold Subnet_Allocate, Allocate_choose, Subnet_Get, usedOctets, Allocate_insert. db_steps.
Qed.

(** An allocation that fails leaves the subnets. *)
Lemma allocate_err a id s e s' : Subnet_Allocate a id s = Some (Err e, s') → sg_subnets s' = sg_subnets s.
Proof.
  assert (Hq : ∀ B (f : storage → B), runs_in quiet (query f)) by (intros B f; apply stmt_quiet; by intros t b t' [= <- <-]).
  assert (Hc : runs_in quiet (Allocate_choose a id)) by (unfold Allocate_choose, Subnet_Get, usedOctets; db_steps).
  unfold Subnet_Allocate. destruct (Hc s) as (c & s1 & H1 & (_ & Hs & _)). rewrite (M_bind_step _ _ _ _ _ H1).
  destruct c as [[info|info]|e1]; [done| |by intros [= _ <-]]. unfold Allocate_insert. intros (r & s2 & Hr & Hret)%M_bind_Some.
  apply M_ret_Some in Hret as [Hret ->]. apply stmt_run in Hr. destruct r as [u|e2]; [done|].
  destruct Hr as ((_ & Hs2 & _) & _). congruence.
Qed.

Section known.
Context (P : Prop) (id : string).
Notation known := (known P id).

Lemma wp_allocate a u i (Q : result state_error SubnetInfo → host world → Prop) h :
  known u i (h_db h) →
  (∀ r s, known (match r with Ok _ => false | Err _ => u end) i s → Q r (Build_host s (h_os h))) →
  wp (on_db (Subnet_Allocate a id)) Q h.
Proof.
  intros [K1 K2 K3] HQ. unfold wp, on_db. destruct (lease_allocate a id (h_db h)) as (r & s & Hr & Hv & Hc). rewrite Hr.
  apply HQ. split; [auto| |unfold idle; rewrite Hv; auto]. destruct r as [x|e]; [done|].
  unfold unleased. by rewrite (allocate_err _ _ _ _ _ Hr).
Qed.

Lemma wp_release a u i (Q : option state_error → host world → Prop) h :
  known u i (h_db h) → (P → sa_initErr a = None) →
  (∀ e s, known true i s → Q e (Build_host s (h_os h))) → wp (on_db (Subnet_Release a id)) Q h.
Proof.
  intros [K1 K2 K3] Hopen HQ. unfold wp, on_db, Subnet_Release, Subnet_ready.
  destruct (sa_initErr a) as [e|].
  { destruct h as [s w]. assert (P → False) by (intros HP; by specialize (Hopen HP)). apply HQ. split; intros; exfalso; auto. }
  unfold mbind, M_bind, exec, stmt. destruct (sg_faults (h_db h)) as [|[e|] rest]; cbn [tail mret M_ret]; apply HQ.
  2, 3: assert (P → False) by (intros HP; by specialize (K1 HP)); split; intros; exfalso; auto.
  split; cbn; [done| |auto]. intros _ HP r. cbn. by intros [? _]%list_elem_of_filter.
Qed.

Lemma wp_unregister_full m u i (Q : option state_error → host world → Prop) h :
  known u i (h_db h) → (P → mg_initErr m = None) →
  (∀ e s, known u true s → Q e (Build_host s (h_os h))) → wp (Manager_Unregister m id) Q h.
Proof.
  intros [K1 K2 K3] Hopen HQ. unfold wp, Manager_Unregister, Manager_ready.
  destruct (mg_initErr m) as [e|].
  { destruct h as [s w]. assert (P → False) by (intros HP; by specialize (Hopen HP)). apply HQ. split; intros; exfalso; auto. }
  unfold mbind, M_bind, on_db, stmt. destruct (sg_faults (h_db h)) as [|[e|] rest]; cbn [tail mret M_ret]; apply HQ.
  2, 3: assert (P → False) by (intros HP; by specialize (K1 HP)); split; intros; exfalso; auto.
  split; cbn; [done|auto|]. intros _ HP r. cbn. unfold update_vm. intros (r' & -> & Hr)%list_elem_of_fmap.
  by destruct (decide (vr_id r' = id)).
Qed.

Lemma wp_register env pid m cfg u i (Q : option state_error → host world → Prop) h :
  known u i (h_db h) →
  (∀ e s w, known u (match e with Some _ => i | None => false end) s →
            (∀ r, owes (w_trace w) r = true → owes (w_trace (h_os h)) r = true) → Q e (Build_host s w)) →
  wp (Manager_Register (linux_ops env pid) m id cfg) Q h.
Proof.
  intros [K1 K2 K3] HQ. unfold Manager_Register. destruct (Manager_ready m) as [e|].
  { destruct h as [s w]. apply wp_ret, HQ; [by split|done]. }
  cbn [os_MkdirAll os_RemoveAll linux_ops]. apply wp_bind, (wp_ask env (OsMkdirAll _)). intros [e|].
  { apply wp_ret, HQ; [by split|]. intros r. cbn [w_trace log h_os]. by rewrite !owes_snoc. }
  apply wp_bind, (wp_ask env (OsMkdirAll _)). intros [e|].
  { apply wp_ret, HQ; [by split|]. intros r. cbn [w_trace log h_os]. by rewrite !owes_snoc. }
  destruct cfg as [c|]; [|apply wp_ret, HQ; [by split|]; intros r; cbn [w_trace log h_os]; by rewrite !owes_snoc].
  apply wp_bind. unfold wp at 1, on_db, exec, stmt. cbn [h_db h_os].
  destruct (sg_faults (h_db h)) as [|[e|] rest]; cbn [tail].
  - apply wp_ret, HQ; [split; cbn; [done|auto|done]|]. intros r. cbn [w_trace log h_os]. by rewrite !owes_snoc.
  - apply wp_bind, (wp_ask env (OsRemoveAll _)). intros x. apply wp_ret, HQ; [split; cbn; auto|].
    + intros HP. by specialize (K1 HP).
    + intros r. cbn [w_trace log h_os]. rewrite !owes_snoc. cbn. unfold only. case_bool_decide; done.
  - apply wp_ret, HQ; [split; cbn; [|auto|done]|].
    + intros HP. by specialize (K1 HP).
    + intros r. cbn [w_trace log h_os]. by rewrite !owes_snoc.
Qed.
End known.
