(* ===== verification/SandboxSpec.v ===== *)
(** * What a sandbox gives back: the specification of [New], [Start], [Stop] and [Close]

    Whatever the host answers, a [New] that fails and a [Close] leave nothing of the sandbox held
    but the named remains and what the host refused to take back; the guest runs behind the firewall until Close begins. *)

From S2P Require Import Prelude GoStrings GoStd GoPath VfsBase VfsMemory VfsRealFS VfsHooks VfsIntercept Api ApiConfig PolicyRules PolicyEngine Db Lifecycle State Subnets SandboxVfs Boot Firewall SandboxHost SandboxLife SandboxRun.

(** What is held; what is held and was not asked to be given back; what the host refused to take. *)
Definition held (h : host world) (r : resource) : bool := holds (trace h) r.
Definition owed (h : host world) (r : resource) : bool := owes (trace h) r.
Definition refused (h : host world) (r : resource) : bool := stuck (trace h) r.

Lemma held_owed h r : held h r = true ↔ owed h r = true ∨ refused h r = true.
Proof. apply holds_owes. Qed.

Lemma owed_log s e w r : owed (Build_host s (log e w)) r = default (owes (w_trace w) r) (settle e r).
Proof. apply owes_snoc. Qed.

(** ** Programs that only give back

    [lets need R un idl p]: from a state where the event channel is open (if [need]), [p] returns,
    gives back what is in [R] and nothing else, and of the tables clears the lease (if [un]) and the
    running VM (if [idl]). *)

Definition gives (R : resource → bool) (h h' : host world) : Prop := ∀ r, owed h' r = if R r then false else owed h r.
Definition nothing : resource → bool := λ _, false.
Definition union (R1 R2 : resource → bool) : resource → bool := λ r, R1 r || R2 r.
Definition just (r : resource) : resource → bool := λ r', bool_decide (r' = r).

Lemma gives_trans R1 R2 h1 h2 h3 : gives R1 h1 h2 → gives R2 h2 h3 → gives (union R1 R2) h1 h3.
Proof. intros H1 H2 r. rewrite H2, H1. unfold union. by destruct (R1 r), (R2 r). Qed.

Section lets.
Context (P : Prop) (id : string).
Notation known := (known P id).

Definition lets (need : bool) (R : resource → bool) (un idl : bool) {A} (p : M (host world) A) : Prop :=
  ∀ h u i, (need = true → owed h REvents = true) → known u i (h_db h) →
    wp p (λ _ h', known (u || un) (i || idl) (h_db h') ∧ gives R h h') h.

Lemma lets_wp {A} need R un idl (p : M (host world) A) Q h u i :
  lets need R un idl p → (need = true → owed h REvents = true) → known u i (h_db h) →
  (∀ a h', known (u || un) (i || idl) (h_db h') → gives R h h' → Q a h') → wp p Q h.
Proof. intros Hp Hn Hk HQ. eapply wp_mono; [|by apply Hp]. cbn. intros a h' [??]. by apply HQ. Qed.

Lemma lets_ret {A} (a : A) : lets false nothing false false (mret a : M (host world) A).
Proof. intros h u i _ Hk. apply wp_ret. rewrite !orb_false_r. by split. Qed.

Lemma lets_bind {A B} n1 R1 u1 i1 n2 R2 u2 i2 (p : M (host world) A) (f : A → M (host world) B) :
  lets n1 R1 u1 i1 p → (∀ a, lets n2 R2 u2 i2 (f a)) → (n2 = true → R1 REvents = false) →
  lets (n1 || n2) (union R1 R2) (u1 || u2) (i1 || i2) (p ≫= f).
Proof.
  intros Hp Hf Hn h u i Hneed Hk. apply wp_bind. eapply lets_wp; [exact Hp|intros ->; auto|exact Hk|]. intros a h1 Hk1 H1.
  eapply lets_wp; [apply Hf| |exact Hk1|].
  - intros ->. rewrite H1, Hn by done. apply Hneed. apply orb_true_r.
  - intros b h2 Hk2 H2. rewrite !orb_assoc. split; [done|]. by eapply gives_trans.
Qed.

(** What needs nothing, then [f]. *)
Lemma lets_seq {A B} R1 u1 i1 n R2 u2 i2 (p : M (host world) A) (f : A → M (host world) B) :
  lets false R1 u1 i1 p → (∀ a, lets n R2 u2 i2 (f a)) → R1 REvents = false →
  lets n (union R1 R2) (u1 || u2) (i1 || i2) (p ≫= f).
Proof. intros Hp Hf Hn. by apply (lets_bind false _ _ _ n). Qed.

(** A release of one resource; whatever the host answers. *)
Lemma lets_sys env c (R : resource → bool) :
  (∀ x r, settle (Ev c x) r = if R r then Some false else None) → lets false R false false (host_call env c).
Proof.
  intros Hc h u i _ Hk. apply wp_sys. intros x. rewrite !orb_false_r. split; [done|]. intros r. rewrite owed_log, Hc.
  by destruct (R r).
Qed.

Lemma lets_do env c (R : resource → bool) :
  (∀ x r, settle (Ev c x) r = if R r then Some false else None) → lets false R false false (do env c).
Proof.
  intros Hc h u i _ Hk. apply wp_do. intros x. rewrite !orb_false_r. split; [done|]. intros r. rewrite owed_log, Hc.
  by destruct (R r).
Qed.

Lemma gives_none s st (h : host world) : gives nothing h (Build_host s (set_store st (h_os h))).
Proof. done. Qed.

Lemma lets_life f : (∀ st, runs_in quiet (f st)) → lets false nothing false false (life f).
Proof.
  intros Hf h u i _ Hk. apply wp_life; [done|]. intros e s st Hs. rewrite !orb_false_r.
  split; [by eapply known_quiet|apply gives_none].
Qed.

(** What is given back, written otherwise. *)
Lemma lets_weaken {A} n (R : resource → bool) u i R' u' i' n' (p : M (host world) A) :
  lets n R u i p → (∀ r, R r = R' r) → u = u' → i = i' → (n = true → n' = true) → lets n' R' u' i' p.
Proof.
  intros Hp HR -> -> Hn h u0 i0 Hneed Hk. eapply lets_wp; [exact Hp|auto|exact Hk|]. intros a h' Hk' Hg. split; [done|].
  intros r. by rewrite Hg, HR.
Qed.
End lets.

(** ** Close *)

Definition owned (sb : Sandbox) : resource → bool := λ r,
  match r with
  | RMachine | RRunning | REvents => true
  | RStack => false
  | RProxy => present (sb_proxy sb)
  | RDns => present (sb_dnsForwarder sb)
  | RFirewall => present (sb_fwRules sb)
  | RNat => present (sb_natRules sb)
  | RHooks => sb_vfsHooks sb
  | RVfs => sb_vfsServer sb
  | RImage p => bool_decide (p = sb_rootfsPath sb ∨ p = sb_bootstrapPath sb)
  | RSnapshot p => bool_decide (p ∈ sb_overlaySnapshots sb)
  end.

Section close.
Context (P : Prop) (id : string).
Context (env : list event → ∀ c, answer c) (baseDir subnetDir : string) (openErr : option db_error)
  (close_text : list close_error → string) (state_text : state_error → string).
Hypothesis opens : P → openErr = None.
Notation lets := (lets P id).

Lemma lets_SetPhase p : lets false nothing false false (SetPhase p).
Proof. apply lets_life. intros st. unfold Store_SetPhase. auto with quiet. Qed.
Lemma lets_SetLastError p : lets false nothing false false (SetLastError p).
Proof. apply lets_life. intros st. unfold Store_SetLastError. auto with quiet. Qed.

Lemma lets_mark name e errs : lets false nothing false false (markCleanup name e errs).
Proof.
  unfold markCleanup. eapply lets_weaken; [eapply lets_bind; [apply lets_life|intros a; apply lets_ret|done]|..]; try done.
  intros st. auto with quiet.
Qed.

Lemma lets_phase p errs : lets false nothing false false (set_phase_errs p errs).
Proof. unfold set_phase_errs. eapply lets_weaken; [eapply lets_bind; [apply lets_SetPhase|intros a; apply lets_ret|done]|..]; done. Qed.

Lemma lets_step {E} name (op : option (M (host world) (option E))) wrap text errs (b : bool) R u i :
  match op with Some p => b = true ∧ lets false R u i p | None => b = false end →
  lets false (λ r, b && R r) (b && u) (b && i) (cleanup_step name op wrap text errs).
Proof.
  unfold cleanup_step. destruct op as [p|]; [|intros ->; apply lets_mark]. intros [-> Hp]. cbn.
  eapply lets_weaken; [eapply lets_bind; [exact Hp|intros [e|]; apply lets_mark|done]|..]; try done; try by rewrite orb_false_r.
  intros r. apply orb_false_r.
Qed.

Lemma lets_quietly p R u i : lets false R u i p → lets false R u i (quietly p).
Proof.
  intros Hp. unfold quietly. eapply lets_weaken; [eapply lets_bind; [exact Hp|intros a; apply lets_ret|done]|..]; try done;
    try by rewrite orb_false_r. intros r. apply orb_false_r.
Qed.

Lemma lets_snapshots paths errs last :
  lets false (λ r, match r with RSnapshot p => bool_decide (p ∈ paths) | _ => false end) false false (remove_snapshots env paths errs last).
Proof.
  revert errs last. induction paths as [|p paths IH]; intros errs last; cbn [remove_snapshots].
  { eapply lets_weaken; [apply lets_ret|..]; try done. by intros []. }
  eapply lets_weaken; [eapply lets_bind; [apply (lets_sys _ _ env (OsRemoveAll p) (just (RSnapshot p)))|intros [e|]; apply IH|done]|..]; try done.
  intros r. unfold union, just. destruct r; try done. repeat case_bool_decide; set_solver.
Qed.

Lemma lets_remove_disk p : lets false (just (RImage p)) false false (remove_root_disk env p).
Proof.
  unfold remove_root_disk. eapply lets_weaken; [eapply lets_bind; [apply (lets_sys _ _ env (OsRemove p) (just (RImage p)))|intros e; apply lets_ret|done]|..]; try done.
  intros r. apply orb_false_r.
Qed.

Lemma lets_release : lets false nothing true false (on_db (Subnet_Release (subnetAllocator subnetDir openErr) id)).
Proof.
  intros h u i _ Hk. eapply wp_release; [exact Hk|exact opens|]. intros e s Hs. rewrite orb_true_r, orb_false_r. by split.
Qed.

Lemma lets_unregister : lets false nothing false true (Manager_Unregister (stateMgr baseDir openErr) id : M (host world) _).
Proof.
  intros h u i _ Hk. eapply wp_unregister_full; [exact Hk|exact opens|]. intros e s Hs. rewrite orb_true_r, orb_false_r. by split.
Qed.

Lemma lets_channel : lets true (just REvents) false false (close_events env).
Proof.
  intros h u i Hneed Hk. unfold wp, close_events. rewrite events_owed. unfold owed in Hneed. rewrite Hneed by done.
  apply (lets_do P id env CloseEvents (just REvents)); [|done|done]. intros x r. cbn. unfold just, only. by case_bool_decide.
Qed.

Lemma lets_when b p R : lets false R false false p → lets false (λ r, b && R r) false false (when b p).
Proof. destruct b; cbn; [done|]. intros _. eapply lets_weaken; [apply lets_ret|..]; done. Qed.

Definition part (b : bool) (r : resource) : resource → bool := λ r', b && just r r'.

(** A step that makes one call when there is something to give back. *)
Lemma step_some {A} name (o : option A) (op : A → M (host world) (option os_error)) wrap errs r :
  (∀ a, lets false (just r) false false (op a)) →
  lets false (part (present o) r) false false (cleanup_step name (op <$> o) wrap oe_text errs).
Proof.
  intros Hop. eapply lets_weaken; [eapply (lets_step _ _ _ _ _ (present o) (just r) false false)|..]; try done; try apply andb_false_r.
  destruct o; [|done]. by split.
Qed.

Lemma step_if name (b : bool) p wrap errs r :
  lets false (just r) false false p →
  lets false (part b r) false false (cleanup_step name (if b then Some (quietly p) else None) wrap oe_text errs).
Proof.
  intros Hp. eapply lets_weaken; [eapply (lets_step _ _ _ _ _ b (just r) false false)|..]; try done; try apply andb_false_r.
  destruct b; [|done]. split; [done|]. by apply lets_quietly.
Qed.

(** Computes what a sequence of steps gives back. *)
Ltac given_back := unfold union, part, just, nothing; cbn; rewrite ?andb_false_r, ?orb_false_r, ?andb_true_r; try done.

Definition begin_given (vfs hooks : bool) : resource → bool := λ r, match r with RVfs => vfs | RHooks => hooks | _ => false end.

Lemma Close_begin_lets vfs hooks : lets false (begin_given vfs hooks) false false (Close_begin env vfs hooks).
Proof.
  unfold Close_begin. eapply lets_weaken; [|..].
  { eapply lets_seq; [apply lets_phase| |done]. intros e1.
    eapply lets_seq; [apply lets_phase| |done]. intros e2.
    eapply lets_seq; [apply (step_if _ _ _ _ _ RVfs), lets_do; done| |]. 2: apply andb_false_r. intros e3.
    apply (step_if _ _ _ _ _ RHooks), lets_do; done. }
  - intros r. unfold begin_given. destruct r; given_back.
  - done.
  - done.
  - done.
Qed.

Definition machine_given (snapshots : list string) (rootfs bootstrap : string) : resource → bool := λ r,
  match r with
  | RMachine | RRunning | REvents => true
  | RImage p => bool_decide (p = rootfs ∨ p = bootstrap)
  | RSnapshot p => bool_decide (p ∈ snapshots)
  | _ => false
  end.

Lemma Close_machine_lets alloc snapshots rootfs bootstrap errs :
  lets true (machine_given snapshots rootfs bootstrap) alloc true
    (Close_machine env baseDir subnetDir openErr state_text id alloc snapshots rootfs bootstrap errs).
Proof.
  unfold Close_machine. eapply lets_weaken; [|..].
  { eapply lets_seq; [| |].
    { eapply (lets_step _ _ _ _ _ alloc nothing true false). destruct alloc; [|done]. split; [done|]. apply lets_release. }
    2: apply andb_false_r. intros e8.
    eapply (lets_bind _ _ true _ _ _ false); [apply lets_channel| |done]. intros _.
    eapply lets_seq; [apply lets_mark| |done]. intros e9.
    eapply lets_seq; [| |].
    { unfold sync_step. eapply (lets_step _ _ _ _ _ true nothing false false). split; [done|]. by apply lets_quietly, lets_do. }
    2: done. intros e10.
    eapply lets_seq; [| |].
    { eapply (lets_step _ _ _ _ _ true nothing false true). split; [done|]. apply lets_unregister. }
    2: done. intros e11.
    eapply lets_seq; [| |].
    { eapply (lets_step _ _ _ _ _ true (λ r, bool_decide (r = RMachine ∨ r = RRunning)) false false). split; [done|]. by apply lets_sys. }
    2: done. intros e12.
    eapply lets_seq; [apply lets_snapshots| |done]. intros [e13 last].
    eapply lets_seq; [apply lets_mark| |done]. intros e14.
    eapply lets_seq; [| |].
    { eapply (lets_step _ _ _ _ _ true (just (RImage rootfs)) false false). split; [done|]. apply lets_remove_disk. }
    2: done. intros e15.
    eapply (lets_step _ _ _ _ _ true (just (RImage bootstrap)) false false). split; [done|]. apply lets_remove_disk. }
  - intros r. unfold machine_given. destruct r; given_back. repeat case_bool_decide; naive_solver.
  - by rewrite ?andb_true_r, ?andb_false_r, ?orb_false_r.
  - by rewrite ?andb_false_r.
  - done.
Qed.

Lemma Close_end_lets errs : lets false nothing false false (Close_end close_text errs).
Proof.
  unfold Close_end. destruct (decide (errs = [])) as [_|_].
  - eapply lets_weaken; [eapply lets_seq; [apply lets_SetPhase| |done]|..]; [|done..].
    intros [e|]; [apply lets_ret|]. eapply lets_weaken; [eapply lets_seq; [apply lets_SetLastError|intros x; apply lets_ret|done]|..]; done.
  - eapply lets_weaken; [eapply lets_seq; [apply lets_SetLastError| |done]|..]; [|done..]. intros _.
    eapply lets_weaken; [eapply lets_seq; [apply lets_SetPhase|intros x; apply lets_ret|done]|..]; done.
Qed.

(** The network, then everything else. *)
Lemma Close_rest_lets alloc snapshots rootfs bootstrap errs :
  lets true (machine_given snapshots rootfs bootstrap) alloc true
    (errs ← Close_machine env baseDir subnetDir openErr state_text id alloc snapshots rootfs bootstrap errs; Close_end close_text errs).
Proof.
  eapply lets_weaken; [eapply (lets_bind _ _ true _ _ _ false); [apply Close_machine_lets|intros e; apply Close_end_lets|done]|..].
  - intros r. apply orb_false_r.
  - apply orb_false_r.
  - done.
  - done.
Qed.

Lemma part_events b r : r ≠ REvents → part b r REvents = false.
Proof. intros Hr. unfold part, just. case_bool_decide; [congruence|apply andb_false_r]. Qed.

(** Everything the sandbox owns is given back, its lease with it. *)
Lemma Close_lets sb : sb_id sb = id → lets true (owned sb) (sb_subnetAlloc sb) true (Close env baseDir subnetDir openErr close_text state_text sb).
Proof.
  intros Hid. unfold Close. rewrite Hid. eapply lets_weaken; [|..].
  { eapply lets_seq; [apply Close_begin_lets| |done]. intros e1.
    eapply lets_seq; [apply (step_some _ _ _ _ _ RFirewall); intros a; apply lets_sys; done| |by apply part_events]. intros e5.
    eapply lets_seq; [apply (step_some _ _ _ _ _ RNat); intros a; apply lets_sys; done| |by apply part_events]. intros e6.
    eapply lets_seq; [apply (step_some _ _ _ _ _ RProxy); intros a; apply lets_sys; done| |by apply part_events]. intros e7.
    eapply lets_seq; [apply (lets_when _ _ (just RDns)), lets_do; done|intros _; apply Close_rest_lets|by apply (part_events _ RDns)]. }
  - intros r. unfold owned, begin_given, machine_given. destruct r; given_back.
  - done.
  - done.
  - done.
Qed.
(** *** What Close reports

    [honest P0 ok C p]: a run of [p] whose result is [ok] leaves stuck only what was stuck, and
    nothing of [C]; and [P0] held before it. *)

Definition honest {A} (P0 : Prop) (ok : A → Prop) (C : resource → bool) (p : M (host world) A) : Prop :=
  ∀ h a h', p h = Some (a, h') → ok a → P0 ∧ ∀ r, refused h' r = true → refused h r = true ∧ C r = false.

Lemma honest_bind {A B} P0 ok1 ok2 C1 C2 (p : M (host world) A) (f : A → M (host world) B) :
  honest P0 ok1 C1 p → (∀ a, honest (ok1 a) ok2 C2 (f a)) → honest P0 ok2 (union C1 C2) (p ≫= f).
Proof.
  intros Hp Hf h b h' (a & h1 & H1 & H2)%M_bind_Some Hok. destruct (Hf a h1 b h' H2 Hok) as [Ha Hr2].
  destruct (Hp h a h1 H1 Ha) as [H0 Hr1]. split; [done|]. intros r Hr. apply Hr2 in Hr as [Hr HC]. apply Hr1 in Hr as [Hr HC'].
  unfold union. by rewrite HC, HC'.
Qed.

Lemma honest_weaken {A} P0 P1 ok ok' C C' (p : M (host world) A) :
  honest P0 ok C p → (P0 → P1) → (∀ a, ok' a → ok a) → (∀ r, C' r = C r) → honest P1 ok' C' p.
Proof.
  intros Hp H0 Hok HC h a h' H Ha. destruct (Hp h a h' H (Hok a Ha)) as [? Hr]. split; [auto|]. intros r Hr'.
  rewrite HC. auto.
Qed.

Lemma honest_seq {A B} P0 ok1 ok2 (p : M (host world) A) (f : A → M (host world) B) :
  honest P0 ok1 nothing p → (∀ a, honest (ok1 a) ok2 nothing (f a)) → honest P0 ok2 nothing (p ≫= f).
Proof. intros Hp Hf. by eapply honest_weaken; [eapply honest_bind; [exact Hp|exact Hf]|..]. Qed.

Lemma honest_as {A} P0 (ok : A → Prop) C C' p : honest P0 ok C p → (∀ r, C' r = C r) → honest P0 ok C' p.
Proof. intros Hp HC. by eapply honest_weaken. Qed.

(** What leaves the trace as it is. *)
Lemma honest_still {A} P0 (ok : A → Prop) (p : M (host world) A) :
  (∀ h a h', p h = Some (a, h') → trace h' = trace h) → (∀ a, ok a → P0) → honest P0 ok nothing p.
Proof. intros Hp Hok h a h' H Ha. split; [eauto|]. unfold refused. by rewrite (Hp _ _ _ H). Qed.

Lemma honest_ret {A} P0 (ok : A → Prop) a : (ok a → P0) → honest P0 ok nothing (mret a).
Proof. intros Hok. intros h b h' [-> ->]%M_ret_Some Ha. by split; [auto|]. Qed.

Lemma honest_life P0 ok f : (∀ e, ok e → P0) → honest P0 ok nothing (life f).
Proof.
  apply honest_still. intros h e h'. unfold life. destruct (f _ _) as [[[? ?] ?]|]; [|done]. by intros [= _ <-].
Qed.

Lemma honest_call c (ok : answer c → Prop) (C : resource → bool) :
  (∀ x, ok x → refuses (Ev c x) = false) → (∀ x r, C r = true → settle (Ev c x) r = Some false) →
  honest True ok C (host_call env c).
Proof.
  intros Hok HC h a h' H Ha. assert (H' : Some (a, h') = Some (env (trace h) c, Build_host (h_db h) (log (Ev c (env (trace h) c)) (h_os h)))) by (by rewrite <- H).
  clear H. injection H' as -> ->. set (e := Ev c (env (trace h) c)). assert (He : refuses e = false) by (by apply Hok).
  split; [done|]. intros r. specialize (HC (env (trace h) c) r). fold e in HC. clearbody e.
  unfold refused, stuck, trace. cbn [h_os log w_trace]. rewrite stands_snoc. unfold change. rewrite He.
  destruct (settle e r) as [[]|]; rewrite !bool_decide_eq_true; [done|done|]. intros ->.
  split; [done|]. destruct (C r); [by specialize (HC eq_refl)|done].
Qed.

Notation no_errors := (λ errs : list close_error, errs = []).

Lemma honest_mark name e errs : honest (errs = []) no_errors nothing (markCleanup name e errs).
Proof.
  unfold markCleanup. eapply honest_seq with (ok1 := λ _, errs = []); [by apply honest_life|].
  intros [e'|]; apply honest_ret; [by intros [_ ?]%app_nil|done].
Qed.

Lemma honest_phase p errs : honest (errs = []) no_errors nothing (set_phase_errs p errs).
Proof.
  unfold set_phase_errs, SetPhase. eapply honest_seq with (ok1 := λ _, errs = []); [by apply honest_life|].
  intros [e'|]; apply honest_ret; [by intros [_ ?]%app_nil|done].
Qed.

Lemma honest_step_some {E} name (p : M (host world) (option E)) wrap text errs C :
  honest True (λ e, e = None) C p → honest (errs = []) no_errors C (cleanup_step name (Some p) wrap text errs).
Proof.
  intros Hp. unfold cleanup_step. apply (honest_weaken (errs = []) _ (λ errs, errs = []) _ (union C nothing)); [|done..|intros r; unfold union; by rewrite orb_false_r].
  apply honest_bind with (ok1 := λ e, errs = [] ∧ e = None).
  { intros h e h' H [He Hn]. split; [exact He|]. by apply (Hp h e h'). }
  intros [e|]; (eapply honest_weaken; [apply honest_mark|..]); try done. by intros [_ ?]%app_nil.
Qed.

Lemma honest_step {E} name (op : option (M (host world) (option E))) wrap text errs :
  (∀ p, op = Some p → honest True (λ e, e = None) nothing p) →
  honest (errs = []) no_errors nothing (cleanup_step name op wrap text errs).
Proof. destruct op as [p|]; intros Hp; [by apply honest_step_some, Hp|apply honest_mark]. Qed.

Lemma honest_quietly p : honest True (λ _, True) nothing p → honest True (λ e, e = None) nothing (quietly p).
Proof.
  intros Hp. unfold quietly. eapply honest_seq; [exact Hp|]. intros a. by apply honest_ret.
Qed.

Lemma honest_do c : (∀ x, refuses (Ev c x) = false) → honest True (λ _, True) nothing (do env c).
Proof.
  intros Hc. unfold do. eapply honest_seq with (ok1 := λ _, True); [by apply honest_call|].
  intros a. by apply honest_ret.
Qed.

Lemma honest_keep {A} (Q : Prop) (p : M (host world) A) C ok : honest True ok C p → honest Q (λ a, Q ∧ ok a) C p.
Proof. intros Hp h a h' H [HQ Ha]. split; [done|]. by apply (Hp h a h'). Qed.

Lemma honest_snapshots paths errs last :
  honest (errs = []) (λ r, r.1 = []) nothing (remove_snapshots env paths errs last).
Proof.
  revert errs last. induction paths as [|p paths IH]; intros errs last; cbn [remove_snapshots]; [by apply honest_ret|].
  eapply honest_seq with (ok1 := λ e, errs = [] ∧ e = None).
  - apply honest_keep, (honest_call (OsRemoveAll p) (λ e, e = None) nothing); [by intros x ->|done].
  - intros [e|]; (eapply honest_weaken; [apply IH|..]); try done. by intros [_ ?]%app_nil.
Qed.

Lemma honest_disk p : honest True (λ e, e = None) nothing (remove_root_disk env p).
Proof.
  unfold remove_root_disk. eapply honest_seq with (ok1 := λ e, match e with Some e => oe_not_exist e = true | None => True end).
  - apply (honest_call (OsRemove p)); [|done]. intros [e|]; cbn; [by intros ->|done].
  - intros [e|]; apply honest_ret; [|done]. by destruct (oe_not_exist e).
Qed.

Lemma honest_db {A} (m : M storage A) ok : honest True ok nothing (on_db m).
Proof. apply honest_still; [|done]. intros h a h'. unfold on_db. destruct (m _) as [[? ?]|]; [|done]. by intros [= _ <-]. Qed.

Lemma honest_unregister ok : honest True ok nothing (Manager_Unregister (stateMgr baseDir openErr) id : M (host world) _).
Proof.
  unfold Manager_Unregister. destruct (Manager_ready _); [by apply honest_ret|].
  eapply honest_seq with (ok1 := λ _, True); [apply honest_db|].
  intros []; by apply honest_ret.
Qed.

Lemma honest_channel Q : honest Q (λ _, Q) nothing (close_events env).
Proof.
  intros h a h'. unfold close_events. destruct (holds _ _); [|done]. intros H HQ. split; [done|].
  by eapply (honest_do CloseEvents).
Qed.

Definition running (r : resource) : bool := bool_decide (r = RRunning).

(** A sequence of steps; [C1] is what the first clears. *)
Lemma honest_then {B} (errs0 : list close_error) ok C1 C2 (p : M (host world) (list close_error)) (f : list close_error → M (host world) B) :
  honest (errs0 = []) no_errors C1 p → (∀ errs, honest (errs = []) ok C2 (f errs)) → honest (errs0 = []) ok (union C1 C2) (p ≫= f).
Proof. intros Hp Hf. by eapply honest_bind. Qed.

Lemma honest_step_if name (b : bool) c wrap errs : (∀ x, refuses (Ev c x) = false) →
  honest (errs = []) no_errors nothing (cleanup_step name (if b then Some (quietly (do env c)) else None) wrap oe_text errs).
Proof. intros Hc. apply honest_step. destruct b; [|done]. intros p [= <-]. by apply honest_quietly, honest_do. Qed.

Lemma Close_begin_honest vfs hooks : honest True no_errors nothing (Close_begin env vfs hooks).
Proof.
  apply (honest_weaken (@nil close_error = []) _ (λ errs, errs = []) _ (union nothing (union nothing (union nothing nothing)))); [|done..].
  unfold Close_begin. eapply honest_then; [apply honest_phase|]. intros e1. eapply honest_then; [apply honest_phase|]. intros e2.
  eapply honest_then; [by apply (honest_step_if _ _ StopVFS)|]. intros e3. by apply (honest_step_if _ _ CloseHooks).
Qed.

Lemma Close_machine_honest alloc snapshots rootfs bootstrap errs :
  honest (errs = []) no_errors running
    (Close_machine env baseDir subnetDir openErr state_text id alloc snapshots rootfs bootstrap errs).
Proof.
  unfold Close_machine. eapply honest_as.
  { eapply honest_then; [apply honest_step; destruct alloc; [|done]; intros p [= <-]; apply honest_db|]. intros e1.
    eapply honest_bind; [apply (honest_channel (e1 = []))|]. intros u. cbv beta. clear u.
    eapply honest_then; [apply honest_mark|]. intros e2.
    eapply honest_then; [unfold sync_step; apply honest_step; intros p [= <-]; by apply honest_quietly, (honest_do (MachineExec "sync"))|]. intros e3.
    eapply honest_then; [apply honest_step; intros p [= <-]; apply honest_unregister|]. intros e4.
    eapply honest_then.
    { apply (honest_step_some _ _ _ _ _ running), (honest_call MachineClose (λ e, e = None)); [by intros x ->|].
      intros x r Hr. apply bool_decide_eq_true in Hr. subst r. cbn. unfold only. by rewrite bool_decide_eq_true_2 by (by right). }
    intros e5. eapply honest_bind; [apply honest_snapshots|]. intros [e6 last]. cbn [fst].
    eapply honest_then; [apply honest_mark|]. intros e7.
    eapply honest_then; [apply honest_step; intros p [= <-]; apply honest_disk|]. intros e8.
    apply honest_step. intros p [= <-]. apply honest_disk. }
  intros r. unfold union, nothing. by rewrite ?orb_false_r.
Qed.

Lemma Close_end_honest errs : honest (errs = []) no_errors nothing (Close_end close_text errs).
Proof.
  unfold Close_end, SetPhase, SetLastError. destruct (decide (errs = [])) as [He|He].
  - eapply honest_seq with (ok1 := λ _, errs = []); [by apply honest_life|].
    intros [e|]; [by apply honest_ret|].
    eapply honest_seq with (ok1 := λ _, errs = []); [by apply honest_life|].
    intros [e|]; by apply honest_ret.
  - eapply honest_seq with (ok1 := λ _, errs = []); [by apply honest_life|]. intros _.
    eapply honest_seq with (ok1 := λ _, errs = []); [by apply honest_life|]. intros _.
    by apply honest_ret.
Qed.

Lemma Close_rest_honest alloc snapshots rootfs bootstrap errs :
  honest (errs = []) no_errors running
    (errs ← Close_machine env baseDir subnetDir openErr state_text id alloc snapshots rootfs bootstrap errs; Close_end close_text errs).
Proof.
  eapply honest_as; [eapply honest_then; [apply Close_machine_honest|apply Close_end_honest]|].
  intros r. unfold union, nothing. by rewrite orb_false_r.
Qed.

(** A Close that reports no error had nothing refused, and no guest is left running. *)
Lemma Close_honest sb : sb_id sb = id →
  honest True no_errors running (Close env baseDir subnetDir openErr close_text state_text sb).
Proof.
  intros Hid. unfold Close. rewrite Hid.
  eapply honest_as.
  { eapply honest_bind; [apply Close_begin_honest|]. intros e1.
    eapply honest_then; [apply honest_step; destruct (sb_fwRules sb); [|done]; intros ? [= <-]; apply (honest_call (CleanupFirewall _) (λ e, e = None) nothing); [by intros x ->|done]|]. intros e2.
    eapply honest_then; [apply honest_step; destruct (sb_natRules sb); [|done]; intros ? [= <-]; apply (honest_call (CleanupNAT _) (λ e, e = None) nothing); [by intros x ->|done]|]. intros e3.
    eapply honest_then; [apply honest_step; destruct (sb_proxy sb); [|done]; intros ? [= <-]; apply (honest_call CloseProxy (λ e, e = None) nothing); [by intros x ->|done]|]. intros e4.
    eapply honest_bind with (ok1 := λ _, e4 = []); [|intros _; apply Close_rest_honest].
    unfold when. destruct (present _); [|by apply honest_ret]. intros h a h' H He. split; [done|]. by eapply (honest_do CloseDNS). }
  intros r. unfold union, nothing. by rewrite ?orb_false_r.
Qed.
End close.
