(* ===== verification/SandboxNew.v ===== *)
(** * The stages of New

    Each stage, from what the stages before it hold: what is held when it succeeds, and that a
    failure has given back the machine, the listeners, the tables, the lease and the running VM. *)

From S2P Require Import Prelude GoStrings GoStd GoPath VfsBase VfsMemory VfsRealFS VfsRouter VfsHooks VfsIntercept Api ApiConfig PolicyRules PolicyEngine Db Lifecycle State Subnets SandboxVfs Boot Firewall SandboxHost SandboxLife SandboxRun SandboxSpec.

Definition within (R : resource → Prop) (h : host world) : Prop := ∀ r, owed h r = true → R r.

Lemma within_mono (R R' : resource → Prop) h : (∀ r, R r → R' r) → within R h → within R' h.
Proof. unfold within. eauto. Qed.

Lemma within_gives (R : resource → Prop) G h h' : within R h → gives G h h' → within (λ r, R r ∧ G r = false) h'.
Proof. intros HR HG r. rewrite HG. destruct (G r); [done|eauto]. Qed.

(** After an event that takes [r0] at most. *)
Lemma within_log (R : resource → Prop) s e h :
  within R h → within (λ r, R r ∨ settle e r = Some true) (Build_host s (log e (h_os h))).
Proof.
  intros HR r. rewrite owed_log. destruct (settle e r) as [[]|]; cbn; [by right|done|]. intros Hr. left. by apply HR.
Qed.

Lemma within_quiet_log (R : resource → Prop) s e h :
  (∀ r, settle e r ≠ Some true) → within R h → within R (Build_host s (log e (h_os h))).
Proof. intros He HR. eapply within_mono, within_log, HR. cbn. intros r [?|?]; [done|]. by destruct (He r). Qed.

(** ** Disks *)

Section disks.
Context (env : list event → ∀ c, answer c).

(** What [p] takes, by its result. *)
Definition takes {A} (p : M (host world) A) (T : A → resource → Prop) : Prop :=
  ∀ h S, within S h → wp p (λ a h', h_db h' = h_db h ∧ within (λ r, S r ∨ T a r) h') h.

Definition image_if (path : string) (e : option disk_error) : resource → Prop :=
  λ r, match e with None => r = RImage path | Some _ => False end.

(** Runs the calls of a program, whatever the answers. *)
Ltac calls :=
  repeat lazymatch goal with
  | |- @wp _ _ ?m _ _ =>
      lazymatch m with
      | mret _ => apply wp_ret
      | _ ≫= _ => apply wp_bind
      | host_call _ ?c => apply (wp_sys _ c); intros
      | do _ ?c => apply (wp_do _ c); intros
      | if ?b then _ else _ => destruct b
      | match ?x with _ => _ end => destruct x
      end
  end.

Ltac trace_done HS :=
  split; [by cbn|]; let r := fresh "r" in intros r; unfold owed, trace; cbn [h_os log w_trace h_db set_store];
  rewrite ?owes_snoc; cbn [settle only got done_ok default]; unfold only;
  repeat case_bool_decide; cbn; subst; try done; try (by left; apply HS); try (by right); try (by intros ?; left; apply HS).

Lemma takes_createExt4Image path mb : takes (createExt4Image env path mb) (image_if path).
Proof. intros h S HS. unfold createExt4Image, sized_file, run_mke2fs. calls; trace_done HS. Qed.

Lemma takes_createSwapImage path mb : takes (createSwapImage env path mb) (image_if path).
Proof. intros h S HS. unfold createSwapImage, sized_file. calls; trace_done HS. Qed.

Lemma takes_createBootstrapRootfs guestInit path : takes (createBootstrapRootfs env guestInit path) (image_if path).
Proof.
  intros h S HS. unfold createBootstrapRootfs. apply wp_bind. eapply wp_mono; [|by apply takes_createExt4Image].
  intros [e|] h1 [Hdb H1]; cbn [image_if] in *; [by apply wp_ret|]. unfold injectHostBinaryIntoRootfs, debugfs.
  calls; trace_done H1; intros Hr; apply H1 in Hr; tauto.
Qed.

Lemma takes_prepareOverlayUpperRootfs guestInit path : takes (prepareOverlayUpperRootfs env guestInit path) (λ _ _, False).
Proof. intros h S HS. unfold prepareOverlayUpperRootfs, debugfs. calls; trace_done HS. Qed.

Lemma takes_injectConfigFile image guest content : takes (injectConfigFileIntoRootfs env image guest content) (λ _ _, False).
Proof. intros h S HS. unfold injectConfigFileIntoRootfs, debugfs. calls; trace_done HS. Qed.

Definition snapshot_in (l : list string) : resource → Prop := λ r, ∃ p, p ∈ l ∧ r = RSnapshot p.

Lemma cleanup_snapshots_wp paths h (S : resource → Prop) :
  within S h → wp (cleanupSnapshotPaths env paths) (λ _ h', h_db h' = h_db h ∧ within (λ r, S r ∧ ¬ snapshot_in paths r) h') h.
Proof.
  revert h S. induction paths as [|p paths IH]; intros h S HS; cbn [cleanupSnapshotPaths].
  { apply wp_ret. split; [done|]. eapply within_mono, HS. intros r Hr. split; [done|]. by intros (p & ?%elem_of_nil & _). }
  apply wp_bind, wp_do. intros x. eapply wp_mono; [|apply (IH _ (λ r, S r ∧ r ≠ RSnapshot p))].
  - intros _ h' [Hdb Hh]. split; [exact Hdb|]. eapply within_mono, Hh. intros r [[??] Hr]. split; [done|].
    intros (q & [->|Hq]%elem_of_cons & ->); [done|]. apply Hr. by exists q.
  - intros r. rewrite owed_log. cbn. unfold only. case_bool_decide; [done|]. cbn. intros Hr. split; [by apply HS|done].
Qed.

Definition snapshots_of {A} (r : result snapshot_error (list string * A)) : resource → Prop :=
  match r with Ok (l, _) => snapshot_in l | Err _ => λ _, False end.

Lemma snapshot_loop_wp root snapshots mounts h (S : resource → Prop) :
  within (λ r, S r ∨ snapshot_in snapshots r) h →
  wp (snapshot_loop env root snapshots mounts) (λ a h', h_db h' = h_db h ∧ within (λ r, S r ∨ snapshots_of a r) h') h.
Proof.
  assert (Hclean : ∀ paths e h, within (λ r, S r ∨ snapshot_in paths r) h →
    wp (_ ← cleanupSnapshotPaths env paths; mret (Err e))
       (λ (a : result snapshot_error (list string * list (string * MountConfig))) h', h_db h' = h_db h ∧ within (λ r, S r ∨ snapshots_of a r) h') h).
  { intros paths e h0 HS. apply wp_bind. eapply wp_mono; [|by apply cleanup_snapshots_wp]. intros _ h' [Hdb Hh]. apply wp_ret.
    split; [done|]. eapply within_mono, Hh. intros r [[?|?] ?]; [by left|done]. }
  revert snapshots h. induction mounts as [|[g m] mounts IH]; intros snapshots h HS; cbn [snapshot_loop].
  { by apply wp_ret. }
  assert (Hrest : ∀ (f : MountConfig) s h, within (λ r, S r ∨ snapshot_in s r) h →
    wp (r ← snapshot_loop env root s mounts; mret (match r with Ok (s, ms) => Ok (s, (g, f) :: ms) | Err e => Err e end))
       (λ (a : result snapshot_error (list string * list (string * MountConfig))) h', h_db h' = h_db h ∧ within (λ r, S r ∨ snapshots_of a r) h') h).
  { intros f s h0 H0. apply wp_bind. eapply wp_mono; [|by apply IH]. intros a h' [Hdb Hh]. apply wp_ret. split; [done|]. by destruct a as [[]|]. }
  destruct (negb _); [by apply Hrest|]. destruct (_ || _); [by apply Hclean|].
  apply wp_bind, (wp_sys _ (OsMkdirAll root)). intros [e|].
  { eapply (wp_mono _ _ _ _ _ (Hclean snapshots (ErrSnapshotDir e) (Build_host (h_db h) _) _)). Unshelve. 1: by intros a h' ?.
    by apply within_quiet_log. }
  apply wp_bind, (wp_sys _ (CopySnapshot _ _)).
  set (dst := PathJoin _). intros x.
  assert (Hd : ∀ s w, within (λ r, S r ∨ snapshot_in snapshots r) (Build_host s w) →
            within (λ r, S r ∨ snapshot_in (snapshots ++ [dst]) r) (Build_host s (log (Ev (CopySnapshot (mc_HostPath m) dst) x) w))).
  { intros s w Hw r. rewrite owed_log. cbn. unfold only. case_bool_decide as Hr; cbn.
    - intros _. right. exists dst. split; [set_solver|done].
    - intros [?|(p & ? & ?)]%Hw; [by left|]. right. exists p. split; [set_solver|done]. }
  destruct x as [e|]; [apply (Hclean _ _ (Build_host _ _))|apply (Hrest _ _ (Build_host _ _))]; apply Hd; by apply (within_quiet_log _ (h_db h)).
Qed.

Lemma takes_snapshots v dir : takes (prepareOverlaySnapshots env v dir) snapshots_of.
Proof.
  intros h S HS. unfold prepareOverlaySnapshots.
  assert (HS' : within (λ r, S r ∨ snapshot_in [] r) h) by (eapply within_mono, HS; auto).
  destruct v as [v|]; [|by apply wp_ret]. destruct (bool_decide _); [by apply wp_ret|].
  apply wp_bind. eapply wp_mono; [|by apply snapshot_loop_wp]. intros a h' [Hdb Hh]. apply wp_ret. split; [done|]. by destruct a as [[]|].
Qed.

Lemma takes_ret {A} (a : A) : takes (mret a) (λ _ _, False).
Proof. intros h S HS. apply wp_ret. split; [done|]. eapply within_mono, HS. auto. Qed.

Lemma takes_mono {A} (p : M (host world) A) (T T' : A → resource → Prop) : (∀ a r, T a r → T' a r) → takes p T → takes p T'.
Proof.
  intros HT Hp h S HS. eapply wp_mono; [|by apply Hp]. intros a h' [Hdb Hh]. split; [done|].
  eapply within_mono, Hh. intros r [?|?]; auto.
Qed.

(** One call. *)
Lemma takes_sys c (T : answer c → resource → Prop) : (∀ x r, settle (Ev c x) r = Some true → T x r) → takes (host_call env c) T.
Proof.
  intros Hc h S HS. apply wp_sys. intros x. split; [done|]. eapply within_mono, within_log, HS. cbn. intros r [?|?]; auto.
Qed.
End disks.

(** ** The stages *)

Definition root_disks (boot upper : string) : resource → Prop := λ r, r = RImage boot ∨ r = RImage upper.

(** What a failure leaves: the swap image and the snapshots, in the directory of the VM; the
    engine of the hooks and the event channel, in the process. *)
Definition remaining (baseDir : string) (openErr : option db_error) (id : string) : resource → Prop := λ r,
  match r with
  | RImage p => p = swap_path baseDir openErr id
  | RSnapshot _ | RHooks | REvents => True
  | _ => False
  end.

(** What the stages after the machine find. *)
Definition with_machine (baseDir : string) (openErr : option db_error) (id boot upper : string) (snapshots : list string) : resource → Prop := λ r,
  root_disks boot upper r ∨ r = RImage (swap_path baseDir openErr id) ∨ r = RMachine ∨ snapshot_in snapshots r.

Lemma only_true b x : only b x = Some true → b = true ∧ x = Some true.
Proof. by destruct b. Qed.

Ltac change_one := intros ?; cbn; intros [?%bool_decide_eq_true ?]%only_true; by simplify_eq.

Section stages.
Context `{HostABI} (vos : OsFS world) (env : list event → ∀ c, answer c).
Context (pid numCPU euid egid : Z) (guestInit baseDir subnetDir : string) (openErr : option db_error).
Context (uuid8 : string) (new_text : new_error → string) (close_text : list close_error → string)
  (state_text : state_error → string) (to_json : Config → option vm_config) (defaultKernelRef : string).
Context (exchange : string → Z → NetworkHookCallbackRequest → M world (result policy_error NetworkHookCallbackResponse))
  (random : string → string).
Context (P : Prop) (id boot upper : string).
Hypothesis opens : P → openErr = None.
Notation known := (known P id).
Notation lets := (lets P id).
Notation disk := (root_disks boot upper).
Notation remains := (remaining baseDir openErr id).

(** *** Cleaning up *)

Lemma lets_unit {A} n R u i (p : M (host world) A) : lets n R u i p → lets n R u i (_ ← p; mret tt : M (host world) unit).
Proof.
  intros Hp. eapply lets_weaken; [eapply lets_bind; [exact Hp|intros a; apply lets_ret|done]|..]; try by rewrite ?orb_false_r.
  intros r. apply orb_false_r.
Qed.

Lemma unregister_lets : lets false nothing false true (unregister baseDir openErr id).
Proof. by apply lets_unit, lets_unregister. Qed.

Lemma release_lets b : lets false nothing b false (releaseSubnet subnetDir openErr b id).
Proof. destruct b; [|apply lets_ret]. by apply lets_unit, lets_release. Qed.

Lemma rootdisks_lets : lets false (λ r, bool_decide (disk r)) false false (_ ← do env (OsRemove boot); do env (OsRemove upper)).
Proof.
  eapply lets_weaken; [eapply lets_bind; [apply lets_do|intros a; apply lets_do|]|..]; try done.
  intros r. unfold union, root_disks. cbn. repeat case_bool_decide; naive_solver.
Qed.

(** *** A stage *)

Definition ends {A} (ok : A → host world → Prop) (r : result new_error A) (h : host world) : Prop :=
  match r with
  | Ok a => ok a h
  | Err _ => known true true (h_db h) ∧ within (λ r, disk r ∨ remains r) h
  end.

(** What is held and known before a step of a stage. *)
Definition before (S : resource → Prop) (u i : bool) (h : host world) : Prop := within S h ∧ known u i (h_db h).

Lemma failing_wp {A} cleanup e S G u i u0 i0 h (ok : A → host world → Prop) :
  before S u0 i0 h → lets false G u i cleanup → u0 || u = true → i0 || i = true →
  (∀ r, S r → G r = false → disk r ∨ remains r) → wp (failing cleanup e) (ends ok) h.
Proof.
  intros [HS Hk] Hl Hu Hi Hrem. apply wp_bind. eapply lets_wp; [exact Hl|done|exact Hk|]. intros _ h' Hk' Hg. apply wp_ret.
  rewrite Hu, Hi in Hk'. split; [done|]. eapply within_mono, within_gives; [|exact HS|exact Hg]. intros r [??]. by apply Hrem.
Qed.

Lemma or_fail_wp {E A} (p : M (host world) (option E)) T cleanup wrap k S G u i u0 i0 h (ok : A → host world → Prop) :
  before S u0 i0 h → takes p T → lets false G u i cleanup → u0 || u = true → i0 || i = true →
  (∀ e r, S r ∨ T (Some e) r → G r = false → disk r ∨ remains r) →
  (∀ h', before (λ r, S r ∨ T None r) u0 i0 h' → wp k (ends ok) h') →
  wp (or_fail p cleanup wrap k) (ends ok) h.
Proof.
  intros [HS Hk] Hp Hl Hu Hi Hrem Hok. apply wp_bind. eapply wp_mono; [|by apply Hp]. intros [e|] h' [Hdb Hh].
  - eapply failing_wp; [split; [exact Hh|by rewrite Hdb]|done..|]. intros r. apply Hrem.
  - apply Hok. split; [done|by rewrite Hdb].
Qed.

Lemma or_fail_with_wp {E A B} (p : M (host world) (result E B)) T cleanup wrap k S G u i u0 i0 h (ok : A → host world → Prop) :
  before S u0 i0 h → takes p T → lets false G u i cleanup → u0 || u = true → i0 || i = true →
  (∀ e r, S r ∨ T (Err e) r → G r = false → disk r ∨ remains r) →
  (∀ b h', before (λ r, S r ∨ T (Ok b) r) u0 i0 h' → wp (k b) (ends ok) h') →
  wp (or_fail_with p cleanup wrap k) (ends ok) h.
Proof.
  intros [HS Hk] Hp Hl Hu Hi Hrem Hok. apply wp_bind. eapply wp_mono; [|by apply Hp]. intros [b|e] h' [Hdb Hh].
  - apply Hok. split; [done|by rewrite Hdb].
  - eapply failing_wp; [split; [exact Hh|by rewrite Hdb]|done..|]. intros r. apply Hrem.
Qed.

Lemma before_mono S S' u i h : (∀ r, S r → S' r) → before S u i h → before S' u i h.
Proof. intros HS [??]. split; [by eapply within_mono|done]. Qed.

Lemma resource_wp {A} f S u i h (k : M (host world) A) Q :
  before S u i h → (∀ h', before S u i h' → wp k Q h') → wp (_ ← SetResource f; k) Q h.
Proof.
  intros [HS Hk] HQ. apply wp_bind, wp_SetResource. intros s st Hs. apply HQ. split; [exact HS|]. by eapply known_quiet.
Qed.

(** *** The machine *)

Lemma allocate_stage config S i h Q :
  before S true i h →
  (∀ r h', before S (match r with Ok _ => noNetwork config | Err _ => true end) i h' → Q r h') →
  wp (allocateSubnet subnetDir openErr config id) Q h.
Proof.
  intros [HS Hk] HQ. unfold allocateSubnet. destruct (noNetwork config) eqn:En.
  { apply wp_ret, HQ. by split. }
  apply wp_bind. eapply wp_allocate; [exact Hk|]. intros [info|e] s Hs; [|apply wp_ret, HQ; by split].
  eapply resource_wp; [split; [exact HS|exact Hs]|]. intros h' Hb. by apply wp_ret, HQ.
Qed.

Lemma kernel_stage config opts S u i h Q :
  before S u i h → (∀ r h', before S u i h' → Q r h') → wp (resolveKernelForConfig env defaultKernelRef config opts) Q h.
Proof.
  intros Hb HQ. unfold resolveKernelForConfig. destruct (negb _).
  { eapply resource_wp; [exact Hb|]. intros h' Hb'. by apply wp_ret, HQ. }
  assert (Hk : ∀ (c : call), (∀ x r, settle (Ev c x) r ≠ Some true) → ∀ x, before S u i (Build_host (h_db h) (log (Ev c x) (h_os h)))).
  { intros c Hc x. destruct Hb as [HS Hkn]. split; [|exact Hkn]. by apply within_quiet_log. }
  assert (Hend : ∀ ref (r : result os_error string) h', before S u i h' →
    wp (match r with Err e => mret (Err e) | Ok path => _ ← SetResource (record_kernel ref path); mret (Ok path) end) Q h').
  { intros ref [path|e] h' Hb'; [|by apply wp_ret, HQ]. eapply resource_wp; [exact Hb'|]. intros h2 Hb2. by apply wp_ret, HQ. }
  apply wp_bind. destruct (decide _).
  - apply (wp_sys env ResolveKernelPath). intros x. by apply (Hend _ x), (Hk ResolveKernelPath).
  - apply (wp_sys env (ResolveKernelRef _)). intros x. by apply (Hend _ x), (Hk (ResolveKernelRef _)).
Qed.

(** The configuration after the machine stage. *)
Definition machine_config (vfs : option VFSConfig) (config : Config) : Config :=
  with_VFS vfs (with_Network (allow_secret_hosts <$> cfg_Network config) config).

Lemma noNetwork_machine vfs config : noNetwork (machine_config vfs config) = noNetwork config.
Proof. unfold machine_config, noNetwork. cbn. destruct (cfg_Network config) as [n|]; [|done]. cbn. unfold allow_secret_hosts. by destruct (decide _). Qed.

Definition swap_or (S : resource → Prop) : resource → Prop := λ r, S r ∨ r = RImage (swap_path baseDir openErr id).

Lemma release_undo b : lets false nothing b true (seq (releaseSubnet subnetDir openErr b id) (unregister baseDir openErr id)).
Proof.
  eapply lets_weaken; [eapply lets_bind; [apply release_lets|intros _; apply unregister_lets|done]|..]; try done.
  by rewrite orb_false_r.
Qed.

Lemma machine_lets : lets false (λ r, bool_decide (r = RMachine ∨ r = RRunning)) false false (closeMachine env).
Proof. apply lets_do. done. Qed.

(** *** The network *)

(** The channel is open, and with it what has to be held. *)
Definition open_with (S : resource → Prop) (u : bool) (h : host world) : Prop := before S u false h ∧ owed h REvents = true.

(** One call, whatever its answer. *)
Lemma call_wp {A} c S u h (k : answer c → M (host world) A) Q :
  open_with S u h → (∀ x, settle (Ev c x) REvents = None) →
  (∀ x h', open_with (λ r, S r ∨ settle (Ev c x) r = Some true) u h' →
     (∀ r, owed h' r = default (owed h r) (settle (Ev c x) r)) → wp (k x) Q h') →
  wp (x ← host_call env c; k x) Q h.
Proof.
  intros [[HS Hk] He] Hc HQ. apply wp_bind, (wp_sys _ c). intros x. apply HQ; [|intros r; apply owed_log].
  split; [split; [by apply within_log|exact Hk]|]. by rewrite owed_log, Hc.
Qed.

Lemma do_wp {A} c S u h (k : M (host world) A) Q :
  open_with S u h → (∀ x, settle (Ev c x) REvents = None) →
  (∀ x h', open_with (λ r, S r ∨ settle (Ev c x) r = Some true) u h' →
     (∀ r, owed h' r = default (owed h r) (settle (Ev c x) r)) → wp k Q h') →
  wp (_ ← do env c; k) Q h.
Proof.
  intros [[HS Hk] He] Hc HQ. apply wp_bind, (wp_do _ c). intros x. eapply HQ; [|intros r; apply owed_log].
  split; [split; [by apply within_log|exact Hk]|]. by rewrite owed_log, Hc.
Qed.

Lemma open_mono S S' u h : (∀ r, S r → S' r) → open_with S u h → open_with S' u h.
Proof. intros HS [Hb He]. split; [by eapply before_mono|done]. Qed.

(** At most [r0], if [b]. *)
Lemma open_one S u h r0 b f :
  (∀ r, f r = Some true → b = true ∧ r = r0) → open_with (λ r, S r ∨ f r = Some true) u h → open_with (λ r, S r ∨ (b = true ∧ r = r0)) u h.
Proof. intros Hf. apply open_mono. intros r [?|?]; [by left|right; auto]. Qed.

Lemma network_undo b :
  lets false (λ r, bool_decide (r = RMachine ∨ r = RRunning)) b true
    (seq (closeMachine env) (seq (releaseSubnet subnetDir openErr b id) (unregister baseDir openErr id))).
Proof.
  eapply lets_weaken; [eapply lets_seq; [apply machine_lets|intros _; apply release_undo|done]|..]; try done. intros r. apply orb_false_r.
Qed.

(** *** The VFS *)

Definition same_trace (w w' : world) : Prop := w_trace w' = w_trace w.
#[local] Instance same_trace_preorder : PreOrder same_trace.
Proof. unfold same_trace. split; [done|]. intros x y z. congruence. Qed.

(** Building the providers only makes objects. *)
Definition builds {A} (m : M world A) : Prop := ∀ w, ∃ a w', m w = Some (a, w') ∧ same_trace w w'.

Lemma builds_ret {A} (a : A) : builds (mret a).
Proof. intros w. by exists a, w. Qed.

Lemma builds_bind {A B} (m : M world A) (f : A → M world B) : builds m → (∀ a, builds (f a)) → builds (m ≫= f).
Proof.
  intros Hm Hf w. destruct (Hm w) as (a & w1 & H1 & R1). destruct (Hf a w1) as (b & w2 & H2 & R2).
  exists b, w2. split; [by rewrite (M_bind_step _ _ _ _ _ H1)|by trans w1].
Qed.

Lemma builds_pointer : builds new_pointer.
Proof. intros w. by eexists _, _. Qed.

Lemma builds_provider m : builds (createProvider vos m).
Proof.
  unfold createProvider. destruct (_ && _); [apply builds_ret|]. destruct (decide _).
  - apply builds_bind; [apply builds_pointer|]. intros a. destruct (mc_Readonly m); [|apply builds_ret].
    apply builds_bind; [apply builds_pointer|]. intros b. apply builds_ret.
  - apply builds_bind; [intros w; by eexists _, _|]. intros a. apply builds_ret.
Qed.

Lemma builds_providers mounts : builds (buildVFSProviders vos mounts).
Proof.
  induction mounts as [|[p m] mounts IH]; cbn [buildVFSProviders]; [apply builds_ret|].
  apply builds_bind; [apply builds_provider|]. intros [i|e]; [|apply builds_ret].
  apply builds_bind; [exact IH|]. intros [ps|e]; apply builds_ret.
Qed.

Lemma builds_root send v : builds (buildVFSRoot vos send euid egid v).
Proof.
  unfold buildVFSRoot. apply builds_bind; [apply builds_providers|]. intros [ps|e]; [|apply builds_ret].
  apply builds_bind; [apply builds_pointer|]. intros a. apply builds_bind; [apply builds_pointer|]. intros b. apply builds_ret.
Qed.

Lemma vfs_wp socket vfs cleanup G b S u h :
  open_with S u h → lets false G b true cleanup → u || b = true →
  (∀ r, S r → G r = false → disk r ∨ remains r) →
  wp (New_vfs vos env euid egid socket vfs cleanup)
     (ends (λ '(root, hooks) h', open_with (λ r, S r ∨ (hooks = true ∧ r = RHooks) ∨ (present root = true ∧ r = RVfs)) u h' ∧
        ∀ r, r = RFirewall ∨ r = RStack → owed h' r = owed h r)) h.
Proof.
  intros Ho Hl Hu HS. unfold New_vfs. destruct vfs as [v|].
  2: { apply wp_ret. split; [|done]. eapply open_mono, Ho. auto. }
  apply wp_bind. unfold wp at 1, on_world. destruct (builds_root send_event v (h_os h)) as (r & w & -> & Hw).
  set (h0 := Build_host (h_db h) w).
  assert (Hsame : ∀ r, owed h0 r = owed h r) by (intros r0; unfold owed, trace, h0; cbn; by rewrite Hw).
  assert (Ho0 : open_with S u h0).
  { destruct Ho as [[HSh Hk] He]. split; [split; [|exact Hk]|by rewrite Hsame]. intros r0. rewrite Hsame. apply HSh. }
  destruct r as [root|e]; [|destruct Ho0 as [Hb _]; by eapply failing_wp].
  set (hooks := hooks_of (Some v)). clearbody hooks.
  assert (Hhooks : ∀ (k : M (host world) (result new_error (option (Iface world) * bool))) Q,
    (∀ h', open_with (λ r, S r ∨ (hooks = true ∧ r = RHooks)) u h' → (∀ r, r = RFirewall ∨ r = RStack → owed h' r = owed h r) → wp k Q h') →
    wp (_ ← when hooks (do env StartHooks); k) Q h0).
  { intros k Q Hk. destruct hooks; cbn [when].
    - eapply (do_wp StartHooks); [exact Ho0|done|]. intros x h1 Ho1 H1. apply Hk; [|intros r Hr; rewrite H1, <- Hsame; by destruct Hr as [->| ->]].
      eapply open_one, Ho1. change_one.
    - apply wp_bind, wp_ret, Hk; [|done]. eapply open_mono, Ho0. auto. }
  apply Hhooks. intros h1 Ho1 H1. unfold or_fail. eapply (call_wp (ServeVFS _)); [exact Ho1|done|]. intros [e|] h2 Ho2 H2.
  - eapply failing_wp; [exact (proj1 Ho2)|exact Hl|done|by apply orb_true_r|]. intros r [[?|[_ ->]]|[_ ?]%only_true]; [auto|by right|done].
  - apply wp_ret. apply (open_one _ _ _ RVfs true) in Ho2; [|change_one]. split; [|intros r Hr; rewrite H2, <- (H1 r Hr); by destruct Hr as [->| ->]].
    eapply open_mono, Ho2. intros r [[?|?]|[_ ?]]; auto.
Qed.
End stages.

(** ** On linux *)

Section linux.
Context `{HostABI} (vos : OsFS world) (env : list event → ∀ c, answer c).
Context (pid numCPU euid egid : Z) (guestInit baseDir subnetDir : string) (openErr : option db_error).
Context (uuid8 : string) (new_text : new_error → string) (close_text : list close_error → string)
  (state_text : state_error → string) (to_json : Config → option vm_config) (defaultKernelRef : string).
Context (exchange : string → Z → NetworkHookCallbackRequest → M world (result policy_error NetworkHookCallbackResponse))
  (random : string → string).
Context (P : Prop) (id : string).
Hypothesis opens : P → openErr = None.
Notation known := (known P id).
Notation lets := (lets P id).
Notation boot := (bootstrap_path baseDir openErr id).
Notation upper := (upper_path baseDir openErr id).
Notation disk := (root_disks boot upper).
Notation remains := (remaining baseDir openErr id).
Notation before := (before P id).
Notation open_with := (open_with P id).
Notation ends := (ends baseDir openErr P id boot upper).
Notation swap_or := (swap_or baseDir openErr id).
Notation call_wp := (call_wp env P id).
Notation do_wp := (do_wp env P id).
Notation open_mono := (open_mono P id).
Notation open_one := (open_one P id).

Lemma undo_lets : lets false (λ r, bool_decide (disk r)) false true (seq (cleanupRootDisks env baseDir openErr id) (unregister baseDir openErr id)).
Proof.
  eapply lets_weaken; [eapply lets_bind; [apply rootdisks_lets|intros _; by apply unregister_lets|done]|..]; try done.
  intros r. apply orb_false_r.
Qed.

Lemma disks_wp config h :
  before (λ _, False) true false h →
  wp (New_disks env numCPU guestInit baseDir openErr id config)
     (ends (λ '(config', _) h', config' = fill_resources config ∧ before disk true false h')) h.
Proof.
  intros Hb. assert (Hd : before disk true false h) by (eapply before_mono, Hb; done). clear Hb. revert h Hd. unfold New_disks.
  assert (Hboot : ∀ r, disk r ∨ r = RImage (bootstrap_path baseDir openErr id) → disk r) by (intros r [?| ->]; [done|by left]).
  assert (Hupper : ∀ r, disk r ∨ r = RImage (upper_path baseDir openErr id) → disk r) by (intros r [?| ->]; [done|by right]).
  assert (Hnone : ∀ r, disk r ∨ False → disk r) by (by intros r [?|[]]).
  intros h Hb. eapply or_fail_wp; [exact Hb|apply takes_createBootstrapRootfs|apply undo_lets|done|done|by intros e r [?|[]] _; left|].
  intros h1 Hb1. eapply or_fail_wp; [eapply before_mono, Hb1; exact Hboot|apply takes_createExt4Image|apply undo_lets|done|done|by intros e r [?|[]] _; left|].
  intros h2 Hb2. eapply or_fail_wp; [eapply before_mono, Hb2; exact Hupper|apply takes_prepareOverlayUpperRootfs|apply undo_lets|done|done|by intros e r [?|[]] _; left|].
  intros h3 Hb3. eapply resource_wp; [eapply before_mono, Hb3; exact Hnone|].
  intros h4 Hb4. eapply or_fail_wp; [exact Hb4|apply takes_ret|by apply unregister_lets|done|done|by intros e r [?|[]] _; left|].
  intros h5 Hb5. eapply or_fail_wp; [eapply before_mono, Hb5; exact Hnone|apply takes_ret|by apply unregister_lets|done|done|by intros e r [?|[]] _; left|].
  intros h6 Hb6. destruct (needsProxy _); [|apply wp_ret; split; [done|eapply before_mono, Hb6; exact Hnone]].
  eapply or_fail_with_wp; [eapply before_mono, Hb6; exact Hnone|apply (takes_sys env NewCAPool (λ _ _, False)); done|apply undo_lets|done|done|by intros e r [?|[]] _; left|].
  intros ca h7 Hb7. eapply or_fail_wp; [eapply before_mono, Hb7; exact Hnone|apply takes_injectConfigFile|apply undo_lets|done|done|by intros e r [?|[]] _; left|].
  intros h8 Hb8. apply wp_ret. split; [done|eapply before_mono, Hb8; exact Hnone].
Qed.

Lemma machine_wp hostname workspace opts config h :
  cfg_Network config ≠ None → cfg_Resources config ≠ None →
  before disk true false h →
  wp (New_machine env baseDir subnetDir openErr defaultKernelRef id hostname workspace opts config)
     (ends (λ '(config', _, _, snapshots) h',
        (∃ vfs, config' = machine_config vfs config) ∧
        before (with_machine baseDir openErr id boot upper snapshots) (noNetwork config) false h')) h.
Proof.
  intros Hn Hr Hb. unfold New_machine. set (alloc := negb (noNetwork config)).
  assert (Hall : noNetwork config || alloc = true) by apply orb_negb_r.
  assert (Hor : ∀ S : resource → Prop, ∀ r, S r ∨ False → S r) by (by intros S r [?|[]]).
  apply wp_bind. eapply allocate_stage; [exact Hb|]. intros [subnet|e] h1 Hb1.
  2: { eapply failing_wp; [exact Hb1|apply undo_lets|done|done|]. by left. }
  apply wp_bind. eapply kernel_stage; [exact Hb1|]. intros [kernelPath|e] h2 Hb2.
  2: { eapply failing_wp; [exact Hb2| | | |].
       - eapply lets_seq; [by apply release_lets|intros _; apply undo_lets|done].
       - by rewrite orb_false_r.
       - done.
       - by left. }
  eapply or_fail_with_wp; [exact Hb2|apply takes_ret|by apply release_undo|done|done|by intros e r [?|[]] _; left|]. intros disks h3 Hb3.
  eapply or_fail_wp; [eapply before_mono, Hb3; apply Hor|apply takes_ret|by apply release_undo|done|done|by intros e r [?|[]] _; left|]. intros h4 Hb4.
  eapply or_fail_wp with (T := image_if (swap_path baseDir openErr id));
    [eapply before_mono, Hb4; apply Hor| |by apply release_undo|done|done|by intros e r [?|[]] _; left|].
  { destruct (0 <? swap_size config); [apply takes_createSwapImage|].
    eapply takes_mono, takes_ret. done. }
  intros h5 Hb5. change (before (swap_or disk) (noNetwork config) false h5) in Hb5.
  assert (Hswap : ∀ r, swap_or disk r → disk r ∨ remains r) by (intros r [?| ->]; [by left|by right]).
  apply wp_bind. unfold wp at 1, liftp, vm_config_of. cbn [cfg_Network with_Network cfg_Resources].
  destruct (cfg_Network config) as [n|] eqn:En; [|done]. destruct (cfg_Resources config) as [res|]; [|done]. cbn [fmap option_fmap option_map mbind option_bind].
  match goal with |- context [CreateMachine ?c] => set (vmConfig := c) end.
  assert (Hundo : lets false (λ r, bool_decide (disk r)) alloc true
            (seq (cleanupRootDisks env baseDir openErr id) (seq (releaseSubnet subnetDir openErr alloc id) (unregister baseDir openErr id)))).
  { eapply lets_weaken; [eapply lets_bind; [apply rootdisks_lets|intros _; by apply release_undo|done]|..]; try done. intros r. apply orb_false_r. }
  eapply or_fail_with_wp; [exact Hb5|apply (takes_sys env (CreateMachine vmConfig) (λ x r, is_Ok x = true ∧ r = RMachine))|exact Hundo|done|done| |].
  { intros x r. cbn. unfold only. case_bool_decide; [|done]. by destruct x. }
  { intros e r [?|[? _]] _; [auto|done]. }
  intros tap h6 Hb6. eapply before_mono in Hb6; [|intros r Hx; exact Hx].
  assert (Htap : ∀ (k : M (host world) (result new_error (Config * option SubnetInfo * string * list string))) Q,
    (∀ h', before (λ r, swap_or disk r ∨ r = RMachine) (noNetwork config) false h' → wp k Q h') →
    wp (_ ← (if decide (tap = "") then mret tt else SetResource (record_tap tap)); k) Q h6).
  { intros k Q Hk. assert (Hb6' : before (λ r, swap_or disk r ∨ r = RMachine) (noNetwork config) false h6).
    { eapply before_mono, Hb6. intros r [?|[_ ?]]; auto. }
    destruct (decide _); [by apply wp_bind, wp_ret, Hk|]. by eapply resource_wp. }
  apply Htap. clear h6 Hb6 Htap. intros h6 Hb6.
  eapply or_fail_with_wp; [exact Hb6|apply takes_snapshots| | | | |].
  { eapply lets_seq; [apply machine_lets|intros _; exact Hundo|done]. }
  { done. } { done. }
  { intros e r [[?| ->]|[]] Hg; [auto|]. done. }
  intros [snapshots vfs] h7 Hb7. apply wp_ret. split.
  - exists vfs. unfold machine_config. by rewrite En.
  - eapply before_mono, Hb7. unfold with_machine, swap_or. cbn. tauto.
Qed.

(** *** The network *)

Definition net := (option (Z * Z * Z) * option Z * option NFTablesRules * option string)%type.

Definition net_parts (n : net) : resource → Prop := λ r,
  match r with
  | RProxy => present n.1.1.1 = true | RDns => present n.1.1.2 = true | RFirewall => present n.1.2 = true | RNat => present n.2 = true
  | _ => False
  end.

Lemma nat_wp tap u alloc S h Q :
  open_with S u h →
  (∀ n h', open_with (λ r, S r ∨ (present n = true ∧ r = RNat)) u h' → owed h' RFirewall = owed h RFirewall → Q n h') →
  wp (setupNAT env alloc tap) Q h.
Proof.
  intros Ho Hk. unfold setupNAT. destruct alloc; [|apply wp_ret, Hk; [|done]; eapply open_mono, Ho; auto].
  eapply (call_wp (SetupNAT tap)); [exact Ho|done|]. intros [e|] h1 Ho1 H1.
  - eapply do_wp; [exact Ho1|done|]. intros x h2 Ho2 H2. apply wp_ret, Hk; [|by rewrite H2, H1].
    eapply open_mono, Ho2. cbn. intros r [[?|[_ ?]%only_true]|?]; [by left|done|done].
  - apply wp_ret, Hk; [|by rewrite H1]. eapply open_one, Ho1. change_one.
Qed.

Lemma network_wp tap subnet config S u h :
  open_with S u h → u || negb (noNetwork config) = true → (∀ r, S r → r = RMachine ∨ disk r ∨ remains r) →
  wp (New_network env baseDir subnetDir openErr id tap subnet config)
     (ends (λ n h', open_with (λ r, S r ∨ net_parts n r) u h' ∧
        (needsProxy config = true → present n.1.2 = true ∧ owed h' RFirewall = true))) h.
Proof.
  intros Ho Hu HS. unfold New_network. set (undo := seq (closeMachine env) _).
  set (gateway := match subnet with Some i => _ | None => _ end).
  assert (Hundo : lets false (λ r, bool_decide (r = RMachine ∨ r = RRunning)) (negb (noNetwork config)) true undo) by by apply network_undo.
  destruct (needsProxy config).
  2: { apply wp_bind. eapply nat_wp; [exact Ho|]. intros n h' Ho' _. apply wp_ret. split; [|done].
       eapply open_mono, Ho'. cbn. intros r [?|[? ->]]; auto. }
  assert (Hrem : ∀ r, S r → bool_decide (r = RMachine ∨ r = RRunning) = false → disk r ∨ remains r).
  { intros r Hr Hg. destruct (HS r Hr) as [->|?]; [done|done]. }
  destruct (decide (gateway = "")); [destruct Ho as [Hb _]; by eapply failing_wp|].
  eapply (call_wp (ListenProxy gateway)); [exact Ho|done|]. intros [ports|e] h1 Ho1 _.
  2: { eapply failing_wp; [exact (proj1 Ho1)|exact Hundo|done|done|]. intros r [?|[_ ?]%only_true]; [auto|done]. }
  apply (open_one _ _ _ RProxy true) in Ho1; [|change_one].
  eapply do_wp; [exact Ho1|done|]. intros x h2 Ho2 _.
  apply (open_mono _ (λ r, S r ∨ (true = true ∧ r = RProxy))) in Ho2; [|by intros r [?|?]].
  eapply (call_wp (ListenDNS _ _)); [exact Ho2|done|]. intros [port|e] h3 Ho3 _.
  2: { eapply failing_wp; [exact (proj1 Ho3)|eapply lets_seq; [by apply lets_do|intros _; exact Hundo|done]|done|done|].
       intros r [[?|[_ ->]]|[_ ?]%only_true]; [|done|done]. intros [_ ?]%orb_false_iff. auto. }
  apply (open_one _ _ _ RDns true) in Ho3; [|change_one].
  destruct ports as [[http https] passthrough]. set (rules := SetDNSForwarderPort _ _).
  eapply (call_wp (SetupFirewall rules)); [exact Ho3|done|]. intros [e|] h4 Ho4 H4.
  { eapply failing_wp; [exact (proj1 Ho4)|
      eapply lets_seq; [by apply lets_do|intros _; eapply lets_seq; [by apply lets_do|intros _; exact Hundo|done]|done]|done|done|].
    intros r [[[?|[_ ->]]|[_ ->]]|[_ ?]%only_true]; [|done..]. intros [_ [_ ?]%orb_false_iff]%orb_false_iff. auto. }
  apply (open_one _ _ _ RFirewall true) in Ho4; [|change_one].
  apply wp_bind. eapply nat_wp; [exact Ho4|]. intros m h5 Ho5 H5. apply wp_ret. split; [|by rewrite H5, H4].
  eapply open_mono, Ho5. cbn. intros r [[[[?|[_ ->]]|[_ ->]]|[_ ->]]|[? ->]]; first [by left|by right].
Qed.

Definition net_bool (n : net) : resource → bool := λ r,
  match r with
  | RMachine | RRunning => true
  | RProxy => present n.1.1.1 | RDns => present n.1.1.2 | RFirewall => present n.1.2 | RNat => present n.2
  | _ => false
  end.

Lemma when_some_lets {A} (o : option A) (p : A → M (host world) unit) r :
  (∀ a, lets false (just r) false false (p a)) → lets false (λ r', present o && just r r') false false (when_some o p).
Proof. destruct o as [a|]; intros Hp; cbn; [apply Hp|]. eapply lets_weaken; [apply lets_ret|..]; done. Qed.

Lemma cleanupVM_lets tap b n : lets false (net_bool n) b true (cleanupVM env baseDir subnetDir openErr id tap b n).
Proof.
  destruct n as [[[px dns] fw] nat]. unfold cleanupVM. eapply lets_weaken; [|..].
  { eapply lets_seq; [apply (when_some_lets _ _ RProxy); intros a; by apply lets_do| |apply andb_false_r]. intros _.
    eapply lets_seq; [apply (when_some_lets _ _ RDns); intros a; by apply lets_do| |apply andb_false_r]. intros _.
    eapply lets_seq; [apply (when_some_lets _ _ RFirewall); intros a; by apply lets_do| |apply andb_false_r]. intros _.
    eapply lets_seq; [apply (when_some_lets _ _ RNat); intros a; by apply lets_do| |apply andb_false_r]. intros _.
    eapply lets_seq; [apply machine_lets| |done]. intros _. eapply lets_seq; [by apply release_lets|intros _; by apply unregister_lets|done]. }
  - intros r. unfold union, net_bool, just, nothing. destruct r; cbn; rewrite ?andb_false_r, ?orb_false_r, ?andb_true_r; done.
  - by rewrite orb_false_r.
  - done.
  - done.
Qed.

End linux.
