(* ===== verification/SandboxLifeSpec.v ===== *)
(** * The life of a sandbox, from New to Close *)

From S2P Require Import Prelude GoStrings GoStd GoPath VfsBase VfsMemory VfsRealFS VfsRouter VfsHooks VfsIntercept Api ApiConfig PolicyRules PolicyEngine Db Lifecycle State Subnets SandboxVfs Boot Firewall SandboxHost SandboxLife SandboxRun SandboxSpec SandboxNew.

(** The tables hold no lease of the sandbox and no running VM. *)
Definition cleared (id : string) (s : storage) : Prop := unleased id s ∧ idle id s.

(** What its user does with a sandbox before closing it. *)
Inductive op := OpStart | OpStop.

Section driving.
Context (env : list event → ∀ c, answer c).

Fixpoint drive (ops : list op) : M (host world) unit :=
  match ops with
  | [] => mret tt
  | OpStart :: ops' => _ ← Start env; drive ops'
  | OpStop :: ops' => _ ← Stop env; drive ops'
  end.
End driving.

Section sandbox.
Context `{HostABI} (vos : OsFS world) (env : list event → ∀ c, answer c).
Context (pid numCPU euid egid : Z) (guestInit baseDir subnetDir : string) (openErr : option db_error).
Context (uuid8 : string) (new_text : new_error → string) (close_text : list close_error → string)
  (state_text : state_error → string) (to_json : Config → option vm_config) (defaultKernelRef : string).
Context (exchange : string → Z → NetworkHookCallbackRequest → M world (result policy_error NetworkHookCallbackResponse))
  (random : string → string).

Notation NewSandbox := (New vos env pid numCPU euid egid guestInit baseDir subnetDir openErr uuid8 new_text close_text state_text to_json
  defaultKernelRef exchange random).
Notation CloseSandbox := (Close env baseDir subnetDir openErr close_text state_text).

Section stages.
Context (P : Prop) (id boot upper : string).
Notation ends := (ends baseDir openErr P id boot upper).
Hypothesis opens : P → openErr = None.

(** A sandbox is ready: what is held is its own ([own]), or the swap image; [alloc] is whether it has
    a lease. *)
Record ready (own : resource → bool) (alloc : bool) (h : host world) : Prop := {
  ready_known : known P id (negb alloc) false (h_db h);
  ready_events : owed h REvents = true;
  ready_within : within (λ r, own r = true ∨ r = RImage (swap_path baseDir openErr id)) h }.

Section closing.
Context (own : resource → bool) (alloc : bool) (close : M (host world) (list close_error)).
Hypothesis close_lets : SandboxSpec.lets P id true own alloc true close.

Lemma close_ready h :
  ready own alloc h →
  wp close (λ _ h', known P id true true (h_db h') ∧ within (λ r, r = RImage (swap_path baseDir openErr id)) h') h.
Proof.
  intros [Hk He Hw]. eapply lets_wp; [exact close_lets|done|exact Hk|]. intros errs h' Hk' Hg. split.
  - by destruct alloc.
  - eapply within_mono, within_gives; [|exact Hw|exact Hg]. cbn. intros r [[Hr|?] ?]; [congruence|done].
Qed.

Lemma finish_wp {S} (sb : S) h :
  ready own alloc h →
  wp (New_finish close sb) (ends (λ sb' h', sb' = sb ∧ ready own alloc h' ∧ ∀ r, owed h' r = owed h r)) h.
Proof.
  intros Hr. unfold New_finish.
  assert (Hq : ∀ s st, quiet (h_db h) s → ready own alloc (Build_host s (set_store st (h_os h)))).
  { intros s st Hs. destruct Hr as [Hk ? ?]. split; [by eapply known_quiet|done..]. }
  assert (Hfail : ∀ e h', ready own alloc h' → wp (_ ← close; mret (Err (ErrLifecycleUpdate e)) : M (host world) (result new_error S))
     (ends (λ sb' h', sb' = sb ∧ ready own alloc h' ∧ ∀ r, owed h' r = owed h r)) h').
  { intros e h' Hr'. apply wp_bind. eapply wp_mono; [|by apply close_ready]. intros errs h2 (Hk & Hw). apply wp_ret.
    split; [done|]. eapply within_mono, Hw. cbn. intros r ->. by right. }
  apply wp_bind, wp_SetPhase. intros [e|] s st Hs; [by apply Hfail, Hq|].
  apply wp_bind, wp_SetLastError. cbn [h_db h_os]. intros e s' st' Hs'.
  assert (Hr' : ready own alloc (Build_host s' (set_store st' (set_store st (h_os h))))) by (apply (Hq s' st'); by trans s).
  destruct e as [e|]; [by apply Hfail|]. apply wp_ret. by split_and!.
Qed.
End closing.

(** The policy's engine and the allow list leave these of the configuration. *)
Definition like (n1 n2 : option NetworkConfig) : Prop := ∀ c, noNetwork (with_Network n1 c) = noNetwork (with_Network n2 c) ∧
  (needsProxy (with_Network n1 c) = true → needsProxy (with_Network n2 c) = true).

Lemma like_allowed n : like n (allow_secret_hosts <$> n).
Proof.
  intros c. unfold needsProxy, noNetwork. cbn. destruct n as [n|]; [|done]. cbn. unfold allow_secret_hosts.
  destruct (decide (nc_Secrets n = [])) as [Hs|Hs]; [done|]. cbn. split; [done|].
  rewrite (bool_decide_eq_false_2 (nc_Secrets n = [])) by done. by rewrite !orb_true_r.
Qed.

Lemma needsProxy_fill config : needsProxy (fill_resources config) = needsProxy config.
Proof. unfold fill_resources. by destruct (cfg_Resources config). Qed.

Lemma needsProxy_machine vfs config : needsProxy config = true → needsProxy (machine_config vfs config) = true.
Proof. intros Hn. apply (like_allowed (cfg_Network config) config). by destruct config. Qed.

(** The engine fills in placeholders only. *)
Lemma engine_config vfs config n :
  cfg_Network config = Some n →
  let engine := NewEngine exchange random n in
  let config' := with_Network (Some (eng_config engine)) (with_VFS vfs config) in
  noNetwork config' = noNetwork config ∧ needsProxy config' = needsProxy config.
Proof.
  intros Hn. unfold needsProxy, noNetwork. cbn. rewrite Hn. split; [done|]. cbn.
  assert (bool_decide (fill_placeholder random <$> nc_Secrets n = []) = bool_decide (nc_Secrets n = [])) as ->; [|done].
  apply bool_decide_ext. by destruct (nc_Secrets n).
Qed.

Lemma bind_ok_wp {A B} (p : M (host world) (result new_error A)) (k : A → M (host world) (result new_error B)) ok1 ok2 h :
  wp p (ends ok1) h → (∀ a h', ok1 a h' → wp (k a) (ends ok2) h') →
  wp (bind_ok p k) (ends ok2) h.
Proof. intros Hp Hk. apply wp_bind. eapply wp_mono, Hp. intros [a|e] h' Ha; [by apply Hk|]. by apply wp_ret. Qed.

(** What New ends with: the record of a failure, and nothing of a stage left but the remains. *)
Definition ends_clean {S} (ok : S → host world → Prop) (r : result new_error S) (h : host world) : Prop :=
  match r with Ok sb => ok sb h | Err _ => known P id true true (h_db h) ∧ within (remaining baseDir openErr id) h end.

Lemma defer_disks_wp {S} (r : result new_error S) h ok :
  ends ok r h → wp (defer_disks (_ ← do env (OsRemove boot); do env (OsRemove upper)) r) (ends_clean ok) h.
Proof.
  intros Hr. unfold defer_disks. destruct r as [sb|e]; [by apply wp_ret|]. destruct Hr as [Hk Hw].
  apply wp_bind. eapply lets_wp; [by apply rootdisks_lets|done|exact Hk|]. intros _ h1 Hk1 Hg. apply wp_ret. split; [exact Hk1|].
  eapply within_mono; [|by eapply within_gives]. cbn. intros r [[Hr|Hr] Hd]; [|done]. by rewrite bool_decide_eq_false in Hd.
Qed.

Lemma defer_record_wp {S} (r : result new_error S) h ok : ends_clean ok r h → wp (defer_record new_text r) (ends_clean ok) h.
Proof.
  intros Hr. unfold defer_record. destruct r as [sb|e]; [by apply wp_ret|]. destruct Hr as [Hk Hw].
  apply wp_bind, wp_SetLastError. intros e1 s1 st1 Hs1. apply wp_bind, wp_SetPhase. cbn [h_db h_os]. intros e2 s2 st2 Hs2. apply wp_ret.
  split; [|exact Hw]. eapply known_quiet; [|exact Hk]. by trans s1.
Qed.

(** The registration, which both systems begin with: the record of the VM and of its life. *)
Lemma registered_wp {S} json backend workspace (k : M (host world) (result new_error S)) ok h :
  (∀ r, owed h r = false) → known P id true true (h_db h) →
  (∀ h', before P id (λ _, False) true false h' → wp k (ends_clean ok) h') →
  wp (or_fail (Manager_Register (linux_ops env pid) (stateMgr baseDir openErr) id json) (mret tt) ErrRegisterState (
      _ ← new_store baseDir openErr id;
      or_fail (life (λ st, Store_Init st id backend (vm_dir baseDir openErr id))) (unregister baseDir openErr id) ErrLifecycleInit (
      _ ← SetResource (record_workspace (vm_dir baseDir openErr id) workspace); k))) (ends_clean ok) h.
Proof.
  intros Hh Hk Hrest. apply wp_bind. eapply wp_register; [exact Hk|]. intros [e|] s w Hs Hheld.
  { apply wp_bind, wp_ret, wp_ret. split; [exact Hs|]. intros r Hr. apply Hheld in Hr. unfold owed, trace in Hh. by rewrite Hh in Hr. }
  apply wp_bind. unfold wp at 1, new_store. cbn [h_db h_os]. set (w1 := set_store _ w).
  assert (Hb : before P id (λ _, False) true false (Build_host s w1)).
  { split; [|exact Hs]. intros r Hr. apply Hheld in Hr. unfold owed, trace in Hh. by rewrite Hh in Hr. }
  apply wp_bind, wp_life; [intros st; auto with quiet|]. cbn [h_db h_os]. intros e s2 st2 Hs2.
  assert (Hb2 : before P id (λ _, False) true false (Build_host s2 (set_store st2 w1))).
  { destruct Hb as [Hw1 Hk1]. split; [exact Hw1|by eapply known_quiet]. }
  destruct e as [e|]; [|by eapply (resource_wp P id)].
  apply wp_bind. destruct Hb2 as [Hw2 Hk2]. eapply lets_wp; [by apply unregister_lets|done|exact Hk2|].
  intros _ h3 Hk3 Hg3. apply wp_ret. split; [done|]. eapply within_mono; [|by eapply within_gives]. by intros r [[] _].
Qed.

Definition fresh (config : Config) : Config := (GetID uuid8 config).2.

Lemma fresh_network config : cfg_Network (fresh config) = cfg_Network config.
Proof. unfold fresh, GetID. by destruct (decide _). Qed.

(** A start or a stop changes only whether the guest runs. *)
Definition drives {A} (p : M (host world) A) : Prop := ∀ own alloc h, own RRunning = true → ready own alloc h →
  wp p (λ _ h', ready own alloc h' ∧ ∀ r, r ≠ RRunning → stands (trace h') r = stands (trace h) r) h.

Lemma drives_ret {A} (a : A) : drives (mret a).
Proof. intros own alloc h _ Hr. by apply wp_ret. Qed.

Lemma drives_bind {A B} (p : M (host world) A) (f : A → M (host world) B) : drives p → (∀ a, drives (f a)) → drives (p ≫= f).
Proof.
  intros Hp Hf own alloc h Ho Hr. apply wp_bind. eapply wp_mono; [|by apply Hp]. intros a h1 [Hr1 H1].
  eapply wp_mono; [|by apply Hf]. intros b h2 [Hr2 H2]. split; [done|]. intros r Hne. by rewrite H2, H1.
Qed.

Lemma drives_life f : (∀ st, runs_in quiet (f st)) → drives (life f).
Proof.
  intros Hf own alloc h _ Hr. apply wp_life; [exact Hf|]. intros e s st Hs. split; [|done]. destruct Hr as [Hk ? ?].
  split; [by eapply known_quiet|done..].
Qed.

Lemma drives_machine c : (∀ x r, r ≠ RRunning → settle (Ev c x) r = None) → drives (host_call env c).
Proof.
  intros Hc own alloc h Ho [Hk He Hw]. apply wp_sys. intros x.
  assert (Hst : ∀ r, r ≠ RRunning → stands (trace (Build_host (h_db h) (log (Ev c x) (h_os h)))) r = stands (trace h) r).
  { intros r Hne. unfold trace. cbn [h_os log w_trace]. rewrite stands_snoc. unfold change. by rewrite Hc. }
  assert (Hsame : ∀ r, r ≠ RRunning → owed (Build_host (h_db h) (log (Ev c x) (h_os h))) r = owed h r).
  { intros r Hne. unfold owed, owes. by rewrite Hst. }
  split; [|exact Hst]. split; [exact Hk|by rewrite Hsame|]. intros r Hr. destruct (decide (r = RRunning)) as [->|Hne]; [by left|].
  apply Hw. by rewrite <- Hsame.
Qed.

Lemma drives_transit from p failed to : drives p → drives (transit from p failed to).
Proof.
  intros Hp. assert (Hl : ∀ f, drives (SetPhase f)) by (intros f; apply drives_life; intros st; unfold Store_SetPhase; auto with quiet).
  assert (Hs : ∀ f, drives (SetLastError f)) by (intros f; apply drives_life; intros st; unfold Store_SetLastError; auto with quiet).
  unfold transit. apply drives_bind; [apply Hl|]. intros [e|]; [apply drives_ret|]. apply drives_bind; [exact Hp|].
  intros [e|]; (apply drives_bind; [first [apply Hs|apply Hl]|]); intros r.
  - apply drives_bind; [apply Hl|]. intros. apply drives_ret.
  - destruct r; [apply drives_ret|]. apply drives_bind; [apply Hs|]. intros. apply drives_ret.
Qed.

Lemma drives_ops ops : drives (drive env ops).
Proof.
  assert (Hc : ∀ c, c = MachineStart ∨ c = MachineStop → ∀ x r, r ≠ RRunning → settle (Ev c x) r = None).
  { intros c Hc x r Hne. destruct Hc as [->| ->]; cbn; unfold only; by rewrite bool_decide_eq_false_2. }
  induction ops as [|[] ops IH]; cbn [drive]; [apply drives_ret| |]; (apply drives_bind; [|intros; exact IH]); apply drives_transit.
  - apply drives_machine, Hc. by left.
  - apply drives_machine, Hc. by right.
Qed.
End stages.

(** ** On linux *)

Section linux.
Context (P : Prop) (id : string).
Hypothesis opens : P → openErr = None.
Notation boot := (bootstrap_path baseDir openErr id).
Notation upper := (upper_path baseDir openErr id).
Notation ends := (ends baseDir openErr P id boot upper).
Notation ready := (ready P id).
Notation ends_clean := (ends_clean P id).

Definition made_sandbox (config : Config) (sb : Sandbox) (h : host world) : Prop :=
  sb_id sb = id ∧ ready (owned sb) (sb_subnetAlloc sb) h ∧ owed h RRunning = false ∧ (needsProxy config = true → owed h RFirewall = true).

Lemma parts_wp hostname workspace opts config h :
  cfg_Network config ≠ None → before P id (λ _, False) true false h →
  wp (New_parts vos env numCPU euid egid guestInit baseDir subnetDir openErr close_text state_text defaultKernelRef exchange random
        id hostname workspace opts config) (ends (made_sandbox config)) h.
Proof.
  intros Hn Hb. unfold New_parts. eapply bind_ok_wp; [by apply disks_wp|]. intros [config1 ca] h1 [-> Hb1].
  set (config1 := fill_resources config).
  assert (Hnet1 : cfg_Network config1 = cfg_Network config) by (unfold config1, fill_resources; by destruct (cfg_Resources config)).
  assert (Hno1 : noNetwork config1 = noNetwork config) by (unfold noNetwork; by rewrite Hnet1).
  assert (Hres1 : cfg_Resources config1 ≠ None) by (unfold config1, fill_resources; by destruct (cfg_Resources config) eqn:E; cbn; rewrite ?E).
  assert (Hn1 : cfg_Network config1 ≠ None) by (by rewrite Hnet1).
  eapply bind_ok_wp; [by apply machine_wp|].
  intros [[[config2 subnet] tap] snapshots] h2 [[vfs ->] Hb2]. set (config2 := machine_config vfs config1).
  destruct (cfg_Network config2) as [n|] eqn:En2; [|by revert En2; unfold config2; cbn; rewrite Hnet1; destruct (cfg_Network config)].
  cbn [fmap option_fmap option_map]. set (engine := NewEngine exchange random n). set (config3 := with_Network (Some (eng_config engine)) config2).
  assert (Hengine := engine_config (cfg_VFS config2) config2 n En2). cbn zeta in Hengine.
  assert (Hc3 : noNetwork config3 = noNetwork config ∧ (needsProxy config = true → needsProxy config3 = true)).
  { destruct Hengine as [H1 H2]. split.
    - unfold config3. etransitivity; [exact H1|]. unfold config2. by rewrite noNetwork_machine.
    - intros Hp. unfold config3. etransitivity; [exact H2|]. apply needsProxy_machine. etransitivity; [apply needsProxy_fill|done]. }
  clearbody config3. destruct Hc3 as [Hno3 Hnp3]. clear Hengine.
  apply wp_bind, (wp_do _ MakeEvents). intros x. set (h3 := Build_host _ _).
  set (S3 := λ r, with_machine baseDir openErr id boot upper snapshots r ∨ r = REvents).
  assert (Ho3 : open_with P id S3 (noNetwork config) h3).
  { destruct Hb2 as [Hw2 Hk2]. rewrite Hno1 in Hk2. split; [split; [|exact Hk2]|].
    - eapply within_mono; [|by apply within_log]. cbn. intros r [?|[?%bool_decide_eq_true _]%only_true]; [by left|by right].
    - unfold h3. by rewrite owed_log. }
  clearbody h3. assert (Hu : noNetwork config || negb (noNetwork config) = true) by apply orb_negb_r.
  assert (Hmach : ∀ r, with_machine baseDir openErr id boot upper snapshots r → r = RMachine ∨ root_disks boot upper r ∨ remaining baseDir openErr id r).
  { unfold with_machine. intros r [?|[->|[->|(p & _ & ->)]]]; [auto|right; by right|by left|right; by right]. }
  eapply bind_ok_wp; [eapply network_wp; [exact opens|exact Ho3|by rewrite Hno3|]|].
  { intros r [Hr| ->]; [by apply Hmach|right; by right]. }
  intros nt h4 [Ho4 Hfw4].
  eapply bind_ok_wp; [eapply vfs_wp; [exact Ho4|by apply cleanupVM_lets|exact Hu|]|].
  { intros r [[Hr| ->]|Hr] Hb'; [destruct (Hmach r Hr) as [->|?]; [done|done]|by right|destruct r; cbn in Hr, Hb'; try done; congruence]. }
  intros [root hooks] h5 [Ho5 Hfw5]. match goal with |- wp (New_finish _ ?s) _ _ => set (sb := s) end.
  assert (Hready : ready (owned sb) (sb_subnetAlloc sb) h5).
  { destruct Ho5 as [[Hw5 Hk5] He5]. split; [cbn [sb_subnetAlloc sb]; by rewrite negb_involutive|done|]. eapply within_mono, Hw5. cbn.
    intros r [[[Hr| ->]|Hr]|[[-> ->]|[Hr ->]]]; [|by left|left; by destruct r|by left|by left].
    destruct Hr as [[->| ->]|[->|[->|(p & Hp & ->)]]]; [left|left|by right|by left|left]; cbn; apply bool_decide_eq_true; auto. }
  assert (Hrun : owed h5 RRunning = false).
  { destruct (owed h5 RRunning) eqn:E; [|done]. destruct Ho5 as [[Hw5 _] _]. apply Hw5 in E.
    destruct E as [[[Hr|?]|[]]|[[_ ?]|[_ ?]]]; try done. destruct Hr as [[?|?]|[?|[?|(p & _ & ?)]]]; done. }
  eapply wp_mono; [|eapply finish_wp; [by apply Close_lets|exact Hready]]. intros [sb'|e] h6 H6; [|exact H6]. destruct H6 as (-> & Hr6 & Hh6).
  split_and!; [done|done|by rewrite Hh6|]. intros Hp. rewrite Hh6, Hfw5 by auto. by apply Hfw4, Hnp3.
Qed.

Lemma New_wp opts config h :
  id = (GetID uuid8 config).1 → cfg_Network config ≠ None → (∀ r, owed h r = false) → known P id true true (h_db h) →
  wp (NewSandbox opts config)
     (ends_clean (made_sandbox config)) h.
Proof.
  intros Hid Hn Hh Hk. assert (Hfn := fresh_network config). unfold New.
  assert (Hw : ∀ R, within R h) by (intros R r; by rewrite Hh).
  destruct (decide _); [by apply wp_ret|]. destruct (Config_ValidateVFS _); [by apply wp_ret|].
  unfold fresh in Hfn. destruct (GetID uuid8 config) as [id' config'] eqn:E. cbn in Hid, Hfn. subst id'.
  apply registered_wp; [done..|]. intros h3 Hb3. apply wp_bind. eapply wp_mono; [|apply parts_wp; [by rewrite Hfn|exact Hb3]].
  intros r h4 Hr. apply wp_bind. eapply wp_mono; [|by apply defer_disks_wp]. intros r' h5 Hr'.
  eapply wp_mono; [|by apply defer_record_wp]. intros [sb|e] h6; [|done]. intros (H0 & H1 & H2 & H3). split_and!; [done..|].
  intros Hp. apply H3. unfold needsProxy, noNetwork in *. by rewrite Hfn.
Qed.

End linux.

(** ** What holds *)

Lemma cleared_known id s : known (sg_faults s = [] ∧ openErr = None ∧ cleared id s) id true true s.
Proof. split; [by intros (? & _)|by intros _ (_ & _ & ? & _)|by intros _ (_ & _ & _ & ?)]. Qed.

Lemma known_cleared (P : Prop) id s : P → known P id true true s → cleared id s.
Proof. intros HP [_ H1 H2]. split; auto. Qed.

Definition sandbox_id (config : Config) : string := (GetID uuid8 config).1.

(** Where nothing is held, nothing is owed. *)
Lemma none_owed h : (∀ r, held h r = false) → ∀ r, owed h r = false.
Proof.
  intros Hh r. destruct (owed h r) eqn:E; [|done]. rewrite <- (Hh r). symmetry. apply held_owed. by left.
Qed.

(** What a Close leaves: [within] counts only what was not asked back. *)
Lemma within_held R h : within R h → ∀ r, held h r = true → R r ∨ refused h r = true.
Proof. intros HR r [Hr|Hr]%held_owed; [left; by apply HR|by right]. Qed.

(** Of what a Close without errors leaves, the rest was stuck when the sandbox was made. *)
Lemma closed_clean R (p : M (host world) (list close_error)) h1 h2 errs h3 :
  honest True (λ errs, errs = []) running p → (∀ r, r ≠ RRunning → stands (trace h2) r = stands (trace h1) r) →
  p h2 = Some (errs, h3) → within R h3 → errs = [] → ∀ r, held h3 r = true → R r ∨ refused h1 r = true.
Proof.
  intros Hp Hsame Hrun HR He r Hr. apply (within_held R) in Hr as [?|Hr]; [by left| |done]. right.
  destruct (Hp h2 errs h3 Hrun He) as [_ Hback]. apply Hback in Hr as [Hr Hne%bool_decide_eq_false].
  revert Hr. unfold refused, stuck. by rewrite Hsame.
Qed.

(** C5: for a configuration with a network part, [New] returns whatever the host answers and the
    database does. If it fails, nothing of the sandbox is held but the remains in its directory and
    process, and what the host refused to take back; if not, its user may start and stop it, and
    [Close] returns and asks everything back but the swap image: what is held still is that image and
    what the host refused to take back. When Close reports no error, it refused nothing: all else
    that is held is what [New] itself could not give back. When the database works, the lease of the
    subnet is given back too, and the VM is not recorded as running. *)
Theorem sandbox_releases opts config ops h :
  cfg_Network config ≠ None → (∀ r, held h r = false) →
  let id := sandbox_id config in
  let works := sg_faults (h_db h) = [] ∧ openErr = None ∧ cleared id (h_db h) in
  ∃ r h1, NewSandbox opts config h = Some (r, h1) ∧
  match r with
  | Err _ => (∀ r, held h1 r = true → remaining baseDir openErr id r ∨ refused h1 r = true) ∧ (works → cleared id (h_db h1))
  | Ok sb => ∃ h2 errs h3, drive env ops h1 = Some (tt, h2) ∧ CloseSandbox sb h2 = Some (errs, h3) ∧
      (∀ r, held h3 r = true → r = RImage (swap_path baseDir openErr id) ∨ refused h3 r = true) ∧
      (errs = [] → ∀ r, held h3 r = true → r = RImage (swap_path baseDir openErr id) ∨ refused h1 r = true) ∧
      (works → cleared id (h_db h3))
  end.
Proof.
  intros Hn Hh id works. assert (Ho : works → openErr = None) by (by intros (_ & ? & _)).
  destruct (wp_run _ _ _ (New_wp works id Ho opts config h eq_refl Hn (none_owed h Hh) (cleared_known id (h_db h)))) as (r & h1 & Hrun & Hr).
  exists r, h1. split; [exact Hrun|]. destruct r as [sb|e].
  2: { destruct Hr as [Hk Hw]. split; [by apply within_held|]. intros HP. by eapply known_cleared. }
  destruct Hr as (Hid & Hr & _). destruct (wp_run _ _ _ (drives_ops works id ops _ _ h1 eq_refl Hr)) as ([] & h2 & Hd & Hr2 & Hsame).
  assert (Hlets := Close_lets works id env baseDir subnetDir openErr close_text state_text Ho sb Hid).
  destruct (wp_run _ _ _ (close_ready works id _ _ _ Hlets h2 Hr2)) as (errs & h3 & Hc & Hk & Hw).
  exists h2, errs, h3. split_and!; [done|done|by apply within_held| |].
  - eapply closed_clean; [by apply (Close_honest id)|done..].
  - intros HP. by eapply known_cleared.
Qed.

(** C6: a sandbox that needs the proxy has its firewall tables from before the guest is first
    started and through any starts and stops. *)
Theorem sandbox_filtered opts config ops h sb h1 :
  needsProxy config = true → (∀ r, owed h r = false) → NewSandbox opts config h = Some (Ok sb, h1) →
  owed h1 RRunning = false ∧ ∃ h2, drive env ops h1 = Some (tt, h2) ∧ owed h2 RFirewall = true.
Proof.
  intros Hp Hh Hrun. assert (Hn : cfg_Network config ≠ None).
  { unfold needsProxy in Hp. destruct (cfg_Network config); [done|by rewrite andb_false_r in Hp]. }
  destruct (wp_run _ _ _ (New_wp False (sandbox_id config) ltac:(done) opts config h eq_refl Hn Hh ltac:(by split))) as (r & h1' & Hrun' & Hr).
  rewrite Hrun in Hrun'. injection Hrun' as <- <-. destruct Hr as (_ & Hr & Hrunning & Hfw). split; [done|].
  destruct (wp_run _ _ _ (drives_ops False (sandbox_id config) ops _ _ h1 eq_refl Hr)) as ([] & h2 & Hd & _ & Hsame).
  exists h2. split; [done|]. unfold owed, owes. rewrite Hsame by done. by apply Hfw.
Qed.

(** Close closes the channel of the events under its senders: an event sent after it, by a
    connection of the proxy that is not done, panics. *)
Lemma close_panics_senders sb h errs h' ev :
  owed h REvents = true → CloseSandbox sb h = Some (errs, h') → send_event ev (h_os h') = None.
Proof.
  intros He Hrun. assert (Hk : known False (sb_id sb) false false (h_db h)) by done.
  pose proof (Close_lets False (sb_id sb) env baseDir subnetDir openErr close_text state_text ltac:(done) sb eq_refl h false false (λ _, He) Hk) as Hw.
  unfold wp in Hw. rewrite Hrun in Hw. destruct Hw as [_ Hg]. specialize (Hg REvents). unfold send_event.
  rewrite events_owed. unfold owed, trace in Hg. by rewrite Hg.
Qed.
End sandbox.
