(* ===== verification/SandboxExamples.v ===== *)
(** * A sandbox on a host *)

From S2P Require Import Prelude GoStrings GoStd GoPath VfsBase VfsMemory VfsRealFS VfsRouter VfsHooks VfsIntercept Api ApiConfig PolicyRules PolicyEngine Db Lifecycle LifecycleSpec State Subnets SandboxVfs Boot Firewall SandboxHost SandboxLife SandboxRun SandboxSpec SandboxNew SandboxLifeSpec.

(** A host where every call succeeds but those that [fails] names. *)
Definition host_that (fails : call → bool) (t : list event) (c : call) : answer c :=
  let e := {| oe_text := "input/output error"; oe_not_exist := false; oe_perm := false |} in
  let f := fails c in
  match c return answer c with
  | OsReadFile _ | OsPsStat _ | CreateTemp _ | LookPath _ | NewCAPool | ResolveKernelPath | ResolveKernelRef _ =>
      if f then Err e else Ok "/tmp/x"
  | CreateMachine _ => if f then Err e else Ok "fc-12345678"
  | ListenProxy _ => if f then Err e else Ok (8080, 8443, 8081)
  | ListenDNS _ _ => if f then Err e else Ok 5353
  | HasNetworkFile => negb f
  | StartProxy | StartHooks | CloseHooks | CloseDNS | StopVFS | MakeEvents | CloseEvents | MachineExec _ | Warn _ => tt
  | _ => if f then Some e else None
  end.

Definition fine (c : call) : bool := false.
Definition vfs_fails (c : call) : bool := match c with ServeVFS _ => true | _ => false end.

Definition demo_secret : Secret := {| secret_Value := "s3cr3t"; secret_Placeholder := "PLACEHOLDER"; secret_Hosts := ["api.example.com"]; secret_ValueFile := "" |}.

Definition demo_network : NetworkConfig := {|
  nc_AllowedHosts := ["example.com"]; nc_AddHosts := []; nc_BlockPrivateIPs := true; nc_NoNetwork := false; nc_Intercept := false;
  nc_Interception := None; nc_Secrets := [("KEY", demo_secret)]; nc_PathAllow := []; nc_PolicyScript := ""; nc_DNSServers := [];
  nc_Hostname := ""; nc_MTU := 0 |}.

Definition overlay_mount : MountConfig := {|
  mc_Type := MountTypeOverlay; mc_HostPath := "/home/u/src"; mc_Readonly := false; mc_Upper := None; mc_Lower := None; mc_OwnerUID := None; mc_OwnerGID := None |}.

(** Secrets, a mount with a snapshot and hooks, and swap. *)
Definition demo_config (network : option NetworkConfig) : Config := {|
  cfg_ID := ""; cfg_Image := "alpine"; cfg_Privileged := false; cfg_Kernel := None; cfg_LaunchEntrypoint := false;
  cfg_Resources := Some {| ApiConfig.rs_CPUs := DefaultCPUs; rs_MemoryMB := 512; rs_DiskSizeMB := 0; rs_SwapSizeMB := 64; rs_EncryptSwap := false;
    rs_ZramPct := 0; rs_TimeoutSeconds := 0; rs_Timeout := 0 |};
  cfg_Network := network;
  cfg_VFS := Some {| vfs_Workspace := "/workspace"; vfs_DirectMounts := []; vfs_Mounts := [("/workspace", overlay_mount)];
    vfs_Interception := Some {| vi_EmitEvents := true; vi_Rules := [] |} |};
  cfg_Env := None; cfg_ExtraDisks := []; cfg_VirtioFS := []; cfg_VirtioFSMask := []; cfg_ImageCfg := None |}.

Definition demo_options : Options := {| op_KernelPath := "/k"; op_RootfsPaths := ["/img/base.erofs"]; op_RootfsFSTypes := [] |}.

Definition demo_start : host world := {|
  h_db := empty_storage 7 [];
  h_os := {| w_trace := []; w_mem := empty_store; w_engine := newEngineState; w_now := 7; w_store := NewStore None "" |} |}.

Definition demo_json (c : Config) : option vm_config := Some {| cf_json := "{}"; cf_Image := cfg_Image c |}.

Notation demo_New fails network := (@New linux_abi (other_os world) (host_that fails) 4242 8 0 0 "/opt/guest-init" "/vms" "/subnets" None
  "12345678" (λ _, "") (λ _, "") (λ _, "") demo_json "ghcr.io/kernel" (λ _ _ _, mret (Err (ErrIO ""))) (λ n, n) demo_options (demo_config network)).
Notation demo_Close fails := (Close (host_that fails) "/vms" "/subnets" None (λ _, "") (λ _, "")).

Definition new_ok (r : option (result new_error Sandbox * host world)) : bool := match r with Some (Ok _, _) => true | _ => false end.

Lemma demo_New_ok : new_ok (demo_New fine (Some demo_network) demo_start) = true.
Proof. by vm_compute. Qed.

Lemma demo_cleared : cleared "vm-12345678" (h_db demo_start).
Proof. split; intros r Hr; by apply elem_of_nil in Hr. Qed.

(** A sandbox with every part, made, started, stopped and closed. *)
Lemma sandbox_releases_witness :
  match demo_New fine (Some demo_network) demo_start with
  | Some (Ok sb, h1) => ∃ h2 errs h3, drive (host_that fine) [OpStart; OpStop] h1 = Some (tt, h2) ∧ demo_Close fine sb h2 = Some (errs, h3) ∧
      (∀ r, held h3 r = true → r = RImage "/vms/vm-12345678/swap.img" ∨ refused h3 r = true) ∧ cleared "vm-12345678" (h_db h3)
  | _ => False
  end.
Proof.
  destruct (@sandbox_releases linux_abi (other_os world) (host_that fine) 4242 8 0 0 "/opt/guest-init" "/vms" "/subnets" None "12345678"
    (λ _, "") (λ _, "") (λ _, "") demo_json "ghcr.io/kernel" (λ _ _ _, mret (Err (ErrIO ""))) (λ n, n) demo_options
    (demo_config (Some demo_network)) [OpStart; OpStop] demo_start) as (r & h1 & Hrun & Hr); [done|done|].
  pose proof demo_New_ok as Hok. rewrite Hrun in Hok |- *. destruct r as [sb|e]; [|discriminate Hok].
  destruct Hr as (h2 & errs & h3 & Hd & Hc & Hw & _ & Hcl). exists h2, errs, h3. split; [exact Hd|]. split; [exact Hc|].
  split; [exact Hw|]. apply Hcl. split; [done|]. split; [done|]. exact demo_cleared.
Defined.

Lemma sandbox_filtered_witness :
  match demo_New fine (Some demo_network) demo_start with
  | Some (Ok _, h1) => owed h1 RRunning = false ∧ ∃ h2, drive (host_that fine) [OpStart] h1 = Some (tt, h2) ∧ owed h2 RFirewall = true
  | _ => False
  end.
Proof.
  pose proof demo_New_ok as Hok. 
  match type of Hok with new_ok ?x = _ => destruct x as [[[sb|e] h1]|] eqn:Hrun end; [|discriminate Hok..].
  exact (@sandbox_filtered linux_abi (other_os world) (host_that fine) 4242 8 0 0 "/opt/guest-init" "/vms" "/subnets" None "12345678"
    (λ _, "") (λ _, "") (λ _, "") demo_json "ghcr.io/kernel" (λ _ _ _, mret (Err (ErrIO ""))) (λ n, n) demo_options
    (demo_config (Some demo_network)) [OpStart] demo_start sb h1 eq_refl (λ r, eq_refl) Hrun).
Defined.

(** ** What shows on the way *)

(** A configuration with no network part, which the tests before allow for, panics with the disks
    made. *)
Lemma no_network_config_panics : demo_New fine None demo_start = None.
Proof. by vm_compute. Qed.

(** When the VFS server does not start, the engine of the hooks is left running, and the snapshots
    and the swap image stay in the directory. *)
Lemma new_leaves_hooks :
  match demo_New vfs_fails (Some demo_network) demo_start with
  | Some (Err (ErrVFSServer _), h) =>
      held h RHooks && held h (RSnapshot "/vms/vm-12345678/overlay/mount-000") && held h (RImage "/vms/vm-12345678/swap.img")
  | _ => false
  end = true.
Proof. by vm_compute. Qed.

Fixpoint prefixes {A} (l : list A) : list (list A) := match l with [] => [[]] | x :: l' => [] :: (cons x <$> prefixes l') end.

(** Close removes the firewall while the guest runs and its traffic is still masqueraded. *)
Lemma close_unfilters_guest :
  match demo_New fine (Some demo_network) demo_start with
  | Some (Ok sb, h1) =>
      match drive (host_that fine) [OpStart] h1 with
      | Some (_, h2) =>
          match demo_Close fine sb h2 with
          | Some (errs, h3) => existsb (λ t, holds t RRunning && holds t RNat && negb (holds t RFirewall)
                                 && existsb (λ e, match ev_call e with MachineStart => true | _ => false end) t) (prefixes (trace h3))
          | None => false
          end
      | None => false
      end
  | _ => false
  end = true.
Proof. by vm_compute. Qed.
