(* ===== verification/SandboxDarwin.v ===== *)
(** * The life of a sandbox on darwin: pkg/sandbox/sandbox_darwin.go

    The same parts in another order: the configuration is judged before anything is taken, the lease
    comes before the disks and the snapshots before the machine, and one user-space network stack stands
    for proxy, DNS forwarder, firewall and NAT. *)

From Stdlib Require Import Floats.SpecFloat.
From S2P Require Import Prelude GoStrings GoStd GoPath VfsBase VfsMemory VfsRealFS VfsRouter VfsHooks VfsIntercept Api ApiConfig SandboxVfs PolicyRules PolicyEngine Db Lifecycle State Subnets Boot Firewall SandboxHost SandboxLife.

Record Sandbox := {
  ds_id : string; ds_config : Config; ds_netStack : bool; ds_policy : Engine world; ds_vfsRoot : option (Iface world);
  ds_vfsHooks : bool; ds_vfsServer : bool; ds_caPool : option string; ds_subnetInfo : option SubnetInfo; ds_subnetAlloc : bool;
  ds_workspace : string; ds_rootfsPath : string; ds_bootstrapPath : string; ds_overlaySnapshots : list string }.

Section darwin.
Context `{HostABI} (vos : OsFS world) (env : list event → ∀ c, answer c).
Context (pid numCPU euid egid : Z) (guestInit baseDir subnetDir : string) (openErr : option db_error).
Context (uuid8 : string) (new_text : new_error → string) (close_text : list close_error → string)
  (state_text : state_error → string) (to_json : Config → option vm_config) (defaultKernelRef : string).
Context (exchange : string → Z → NetworkHookCallbackRequest → M world (result policy_error NetworkHookCallbackResponse))
  (random : string → string).

Notation host_call := (host_call env).
Notation do := (do env).
Notation run := (M (host world)).
Notation vm_dir := (vm_dir baseDir openErr).
Notation unregister := (unregister baseDir openErr).
Notation releaseSubnet := (releaseSubnet subnetDir openErr).

Definition bootstrap_path (id : string) : string := PathJoin [vm_dir id; "bootstrap.ext4"].
Definition upper_path (id : string) : string := PathJoin [vm_dir id; "upper.ext4"].
Definition cleanupRootDisks (id : string) : run unit := _ ← do (OsRemove (bootstrap_path id)); do (OsRemove (upper_path id)).

(** What every failure before the machine undoes. *)
Definition undo_lease (alloc : bool) (id : string) : run unit := seq (releaseSubnet alloc id) (unregister id).

Definition record_rootfs (id : string) (r : Db.Resources) : Db.Resources := {|
  Db.rs_StateDir := Db.rs_StateDir r; Db.rs_Workspace := Db.rs_Workspace r; Db.rs_KernelRef := Db.rs_KernelRef r;
  Db.rs_KernelPath := Db.rs_KernelPath r; Db.rs_RootfsPath := upper_path id; Db.rs_SubnetFile := Db.rs_SubnetFile r;
  Db.rs_GatewayIP := Db.rs_GatewayIP r; Db.rs_GuestIP := Db.rs_GuestIP r; Db.rs_SubnetCIDR := Db.rs_SubnetCIDR r;
  Db.rs_VsockPath := Db.rs_VsockPath r; Db.rs_TAPName := Db.rs_TAPName r; Db.rs_FirewallTable := Db.rs_FirewallTable r;
  Db.rs_NATTable := Db.rs_NATTable r |}.
Definition record_vsock (id : string) (r : Db.Resources) : Db.Resources := {|
  Db.rs_StateDir := Db.rs_StateDir r; Db.rs_Workspace := Db.rs_Workspace r; Db.rs_KernelRef := Db.rs_KernelRef r;
  Db.rs_KernelPath := Db.rs_KernelPath r; Db.rs_RootfsPath := Db.rs_RootfsPath r; Db.rs_SubnetFile := Db.rs_SubnetFile r;
  Db.rs_GatewayIP := Db.rs_GatewayIP r; Db.rs_GuestIP := Db.rs_GuestIP r; Db.rs_SubnetCIDR := Db.rs_SubnetCIDR r;
  Db.rs_VsockPath := vm_dir id +:+ "/vsock.sock"; Db.rs_TAPName := Db.rs_TAPName r; Db.rs_FirewallTable := Db.rs_FirewallTable r;
  Db.rs_NATTable := Db.rs_NATTable r |}.

(** *** The disks *)

Definition New_disks (id : string) (config : Config) : run (result new_error (option string)) :=
  let undo := undo_lease (negb (noNetwork config)) id in
  or_fail_with (if needsProxy config then r ← host_call NewCAPool; mret (match r with Ok c => Ok (Some c) | Err e => Err e end) else mret (Ok None))
    undo ErrCreateCAPool (λ ca,
  or_fail (createBootstrapRootfs env guestInit (bootstrap_path id)) undo ErrPrepareBootstrapRoot (
  or_fail (createExt4Image env (upper_path id) (int64 (disk_size config))) undo ErrCreateRootfs (
  or_fail (prepareOverlayUpperRootfs env guestInit (upper_path id)) undo ErrPrepareRootfs (
  _ ← SetResource (record_rootfs id);
  or_fail (match ca with
           | Some cert => injectConfigFileIntoRootfs env (upper_path id) "/upper/etc/ssl/certs/matchlock-ca.crt" cert
           | None => mret None
           end) undo ErrInjectCACert (mret (Ok ca)))))).

(** *** The machine *)

Definition virtiofs_shares (l : list VirtioFSMount) : list VirtioFSShare :=
  imap (λ i m, {| vs_Tag := "mlfs" +:+ Itoa (Z.of_nat i); Boot.vs_HostPath := vio_HostPath m; Boot.vs_GuestMount := vio_GuestMount m;
                  Boot.vs_ReadOnly := vio_ReadOnly m |}) l.

(** [None] when the configuration has no network part: its hosts are read without a test. *)
Definition vm_config_of (id hostname workspace kernelPath : string) (fsTypes : list string) (extraDisks : list DiskConfig)
    (subnet : option SubnetInfo) (opts : Options) (config : Config) : option VMConfig :=
  n ← cfg_Network config;
  r ← cfg_Resources config;
  Some {|
    vc_ID := id; vc_KernelPath := kernelPath; vc_RootfsPath := bootstrap_path id; vc_OverlayEnabled := true;
    vc_OverlayLowerPaths := op_RootfsPaths opts; vc_OverlayLowerFSTypes := fsTypes; vc_OverlayUpperPath := upper_path id;
    vc_CPUs := ApiConfig.rs_CPUs r; vc_MemoryMB := rs_MemoryMB r; vc_VsockCID := 0; vc_VsockPath := "";
    vc_SocketPath := Manager_SocketPath (stateMgr baseDir openErr) id +:+ ".sock"; vc_LogPath := Manager_LogPath (stateMgr baseDir openErr) id;
    vc_KernelArgs := "";
    vc_GatewayIP := match subnet with Some i => si_GatewayIP i | None => "" end;
    vc_GuestIP := match subnet with Some i => si_GuestIP i | None => "" end;
    vc_SubnetCIDR := match subnet with Some i => si_GatewayIP i +:+ "/24" | None => "" end;
    vc_Workspace := workspace; vc_UseInterception := needsProxy config; vc_Privileged := cfg_Privileged config;
    vc_DNSServers := GetDNSServers (Some n); vc_Hostname := hostname; vc_AddHosts := nc_AddHosts n; vc_MTU := GetMTU (Some n);
    vc_NoNetwork := noNetwork config; vc_ExtraDisks := extraDisks;
    vc_SwapPath := if 0 <? swap_size config then swap_path baseDir openErr id else ""; vc_EncryptSwap := rs_EncryptSwap r;
    vc_ZramPct := zramPct config; vc_VirtioFSShares := virtiofs_shares (cfg_VirtioFS config); vc_VirtioFSMaskPaths := cfg_VirtioFSMask config |}.

(** The configuration and the snapshots. *)
Definition New_machine (id hostname workspace kernelPath : string) (subnet : option SubnetInfo) (opts : Options) (config : Config)
    : run (result new_error (Config * list string)) :=
  let undo := undo_lease (negb (noNetwork config)) id in
  or_fail_with (mret (extra_disks (cfg_ExtraDisks config))) undo ErrInvalidDiskCfg (λ extraDisks,
  or_fail (mret (validateOverlayDiskLayout (Z.of_nat (length (op_RootfsPaths opts))) (Z.of_nat (length extraDisks)))) undo ErrDiskLayout (
  or_fail (if 0 <? swap_size config then createSwapImage env (swap_path baseDir openErr id) (swap_size config) else mret None) undo ErrSwap (
  vmConfig ← liftp (vm_config_of id hostname workspace kernelPath (normalizeOverlayLowerFSTypes (op_RootfsPaths opts) (op_RootfsFSTypes opts))
                      extraDisks subnet opts config);
  _ ← SetResource (record_vsock id);
  or_fail_with (prepareOverlaySnapshots env (cfg_VFS config) (vm_dir id)) undo ErrSnapshots (λ '(snapshots, vfs),
  or_fail_with (host_call (CreateMachine vmConfig)) undo ErrCreateVM (λ _,
  mret (Ok (with_Network (allow_secret_hosts <$> cfg_Network config) (with_VFS vfs config), snapshots))))))).

(** *** The network *)

Definition New_network (id : string) (needed : bool) (subnet : option SubnetInfo) (config : Config) : run (result new_error bool) :=
  let undo := seq (closeMachine env) (undo_lease (negb (noNetwork config)) id) in
  if needed then
    file ← host_call HasNetworkFile;
    if (file : bool) then
      or_fail (host_call (ListenStack (match subnet with Some i => si_GatewayIP i | None => "" end)
                                      (match subnet with Some i => si_GuestIP i | None => "" end)
                                      (uint32 (GetMTU (cfg_Network config))) (GetDNSServers (cfg_Network config))))
        undo ErrNetworkStack (mret (Ok true))
    else failing undo ErrNetworkFile
  else mret (Ok false).

Definition cleanupVM (id : string) (alloc netStack : bool) : run unit :=
  _ ← when netStack (do CloseStack);
  _ ← closeMachine env;
  undo_lease alloc id.

(** *** Close *)

Definition Close (sb : Sandbox) : run (list close_error) :=
  errs ← Close_begin env (ds_vfsServer sb) (ds_vfsHooks sb);
  errs ← cleanup_step "netstack_close" (if ds_netStack sb then Some (host_call CloseStack : run (option os_error)) else None) CloseNetStack oe_text errs;
  errs ← Close_machine env baseDir subnetDir openErr state_text (ds_id sb) (ds_subnetAlloc sb) (ds_overlaySnapshots sb) (ds_rootfsPath sb)
           (ds_bootstrapPath sb) errs;
  Close_end close_text errs.

Definition Start : run (option phase_error) := transit PhaseStarting (host_call MachineStart) PhaseStartFailed PhaseRunning.
Definition Stop : run (option phase_error) := transit PhaseStopping (host_call MachineStop) PhaseStopFailed PhaseStopped.

(** Why a reset of the network fails. *)
Inductive reset_error := ErrNetworkResetUnavailable | ErrNetworkReset (e : os_error).

Definition ResetNetwork (sb : Sandbox) : run (option reset_error) :=
  if ds_netStack sb then e ← host_call ResetStack; mret (ErrNetworkReset <$> e) else mret (Some ErrNetworkResetUnavailable).

(** *** New *)

Definition New_parts (id hostname workspace kernelPath : string) (subnet : option SubnetInfo) (opts : Options) (config : Config)
    : run (result new_error Sandbox) :=
  let alloc := negb (noNetwork config) in
  bind_ok (New_disks id config) (λ ca,
  bind_ok (New_machine id hostname workspace kernelPath subnet opts config) (λ '(config', snapshots),
  let engine := NewEngine exchange random (match cfg_Network config' with Some n => n | None => zero_network end) in
  let config' := with_Network ((λ _, eng_config engine) <$> cfg_Network config') config' in
  _ ← do MakeEvents;
  bind_ok (New_network id (needsProxy config) subnet config') (λ netStack,
  bind_ok (New_vfs vos env euid egid MachineListener (if HasVFSMounts (Some config') then cfg_VFS config' else None) (cleanupVM id alloc netStack)) (λ '(root, hooks),
  let sb := {|
    ds_id := id; ds_config := config'; ds_netStack := netStack; ds_policy := engine; ds_vfsRoot := root; ds_vfsHooks := hooks;
    ds_vfsServer := present root; ds_caPool := ca; ds_subnetInfo := subnet; ds_subnetAlloc := alloc; ds_workspace := workspace;
    ds_rootfsPath := upper_path id; ds_bootstrapPath := bootstrap_path id; ds_overlaySnapshots := snapshots |} in
  New_finish (Close sb) sb)))).

(** From the lease on: the disks are removed by a failure after the kernel is found. *)
Definition New_leased (id hostname workspace : string) (opts : Options) (config : Config) : run (result new_error Sandbox) :=
  or_fail_with (allocateSubnet subnetDir openErr config id) (unregister id) ErrAllocateSubnet (λ subnet,
  or_fail_with (resolveKernelForConfig env defaultKernelRef config opts) (undo_lease (negb (noNetwork config)) id) ErrKernel (λ kernelPath,
  r ← New_parts id hostname workspace kernelPath subnet opts config;
  defer_disks (cleanupRootDisks id) r)).

Definition New (opts : Options) (config : Config) : run (result new_error Sandbox) :=
  if decide (op_RootfsPaths opts = []) then mret (Err ErrRootfsRequired)
  else match Config_ValidateVFS (Some config) with
  | Some e => mret (Err (ErrInvalidVFS e))
  | None =>
      let (id, config) := GetID uuid8 config in
      let hostname := (GetHostname uuid8 config).1 in
      let workspace := VFSConfig_GetWorkspace (cfg_VFS config) in
      match NetworkConfig_Validate (cfg_Network config) with
      | Some e => mret (Err (ErrInvalidNetwork e))
      | None =>
      let config := fill_resources config in
      match vcpus_error numCPU config with
      | Some e => mret (Err e)
      | None =>
      or_fail (Manager_Register (linux_ops env pid) (stateMgr baseDir openErr) id (to_json config)) (mret tt) ErrRegisterState (
      _ ← new_store baseDir openErr id;
      or_fail (life (λ st, Store_Init st id "virtualization.framework" (vm_dir id))) (unregister id) ErrLifecycleInit (
      _ ← SetResource (record_workspace (vm_dir id) workspace);
      r ← New_leased id hostname workspace opts config;
      defer_record new_text r))
      end
      end
  end.
End darwin.
