(* ===== verification/SandboxDarwinSpec.v ===== *)
(** * What a sandbox gives back on darwin

    The stages of [New] and [Close] of pkg/sandbox/sandbox_darwin.go, by the rules of the stages that
    linux has ([SandboxNew], [SandboxLifeSpec]). *)

From S2P Require Import Prelude GoStrings GoStd GoPath VfsBase VfsMemory VfsRealFS VfsRouter VfsHooks VfsIntercept Api ApiConfig PolicyRules PolicyEngine Db Lifecycle State Subnets SandboxVfs Boot Firewall SandboxHost SandboxLife SandboxRun SandboxSpec SandboxNew SandboxLifeSpec SandboxDarwin.

Definition ds_owned (sb : Sandbox) : resource → bool := λ r,
  match r with
  | RMachine | RRunning | REvents => true
  | RStack => ds_netStack sb
  | RHooks => ds_vfsHooks sb
  | RVfs => ds_vfsServer sb
  | RImage p => bool_decide (p = ds_rootfsPath sb ∨ p = ds_bootstrapPath sb)
  | RSnapshot p => bool_decide (p ∈ ds_overlaySnapshots sb)
  | _ => false
  end.

(** What the user of a sandbox does with it before closing it. *)
Inductive darwin_op := DStart | DStop | DReset.

Section driving.
Context (env : list event → ∀ c, answer c).

Fixpoint drive_darwin (sb : Sandbox) (ops : list darwin_op) : M (host world) unit :=
  match ops with
  | [] => mret tt
  | DStart :: ops' => _ ← Start env; drive_darwin sb ops'
  | DStop :: ops' => _ ← Stop env; drive_darwin sb ops'
  | DReset :: ops' => _ ← ResetNetwork env sb; drive_darwin sb ops'
  end.
End driving.

Section darwin.
Context `{HostABI} (vos : OsFS world) (env : list event → ∀ c, answer c).
Context (pid numCPU euid egid : Z) (guestInit baseDir subnetDir : string) (openErr : option db_error).
Context (uuid8 : string) (new_text : new_error → string) (close_text : list close_error → string)
  (state_text : state_error → string) (to_json : Config → option vm_config) (defaultKernelRef : string).
Context (exchange : string → Z → NetworkHookCallbackRequest → M world (result policy_error NetworkHookCallbackResponse))
  (random : string → string).

Notation NewSandbox := (New vos env pid numCPU euid egid guestInit baseDir subnetDir openErr uuid8 new_text close_text state_text to_json
  defaultKernelRef exchange random).
Notation CloseSandbox := (Close env baseDir subnetDir openErr close_text state_text).

Section stages.
Context (P : Prop) (id : string).
Hypothesis opens : P → openErr = None.
Notation lets := (lets P id).
Notation boot := (bootstrap_path baseDir openErr id).
Notation upper := (upper_path baseDir openErr id).
Notation disk := (root_disks boot upper).
Notation remains := (remaining baseDir openErr id).
Notation before := (before P id).
Notation open_with := (open_with P id).
Notation ends := (ends baseDir openErr P id boot upper).
Notation ends_clean := (ends_clean baseDir openErr P id).
Notation ready := (ready baseDir openErr P id).

Lemma stack_step b errs :
  lets false (part b RStack) false false
    (cleanup_step "netstack_close" (if b then Some (host_call env CloseStack : M (host world) (option os_error)) else None) CloseNetStack oe_text errs).
Proof.
  eapply lets_weaken; [eapply lets_step with (b := b) (R := just RStack) (u := false) (i := false)|..]; try done; try apply andb_false_r.
  destruct b; [|done]. split; [done|]. by apply lets_sys.
Qed.

Lemma darwin_Close_lets sb :
  ds_id sb = id → lets true (ds_owned sb) (ds_subnetAlloc sb) true (CloseSandbox sb).
Proof.
  intros Hid. unfold Close. rewrite Hid. eapply lets_weaken; [|..].
  { eapply lets_seq; [apply Close_begin_lets| |done]. intros e1.
    eapply lets_seq; [apply stack_step| |by apply part_events]. intros e2. by apply Close_rest_lets. }
  - intros r. unfold ds_owned, begin_given, machine_given, union, part, just, nothing. destruct r; cbn;
      rewrite ?andb_false_r, ?orb_false_r, ?andb_true_r; done.
  - done.
  - done.
  - done.
Qed.

Lemma darwin_Close_honest sb :
  ds_id sb = id → honest True (λ errs : list close_error, errs = []) running (CloseSandbox sb).
Proof.
  intros Hid. unfold Close. rewrite Hid. eapply honest_as.
  { eapply honest_bind; [apply Close_begin_honest|]. intros e1.
    eapply honest_then; [apply honest_step; destruct (ds_netStack sb); [|done]; intros ? [= <-];
      apply (honest_call env CloseStack (λ e, e = None) nothing); [by intros x ->|done]|].
    intros e2. apply Close_rest_honest. }
  done.
Qed.

(** *** The disks *)

Lemma darwin_disks_wp config h :
  before (λ _, False) (noNetwork config) false h →
  wp (New_disks env guestInit baseDir subnetDir openErr id config) (ends (λ _ h', before disk (noNetwork config) false h')) h.
Proof.
  intros Hb. assert (Hd : before disk (noNetwork config) false h) by (eapply before_mono, Hb; done). clear Hb. unfold New_disks, undo_lease.
  assert (Hboot : ∀ r, disk r ∨ r = RImage boot → disk r) by (intros r [?| ->]; [done|by left]).
  assert (Hupper : ∀ r, disk r ∨ r = RImage upper → disk r) by (intros r [?| ->]; [done|by right]).
  assert (Hnone : ∀ r, disk r ∨ False → disk r) by (by intros r [?|[]]).
  assert (Hall : noNetwork config || negb (noNetwork config) = true) by apply orb_negb_r.
  eapply or_fail_with_wp with (T := λ _ _, False); [exact Hd| |by apply release_undo|done|done|by intros e r [?|[]] _; left|].
  { destruct (needsProxy config); [|apply takes_ret]. intros h0 S HS. apply wp_bind, (wp_sys _ NewCAPool). intros x. apply wp_ret.
    split; [done|]. eapply within_mono, within_log, HS. by intros r [?|?]; [left|]. }
  intros ca h1 Hb1.
  eapply or_fail_wp; [eapply before_mono, Hb1; exact Hnone|apply takes_createBootstrapRootfs|by apply release_undo|done|done|by intros e r [?|[]] _; left|].
  intros h2 Hb2. eapply or_fail_wp; [eapply before_mono, Hb2; exact Hboot|apply takes_createExt4Image|by apply release_undo|done|done|by intros e r [?|[]] _; left|].
  intros h3 Hb3. eapply or_fail_wp; [eapply before_mono, Hb3; exact Hupper|apply takes_prepareOverlayUpperRootfs|by apply release_undo|done|done|by intros e r [?|[]] _; left|].
  intros h4 Hb4. eapply resource_wp; [eapply before_mono, Hb4; exact Hnone|]. intros h5 Hb5.
  eapply or_fail_wp with (T := λ _ _, False); [exact Hb5| |by apply release_undo|done|done|by intros e r [?|[]] _; left|].
  { destruct ca; [apply takes_injectConfigFile|apply takes_ret]. }
  intros h6 Hb6. apply wp_ret. eapply before_mono, Hb6. exact Hnone.
Qed.

(** *** The machine *)

Lemma darwin_machine_wp hostname workspace kernelPath subnet opts config h :
  cfg_Network config ≠ None → cfg_Resources config ≠ None →
  before disk (noNetwork config) false h →
  wp (New_machine env baseDir subnetDir openErr id hostname workspace kernelPath subnet opts config)
     (ends (λ '(config', snapshots) h', (∃ vfs, config' = machine_config vfs config) ∧
        before (with_machine baseDir openErr id boot upper snapshots) (noNetwork config) false h')) h.
Proof.
  intros Hn Hr Hb. unfold New_machine, undo_lease.
  assert (Hall : noNetwork config || negb (noNetwork config) = true) by apply orb_negb_r.
  assert (Hor : ∀ S : resource → Prop, ∀ r, S r ∨ False → S r) by (by intros S r [?|[]]).
  eapply or_fail_with_wp; [exact Hb|apply takes_ret|by apply release_undo|done|done|by intros e r [?|[]] _; left|]. intros disks h1 Hb1.
  eapply or_fail_wp; [eapply before_mono, Hb1; apply Hor|apply takes_ret|by apply release_undo|done|done|by intros e r [?|[]] _; left|]. intros h2 Hb2.
  eapply or_fail_wp with (T := image_if (swap_path baseDir openErr id));
    [eapply before_mono, Hb2; apply Hor| |by apply release_undo|done|done|by intros e r [?|[]] _; left|].
  { destruct (0 <? swap_size config); [apply takes_createSwapImage|]. eapply takes_mono, takes_ret. done. }
  intros h3 Hb3. change (before (swap_or baseDir openErr id disk) (noNetwork config) false h3) in Hb3.
  assert (Hswap : ∀ r, swap_or baseDir openErr id disk r → disk r ∨ remains r) by (intros r [?| ->]; [by left|by right]).
  apply wp_bind. unfold wp at 1, liftp, vm_config_of.
  destruct (cfg_Network config) as [n|] eqn:En; [|done]. destruct (cfg_Resources config) as [res|]; [|done]. cbn [fmap option_fmap option_map mbind option_bind].
  match goal with |- context [CreateMachine ?c] => set (vmConfig := c) end.
  eapply resource_wp; [exact Hb3|]. intros h4 Hb4.
  eapply or_fail_with_wp; [exact Hb4|apply takes_snapshots|by apply release_undo|done|done| |].
  { intros e r [?|[]] _. auto. }
  intros [snapshots vfs] h5 Hb5.
  eapply or_fail_with_wp; [exact Hb5|apply (takes_sys env (CreateMachine vmConfig) (λ x r, is_Ok x = true ∧ r = RMachine))|by apply release_undo|done|done| |].
  { intros x r. cbn. unfold only. case_bool_decide; [|done]. by destruct x. }
  { intros e r [[?|(p & _ & ->)]|[? _]] _; [auto|by right|done]. }
  intros tap h6 Hb6. apply wp_ret. split.
  - exists vfs. unfold machine_config. by rewrite En.
  - eapply before_mono, Hb6. unfold with_machine, swap_or. cbn. tauto.
Qed.

(** *** The network *)

Lemma darwin_network_wp needed subnet config S u h :
  open_with S u h → u || negb (noNetwork config) = true → (∀ r, S r → r = RMachine ∨ disk r ∨ remains r) →
  wp (New_network env baseDir subnetDir openErr id needed subnet config)
     (ends (λ b h', open_with (λ r, S r ∨ (b = true ∧ r = RStack)) u h' ∧ b = needed ∧ (b = true → owed h' RStack = true))) h.
Proof.
  intros Ho Hu HS. unfold New_network, undo_lease. set (undo := seq (closeMachine env) _).
  assert (Hundo : lets false (λ r, bool_decide (r = RMachine ∨ r = RRunning)) (negb (noNetwork config)) true undo) by by apply network_undo.
  destruct needed; [|apply wp_ret; split_and!; [|done..]; eapply open_mono, Ho; auto].
  assert (Hrem : ∀ r, S r → bool_decide (r = RMachine ∨ r = RRunning) = false → disk r ∨ remains r).
  { intros r Hr Hg. destruct (HS r Hr) as [->|?]; [done|done]. }
  eapply (call_wp env P id HasNetworkFile); [exact Ho|done|]. intros file h1 Ho1 _.
  apply (open_mono P id _ S) in Ho1; [|by intros r [?|?]].
  destruct (file : bool); [|destruct Ho1 as [Hb _]; by eapply failing_wp].
  eapply (call_wp env P id (ListenStack _ _ _ _)); [exact Ho1|done|]. intros [e|] h2 Ho2 H2.
  - eapply failing_wp; [exact (proj1 Ho2)|exact Hundo|done|by apply orb_true_r|]. intros r [?|[_ ?]%only_true]; [auto|done].
  - apply (open_one P id _ _ _ RStack true) in Ho2; [|change_one]. apply wp_ret. split_and!; [exact Ho2|done|]. intros _. by rewrite H2.
Qed.

Definition stack_and_machine (b : bool) : resource → bool := λ r, match r with RMachine | RRunning => true | RStack => b | _ => false end.

Lemma darwin_cleanup_lets alloc b : lets false (stack_and_machine b) alloc true (cleanupVM env baseDir subnetDir openErr id alloc b).
Proof.
  unfold cleanupVM, undo_lease. eapply lets_weaken; [|..].
  { eapply lets_seq; [apply (lets_when _ _ _ _ (just RStack)), lets_do; done| |apply andb_false_r]. intros _.
    eapply lets_seq; [apply machine_lets|intros _; by apply release_undo|done]. }
  - intros r. unfold union, stack_and_machine, just, nothing. destruct r; cbn; rewrite ?andb_false_r, ?orb_false_r, ?andb_true_r; done.
  - done.
  - done.
  - done.
Qed.

(** *** The whole of New *)

(** What [New] ends with when it succeeds. *)
Definition made_darwin (config : Config) (sb : Sandbox) (h : host world) : Prop :=
  ds_id sb = id ∧ ready (ds_owned sb) (ds_subnetAlloc sb) h ∧ owed h RRunning = false ∧
  ds_netStack sb = needsProxy config ∧ (needsProxy config = true → owed h RStack = true).

Lemma machine_engine vfs config :
  cfg_Network config ≠ None → let config2 := machine_config vfs config in
  let engine := NewEngine exchange random (match cfg_Network config2 with Some n => n | None => zero_network end) in
  noNetwork (with_Network ((λ _, eng_config engine) <$> cfg_Network config2) config2) = noNetwork config.
Proof.
  intros Hn. cbn zeta. rewrite <- (noNetwork_machine vfs config). set (config2 := machine_config vfs config).
  destruct (cfg_Network config2) as [n|] eqn:En; [|by revert En; unfold config2; cbn; destruct (cfg_Network config)].
  cbn [fmap option_fmap option_map]. exact (proj1 (engine_config exchange random (cfg_VFS config2) config2 n En)).
Qed.

Lemma darwin_parts_wp hostname workspace kernelPath subnet opts config h :
  cfg_Network config ≠ None → cfg_Resources config ≠ None → before (λ _, False) (noNetwork config) false h →
  wp (New_parts vos env euid egid guestInit baseDir subnetDir openErr close_text state_text exchange random
        id hostname workspace kernelPath subnet opts config) (ends (made_darwin config)) h.
Proof.
  intros Hn Hres Hb. unfold New_parts. eapply bind_ok_wp; [by apply darwin_disks_wp|]. intros ca h1 Hb1.
  eapply bind_ok_wp; [by apply darwin_machine_wp|]. intros [config2 snapshots] h2 [[vfs ->] Hb2].
  pose proof (machine_engine vfs config Hn) as Hno3. cbn zeta in Hno3. revert Hno3.
  set (engine := NewEngine _ _ _). set (config3 := with_Network _ _). intros Hno3. clearbody config3.
  apply wp_bind, (wp_do _ MakeEvents). intros x. set (h3 := Build_host _ _).
  set (S3 := λ r, with_machine baseDir openErr id boot upper snapshots r ∨ r = REvents).
  assert (Ho3 : open_with S3 (noNetwork config) h3).
  { destruct Hb2 as [Hw2 Hk2]. split; [split; [|exact Hk2]|].
    - eapply within_mono; [|by apply within_log]. cbn. intros r [?|[?%bool_decide_eq_true _]%only_true]; [by left|by right].
    - unfold h3. by rewrite owed_log. }
  clearbody h3. assert (Hu : noNetwork config || negb (noNetwork config) = true) by apply orb_negb_r.
  assert (Hmach : ∀ r, with_machine baseDir openErr id boot upper snapshots r → r = RMachine ∨ disk r ∨ remains r).
  { unfold with_machine. intros r [?|[->|[->|(p & _ & ->)]]]; [auto|right; by right|by left|right; by right]. }
  eapply bind_ok_wp; [eapply darwin_network_wp; [exact Ho3|by rewrite Hno3|]|].
  { intros r [Hr| ->]; [by apply Hmach|right; by right]. }
  intros st h4 (Ho4 & Hst & Hs4). eapply bind_ok_wp; [eapply vfs_wp; [exact Ho4|apply darwin_cleanup_lets|exact Hu|]|].
  { intros r [[Hr| ->]|[Hst' ->]] Hb'; [destruct (Hmach r Hr) as [->|?]; [done|done]|by right|cbn in Hb'; congruence]. }
  intros [root hooks] h5 [Ho5 Hs5]. match goal with |- wp (New_finish _ ?s) _ _ => set (sb := s) end.
  assert (Hready : ready (ds_owned sb) (ds_subnetAlloc sb) h5).
  { destruct Ho5 as [[Hw5 Hk5] He5]. split; [cbn [ds_subnetAlloc sb]; by rewrite negb_involutive|done|]. eapply within_mono, Hw5. cbn.
    intros r [[[Hr| ->]|[-> ->]]|[[-> ->]|[Hr ->]]]; [|by left..].
    destruct Hr as [[->| ->]|[->|[->|(p & Hp & ->)]]]; [left|left|by right|by left|left]; cbn; apply bool_decide_eq_true; auto. }
  assert (Hrun : owed h5 RRunning = false).
  { destruct (owed h5 RRunning) eqn:E; [|done]. destruct Ho5 as [[Hw5 _] _]. apply Hw5 in E.
    destruct E as [[[Hr|?]|[_ ?]]|[[_ ?]|[_ ?]]]; try done. destruct Hr as [[?|?]|[?|[?|(p & _ & ?)]]]; done. }
  eapply wp_mono; [|eapply finish_wp; [exact (darwin_Close_lets sb eq_refl)|exact Hready]].
  intros [sb'|e] h6 H6; [|exact H6]. destruct H6 as (-> & Hr6 & Hh6).
  split_and!; [done|done|by rewrite Hh6|done|]. intros Hp. rewrite Hh6, Hs5 by auto. apply Hs4. by rewrite Hst.
Qed.

(** From the lease on: the lease comes with the kernel before there is any disk to remove. *)
Lemma darwin_leased_wp hostname workspace opts config h :
  cfg_Network config ≠ None → cfg_Resources config ≠ None → before (λ _, False) true false h →
  wp (New_leased vos env euid egid guestInit baseDir subnetDir openErr close_text state_text defaultKernelRef exchange random
        id hostname workspace opts config) (ends_clean (made_darwin config)) h.
Proof.
  intros Hn Hres Hb. unfold New_leased, or_fail_with, undo_lease.
  assert (Hfail : ∀ e cleanup u i u0 h', before (λ _, False) u0 false h' → lets false nothing u i cleanup → u0 || u = true → i = true →
    wp (failing cleanup e) (ends_clean (made_darwin config)) h').
  { intros e cleanup u i u0 h' [Hw Hk] Hl Hu ->. apply wp_bind. eapply lets_wp; [exact Hl|done|exact Hk|]. intros _ h2 Hk2 Hg. apply wp_ret.
    rewrite Hu in Hk2. split; [exact Hk2|]. eapply within_mono; [|by eapply within_gives]. by intros r [[] _]. }
  apply wp_bind. eapply allocate_stage; [exact Hb|]. intros [subnet|e] h1 Hb1.
  2: { eapply Hfail; [exact Hb1|by apply unregister_lets|done..]. }
  apply wp_bind. eapply kernel_stage; [exact Hb1|]. intros [kernelPath|e] h2 Hb2.
  2: { eapply Hfail; [exact Hb2|by apply release_undo|apply orb_negb_r|done]. }
  apply wp_bind. eapply wp_mono; [|by apply darwin_parts_wp]. intros r h3 Hr. by apply defer_disks_wp with (boot := boot) (upper := upper).
Qed.

Lemma fill_network config : cfg_Network (fill_resources config) = cfg_Network config.
Proof. unfold fill_resources. by destruct (cfg_Resources config). Qed.

Lemma fill_filled config : cfg_Resources (fill_resources config) ≠ None.
Proof. unfold fill_resources. by destruct (cfg_Resources config) eqn:E; cbn; rewrite ?E. Qed.

Lemma darwin_New_wp opts config h :
  id = (GetID uuid8 config).1 → cfg_Network config ≠ None → (∀ r, owed h r = false) → known P id true true (h_db h) →
  wp (NewSandbox opts config) (ends_clean (made_darwin config)) h.
Proof.
  intros Hid Hn Hh Hk. assert (Hfn := fresh_network uuid8 config). unfold New.
  assert (Hw : ∀ R, within R h) by (intros R r; by rewrite Hh).
  destruct (decide _); [by apply wp_ret|]. destruct (Config_ValidateVFS _); [by apply wp_ret|].
  unfold fresh in Hfn. destruct (GetID uuid8 config) as [id' config'] eqn:E. cbn in Hid, Hfn. subst id'.
  destruct (NetworkConfig_Validate _); [by apply wp_ret|]. destruct (vcpus_error _ _); [by apply wp_ret|].
  apply registered_wp; [exact opens|exact Hh|exact Hk|]. intros h1 Hb1. apply wp_bind. eapply wp_mono; [|apply darwin_leased_wp; [|apply fill_filled|exact Hb1]].
  2: by rewrite fill_network, Hfn.
  intros r h2 Hr. eapply wp_mono; [|by apply defer_record_wp]. intros [sb|e] h3; [|done]. unfold made_darwin.
  rewrite needsProxy_fill. unfold needsProxy, noNetwork. by rewrite Hfn.
Qed.

Lemma drives_darwin sb ops : drives baseDir openErr P id (drive_darwin env sb ops).
Proof.
  assert (Hc : ∀ c, c = MachineStart ∨ c = MachineStop ∨ c = ResetStack → ∀ x r, r ≠ RRunning → settle (Ev c x) r = None).
  { intros c Hc x r Hne. destruct Hc as [->|[->| ->]]; cbn; unfold only; rewrite ?bool_decide_eq_false_2; done. }
  induction ops as [|[] ops IH]; cbn [drive_darwin]; [apply drives_ret| | |]; (apply drives_bind; [|intros; exact IH]).
  - apply drives_transit, drives_machine, Hc. by left.
  - apply drives_transit, drives_machine, Hc. by right; left.
  - unfold ResetNetwork. destruct (ds_netStack sb); [|apply drives_ret]. apply drives_bind; [|intros; apply drives_ret].
    apply drives_machine, Hc. by right; right.
Qed.
End stages.

(** ** What holds *)

End darwin.
