(* ===== verification/SandboxDarwinExamples.v ===== *)
(** * A sandbox on a darwin host *)

From S2P Require Import Prelude GoStrings GoStd GoPath VfsBase VfsMemory VfsRealFS VfsRouter VfsHooks VfsIntercept Api ApiConfig PolicyRules PolicyEngine Db Lifecycle LifecycleSpec State Subnets SandboxVfs Boot Firewall SandboxHost SandboxLife SandboxRun SandboxSpec SandboxNew SandboxLifeSpec SandboxExamples SandboxDarwin SandboxDarwinSpec.

Notation darwin_New fails network := (@SandboxDarwin.New linux_abi (other_os world) (host_that fails) 4242 8 0 0 "/opt/guest-init" "/vms" "/subnets" None
  "12345678" (λ _, "") (λ _, "") (λ _, "") demo_json "ghcr.io/kernel" (λ _ _ _, mret (Err (ErrIO ""))) (λ n, n) demo_options (demo_config network)).
Notation darwin_Close fails := (SandboxDarwin.Close (host_that fails) "/vms" "/subnets" None (λ _, "") (λ _, "")).

Definition darwin_ok (r : option (result new_error SandboxDarwin.Sandbox * host world)) : bool := match r with Some (Ok _, _) => true | _ => false end.

Lemma darwin_New_ok : darwin_ok (darwin_New fine (Some demo_network) demo_start) = true.
Proof. by vm_compute. Qed.


(** ** What shows on the way *)

(** Here too a configuration with no network part, which the tests before allow for, panics with the
    lease taken and the disks made. *)
Lemma darwin_no_network_panics : darwin_New fine None demo_start = None.
Proof. by vm_compute. Qed.

Definition create_fails (c : call) : bool := match c with CreateMachine _ => true | _ => false end.

(** The snapshots come before the machine: when it is not made they stay, with the swap image. *)
Lemma darwin_leaves_snapshots :
  match darwin_New create_fails (Some demo_network) demo_start with
  | Some (Err (ErrCreateVM _), h) =>
      held h (RSnapshot "/vms/vm-12345678/overlay/mount-000") && held h (RImage "/vms/vm-12345678/swap.img")
  | _ => false
  end = true.
Proof. by vm_compute. Qed.
